(* ===== verification/_CoqProject ===== *)
-Q . S2P
Prelude.v
JMailbox.v
JMd5.v
JLockService.v
JSequentialProcessor.v
JResourcePool.v
JCallGraph.v
JJanaDot.v
JPool.v
JMetrics.v
JArrow.v
Ledger.v
JPipelineArrow.v
JScheduler.v
JSchedulerStop.v
JEvent.v
JComponentSummary.v
JFoldUnfold.v
JComponent.v
JEventSource.v
JEventProcessor.v
JEventUnfolder.v
JEventArrows.v
JSubeventArrow.v
JFactory.v
JFactorySet.v
JMultifactory.v
JServiceLocator.v
JParameterManager.v
JStatusBits.v
JStreamLog.v
JObject.v
JCsvWriter.v
JLogging.v
JBenchmarker.v
JCalibrationFile.v
JCalibration.v
JCalibrationValues.v
JLargeCalibration.v
JXPath.v
JGeometryXML.v
JGeometry.v
JPluginLoader.v
JOmniFactory.v
JProcessorMapping.v
JComponentManager.v
JAutoActivator.v
JEventGroupTracker.v
JTablePrinter.v
JInspector.v
JRegressionTest.v
JTopologyBuilder.v
JEventFlow.v
JWorker.v
JArrowProcessingController.v
JApplication.v
JMain.v
