(* ===== verification/Prelude.v ===== *)
(** * JANA2: a verification library

    JANA2 is a framework for processing streams of physics events in parallel.  This library models
    its core, [src/src/libraries/JANA/], as Rocq definitions that can be evaluated, and proves
    theorems about them.  File names below are relative to that directory.

    ** The program

    A _topology_ is a graph of _arrows_.  An arrow takes events from a queue or pool, does something
    with them, and puts them into another queue or pool.  Worker threads ask the _scheduler_ for
    an arrow, execute it for a while, give it back, and ask for the next.  Arrows run the user's
    _components_: sources emit events, factories compute data on demand and keep it with the
    event, unfolders split an event into events of a lower level, processors consume events.  Services
    (parameters, the component manager, the processor mapping) configure all this, and the topology
    builder creates the graph from the components that plugins have registered.

    ** How it is modelled

    Pure code is a function.  Code that changes state or throws runs in the monad [M S A]: a function
    from a state to an [outcome] ([Ok], [Throw] or [Undef], the last for undefined behaviour: failed
    assertions, null dereferences, accesses out of range) and the state it leaves, also when it
    throws.  [size_t] and [int] arithmetic is [u64], [u32] or [i32] of the result in [Z].  Pointers
    are addresses or indices into a heap that is part of the state, so that aliasing is visible; the
    addresses that [new] returns are arguments.  Code that holds a mutex is one step; where threads
    interleave, a step relation says what one of them does between two points at which it
    synchronizes, and theorems are about all runs ([steps]).  User callbacks, the clock, the operating
    system and other code outside the repository are arguments.

    ** Files

    - [Prelude] (this file): exceptions, outcomes and the monad, loops, machine integers, lists, runs
      of step relations, and the tactics and hints for them.
    - [JMailbox] (Topology/JMailbox.h): bounded queues with reservations.  They are FIFO queues at each
      location under any mixture of operations; clients that respect reservations never overfill
      them; [reserve] wraps around once a soft push has overfilled a queue.
    - [JMd5] (Compatibility/md5.c): the message digest; it is that of RFC 1321, however a message is cut into pieces.
    - [JLockService] (Compatibility/JLockService.h, Services/JGlobalRootLock.h): named reader-writer locks.  In every interleaving a
      writer is alone, and a name always means the same lock.
    - [JResourcePool] (Utils/JResourcePool.h): a pool shared by threads; no object is handed out twice or lost.
    - [JCallGraph] (Utils/JCallGraphRecorder, JCallGraphEntryMaker.h): the record of which factory called which, also when calls throw, and its
      topological sort, which ends and puts callees first, but with duplicates if a call is repeated.
    - [JPool] (Topology/JPool.h): pools of recycled events.  Items are conserved, and come back to
      the location that owns them.
    - [JMetrics] (Topology/JArrowMetrics.h, Engine/JWorkerMetrics.h, Engine/JPerfMetrics): counters; no message
      is lost between the workers' and the arrows' metrics.
    - [JArrow], [Ledger], [JPipelineArrow] (Topology/JArrow.h, JPipelineArrow.h, JJunctionArrow.h): places and the
      arrows between them.  [Ledger] is the invariant that every event handed out by a pool is in
      exactly one queue or in the hands of one arrow; the arrows preserve it, whatever the user's
      code does.
    - [JScheduler], [JSchedulerStop] (Engine/JScheduler): who runs which arrow.  A sequential arrow is never with two
      workers; no arrow starves; a stage is finalized only when drained; the end of a running
      topology is detected exactly, with no worker at work; and several flaws of activation, pausing and finalization.
    - [JEvent] (JEvent.h, Utils/JEventLevel.h): parents and reference counts; a parent is recycled once, by
      its last child.
    - [JComponentSummary] (Status/JComponentSummary): the catalogue of components and their collections, as objects that are shared and
      deleted; it gives back what was added, except by the names of collections.
    - [JFoldUnfold] (Topology/JUnfoldArrow.h, JFoldArrow.h): arrows between event levels conserve events; an
      exception leaves child and parent checked out.
    - [JComponent] (Omni/JComponent.h, JComponentFwd.h): the exception wrapper around callbacks blames the
      innermost component.
    - [JEventSource], [JEventProcessor], [JEventUnfolder], [JEventArrows] (JEventSource.h, JEventProcessor.h, JEventUnfolder.h, Topology/JEventSourceArrow.cc,
      JEventProcessorArrow.cc, JEventMapArrow.cc): the life cycle of components.  A source serves exactly
      the range of events it is asked for; run changes are bracketed; children are numbered.
    - [JSubeventArrow] (Topology/JSubeventArrow.h): an event that is split into subevents comes back once, with all
      of them, in every interleaving, and one without subevents is lost; idle executions leak reservations until the arrow starves.
    - [JFactory], [JFactorySet] (JFactory, JFactoryT.h, JFactorySet, the getters of JEvent.h): data on demand.  A
      request evaluates each factory it depends on at most once, and inserted data is used or regenerated; merging factory sets loses nothing.
    - [JMultifactory] (JMultifactory): several outputs of one computation; it runs once per event if it sets all
      of them, and again if not.
    - [JParameterManager] (Services/JParameterManager): parameters; a configuration file that is written
      and read gives the same values; a value set by the user prevails over defaults.
    - [JStatusBits] (Compatibility/JStatusBits.h): a status word; its 64 bits behave as a set of numbers, and printing inserts
      descriptions.
    - [JStreamLog] (Compatibility/JStreamLog, JStreamLogBuffer): log streams.  In every interleaving of the threads the output is made
      of whole lines, in each thread's order, and none is lost; every run ends.
    - [JObject], [JCsvWriter] (JObject.h, JCsvWriter.h): associations between objects, as a heap.  The search by class name ends and finds what can be
      reached; getters return objects of the type they are asked for; a table of objects has one header and all of them.
    - [JLogging] (JLogger.h, Services/JLoggingService): log levels; each logger has the level that the parameters say.
    - [JBenchmarker] (CLI/JBenchmarker): rates at different numbers of threads; every number of the range is measured, if a
      step is positive.
    - [JCalibrationFile] (Calibrations/JCalibrationFile, JCalibration.cc): text files with calibration constants; maps and tables that are
      written read back.
    - [JCalibration] (Calibrations/JCalibration, JCalibrationManager.h): requests for constants and the objects that serve them; there is one
      object for each run, URL and context, unless an exception leaves a mutex locked.
    - [JCalibrationValues] (Calibrations/JCalibration): constants as values of a type, the kinds of containers and the dump of a job's
      constants, which can be read in their place if there is memory for the header of its table.
    - [JLargeCalibration] (Calibrations/JLargeCalibration): resource files.  One with a checksum is delivered only if its digest is right; for plain
      requests the table of resources stays true; and what goes wrong for others.
    - [JXPath], [JGeometryXML], [JGeometry] (Compatibility/JGeometryXML, JGeometry.h, JGeometryManager): geometry documents.  A search finds exactly the nodes
      that a path selects, the cache changes no answer, the paths that are listed lead back to their nodes, and the checksum is
      the digest of all files; and what happens to paths that are not of the form the parser expects.
    - [JPluginLoader] (Services/JPluginLoader): every plugin that is asked for, by the user or by another plugin, is attached once, in
      order, or an exception names the one that no path delivers.
    - [JOmniFactory] (Omni/JOmniFactory.h, JHasInputs.h): inputs and outputs by name; wiring gives each its names.
    - [JProcessorMapping] (Utils/JProcessorMapping): the text that lscpu prints determines a CPU and a
      location for every worker, within bounds.
    - [JComponentManager] (Services/JComponentManager): registration of components; inputs are opened by the generator most
      likely to understand them.
    - [JAutoActivator] (Utils/JAutoActivator): the list of factories to activate is parsed as written.
    - [JEventGroupTracker] (Services/JEventGroupTracker.h): counting the events of a group; somebody learns that a group
      is finished, but possibly too early and twice.
    - [JTablePrinter] (Utils/JTablePrinter): tables are well formed and aligned, wrapping loses nothing.
    - [JInspector] (Utils/JInspector): the console that prints an event.  Whatever its commands throw, ticker and timeout are restored when it is left;
      its numbers are off by one, and it never ends on cyclic associations.
    - [JJanaDot] (plugins/janadot): the processor that draws the graph of calls.  Every call (the special name for ignored factories apart) has an edge, and the times of the nodes add up to the
      total; with a focus its relatives are drawn, if the calls have no cycle.
    - [JRegressionTest] (plugins/regressiontest): the processor that compares the objects of a run with the log of an earlier one.  What is logged reads
      back, and exactly the factories of the later run with changed lines are reported; an old log that is too short throws, or never ends.
    - [JServiceLocator] (Services/JServiceLocator.h, JService): services that initialize each other on demand; each is initialized
      once and after what it depends on, if there is no cycle, and a cycle locks a mutex twice.
    - [JSequentialProcessor] (JEventProcessorSequential.h, JEventProcessorSequentialRoot.h): processors that run one event at a time.  In every interleaving of
      workers the user's code finds the objects of its own event, and factories run outside of the mutex.
    - [JTopologyBuilder] (Topology/JTopologyBuilder): the graphs that are built are wired correctly, and satisfy what the
      theorems about the scheduler assume.
    - [JEventFlow] (Topology/JPipelineArrow.h with JTopologyBuilder): the pipeline arrows, queues and pool of a topology together, executed by any number of
      workers that interleave between any two calls.  Every call returns, every event passes the arrows in turn, and none is
      lost or duplicated.
    - [JWorker], [JArrowProcessingController] (Engine/JWorker, Engine/JArrowProcessingController): the threads.  The
      interleaved system refines the scheduler's steps; retries are bounded; an exception stops all
      workers; a worker leaves after a pause; workers that are silent for too long are found.
    - [JApplication] (JApplication, Utils/JApplicationInspector.cc): what drives all this.  Initialization makes its calls
      in a fixed order; [Run] reports exceptions and timeouts to its caller; interrupts escalate; the
      inspector turns the timeout off for good.
    - [JMain] (CLI/JMain): the command line; what is written with options is parsed back, and the exit code tells how
      the run ended.

    ** Bounds and fuel

    Recursion that is not structural has fuel: the construction of a topology descends at most eight
    levels (there are eight event levels, and each call goes one down), the round-robin search
    of the scheduler visits each arrow once, returning an item visits each location of a pool once, and
    the depth of on-demand evaluation, of factories and of services, is bounded by the rank of the dependency graph.
    The loop over plugins that add plugins has fuel for as many turns as there are plugins, the topological sort for the number of paths
    in the graph, the parser of attributes for the length of the text, the search of associated objects for one more than the number of objects, the loops over blocks of a message or of a file for its length, and the benchmark for the numbers of threads it visits.
    The reader of an old log in [JRegressionTest] has fuel for its length, which is enough for the logs that the processor writes.
    The searches of ancestors in [JInspector] and of relatives in [JJanaDot] have fuel, and theorems say that they end without cycles and never with them.
    The supervising loop of [JApplication] consumes one observation per turn and has no fuel.  Theorems state that this is enough: the functions return.

    ** Not modelled

    The layout of performance reports, PODIO and ROOT adapters, and Python bindings produce or
    read data in formats of other programs and have no part in event processing.  The XML parser behind a geometry is an argument: the
    document that it delivers.  Opening of libraries, delivery of signals, pinning of
    threads and loading from the network are calls to other programs, and arguments here.  The headers for streaming are an experiment that
    is not finished: most of their methods have no body.  The other plugins are a benchmark, rate histograms, remote control over ZeroMQ and ROOT viewers.  Of [JApplication], the methods that
    only forward to a service modelled here are left out.  Template code that only
    constructs user classes (generators, declarative inputs and outputs) has no behaviour of its own
    apart from the constructed object.  Data races on plain members that C++ leaves undefined are not
    represented; where the code relies on a mutex or an atomic variable, that is the unit of a step. *)

From stdpp Require Export base list numbers gmap strings.
From Stdlib Require Export ZArith Lia.

(** ** Exceptions and outcomes *)

(** The data members of [JException] that the framework reads and writes. *)
Record JException := mkJException {
  exception_type : string;
  message : string;
  plugin_name : string;
  type_name : string;
  function_name : string;
  instance_name : string
}.

(** [JException("...")]: every annotation starts out empty. *)
Definition mkex (msg : string) : JException := mkJException EmptyString msg EmptyString EmptyString EmptyString EmptyString.

(** The legacy status codes that a user's [GetEvent] throws. *)
Inductive RETURN_STATUS :=
| kSUCCESS | kNO_MORE_EVENTS | kBUSY | kTRY_AGAIN | kERROR | kUNKNOWN.

(** The values the framework or the user's callbacks throw. *)
Inductive exn :=
| EJ (e : JException)
| EStd (what : string)
| EReturn (rs : RETURN_STATUS)
| ESize (n : Z)
| EOther.

(** What a C++ call does: it returns a value, throws, or is undefined (a failed
    [assert], a null dereference or an access outside an array). *)
Inductive outcome (A : Type) : Type :=
| Ok (a : A)
| Throw (e : exn)
| Undef.
Arguments Ok {A} a.
Arguments Throw {A} e.
Arguments Undef {A}.

#[export] Instance outcome_ret : MRet outcome := fun A a => Ok a.
#[export] Instance outcome_bind : MBind outcome := fun A B f o =>
  match o with
  | Ok a => f a
  | Throw e => Throw e
  | Undef => Undef
  end.
#[export] Instance outcome_fmap : FMap outcome := fun A B f o =>
  match o with
  | Ok a => Ok (f a)
  | Throw e => Throw e
  | Undef => Undef
  end.

(** [throw JException(msg)]. *)
Definition throwJ {A} (msg : string) : outcome A := Throw (EJ (mkex msg)).

(** Text between quotation marks. *)
Definition quoted (s : string) : string := String (Ascii.ascii_of_nat 34) s +:+ String (Ascii.ascii_of_nat 34) EmptyString.

(** [assert(b)]. *)
Definition assertb (b : bool) : outcome unit := if b then Ok tt else Undef.

(** Stateful code: an exception leaves the writes made before it in place. *)
Definition M (S A : Type) : Type := S -> outcome A * S.

#[export] Instance M_ret {S} : MRet (M S) := fun A a s => (Ok a, s).
#[export] Instance M_bind {S} : MBind (M S) := fun A B f m s =>
  match m s with
  | (Ok a, s') => f a s'
  | (Throw e, s') => (Throw e, s')
  | (Undef, s') => (Undef, s')
  end.

Definition get {S} : M S S := fun s => (Ok s, s).
Definition put {S} (s : S) : M S unit := fun _ => (Ok tt, s).
Definition modify {S} (f : S -> S) : M S unit := fun s => (Ok tt, f s).
Definition gets {S A} (f : S -> A) : M S A := fun s => (Ok (f s), s).
Definition lift {S A} (o : outcome A) : M S A := fun s => (o, s).
Definition throwM {S A} (msg : string) : M S A := lift (throwJ msg).

(** How a sequence runs: the first part returns, throws or is undefined. *)
Lemma M_bind_ok {S A B} (m : M S A) (f : A -> M S B) s a s' :
  m s = (Ok a, s') -> (x ← m; f x) s = f a s'.
Proof. unfold mbind, M_bind. by intros ->. Qed.

Lemma M_bind_throw {S A B} (m : M S A) (f : A -> M S B) s e s' :
  m s = (Throw e, s') -> (x ← m; f x) s = (Throw e, s').
Proof. unfold mbind, M_bind. by intros ->. Qed.

Lemma M_bind_assoc {S A B C} (m : M S A) (f : A -> M S B) (g : B -> M S C) s :
  (y ← (x ← m; f x); g y) s = (x ← m; y ← f x; g y) s.
Proof. unfold mbind, M_bind. by destruct (m s) as [[a| |] s1]. Qed.

Lemma M_bind_ret {S A B} (a : A) (f : A -> M S B) s : (x ← mret a; f x) s = f a s.
Proof. done. Qed.

Lemma M_bind_gets {S A B} (g : S -> A) (f : A -> M S B) s : (x ← gets g; f x) s = f (g s) s.
Proof. done. Qed.

Lemma M_bind_get {S B} (f : S -> M S B) s : (x ← get; f x) s = f s s.
Proof. done. Qed.

Lemma M_bind_lift {S A B} (o : outcome A) (f : A -> M S B) s a : o = Ok a -> (x ← lift o; f x) s = f a s.
Proof. by intros ->. Qed.

Lemma M_bind_modify {S B} (g : S -> S) (f : unit -> M S B) s : (x ← modify g; f x) s = f tt (g s).
Proof. done. Qed.

(** A sequence that returned: both parts did. *)
Lemma M_bind_inv {S A B} (m : M S A) (f : A -> M S B) s b s' :
  (x ← m; f x) s = (Ok b, s') -> exists a s1, m s = (Ok a, s1) /\ f a s1 = (Ok b, s').
Proof. unfold mbind, M_bind. destruct (m s) as [[a| |] s1]; naive_solver. Qed.

(** Whether a call returns is decidable; if it does, its state is what evaluation gives. *)
Definition returns {S A} (m : M S A) (s : S) : bool := match (m s).1 with Ok _ => true | _ => false end.

Lemma returns_ok {S A} (m : M S A) s : returns m s = true -> exists a, m s = (Ok a, (m s).2).
Proof. unfold returns. destruct (m s) as [[a| |] s']; [by exists a|done..]. Qed.

Lemma returns_value {S A} (m : M S A) s a : (m s).1 = Ok a -> m s = (Ok a, (m s).2).
Proof. destruct (m s) as [r s']. cbn. by intros ->. Qed.

Create Rewrite HintDb monad.
#[export] Hint Rewrite @M_bind_ret @M_bind_gets @M_bind_get @M_bind_modify : monad.

(** Run the first part of a sequence with the equation [H]. *)
Ltac mstep H := erewrite M_bind_ok; [|exact H]; cbn beta iota.

(** [for (x : l) body(x)]. *)
Fixpoint for_each {S A} (l : list A) (body : A -> M S unit) : M S unit :=
  match l with
  | [] => mret tt
  | x :: l' => _ ← body x; for_each l' body
  end.

Lemma for_each_app {S A} (l1 l2 : list A) (body : A -> M S unit) s :
  for_each (l1 ++ l2) body s = (_ ← for_each l1 body; for_each l2 body) s.
Proof.
  revert s. induction l1 as [|x l1 IH]; intros s; [done|]. cbn [app for_each]. rewrite M_bind_assoc.
  unfold mbind, M_bind. destruct (body x s) as [[[]| |] s1]; [apply IH|done..].
Qed.

(** Entries appended to a log one at a time. *)
Lemma snoc_two {A} (l : list A) a b : l ++ [a; b] = (l ++ [a]) ++ [b].
Proof. by rewrite <- app_assoc. Qed.

Lemma snoc_three {A} (l : list A) a b c : l ++ [a; b; c] = ((l ++ [a]) ++ [b]) ++ [c].
Proof. by rewrite <- !app_assoc. Qed.

(** [m] relates every state to the state it leaves, whatever its outcome. *)
Definition keeps {S A} (R : S -> S -> Prop) (m : M S A) : Prop := forall s, R s (m s).2.

Section Keeps.
Context {S : Type} (R : S -> S -> Prop) `{!PreOrder R}.

Lemma keeps_ret {A} (a : A) : keeps R (mret a).
Proof. intros s. simpl. reflexivity. Qed.

Lemma keeps_lift {A} (o : outcome A) : keeps R (lift o).
Proof. intros s. simpl. reflexivity. Qed.

Lemma keeps_gets {A} (f : S -> A) : keeps R (gets f).
Proof. intros s. simpl. reflexivity. Qed.

Lemma keeps_get : keeps R get.
Proof. intros s. simpl. reflexivity. Qed.

Lemma keeps_bind {A B} (m : M S A) (f : A -> M S B) :
  keeps R m -> (forall a, keeps R (f a)) -> keeps R (x ← m; f x).
Proof.
  intros Hm Hf s. specialize (Hm s). unfold mbind, M_bind.
  destruct (m s) as [[a| |] s1]; simpl in *; [|done|done]. etransitivity; [exact Hm|apply Hf].
Qed.

Lemma keeps_for_each {A} (l : list A) (body : A -> M S unit) :
  (forall x, keeps R (body x)) -> keeps R (for_each l body).
Proof.
  intros Hb. induction l as [|x l IH]; simpl; [apply keeps_ret|]. by apply keeps_bind.
Qed.
End Keeps.

(** Decompose a goal [keeps R m] along the structure of [m]. *)
Ltac keeps_step :=
  match goal with
  | |- keeps _ (mbind _ _) => apply keeps_bind; [apply _| |intros ?]
  | |- keeps _ (mret _) => apply keeps_ret; apply _
  | |- keeps _ (lift _) => apply keeps_lift; apply _
  | |- keeps _ (throwM _) => apply keeps_lift; apply _
  | |- keeps _ (gets _) => apply keeps_gets; apply _
  | |- keeps _ get => apply keeps_get; apply _
  | |- keeps _ (for_each _ _) => apply keeps_for_each; [apply _|intros ?]
  | |- keeps _ (if ?b then _ else _) => destruct b
  | |- keeps _ (match ?x with _ => _ end) => destruct x
  end.

(** ** Machine integers *)

Definition size_max : Z := (2 ^ 64)%Z.

(** [size_t] and [uint64_t] arithmetic. *)
Definition u64 (z : Z) : Z := (z mod 2 ^ 64)%Z.
Definition u32 (z : Z) : Z := (z mod 2 ^ 32)%Z.

Lemma u64_small z : (0 <= z < 2 ^ 64)%Z -> u64 z = z.
Proof. apply Z.mod_small. Qed.

Lemma u64_range z : (0 <= u64 z < 2 ^ 64)%Z.
Proof. apply Z.mod_pos_bound; lia. Qed.

Lemma u32_small z : (0 <= z < 2 ^ 32)%Z -> u32 z = z.
Proof. apply Z.mod_small. Qed.

Lemma u32_range z : (0 <= u32 z < 2 ^ 32)%Z.
Proof. apply Z.mod_pos_bound; lia. Qed.

(** Conversion to [int]. *)
Definition i32 (z : Z) : Z := ((z + 2 ^ 31) mod 2 ^ 32 - 2 ^ 31)%Z.

Lemma i32_small z : (- 2 ^ 31 <= z < 2 ^ 31)%Z -> i32 z = z.
Proof. intros Hz. unfold i32. rewrite Z.mod_small; lia. Qed.

(** Congruence modulo 2^64: what two counters that may have wrapped have in common. *)
Definition cong64 (a b : Z) : Prop := u64 a = u64 b.

Declare Scope jana_scope.
Delimit Scope jana_scope with jana.
Notation "a '≡64' b" := (cong64 a b) (at level 70, no associativity) : jana_scope.
Open Scope jana_scope.

#[export] Instance cong64_equiv : Equivalence cong64.
Proof. unfold cong64. split; red; congruence. Qed.

#[export] Instance cong64_add : Proper (cong64 ==> cong64 ==> cong64) Z.add.
Proof.
  intros a a' Ha b b' Hb. unfold cong64, u64 in *.
  rewrite Z.add_mod, Ha, Hb, <- Z.add_mod by lia. done.
Qed.

#[export] Instance cong64_sub : Proper (cong64 ==> cong64 ==> cong64) Z.sub.
Proof.
  intros a a' Ha b b' Hb. unfold cong64, u64 in *.
  rewrite Zminus_mod, Ha, Hb, <- Zminus_mod. done.
Qed.

Lemma cong64_u64 a : (u64 a ≡64 a)%jana.
Proof. unfold cong64, u64. by rewrite Z.mod_mod by lia. Qed.

Lemma cong64_eq a b : a = b -> (a ≡64 b)%jana.
Proof. by intros ->. Qed.

(** ** Lists *)

(** [v.size()]. *)
Definition sizeZ {A} (l : list A) : Z := Z.of_nat (length l).

Lemma sizeZ_nonneg {A} (l : list A) : (0 <= sizeZ l)%Z.
Proof. unfold sizeZ; lia. Qed.

Lemma sizeZ_app {A} (l k : list A) : sizeZ (l ++ k) = (sizeZ l + sizeZ k)%Z.
Proof. unfold sizeZ; rewrite length_app; lia. Qed.

Lemma sizeZ_nil {A} : sizeZ (@nil A) = 0%Z.
Proof. reflexivity. Qed.

Lemma sizeZ_cons {A} (x : A) l : sizeZ (x :: l) = (1 + sizeZ l)%Z.
Proof. unfold sizeZ; simpl; lia. Qed.

Lemma sizeZ_take {A} (n : nat) (l : list A) :
  sizeZ (take n l) = Z.min (Z.of_nat n) (sizeZ l).
Proof. unfold sizeZ; rewrite length_take; lia. Qed.

Lemma sizeZ_drop {A} (n : nat) (l : list A) :
  sizeZ (drop n l) = Z.max 0 (sizeZ l - Z.of_nat n).
Proof. unfold sizeZ; rewrite length_drop; lia. Qed.

Lemma concat_all_nil {A} (l : list (list A)) : Forall (fun k => k = []) l -> concat l = [].
Proof. by induction 1 as [|k l -> _ IH]. Qed.

(** Replacing one list of a list of lists. *)
Lemma concat_fmap_insert {A B} (f : A -> list B) (l : list A) j a :
  l !! j = Some a -> exists R, concat (f <$> l) ≡ₚ f a ++ R /\
    forall a', concat (f <$> <[j := a']> l) ≡ₚ f a' ++ R.
Proof.
  intros Hj. exists (concat (f <$> take j l) ++ concat (f <$> drop (S j) l)).
  pose proof (lookup_lt_Some _ _ _ Hj) as Hlt. split.
  - rewrite <- (take_drop_middle l j a Hj) at 1.
    rewrite fmap_app, concat_app. simpl. solve_Permutation.
  - intros a'. rewrite insert_take_drop, fmap_app, concat_app by done. simpl. solve_Permutation.
Qed.

(** ** Runs of a step relation *)

Section Runs.
Context {St : Type} (step : St -> St -> Prop).

Inductive steps : St -> St -> Prop :=
| steps_refl s : steps s s
| steps_cons s1 s2 s3 : step s1 s2 -> steps s2 s3 -> steps s1 s3.

(** Rule induction: what every step preserves holds after every run. *)
Lemma steps_invariant (P : St -> Prop) :
    (forall s s', P s -> step s s' -> P s') ->
    forall s s', steps s s' -> P s -> P s'.
Proof. intros Hstep s s' Hs; induction Hs; eauto. Qed.

Lemma steps_trans s1 s2 s3 : steps s1 s2 -> steps s2 s3 -> steps s1 s3.
Proof. induction 1; eauto using steps. Qed.
End Runs.

(** ** Automation *)

Create HintDb jana.
#[export] Hint Resolve sizeZ_nonneg u64_range u32_range : jana.
#[export] Hint Constructors steps : jana.

Create Rewrite HintDb size.
#[export] Hint Rewrite @sizeZ_app @sizeZ_cons @sizeZ_nil @sizeZ_take @sizeZ_drop : size.

(** Normalise the sizes of lists and close the arithmetic goal. *)
Ltac size_lia :=
  repeat match goal with
         | |- context [sizeZ ?l] =>
             lazymatch goal with
             | _ : (0 <= sizeZ l)%Z |- _ => fail
             | _ => pose proof (sizeZ_nonneg l)
             end
         | _ : context [sizeZ ?l] |- _ =>
             lazymatch goal with
             | _ : (0 <= sizeZ l)%Z |- _ => fail
             | _ => pose proof (sizeZ_nonneg l)
             end
         end;
  autorewrite with size in *; try lia.
