(* ===== verification/JMailbox.v ===== *)
(** * JMailbox: the bounded event queue between arrows

    Model of [src/src/libraries/JANA/Topology/JMailbox.h].  A mailbox is an array
    of local queues, one per location; each holds a deque of items and the number
    of slots that arrows have reserved on it.  Every operation runs under the
    mutex of one local queue, so an operation is one atomic step on the mailbox;
    a [try_lock] that fails is the argument [contended].  Overloads get distinct
    names: [reserve_range] is [reserve(min, max, location)], [pop_vector] and
    [pop_item] are the two older [pop] overloads. *)

From S2P Require Import Prelude.
Local Open Scope Z_scope.

Module Mailbox.

Inductive Status := Ready | Congested | Empty | Full.

#[export] Instance Status_eq_dec : EqDecision Status.
Proof. solve_decision. Defined.

Record LocalQueue (T : Type) := mkLocalQueue {
  queue : list T;
  reserved_count : Z
}.
Arguments mkLocalQueue {T} _ _.
Arguments queue {T} _.
Arguments reserved_count {T} _.

Record JMailbox (T : Type) := mkJMailbox {
  m_capacity : Z;
  m_locations_count : Z;
  m_enable_work_stealing : bool;
  m_queues : list (LocalQueue T)
}.
Arguments mkJMailbox {T} _ _ _ _.
Arguments m_capacity {T} _.
Arguments m_locations_count {T} _.
Arguments m_enable_work_stealing {T} _.
Arguments m_queues {T} _.

Section Operations.
Context {T : Type} (nullptr : T).
Implicit Types (mb : JMailbox T) (q : LocalQueue T) (buffer : list T).

(** The constructor: one empty local queue per location. *)
Definition make (threshold locations_count : Z) (enable_work_stealing : bool) : JMailbox T :=
  mkJMailbox threshold locations_count enable_work_stealing
    (replicate (Z.to_nat locations_count) (mkLocalQueue [] 0)).

Definition get_threshold mb : Z := m_capacity mb.

Definition set_threshold (threshold : Z) mb : JMailbox T :=
  mkJMailbox threshold (m_locations_count mb) (m_enable_work_stealing mb) (m_queues mb).

Definition set_queue (location_id : nat) q mb : JMailbox T :=
  mkJMailbox (m_capacity mb) (m_locations_count mb) (m_enable_work_stealing mb)
    (<[location_id := q]> (m_queues mb)).

(** [m_queues[location_id]] under its mutex; outside the array it is undefined. *)
Definition at_location {A} mb (location_id : nat)
    (f : LocalQueue T -> outcome (A * LocalQueue T)) : outcome (A * JMailbox T) :=
  match m_queues mb !! location_id with
  | Some q => r ← f q; Ok (r.1, set_queue location_id r.2 mb)
  | None => Undef
  end.

(** [size()]: the number of items over all locations. *)
Definition size mb : Z :=
  foldl (fun result q => u64 (result + sizeZ (queue q))) 0 (m_queues mb).

(** [size(location_id)]. *)
Definition size_at mb (location_id : nat) : outcome Z :=
  match m_queues mb !! location_id with
  | Some q => Ok (sizeZ (queue q))
  | None => Undef
  end.

(** [m_capacity - mb.queue.size() - mb.reserved_count] in [size_t]. *)
Definition free_slots mb q : Z :=
  u64 (m_capacity mb - sizeZ (queue q) - reserved_count q).

(** [reserve(requested_count, location_id)]. *)
Definition reserve mb (requested_count : Z) (location_id : nat) : outcome (Z * JMailbox T) :=
  at_location mb location_id (fun q =>
    let doable_count := free_slots mb q in
    if 0 <? doable_count then
      let reservation := Z.min doable_count requested_count in
      Ok (reservation, mkLocalQueue (queue q) (u64 (reserved_count q + reservation)))
    else Ok (0, q)).

(** [push(buffer, reserved_count, location_id)]: the soft push. *)
Definition push mb buffer (reserved : Z) (location_id : nat)
    : outcome ((Status * list T) * JMailbox T) :=
  at_location mb location_id (fun q =>
    let q' := mkLocalQueue (queue q ++ buffer) (u64 (reserved_count q - reserved)) in
    let status := if m_capacity mb <? sizeZ (queue q') then Full else Ready in
    Ok ((status, []), q')).

(** [pop(vector& buffer, requested_count, location_id)]. *)
Definition pop_vector (contended : bool) mb buffer (requested_count : Z) (location_id : nat)
    : outcome ((Status * list T) * JMailbox T) :=
  if contended then
    match m_queues mb !! location_id with
    | Some _ => Ok ((Congested, buffer), mb)
    | None => Undef
    end
  else at_location mb location_id (fun q =>
    let nitems := Z.to_nat (Z.min requested_count (sizeZ (queue q))) in
    let q' := mkLocalQueue (drop nitems (queue q)) (reserved_count q) in
    let size := sizeZ (queue q') in
    let status := if m_capacity mb <=? size then Full
                  else if negb (size =? 0) then Ready else Empty in
    Ok ((status, buffer ++ take nitems (queue q)), q')).

(** [pop(item, success, location_id)]: [item] and [success] are out parameters. *)
Definition pop_item (contended : bool) mb (item : T) (location_id : nat)
    : outcome ((Status * T * bool) * JMailbox T) :=
  if contended then
    match m_queues mb !! location_id with
    | Some _ => Ok ((Congested, item, false), mb)
    | None => Undef
    end
  else at_location mb location_id (fun q =>
    match queue q with
    | x :: (_ :: _) as rest =>
        Ok ((Ready, x, true), mkLocalQueue (drop 1 (queue q)) (reserved_count q))
    | [x] => Ok ((Empty, x, true), mkLocalQueue [] (reserved_count q))
    | [] => Ok ((Empty, item, false), q)
    end).

(** [for (i=0; i<count; ++i) { queue.push_back(buffer[i]); buffer[i] = nullptr; }] *)
Fixpoint push_loop (count i : nat) buffer (items : list T) : outcome (list T * list T) :=
  match count with
  | O => Ok (buffer, items)
  | S count' =>
      match buffer !! i with
      | Some x => push_loop count' (S i) (<[i := nullptr]> buffer) (items ++ [x])
      | None => Undef
      end
  end.

(** [for (i=0; i<nitems; ++i) { buffer[i] = queue.front(); queue.pop_front(); }] *)
Fixpoint pop_loop (nitems i : nat) buffer (items : list T) : outcome (list T * list T) :=
  match nitems with
  | O => Ok (buffer, items)
  | S nitems' =>
      match items with
      | x :: items' =>
          if decide (i < length buffer)%nat
          then pop_loop nitems' (S i) (<[i := x]> buffer) items'
          else Undef
      | [] => Undef
      end
  end.

Definition try_push mb buffer (count : Z) (location_id : nat)
    : outcome ((bool * list T) * JMailbox T) :=
  at_location mb location_id (fun q =>
    if m_capacity mb <? u64 (sizeZ (queue q) + count) then Ok ((false, buffer), q)
    else
      r ← push_loop (Z.to_nat count) 0 buffer (queue q);
      Ok ((true, r.1), mkLocalQueue r.2 (reserved_count q))).

Definition push_and_unreserve mb buffer (count reserved : Z) (location_id : nat)
    : outcome (list T * JMailbox T) :=
  at_location mb location_id (fun q =>
    _ ← assertb (reserved <=? reserved_count q);
    _ ← assertb (u64 (sizeZ (queue q) + count) <=? m_capacity mb);
    r ← push_loop (Z.to_nat count) 0 buffer (queue q);
    Ok (r.1, mkLocalQueue r.2 (u64 (reserved_count q - reserved)))).

(** [pop(buffer, min_requested_count, max_requested_count, location_id)]. *)
Definition pop mb buffer (min_requested_count max_requested_count : Z) (location_id : nat)
    : outcome ((Z * list T) * JMailbox T) :=
  at_location mb location_id (fun q =>
    if sizeZ (queue q) <? min_requested_count then Ok ((0, buffer), q)
    else
      let nitems := Z.min max_requested_count (sizeZ (queue q)) in
      r ← pop_loop (Z.to_nat nitems) 0 buffer (queue q);
      Ok ((nitems, r.1), mkLocalQueue r.2 (reserved_count q))).

Definition pop_and_reserve mb buffer (min_requested_count max_requested_count : Z)
    (location_id : nat) : outcome ((Z * list T) * JMailbox T) :=
  at_location mb location_id (fun q =>
    if sizeZ (queue q) <? min_requested_count then Ok ((0, buffer), q)
    else
      let nitems := Z.min max_requested_count (sizeZ (queue q)) in
      r ← pop_loop (Z.to_nat nitems) 0 buffer (queue q);
      Ok ((nitems, r.1), mkLocalQueue r.2 (u64 (reserved_count q + nitems)))).

(** [reserve(min_requested_count, max_requested_count, location_id)]. *)
Definition reserve_range mb (min_requested_count max_requested_count : Z) (location_id : nat)
    : outcome (Z * JMailbox T) :=
  at_location mb location_id (fun q =>
    let count := Z.min (free_slots mb q) max_requested_count in
    if count <? min_requested_count then Ok (0, q)
    else Ok (count, mkLocalQueue (queue q) (u64 (reserved_count q + count)))).

Definition unreserve mb (reserved : Z) (location_id : nat) : outcome (unit * JMailbox T) :=
  at_location mb location_id (fun q =>
    _ ← assertb (reserved <=? reserved_count q);
    Ok (tt, mkLocalQueue (queue q) (u64 (reserved_count q - reserved)))).

End Operations.

(** ** The loops, in closed form *)

Section Loops.
Context {T : Type} (nullptr : T).

Lemma push_loop_spec count : forall i (buffer items : list T),
  (i + count <= length buffer)%nat ->
  push_loop nullptr count i buffer items =
  Ok (take i buffer ++ replicate count nullptr ++ drop (i + count) buffer,
      items ++ take count (drop i buffer)).
Proof.
  induction count as [|count IH]; intros i buffer items Hlen; simpl.
  - by rewrite Nat.add_0_r, app_nil_r, take_drop.
  - destruct (lookup_lt_is_Some_2 buffer i) as [x Hx]; [lia|].
    rewrite Hx, IH by (rewrite length_insert; lia).
    rewrite (drop_S buffer x i Hx), firstn_cons, drop_insert_lt, <- app_assoc by lia.
    rewrite (take_S_r _ i nullptr) by (rewrite list_lookup_insert_eq; [done|lia]).
    rewrite take_insert_ge, drop_insert_lt by lia.
    rewrite <- app_assoc; simpl. repeat f_equal; lia.
Qed.

Lemma pop_loop_spec nitems : forall i (buffer items : list T),
  (i + nitems <= length buffer)%nat -> (nitems <= length items)%nat ->
  pop_loop nitems i buffer items =
  Ok (take i buffer ++ take nitems items ++ drop (i + nitems) buffer, drop nitems items).
Proof.
  induction nitems as [|n IH]; intros i buffer items Hb Hi; simpl.
  - by rewrite Nat.add_0_r, take_drop.
  - destruct items as [|x items]; simpl in *; [lia|].
    case_decide; [|lia].
    rewrite IH by (rewrite ?length_insert; lia).
    rewrite (take_S_r _ i x) by (rewrite list_lookup_insert_eq; [done|lia]).
    rewrite take_insert_ge, drop_insert_lt by lia.
    rewrite <- app_assoc; simpl. repeat f_equal; lia.
Qed.

(** A loop that finishes read, or wrote, only inside the buffer. *)
Lemma push_loop_ok count : forall i (buffer items : list T) r,
  push_loop nullptr count i buffer items = Ok r ->
  count = 0%nat \/ (i + count <= length buffer)%nat.
Proof.
  induction count as [|count IH]; intros i buffer items r; simpl; [by left|].
  destruct (buffer !! i) as [x|] eqn:Hx; [|done]. intros H%IH.
  apply lookup_lt_Some in Hx. rewrite length_insert in H. lia.
Qed.

Lemma pop_loop_ok nitems : forall i (buffer items : list T) r,
  pop_loop nitems i buffer items = Ok r ->
  nitems = 0%nat \/ (i + nitems <= length buffer)%nat /\ (nitems <= length items)%nat.
Proof.
  induction nitems as [|n IH]; intros i buffer items r; simpl; [by left|].
  destruct items as [|x items]; [done|]. case_decide; [|done].
  intros Hr%IH. rewrite length_insert in Hr. simpl. lia.
Qed.

Lemma push_loop_inv count (buffer items : list T) r :
  push_loop nullptr count 0 buffer items = Ok r ->
  r.2 = items ++ take count buffer /\ length r.1 = length buffer.
Proof.
  intros H. destruct (push_loop_ok _ _ _ _ _ H) as [->|Hle].
  - simpl in H. simplify_eq/=. by rewrite app_nil_r.
  - rewrite push_loop_spec in H by lia. simplify_eq/=.
    rewrite length_app, length_replicate, length_drop. split; [done|lia].
Qed.

Lemma pop_loop_inv nitems (buffer items : list T) r :
  pop_loop nitems 0 buffer items = Ok r ->
  items = take nitems r.1 ++ r.2 /\ r.2 = drop nitems items /\ length r.1 = length buffer.
Proof.
  intros H. destruct (pop_loop_ok _ _ _ _ _ H) as [->|[Hle Hi]].
  - simpl in H. by simplify_eq/=.
  - rewrite pop_loop_spec in H by lia. simplify_eq/=.
    rewrite take_app_le, take_take, Nat.min_id, take_drop by (rewrite length_take; lia).
    rewrite length_app, length_take, length_drop. repeat split; lia.
Qed.

End Loops.

(** ** A mailbox is a FIFO queue at every location *)

Section Fifo.
Context {T : Type} (nullptr : T).
Implicit Types (mb : JMailbox T) (q : LocalQueue T).

Definition contents mb (loc : nat) : list T :=
  match m_queues mb !! loc with Some q => queue q | None => [] end.

Lemma at_location_inv {A} mb loc (f : LocalQueue T -> outcome (A * LocalQueue T)) a mb' :
  at_location mb loc f = Ok (a, mb') ->
  exists q q', m_queues mb !! loc = Some q /\ f q = Ok (a, q') /\ mb' = set_queue loc q' mb.
Proof.
  unfold at_location. destruct (m_queues mb !! loc) as [q|]; [|done].
  destruct (f q) as [[a' q']| |] eqn:Hf; simpl; try done.
  intros [= <- <-]. eauto.
Qed.

Lemma lookup_set_queue loc q mb q0 :
  m_queues mb !! loc = Some q0 -> m_queues (set_queue loc q mb) !! loc = Some q.
Proof. intros H. simpl. apply list_lookup_insert_eq. by eapply lookup_lt_Some. Qed.

Lemma lookup_set_queue_ne loc loc' q mb :
  loc <> loc' -> m_queues (set_queue loc q mb) !! loc' = m_queues mb !! loc'.
Proof. intros. by apply list_lookup_insert_ne. Qed.

(** One call of a mailbox operation at [loc]: the items it puts in, in order, and
    the items it hands to the caller. *)
Inductive op_step : JMailbox T -> nat -> list T -> list T -> JMailbox T -> Prop :=
| os_push mb loc buffer reserved r mb' :
    push mb buffer reserved loc = Ok (r, mb') -> op_step mb loc buffer [] mb'
| os_try_push mb loc buffer count r mb' :
    try_push nullptr mb buffer count loc = Ok (r, mb') ->
    op_step mb loc (if r.1 then take (Z.to_nat count) buffer else []) [] mb'
| os_push_and_unreserve mb loc buffer count reserved r mb' :
    push_and_unreserve nullptr mb buffer count reserved loc = Ok (r, mb') ->
    op_step mb loc (take (Z.to_nat count) buffer) [] mb'
| os_pop_vector contended mb loc buffer count r mb' :
    pop_vector contended mb buffer count loc = Ok (r, mb') ->
    op_step mb loc [] (drop (length buffer) r.2) mb'
| os_pop_item contended mb loc item r mb' :
    pop_item contended mb item loc = Ok (r, mb') ->
    op_step mb loc [] (if r.2 then [r.1.2] else []) mb'
| os_pop mb loc buffer lo hi r mb' :
    pop mb buffer lo hi loc = Ok (r, mb') ->
    op_step mb loc [] (take (Z.to_nat r.1) r.2) mb'
| os_pop_and_reserve mb loc buffer lo hi r mb' :
    pop_and_reserve mb buffer lo hi loc = Ok (r, mb') ->
    op_step mb loc [] (take (Z.to_nat r.1) r.2) mb'
| os_reserve mb loc n r mb' :
    reserve mb n loc = Ok (r, mb') -> op_step mb loc [] [] mb'
| os_reserve_range mb loc lo hi r mb' :
    reserve_range mb lo hi loc = Ok (r, mb') -> op_step mb loc [] [] mb'
| os_unreserve mb loc n r mb' :
    unreserve mb n loc = Ok (r, mb') -> op_step mb loc [] [] mb'
| os_set_threshold mb loc n : op_step mb loc [] [] (set_threshold n mb).

Lemma contents_set_queue mb loc q q' ins outs :
  m_queues mb !! loc = Some q -> queue q ++ ins = outs ++ queue q' ->
  contents mb loc ++ ins = outs ++ contents (set_queue loc q' mb) loc /\
  forall loc', loc <> loc' -> contents (set_queue loc q' mb) loc' = contents mb loc'.
Proof.
  intros Hq Heq. unfold contents. rewrite (lookup_set_queue _ _ _ _ Hq), Hq.
  split; [done|]. intros. by rewrite lookup_set_queue_ne.
Qed.

(** What one call does to the queue of its location, and to the others. *)
Lemma op_step_contents mb loc ins outs mb' :
  op_step mb loc ins outs mb' ->
  contents mb loc ++ ins = outs ++ contents mb' loc /\
  forall loc', loc <> loc' -> contents mb' loc' = contents mb loc'.
Proof.
  destruct 1 as [mb loc b n r mb' H|mb loc b n r mb' H|mb loc b n m r mb' H|[] mb loc b n r mb' H
    |[] mb loc x r mb' H|mb loc b lo hi r mb' H|mb loc b lo hi r mb' H|mb loc n r mb' H
    |mb loc lo hi r mb' H|mb loc n r mb' H|mb loc n].
  4: { simpl in H. case_match; simplify_eq/=. by rewrite drop_all, app_nil_r. }
  5: { simpl in H. case_match; simplify_eq/=. by rewrite app_nil_r. }
  11: by rewrite app_nil_r.
  all: apply at_location_inv in H as (q & q' & Hq & Hf & ->);
    apply (contents_set_queue _ _ q); [done|].
  - simplify_eq/=. done.
  - case_match; simplify_eq/=; [by rewrite app_nil_r|].
    destruct (push_loop _ _ _ _ _) as [w| |] eqn:Hw; simplify_eq/=.
    by apply push_loop_inv in Hw as [-> _].
  - unfold assertb in Hf. do 2 (case_match; simplify_eq/=).
    destruct (push_loop _ _ _ _ _) as [w| |] eqn:Hw; simplify_eq/=.
    by apply push_loop_inv in Hw as [-> _].
  - simplify_eq/=. by rewrite app_nil_r, drop_app_length, take_drop.
  - destruct (queue q) as [|x1 [|x2 rest]] eqn:Hqq; simplify_eq/=; by rewrite ?app_nil_r, ?Hqq.
  - case_match; simplify_eq/=; [by rewrite app_nil_r|].
    destruct (pop_loop _ _ _ _) as [w| |] eqn:Hw; simplify_eq/=.
    apply pop_loop_inv in Hw as (? & _). by rewrite app_nil_r.
  - case_match; simplify_eq/=; [by rewrite app_nil_r|].
    destruct (pop_loop _ _ _ _) as [w| |] eqn:Hw; simplify_eq/=.
    apply pop_loop_inv in Hw as (? & _). by rewrite app_nil_r.
  - simpl in Hf. case_match; simplify_eq/=; by rewrite app_nil_r.
  - simpl in Hf. case_match; simplify_eq/=; by rewrite app_nil_r.
  - unfold assertb in Hf. case_match; simplify_eq/=. by rewrite app_nil_r.
Qed.

(** The items of every location. *)
Definition mailbox_items mb : list T := concat (queue <$> m_queues mb).

Lemma op_step_length mb loc ins outs mb' :
  op_step mb loc ins outs mb' -> length (m_queues mb') = length (m_queues mb).
Proof.
  destruct 1 as [? ? ? ? ? ? H|? ? ? ? ? ? H|? ? ? ? ? ? ? H|[] ? ? ? ? ? ? H
    |[] ? ? ? ? ? H|? ? ? ? ? ? ? H|? ? ? ? ? ? ? H|? ? ? ? ? H
    |? ? ? ? ? ? H|? ? ? ? ? H|? ? ?].
  4, 6: simpl in H; case_match; by simplify_eq/=.
  11: done.
  all: apply at_location_inv in H as (q & q' & _ & _ & ->); apply length_insert.
Qed.

Lemma op_step_items mb loc ins outs mb' :
  op_step mb loc ins outs mb' -> mailbox_items mb ++ ins ≡ₚ outs ++ mailbox_items mb'.
Proof.
  intros Hs. pose proof (op_step_length _ _ _ _ _ Hs) as Hlen.
  apply op_step_contents in Hs as [Hloc Hother]. unfold mailbox_items, contents in *.
  destruct (m_queues mb !! loc) as [q|] eqn:Hq.
  - destruct (lookup_lt_is_Some_2 (m_queues mb') loc) as [q' Hq'];
      [rewrite Hlen; by eapply lookup_lt_Some|]. rewrite Hq' in Hloc.
    destruct (concat_fmap_insert queue _ _ _ Hq) as (R & HR & HR').
    assert (Heq : queue <$> m_queues mb' = queue <$> <[loc := q']> (m_queues mb)).
    { apply list_eq_same_length with (length (m_queues mb)); try by rewrite length_fmap, ?length_insert.
      intros i x y Hi. rewrite !list_lookup_fmap. destruct (decide (loc = i)) as [->|Hne].
      - rewrite list_lookup_insert_eq, Hq' by done. simpl. congruence.
      - rewrite list_lookup_insert_ne by done. specialize (Hother i Hne).
        destruct (m_queues mb' !! i), (m_queues mb !! i); simpl in *; congruence. }
    rewrite Heq, HR', HR. rewrite <- !app_assoc, (Permutation_app_comm R), !app_assoc.
    by rewrite Hloc.
  - rewrite (lookup_ge_None_2 (m_queues mb') loc) in Hloc
      by (rewrite Hlen; by apply lookup_ge_None).
    simpl in Hloc. rewrite app_nil_r in Hloc. subst outs.
    assert (Heq : queue <$> m_queues mb' = queue <$> m_queues mb).
    { apply list_eq_same_length with (length (m_queues mb)); try by rewrite length_fmap.
      intros i x y Hi. rewrite !list_lookup_fmap.
      destruct (decide (loc = i)) as [->|Hne]; [apply lookup_ge_None in Hq; lia|].
      specialize (Hother i Hne).
      destruct (m_queues mb' !! i), (m_queues mb !! i); simpl in *; congruence. }
    rewrite Heq. solve_Permutation.
Qed.

(** A sequence of calls by any number of arrows, in the order in which they got the
    mutex, seen from one location. *)
Inductive op_run (loc : nat) : JMailbox T -> list T -> list T -> JMailbox T -> Prop :=
| run_nil mb : op_run loc mb [] [] mb
| run_here mb mb1 mb2 i o ins outs :
    op_step mb loc i o mb1 -> op_run loc mb1 ins outs mb2 ->
    op_run loc mb (i ++ ins) (o ++ outs) mb2
| run_elsewhere mb mb1 mb2 loc' i o ins outs :
    loc' <> loc -> op_step mb loc' i o mb1 -> op_run loc mb1 ins outs mb2 ->
    op_run loc mb ins outs mb2.

(** C19: every mailbox is a FIFO queue per location.  Over any sequence of calls, at any
    mix of locations, the items put in at a location, in order, are the items handed
    out there followed by what the queue still holds: nothing is lost, duplicated or
    reordered, whatever mixture of the three push and four pop operations is used. *)
Theorem mailbox_fifo loc mb ins outs mb' :
  op_run loc mb ins outs mb' -> contents mb loc ++ ins = outs ++ contents mb' loc.
Proof.
  induction 1 as [mb|mb mb1 mb2 i o ins outs Hs _ IH|mb mb1 mb2 loc' i o ins outs Hne Hs _ IH].
  - by rewrite app_nil_r.
  - apply op_step_contents in Hs as [Hc _].
    by rewrite app_assoc, Hc, <- !app_assoc, IH.
  - apply op_step_contents in Hs as [_ Hc]. by rewrite <- (Hc loc).
Qed.

End Fifo.

(** ** The reservation protocol bounds the queue *)

Section Protocol.
Context {T : Type} (nullptr : T).
Implicit Types (mb : JMailbox T) (q : LocalQueue T).

(** A mailbox together with the reservations its clients hold and have not yet
    returned. *)
Record shared := mkShared { mbox : JMailbox T; tickets : list (nat * Z) }.

Fixpoint held (loc : nat) (ts : list (nat * Z)) : Z :=
  match ts with
  | [] => 0
  | (loc', n) :: ts' => if decide (loc' = loc) then n + held loc ts' else held loc ts'
  end.

(** A client step: reserve on an output queue, pop and reserve on an input queue, push
    no more items than were reserved while returning the reservation, return a
    reservation unused, or pop without reserving. *)
Inductive client_step : shared -> shared -> Prop :=
| cs_reserve mb ts loc lo hi n mb' :
    0 <= hi -> reserve_range mb lo hi loc = Ok (n, mb') ->
    client_step (mkShared mb ts) (mkShared mb' ((loc, n) :: ts))
| cs_pop_and_reserve mb ts loc buffer lo hi n b mb' :
    0 <= hi -> pop_and_reserve mb buffer lo hi loc = Ok ((n, b), mb') ->
    client_step (mkShared mb ts) (mkShared mb' ((loc, n) :: ts))
| cs_push_and_unreserve mb ts1 ts2 loc buffer count n b mb' :
    0 <= count <= n ->
    push_and_unreserve nullptr mb buffer count n loc = Ok (b, mb') ->
    client_step (mkShared mb (ts1 ++ (loc, n) :: ts2)) (mkShared mb' (ts1 ++ ts2))
| cs_unreserve mb ts1 ts2 loc n u mb' :
    unreserve mb n loc = Ok (u, mb') ->
    client_step (mkShared mb (ts1 ++ (loc, n) :: ts2)) (mkShared mb' (ts1 ++ ts2))
| cs_pop mb ts loc buffer lo hi r mb' :
    0 <= hi -> pop mb buffer lo hi loc = Ok (r, mb') ->
    client_step (mkShared mb ts) (mkShared mb' ts).

(** Every location's items and reservations fit its capacity together, and the
    reservations on record are exactly the ones held. *)
Record protocol_inv (cap : Z) (s : shared) : Prop := {
  pi_capacity : m_capacity (mbox s) = cap;
  pi_cap_range : 0 <= cap < 2 ^ 64;
  pi_tickets : Forall (fun t => 0 <= t.2 /\ (t.1 < length (m_queues (mbox s)))%nat) (tickets s);
  pi_queues : forall loc q, m_queues (mbox s) !! loc = Some q ->
    reserved_count q = held loc (tickets s) /\ sizeZ (queue q) + reserved_count q <= cap
}.

Lemma held_app loc ts1 ts2 : held loc (ts1 ++ ts2) = held loc ts1 + held loc ts2.
Proof. induction ts1 as [|[l n] ts1 IH]; simpl; [lia|]. case_decide; lia. Qed.

Lemma held_nonneg loc ts : Forall (fun t => 0 <= t.2) ts -> 0 <= held loc ts.
Proof. induction 1 as [|[l n] ts Hn _ IH]; simpl in *; [lia|]. case_decide; lia. Qed.

Lemma held_elem loc n ts :
  Forall (fun t => 0 <= t.2) ts -> (loc, n) ∈ ts -> n <= held loc ts.
Proof.
  intros Hf (ts1 & ts2 & ->)%list_elem_of_split.
  apply Forall_app in Hf as [H1 H2]. apply Forall_cons in H2 as [_ H2].
  rewrite held_app. simpl. rewrite decide_True by done.
  pose proof (held_nonneg loc _ H1). pose proof (held_nonneg loc _ H2). lia.
Qed.

#[export] Instance held_perm loc : Proper ((≡ₚ) ==> (=)) (held loc).
Proof. induction 1 as [|[? ?] ? ? _ IH|[? ?] [? ?] ?|]; simpl; repeat case_decide; lia. Qed.

(** What changes at one location, with the ticket list that goes with it. *)
Lemma protocol_inv_update cap mb ts ts' loc q q' :
  protocol_inv cap (mkShared mb ts) -> m_queues mb !! loc = Some q ->
  Forall (fun t => 0 <= t.2 /\ (t.1 < length (m_queues mb))%nat) ts' ->
  (forall loc', loc' <> loc -> held loc' ts' = held loc' ts) ->
  reserved_count q' = held loc ts' -> sizeZ (queue q') + reserved_count q' <= cap ->
  protocol_inv cap (mkShared (set_queue loc q' mb) ts').
Proof.
  intros [Hc Hr Ht Hq] Hl Hf Hother Hres Hsz. split; simpl in *; try done.
  - by rewrite length_insert.
  - intros loc' q0 H. destruct (decide (loc' = loc)) as [->|Hne].
    + rewrite list_lookup_insert_eq in H by (by eapply lookup_lt_Some). by simplify_eq.
    + rewrite list_lookup_insert_ne in H by done. rewrite Hother by done. by apply Hq.
Qed.

Lemma protocol_inv_perm cap mb ts ts' :
  ts ≡ₚ ts' -> protocol_inv cap (mkShared mb ts) -> protocol_inv cap (mkShared mb ts').
Proof.
  intros Hp [Hc Hr Ht Hq]. split; simpl in *; [done|done|by rewrite <- Hp|].
  intros loc q. rewrite <- Hp. apply Hq.
Qed.

Lemma protocol_inv_drop_zero cap mb loc ts :
  protocol_inv cap (mkShared mb ((loc, 0) :: ts)) -> protocol_inv cap (mkShared mb ts).
Proof.
  intros [Hc Hr Ht Hq]. split; simpl in *; [done|done|by apply Forall_cons in Ht as [_ ?]|].
  intros loc' q H. specialize (Hq loc' q H). case_decide; lia.
Qed.

Lemma protocol_inv_nonneg cap s :
  protocol_inv cap s -> Forall (fun t => 0 <= t.2) (tickets s).
Proof. intros [_ _ Ht _]. eapply Forall_impl; [exact Ht|]. naive_solver. Qed.

Lemma protocol_inv_at cap mb ts loc q :
  protocol_inv cap (mkShared mb ts) -> m_queues mb !! loc = Some q ->
  m_capacity mb = cap /\ 0 <= cap < 2 ^ 64 /\ reserved_count q = held loc ts /\
  0 <= held loc ts /\ 0 <= sizeZ (queue q) /\ sizeZ (queue q) + held loc ts <= cap.
Proof.
  intros Hinv Hq. pose proof (held_nonneg loc _ (protocol_inv_nonneg _ _ Hinv)).
  destruct Hinv as [Hc Hr _ Hqs]; simpl in *. destruct (Hqs loc q Hq) as [Hres Hsz].
  pose proof (sizeZ_nonneg (queue q)). rewrite Hres in *. lia.
Qed.

Lemma inv_take_ticket cap mb ts loc q q' n :
  protocol_inv cap (mkShared mb ts) -> m_queues mb !! loc = Some q -> 0 <= n ->
  reserved_count q' = reserved_count q + n -> sizeZ (queue q') + reserved_count q' <= cap ->
  protocol_inv cap (mkShared (set_queue loc q' mb) ((loc, n) :: ts)).
Proof.
  intros Hinv Hq Hn Hr Hs. pose proof (protocol_inv_at _ _ _ _ _ Hinv Hq) as (_&_&He&_).
  eapply protocol_inv_update; try done; simpl.
  - apply Forall_cons; split; [|apply Hinv]. split; [done|by eapply lookup_lt_Some].
  - intros loc' Hne. by rewrite decide_False.
  - rewrite decide_True by done. lia.
Qed.

Lemma inv_return_ticket cap mb ts1 ts2 loc q q' n :
  protocol_inv cap (mkShared mb (ts1 ++ (loc, n) :: ts2)) -> m_queues mb !! loc = Some q ->
  reserved_count q' = reserved_count q - n -> sizeZ (queue q') + reserved_count q' <= cap ->
  protocol_inv cap (mkShared (set_queue loc q' mb) (ts1 ++ ts2)).
Proof.
  intros Hinv Hq Hr Hs. pose proof (protocol_inv_at _ _ _ _ _ Hinv Hq) as (_&_&He&_).
  rewrite held_app in He; simpl in He; rewrite decide_True in He by done.
  eapply protocol_inv_update; try done; simpl.
  - pose proof (pi_tickets _ _ Hinv) as [? [? ?]%Forall_cons]%Forall_app. by apply Forall_app.
  - intros loc' Hne. rewrite !held_app; simpl. by rewrite decide_False.
  - rewrite held_app. lia.
Qed.

Lemma reserve_range_inv cap mb ts loc lo hi n mb' :
  protocol_inv cap (mkShared mb ts) -> 0 <= hi -> reserve_range mb lo hi loc = Ok (n, mb') ->
  protocol_inv cap (mkShared mb' ((loc, n) :: ts)).
Proof.
  intros Hinv Hhi (q & q' & Hq & Hf & ->)%at_location_inv.
  pose proof (protocol_inv_at _ _ _ _ _ Hinv Hq) as (Hc&Hr&He&H0&Hs&Hle).
  unfold free_slots in Hf. rewrite u64_small in Hf by lia.
  case_match; simplify_eq/=; eapply inv_take_ticket; try done; simpl;
    rewrite ?u64_small by lia; lia.
Qed.

Lemma pop_loop_sizes nitems (buffer items : list T) r :
  pop_loop nitems 0 buffer items = Ok r ->
  sizeZ r.2 = sizeZ items - Z.of_nat nitems \/ (nitems > length items)%nat.
Proof.
  intros (_ & -> & _)%pop_loop_inv. unfold sizeZ. rewrite length_drop. lia.
Qed.

Lemma pop_and_reserve_inv cap mb ts loc buffer lo hi n b mb' :
  protocol_inv cap (mkShared mb ts) -> 0 <= hi ->
  pop_and_reserve mb buffer lo hi loc = Ok ((n, b), mb') ->
  protocol_inv cap (mkShared mb' ((loc, n) :: ts)).
Proof.
  intros Hinv Hhi (q & q' & Hq & Hf & ->)%at_location_inv.
  pose proof (protocol_inv_at _ _ _ _ _ Hinv Hq) as (Hc&Hr&He&H0&Hs&Hle).
  case_match; simplify_eq/=; [eapply inv_take_ticket; try done; simpl; lia|].
  destruct (pop_loop _ _ _ _) as [w| |] eqn:Hw; simplify_eq/=.
  apply pop_loop_sizes in Hw. unfold sizeZ in *.
  eapply inv_take_ticket; try done; simpl; rewrite ?u64_small by lia; unfold sizeZ; lia.
Qed.

Lemma pop_inv cap mb ts loc buffer lo hi r mb' :
  protocol_inv cap (mkShared mb ts) -> 0 <= hi -> pop mb buffer lo hi loc = Ok (r, mb') ->
  protocol_inv cap (mkShared mb' ts).
Proof.
  intros Hinv Hhi (q & q' & Hq & Hf & ->)%at_location_inv.
  pose proof (protocol_inv_at _ _ _ _ _ Hinv Hq) as (Hc&Hr&He&H0&Hs&Hle).
  case_match; simplify_eq/=; [eapply protocol_inv_update; try done; try apply Hinv; lia|].
  destruct (pop_loop _ _ _ _) as [w| |] eqn:Hw; simplify_eq/=.
  apply pop_loop_sizes in Hw. unfold sizeZ in *.
  eapply protocol_inv_update; try done; try apply Hinv; simpl; unfold sizeZ; lia.
Qed.

Lemma push_and_unreserve_inv cap mb ts1 ts2 loc buffer count n b mb' :
  protocol_inv cap (mkShared mb (ts1 ++ (loc, n) :: ts2)) -> 0 <= count <= n ->
  push_and_unreserve nullptr mb buffer count n loc = Ok (b, mb') ->
  protocol_inv cap (mkShared mb' (ts1 ++ ts2)).
Proof.
  intros Hinv Hn (q & q' & Hq & Hf & ->)%at_location_inv.
  pose proof (protocol_inv_at _ _ _ _ _ Hinv Hq) as (Hc&Hr&He&H0&Hs&Hle).
  pose proof (held_elem loc n _ (protocol_inv_nonneg _ _ Hinv) ltac:(simpl; set_solver)) as Hn'.
  unfold assertb in Hf. do 2 (case_match; simplify_eq/=).
  destruct (push_loop _ _ _ _ _) as [w| |] eqn:Hw; simplify_eq/=.
  apply push_loop_inv in Hw as [-> _].
  eapply inv_return_ticket; try done; simpl; rewrite ?u64_small by lia; [done|].
  autorewrite with size. lia.
Qed.

Lemma unreserve_inv cap mb ts1 ts2 loc n u mb' :
  protocol_inv cap (mkShared mb (ts1 ++ (loc, n) :: ts2)) ->
  unreserve mb n loc = Ok (u, mb') -> protocol_inv cap (mkShared mb' (ts1 ++ ts2)).
Proof.
  intros Hinv (q & q' & Hq & Hf & ->)%at_location_inv.
  pose proof (protocol_inv_at _ _ _ _ _ Hinv Hq) as (Hc&Hr&He&H0&Hs&Hle).
  pose proof (held_elem loc n _ (protocol_inv_nonneg _ _ Hinv) ltac:(simpl; set_solver)) as Hn'.
  pose proof (protocol_inv_nonneg _ _ Hinv) as [_ [Hn _]%Forall_cons]%Forall_app; simpl in *.
  unfold assertb in Hf. case_match; simplify_eq/=.
  eapply inv_return_ticket; try done; simpl; rewrite ?u64_small by lia; lia.
Qed.

#[local] Hint Resolve reserve_range_inv pop_and_reserve_inv pop_inv push_and_unreserve_inv
  unreserve_inv : jana.

Lemma client_step_inv cap s s' :
  protocol_inv cap s -> client_step s s' -> protocol_inv cap s'.
Proof. intros Hinv Hstep. destruct Hstep; eauto with jana. Qed.

Lemma make_inv cap locs stealing :
  0 <= cap < 2 ^ 64 -> protocol_inv cap (mkShared (make cap locs stealing) []).
Proof.
  intros Hcap. split; simpl; [done|done|constructor|].
  intros loc q [-> _]%lookup_replicate_1. unfold sizeZ; simpl; lia.
Qed.

(** With the reservation in hand, the assertions of [push_and_unreserve] hold. *)
Lemma push_and_unreserve_ok cap mb ts loc buffer count n :
  protocol_inv cap (mkShared mb ts) -> (loc, n) ∈ ts ->
  0 <= count <= n -> count <= sizeZ buffer ->
  exists r, push_and_unreserve nullptr mb buffer count n loc = Ok r.
Proof.
  intros Hinv Hin Hc Hb.
  pose proof (held_elem loc n _ (protocol_inv_nonneg _ _ Hinv) Hin) as Hn'.
  pose proof (pi_tickets _ _ Hinv) as Ht. rewrite Forall_forall in Ht.
  destruct (Ht _ Hin) as [_ Hlt]; simpl in *.
  destruct (lookup_lt_is_Some_2 _ _ Hlt) as [q Hq].
  pose proof (protocol_inv_at _ _ _ _ _ Hinv Hq) as (Hcap&Hr&He&H0&Hs&Hle).
  unfold push_and_unreserve, at_location. rewrite Hq. simpl. unfold assertb.
  rewrite (u64_small (sizeZ (queue q) + count)) by lia.
  destruct (Z.leb_spec n (reserved_count q)); [simpl|lia].
  destruct (Z.leb_spec (sizeZ (queue q) + count) (m_capacity mb)); [simpl|lia].
  rewrite push_loop_spec by (unfold sizeZ in *; lia).
  by eexists.
Qed.

(** Popping and reserving are total inside the array: they return nothing, or a number of
    items, or slots, in the requested range. *)
Lemma pop_and_reserve_ok mb buffer lo hi loc :
  (loc < length (m_queues mb))%nat -> 0 <= lo <= hi -> hi <= sizeZ buffer ->
  exists n b mb', pop_and_reserve mb buffer lo hi loc = Ok ((n, b), mb') /\
    0 <= n <= hi /\ (n = 0 \/ lo <= n) /\ length b = length buffer.
Proof.
  intros [q Hq]%lookup_lt_is_Some_2 Hlo Hhi. unfold pop_and_reserve, at_location. rewrite Hq.
  destruct (Z.ltb_spec (sizeZ (queue q)) lo); simpl.
  - eexists _, _, _. split; [done|]. auto with lia.
  - pose proof (sizeZ_nonneg (queue q)). rewrite pop_loop_spec by (unfold sizeZ in *; lia). simpl.
    eexists _, _, _. split; [done|]. split; [lia|]. split; [lia|].
    rewrite length_app, length_take, length_drop. unfold sizeZ in *. lia.
Qed.

Lemma reserve_range_ok cap mb ts lo hi loc :
  protocol_inv cap (mkShared mb ts) -> (loc < length (m_queues mb))%nat -> 0 <= lo <= hi ->
  exists n mb', reserve_range mb lo hi loc = Ok (n, mb') /\ 0 <= n <= hi /\ (n = 0 \/ lo <= n).
Proof.
  intros Hinv [q Hq]%lookup_lt_is_Some_2 Hlo. unfold reserve_range, at_location. rewrite Hq.
  pose proof (protocol_inv_at _ _ _ _ _ Hinv Hq) as (Hc&Hr&He&H0&Hs&Hle).
  unfold free_slots. rewrite u64_small by lia.
  destruct (Z.ltb_spec (Z.min (m_capacity mb - sizeZ (queue q) - reserved_count q) hi) lo); simpl;
    eexists _, _; (split; [done|]); lia.
Qed.

(** C18: the reservation protocol is safe under every interleaving.  Whatever mixture of
    reserves, pops and pushes the arrows perform on a fresh mailbox, no local queue ever
    holds more items than its capacity, the reservations recorded in the mailbox are
    exactly those still held, and an arrow that pushes at most as many items as it
    reserved never fails the assertions of [push_and_unreserve]. *)
Theorem mailbox_bounded cap locs stealing s :
  0 <= cap < 2 ^ 64 ->
  steps client_step (mkShared (make cap locs stealing) []) s ->
  (forall loc q, m_queues (mbox s) !! loc = Some q ->
     sizeZ (queue q) + reserved_count q <= cap /\ reserved_count q = held loc (tickets s)) /\
  (forall loc n buffer count, (loc, n) ∈ tickets s -> 0 <= count <= n -> count <= sizeZ buffer ->
     exists r, push_and_unreserve nullptr (mbox s) buffer count n loc = Ok r).
Proof.
  intros Hcap Hrun.
  assert (Hinv : protocol_inv cap s)
    by (eapply steps_invariant; eauto using client_step_inv, make_inv).
  split.
  - intros loc q Hq. by destruct (pi_queues _ _ Hinv loc q Hq).
  - intros. destruct s. by eapply push_and_unreserve_ok.
Qed.

End Protocol.

(** Without the protocol the bound is lost.  Once the soft [push] has put more items
    into a local queue than its capacity, the subtraction in [reserve] wraps around and
    every request is granted in full, whatever its size. *)
Theorem reserve_wraps_when_overfull {T} (mb : JMailbox T) loc q requested :
  m_queues mb !! loc = Some q ->
  - 2 ^ 63 <= m_capacity mb - sizeZ (queue q) - reserved_count q < 0 ->
  0 <= requested <= 2 ^ 63 ->
  exists mb', reserve mb requested loc = Ok (requested, mb').
Proof.
  intros Hq Hover Hreq. unfold reserve, at_location. rewrite Hq. unfold free_slots, u64.
  rewrite <- (Z.mod_add _ 1), Z.mod_small by lia.
  destruct (Z.ltb_spec 0 (m_capacity mb - sizeZ (queue q) - reserved_count q + 1 * 2 ^ 64)); [|lia].
  simpl. rewrite Z.min_r by lia. eauto.
Qed.

(** ** Witnesses *)

Definition mb0 : JMailbox nat := make 2 1 false.

Lemma mailbox_bounded_witness :
  exists s, steps (client_step 0%nat) (mkShared mb0 []) s /\
    (forall loc n buffer count, (loc, n) ∈ tickets s -> 0 <= count <= n -> count <= sizeZ buffer ->
       exists r, push_and_unreserve 0%nat (mbox s) buffer count n loc = Ok r).
Proof.
  assert (Hrun : steps (client_step 0%nat) (mkShared mb0 [])
    (mkShared (mkJMailbox 2 1 false [mkLocalQueue [] 2]) [(0%nat, 2)])).
  { eapply steps_cons; [|apply steps_refl].
    apply (cs_reserve _ _ _ 0%nat 1 5); [lia|vm_compute; reflexivity]. }
  eexists; split; [exact Hrun|].
  apply (mailbox_bounded 0%nat 2 1 false _ ltac:(lia) Hrun).
Defined.

Lemma mailbox_fifo_witness :
  exists mb', op_run 0%nat 0%nat mb0 [7; 8]%nat [7]%nat mb' /\
    contents mb0 0 ++ [7; 8]%nat = [7]%nat ++ contents mb' 0.
Proof.
  assert (Hrun : op_run 0%nat 0%nat mb0 ([7; 8] ++ [])%nat ([] ++ [7] ++ [])%nat
    (mkJMailbox 2 1 false [mkLocalQueue [8%nat] 0])).
  { eapply run_here; [eapply (os_push _ _ _ [7; 8]%nat 0); vm_compute; reflexivity|].
    eapply (run_here _ _ _ _ _ [] [7]%nat [] []); [|apply run_nil].
    apply (os_pop_item 0%nat false _ _ 0%nat (Ready, 7%nat, true)). reflexivity. }
  eexists; split; [exact Hrun|]. apply (mailbox_fifo 0%nat _ _ _ _ _ Hrun).
Defined.

Lemma reserve_wraps_when_overfull_witness :
  exists mb', reserve (mkJMailbox 1 1 false [mkLocalQueue [1; 2; 3]%nat 0]) 1000 0 = Ok (1000, mb').
Proof.
  apply (reserve_wraps_when_overfull _ 0%nat (mkLocalQueue [1; 2; 3]%nat 0) 1000);
    vm_compute; [reflexivity|split; congruence|split; congruence].
Defined.

End Mailbox.
