(* ===== verification/JMd5.v ===== *)
(** * JMd5: the bundled message digest

    Model of [Compatibility/md5.c].  Bytes and 32-bit words are integers with their wrap-around written
    out.  [md5_process] is the list of the 64 operations as the code has them; the registers of the code keep
    their names.  The buffer has 64 bytes at all times.  Data that is passed with a length is the list of
    that length; [nbytes << 3] is undefined when it does not fit an [int].  The words of a block are read in
    little-endian order on either kind of machine, as both branches of the code do.

    The specification is RFC 1321: pad the whole message, cut it into blocks and fold the compression function over
    them, with the table of sines and the index formulas of the standard. *)

From S2P Require Import Prelude.
Local Open Scope Z_scope.

Module Md5.

Definition T_MASK : Z := u32 (Z.lnot 0).
(** The constants [T1] to [T64]. *)
Definition T_table : list Z :=
  [Z.lxor T_MASK 0x28955b87; Z.lxor T_MASK 0x173848a9; 0x242070db; Z.lxor T_MASK 0x3e423111;
   Z.lxor T_MASK 0x0a83f050; 0x4787c62a; Z.lxor T_MASK 0x57cfb9ec; Z.lxor T_MASK 0x02b96afe;
   0x698098d8; Z.lxor T_MASK 0x74bb0850; Z.lxor T_MASK 0x0000a44e; Z.lxor T_MASK 0x76a32841;
   0x6b901122; Z.lxor T_MASK 0x02678e6c; Z.lxor T_MASK 0x5986bc71; 0x49b40821;
   Z.lxor T_MASK 0x09e1da9d; Z.lxor T_MASK 0x3fbf4cbf; 0x265e5a51; Z.lxor T_MASK 0x16493855;
   Z.lxor T_MASK 0x29d0efa2; 0x02441453; Z.lxor T_MASK 0x275e197e; Z.lxor T_MASK 0x182c0437;
   0x21e1cde6; Z.lxor T_MASK 0x3cc8f829; Z.lxor T_MASK 0x0b2af278; 0x455a14ed;
   Z.lxor T_MASK 0x561c16fa; Z.lxor T_MASK 0x03105c07; 0x676f02d9; Z.lxor T_MASK 0x72d5b375;
   Z.lxor T_MASK 0x0005c6bd; Z.lxor T_MASK 0x788e097e; 0x6d9d6122; Z.lxor T_MASK 0x021ac7f3;
   Z.lxor T_MASK 0x5b4115bb; 0x4bdecfa9; Z.lxor T_MASK 0x0944b49f; Z.lxor T_MASK 0x4140438f;
   0x289b7ec6; Z.lxor T_MASK 0x155ed805; Z.lxor T_MASK 0x2b10cf7a; 0x04881d05;
   Z.lxor T_MASK 0x262b2fc6; Z.lxor T_MASK 0x1924661a; 0x1fa27cf8; Z.lxor T_MASK 0x3b53a99a;
   Z.lxor T_MASK 0x0bd6ddbb; 0x432aff97; Z.lxor T_MASK 0x546bdc58; Z.lxor T_MASK 0x036c5fc6;
   0x655b59c3; Z.lxor T_MASK 0x70f3336d; Z.lxor T_MASK 0x00100b82; Z.lxor T_MASK 0x7a7ba22e;
   0x6fa87e4f; Z.lxor T_MASK 0x01d3191f; Z.lxor T_MASK 0x5cfebceb; 0x4e0811a1;
   Z.lxor T_MASK 0x08ac817d; Z.lxor T_MASK 0x42c50dca; 0x2ad7d2bb; Z.lxor T_MASK 0x14792c6e].

Definition T (i : nat) : Z := nth (i - 1) T_table 0.

Inductive Reg := Ra | Rb | Rc | Rd.

Record Regs := mkRegs { reg_a : Z; reg_b : Z; reg_c : Z; reg_d : Z }.

Definition read (r : Reg) (x : Regs) : Z :=
  match r with Ra => reg_a x | Rb => reg_b x | Rc => reg_c x | Rd => reg_d x end.

Definition write (r : Reg) (v : Z) (x : Regs) : Regs :=
  match r with
  | Ra => mkRegs v (reg_b x) (reg_c x) (reg_d x)
  | Rb => mkRegs (reg_a x) v (reg_c x) (reg_d x)
  | Rc => mkRegs (reg_a x) (reg_b x) v (reg_d x)
  | Rd => mkRegs (reg_a x) (reg_b x) (reg_c x) v
  end.

Record md5_state := mkState { count0 : Z; count1 : Z; abcd : Regs; buf : list Z }.

Definition ROTATE_LEFT (x n : Z) : Z := Z.lor (u32 (Z.shiftl x n)) (Z.shiftr x (32 - n)).

(** The complement of a word. *)
Definition not32 (x : Z) : Z := u32 (Z.lnot x).

Definition F (x y z : Z) : Z := Z.lor (Z.land x y) (Z.land (not32 x) z).
Definition G (x y z : Z) : Z := Z.lor (Z.land x z) (Z.land y (not32 z)).
Definition H (x y z : Z) : Z := Z.lxor (Z.lxor x y) z.
Definition I (x y z : Z) : Z := Z.lxor y (Z.lor x (not32 z)).

(** One line [SET(a, b, c, d, k, s, Ti)] of a round, with the function that the round uses. *)
Inductive Operation := SET (f : Z -> Z -> Z -> Z) (a b c d : Reg) (k : nat) (s Ti : Z).

Definition operate (X : list Z) (x : Regs) (o : Operation) : Regs :=
  match o with
  | SET f a b c d k s Ti =>
      let t := u32 (read a x + f (read b x) (read c x) (read d x) + nth k X 0 + Ti) in
      write a (u32 (ROTATE_LEFT t s + read b x)) x
  end.

Definition round1 : list Operation :=
  [SET F Ra Rb Rc Rd 0 7 (T 1); SET F Rd Ra Rb Rc 1 12 (T 2);
   SET F Rc Rd Ra Rb 2 17 (T 3); SET F Rb Rc Rd Ra 3 22 (T 4);
   SET F Ra Rb Rc Rd 4 7 (T 5); SET F Rd Ra Rb Rc 5 12 (T 6);
   SET F Rc Rd Ra Rb 6 17 (T 7); SET F Rb Rc Rd Ra 7 22 (T 8);
   SET F Ra Rb Rc Rd 8 7 (T 9); SET F Rd Ra Rb Rc 9 12 (T 10);
   SET F Rc Rd Ra Rb 10 17 (T 11); SET F Rb Rc Rd Ra 11 22 (T 12);
   SET F Ra Rb Rc Rd 12 7 (T 13); SET F Rd Ra Rb Rc 13 12 (T 14);
   SET F Rc Rd Ra Rb 14 17 (T 15); SET F Rb Rc Rd Ra 15 22 (T 16)].

Definition round2 : list Operation :=
  [SET G Ra Rb Rc Rd 1 5 (T 17); SET G Rd Ra Rb Rc 6 9 (T 18);
   SET G Rc Rd Ra Rb 11 14 (T 19); SET G Rb Rc Rd Ra 0 20 (T 20);
   SET G Ra Rb Rc Rd 5 5 (T 21); SET G Rd Ra Rb Rc 10 9 (T 22);
   SET G Rc Rd Ra Rb 15 14 (T 23); SET G Rb Rc Rd Ra 4 20 (T 24);
   SET G Ra Rb Rc Rd 9 5 (T 25); SET G Rd Ra Rb Rc 14 9 (T 26);
   SET G Rc Rd Ra Rb 3 14 (T 27); SET G Rb Rc Rd Ra 8 20 (T 28);
   SET G Ra Rb Rc Rd 13 5 (T 29); SET G Rd Ra Rb Rc 2 9 (T 30);
   SET G Rc Rd Ra Rb 7 14 (T 31); SET G Rb Rc Rd Ra 12 20 (T 32)].

Definition round3 : list Operation :=
  [SET H Ra Rb Rc Rd 5 4 (T 33); SET H Rd Ra Rb Rc 8 11 (T 34);
   SET H Rc Rd Ra Rb 11 16 (T 35); SET H Rb Rc Rd Ra 14 23 (T 36);
   SET H Ra Rb Rc Rd 1 4 (T 37); SET H Rd Ra Rb Rc 4 11 (T 38);
   SET H Rc Rd Ra Rb 7 16 (T 39); SET H Rb Rc Rd Ra 10 23 (T 40);
   SET H Ra Rb Rc Rd 13 4 (T 41); SET H Rd Ra Rb Rc 0 11 (T 42);
   SET H Rc Rd Ra Rb 3 16 (T 43); SET H Rb Rc Rd Ra 6 23 (T 44);
   SET H Ra Rb Rc Rd 9 4 (T 45); SET H Rd Ra Rb Rc 12 11 (T 46);
   SET H Rc Rd Ra Rb 15 16 (T 47); SET H Rb Rc Rd Ra 2 23 (T 48)].

Definition round4 : list Operation :=
  [SET I Ra Rb Rc Rd 0 6 (T 49); SET I Rd Ra Rb Rc 7 10 (T 50);
   SET I Rc Rd Ra Rb 14 15 (T 51); SET I Rb Rc Rd Ra 5 21 (T 52);
   SET I Ra Rb Rc Rd 12 6 (T 53); SET I Rd Ra Rb Rc 3 10 (T 54);
   SET I Rc Rd Ra Rb 10 15 (T 55); SET I Rb Rc Rd Ra 1 21 (T 56);
   SET I Ra Rb Rc Rd 8 6 (T 57); SET I Rd Ra Rb Rc 15 10 (T 58);
   SET I Rc Rd Ra Rb 6 15 (T 59); SET I Rb Rc Rd Ra 13 21 (T 60);
   SET I Ra Rb Rc Rd 4 6 (T 61); SET I Rd Ra Rb Rc 11 10 (T 62);
   SET I Rc Rd Ra Rb 2 15 (T 63); SET I Rb Rc Rd Ra 9 21 (T 64)].

(** The word that four bytes make. *)
Definition word_of (xp : list Z) : Z :=
  u32 (nth 0 xp 0 + Z.shiftl (nth 1 xp 0) 8 + Z.shiftl (nth 2 xp 0) 16 + Z.shiftl (nth 3 xp 0) 24).

Definition words (data : list Z) : list Z := (fun i => word_of (drop (4 * i) data)) <$> seq 0 16.

(** [md5_process]: what becomes of [abcd]; it reads 64 bytes. *)
Definition md5_process (x : Regs) (data : list Z) : Regs :=
  let X := words data in
  let y := foldl (operate X) x (round1 ++ round2 ++ round3 ++ round4) in
  mkRegs (u32 (reg_a x + reg_a y)) (u32 (reg_b x + reg_b y)) (u32 (reg_c x + reg_c y)) (u32 (reg_d x + reg_d y)).

Definition initial_abcd : Regs :=
  mkRegs 0x67452301 (Z.lxor T_MASK 0x10325476) (Z.lxor T_MASK 0x67452301) 0x10325476.

(** [md5_init]; the buffer is left as it is. *)
Definition md5_init (st : md5_state) : md5_state := mkState 0 0 initial_abcd (buf st).

(** [memcpy(buf + offset, p, n)]. *)
Definition copy_to (offset : nat) (p : list Z) (b : list Z) : list Z := take offset b ++ p ++ drop (offset + length p) b.

(** The full blocks of the data: the registers and what is left. *)
Fixpoint full_blocks (fuel : nat) (x : Regs) (p : list Z) : Regs * list Z :=
  match fuel with
  | O => (x, p)
  | S fuel => if 64 <=? sizeZ p then full_blocks fuel (md5_process x p) (drop 64 p) else (x, p)
  end.

Definition final_part (st : md5_state) (x : Regs) (p : list Z) : md5_state :=
  let '(x, p) := full_blocks (length p) x p in
  mkState (count0 st) (count1 st) x (if sizeZ p =? 0 then buf st else copy_to 0 p (buf st)).

(** The message length. *)
Definition add_length (nbytes : Z) (st : md5_state) : md5_state :=
  let nbits := u32 (Z.shiftl nbytes 3) in
  let c1 := u32 (count1 st + Z.shiftr nbytes 29) in
  let c0 := u32 (count0 st + nbits) in
  mkState c0 (if c0 <? nbits then u32 (c1 + 1) else c1) (abcd st) (buf st).

Definition md5_append (data : list Z) (st : md5_state) : outcome md5_state :=
  let nbytes := sizeZ data in
  let offset := Z.land (Z.shiftr (count0 st) 3) 63 in
  if 2 ^ 31 <=? Z.shiftl nbytes 3 then Undef
  else if nbytes <=? 0 then Ok st
  else
    let st := add_length nbytes st in
    if negb (offset =? 0) then
      let copy := if 64 <? offset + nbytes then 64 - offset else nbytes in
      let p := take (Z.to_nat copy) data in
      let st := mkState (count0 st) (count1 st) (abcd st) (copy_to (Z.to_nat offset) p (buf st)) in
      if offset + copy <? 64 then Ok st
      else Ok (final_part st (md5_process (abcd st) (buf st)) (drop (Z.to_nat copy) data))
    else Ok (final_part st (abcd st) data).

Definition pad : list Z := 0x80 :: replicate 63 0.

(** The byte [i] of little-endian words. *)
Definition byte_of (ws : list Z) (i : Z) : Z :=
  Z.shiftr (nth (Z.to_nat (Z.shiftr i 2)) ws 0) (Z.shiftl (Z.land i 3) 3) mod 256.

Definition bytes_of (ws : list Z) (n : nat) : list Z := (fun i => byte_of ws (Z.of_nat i)) <$> seq 0 n.

(** [md5_finish]: the digest. *)
Definition md5_finish (st : md5_state) : outcome (list Z) :=
  let data := bytes_of [count0 st; count1 st] 8 in
  let n := Z.land (55 - Z.shiftr (count0 st) 3) 63 + 1 in
  st ← md5_append (take (Z.to_nat n) pad) st;
  st ← md5_append data st;
  let x := abcd st in
  Ok (bytes_of [reg_a x; reg_b x; reg_c x; reg_d x] 16).

(** ** The specification *)

Definition sine_table : list Z :=
  [0xd76aa478; 0xe8c7b756; 0x242070db; 0xc1bdceee; 0xf57c0faf; 0x4787c62a; 0xa8304613; 0xfd469501;
   0x698098d8; 0x8b44f7af; 0xffff5bb1; 0x895cd7be; 0x6b901122; 0xfd987193; 0xa679438e; 0x49b40821;
   0xf61e2562; 0xc040b340; 0x265e5a51; 0xe9b6c7aa; 0xd62f105d; 0x2441453; 0xd8a1e681; 0xe7d3fbc8;
   0x21e1cde6; 0xc33707d6; 0xf4d50d87; 0x455a14ed; 0xa9e3e905; 0xfcefa3f8; 0x676f02d9; 0x8d2a4c8a;
   0xfffa3942; 0x8771f681; 0x6d9d6122; 0xfde5380c; 0xa4beea44; 0x4bdecfa9; 0xf6bb4b60; 0xbebfbc70;
   0x289b7ec6; 0xeaa127fa; 0xd4ef3085; 0x4881d05; 0xd9d4d039; 0xe6db99e5; 0x1fa27cf8; 0xc4ac5665;
   0xf4292244; 0x432aff97; 0xab9423a7; 0xfc93a039; 0x655b59c3; 0x8f0ccc92; 0xffeff47d; 0x85845dd1;
   0x6fa87e4f; 0xfe2ce6e0; 0xa3014314; 0x4e0811a1; 0xf7537e82; 0xbd3af235; 0x2ad7d2bb; 0xeb86d391].

Definition shifts : list Z := [7; 12; 17; 22; 5; 9; 14; 20; 4; 11; 16; 23; 6; 10; 15; 21].

Definition mix (i : nat) : Z -> Z -> Z -> Z :=
  match (i / 16)%nat with 0%nat => F | 1%nat => G | 2%nat => H | _ => I end.

Definition index (i : nat) : nat :=
  match (i / 16)%nat with 0%nat => i | 1%nat => 5 * i + 1 | 2%nat => 3 * i + 5 | _ => 7 * i end mod 16.

(** Step [i]: the registers change their roles. *)
Definition rfc_step (X : list Z) (x : Regs) (i : nat) : Regs :=
  let t := u32 (reg_a x + mix i (reg_b x) (reg_c x) (reg_d x) + nth (index i) X 0 + nth i sine_table 0) in
  mkRegs (reg_d x) (u32 (ROTATE_LEFT t (nth (4 * (i / 16) + i mod 4) shifts 0) + reg_b x)) (reg_b x) (reg_c x).

Definition rfc_compress (x : Regs) (block : list Z) : Regs :=
  let y := foldl (rfc_step (words block)) x (seq 0 64) in
  mkRegs (u32 (reg_a x + reg_a y)) (u32 (reg_b x + reg_b y)) (u32 (reg_c x + reg_c y)) (u32 (reg_d x + reg_d y)).

(** The first [n] blocks of a message. *)
Fixpoint rfc_blocks (n : nat) (x : Regs) (m : list Z) : Regs :=
  match n with
  | O => x
  | S n => rfc_blocks n (rfc_compress x (take 64 m)) (drop 64 m)
  end.

Definition rfc_pad (m : list Z) : list Z :=
  let bits := u64 (8 * sizeZ m) in
  m ++ 0x80 :: replicate (Z.to_nat ((55 - sizeZ m) mod 64)) 0 ++ bytes_of [bits mod 2 ^ 32; bits / 2 ^ 32] 8.

Definition rfc_md5 (m : list Z) : list Z :=
  let x := rfc_blocks (length (rfc_pad m) / 64) initial_abcd (rfc_pad m) in
  bytes_of [reg_a x; reg_b x; reg_c x; reg_d x] 16.

(** ** The rounds are those of the standard *)

Definition operations : list Operation := round1 ++ round2 ++ round3 ++ round4.

(** The registers in the roles that they have before step [i]. *)
Definition view (i : nat) (x : Regs) : Regs :=
  match (i mod 4)%nat with
  | 0%nat => x
  | 1%nat => mkRegs (reg_d x) (reg_a x) (reg_b x) (reg_c x)
  | 2%nat => mkRegs (reg_c x) (reg_d x) (reg_a x) (reg_b x)
  | _ => mkRegs (reg_b x) (reg_c x) (reg_d x) (reg_a x)
  end.

Lemma operation_is_step X x i o : operations !! i = Some o -> view (S i) (operate X x o) = rfc_step X (view i x) i.
Proof.
  intros Ho. assert (Hi : (i < 64)%nat) by (apply lookup_lt_Some in Ho; exact Ho). unfold rfc_step.
  do 64 (destruct i as [|i]; [injection Ho as <-; reflexivity|]). lia.
Qed.

Lemma operations_are_steps X ops i x :
  (forall j o, ops !! j = Some o -> operations !! (i + j)%nat = Some o) ->
  view (i + length ops) (foldl (operate X) x ops) = foldl (rfc_step X) (view i x) (seq i (length ops)).
Proof.
  revert i x. induction ops as [|o ops IH]; intros i x Hops; cbn [length foldl seq]; [by rewrite Nat.add_0_r|].
  assert (Ho : operations !! i = Some o) by (rewrite <- (Nat.add_0_r i); by apply Hops).
  rewrite <- (operation_is_step X x i o Ho), <- Nat.add_succ_comm. apply IH.
  intros j o' Hj. rewrite Nat.add_succ_comm. by apply Hops.
Qed.

Lemma length_operations : length operations = 64%nat.
Proof. done. Qed.

Lemma view_0 x : view 0 x = x.
Proof. done. Qed.

Lemma view_64 x : view 64 x = x.
Proof. done. Qed.

Lemma nth_take_lt (n i : nat) (l : list Z) : (i < n)%nat -> nth i (take n l) 0 = nth i l 0.
Proof. revert i l. induction n; intros [|i] [|z l] Hi; try done; try lia. cbn. apply IHn. lia. Qed.

Lemma nth_drop (n i : nat) (l : list Z) : nth i (drop n l) 0 = nth (n + i) l 0.
Proof. revert l. induction n; intros [|z l]; try done. by destruct i. cbn. apply IHn. Qed.

Lemma words_take data : words (take 64 data) = words data.
Proof.
  unfold words. apply list_fmap_ext. intros i n Hn. apply lookup_seq in Hn as [-> Hi].
  unfold word_of. rewrite !nth_drop, !nth_take_lt by lia. done.
Qed.

Lemma md5_process_rfc x data : md5_process x data = rfc_compress x (take 64 data).
Proof.
  unfold md5_process, rfc_compress. rewrite words_take.
  pose proof (operations_are_steps (words data) operations 0 x (fun _ _ H => H)) as E.
  rewrite Nat.add_0_l, length_operations, view_64, view_0 in E.
  change (round1 ++ round2 ++ round3 ++ round4) with operations. by rewrite E.
Qed.

(** ** Blocks *)

Lemma rfc_blocks_app n x m m' : (64 * n <= length m)%nat -> rfc_blocks n x (m ++ m') = rfc_blocks n x m.
Proof.
  revert x m. induction n as [|n IH]; intros x m Hm; [done|]. cbn [rfc_blocks].
  rewrite take_app_le, drop_app_le by lia. apply IH. rewrite length_drop. lia.
Qed.

Lemma rfc_blocks_add n k x m : rfc_blocks (n + k) x m = rfc_blocks k (rfc_blocks n x m) (drop (64 * n) m).
Proof.
  revert x m. induction n as [|n IH]; intros x m; [done|]. cbn [rfc_blocks Nat.add]. rewrite IH, drop_drop. do 2 f_equal. lia.
Qed.

(** The loop over full blocks ends with less than a block. *)
Lemma full_blocks_rfc fuel x p : (length p / 64 <= fuel)%nat ->
  full_blocks fuel x p = (rfc_blocks (length p / 64) x p, drop (64 * (length p / 64)) p).
Proof.
  revert x p. induction fuel as [|fuel IH]; intros x p Hf; cbn [full_blocks].
  { replace (length p / 64)%nat with 0%nat by lia. done. }
  unfold sizeZ. destruct (Z.leb_spec 64 (Z.of_nat (length p))) as [Hp|Hp].
  - assert (Hd : (length p / 64 = S (length (drop 64 p) / 64))%nat).
    { rewrite length_drop. replace (length p) with (1 * 64 + (length p - 64))%nat at 1 by lia. by rewrite Nat.div_add_l. }
    rewrite IH by lia. rewrite Hd. cbn [rfc_blocks]. rewrite md5_process_rfc, drop_drop. do 2 f_equal. lia.
  - by rewrite Nat.div_small by lia.
Qed.

Lemma length_copy_to o p b : (o + length p <= length b)%nat -> length (copy_to o p b) = length b.
Proof. intros H. unfold copy_to. rewrite !length_app, length_take, length_drop. lia. Qed.

Lemma take_copy_to o p b : (o + length p <= length b)%nat -> take (o + length p) (copy_to o p b) = take o b ++ p.
Proof.
  intros H. unfold copy_to. rewrite app_assoc, take_app_le by (rewrite length_app, length_take; lia).
  apply take_ge. rewrite length_app, length_take. lia.
Qed.

(** ** What a state stands for *)

Record represents (m : list Z) (st : md5_state) : Prop := {
  rep_count0 : count0 st = (8 * sizeZ m) mod 2 ^ 32;
  rep_count1 : count1 st = (8 * sizeZ m) / 2 ^ 32 mod 2 ^ 32;
  rep_abcd : abcd st = rfc_blocks (length m / 64) initial_abcd m;
  rep_length : length (buf st) = 64%nat;
  rep_buf : take (length m mod 64) (buf st) = drop (64 * (length m / 64)) m
}.

Lemma init_represents st : length (buf st) = 64%nat -> represents [] (md5_init st).
Proof. intros Hb. by split. Qed.

Lemma offset_represents m st : represents m st -> Z.land (Z.shiftr (count0 st) 3) 63 = Z.of_nat (length m mod 64).
Proof.
  intros R. rewrite (rep_count0 _ _ R), Z.shiftr_div_pow2 by done. change 63 with (Z.ones 6). rewrite Z.land_ones by done.
  rewrite Nat2Z.inj_mod. unfold sizeZ. change (Z.of_nat 64) with 64. change (2 ^ 6) with 64. change (2 ^ 3) with 8. change (2 ^ 32) with 4294967296.
  Z.div_mod_to_equations. lia.
Qed.

(** The two words of the length count bits modulo 2^64. *)
Lemma add_length_represents m d st : represents m st -> 8 * sizeZ d < 2 ^ 31 -> 
  count0 (add_length (sizeZ d) st) = (8 * sizeZ (m ++ d)) mod 2 ^ 32 /\
  count1 (add_length (sizeZ d) st) = (8 * sizeZ (m ++ d)) / 2 ^ 32 mod 2 ^ 32.
Proof.
  intros R Hd. unfold add_length. cbn [count0 count1]. rewrite (rep_count0 _ _ R), (rep_count1 _ _ R).
  rewrite Z.shiftl_mul_pow2, Z.shiftr_div_pow2, sizeZ_app by done. pose proof (sizeZ_nonneg m). pose proof (sizeZ_nonneg d).
  set (a := sizeZ m) in *. set (b := sizeZ d) in *. unfold u32. change (2 ^ 3) with 8. change (2 ^ 31) with 2147483648 in Hd.
  change (2 ^ 32) with 4294967296. rewrite (Z.div_small b (2 ^ 29)) by (change (2 ^ 29) with 536870912; lia).
  rewrite (Z.mod_small (b * 8)) by lia.
  set (N := 4294967296) in *. assert (HN : 0 < N) by done.
  replace (8 * (a + b)) with (8 * a + b * 8) by lia. pose proof (Z.mod_pos_bound (8 * a) N HN) as Hr.
  pose proof (Z.div_mod (8 * a) N ltac:(lia)) as Hq. set (q := 8 * a / N) in *. set (r := (8 * a) mod N) in *.
  rewrite Hq, Z.add_0_r, <- Z.add_assoc. rewrite (Z.mul_comm N q), (Z.add_comm (q * N)), Z.mod_add, Z.div_add by lia.
  split; [done|]. rewrite Zmod_mod. destruct (Z.le_gt_cases N (r + b * 8)) as [Hc|Hc].
  - rewrite <- (Z.mod_unique (r + b * 8) N 1 (r + b * 8 - N)) by lia.
    rewrite <- (Z.div_unique (r + b * 8) N 1 (r + b * 8 - N)) by lia.
    rewrite (proj2 (Z.ltb_lt _ _)) by lia. by rewrite Zplus_mod_idemp_l, (Z.add_comm 1).
  - rewrite Z.mod_small, Z.div_small by lia. rewrite (proj2 (Z.ltb_ge _ _)) by lia. done.
Qed.

(** The final part of [md5_append], when the registers stand for a whole number of blocks. *)
Lemma final_part_represents n m st x p :
  length m = (64 * n)%nat -> x = rfc_blocks n initial_abcd m -> length (buf st) = 64%nat ->
  count0 st = (8 * sizeZ (m ++ p)) mod 2 ^ 32 -> count1 st = (8 * sizeZ (m ++ p)) / 2 ^ 32 mod 2 ^ 32 ->
  represents (m ++ p) (final_part st x p).
Proof.
  intros Hm -> Hb H0 H1. unfold final_part. rewrite full_blocks_rfc by (apply Nat.Div0.div_le_upper_bound; lia).
  set (k := (length p / 64)%nat). assert (Hk : (length (m ++ p) / 64 = n + k)%nat).
  { rewrite length_app, Hm, (Nat.mul_comm 64), Nat.div_add_l by done. done. }
  assert (Hr : (length (m ++ p) mod 64 = length (drop (64 * k) p))%nat).
  { rewrite length_app, Hm, length_drop, Nat.add_comm, (Nat.mul_comm 64), Nat.Div0.mod_add. apply Nat.Div0.mod_eq. }
  assert (Hd : drop (64 * (n + k)) (m ++ p) = drop (64 * k) p).
  { rewrite drop_app_ge by lia. f_equal. lia. }
  assert (Hs : (length (drop (64 * k) p) < 64)%nat) by (rewrite <- Hr; by apply Nat.mod_upper_bound).
  split; cbn [count0 count1 abcd buf]; [done|done|..].
  - rewrite Hk, rfc_blocks_add, rfc_blocks_app, drop_app_ge, Hm, Nat.sub_diag by lia. done.
  - destruct (sizeZ _ =? 0); [done|]. rewrite length_copy_to by lia. done.
  - rewrite Hk, Hd, Hr. unfold sizeZ. destruct (Z.eqb_spec (Z.of_nat (length (drop (64 * k) p))) 0) as [E|E].
    + destruct (drop (64 * k) p); [done|cbn in E; lia].
    + apply (take_copy_to 0). lia.
Qed.

Lemma append_represents m d st : represents m st -> 8 * sizeZ d < 2 ^ 31 ->
  exists st', md5_append d st = Ok st' /\ represents (m ++ d) st'.
Proof.
  intros R Hd. unfold md5_append. rewrite (offset_represents m st R), Z.shiftl_mul_pow2 by done. change (2 ^ 3) with 8.
  rewrite (proj2 (Z.leb_gt _ _)) by lia. destruct (Z.leb_spec (sizeZ d) 0) as [He|He].
  { exists st. split; [done|]. destruct d; [by rewrite app_nil_r|]. rewrite sizeZ_cons in He. pose proof (sizeZ_nonneg d). lia. }
  destruct (add_length_represents m d st R Hd) as [H0 H1].
  assert (Hb : buf (add_length (sizeZ d) st) = buf st) by done. assert (Hx : abcd (add_length (sizeZ d) st) = abcd st) by done.
  set (st1 := add_length (sizeZ d) st) in *. clearbody st1. set (o := (length m mod 64)%nat).
  assert (Ho : (o < 64)%nat) by by apply Nat.mod_upper_bound.
  pose proof (Nat.div_mod_eq (length m) 64) as Hm. fold o in Hm. pose proof (rep_abcd _ _ R) as Ra. pose proof (rep_buf _ _ R) as Rb.
  pose proof (rep_length _ _ R) as Rl. fold o in Rb. set (n := (length m / 64)%nat) in *. rewrite Hb, Hx, Nat2Z.id.
  destruct (Z.eqb_spec (Z.of_nat o) 0) as [E|E]; cbn [negb].
  { eexists. split; [reflexivity|]. apply (final_part_represents n); [lia|done|by rewrite Hb|done|done]. }
  set (c := if 64 <? _ then _ else _). assert (Hc : Z.to_nat c = (length d `min` (64 - o))%nat).
  { unfold c, sizeZ. destruct (Z.ltb_spec 64 (Z.of_nat o + Z.of_nat (length d))); lia. }
  assert (Hc0 : 0 <= c) by (unfold c, sizeZ; destruct (_ <? _); lia). cbn [abcd buf].
  set (p := take (Z.to_nat c) d). assert (Hp : (length p = length d `min` (64 - o))%nat) by (unfold p; rewrite length_take; lia).
  assert (Hop : (o + length p <= length (buf st))%nat) by lia.
  pose proof (take_copy_to o p (buf st) Hop) as Ht. rewrite Rb in Ht.
  destruct (Z.ltb_spec (Z.of_nat o + c) 64) as [Hlt|Hge].
  - assert (Ep : p = d) by (apply take_ge; lia). clearbody p. subst p. eexists. split; [reflexivity|].
    assert (Hq : (length (m ++ d) / 64 = n /\ length (m ++ d) mod 64 = o + length d)%nat).
    { rewrite length_app. split; symmetry; [apply (Nat.div_unique _ _ _ (o + length d))|apply (Nat.mod_unique _ _ n)]; lia. }
    destruct Hq as [Hq1 Hq2]. split; cbn [count0 count1 abcd buf]; [done|done|..].
    + rewrite Ra, Hq1, rfc_blocks_app by lia. done.
    + rewrite length_copy_to; [done|lia].
    + by rewrite Hq1, Hq2, Ht, drop_app_le by lia.
  - assert (Hmd : m ++ d = (m ++ p) ++ drop (Z.to_nat c) d) by (rewrite <- app_assoc; unfold p; by rewrite take_drop).
    eexists. split; [reflexivity|]. rewrite Hmd in *.
    apply (final_part_represents (S n)).
    + rewrite length_app. lia.
    + rewrite <- Nat.add_1_r, rfc_blocks_add. cbn [rfc_blocks]. rewrite rfc_blocks_app, <- Ra, drop_app_le, <- Ht by lia.
      rewrite md5_process_rfc.
      by replace (o + length p)%nat with 64%nat by lia; rewrite take_take.
    + cbn [buf]. rewrite length_copy_to; [done|lia].
    + done.
    + done.
Qed.

Lemma length_words (m : list Z) : u64 (8 * sizeZ m) mod 2 ^ 32 = (8 * sizeZ m) mod 2 ^ 32 /\
  u64 (8 * sizeZ m) / 2 ^ 32 = (8 * sizeZ m) / 2 ^ 32 mod 2 ^ 32.
Proof.
  unfold u64. set (a := 8 * sizeZ m). change (2 ^ 64) with (2 ^ 32 * 2 ^ 32). set (N := 2 ^ 32). assert (HN : 0 < N) by done.
  rewrite Z.rem_mul_r by lia. rewrite (Z.mul_comm N). split.
  - rewrite Z.mod_add by lia. apply Zmod_mod.
  - rewrite Z.div_add, Z.div_small by (try lia; by apply Z.mod_pos_bound). lia.
Qed.

Lemma take_pad k : (k < 64)%nat -> take (S k) pad = 0x80 :: replicate k 0.
Proof. intros Hk. unfold pad. cbn [take]. by rewrite take_replicate, Nat.min_l by lia. Qed.

Lemma finish_represents m st : represents m st -> md5_finish st = Ok (rfc_md5 m).
Proof.
  intros R. unfold md5_finish. destruct (length_words m) as [W0 W1].
  set (k := Z.to_nat ((55 - sizeZ m) mod 64)). pose proof (Z.mod_pos_bound (55 - sizeZ m) 64 ltac:(lia)) as Hk.
  assert (Hn : Z.land (55 - Z.shiftr (count0 st) 3) 63 = (55 - sizeZ m) mod 64).
  { change 63 with (Z.ones 6). rewrite Z.land_ones by done. change (2 ^ 6) with 64. rewrite <- Zminus_mod_idemp_r. symmetry.
    rewrite <- Zminus_mod_idemp_r. do 2 f_equal. pose proof (offset_represents m st R) as O. change 63 with (Z.ones 6) in O.
    rewrite Z.land_ones in O by done. change (2 ^ 6) with 64 in O. rewrite O, Nat2Z.inj_mod. done. }
  rewrite Hn. replace (Z.to_nat ((55 - sizeZ m) mod 64 + 1)) with (S k) by lia. rewrite take_pad by lia.
  destruct (append_represents m (0x80 :: replicate k 0) st R) as (st1 & E1 & R1).
  { rewrite sizeZ_cons. unfold sizeZ. rewrite length_replicate. lia. }
  rewrite E1. cbn [mbind outcome_bind].
  destruct (append_represents _ (bytes_of [count0 st; count1 st] 8) st1 R1) as (st2 & E2 & R2); [by vm_compute|].
  rewrite E2. cbn [mbind outcome_bind]. rewrite (rep_abcd _ _ R2). unfold rfc_md5, rfc_pad. fold k. rewrite W0, W1.
  rewrite (rep_count0 _ _ R), (rep_count1 _ _ R), <- app_assoc. done.
Qed.

(** [md5_append] for one piece of the message after the other. *)
Fixpoint append_all (chunks : list (list Z)) (st : md5_state) : outcome md5_state :=
  match chunks with
  | [] => Ok st
  | d :: chunks => st ← md5_append d st; append_all chunks st
  end.

Lemma append_all_represents chunks m st : represents m st -> Forall (fun d => 8 * sizeZ d < 2 ^ 31) chunks ->
  exists st', append_all chunks st = Ok st' /\ represents (m ++ concat chunks) st'.
Proof.
  revert m st. induction chunks as [|d chunks IH]; intros m st R Hc; cbn [append_all concat].
  { exists st. by rewrite app_nil_r. }
  apply Forall_cons in Hc as [Hd Hc]. destruct (append_represents m d st R Hd) as (st1 & E1 & R1).
  rewrite E1. cbn [mbind outcome_bind]. rewrite app_assoc. by apply IH.
Qed.

(** C15: the digest is that of RFC 1321, however the message is cut into pieces.  From any state with a buffer of 64
    bytes, [md5_init], one [md5_append] for each piece (of any length up to the 2^28 bytes whose number of bits
    fits an [int]; pieces may be empty) and [md5_finish] return the digest that the standard defines
    for the concatenation of the pieces. *)
Theorem digest_is_rfc1321 chunks st :
  length (buf st) = 64%nat -> Forall (fun d => 8 * sizeZ d < 2 ^ 31) chunks ->
  (st ← append_all chunks (md5_init st); md5_finish st) = Ok (rfc_md5 (concat chunks)).
Proof.
  intros Hb Hc. destruct (append_all_represents chunks [] (md5_init st) (init_represents st Hb) Hc) as (st' & E & R).
  rewrite E. cbn [mbind outcome_bind]. by apply finish_represents.
Qed.

Lemma digest_is_rfc1321_witness :
  (st ← append_all [[97]; []; [98; 99]] (md5_init (mkState 0 0 initial_abcd (replicate 64 0))); md5_finish st) =
    Ok (rfc_md5 [97; 98; 99]) /\
  rfc_md5 [97; 98; 99] = [144; 1; 80; 152; 60; 210; 79; 176; 214; 150; 63; 125; 40; 225; 127; 114].
Proof.
  split; [|vm_compute; reflexivity].
  apply (digest_is_rfc1321 [[97]; []; [98; 99]] (mkState 0 0 initial_abcd (replicate 64 0))); [done|by repeat constructor].
Defined.

(** A message of more than one block. *)
Lemma digest_of_two_blocks : rfc_md5 (replicate 100 97) = [54; 169; 44; 201; 74; 158; 15; 162; 31; 98; 95; 139; 251; 0; 122; 223].
Proof. vm_compute. reflexivity. Qed.

End Md5.
