(* ===== verification/JLockService.v ===== *)
(** * JLockService: named reader-writer locks shared between threads

    Model of [Compatibility/JLockService.h] and [Services/JGlobalRootLock.h].  Each method is cut where it gives up the lock
    of its table, so that other threads can run in between: a [Pc] is a place between two such
    cuts, [segment] is the code from there to the next one, and a step of the system is one segment of
    one thread.  A segment that waits for a lock is not possible before the lock is free.  The system also writes down
    which thread holds what ([held]): what it has locked with a method that has returned, and not unlocked. *)

From Stdlib Require Import Ascii.
From S2P Require Import Prelude.
Local Open Scope Z_scope.

Module LockService.

Inductive Mode := Read | Write.

#[export] Instance Mode_eq_dec : EqDecision Mode.
Proof. solve_decision. Defined.

(** [pthread_rwlock_t]: who holds it. *)
Record RwLock := mkRwLock { writer : option Z; readers : list Z }.

Definition free_lock : RwLock := mkRwLock None [].

(** [pthread_rwlock_rdlock] and [pthread_rwlock_wrlock] by thread [t]; [None] while they wait.  Where POSIX lets an implementation fail
    instead (EDEADLK, if [t] itself holds the lock, and EAGAIN), the call is taken to wait or to succeed: the code looks at no result. *)
Definition acquire (t : Z) (m : Mode) (l : RwLock) : option RwLock :=
  match writer l, m with
  | Some _, _ => None
  | None, Read => Some (mkRwLock None (t :: readers l))
  | None, Write => if bool_decide (readers l = []) then Some (mkRwLock (Some t) []) else None
  end.

Fixpoint remove_one (t : Z) (ts : list Z) : list Z :=
  match ts with
  | [] => []
  | u :: ts => if u =? t then ts else u :: remove_one t ts
  end.

(** [pthread_rwlock_unlock]; undefined for a thread that does not hold the lock. *)
Definition release (t : Z) (l : RwLock) : outcome RwLock :=
  match writer l with
  | Some w => if w =? t then Ok free_lock else Undef
  | None => if bool_decide (t ∈ readers l) then Ok (mkRwLock None (remove_one t (readers l))) else Undef
  end.

(** [JGlobalRootLock], a service that is one lock. *)
Definition acquire_read_lock (t : Z) : RwLock -> option RwLock := acquire t Read.
Definition acquire_write_lock (t : Z) : RwLock -> option RwLock := acquire t Write.
Definition release_lock (t : Z) : RwLock -> outcome RwLock := release t.

Record JLockService := mkService {
  m_rw_locks : gmap string Z;
  m_root_fill_rw_lock : gmap Z Z;
  m_app_rw_lock : Z;
  m_root_rw_lock : Z;
  heap : gmap Z RwLock;
  next_lock : Z
}.

Definition set_heap (h : gmap Z RwLock) (s : JLockService) : JLockService :=
  mkService (m_rw_locks s) (m_root_fill_rw_lock s) (m_app_rw_lock s) (m_root_rw_lock s) h (next_lock s).

Abbreviation ML := (M JLockService).

(** [new pthread_rwlock_t] and [pthread_rwlock_init]. *)
Definition new_lock : ML Z := fun s =>
  (Ok (next_lock s), mkService (m_rw_locks s) (m_root_fill_rw_lock s) (m_app_rw_lock s) (m_root_rw_lock s)
                       (<[next_lock s := free_lock]> (heap s)) (next_lock s + 1)).

Definition set_named (name : string) (l : Z) (s : JLockService) : JLockService :=
  mkService (<[name := l]> (m_rw_locks s)) (m_root_fill_rw_lock s) (m_app_rw_lock s) (m_root_rw_lock s) (heap s) (next_lock s).
Definition set_fill (proc l : Z) (s : JLockService) : JLockService :=
  mkService (m_rw_locks s) (<[proc := l]> (m_root_fill_rw_lock s)) (m_app_rw_lock s) (m_root_rw_lock s) (heap s) (next_lock s).

(** [CreateLock] holds the lock of the table for writing all the time. *)
Definition CreateLock (name : string) (throw_exception_if_exists : bool) : ML Z :=
  found ← gets (fun s => m_rw_locks s !! name);
  match found with
  | Some lock =>
      if throw_exception_if_exists
      then throwM ("Trying to create JANA rw lock " +:+ quoted name +:+ " when it already exists!")
      else mret lock
  | None =>
      lock ← new_lock;
      _ ← modify (set_named name lock);
      mret lock
  end.

Definition set_builtin (app root : Z) (s : JLockService) : JLockService :=
  mkService (m_rw_locks s) (m_root_fill_rw_lock s) app root (heap s) (next_lock s).

(** The constructor. *)
Definition construct : ML unit :=
  app ← CreateLock "app" true;
  root ← CreateLock "root" true;
  modify (set_builtin app root).

Definition empty_service : JLockService := mkService ∅ ∅ 0 0 ∅ 1.
Definition new_service : JLockService := (construct empty_service).2.

(** The getters; [None] for a null pointer. *)
Definition GetReadWriteLock (name : string) (s : JLockService) : option Z := m_rw_locks s !! name.
Definition GetRootReadWriteLock (s : JLockService) : Z := m_root_rw_lock s.
Definition GetRootFillLock (proc : Z) (s : JLockService) : option Z := m_root_fill_rw_lock s !! proc.

(** The locks that the destructor deletes, in its order. *)
Definition destroy (s : JLockService) : list Z :=
  [m_app_rw_lock s; m_root_rw_lock s] ++ (map_to_list (m_rw_locks s)).*2 ++ (map_to_list (m_root_fill_rw_lock s)).*2.

(** ** Methods, cut into segments *)

(** What is locked: a name, or the lock of a processor. *)
Inductive Key := Named (name : string) | Fill (proc : Z).

#[export] Instance Key_eq_dec : EqDecision Key.
Proof. solve_decision. Defined.

Inductive Pc :=
| Create (name : string) (throws : bool)
| Lookup (m : Mode) (name : string)
| CreateFor (m : Mode) (name : string)
| Wait (m : Mode) (k : Key) (lock : Z)
| UnlockLookup (name : string)
| UnlockNow (k : Key) (lock : Z)
| FillLookup (proc : Z)
| FillNew (proc : Z)
| FillInsert (proc lock : Z)
| FillUnlockLookup (proc : Z)
| FillUnlockNow (proc : Z).

(** The methods, by where they begin. *)
Definition ReadLock (name : string) (s : JLockService) : Pc := Lookup Read name.
Definition WriteLock (name : string) (s : JLockService) : Pc := Lookup Write name.
Definition Unlock (name : string) (s : JLockService) : Pc := UnlockLookup name.
Definition RootReadLock (s : JLockService) : Pc := Wait Read (Named "root") (m_root_rw_lock s).
Definition RootWriteLock (s : JLockService) : Pc := Wait Write (Named "root") (m_root_rw_lock s).
Definition RootUnLock (s : JLockService) : Pc := UnlockNow (Named "root") (m_root_rw_lock s).
Definition RootFillLock (proc : Z) (s : JLockService) : Pc := FillLookup proc.
Definition RootFillUnLock (proc : Z) (s : JLockService) : Pc := FillUnlockLookup proc.

(** What follows a segment. *)
Inductive Next := Goto (pc : Pc) | Returns | Acquired (k : Key) (m : Mode) (lock : Z) | Released (k : Key) (lock : Z).

(** The locks themselves. *)
Definition lock_heap (t : Z) (m : Mode) (lock : Z) (s : JLockService) : option JLockService :=
  l ← heap s !! lock;
  l' ← acquire t m l;
  Some (set_heap (<[lock := l']> (heap s)) s).

Definition unlock_heap (t lock : Z) : ML unit :=
  s ← get;
  match heap s !! lock with
  | None => lift Undef
  | Some l => l' ← lift (release t l); modify (set_heap (<[lock := l']> (heap s)))
  end.

(** One segment of thread [t]; [None] if it has to wait. *)
Definition segment (t : Z) (pc : Pc) (s : JLockService) : option (outcome Next * JLockService) :=
  match pc with
  | Create name throws => Some ((_ ← CreateLock name throws; mret Returns) s)
  | Lookup m name =>
      Some (Ok (Goto (match m_rw_locks s !! name with Some l => Wait m (Named name) l | None => CreateFor m name end)), s)
  | CreateFor m name => Some ((l ← CreateLock name false; mret (Goto (Wait m (Named name) l))) s)
  | Wait m k l => s' ← lock_heap t m l s; Some (Ok (Acquired k m l), s')
  | UnlockLookup name =>
      Some (match m_rw_locks s !! name with
            | Some l => Ok (Goto (UnlockNow (Named name) l))
            | None => throwJ ("Unable to find lock " +:+ quoted name +:+ " for unlocking!")
            end, s)
  | UnlockNow k l => Some ((_ ← unlock_heap t l; mret (Released k l)) s)
  | FillLookup p =>
      Some (Ok (Goto (match m_root_fill_rw_lock s !! p with Some l => Wait Write (Fill p) l | None => FillNew p end)), s)
  | FillNew p => Some ((l ← new_lock; mret (Goto (FillInsert p l))) s)
  | FillInsert p l => Some (Ok (Goto (Wait Write (Fill p) l)), set_fill p l s)
  | FillUnlockLookup p =>
      Some (match m_root_fill_rw_lock s !! p with
            | Some _ => Ok (Goto (FillUnlockNow p))
            | None => throwJ "Tried calling JLockService::RootFillUnLock with something other than a registered JEventProcessor!"
            end, s)
  | FillUnlockNow p =>
      (* the table is read again, without its lock *)
      Some ((found ← gets (fun s => m_root_fill_rw_lock s !! p);
             match found with
             | Some l => _ ← unlock_heap t l; mret (Released (Fill p) l)
             | None => lift Undef
             end) s)
  end.

(** ** Threads *)

(** An entry of [held]: thread, what, how, and the lock. *)
Record Hold := mkHold { h_thread : Z; h_key : Key; h_mode : Mode; h_lock : Z }.

#[export] Instance Hold_eq_dec : EqDecision Hold.
Proof. solve_decision. Defined.

Record System := mkSystem { service : JLockService; running : gmap Z Pc; held : list Hold }.

Definition same_hold (t : Z) (k : Key) (lock : Z) (h : Hold) : bool :=
  bool_decide (h_thread h = t /\ h_key h = k /\ h_lock h = lock).

Fixpoint drop_hold (t : Z) (k : Key) (lock : Z) (hs : list Hold) : list Hold :=
  match hs with
  | [] => []
  | h :: hs => if same_hold t k lock h then hs else h :: drop_hold t k lock hs
  end.

Definition after (t : Z) (n : Next) (s : JLockService) (sys : System) : System :=
  match n with
  | Goto pc => mkSystem s (<[t := pc]> (running sys)) (held sys)
  | Returns => mkSystem s (delete t (running sys)) (held sys)
  | Acquired k m l => mkSystem s (delete t (running sys)) (mkHold t k m l :: held sys)
  | Released k l => mkSystem s (delete t (running sys)) (drop_hold t k l (held sys))
  end.

(** Thread [t] runs its next segment. *)
Definition run_segment (t : Z) (sys : System) : option System :=
  pc ← running sys !! t;
  r ← segment t pc (service sys);
  match r with
  | (Ok n, s) => Some (after t n s sys)
  | (Throw _, s) => Some (mkSystem s (delete t (running sys)) (held sys))
  | (Undef, _) => None
  end.

Definition start (t : Z) (pc : Pc) (sys : System) : System :=
  mkSystem (service sys) (<[t := pc]> (running sys)) (held sys).

(** Methods that a thread may call; it unlocks only what it holds. *)
Inductive begins (t : Z) (sys : System) : Pc -> Prop :=
| begin_create name throws : begins t sys (Create name throws)
| begin_read name : begins t sys (ReadLock name (service sys))
| begin_write name : begins t sys (WriteLock name (service sys))
| begin_root_read : begins t sys (RootReadLock (service sys))
| begin_root_write : begins t sys (RootWriteLock (service sys))
| begin_unlock name m l : mkHold t (Named name) m l ∈ held sys -> begins t sys (Unlock name (service sys))
| begin_root_unlock m l : mkHold t (Named "root") m l ∈ held sys -> begins t sys (RootUnLock (service sys)).

Inductive lock_step : System -> System -> Prop :=
| step_begin t pc sys : running sys !! t = None -> begins t sys pc -> lock_step sys (start t pc sys)
| step_run t sys sys' : run_segment t sys = Some sys' -> lock_step sys sys'.

Definition initial : System := mkSystem new_service ∅ [].

(** ** The invariant *)

(** The lock of a key is the one in the table. *)
Definition known (s : JLockService) (k : Key) (l : Z) : Prop :=
  match k with Named n => m_rw_locks s !! n = Some l | Fill _ => False end.

Definition pc_ok (sys : System) (t : Z) (pc : Pc) : Prop :=
  match pc with
  | Create _ _ | Lookup _ _ | CreateFor _ _ => True
  | Wait _ k l => known (service sys) k l
  | UnlockLookup name => exists m l, mkHold t (Named name) m l ∈ held sys
  | UnlockNow k l => exists m, mkHold t k m l ∈ held sys
  | FillLookup _ | FillNew _ | FillInsert _ _ | FillUnlockLookup _ | FillUnlockNow _ => False
  end.

(** Who holds a lock, by its own state and by [held]. *)
Definition holders (l : Z) (hs : list Hold) : list Hold := filter (fun h => h_lock h = l) hs.

Definition agrees (lk : RwLock) (hs : list Hold) : Prop :=
  match writer lk with
  | Some t => readers lk = [] /\ exists k l, hs = [mkHold t k Write l]
  | None => readers lk ≡ₚ h_thread <$> hs /\ Forall (fun h => h_mode h = Read) hs
  end.

Record service_ok (s : JLockService) : Prop := {
  so_root : m_rw_locks s !! "root"%string = Some (m_root_rw_lock s);
  so_named : forall n l, m_rw_locks s !! n = Some l -> is_Some (heap s !! l);
  so_fresh : forall l, is_Some (heap s !! l) -> l < next_lock s;
  so_inj : forall n n' l, m_rw_locks s !! n = Some l -> m_rw_locks s !! n' = Some l -> n = n'
}.

Record system_ok (sys : System) : Prop := {
  sy_service : service_ok (service sys);
  sy_running : forall t pc, running sys !! t = Some pc -> pc_ok sys t pc;
  sy_held : forall h, h ∈ held sys -> known (service sys) (h_key h) (h_lock h);
  sy_locks : forall l lk, heap (service sys) !! l = Some lk -> agrees lk (holders l (held sys))
}.

Lemma remove_one_perm t ts : t ∈ ts -> ts ≡ₚ t :: remove_one t ts.
Proof.
  induction ts as [|u ts IH]; intros Ht; [by apply elem_of_nil in Ht|]. cbn. destruct (Z.eqb_spec u t) as [->|Hu]; [done|].
  apply elem_of_cons in Ht as [->|Ht]; [done|]. rewrite (IH Ht) at 1. apply Permutation_swap.
Qed.

Lemma drop_hold_perm t k l hs m : mkHold t k m l ∈ hs ->
  exists m', mkHold t k m' l ∈ hs /\ hs ≡ₚ mkHold t k m' l :: drop_hold t k l hs.
Proof.
  induction hs as [|h hs IH]; intros Hh; [by apply elem_of_nil in Hh|]. cbn. unfold same_hold. case_bool_decide as E.
  - exists (h_mode h). destruct h, E as (<- & <- & <-). cbn. split; [apply elem_of_cons; by left|done].
  - apply elem_of_cons in Hh as [<-|Hh]; [by contradiction E|]. destruct (IH Hh) as (m' & Hm & Hp).
    exists m'. split; [apply elem_of_cons; by right|]. rewrite Hp at 1. apply Permutation_swap.
Qed.

#[local] Instance holders_proper l : Proper ((≡ₚ) ==> (≡ₚ)) (holders l).
Proof. intros hs hs' E. unfold holders. by rewrite E. Qed.

#[local] Instance agrees_proper lk : Proper ((≡ₚ) ==> iff) (agrees lk).
Proof.
  intros hs hs' E. unfold agrees. destruct (writer lk) as [t|].
  - split; intros (Hr & k & l & ->); (split; [done|]); exists k, l; [by apply Permutation_singleton_l in E|by apply Permutation_singleton_r in E].
  - by rewrite E.
Qed.

Lemma lock_holders_cons l h hs : holders l (h :: hs) = if decide (h_lock h = l) then h :: holders l hs else holders l hs.
Proof. unfold holders. by rewrite filter_cons. Qed.

(** Acquiring and releasing keep a lock and its holders in agreement. *)
Lemma acquire_agrees t k m l lk lk' hs :
  acquire t m lk = Some lk' -> agrees lk hs -> agrees lk' (mkHold t k m l :: hs).
Proof.
  unfold acquire, agrees. destruct (writer lk); [done|]. intros E [Hr Hm]. destruct m.
  - injection E as <-. cbn. split; [by rewrite Hr|by constructor].
  - case_bool_decide as Hn; [|done]. injection E as <-. cbn. split; [done|]. exists k, l.
    rewrite Hn in Hr. apply Permutation_nil_l, eq_sym, fmap_nil_inv in Hr. by subst.
Qed.

Lemma release_agrees t k m l lk hs : agrees lk (mkHold t k m l :: hs) -> exists lk', release t lk = Ok lk' /\ agrees lk' hs.
Proof.
  unfold agrees, release. destruct (writer lk) as [w|].
  - intros (Hr & k' & l' & [= -> -> -> -> ->]). rewrite Z.eqb_refl. eexists. split; [done|]. cbn. by split.
  - intros [Hr Hm]. cbn in Hr. apply Forall_cons in Hm as [_ Hm].
    assert (Ht : t ∈ readers lk) by (rewrite Hr; apply elem_of_cons; by left).
    rewrite bool_decide_true by done. eexists. split; [done|]. cbn. split; [|done].
    apply (Permutation_cons_inv (a := t)). by rewrite <- remove_one_perm.
Qed.

(** The table only grows, and new locks are free. *)
Record grows (s s' : JLockService) : Prop := {
  gr_named : forall n l, m_rw_locks s !! n = Some l -> m_rw_locks s' !! n = Some l;
  gr_heap : forall l lk, heap s' !! l = Some lk -> heap s !! l = Some lk \/ (lk = free_lock /\ next_lock s <= l)
}.

Lemma CreateLock_grows n b s : service_ok s ->
  let '(r, s') := CreateLock n b s in
  service_ok s' /\ grows s s' /\ match r with Ok l => m_rw_locks s' !! n = Some l | Throw _ => True | Undef => False end.
Proof.
  intros [Hroot Hnamed Hfresh Hinj]. unfold CreateLock. rewrite M_bind_gets. destruct (m_rw_locks s !! n) as [l|] eqn:Hn.
  { destruct b; cbn; (split; [done|]); (split; [|done]); split; auto. }
  unfold new_lock, mbind, M_bind, modify, mret, M_ret, set_named.
  cbn [m_rw_locks m_root_fill_rw_lock m_app_rw_lock m_root_rw_lock heap next_lock].
  split; [|split; [|cbn -[lookup insert]; by rewrite lookup_insert_eq]]; split;
    cbn [m_rw_locks m_root_fill_rw_lock m_app_rw_lock m_root_rw_lock heap next_lock].
  - rewrite lookup_insert_ne; [done|]. intros ->. by rewrite Hn in Hroot.
  - intros n' l' Hl. rewrite lookup_insert_is_Some. apply lookup_insert_Some in Hl as [[_ <-]|[_ Hl]]; [by left|].
    destruct (decide (next_lock s = l')); [by left|right; split; eauto].
  - intros l'. rewrite lookup_insert_is_Some. intros [<-|[_ Hl]]; [lia|]. apply Hfresh in Hl. lia.
  - assert (Hnew : forall n', m_rw_locks s !! n' <> Some (next_lock s)).
    { intros n' Hl. apply Hnamed, Hfresh in Hl. lia. }
    intros n1 n2 l' [[<- <-]|[_ H1]]%lookup_insert_Some [[<- H2]|[_ H2]]%lookup_insert_Some; try done; [by destruct (Hnew n2)| |eauto].
    subst l'. by destruct (Hnew n1).
  - intros n' l' Hl. rewrite lookup_insert_ne; [done|]. intros <-. by rewrite Hn in Hl.
  - intros l' lk Hl. apply lookup_insert_Some in Hl as [[<- <-]|[_ Hl]]; [right; split; [done|lia]|by left].
Qed.

(** What the threads know and hold survives when the table grows. *)
Lemma known_grows s s' k l : grows s s' -> known s k l -> known s' k l.
Proof. intros G. destruct k; [apply (gr_named _ _ G)|done]. Qed.

Lemma holders_fresh sys l : system_ok sys -> next_lock (service sys) <= l -> holders l (held sys) = [].
Proof.
  intros S Hl. apply elem_of_nil_inv. intros h [E Hh]%list_elem_of_filter.
  pose proof (sy_held _ S h Hh) as K. destruct (h_key h) as [n|]; [|done].
  apply (so_named _ (sy_service _ S)), (so_fresh _ (sy_service _ S)) in K. lia.
Qed.

Lemma grown_locks sys s' : system_ok sys -> grows (service sys) s' ->
  forall l lk, heap s' !! l = Some lk -> agrees lk (holders l (held sys)).
Proof.
  intros S G l lk Hl. destruct (gr_heap _ _ G l lk Hl) as [H0|[-> Hf]]; [by apply (sy_locks _ S)|].
  rewrite (holders_fresh sys l S Hf). by split.
Qed.

(** A thread moves on without touching any lock. *)
Lemma moves_ok sys s' t o : system_ok sys -> service_ok s' -> grows (service sys) s' ->
  (forall pc, o = Some pc -> pc_ok (mkSystem s' (running sys) (held sys)) t pc) ->
  system_ok (mkSystem s' (partial_alter (fun _ => o) t (running sys)) (held sys)).
Proof.
  intros S S' G Hpc. split; cbn.
  - done.
  - intros u pc Hu. destruct (decide (t = u)) as [<-|Hne].
    + rewrite lookup_partial_alter_eq in Hu. by apply Hpc.
    + rewrite lookup_partial_alter_ne in Hu by done. pose proof (sy_running _ S u pc Hu) as P.
      destruct pc; cbn in *; try done. by eapply known_grows.
  - intros h Hh. eapply known_grows; [done|]. by apply (sy_held _ S).
  - by apply grown_locks.
Qed.

Lemma drop_hold_other t k l h hs : h_thread h <> t -> h ∈ hs -> h ∈ drop_hold t k l hs.
Proof.
  intros Ht. induction hs as [|g hs IH]; intros Hh; [done|]. cbn. unfold same_hold.
  apply elem_of_cons in Hh as [<-|Hh]; case_bool_decide as E; [naive_solver|apply elem_of_cons; by left|done|].
  apply elem_of_cons. right. by apply IH.
Qed.

Lemma drop_hold_subset t k l h hs : h ∈ drop_hold t k l hs -> h ∈ hs.
Proof.
  induction hs as [|g hs IH]; [done|]. cbn. destruct (same_hold t k l g); intros Hh; apply elem_of_cons; [by right|].
  apply elem_of_cons in Hh as [->|Hh]; [by left|right; by apply IH].
Qed.

(** What another thread is about to do stays possible. *)
Lemma pc_ok_other s h' hs hs' rs rs' u pc :
  (forall h, h_thread h = u -> h ∈ hs -> h ∈ hs') ->
  pc_ok (mkSystem s rs hs) u pc -> pc_ok (mkSystem (set_heap h' s) rs' hs') u pc.
Proof. intros Hsub. destruct pc as [| | |m [] l| | | | | | |]; cbn; naive_solver. Qed.

Lemma set_heap_ok s l lk lk' : service_ok s -> heap s !! l = Some lk -> service_ok (set_heap (<[l := lk']> (heap s)) s).
Proof.
  intros [Hr Hn Hf Hi] Hl. split; cbn [m_rw_locks m_root_rw_lock heap next_lock set_heap]; [done| | |done].
  - intros n l' Hl'. apply lookup_insert_is_Some. destruct (decide (l = l')); [by left|right; split; eauto].
  - intros l' Hl'. apply lookup_insert_is_Some in Hl' as [<-|[_ Hl']]; apply Hf; eauto.
Qed.

(** Thread [t] locks or unlocks [l]: [hs] are the holders afterwards. *)
Lemma lock_changes sys t l lk lk' hs : system_ok sys -> heap (service sys) !! l = Some lk ->
  (forall h, h ∈ hs -> known (service sys) (h_key h) (h_lock h)) ->
  (forall h, h_thread h <> t -> h ∈ held sys -> h ∈ hs) ->
  agrees lk' (holders l hs) -> (forall l', l' <> l -> holders l' hs ≡ₚ holders l' (held sys)) ->
  system_ok (mkSystem (set_heap (<[l := lk']> (heap (service sys))) (service sys)) (delete t (running sys)) hs).
Proof.
  intros S Hl Hk Hsub Ha Hrest. split; cbn [service running held].
  - by eapply set_heap_ok; [apply (sy_service _ S)|].
  - intros u pc [Hne Hu]%lookup_delete_Some. pose proof (sy_running _ S u pc Hu) as P. destruct sys as [s rs hs0].
    eapply pc_ok_other; [|exact P]. intros h <-. apply Hsub. congruence.
  - intros h Hh. specialize (Hk h Hh). by destruct (h_key h).
  - intros l' lk0. cbn [heap set_heap]. rewrite lookup_insert. case_decide as E; intros Hl'.
    + subst l'. by injection Hl' as <-.
    + rewrite (Hrest l') by congruence. by apply (sy_locks _ S).
Qed.

Lemma wait_ok sys t m k l s' : system_ok sys -> known (service sys) k l -> lock_heap t m l (service sys) = Some s' ->
  system_ok (mkSystem s' (delete t (running sys)) (mkHold t k m l :: held sys)).
Proof.
  intros S K E. unfold lock_heap in E. apply bind_Some in E as (lk & Hl & (lk' & Ha & [= <-])%bind_Some).
  apply (lock_changes sys t l lk); [done|done|..].
  - intros h [->|Hh]%elem_of_cons; [done|by apply (sy_held _ S)].
  - intros h _ Hh. apply elem_of_cons. by right.
  - rewrite lock_holders_cons, decide_True by done. eapply acquire_agrees; [done|]. by apply (sy_locks _ S).
  - intros l' Hne. by rewrite lock_holders_cons, decide_False by (cbn; congruence).
Qed.

Lemma unlock_ok sys t k l m : system_ok sys -> mkHold t k m l ∈ held sys ->
  exists s', unlock_heap t l (service sys) = (Ok tt, s') /\
    system_ok (mkSystem s' (delete t (running sys)) (drop_hold t k l (held sys))).
Proof.
  intros S Hh. pose proof (sy_held _ S _ Hh) as K. cbn in K. destruct k as [n|]; [|done].
  destruct (so_named _ (sy_service _ S) n l K) as [lk Hl].
  destruct (drop_hold_perm _ _ _ _ _ Hh) as (m' & _ & Hp). pose proof (sy_locks _ S l lk Hl) as A.
  rewrite Hp, lock_holders_cons, decide_True in A by done. destruct (release_agrees _ _ _ _ _ _ A) as (lk' & E & A').
  unfold unlock_heap. rewrite M_bind_get, Hl. unfold lift, mbind, M_bind. rewrite E. eexists. split; [reflexivity|].
  apply (lock_changes sys t l lk); [done|done| | |done|].
  - intros h Hd. apply (sy_held _ S). by eapply drop_hold_subset.
  - intros h Ht Hd. by apply drop_hold_other.
  - intros l' Hne. rewrite Hp at 2. by rewrite lock_holders_cons, decide_False by (cbn; congruence).
Qed.

Lemma begins_ok sys t pc : system_ok sys -> begins t sys pc -> pc_ok sys t pc.
Proof.
  intros S B. pose proof (so_root _ (sy_service _ S)) as R. destruct B; cbn; eauto. exists m.
  assert (l = m_root_rw_lock (service sys)) as <-; [|done]. pose proof (sy_held _ S _ H) as K. cbn in K. congruence.
Qed.

Lemma grows_refl s : grows s s.
Proof. split; auto. Qed.

Lemma acquire_waits t m lk hs : acquire t m lk = None -> agrees lk hs -> exists h, h ∈ hs /\ (m = Write \/ h_mode h = Write).
Proof.
  unfold acquire, agrees. destruct (writer lk) as [w|].
  - intros _ (_ & k & l & ->). eexists. split; [by apply list_elem_of_singleton|by right].
  - destruct m; [done|]. case_bool_decide as Hn; [done|]. intros _ [Hr _]. destruct hs as [|h hs].
    + by apply Permutation_nil_r in Hr.
    + exists h. split; [apply elem_of_cons; by left|by left].
Qed.

(** Somebody else's hold on what the thread waits for. *)
Definition in_the_way (sys : System) (m : Mode) (k : Key) : Prop :=
  exists h, h ∈ held sys /\ h_key h = k /\ (m = Write \/ h_mode h = Write).

Lemma waits_for_holder sys t m k l : system_ok sys -> known (service sys) k l -> lock_heap t m l (service sys) = None ->
  in_the_way sys m k.
Proof.
  intros S K E. destruct k as [n|]; [|done]. destruct (so_named _ (sy_service _ S) n l K) as [lk Hl].
  unfold lock_heap in E. rewrite Hl in E. cbn in E. destruct (acquire t m lk) eqn:Ea; [done|].
  destruct (acquire_waits t m lk _ Ea (sy_locks _ S l lk Hl)) as (h & [Hhl Hh]%list_elem_of_filter & Hm).
  exists h. split; [done|]. split; [|done]. pose proof (sy_held _ S h Hh) as K'. destruct (h_key h) as [n'|]; [|done].
  cbn in K'. rewrite Hhl in K'. by rewrite (so_inj _ (sy_service _ S) n n' l K K').
Qed.

(** Every segment keeps the invariant; it has to wait only for a lock that somebody holds, and is never undefined. *)
Lemma segment_ok sys t pc : system_ok sys -> running sys !! t = Some pc ->
  match run_segment t sys with
  | Some sys' => system_ok sys'
  | None => exists m k l, pc = Wait m k l /\ in_the_way sys m k
  end.
Proof.
  intros S Ht. pose proof (sy_running _ S t pc Ht) as P. pose proof (sy_service _ S) as O. unfold run_segment. rewrite Ht.
  cbn [mbind option_bind]. destruct pc as [n b|m n|m n|m k l|n|k l|p|p|p l|p|p]; cbn [segment]; try done.
  - pose proof (CreateLock_grows n b _ O) as C. unfold mbind, M_bind. destruct (CreateLock n b (service sys)) as [[l|e|] s'];
      [..|by destruct C as (_ & _ & [])]; destruct C as (O' & G & _); by apply moves_ok.
  - apply (moves_ok sys (service sys) t (Some _)); [done|done|apply grows_refl|]. intros pc [= <-].
    by destruct (m_rw_locks (service sys) !! n) eqn:E.
  - pose proof (CreateLock_grows n false _ O) as C. unfold mbind, M_bind.
    destruct (CreateLock n false (service sys)) as [[l|e|] s']; [..|by destruct C as (_ & _ & [])]; destruct C as (O' & G & K);
      [|by apply moves_ok]. apply (moves_ok sys s' t (Some _)); [done|done|done|]. by intros pc [= <-].
  - destruct (lock_heap t m l (service sys)) as [s'|] eqn:E; cbn; [by apply wait_ok|].
    exists m, k, l. split; [done|]. by eapply waits_for_holder.
  - destruct P as (m & l & Hh). pose proof (sy_held _ S _ Hh) as K. cbn in K. rewrite K.
    apply (moves_ok sys (service sys) t (Some _)); [done|done|apply grows_refl|]. intros pc [= <-]. by exists m.
  - destruct P as (m & Hh). destruct (unlock_ok sys t k l m S Hh) as (s' & E & S').
    unfold mbind, M_bind. by rewrite E.
Qed.

Lemma new_service_is : new_service =
  mkService (<["root"%string := 2]> (<["app"%string := 1]> ∅)) ∅ 1 2 (<[2 := free_lock]> (<[1 := free_lock]> ∅)) 3.
Proof. reflexivity. Qed.

Lemma initial_ok : system_ok initial.
Proof.
  unfold initial. rewrite new_service_is.
  split; [split|..]; cbn [service running held m_rw_locks m_root_rw_lock heap next_lock].
  - by rewrite lookup_insert_eq.
  - intros n l [[_ <-]|[_ [[_ <-]|[_ Hn]]%lookup_insert_Some]]%lookup_insert_Some; rewrite !lookup_insert_is_Some'; auto.
    by rewrite lookup_empty in Hn.
  - intros l. rewrite !lookup_insert_is_Some', lookup_empty. intros [<-|[<-|[? ?]]]; done.
  - intros n n' l [[<- <-]|[Hne [[<- <-]|[_ Hn]]%lookup_insert_Some]]%lookup_insert_Some
      [[<- E]|[Hne' [[<- E]|[_ Hn']]%lookup_insert_Some]]%lookup_insert_Some; by rewrite ?lookup_empty in *.
  - intros t pc. by rewrite lookup_empty.
  - by intros h Hh%elem_of_nil.
  - by intros l lk [[_ <-]|[_ [[_ <-]|[_ Hl]]%lookup_insert_Some]]%lookup_insert_Some; [..|by rewrite lookup_empty in Hl].
Qed.

Lemma reachable_ok sys : steps lock_step initial sys -> system_ok sys.
Proof.
  intros Hs. refine (steps_invariant lock_step system_ok _ _ _ Hs initial_ok). clear. intros sys sys' S Hst. revert S.
  destruct Hst as [t pc sys0 Hn B|t sys0 sys1 E]; intros S.
  - apply (moves_ok sys0 (service sys0) t (Some pc)); [done|apply (sy_service _ S)|apply grows_refl|].
    intros pc' [= <-]. destruct sys0 as [s rs hs]. exact (begins_ok _ t pc S B).
  - destruct (running sys0 !! t) as [pc|] eqn:Ht.
    + pose proof (segment_ok sys0 t pc S Ht) as P. by rewrite E in P.
    + unfold run_segment in E. by rewrite Ht in E.
Qed.

Lemma two_elements {A} (l : list A) i j x y : l !! i = Some x -> l !! j = Some y -> i <> j -> exists rest, l ≡ₚ x :: y :: rest.
Proof.
  intros Hi Hj Hij. assert (Hy : y ∈ delete i l).
  { destruct (Nat.lt_ge_cases j i) as [Hlt|Hge].
    - apply (list_elem_of_lookup_2 _ j). by rewrite list_lookup_delete_lt.
    - apply (list_elem_of_lookup_2 _ (pred j)). rewrite list_lookup_delete_ge by lia. by replace (S (pred j)) with j by lia. }
  apply list_elem_of_lookup_1 in Hy as [j' Hj']. exists (delete j' (delete i l)).
  rewrite (delete_Permutation l i x Hi) at 1. by rewrite (delete_Permutation (delete i l) j' y Hj') at 1.
Qed.

(** Two holds on the same key: both are for reading. *)
Lemma holds_share sys i j h h' : system_ok sys -> held sys !! i = Some h -> held sys !! j = Some h' -> i <> j ->
  h_key h = h_key h' -> h_mode h = Read.
Proof.
  intros S Hi Hj Hij Hk. pose proof (sy_held _ S h (list_elem_of_lookup_2 _ _ _ Hi)) as K.
  pose proof (sy_held _ S h' (list_elem_of_lookup_2 _ _ _ Hj)) as K'. rewrite Hk in K. destruct (h_key h') as [n|]; [|done].
  cbn in K, K'. assert (El : h_lock h = h_lock h') by congruence. destruct (so_named _ (sy_service _ S) n _ K) as [lk Hl].
  pose proof (sy_locks _ S _ lk Hl) as A.
  destruct (two_elements _ _ _ _ _ Hi Hj Hij) as [rest Hp]. rewrite Hp in A.
  rewrite lock_holders_cons, decide_True, lock_holders_cons, decide_True in A by done. unfold agrees in A. destruct (writer lk).
  - by destruct A as (_ & k & l & [=]).
  - by destruct A as [_ [A _]%Forall_cons].
Qed.

(** C16: named locks exclude.  In every interleaving of threads that create, lock for reading, lock for writing and
    unlock locks by name, and use the root lock through its own methods, each thread unlocking only what
    it holds: if a name is held twice, by whatever threads, both hold it for reading.  This is so although two
    threads may both find that a lock does not exist yet.  No thread is ever stuck except one that waits for a name that is held,
    for writing or while it wants to write itself; in particular nothing is undefined. *)
Theorem named_locks_exclude sys : steps lock_step initial sys ->
  (forall i j h h', held sys !! i = Some h -> held sys !! j = Some h' -> i <> j -> h_key h = h_key h' ->
     h_mode h = Read /\ h_mode h' = Read) /\
  (forall t pc, running sys !! t = Some pc -> run_segment t sys = None -> exists m k l, pc = Wait m k l /\ in_the_way sys m k).
Proof.
  intros Hs%reachable_ok. split.
  - intros i j h h' Hi Hj Hij Hk. split; [by apply (holds_share sys i j h h')|by apply (holds_share sys j i h' h)].
  - intros t pc Ht E. pose proof (segment_ok sys t pc Hs Ht) as P. by rewrite E in P.
Qed.

(** Two threads both find that there is no lock "x"; one of them gets it, the other waits. *)
Definition next_of (t : Z) (sys : System) : System := default sys (run_segment t sys).
Definition x1 : System := start 1 (WriteLock "x" new_service) initial.
Definition x2 : System := start 2 (WriteLock "x" new_service) x1.
Definition x3 : System := next_of 1 x2.
Definition x4 : System := next_of 2 x3.
Definition x5 : System := next_of 1 x4.
Definition x6 : System := next_of 2 x5.
Definition x7 : System := next_of 2 x6.

Lemma named_locks_exclude_witness :
  held x7 = [mkHold 2 (Named "x") Write 3] /\ run_segment 1 x7 = None /\
  (forall t pc, running x7 !! t = Some pc -> run_segment t x7 = None -> exists m k l, pc = Wait m k l /\ in_the_way x7 m k).
Proof.
  split; [vm_compute; reflexivity|]. split; [vm_compute; reflexivity|]. apply (named_locks_exclude x7).
  apply steps_cons with x1; [apply step_begin; [done|constructor]|].
  apply steps_cons with x2; [apply (step_begin 2 _ x1); [done|apply begin_write]|].
  apply steps_cons with x3; [apply (step_run 1); vm_compute; reflexivity|].
  apply steps_cons with x4; [apply (step_run 2); vm_compute; reflexivity|].
  apply steps_cons with x5; [apply (step_run 1); vm_compute; reflexivity|].
  apply steps_cons with x6; [apply (step_run 2); vm_compute; reflexivity|].
  apply steps_cons with x7; [apply (step_run 2); vm_compute; reflexivity|]. constructor.
Defined.

(** ** The locks of processors *)

(** [RootFillLock] does not look again before it inserts a new lock: two threads that start together on
    the same processor both lock it for writing, each its own lock.  The thread whose lock was
    overwritten then unlocks a lock that it does not hold. *)
Lemma fill_locks_do_not_exclude : exists schedule,
  let sys := foldl (fun sys t => next_of t sys)
    (start 2 (RootFillLock 7 new_service) (start 1 (RootFillLock 7 new_service) initial)) schedule in
  held sys = [mkHold 2 (Fill 7) Write 4; mkHold 1 (Fill 7) Write 3] /\
  run_segment 1 (next_of 1 (start 1 (RootFillUnLock 7 (service sys)) sys)) = None.
Proof. exists [1; 2; 1; 2; 1; 2; 1; 2]. vm_compute. done. Qed.

(** The destructor deletes the built-in locks twice. *)
Lemma destructor_deletes_twice : ~ NoDup (destroy new_service).
Proof. assert (E : destroy new_service = [1; 2; 2; 1] \/ destroy new_service = [1; 2; 1; 2]) by (vm_compute; auto).
  destruct E as [-> | ->]; inversion 1; set_solver. Qed.

End LockService.
