(* ===== verification/JSequentialProcessor.v ===== *)
(** * JSequentialProcessor: processors that run one event at a time

    Model of [JEventProcessorSequential.h] and [JEventProcessorSequentialRoot.h].  Workers call [Process] at the same time, each with its own event.  A worker first
    asks for the objects of all declared types, which runs their factories, then locks the processor's mutex, copies the objects into the members and calls
    the user's [ProcessSequential].  The factories, which may throw, and the user's code are arguments. *)

From S2P Require Import Prelude JLockService.

Module Sequential.

Section Processor.
Context {U : Type}.

(** The types and tags of [mPrefetch]; the objects of an event, or [None] if the factory throws; the user's code, which returns or throws. *)
Context (mPrefetch : list string) (objects : Z -> string -> option (list Z)) (ProcessSequential : Z -> list (list Z) -> U -> bool * U).

Inductive Stage :=
  | Getting (rest : list string)
  | Filling (i : nat)
  | Calling
  | Finished (result : option bool).   (* what [ProcessSequential] did, if it was called *)

Record Thread := mkThread { event : Z; evaluated : list string; stage : Stage }.

Inductive Happened := Evaluated (e : Z) (tag : string) (locked : bool) | Processed (e : Z) (objs : list (list Z)).

Record State := mkState { threads : list Thread; mMutex : option nat; members : list (list Z); user : U; log : list Happened }.

Definition put (t : nat) (th : Thread) (s : State) : State := mkState (<[t := th]> (threads s)) (mMutex s) (members s) (user s) (log s).
Definition set_mutex (m : option nat) (s : State) : State := mkState (threads s) m (members s) (user s) (log s).
Definition fill (i : nat) (objs : list Z) (s : State) : State := mkState (threads s) (mMutex s) (<[i := objs]> (members s)) (user s) (log s).
Definition set_user (u : U) (s : State) : State := mkState (threads s) (mMutex s) (members s) u (log s).
Definition note (l : list Happened) (s : State) : State := mkState (threads s) (mMutex s) (members s) (user s) (log s ++ l).

(** [event->Get]: a factory that has run for this event does not run again. *)
Definition Get (locked : bool) (tag : string) (th : Thread) : option (list Z) * list string * list Happened :=
  if decide (tag ∈ evaluated th) then (objects (event th) tag, evaluated th, [])
  else (objects (event th) tag, if objects (event th) tag is Some _ then tag :: evaluated th else evaluated th, [Evaluated (event th) tag locked]).

(** The next step of worker [t] in [Process]; [None] if it has to wait, or has finished. *)
Definition step_thread (t : nat) (s : State) : option State :=
  th ← threads s !! t;
  match stage th with
  | Getting (tag :: rest) =>
      let '(o, ev, l) := Get (bool_decide (mMutex s = Some t)) tag th in
      Some (put t (mkThread (event th) ev (if o is Some _ then Getting rest else Finished None)) (note l s))
  | Getting [] =>
      match mMutex s with
      | None => Some (put t (mkThread (event th) (evaluated th) (Filling 0)) (set_mutex (Some t) s))
      | Some _ => None
      end
  | Filling i =>
      match mPrefetch !! i with
      | Some tag =>
          let '(o, ev, l) := Get (bool_decide (mMutex s = Some t)) tag th in
          match o with
          | Some objs => Some (put t (mkThread (event th) ev (Filling (S i))) (fill i objs (note l s)))
          | None => Some (put t (mkThread (event th) ev (Finished None)) (set_mutex None (note l s)))
          end
      | None => Some (put t (mkThread (event th) (evaluated th) Calling) s)
      end
  | Calling =>
      let '(ok, u) := ProcessSequential (event th) (members s) (user s) in
      Some (put t (mkThread (event th) (evaluated th) (Finished (Some ok))) (set_mutex None (set_user u (note [Processed (event th) (members s)] s))))
  | Finished _ => None
  end.

Definition seq_step (s s' : State) : Prop := exists t, step_thread t s = Some s'.

(** Each worker has an event. *)
Definition start (events : list Z) (objs : list (list Z)) (u : U) : State :=
  mkState ((fun e => mkThread e [] (Getting mPrefetch)) <$> events) None objs u [].

(** ** The invariant *)

Definition inside (st : Stage) : Prop := match st with Filling _ | Calling => True | _ => False end.
Definition called (th : Thread) : Prop := match stage th with Finished (Some _) => True | _ => False end.
Definition finished (th : Thread) : Prop := match stage th with Finished _ => True | _ => False end.

#[export] Instance called_dec th : Decision (called th).
Proof. unfold called. destruct (stage th) as [| | |[]]; apply _. Defined.

#[export] Instance finished_dec th : Decision (finished th).
Proof. unfold finished. destruct (stage th); apply _. Defined.

Definition known (th : Thread) (tag : string) : Prop := tag ∈ evaluated th /\ is_Some (objects (event th) tag).
Definition complete (e : Z) : Prop := Forall (fun tag => is_Some (objects e tag)) mPrefetch.

#[export] Instance complete_dec e : Decision (complete e).
Proof. apply _. Defined.

Definition thread_ok (objs : list (list Z)) (th : Thread) : Prop :=
  match stage th with
  | Getting rest => exists got, mPrefetch = got ++ rest /\ Forall (known th) got
  | Filling i => Forall (known th) mPrefetch /\ (i <= length mPrefetch)%nat /\ (Some <$> take i objs) = objects (event th) <$> take i mPrefetch
  | Calling => Forall (known th) mPrefetch /\ (Some <$> objs) = objects (event th) <$> mPrefetch
  | Finished None => ~ complete (event th)
  | Finished (Some _) => complete (event th)
  end.

Definition entry_ok (h : Happened) : Prop :=
  match h with Evaluated _ _ locked => locked = false | Processed e objs => (Some <$> objs) = objects e <$> mPrefetch end.

Definition processed (h : Happened) : option Z := match h with Processed e _ => Some e | _ => None end.

Record seq_inv (events : list Z) (s : State) : Prop := {
  si_events : event <$> threads s = events;
  si_members : length (members s) = length mPrefetch;
  si_mutex : forall t, mMutex s = Some t <-> exists th, threads s !! t = Some th /\ inside (stage th);
  si_threads : forall t th, threads s !! t = Some th -> thread_ok (members s) th;
  si_log : Forall entry_ok (log s);
  si_processed : omap processed (log s) ≡ₚ event <$> filter called (threads s)
}.

Lemma start_inv events objs u : length objs = length mPrefetch -> seq_inv events (start events objs u).
Proof.
  intros Hl. assert (Hth : forall t th, threads (start events objs u) !! t = Some th -> stage th = Getting mPrefetch).
  { intros t th. cbn. rewrite list_lookup_fmap. by intros (e & _ & ->)%fmap_Some. }
  split; cbn [start threads mMutex members log]; [by rewrite <- list_fmap_compose, list_fmap_id|done| | |constructor|].
  - intros t. split; [done|]. intros (th & E%Hth & Hi). by rewrite E in Hi.
  - intros t th E%Hth. unfold thread_ok. rewrite E. by exists [].
  - assert (E : filter called ((fun e => mkThread e [] (Getting mPrefetch)) <$> events) = []); [|by rewrite E].
    apply elem_of_nil_inv. intros th [Hc Hin]%list_elem_of_filter. apply list_elem_of_lookup in Hin as [t Ht%Hth]. unfold called in Hc. by rewrite Ht in Hc.
Qed.

(** One worker has made a step that leaves the others alone. *)
Lemma called_put l t th th' : l !! t = Some th -> ~ called th -> event <$> filter called (<[t := th']> l) ≡ₚ (if decide (called th') then [event th'] else []) ++ (event <$> filter called l).
Proof.
  intros Ht Hc. rewrite <- (take_drop_middle l t th Ht) at 2. rewrite insert_take_drop by (by eapply lookup_lt_Some). rewrite !filter_app, !filter_cons, !fmap_app.
  rewrite (decide_False (P := called th)) by done. case_decide; cbn [fmap list_fmap app]; [|done]. by rewrite Permutation_middle.
Qed.

Lemma step_inv events s s' t th th' new : seq_inv events s -> threads s !! t = Some th -> ~ finished th ->
  threads s' = <[t := th']> (threads s) -> event th' = event th -> length (members s') = length mPrefetch ->
  (mMutex s' = Some t <-> inside (stage th')) -> (forall u, u <> t -> mMutex s' = Some u <-> mMutex s = Some u) ->
  thread_ok (members s') th' -> (members s' = members s \/ mMutex s = Some t) ->
  log s' = log s ++ new -> Forall entry_ok new -> omap processed new = (if decide (called th') then [event th'] else []) -> seq_inv events s'.
Proof.
  intros [He Hm Hmu Hth Hlog Hp] Ht Hnf Eth Ee Hlen Hin Hother Hok Hmem Elog Hnew Hproc.
  assert (Htl : (t < length (threads s))%nat) by (by eapply lookup_lt_Some). split.
  - rewrite Eth, list_fmap_insert, Ee, <- He. apply list_insert_id. by rewrite list_lookup_fmap, Ht.
  - done.
  - intros u. rewrite Eth. destruct (decide (u = t)) as [->|Hne].
    + rewrite Hin, list_lookup_insert_eq by done. split; [intros Hi; by exists th'|]. by intros (? & [= <-] & Hi).
    + rewrite Hother, Hmu, list_lookup_insert_ne by done. done.
  - intros u thu. rewrite Eth. destruct (decide (u = t)) as [->|Hne]; [rewrite list_lookup_insert_eq by done; by intros [= <-]|].
    rewrite list_lookup_insert_ne by done. intros Hu. specialize (Hth u thu Hu) as Hoku. destruct Hmem as [->|Hmem]; [done|].
    assert (Hni : ~ inside (stage thu)). { intros Hi. assert (mMutex s = Some u) by (apply Hmu; by exists thu). congruence. }
    unfold thread_ok in *. by destruct (stage thu).
  - rewrite Elog. by apply Forall_app.
  - rewrite Elog, omap_app, Hproc, Eth, Hp, (called_put _ _ th); [|done|]; [apply Permutation_app_comm|]. unfold called, finished in *. by destruct (stage th).
Qed.

Lemma known_mono th ev tag st : known th tag -> evaluated th ⊆ ev -> known (mkThread (event th) ev st) tag.
Proof. intros [H1 H2] Hev. split; [by apply Hev|done]. Qed.

Lemma get_spec th tag : exists o ev l, Get false tag th = (o, ev, l) /\ o = objects (event th) tag /\ evaluated th ⊆ ev /\ (is_Some o -> tag ∈ ev) /\
  Forall entry_ok l /\ omap processed l = [].
Proof.
  unfold Get. case_decide; eexists _, _, _; (split; [reflexivity|]); split_and!; try done; [destruct (objects _ _); set_solver| |by repeat constructor].
  destruct (objects _ _); [intros _; left|by intros []].
Qed.

Lemma get_known th tag locked : known th tag -> Get locked tag th = (objects (event th) tag, evaluated th, []).
Proof. intros [Hk _]. unfold Get. by rewrite decide_True. Qed.

Lemma seq_step_inv events s s' : seq_inv events s -> seq_step s s' -> seq_inv events s'.
Proof.
  intros Hinv [t Hs]. unfold step_thread in Hs. apply bind_Some in Hs as (th & Ht & Hs). pose proof (si_threads _ _ Hinv t th Ht) as Hok. unfold thread_ok in Hok.
  assert (Hmu : mMutex s = Some t <-> inside (stage th)). { rewrite (si_mutex _ _ Hinv t). split; [intros (? & E & ?); congruence|intros ?; by exists th]. }
  assert (Hnf : stage th <> Finished None -> (forall b, stage th <> Finished (Some b)) -> ~ finished th) by (unfold finished; destruct (stage th) as [| | |[]]; naive_solver).
  destruct (stage th) as [[|tag rest]|i| |r] eqn:Est; [| | | |done].
  - destruct (mMutex s) eqn:Em; [done|]. injection Hs as <-. destruct Hok as (got & Egot & Hgot). rewrite app_nil_r in Egot. subst got.
    eapply (step_inv events s _ t th _ []); [done|done|by apply Hnf|done|done|apply Hinv|done|cbn; intros u Hne; split; congruence| |by left|by rewrite app_nil_r|constructor|done].
    split_and!; [eapply Forall_impl; [exact Hgot|]; intros tag Hk; by apply known_mono|lia|done].
  - assert (Hnl : bool_decide (mMutex s = Some t) = false) by (apply bool_decide_eq_false; by intros Hm%Hmu). rewrite Hnl in Hs. destruct Hok as (got & Egot & Hgot).
    destruct (get_spec th tag) as (o & ev & l & E & Eo & Hev & Htag & Hl & Hpl). rewrite E in Hs. injection Hs as <-.
    eapply (step_inv events s _ t th _ l); [done|done|by apply Hnf|done|done|apply Hinv|cbn; rewrite Hmu; by destruct o|done| |by left|done|done|rewrite Hpl; by destruct o].
    unfold thread_ok. cbn. destruct o as [objs|].
    + exists (got ++ [tag]). rewrite <- app_assoc. split; [done|]. apply Forall_app. split; [eapply Forall_impl; [exact Hgot|]; intros x Hk; by apply known_mono|].
      apply Forall_singleton. split; cbn; [by apply Htag|by exists objs].
    + intros Hc. unfold complete in Hc. rewrite Egot in Hc. apply Forall_app in Hc as [_ [[? Hc] _]%Forall_cons]. congruence.
  - destruct Hok as (Hkn & Hi & Htk). assert (Em : mMutex s = Some t) by (by apply Hmu). destruct (mPrefetch !! i) as [tag|] eqn:Etag.
    + assert (Hk : known th tag) by (by apply (Forall_lookup_1 _ _ _ _ Hkn Etag)). rewrite (get_known th tag _ Hk) in Hs. destruct Hk as [_ [objs Eo]]. rewrite Eo in Hs. injection Hs as <-.
      assert (Hlt : (i < length (members s))%nat) by (rewrite (si_members _ _ Hinv); by eapply lookup_lt_Some).
      eapply (step_inv events s _ t th _ []); [done|done|by apply Hnf|done|done|cbn; rewrite length_insert; apply Hinv|cbn; by rewrite Em|done| |by right|done|constructor|done].
      split_and!; [done|by eapply lookup_lt_Some|]. cbn. rewrite (take_S_r (<[i := objs]> (members s)) i objs) by (by apply list_lookup_insert_eq).
      rewrite take_insert_ge by lia. rewrite (take_S_r mPrefetch i tag Etag), !fmap_app, Htk. cbn. by rewrite Eo.
    + injection Hs as <-. apply lookup_ge_None in Etag. pose proof (si_members _ _ Hinv) as Hlen. rewrite !take_ge in Htk by lia.
      eapply (step_inv events s _ t th _ []); [done|done|by apply Hnf|done|done|apply Hinv|cbn; by rewrite Em|done|done|by left|by rewrite app_nil_r|constructor|done].
  - destruct Hok as (Hkn & Hmem). assert (Em : mMutex s = Some t) by (by apply Hmu). destruct (ProcessSequential _ _ _) as [ok u]. injection Hs as <-.
    eapply (step_inv events s _ t th _ [Processed (event th) (members s)]);
      [done|done|by apply Hnf|done|done|apply Hinv|done|cbn; rewrite Em; intros v Hne; split; congruence| |by left|done|by repeat constructor|done].
    unfold thread_ok, complete. cbn. eapply Forall_impl; [exact Hkn|]. by intros x [].
Qed.

(** ** Every worker finishes *)

Definition weight (th : Thread) : nat :=
  match stage th with Getting rest => length rest + length mPrefetch + 3 | Filling i => length mPrefetch - i + 2 | Calling => 1 | Finished _ => 0 end.

Definition work (s : State) : nat := sum_list (weight <$> threads s).

Lemma work_put (l : list Thread) t th th' : l !! t = Some th -> (weight th' < weight th)%nat -> (sum_list (weight <$> <[t := th']> l) < sum_list (weight <$> l))%nat.
Proof.
  revert t. induction l as [|x l IH]; intros [|t] Ht Hw; [done|done| |]; cbn in *.
  - injection Ht as ->. lia.
  - apply Nat.add_lt_mono_l. by apply IH.
Qed.

Lemma step_works events s s' : seq_inv events s -> seq_step s s' -> (work s' < work s)%nat.
Proof.
  intros Hinv [t Hs]. unfold step_thread in Hs. apply bind_Some in Hs as (th & Ht & Hs). pose proof (si_threads _ _ Hinv t th Ht) as Hok. unfold thread_ok in Hok.
  assert (Hw : forall ev st s1, threads s1 = threads s -> (weight (mkThread (event th) ev st) < weight th)%nat -> (work (put t (mkThread (event th) ev st) s1) < work s)%nat).
  { intros ev st s1 E Hlt. unfold work. cbn [threads put]. rewrite E. by apply (work_put _ _ th). }
  unfold weight in Hw at 2. destruct (stage th) as [[|tag rest]|i| |r]; cbn [stage] in Hw; [| | | |done].
  - destruct (mMutex s); [done|]. injection Hs as <-. apply Hw; [done|]. cbn. lia.
  - destruct (Get _ _ _) as [[o ev] l]. injection Hs as <-. apply Hw; [done|]. destruct o; cbn; lia.
  - destruct Hok as (_ & Hi & _). destruct (mPrefetch !! i) as [tag|] eqn:E.
    + apply lookup_lt_Some in E. destruct (Get _ _ _) as [[[o|] ev] l]; injection Hs as <-; (apply Hw; [done|]); cbn; lia.
    + injection Hs as <-. apply Hw; [done|]. cbn. lia.
  - destruct (ProcessSequential _ _ _). injection Hs as <-. apply Hw; [done|]. cbn. lia.
Qed.

(** Somebody can go on, unless all have finished. *)
Lemma someone_steps events s : seq_inv events s -> Forall finished (threads s) \/ exists s', seq_step s s'.
Proof.
  intros Hinv. assert (Hin : forall t th, threads s !! t = Some th -> inside (stage th) -> exists s', seq_step s s').
  { intros t th Ht Hi. unfold seq_step, step_thread. setoid_rewrite bind_Some. destruct (stage th) as [|i| |] eqn:E; try done.
    - destruct (mPrefetch !! i) as [tag|] eqn:Etag; [|eexists _, t, th; split; [done|]; by rewrite E, Etag].
      destruct (Get (bool_decide (mMutex s = Some t)) tag th) as [[[o|] ev] l] eqn:Eg; eexists _, t, th; (split; [done|]); by rewrite E, Etag, Eg.
    - destruct (ProcessSequential (event th) (members s) (user s)) as [ok u] eqn:Ep. eexists _, t, th. split; [done|]. by rewrite E, Ep. }
  destruct (mMutex s) as [t|] eqn:Em.
  { right. apply (si_mutex _ _ Hinv) in Em as (th & Ht & Hi). by eapply Hin. }
  destruct (decide (Forall finished (threads s))) as [|Hn]; [by left|right].
  apply not_Forall_Exists, Exists_exists in Hn as (th & Hth & Hnf); [|apply _]. apply list_elem_of_lookup in Hth as [t Ht].
  destruct (stage th) as [[|tag rest]|i| |r] eqn:E; [| |eapply Hin; [exact Ht|by rewrite E]..|]; unfold seq_step, step_thread; setoid_rewrite bind_Some.
  - eexists _, t, th. split; [done|]. by rewrite E, Em.
  - destruct (Get (bool_decide (mMutex s = Some t)) tag th) as [[o ev] l] eqn:Eg. eexists _, t, th. split; [done|]. by rewrite E, Eg.
  - exfalso. apply Hnf. unfold finished. by rewrite E.
Qed.

Lemma run_completes events s : seq_inv events s -> exists s', steps seq_step s s' /\ seq_inv events s' /\ Forall finished (threads s').
Proof.
  remember (work s) as k eqn:Hk. revert s Hk. induction (lt_wf k) as [k _ IH]. intros s -> Hinv.
  destruct (someone_steps events s Hinv) as [Hf|(s1 & Hs)]; [exists s; split; [apply steps_refl|done]|].
  destruct (IH (work s1)) with (s := s1) as (s' & Hr & H'); [by eapply step_works|done|by eapply seq_step_inv|]. exists s'. split; [by eapply steps_cons|done].
Qed.

(** At the end, the events whose factories have not thrown have been processed, each once. *)
Lemma all_processed events s : seq_inv events s -> Forall finished (threads s) -> omap processed (log s) ≡ₚ filter complete events.
Proof.
  intros Hinv Hf. rewrite (si_processed _ _ Hinv), <- (si_events _ _ Hinv). apply reflexive_eq. pose proof (si_threads _ _ Hinv) as Hth. clear Hinv.
  assert (Hall : Forall (fun th => called th <-> complete (event th)) (threads s)).
  { apply Forall_lookup. intros t th Ht. pose proof (Forall_lookup_1 _ _ _ _ Hf Ht) as Hft. pose proof (Hth t th Ht) as Hok. unfold thread_ok, called, finished in *. by destruct (stage th) as [| | |[]]. }
  clear -Hall. induction Hall as [|th l Hc _ IH]; [done|]. cbn [fmap list_fmap]. rewrite !filter_cons. case_decide; case_decide; try tauto; cbn [fmap list_fmap]; by rewrite IH.
Qed.

(** C22: a sequential processor is one at a time, and sees its own event.  However the workers interleave, at most one of them is behind the mutex; whenever [ProcessSequential] is
    called, the members hold the objects of the event that it is called for; no factory runs while the mutex is held; and the workers can always go on until all have
    finished, also if factories or the user's code throw.  Then the user's code has been called once for every event whose factories did not throw. *)
Theorem sequential_sees_its_event events objs u s : length objs = length mPrefetch -> steps seq_step (start events objs u) s ->
  (forall t1 t2 th1 th2, threads s !! t1 = Some th1 -> threads s !! t2 = Some th2 -> inside (stage th1) -> inside (stage th2) -> t1 = t2) /\
  (forall e ms, Processed e ms ∈ log s -> (Some <$> ms) = objects e <$> mPrefetch) /\
  (forall e tag locked, Evaluated e tag locked ∈ log s -> locked = false) /\
  exists s', steps seq_step s s' /\ Forall finished (threads s') /\ omap processed (log s') ≡ₚ filter complete events.
Proof.
  intros Hl Hrun. assert (Hinv : seq_inv events s).
  { pose proof (start_inv events objs u Hl) as H0. revert Hrun H0. apply (steps_invariant seq_step (seq_inv events)). apply seq_step_inv. }
  split_and!.
  - intros t1 t2 th1 th2 H1 H2 I1 I2. assert (E1 : mMutex s = Some t1) by (apply (si_mutex _ _ Hinv); by exists th1). assert (E2 : mMutex s = Some t2) by (apply (si_mutex _ _ Hinv); by exists th2). congruence.
  - intros e ms Hin. exact (proj1 (Forall_forall _ _) (si_log _ _ Hinv) _ Hin).
  - intros e tag locked Hin. exact (proj1 (Forall_forall _ _) (si_log _ _ Hinv) _ Hin).
  - destruct (run_completes events s Hinv) as (s' & Hr & Hi & Hf). exists s'. split_and!; [done|done|by apply all_processed].
Qed.

(** ** Runs that can be evaluated *)

Definition turns (ts : list nat) (s : State) : option State := foldl (fun o t => o ≫= step_thread t) (Some s) ts.

Lemma turns_run ts : forall s s', turns ts s = Some s' -> steps seq_step s s'.
Proof.
  unfold turns. induction ts as [|t ts IH]; intros s s'; cbn [foldl]; [intros [= <-]; apply steps_refl|].
  cbn [mbind option_bind]. destruct (step_thread t s) as [s1|] eqn:E; [intros H; eapply steps_cons; [by exists t|by apply IH]|].
  intros H. exfalso. revert H. clear. by induction ts.
Qed.

End Processor.

(** ** The processor for ROOT *)

(** [Init] and [Finish] of [JEventProcessorSequentialRoot]: the user's code under the write lock, which is given back also if it throws; [None] is a wait. *)
Definition with_root_lock {U} (thread : Z) (body : M U unit) (s : LockService.RwLock * U) : option (outcome unit * (LockService.RwLock * U)) :=
  lock ← LockService.acquire_write_lock thread s.1;
  let '(r, u) := body s.2 in
  match LockService.release_lock thread lock with
  | Ok lock' => Some (r, (lock', u))
  | _ => Some (Undef, (lock, u))
  end.

Lemma root_lock_is_released {U} thread (body : M U unit) u : with_root_lock thread body (LockService.free_lock, u) = Some ((body u).1, (LockService.free_lock, (body u).2)).
Proof. unfold with_root_lock. cbn. destruct (body u) as [r u']. by rewrite Z.eqb_refl. Qed.

(** ** A run of three workers *)

Definition hits_and_tracks : list string := ["Hit"; "Track"]%string.

(** Event 3 has no tracks. *)
Definition some_objects (e : Z) (tag : string) : option (list Z) :=
  if bool_decide (tag = "Hit"%string) then Some [10 * e; 10 * e + 1]%Z else if (e =? 3)%Z then None else Some [100 * e]%Z.

(** The user's code counts, and throws at event 2. *)
Definition counting (e : Z) (ms : list (list Z)) (n : nat) : bool * nat := (negb (e =? 2)%Z, S n).

Definition interleaved : list nat := [0; 1; 2; 1; 1; 0; 2; 1; 1; 1; 1; 0; 0; 0; 0]%nat.

Definition three_events : @State nat := start hits_and_tracks [1; 2; 3]%Z [[]; []] 0%nat.

Lemma sequential_sees_its_event_witness : exists s, turns hits_and_tracks some_objects counting interleaved three_events = Some s /\
  omap processed (log s) = [2]%Z /\ forall e ms, Processed e ms ∈ log s -> (Some <$> ms) = some_objects e <$> hits_and_tracks.
Proof.
  destruct (turns hits_and_tracks some_objects counting interleaved three_events) as [s|] eqn:E; [|by vm_compute in E]. exists s.
  destruct (sequential_sees_its_event hits_and_tracks some_objects counting [1; 2; 3]%Z [[]; []] 0%nat s) as (_ & H & _); [reflexivity|apply (turns_run _ _ _ interleaved); exact E|].
  split; [done|]. split; [|exact H]. vm_compute in E. injection E as <-. reflexivity.
Defined.

End Sequential.
