(* ===== verification/JResourcePool.v ===== *)
(** * JResourcePool: recycling of objects between threads

    Model of [Utils/JResourcePool.h] and [JResettable.h].  The static members are the state; objects are addresses, and [live] are those
    that have been allocated and not deleted.  The spin lock makes each access to the pool one step; the shared pointers
    recycle their object when they go out of scope, which is [Recycle].  Deleting an object twice is undefined, as is
    an iterator behind the end of a vector.  [released] lists the calls of [Release]; there are none of [Reset]. *)

From S2P Require Import Prelude.
Local Open Scope Z_scope.

Module ResourcePool.

Record Pool := mkPool {
  mResourcePool : list Z;
  dMaxPoolSize : Z;
  dPoolCounter : Z;
  dObjectCounter : Z;
  live : gset Z;
  released : list Z
}.

(** The static members at the start of the program. *)
Definition initial_pool : Pool := mkPool [] 10 0 0 ∅ [].

Definition set_resources (l : list Z) (p : Pool) : Pool :=
  mkPool l (dMaxPoolSize p) (dPoolCounter p) (dObjectCounter p) (live p) (released p).
Definition set_max (n : Z) (p : Pool) : Pool :=
  mkPool (mResourcePool p) n (dPoolCounter p) (dObjectCounter p) (live p) (released p).
Definition set_pool_counter (n : Z) (p : Pool) : Pool :=
  mkPool (mResourcePool p) (dMaxPoolSize p) n (dObjectCounter p) (live p) (released p).
Definition count_objects (n : Z) (p : Pool) : Pool :=
  mkPool (mResourcePool p) (dMaxPoolSize p) (dPoolCounter p) (u64 (dObjectCounter p + n)) (live p) (released p).
Definition set_live (s : gset Z) (p : Pool) : Pool :=
  mkPool (mResourcePool p) (dMaxPoolSize p) (dPoolCounter p) (dObjectCounter p) s (released p).
Definition log_release (rs : list Z) (p : Pool) : Pool :=
  mkPool (mResourcePool p) (dMaxPoolSize p) (dPoolCounter p) (dObjectCounter p) (live p) (released p ++ rs).

Abbreviation MR := (M Pool).

(** [new DType(...)]; the address is fresh. *)
Definition allocate : MR Z := fun p => let r := fresh ({[0]} ∪ live p) in (Ok r, set_live ({[r]} ∪ live p) p).

(** [delete]. *)
Definition delete_object (r : Z) : MR unit :=
  p ← get;
  if decide (r ∈ live p) then modify (set_live (live p ∖ {[r]})) else lift Undef.

(** The constructors and [Set_ControlParams]. *)
Definition construct : MR unit := modify (fun p => set_pool_counter (u64 (dPoolCounter p + 1)) p).
Definition Set_ControlParams (sMaxPoolSize : Z) : MR unit := modify (set_max sMaxPoolSize).
Definition construct_with (sMaxPoolSize : Z) : MR unit := _ ← construct; Set_ControlParams sMaxPoolSize.

(** The destructor: the last pool deletes what is left. *)
Definition destroy : MR unit :=
  _ ← modify (fun p => set_pool_counter (u64 (dPoolCounter p - 1)) p);
  p ← get;
  if 0 <? dPoolCounter p then mret tt
  else
    let sResources := mResourcePool p in
    _ ← modify (set_resources []);
    _ ← for_each sResources delete_object;
    modify (count_objects (- sizeZ sResources)).

Definition Get_Resource_StaticPool : MR (option Z) :=
  p ← get;
  match last (mResourcePool p) with
  | None => mret None
  | Some r => _ ← modify (set_resources (take (length (mResourcePool p) - 1) (mResourcePool p))); mret (Some r)
  end.

Definition Get_Resource : MR Z :=
  r ← Get_Resource_StaticPool;
  match r with
  | Some r => mret r
  | None => _ ← modify (count_objects 1); allocate
  end.

(** Up to [n] resources from the back of the pool. *)
Definition Get_Resources_StaticPool (aNumResources : nat) : MR (list Z) :=
  p ← get;
  let size := length (mResourcePool p) in
  let first := if (size <=? aNumResources)%nat then 0%nat else (size - aNumResources)%nat in
  _ ← modify (set_resources (take first (mResourcePool p)));
  mret (drop first (mResourcePool p)).

Fixpoint allocate_all (n : nat) : MR (list Z) :=
  match n with
  | O => mret []
  | S n => r ← allocate; rs ← allocate_all n; mret (r :: rs)
  end.

Definition Get_Resources (aNumResources : nat) : MR (list Z) :=
  rs ← Get_Resources_StaticPool aNumResources;
  let missing := (aNumResources - length rs)%nat in
  _ ← modify (count_objects (Z.of_nat missing));
  more ← allocate_all missing;
  mret (rs ++ more).

Definition Recycle_Resource_StaticPool (sResource : Z) : MR unit :=
  p ← get;
  if negb (sizeZ (mResourcePool p) =? dMaxPoolSize p)
  then modify (set_resources (mResourcePool p ++ [sResource]))
  else _ ← delete_object sResource; modify (count_objects (-1)).

Definition Recycle (sResource : Z) : MR unit :=
  if sResource =? 0 then mret tt else
  _ ← modify (log_release [sResource]);
  Recycle_Resource_StaticPool sResource.

(** The index is computed with unsigned arithmetic. *)
Definition Recycle_Resources_StaticPool (sResources : list Z) : MR unit :=
  p ← get;
  let potential := u64 (sizeZ (mResourcePool p) + sizeZ sResources) in
  let first := if dMaxPoolSize p <? potential
               then u64 (sizeZ sResources - u64 (dMaxPoolSize p - sizeZ (mResourcePool p))) else 0 in
  if sizeZ sResources <? first then lift Undef
  else
    _ ← modify (set_resources (mResourcePool p ++ drop (Z.to_nat first) sResources));
    _ ← for_each (take (Z.to_nat first) sResources) delete_object;
    modify (count_objects (- first)).

Definition Recycle_all (sResources : list Z) : MR unit :=
  _ ← modify (log_release sResources);
  Recycle_Resources_StaticPool sResources.

Definition Get_PoolSize : MR Z := gets (fun p => sizeZ (mResourcePool p)).

(** ** Threads that use the pool *)

(** What the threads hold, together. *)
Record Use := mkUse { pool : Pool; in_use : list Z }.

Inductive use_step : Use -> Use -> Prop :=
| use_construct u p : construct (pool u) = (Ok tt, p) -> use_step u (mkUse p (in_use u))
| use_get u r p : Get_Resource (pool u) = (Ok r, p) -> use_step u (mkUse p (r :: in_use u))
| use_get_many n u rs p : Get_Resources n (pool u) = (Ok rs, p) -> use_step u (mkUse p (rs ++ in_use u))
| use_recycle r u rest p : in_use u ≡ₚ r :: rest -> Recycle r (pool u) = (Ok tt, p) -> use_step u (mkUse p rest)
| use_recycle_many rs u rest p : in_use u ≡ₚ rs ++ rest -> sizeZ rs < 2 ^ 63 -> Recycle_all rs (pool u) = (Ok tt, p) -> use_step u (mkUse p rest).

Definition start (sMaxPoolSize : Z) : Use := mkUse (set_max sMaxPoolSize initial_pool) [].

(** ** Objects are conserved *)

(** Every object is in the pool or in use, and is counted; [ahead] of them have been counted and not been allocated yet. *)
Record conserved (ahead : Z) (p : Pool) (used : list Z) : Prop := {
  co_nodup : NoDup (mResourcePool p ++ used);
  co_live : forall r, r ∈ live p <-> r ∈ mResourcePool p ++ used;
  co_null : 0 ∉ live p;
  co_count : dObjectCounter p = u64 (sizeZ (mResourcePool p) + sizeZ used + ahead);
  co_size : sizeZ (mResourcePool p) <= dMaxPoolSize p;
  co_max : 0 <= dMaxPoolSize p < 2 ^ 63
}.

Lemma conserved_perm k p used used' : used ≡ₚ used' -> conserved k p used -> conserved k p used'.
Proof.
  intros E [Hd Hl H0 Hc Hs Hm]. assert (Hz : sizeZ used' = sizeZ used) by (unfold sizeZ; by rewrite E).
  split; [by rewrite <- E|intros r; by rewrite <- E|done|by rewrite Hz|done|done].
Qed.

Lemma start_conserved n : 0 <= n < 2 ^ 63 -> conserved 0 (pool (start n)) [].
Proof. intros Hn. split; cbn; [constructor|set_solver|set_solver|done|unfold sizeZ; cbn; lia|done]. Qed.

Lemma count_conserved k n p used : conserved k p used -> conserved (k + n) (count_objects n p) used.
Proof.
  intros [Hd Hl H0 Hc Hs Hm]. split; cbn; try done. rewrite Hc. unfold u64. rewrite Zplus_mod_idemp_l. f_equal. lia.
Qed.

Lemma allocate_conserved k p used : conserved (k + 1) p used ->
  exists r p', allocate p = (Ok r, p') /\ conserved k p' (r :: used).
Proof.
  intros [Hd Hl H0 Hc Hs Hm]. eexists _, _. split; [reflexivity|].
  set (r := fresh ({[0]} ∪ live p)). assert (Hr : r ∉ {[0]} ∪ live p) by apply is_fresh.
  split; cbn [set_live mResourcePool live dObjectCounter dMaxPoolSize].
  - rewrite <- Permutation_middle. apply NoDup_cons. split; [|done]. rewrite <- Hl. set_solver.
  - intros x. rewrite <- Permutation_middle, elem_of_union, elem_of_singleton, elem_of_cons, Hl. done.
  - set_solver.
  - rewrite Hc, sizeZ_cons. f_equal. lia.
  - done.
  - done.
Qed.

Lemma allocate_all_conserved n p used : conserved (Z.of_nat n) p used ->
  exists rs p', allocate_all n p = (Ok rs, p') /\ length rs = n /\ conserved 0 p' (rs ++ used).
Proof.
  revert p used. induction n as [|n IH]; intros p used C; cbn [allocate_all]; [by exists [], p|].
  replace (Z.of_nat (S n)) with (Z.of_nat n + 1) in C by lia.
  destruct (allocate_conserved _ _ _ C) as (r & p1 & E1 & C1). mstep E1.
  destruct (IH _ _ C1) as (rs & p2 & E2 & L & C2). mstep E2. exists (r :: rs), p2. split; [done|]. split; [cbn; lia|].
  eapply conserved_perm; [|exact C2]. cbn. symmetry. apply Permutation_middle.
Qed.

Lemma delete_all ds p : NoDup ds -> (forall r, r ∈ ds -> r ∈ live p) ->
  for_each ds delete_object p = (Ok tt, set_live (live p ∖ list_to_set ds) p).
Proof.
  revert p. induction ds as [|d ds IH]; intros p Hd Hl; cbn [for_each].
  { cbn. rewrite difference_empty_L. by destruct p. }
  apply NoDup_cons in Hd as [Hn Hd].
  assert (E : delete_object d p = (Ok tt, set_live (live p ∖ {[d]}) p)).
  { unfold delete_object. rewrite M_bind_get, decide_True by (apply Hl; set_solver). done. }
  mstep E. rewrite IH; [|done|cbn; set_solver]. unfold set_live. cbn. do 2 f_equal. set_solver.
Qed.

(** The pool and the resources in use exchange objects. *)
Lemma exchange_conserved k p used l used' : conserved k p used -> mResourcePool p ++ used ≡ₚ l ++ used' ->
  sizeZ l <= dMaxPoolSize p -> conserved k (set_resources l p) used'.
Proof.
  intros [Hd Hl H0 Hc Hs Hm] E Hsz. split; cbn [set_resources mResourcePool live dObjectCounter dMaxPoolSize]; [..|done|done].
  - by rewrite <- E.
  - intros r. by rewrite Hl, E.
  - done.
  - rewrite Hc. do 2 f_equal. rewrite <- !sizeZ_app. unfold sizeZ. by rewrite E.
Qed.

Lemma delete_conserved k p ds used : conserved k p (ds ++ used) ->
  for_each ds delete_object p = (Ok tt, set_live (live p ∖ list_to_set ds) p) /\
  conserved (k + sizeZ ds) (set_live (live p ∖ list_to_set ds) p) used.
Proof.
  intros [Hd Hl H0 Hc Hs Hm]. rewrite (Permutation_app_comm ds used), app_assoc in Hd.
  pose proof (proj1 (NoDup_app _ _) Hd) as (Hd1 & Hd2 & Hd3). split.
  - apply delete_all; [done|]. intros r Hr. apply Hl. set_solver.
  - split; cbn [set_live mResourcePool live dObjectCounter dMaxPoolSize]; [done| |set_solver| |done|done].
    + intros r. rewrite elem_of_difference, elem_of_list_to_set, Hl. split; [set_solver|].
      intros Hr. split; [set_solver|]. by apply Hd2.
    + rewrite Hc, sizeZ_app. f_equal. lia.
Qed.

Lemma construct_conserved p used : conserved 0 p used -> conserved 0 (construct p).2 used.
Proof. by intros []. Qed.

Lemma Get_Resource_conserved p used : conserved 0 p used ->
  exists r p', Get_Resource p = (Ok r, p') /\ conserved 0 p' (r :: used).
Proof.
  intros C. unfold Get_Resource, Get_Resource_StaticPool. rewrite M_bind_assoc, M_bind_get.
  destruct (last (mResourcePool p)) as [r|] eqn:E.
  - apply last_Some in E as [l E]. exists r, (set_resources l p). rewrite E, length_app, Nat.add_sub, take_app_length. split; [done|].
    eapply exchange_conserved; [exact C| |].
    + by rewrite E, <- app_assoc.
    + pose proof (co_size _ _ _ C) as Hs. rewrite E, sizeZ_app in Hs. pose proof (sizeZ_nonneg [r]). lia.
  - rewrite M_bind_ret. cbn. rewrite M_bind_modify. apply (allocate_conserved 0). by apply (count_conserved 0 1).
Qed.

Lemma Get_Resources_conserved n p used : conserved 0 p used ->
  exists rs p', Get_Resources n p = (Ok rs, p') /\ length rs = n /\ conserved 0 p' (rs ++ used).
Proof.
  intros C. unfold Get_Resources, Get_Resources_StaticPool. rewrite M_bind_assoc, M_bind_get, M_bind_assoc, M_bind_modify, M_bind_ret.
  set (first := if (_ <=? n)%nat then _ else _). set (got := drop first (mResourcePool p)). rewrite M_bind_modify.
  assert (Hgot : (length got <= n)%nat).
  { unfold got, first. rewrite length_drop. destruct (Nat.leb_spec (length (mResourcePool p)) n); lia. }
  assert (C1 : conserved 0 (set_resources (take first (mResourcePool p)) p) (got ++ used)).
  { eapply exchange_conserved; [exact C| |]; [by rewrite app_assoc; unfold got; rewrite take_drop|].
    pose proof (co_size _ _ _ C). rewrite sizeZ_take. lia. }
  apply (count_conserved 0 (Z.of_nat (n - length got))) in C1.
  destruct (allocate_all_conserved _ _ _ C1) as (more & p' & E & L & C2). mstep E. exists (got ++ more), p'. split; [done|].
  split; [rewrite length_app; lia|]. eapply conserved_perm; [|exact C2].
  rewrite app_assoc. by rewrite (Permutation_app_comm more got).
Qed.

Lemma log_conserved k rs p used : conserved k p used -> conserved k (log_release rs p) used.
Proof. by intros []. Qed.

Lemma Recycle_conserved r p used : conserved 0 p (r :: used) ->
  exists p', Recycle r p = (Ok tt, p') /\ conserved 0 p' used.
Proof.
  intros C. unfold Recycle. assert (Hr : r <> 0).
  { intros ->. apply (co_null _ _ _ C), (co_live _ _ _ C). set_solver. }
  rewrite (proj2 (Z.eqb_neq _ _)) by done. rewrite M_bind_modify. apply (log_conserved _ [r]) in C. set (p1 := log_release [r] p) in *.
  unfold Recycle_Resource_StaticPool. rewrite M_bind_get.
  destruct (Z.eqb_spec (sizeZ (mResourcePool p1)) (dMaxPoolSize p1)) as [E|E]; cbn [negb].
  - destruct (delete_conserved 0 p1 [r] used C) as [D C']. cbn [for_each] in D.
    assert (D1 : delete_object r p1 = (Ok tt, set_live (live p1 ∖ list_to_set [r]) p1)).
    { unfold mbind, M_bind in D. by destruct (delete_object r p1) as [[[]| |] ?]. }
    mstep D1. eexists. split; [reflexivity|]. apply (count_conserved 1 (-1)). exact C'.
  - eexists. split; [reflexivity|]. eapply exchange_conserved; [exact C|by rewrite <- app_assoc|].
    pose proof (co_size _ _ _ C). rewrite sizeZ_app. change (sizeZ [r]) with 1. lia.
Qed.

Lemma Recycle_all_conserved rs p used : conserved 0 p (rs ++ used) -> sizeZ rs < 2 ^ 63 ->
  exists p', Recycle_all rs p = (Ok tt, p') /\ conserved 0 p' used.
Proof.
  intros C Hrs. unfold Recycle_all. rewrite M_bind_modify. apply (log_conserved _ rs) in C. set (p1 := log_release rs p) in *.
  unfold Recycle_Resources_StaticPool. rewrite M_bind_get. pose proof (co_size _ _ _ C) as Hs. pose proof (co_max _ _ _ C) as Hm.
  pose proof (sizeZ_nonneg rs). pose proof (sizeZ_nonneg (mResourcePool p1)). change (2 ^ 63) with 9223372036854775808 in *.
  cbn zeta. set (first := if dMaxPoolSize p1 <? _ then _ else 0).
  assert (Hf : 0 <= first <= sizeZ rs /\ sizeZ (mResourcePool p1) + (sizeZ rs - first) <= dMaxPoolSize p1).
  { unfold first, u64. change (2 ^ 64) with 18446744073709551616.
    rewrite (Z.mod_small (sizeZ (mResourcePool p1) + sizeZ rs)), (Z.mod_small (dMaxPoolSize p1 - sizeZ (mResourcePool p1))) by lia.
    destruct (Z.ltb_spec (dMaxPoolSize p1) (sizeZ (mResourcePool p1) + sizeZ rs)); [rewrite Z.mod_small by lia|]; lia. }
  clearbody first. rewrite (proj2 (Z.ltb_ge _ _)) by lia. rewrite M_bind_modify.
  set (ds := take (Z.to_nat first) rs). set (ks := drop (Z.to_nat first) rs).
  assert (Hks : sizeZ ks = sizeZ rs - first) by (unfold ks; rewrite sizeZ_drop; lia).
  assert (Hds : sizeZ ds = first) by (unfold ds; rewrite sizeZ_take; lia).
  assert (C1 : conserved 0 (set_resources (mResourcePool p1 ++ ks) p1) (ds ++ used)).
  { eapply exchange_conserved; [exact C| |rewrite sizeZ_app; lia].
    rewrite <- (take_drop (Z.to_nat first) rs). fold ds ks. rewrite <- !app_assoc. apply Permutation_app_head, Permutation_app_swap_app. }
  destruct (delete_conserved 0 _ ds used C1) as [D C2]. mstep D. eexists. split; [reflexivity|].
  replace 0 with (0 + sizeZ ds + - first) by lia. by apply count_conserved.
Qed.

(** The resource pool never loses, duplicates or frees twice an object.  Start with an empty pool of any maximal size below 2^63,
    and let threads construct pools, get resources one or several at a time, and recycle what they hold, in any order.
    Then no object is handed out while it is in use or in the pool; the objects that exist are exactly those in the
    pool and those in use, and the counter is their number (modulo 2^64); the pool has not more than its maximal size.  Getting
    and recycling always return, and deliver as many resources as asked for. *)
Theorem resources_are_conserved n u : 0 <= n < 2 ^ 63 -> steps use_step (start n) u ->
  conserved 0 (pool u) (in_use u) /\
  (exists r p, Get_Resource (pool u) = (Ok r, p) /\ r ∉ in_use u) /\
  (forall k, exists rs p, Get_Resources k (pool u) = (Ok rs, p) /\ length rs = k) /\
  (forall r rest, in_use u ≡ₚ r :: rest -> exists p, Recycle r (pool u) = (Ok tt, p)) /\
  (forall rs rest, in_use u ≡ₚ rs ++ rest -> sizeZ rs < 2 ^ 63 -> exists p, Recycle_all rs (pool u) = (Ok tt, p)).
Proof.
  intros Hn Hs. assert (C : conserved 0 (pool u) (in_use u)).
  { refine (steps_invariant use_step (fun u => conserved 0 (pool u) (in_use u)) _ _ _ Hs (start_conserved n Hn)). clear.
    intros u u' C St. revert C.
    destruct St as [u p E|u r p E|k u rs p E|r u rest p Hp E|rs u rest p Hp Hz E]; intros C; cbn [pool in_use].
    - pose proof (construct_conserved _ _ C) as C'. by rewrite E in C'.
    - destruct (Get_Resource_conserved _ _ C) as (r' & p' & E' & C'). congruence.
    - destruct (Get_Resources_conserved k _ _ C) as (rs' & p' & E' & _ & C'). congruence.
    - apply (conserved_perm _ _ _ _ Hp) in C. destruct (Recycle_conserved _ _ _ C) as (p' & E' & C'). congruence.
    - apply (conserved_perm _ _ _ _ Hp) in C. destruct (Recycle_all_conserved _ _ _ C Hz) as (p' & E' & C'). congruence. }
  split; [done|]. split; [|split; [|split]].
  - destruct (Get_Resource_conserved _ _ C) as (r & p & E & C'). exists r, p. split; [done|].
    pose proof (co_nodup _ _ _ C') as Hd. rewrite <- Permutation_middle in Hd. apply NoDup_cons in Hd as [Hr _]. set_solver.
  - intros k. destruct (Get_Resources_conserved k _ _ C) as (rs & p & E & L & _). by exists rs, p.
  - intros r rest Hp. apply (conserved_perm _ _ _ _ Hp) in C. destruct (Recycle_conserved _ _ _ C) as (p & E & _). by exists p.
  - intros rs rest Hp Hz. apply (conserved_perm _ _ _ _ Hp) in C. destruct (Recycle_all_conserved _ _ _ C Hz) as (p & E & _). by exists p.
Qed.

(** Three resources from a pool of size two; two come back and one is deleted. *)
Definition pool1 : Pool := (Get_Resources 3 (pool (start 2))).2.
Definition taken : list Z := match (Get_Resources 3 (pool (start 2))).1 with Ok rs => rs | _ => [] end.
Definition pool2 : Pool := (Recycle_all taken pool1).2.

Lemma resources_are_conserved_witness :
  length taken = 3%nat /\ sizeZ (mResourcePool pool2) = 2 /\ dObjectCounter pool2 = 2 /\ conserved 0 pool2 [].
Proof.
  split; [vm_compute; reflexivity|]. split; [vm_compute; reflexivity|]. split; [vm_compute; reflexivity|].
  apply (resources_are_conserved 2 (mkUse pool2 [])); [lia|].
  apply steps_cons with (mkUse pool1 (taken ++ [])); [apply (use_get_many 3); vm_compute; reflexivity|].
  apply steps_cons with (mkUse pool2 []); [|constructor].
  apply (use_recycle_many taken); [done|vm_compute; reflexivity|vm_compute; reflexivity].
Defined.

(** ** Where it fails *)

(** After the maximal size has been lowered below the size of the pool, recycling several resources computes an index behind
    the end of the vector, and recycling single ones lets the pool grow without bound. *)
Lemma lowered_limit_is_undefined p rs :
  0 <= dMaxPoolSize p < sizeZ (mResourcePool p) -> rs <> [] -> sizeZ (mResourcePool p) + sizeZ rs < 2 ^ 63 ->
  (Recycle_Resources_StaticPool rs p).1 = Undef.
Proof.
  intros Hm Hrs Hz. assert (Hp : 0 < sizeZ rs) by (destruct rs; [done|rewrite sizeZ_cons; pose proof (sizeZ_nonneg rs); lia]).
  unfold Recycle_Resources_StaticPool. rewrite M_bind_get. change (2 ^ 63) with 9223372036854775808 in *. unfold u64.
  change (2 ^ 64) with 18446744073709551616. rewrite (Z.mod_small (sizeZ (mResourcePool p) + sizeZ rs)) by lia.
  rewrite (proj2 (Z.ltb_lt (dMaxPoolSize p) _)) by lia. rewrite Zminus_mod_idemp_r, Z.mod_small by lia.
  by rewrite (proj2 (Z.ltb_lt _ _)) by lia.
Qed.

Lemma lowered_limit_is_ignored p r : dMaxPoolSize p < sizeZ (mResourcePool p) ->
  Recycle_Resource_StaticPool r p = (Ok tt, set_resources (mResourcePool p ++ [r]) p).
Proof.
  intros Hm. unfold Recycle_Resource_StaticPool. rewrite M_bind_get, (proj2 (Z.eqb_neq _ _)) by lia. done.
Qed.

End ResourcePool.
