(* ===== verification/JCallGraph.v ===== *)
(** * JCallGraphRecorder: who asked whom for data

    Model of [Utils/JCallGraphRecorder.h], [.cc] and [JCallGraphEntryMaker.h].  [m_call_stack] has its back first.  The times that
    [steady_clock::now()] delivers are arguments.  A [JCallGraphEntryMaker] lives as long as a scope: [entry] is the scope, whose end runs
    the destructor also when the body throws.  The maps of [TopologicalSort] are maps, the order in which a [std::map] is
    traversed is written out, and its loop has fuel, of which the theorems give enough. *)

From stdpp Require Import sorting.
From S2P Require Import Prelude.
Local Open Scope nat_scope.

Module CallGraph.

Inductive JDataSource := DATA_NOT_AVAILABLE | DATA_FROM_CACHE | DATA_FROM_SOURCE | DATA_FROM_FACTORY.
Inductive JDataOrigin := ORIGIN_NOT_AVAILABLE | ORIGIN_FROM_FACTORY | ORIGIN_FROM_SOURCE.

(** A factory by its name and tag. *)
Abbreviation FacName := (string * string)%type.

Record JCallGraphNode := mkNode { caller : FacName; callee : FacName; start_time : Z; end_time : Z; data_source : JDataSource }.
Record JCallStackFrame := mkFrame { factory : FacName; frame_start : Z }.
Record JErrorCallStack := mkError { err_factory : FacName; filename : option string; line : Z }.

Record JCallGraphRecorder := mkRecorder {
  m_enabled : bool;
  m_call_stack : list JCallStackFrame;
  m_error_call_stack : list JErrorCallStack;
  m_call_graph : list JCallGraphNode;
  m_insert_dataorigin_type : JDataOrigin
}.

Definition new_recorder : JCallGraphRecorder := mkRecorder false [] [] [] ORIGIN_FROM_FACTORY.

Definition set_stack (s : list JCallStackFrame) (r : JCallGraphRecorder) : JCallGraphRecorder :=
  mkRecorder (m_enabled r) s (m_error_call_stack r) (m_call_graph r) (m_insert_dataorigin_type r).
Definition set_errors (e : list JErrorCallStack) (r : JCallGraphRecorder) : JCallGraphRecorder :=
  mkRecorder (m_enabled r) (m_call_stack r) e (m_call_graph r) (m_insert_dataorigin_type r).
Definition set_graph (g : list JCallGraphNode) (r : JCallGraphRecorder) : JCallGraphRecorder :=
  mkRecorder (m_enabled r) (m_call_stack r) (m_error_call_stack r) g (m_insert_dataorigin_type r).

Abbreviation MC := (M JCallGraphRecorder).

Definition SetEnabled (b : bool) : MC unit :=
  modify (fun r => mkRecorder b (m_call_stack r) (m_error_call_stack r) (m_call_graph r) (m_insert_dataorigin_type r)).

(** The previous origin is returned, so that the caller can restore it. *)
Definition SetInsertDataOrigin (origin : JDataOrigin) : MC JDataOrigin :=
  previous ← gets m_insert_dataorigin_type;
  _ ← modify (fun r => mkRecorder (m_enabled r) (m_call_stack r) (m_error_call_stack r) (m_call_graph r) origin);
  mret previous.

Definition StartFactoryCall (now : Z) (callee : FacName) : MC unit :=
  r ← get;
  if negb (m_enabled r) then mret tt else modify (set_stack (mkFrame callee now :: m_call_stack r)).

Definition FinishFactoryCall (now : Z) (source : JDataSource) : MC unit :=
  r ← get;
  if negb (m_enabled r) then mret tt else
  match m_call_stack r with
  | [] => lift Undef
  | callee :: stack =>
      _ ← modify (set_stack stack);
      match stack with
      | [] => mret tt
      | caller :: _ =>
          modify (set_graph (m_call_graph r ++ [mkNode (factory caller) (factory callee) (frame_start callee) now source]))
      end
  end.

Definition AddToCallGraph (cs : JCallGraphNode) : MC unit :=
  modify (fun r => if m_enabled r then set_graph (m_call_graph r ++ [cs]) r else r).
Definition AddToErrorCallStack (cs : JErrorCallStack) : MC unit :=
  modify (fun r => if m_enabled r then set_errors (m_error_call_stack r ++ [cs]) r else r).

Definition Reset : MC unit := modify (fun r => set_errors [] (set_stack [] (set_graph [] r))).

(** A scope with a [JCallGraphEntryMaker]. *)
Definition ending {A} (body : MC A) (destructor : MC unit) : MC A := fun r =>
  match body r with
  | (Ok a, r) => (_ ← destructor; mret a) r
  | (Throw e, r) => (_ ← destructor; lift (Throw e)) r
  | (Undef, r) => (Undef, r)
  end.

Definition entry (t0 t1 : Z) (name : FacName) (source : JDataSource) (body : MC unit) : MC unit :=
  _ ← StartFactoryCall t0 name;
  ending body (FinishFactoryCall t1 source).

(** ** [TopologicalSort] *)

Record FacEdges := mkEdges { incoming : list FacName; outgoing : list FacName }.

Definition no_edges : FacEdges := mkEdges [] [].

Abbreviation Adjacency := (gmap FacName FacEdges).

(** [adjacency[n]], which creates a missing entry, and a change of it. *)
Definition edges_of (adj : Adjacency) (n : FacName) : FacEdges := default no_edges (adj !! n).
Definition change (n : FacName) (f : FacEdges -> FacEdges) (adj : Adjacency) : Adjacency := <[n := f (edges_of adj n)]> adj.

Definition add_node (adj : Adjacency) (node : JCallGraphNode) : Adjacency :=
  let adj := change (caller node) (fun e => mkEdges (incoming e ++ [callee node]) (outgoing e)) adj in
  change (callee node) (fun e => mkEdges (incoming e) (outgoing e ++ [caller node])) adj.

Definition build (g : list JCallGraphNode) : Adjacency := foldl add_node ∅ g.

(** The order of [std::pair<std::string, std::string>]. *)
Definition fac_le (a b : FacName) : Prop :=
  String.ltb a.1 b.1 || ((a.1 =? b.1)%string && String.leb a.2 b.2).

#[export] Instance fac_le_dec a b : Decision (fac_le a b).
Proof. unfold fac_le. apply _. Defined.

Definition initially_ready (adj : Adjacency) : list FacName :=
  filter (fun n => incoming (edges_of adj n) = []) (merge_sort fac_le (map_to_list adj).*1).

(** One turn of the loop over [adjacency[n].outgoing]. *)
Definition visit (n : FacName) (st : Adjacency * list FacName) (m : FacName) : Adjacency * list FacName :=
  let '(adj, ready) := st in
  let left := filter (fun c => c <> n) (incoming (edges_of adj m)) in
  let adj := change m (fun e => mkEdges left (outgoing e)) adj in
  (adj, if bool_decide (left = []) then ready ++ [m] else ready).

(** [None] when the fuel is used up. *)
Fixpoint sort_loop (fuel : nat) (adj : Adjacency) (ready sorted : list FacName) : option (list FacName) :=
  match ready with
  | [] => Some sorted
  | n :: ready =>
      match fuel with
      | O => None
      | S fuel =>
          let '(adj, ready) := foldl (visit n) (adj, ready) (outgoing (edges_of adj n)) in
          sort_loop fuel adj ready (sorted ++ [n])
      end
  end.

Definition TopologicalSort (fuel : nat) (r : JCallGraphRecorder) : option (list FacName) :=
  let adj := build (m_call_graph r) in sort_loop fuel adj (initially_ready adj) [].

(** ** Calls are recorded *)

(** A program of nested calls that may throw: times, factory, source of its data, and the calls that it makes in turn. *)
Inductive Prog := Call (t0 t1 : Z) (name : FacName) (source : JDataSource) (body : list Prog) | Throws (e : exn).

Definition run_all (run : Prog -> MC unit) : list Prog -> MC unit :=
  fix go ps := match ps with [] => mret tt | p :: ps => _ ← run p; go ps end.

Fixpoint run (p : Prog) : MC unit :=
  match p with
  | Throws e => lift (Throw e)
  | Call t0 t1 name source body => entry t0 t1 name source (run_all run body)
  end.

(** What it should record, when it is called by [parent], and how it ends. *)
Definition trace_all (trace : Prog -> list JCallGraphNode * option exn) : list Prog -> list JCallGraphNode * option exn :=
  fix go ps :=
    match ps with
    | [] => ([], None)
    | p :: ps =>
        match trace p with
        | (g, Some e) => (g, Some e)
        | (g, None) => let '(g', e) := go ps in (g ++ g', e)
        end
    end.

Fixpoint trace (parent : option FacName) (p : Prog) : list JCallGraphNode * option exn :=
  match p with
  | Throws e => ([], Some e)
  | Call t0 t1 name source body =>
      let '(g, e) := trace_all (trace (Some name)) body in
      (g ++ (match parent with Some c => [mkNode c name t0 t1 source] | None => [] end), e)
  end.

Lemma Prog_nested_ind (P : Prog -> Prop) :
  (forall t0 t1 name source body, Forall P body -> P (Call t0 t1 name source body)) -> (forall e, P (Throws e)) -> forall p, P p.
Proof.
  intros HC HT. fix IH 1. intros [t0 t1 name source body|e]; [|apply HT]. apply HC. induction body; constructor; [apply IH|done].
Qed.

Definition ends (e : option exn) : outcome unit := match e with None => Ok tt | Some e => Throw e end.

(** [p] records what it should. *)
Definition records (p : Prog) : Prop := forall r, m_enabled r = true ->
  let '(g, e) := trace (factory <$> head (m_call_stack r)) p in run p r = (ends e, set_graph (m_call_graph r ++ g) r).

Lemma set_graph_same r : set_graph (m_call_graph r ++ []) r = r.
Proof. destruct r. unfold set_graph. cbn. by rewrite app_nil_r. Qed.

Lemma all_record ps : Forall records ps -> forall r name, m_enabled r = true -> factory <$> head (m_call_stack r) = Some name ->
  let '(g, e) := trace_all (trace (Some name)) ps in run_all run ps r = (ends e, set_graph (m_call_graph r ++ g) r).
Proof.
  induction 1 as [|p ps Hp _ IH]; intros r name Hr Hn; cbn [trace_all run_all]; [by rewrite set_graph_same|].
  specialize (Hp r Hr). rewrite Hn in Hp. destruct (trace (Some name) p) as [g [e|]].
  - by rewrite (M_bind_throw _ _ _ _ _ Hp).
  - rewrite (M_bind_ok _ _ _ _ _ Hp). specialize (IH (set_graph (m_call_graph r ++ g) r) name Hr Hn).
    destruct (trace_all (trace (Some name)) ps) as [g' e]. rewrite IH. unfold set_graph. cbn. by rewrite app_assoc.
Qed.

Lemma entry_records t0 t1 name source body : Forall records body -> records (Call t0 t1 name source body).
Proof.
  intros Hb r Hr. cbn [trace run]. unfold entry, StartFactoryCall. rewrite M_bind_assoc, M_bind_get, Hr. cbn [negb]. rewrite M_bind_modify.
  pose proof (all_record body Hb (set_stack (mkFrame name t0 :: m_call_stack r) r) name Hr eq_refl) as B.
  destruct (trace_all (trace (Some name)) body) as [g e]. unfold ending. rewrite B. destruct r as [en st er gr or]. cbn in Hr. subst en.
  destruct e as [e|], st as [|[c ct] st]; cbn; unfold set_graph, set_stack; cbn; by rewrite ?app_nil_r, ?app_assoc.
Qed.

(** The call graph is the tree of calls.  Whatever calls are made, also when one of them throws: afterwards the stack is what it was,
    and the graph has grown by one node per call that had a caller, with its caller, times and data source, callees before callers; an
    exception passes through and leaves no call open. *)
Theorem calls_are_recorded p r : m_enabled r = true ->
  let '(g, e) := trace (factory <$> head (m_call_stack r)) p in run p r = (ends e, set_graph (m_call_graph r ++ g) r).
Proof.
  revert r. change (records p). induction p as [t0 t1 name source body Hb|e] using Prog_nested_ind.
  - by apply entry_records.
  - intros r Hr. cbn. by rewrite set_graph_same.
Qed.

Definition some_calls : Prog :=
  Call 0 9 ("Processor", EmptyString)%string DATA_NOT_AVAILABLE
    [Call 1 4 ("Track", EmptyString)%string DATA_FROM_FACTORY [Call 2 3 ("Hit", EmptyString)%string DATA_FROM_SOURCE []];
     Call 5 8 ("Track", "fast")%string DATA_FROM_FACTORY [Call 6 7 ("Hit", EmptyString)%string DATA_FROM_SOURCE []; Throws (EStd "bad")]].

Lemma calls_are_recorded_witness : exists r, run some_calls (set_graph [] (mkRecorder true [] [] [] ORIGIN_FROM_FACTORY)) = (Throw (EStd "bad"), r) /\
  (fun x => (fst (caller x), fst (callee x))) <$> m_call_graph r =
    [("Track", "Hit"); ("Processor", "Track"); ("Track", "Hit"); ("Processor", "Track")]%string.
Proof.
  pose proof (calls_are_recorded some_calls (mkRecorder true [] [] [] ORIGIN_FROM_FACTORY) eq_refl) as H. cbn in H. eexists. split; [exact H|done].
Defined.

(** ** The order is topological *)

Section Sorting.
Context (g : list JCallGraphNode).

(** The callees and the callers of a factory, and all factories. *)
Definition ins (n : FacName) : list FacName := callee <$> filter (fun x => caller x = n) g.
Definition outs (n : FacName) : list FacName := caller <$> filter (fun x => callee x = n) g.
Definition factories : list FacName := (caller <$> g) ++ (callee <$> g).

Lemma outs_ins m n : m ∈ outs n <-> n ∈ ins m.
Proof. unfold outs, ins. rewrite !list_elem_of_fmap. setoid_rewrite list_elem_of_filter. naive_solver. Qed.

Lemma outs_factories m n : m ∈ outs n -> m ∈ factories.
Proof.
  intros (x & -> & [_ Hx]%list_elem_of_filter)%list_elem_of_fmap. apply elem_of_app. left. by apply list_elem_of_fmap_2.
Qed.

End Sorting.

Lemma edges_of_change n f adj m : edges_of (change n f adj) m = if decide (n = m) then f (edges_of adj n) else edges_of adj m.
Proof. unfold change. unfold edges_of at 1. rewrite lookup_insert. by case_decide. Qed.

Lemma dom_change n f adj m : is_Some (change n f adj !! m) <-> m = n \/ is_Some (adj !! m).
Proof. unfold change. rewrite lookup_insert_is_Some'. naive_solver. Qed.

Lemma build_snoc g x : build (g ++ [x]) = add_node (build g) x.
Proof. unfold build. by rewrite foldl_app. Qed.

Lemma ins_snoc g x n : ins (g ++ [x]) n = ins g n ++ (if decide (caller x = n) then [callee x] else []).
Proof. unfold ins. rewrite filter_app, fmap_app, filter_cons, filter_nil. by case_decide. Qed.

Lemma outs_snoc g x n : outs (g ++ [x]) n = outs g n ++ (if decide (callee x = n) then [caller x] else []).
Proof. unfold outs. rewrite filter_app, fmap_app, filter_cons, filter_nil. by case_decide. Qed.

Lemma build_spec g n :
  edges_of (build g) n = mkEdges (ins g n) (outs g n) /\ (is_Some (build g !! n) <-> n ∈ factories g).
Proof.
  revert n. induction g as [|x g IH] using rev_ind; intros n.
  { split; [done|]. unfold build, factories. cbn. rewrite lookup_empty, elem_of_nil. split; [by intros []|done]. }
  rewrite build_snoc. unfold add_node. split.
  - rewrite !edges_of_change, ins_snoc, outs_snoc. pose proof (fun n => proj1 (IH n)) as E.
    repeat case_decide; rewrite ?E; cbn; rewrite ?app_nil_r; congruence.
  - rewrite !dom_change, (proj2 (IH n)). unfold factories. rewrite !fmap_app. cbn [fmap list_fmap]. rewrite !elem_of_app, !list_elem_of_singleton. tauto.
Qed.

Lemma filter_everything {A} (P : A -> Prop) `{forall x, Decision (P x)} (l : list A) : (forall x, x ∈ l -> P x) -> filter P l = l.
Proof.
  induction l as [|x l IH]; intros Hl; [done|]. rewrite filter_cons_True by (apply Hl, list_elem_of_here). f_equal. apply IH.
  intros y Hy. by apply Hl, list_elem_of_further.
Qed.

Lemma filter_nothing {A} (P : A -> Prop) `{forall x, Decision (P x)} (l : list A) : filter P l = [] <-> forall x, x ∈ l -> ~ P x.
Proof.
  split; [intros E x Hx Px; by eapply filter_nil_not_elem_of|]. intros Hl. apply elem_of_nil_inv. intros x [Px Hx]%list_elem_of_filter.
  by apply (Hl x).
Qed.

Lemma filter_agree {A} (P Q : A -> Prop) `{forall x, Decision (P x)} `{forall x, Decision (Q x)} (l : list A) :
  (forall x, x ∈ l -> P x <-> Q x) -> filter P l = filter Q l.
Proof.
  induction l as [|x l IH]; intros Hl; [done|]. rewrite !filter_cons.
  rewrite IH by (intros y Hy; by apply Hl, list_elem_of_further). pose proof (Hl x (list_elem_of_here _ _)).
  destruct (decide (P x)), (decide (Q x)); tauto.
Qed.

(** The callers of [n] that have no other callee left. *)
Definition released (adj : Adjacency) (n : FacName) (ms : list FacName) : list FacName :=
  filter (fun m => filter (fun c => c <> n) (incoming (edges_of adj m)) = []) ms.

Lemma visits n ms : forall adj ready, exists adj',
  foldl (visit n) (adj, ready) ms = (adj', ready ++ released adj n ms) /\
  forall m, edges_of adj' m =
    mkEdges (if decide (m ∈ ms) then filter (fun c => c <> n) (incoming (edges_of adj m)) else incoming (edges_of adj m)) (outgoing (edges_of adj m)).
Proof.
  induction ms as [|m0 ms IH]; intros adj ready; cbn [foldl].
  { exists adj. split; [by rewrite app_nil_r|]. intros m. rewrite decide_False by apply not_elem_of_nil. by destruct (edges_of adj m). }
  unfold visit at 2. set (left := filter _ (incoming (edges_of adj m0))). set (adj1 := change m0 _ adj).
  assert (E1 : forall m, edges_of adj1 m = if decide (m0 = m) then mkEdges left (outgoing (edges_of adj m0)) else edges_of adj m)
    by (intros m; apply edges_of_change).
  destruct (IH adj1 (if bool_decide (left = []) then ready ++ [m0] else ready)) as (adj' & -> & E'). exists adj'.
  assert (F : forall m, filter (fun c => c <> n) (incoming (edges_of adj1 m)) = filter (fun c => c <> n) (incoming (edges_of adj m))).
  { intros m. rewrite E1. case_decide; [|done]. subst. cbn. unfold left. rewrite list_filter_filter. apply list_filter_iff. tauto. }
  assert (R : released adj1 n ms = released adj n ms).
  { apply list_filter_iff. intros m. by rewrite F. }
  split.
  - f_equal. rewrite R. unfold released at 2. rewrite filter_cons. fold left. case_bool_decide; [|rewrite decide_False by done; done].
    rewrite decide_True by done. by rewrite <- app_assoc.
  - intros m. rewrite E', F, E1. destruct (decide (m0 = m)) as [<-|Hne]; cbn.
    + rewrite (decide_True (P := m0 ∈ m0 :: ms)) by apply list_elem_of_here. by case_decide.
    + f_equal. destruct (decide (m ∈ ms)); [rewrite decide_True by (by apply list_elem_of_further)|rewrite decide_False]; try done.
      intros [->|]%elem_of_cons; done.
Qed.

Record loop_ok (g : list JCallGraphNode) (adj : Adjacency) (ready sorted : list FacName) : Prop := {
  lo_edges : forall m, edges_of adj m = mkEdges (filter (fun c => c ∉ sorted) (ins g m)) (outs g m);
  lo_ready : forall m, m ∈ ready -> forall c, c ∈ ins g m -> c ∈ sorted;
  lo_complete : forall m, m ∈ factories g -> (forall c, c ∈ ins g m -> c ∈ sorted) -> m ∈ sorted ++ ready;
  lo_order : forall i m, sorted !! i = Some m -> forall c, c ∈ ins g m -> c ∈ take i sorted;
  lo_known : forall m, m ∈ sorted ++ ready -> m ∈ factories g
}.

Lemma start_ok g : loop_ok g (build g) (initially_ready (build g)) [].
Proof.
  assert (R : forall m, m ∈ initially_ready (build g) <-> ins g m = [] /\ m ∈ factories g).
  { intros m. unfold initially_ready. rewrite list_elem_of_filter, merge_sort_Permutation, (proj1 (build_spec g m)). cbn.
    rewrite <- (proj2 (build_spec g m)), list_elem_of_fmap. setoid_rewrite elem_of_map_to_list'. split.
    - intros [Hi ([k e] & -> & He)]. split; [done|by exists e].
    - intros [Hi [e He]]. split; [done|]. by exists (m, e). }
  split.
  - intros m. rewrite (proj1 (build_spec g m)). f_equal. symmetry. apply filter_everything. intros c _. apply not_elem_of_nil.
  - intros m [Hi _]%R c Hc. rewrite Hi in Hc. by apply elem_of_nil in Hc.
  - intros m Hm Hc. apply R. split; [|done]. destruct (ins g m) as [|c l] eqn:E; [done|].
    by destruct (elem_of_nil c) as [[] _]; apply Hc, list_elem_of_here.
  - done.
  - intros m [_ Hm]%R. done.
Qed.

(** A caller of [n] is released if all its callees are sorted when [n] is. *)
Lemma released_spec g adj ready sorted n m : loop_ok g adj ready sorted ->
  m ∈ released adj n (outs g n) <-> m ∈ outs g n /\ forall c, c ∈ ins g m -> c ∈ sorted ++ [n].
Proof.
  intros L. unfold released. rewrite list_elem_of_filter, (lo_edges _ _ _ _ L). cbn. rewrite list_filter_filter, filter_nothing.
  split; [intros [H1 H2]; split; [done|]|intros [H1 H2]; split; [|done]].
  - intros c Hc. rewrite elem_of_app, list_elem_of_singleton. destruct (decide (c = n)); [by right|].
    destruct (decide (c ∈ sorted)); [by left|]. by destruct (H1 c Hc).
  - intros c Hc [Hn Hs]. specialize (H2 c Hc). rewrite elem_of_app, list_elem_of_singleton in H2. tauto.
Qed.

Lemma turn_ok g adj n ready sorted : loop_ok g adj (n :: ready) sorted -> exists adj',
  foldl (visit n) (adj, ready) (outgoing (edges_of adj n)) = (adj', ready ++ released adj n (outs g n)) /\
  loop_ok g adj' (ready ++ released adj n (outs g n)) (sorted ++ [n]).
Proof.
  intros L. pose proof (released_spec g adj (n :: ready) sorted n) as R. rewrite (lo_edges _ _ _ _ L). cbn.
  destruct (visits n (outs g n) adj ready) as (adj' & -> & E). exists adj'. split; [done|]. split.
  - intros m. rewrite E, (lo_edges _ _ _ _ L). cbn. f_equal. case_decide as Hm.
    + rewrite list_filter_filter. apply list_filter_iff. intros c. rewrite elem_of_app, list_elem_of_singleton. tauto.
    + apply filter_agree. intros c Hc. rewrite elem_of_app, list_elem_of_singleton.
      assert (c <> n) by (intros ->; by apply Hm, outs_ins). tauto.
  - intros m [Hm|Hm]%elem_of_app c Hc.
    + apply elem_of_app. left. eapply (lo_ready _ _ _ _ L m); [by apply list_elem_of_further|done].
    + apply (R m) in Hm as [_ Hm]; auto.
  - intros m Hm Hc. destruct (decide (m ∈ outs g n)) as [Ho|Ho].
    { rewrite !elem_of_app. right. right. by apply R. }
    assert (Hc' : forall c, c ∈ ins g m -> c ∈ sorted).
    { intros c Hi. specialize (Hc c Hi). rewrite elem_of_app, list_elem_of_singleton in Hc. destruct Hc as [?| ->]; [done|].
      by destruct Ho; apply outs_ins. }
    pose proof (lo_complete _ _ _ _ L m Hm Hc') as K. rewrite !elem_of_app, elem_of_cons in *. tauto.
  - intros i m Hi c Hc. apply lookup_app_Some in Hi as [Hi|[Hlen Hi]].
    + rewrite take_app_le by (apply lookup_lt_Some in Hi; lia). by eapply (lo_order _ _ _ _ L).
    + apply list_lookup_singleton_Some in Hi as [Hi <-]. rewrite take_app_length' by lia.
      by apply (lo_ready _ _ _ _ L n (list_elem_of_here _ _)).
  - intros m Hm. rewrite !elem_of_app, list_elem_of_singleton in Hm.
    destruct Hm as [[Hm| ->]|[Hm|Hm]]; [| | |by apply R, proj1, outs_factories in Hm];
      apply (lo_known _ _ _ _ L); rewrite elem_of_app, elem_of_cons; tauto.
Qed.

(** Without repeated calls nothing is sorted twice. *)
Definition edge (x : JCallGraphNode) : FacName * FacName := (caller x, callee x).

Lemma sort_outs_nodup g n : NoDup (edge <$> g) -> NoDup (outs g n).
Proof.
  unfold outs. induction g as [|x g IH]; [intros _; apply NoDup_nil_2|]. rewrite fmap_cons. intros [Hx Hg]%NoDup_cons. rewrite filter_cons. case_decide as E; [|auto].
  rewrite fmap_cons. apply NoDup_cons. split; [|auto]. intros (y & Ey & [En Hy]%list_elem_of_filter)%list_elem_of_fmap. apply Hx.
  apply list_elem_of_fmap. exists y. split; [|done]. unfold edge. congruence.
Qed.

Lemma start_nodup g : NoDup (initially_ready (build g)).
Proof. apply NoDup_filter. rewrite merge_sort_Permutation. apply NoDup_fst_map_to_list. Qed.

Lemma turn_nodup g adj n ready sorted : loop_ok g adj (n :: ready) sorted -> NoDup (edge <$> g) -> NoDup (sorted ++ n :: ready) ->
  NoDup ((sorted ++ [n]) ++ ready ++ released adj n (outs g n)).
Proof.
  intros L Hg Hn. rewrite app_assoc, <- (app_assoc sorted). cbn [app]. apply NoDup_app. split; [done|]. split; [|by apply NoDup_filter, sort_outs_nodup].
  apply NoDup_app in Hn as (_ & Hns & _). assert (Hn : n ∉ sorted) by (intros H; apply (Hns n H), list_elem_of_here).
  intros m Hm [Ho%outs_ins _]%(released_spec _ _ _ _ _ _ L). apply elem_of_app in Hm as [Hm|Hm].
  - apply list_elem_of_lookup_1 in Hm as [i Hi]. pose proof (lo_order _ _ _ _ L i m Hi n Ho) as (j & Hj & _)%elem_of_take.
    by apply Hn, (list_elem_of_lookup_2 _ j).
  - apply Hn. by apply (lo_ready _ _ _ _ L m).
Qed.

Section Acyclic.
Context (g : list JCallGraphNode) (rank : FacName -> nat).
Hypothesis acyclic : forall x, x ∈ g -> rank (callee x) < rank (caller x).

Definition highest : nat := max_list (rank <$> factories g).

(** How often the loop can come by: the number of ways up from a factory. *)
Fixpoint paths (k : nat) (n : FacName) : nat :=
  match k with O => 1 | S k => 1 + sum_list_with (paths k) (outs g n) end.
Definition weight (n : FacName) : nat := paths (highest - rank n) n.

Lemma rank_bound n : n ∈ factories g -> rank n <= highest.
Proof. intros Hn. apply max_list_elem_of_le. by apply list_elem_of_fmap_2. Qed.

Lemma sum_le (f h : FacName -> nat) l : (forall m, m ∈ l -> f m <= h m) -> sum_list_with f l <= sum_list_with h l.
Proof.
  induction l as [|m l IH]; intros Hl; cbn; [done|]. pose proof (Hl m (list_elem_of_here _ _)).
  assert (sum_list_with f l <= sum_list_with h l) by (apply IH; intros; by apply Hl, list_elem_of_further). lia.
Qed.

Lemma sum_filter_le (f : FacName -> nat) P `{forall x, Decision (P x)} l : sum_list_with f (filter P l) <= sum_list_with f l.
Proof. induction l as [|m l IH]; [done|]. rewrite filter_cons. case_decide; cbn; lia. Qed.

Lemma paths_mono k k' n : k <= k' -> paths k n <= paths k' n.
Proof.
  revert k' n. induction k as [|k IH]; intros [|k'] n Hk; cbn; try lia. apply le_n_S, sum_le. intros m _. apply IH. lia.
Qed.

Lemma callers_are_higher m n : m ∈ outs g n -> rank n < rank m.
Proof. intros (x & -> & [<- Hx]%list_elem_of_filter)%list_elem_of_fmap. by apply acyclic. Qed.

Lemma weight_step n : 1 + sum_list_with weight (outs g n) <= weight n.
Proof.
  unfold weight at 2. destruct (outs g n) as [|m0 ms] eqn:E; [cbn; destruct (highest - rank n); cbn; lia|]. rewrite <- E.
  assert (H0 : m0 ∈ outs g n) by (rewrite E; apply list_elem_of_here).
  pose proof (callers_are_higher _ _ H0). pose proof (rank_bound _ (outs_factories _ _ _ H0)).
  destruct (highest - rank n) as [|k] eqn:Ek; [lia|]. cbn [paths]. apply le_n_S, sum_le. intros m Hm. unfold weight. apply paths_mono.
  pose proof (callers_are_higher _ _ Hm). lia.
Qed.

Lemma sort_loop_ends fuel : forall adj ready sorted, loop_ok g adj ready sorted -> sum_list_with weight ready <= fuel ->
  (NoDup (edge <$> g) -> NoDup (sorted ++ ready)) ->
  exists adj' sorted', sort_loop fuel adj ready sorted = Some sorted' /\ loop_ok g adj' [] sorted' /\ (NoDup (edge <$> g) -> NoDup sorted').
Proof.
  induction fuel as [|fuel IH]; intros adj [|n ready] sorted L Hf Hd; cbn [sort_loop];
    [by exists adj, sorted; rewrite app_nil_r in Hd| |by exists adj, sorted; rewrite app_nil_r in Hd|].
  - pose proof (weight_step n). cbn in Hf. lia.
  - destruct (turn_ok g adj n ready sorted L) as (adj' & -> & L'). apply (IH adj'); [done| |].
    + rewrite sum_list_with_app. cbn in Hf. pose proof (weight_step n). unfold released.
      pose proof (sum_filter_le weight (fun m => filter (fun c => c <> n) (incoming (edges_of adj m)) = []) (outs g n)). lia.
    + intros Hg. apply turn_nodup; [done|done|by apply Hd].
Qed.

Lemma everything_is_sorted adj sorted n : loop_ok g adj [] sorted -> n ∈ factories g -> n ∈ sorted.
Proof.
  intros L. induction n as [n IH] using (induction_ltof1 _ rank). intros Hn. rewrite <- (app_nil_r sorted). apply (lo_complete _ _ _ _ L n Hn).
  intros c (x & -> & [<- Hx]%list_elem_of_filter)%list_elem_of_fmap. apply IH; [unfold ltof; by apply acyclic|].
  apply elem_of_app. right. by apply list_elem_of_fmap_2.
Qed.

End Acyclic.

Lemma sort_loop_more fuel k : forall adj ready sorted s, sort_loop fuel adj ready sorted = Some s -> sort_loop (fuel + k) adj ready sorted = Some s.
Proof.
  induction fuel as [|fuel IH]; intros adj [|n ready] sorted s; cbn [sort_loop Nat.add]; try done; [by destruct k|].
  destruct (foldl _ _ _) as [adj' ready']. apply IH.
Qed.

(** C33: [TopologicalSort] sorts.  If the calls of a graph can be ranked, that is, no factory calls itself through others, the loop ends.  Its result
    has exactly the factories of the graph, and wherever a factory occurs in it, all that it has called
    occur before.  If no call is repeated, every factory occurs once. *)
Theorem sort_is_topological r rank : (forall x, x ∈ m_call_graph r -> rank (callee x) < rank (caller x)) ->
  exists enough sorted, (forall fuel, enough <= fuel -> TopologicalSort fuel r = Some sorted) /\
    (forall n, n ∈ sorted <-> n ∈ factories (m_call_graph r)) /\
    (forall x i, x ∈ m_call_graph r -> sorted !! i = Some (caller x) -> callee x ∈ take i sorted) /\
    (NoDup (edge <$> m_call_graph r) -> NoDup sorted).
Proof.
  intros Hr. set (g := m_call_graph r) in *. exists (sum_list_with (weight g rank) (initially_ready (build g))).
  destruct (sort_loop_ends g rank Hr _ _ _ _ (start_ok g) (le_n _)) as (adj & sorted & E & L & Hd).
  { intros _. apply start_nodup. }
  exists sorted. split; [|split; [|split]].
  - intros fuel Hf. unfold TopologicalSort. fold g.
    replace fuel with (sum_list_with (weight g rank) (initially_ready (build g)) + (fuel - sum_list_with (weight g rank) (initially_ready (build g)))) by lia.
    by apply sort_loop_more.
  - intros n. split; [|by eapply everything_is_sorted]. intros Hn. apply (lo_known _ _ _ _ L). by rewrite app_nil_r.
  - intros x i Hx Hi. apply (lo_order _ _ _ _ L i _ Hi). apply list_elem_of_fmap. exists x. split; [done|].
    by apply list_elem_of_filter.
  - exact Hd.
Qed.

Definition one_call (a b : string) : JCallGraphNode := mkNode (a, EmptyString) (b, EmptyString) 0 0 DATA_FROM_FACTORY.
Definition recorded (g : list JCallGraphNode) : JCallGraphRecorder := mkRecorder true [] [] g ORIGIN_FROM_FACTORY.
Definition diamond : JCallGraphRecorder :=
  recorded [one_call "Track" "Hit"; one_call "Cluster" "Hit"; one_call "Vertex" "Track"; one_call "Vertex" "Cluster"].
Definition diamond_rank (n : FacName) : nat :=
  if decide (n.1 = "Hit"%string) then 0 else if decide (n.1 = "Vertex"%string) then 2 else 1.

Lemma sort_is_topological_witness : exists enough sorted, (forall fuel, enough <= fuel -> TopologicalSort fuel diamond = Some sorted) /\
  (forall n, n ∈ sorted <-> n ∈ factories (m_call_graph diamond)) /\ NoDup sorted.
Proof.
  destruct (sort_is_topological diamond diamond_rank) as (enough & sorted & E & F & _ & D).
  { apply Forall_forall. repeat constructor. }
  exists enough, sorted. split; [done|]. split; [done|]. apply D. apply (bool_decide_unpack _). vm_compute. exact I.
Defined.

Lemma diamond_sorted : (fun s => s.*1) <$> TopologicalSort 9 diamond = Some ["Hit"; "Track"; "Cluster"; "Vertex"]%string.
Proof. vm_compute. reflexivity. Qed.

(** A call that is made twice, as every second request for the same data is, makes the caller ready twice, and
    its callers for each time: the number of entries doubles from level to level. *)
Lemma repeated_calls_multiply :
  let twice (a b : string) := [one_call a b; one_call a b] in
  (fun s => s.*1) <$> TopologicalSort 99 (recorded (concat [twice "B" "A"; twice "C" "B"; twice "D" "C"]))
    = Some (concat [["A"]; replicate 2 "B"; replicate 4 "C"; replicate 8 "D"])%string.
Proof. vm_compute. reflexivity. Qed.

End CallGraph.
