(* ===== verification/JJanaDot.v ===== *)
(** * JJanaDot: the graph of calls as a picture

    Model of [src/src/plugins/janadot/]: the processor adds up the recorded calls of all events, and draws factories, sources and processors as nodes and
    calls as edges, with the time that they took.  The file is modelled as the statements that are written to it; the layout of
    labels, and the time of creation, are left out.  Times are integers: the [double]s of the code are sums of whole milliseconds, which are exact
    below 2^53. *)

From Stdlib Require Import Ascii.
From stdpp Require Import sorting.
From S2P Require Import Prelude JCallGraph.
Import CallGraph.
Local Open Scope Z_scope.

Module JanaDot.

(** ** Names *)

(** [regex_replace] of one character. *)
Fixpoint regex_replace (c : ascii) (by_ : string) (s : string) : string :=
  match s with
  | EmptyString => EmptyString
  | String a s => if Ascii.eqb a c then String.append by_ (regex_replace c by_ s) else String a (regex_replace c by_ s)
  end.

Definition MakeNametag (f : FacName) : string :=
  let nametag := if (0 <? String.length f.2)%nat then String.append f.1 (String.append ":" f.2) else f.1 in
  regex_replace ">" "&gt;" (regex_replace "<" "&lt;" nametag).

(** ** Data *)

Inductive node_type := kDefault | kProcessor | kFactory | kCache | kSource.

#[export] Instance node_type_eq_dec : EqDecision node_type.
Proof. solve_decision. Defined.

Record CallLink := mkLink { link_caller : FacName; link_callee : FacName }.

#[export] Instance CallLink_eq_dec : EqDecision CallLink.
Proof. solve_decision. Defined.

#[export] Instance CallLink_countable : Countable CallLink.
Proof. apply (inj_countable' (fun l => (link_caller l, link_callee l)) (fun p => mkLink p.1 p.2)). by intros []. Defined.

(** The order of links in the map. *)
Definition link_leb (a b : CallLink) : bool :=
  if decide ((link_caller a).1 = (link_caller b).1) then
    if decide ((link_callee a).1 = (link_callee b).1) then
      if decide ((link_caller a).2 = (link_caller b).2) then String.leb (link_callee a).2 (link_callee b).2
      else String.leb (link_caller a).2 (link_caller b).2
    else String.leb (link_callee a).1 (link_callee b).1
  else String.leb (link_caller a).1 (link_caller b).1.

Record CallStats := mkCallStats {
  from_cache_ms : Z; from_source_ms : Z; from_factory_ms : Z; data_not_available_ms : Z;
  Nfrom_cache : Z; Nfrom_source : Z; Nfrom_factory : Z; Ndata_not_available : Z
}.

Definition no_calls : CallStats := mkCallStats 0 0 0 0 0 0 0 0.

Record FactoryCallStats := mkFactoryStats {
  time_waited_on : Z;   (* time other factories spent waiting on this factory *)
  time_waiting : Z;     (* time this factory spent waiting on other factories *)
  fac_from_factory : Z; fac_from_source : Z; fac_from_cache : Z
}.

Definition no_stats : FactoryCallStats := mkFactoryStats 0 0 0 0 0.

Record JanaDot := mkJanaDot {
  call_links : gmap CallLink CallStats;
  factory_stats : gmap string FactoryCallStats;
  suppress_unused_factories : bool;
  groups : gmap string (list string);
  group_colors : gmap string string;
  node_colors : gmap string string;
  no_subgraph_groups : gset string;
  focus_factory : string
}.

Definition has_focus (s : JanaDot) : bool := negb (bool_decide (focus_factory s = EmptyString)).

(** ** Groups *)

(** The values in front of the commas, and what is behind the last one. *)
Fixpoint split_vals (str : string) : list string * string :=
  match str with
  | EmptyString => ([], EmptyString)
  | String c s =>
      let '(vals, last) := split_vals s in
      if Ascii.eqb c "," then (EmptyString :: vals, last)
      else match vals with v :: vals => (String c v :: vals, last) | [] => ([], String c last) end
  end.

Record Group := mkGroup { myclasses : list string; my_color : option string; my_no_box : bool }.

(** A value before a comma. *)
Definition add_val (g : Group) (val : string) : Group :=
  if bool_decide (val = EmptyString) then g
  else if String.prefix "color_" val then mkGroup (myclasses g) (Some (String.substring 6 (String.length val - 6) val)) (my_no_box g)
  else if String.prefix "no_box" val then mkGroup (myclasses g) (my_color g) true
  else mkGroup (myclasses g ++ [val]) (my_color g) (my_no_box g).

(** The value of a parameter; what is behind the last comma is a class. *)
Definition parse_group (value : string) : Group :=
  let '(vals, last) := split_vals value in
  let g := foldl add_val (mkGroup [] None false) vals in
  if bool_decide (last = EmptyString) then g else mkGroup (myclasses g ++ [last]) (my_color g) (my_no_box g).

Definition by_key {A} (m : gmap string A) : list (string * A) := merge_sort (fun a b => String.leb a.1 b.1) (map_to_list m).

Definition paint (colors : gmap string string) (acc : gmap string string) (group : string * list string) : gmap string string :=
  match colors !! group.1 with
  | Some color => foldl (fun acc c => <[c := color]> acc) acc group.2
  | None => acc
  end.

(** [parms] are the parameters whose names start with [JANADOT:GROUP:]. *)
Definition Init (focus : string) (suppress : bool) (parms : gmap string string) : JanaDot :=
  let parsed := parse_group <$> parms in
  let groups := filter (fun kv => kv.2 <> []) (myclasses <$> parsed) in
  let colors := omap my_color parsed in
  mkJanaDot ∅ ∅ suppress groups colors (foldl (paint colors) ∅ (by_key groups)) (dom (filter (fun kv => my_no_box kv.2 = true) parsed)) focus.

(** ** Events *)

(** [operator[]] makes an entry if there is none. *)
Definition change {K A} `{Countable K} (d : A) (k : K) (f : A -> A) (m : gmap K A) : gmap K A := <[k := f (default d (m !! k))]> m.

Definition delta_t_ms (n : JCallGraphNode) : Z := Z.quot (end_time n - start_time n) 1000000.

Definition wait (dt : Z) (f : FactoryCallStats) : FactoryCallStats :=
  mkFactoryStats (time_waited_on f) (time_waiting f + dt) (fac_from_factory f) (fac_from_source f) (fac_from_cache f).

Definition waited (dt : Z) (source : JDataSource) (f : FactoryCallStats) : FactoryCallStats :=
  let on := time_waited_on f + dt in
  match source with
  | DATA_NOT_AVAILABLE => mkFactoryStats on (time_waiting f) (fac_from_factory f) (fac_from_source f) (fac_from_cache f)
  | DATA_FROM_CACHE => mkFactoryStats on (time_waiting f) (fac_from_factory f) (fac_from_source f) (u32 (fac_from_cache f + 1))
  | DATA_FROM_SOURCE => mkFactoryStats on (time_waiting f) (fac_from_factory f) (u32 (fac_from_source f + 1)) (fac_from_cache f)
  | DATA_FROM_FACTORY => mkFactoryStats on (time_waiting f) (u32 (fac_from_factory f + 1)) (fac_from_source f) (fac_from_cache f)
  end.

Definition count_call (dt : Z) (source : JDataSource) (c : CallStats) : CallStats :=
  let '(mkCallStats cm sm fm nm nc ns nf nn) := c in
  match source with
  | DATA_NOT_AVAILABLE => mkCallStats cm sm fm (nm + dt) nc ns nf (u32 (nn + 1))
  | DATA_FROM_CACHE => mkCallStats (cm + dt) sm fm nm (u32 (nc + 1)) ns nf nn
  | DATA_FROM_SOURCE => mkCallStats cm (sm + dt) fm nm nc (u32 (ns + 1)) nf nn
  | DATA_FROM_FACTORY => mkCallStats cm sm (fm + dt) nm nc ns (u32 (nf + 1)) nn
  end.

Definition set_stats (links : gmap CallLink CallStats) (stats : gmap string FactoryCallStats) (s : JanaDot) : JanaDot :=
  mkJanaDot links stats (suppress_unused_factories s) (groups s) (group_colors s) (node_colors s) (no_subgraph_groups s) (focus_factory s).

Definition record_call (s : JanaDot) (n : JCallGraphNode) : JanaDot :=
  let dt := delta_t_ms n in
  set_stats (change no_calls (mkLink (caller n) (callee n)) (count_call dt (data_source n)) (call_links s))
    (change no_stats (MakeNametag (callee n)) (waited dt (data_source n)) (change no_stats (MakeNametag (caller n)) (wait dt) (factory_stats s))) s.

(** One event, with its record of calls. *)
Definition Process (r : JCallGraphRecorder) (s : JanaDot) : JanaDot := foldl record_call s (m_call_graph r).

(** ** The drawing *)

Definition caller_tag (l : CallLink) : string := MakeNametag (link_caller l).
Definition callee_tag (l : CallLink) : string := MakeNametag (link_callee l).

Definition sorted_links (s : JanaDot) : list (CallLink * CallStats) := merge_sort (fun a b => link_leb a.1 b.1) (map_to_list (call_links s)).

Definition callers (s : JanaDot) : gset string := list_to_set ((fun lc => caller_tag lc.1) <$> sorted_links s).
Definition callees (s : JanaDot) : gset string := list_to_set ((fun lc => callee_tag lc.1) <$> sorted_links s).

Definition all_ms (c : CallStats) : Z := from_factory_ms c + from_source_ms c + from_cache_ms c + data_not_available_ms c.

(** What the callers that nobody calls have waited for. *)
Definition summed_ms (s : JanaDot) : Z :=
  foldl (fun total lc => if decide (caller_tag lc.1 ∈ callees s) then total else total + all_ms lc.2) 0 (sorted_links s).

Definition total_ms (s : JanaDot) : Z := if decide (summed_ms s = 0) then 1 else summed_ms s.

(** [FindDecendents] and [FindAncestors] call themselves for every link of the node, in one or the other direction; [None] is a call that does not
    return in [fuel] levels. *)
Fixpoint follow (from to_ : CallLink -> string) (links : list CallLink) (fuel : nat) (node : string) (relatives : gset string) : option (gset string) :=
  match fuel with
  | O => None
  | S fuel =>
      foldl (fun acc l => acc ≫= fun d => if decide (from l = node) then follow from to_ links fuel (to_ l) d else Some d)
        (Some ({[node]} ∪ relatives)) links
  end.

Definition FindDecendents (links : list CallLink) : nat -> string -> gset string -> option (gset string) := follow caller_tag callee_tag links.
Definition FindAncestors (links : list CallLink) : nat -> string -> gset string -> option (gset string) := follow callee_tag caller_tag links.

Definition focus_relatives (fuel : nat) (s : JanaDot) : option (gset string) :=
  if has_focus s then
    d ← FindDecendents (fst <$> sorted_links s) fuel (focus_factory s) ∅;
    FindAncestors (fst <$> sorted_links s) fuel (focus_factory s) d
  else Some ∅.

Definition drawn (s : JanaDot) (relatives : gset string) (name : string) : bool :=
  negb (bool_decide (name = "<ignore>"%string)) && (negb (has_focus s) || bool_decide (name ∈ relatives)).

Record Edge := mkEdge { edge_from : string; edge_to : string; Ntotal : Z; edge_factory_ms : Z; my_ms : Z }.

(** Of the link itself only the caller may be ignored; the focus must have both. *)
Definition edge_of (s : JanaDot) (relatives : gset string) (lc : CallLink * CallStats) : option Edge :=
  let '(l, c) := lc in
  if bool_decide (caller_tag l = "<ignore>"%string) then None
  else if has_focus s && negb (bool_decide (caller_tag l ∈ relatives) && bool_decide (callee_tag l ∈ relatives)) then None
  else Some (mkEdge (caller_tag l) (callee_tag l) (u32 (Nfrom_cache c + Nfrom_source c + Nfrom_factory c)) (from_factory_ms c)
               (from_factory_ms c + from_source_ms c + from_cache_ms c)).

Definition type_of (s : JanaDot) (name : string) (f : FactoryCallStats) : node_type :=
  let is_caller := bool_decide (name ∈ callers s) in
  let is_callee := bool_decide (name ∈ callees s) in
  if is_caller && negb is_callee then kProcessor
  else if negb (fac_from_source f =? 0) then kSource
  else if (0 <? u32 (fac_from_cache f + fac_from_factory f)) && negb is_caller then kCache
  else kFactory.

Record Node := mkDotNode { nodename : string; type : node_type; shape : string; fillcolor : string; time_spent : Z }.

Definition color_of (s : JanaDot) (name default_color : string) : string := default default_color (node_colors s !! name).

Definition node_of (s : JanaDot) (relatives : gset string) (nf : string * FactoryCallStats) : option Node :=
  let '(name, f) := nf in
  if negb (drawn s relatives name) then None
  else
    let box := (if has_focus s && bool_decide (name = focus_factory s) then "tripleoctagon" else "box")%string in
    let make shape color := Some (mkDotNode name (type_of s name f) shape color (time_waited_on f - time_waiting f)) in
    match type_of s name f with
    | kProcessor => if decide (name = "AutoActivated"%string) then make "hexagon"%string "lightgrey"%string else make "ellipse"%string "aquamarine"%string
    | kFactory => make box (color_of s name "lightblue")
    | kCache => make box (color_of s name "yellow")
    | kSource => make "trapezium"%string "green"%string
    | kDefault => make "hexagon"%string "lightgrey"%string
    end.

Definition names_of (t : node_type) (nodes : list Node) : list string := nodename <$> filter (fun n => type n = t) nodes.

Record Cluster := mkCluster { icluster : nat; cluster_classes : list string; cluster_label : string }.

Definition cluster_of (s : JanaDot) (factory_nodes : list string) (i : nat) (g : string * list string) : option Cluster :=
  if decide (g.1 ∈ no_subgraph_groups s) then None
  else Some (mkCluster i (if suppress_unused_factories s then filter (fun c => c ∈ factory_nodes) g.2 else g.2) g.1).

Record Dot := mkDot { edges : list Edge; nodes : list Node; rank_source : list string; rank_sink : list string; clusters : list Cluster }.

Definition Finish (fuel : nat) (s : JanaDot) : option Dot :=
  relatives ← focus_relatives fuel s;
  let nodes := omap (node_of s relatives) (by_key (factory_stats s)) in
  Some (mkDot (omap (edge_of s relatives) (sorted_links s)) nodes
    ("CreationTime"%string :: names_of kProcessor nodes) (names_of kSource nodes)
    (omap id (imap (cluster_of s (names_of kFactory nodes)) (by_key (groups s))))).

(** ** Sums over maps *)

Definition zsum (l : list Z) : Z := foldr Z.add 0 l.

#[export] Instance zsum_perm : Proper (Permutation ==> eq) zsum.
Proof. intros l1 l2 H. unfold zsum. induction H; cbn; lia. Qed.

Lemma zsum_app l1 l2 : zsum (l1 ++ l2) = zsum l1 + zsum l2.
Proof. unfold zsum. induction l1; cbn; lia. Qed.

Definition msum {K A} `{Countable K} (g : K * A -> Z) (m : gmap K A) : Z := zsum (g <$> map_to_list m).

Lemma msum_change {K A} `{Countable K} (g : K * A -> Z) d k f (m : gmap K A) : g (k, d) = 0 ->
  msum g (change d k f m) = msum g m - g (k, default d (m !! k)) + g (k, f (default d (m !! k))).
Proof.
  intros Hd. unfold msum, change. rewrite <- insert_delete_eq, map_to_list_insert by apply lookup_delete_eq. cbn [fmap list_fmap zsum foldr]. fold zsum.
  assert (E : zsum (g <$> map_to_list m) = g (k, default d (m !! k)) + zsum (g <$> map_to_list (delete k m))); [|unfold zsum in *; lia].
  destruct (m !! k) as [a|] eqn:Ha; cbn [default].
  - rewrite <- (insert_delete_id m k a Ha) at 1. rewrite map_to_list_insert by apply lookup_delete_eq. done.
  - rewrite Hd, delete_id by done. done.
Qed.

(** Time by pairs of callers and callees, and by nodes. *)
Definition link_ms (P : CallLink -> bool) (s : JanaDot) : Z := msum (fun lc => if P lc.1 then all_ms lc.2 else 0) (call_links s).
Definition waited_ms (Q : string -> bool) (s : JanaDot) : Z := msum (fun nf => if Q nf.1 then time_waited_on nf.2 else 0) (factory_stats s).
Definition waiting_ms (Q : string -> bool) (s : JanaDot) : Z := msum (fun nf => if Q nf.1 then time_waiting nf.2 else 0) (factory_stats s).

Lemma record_call_link P s n : link_ms P (record_call s n) = link_ms P s + if P (mkLink (caller n) (callee n)) then delta_t_ms n else 0.
Proof.
  unfold link_ms, record_call. cbn [call_links set_stats]. rewrite msum_change by (cbn; by destruct (P _)). cbn [fst snd].
  destruct (P _); [|lia]. unfold all_ms. destruct (default _ _), (data_source n); cbn; lia.
Qed.

Lemma record_call_waited Q s n : waited_ms Q (record_call s n) = waited_ms Q s + if Q (MakeNametag (callee n)) then delta_t_ms n else 0.
Proof.
  unfold waited_ms, record_call. cbn [factory_stats set_stats]. rewrite !msum_change by (cbn; by destruct (Q _)). cbn [fst snd wait time_waited_on].
  destruct (Q (MakeNametag (callee n))), (Q (MakeNametag (caller n))), (data_source n); cbn; lia.
Qed.

Lemma record_call_waiting Q s n : waiting_ms Q (record_call s n) = waiting_ms Q s + if Q (MakeNametag (caller n)) then delta_t_ms n else 0.
Proof.
  unfold waiting_ms, record_call. cbn [factory_stats set_stats]. rewrite !msum_change by (cbn; by destruct (Q _)). cbn [fst snd wait time_waiting].
  destruct (Q (MakeNametag (callee n))), (Q (MakeNametag (caller n))), (data_source n); cbn; lia.
Qed.

(** ** What all events have added up to *)

Definition link_of (n : JCallGraphNode) : CallLink := mkLink (caller n) (callee n).

Definition ms_where (P : JCallGraphNode -> bool) (calls : list JCallGraphNode) : Z := zsum ((fun n => if P n then delta_t_ms n else 0) <$> calls).

Lemma calls_ms calls : forall s, (forall P, link_ms P (foldl record_call s calls) = link_ms P s + ms_where (fun n => P (link_of n)) calls) /\
  (forall Q, waited_ms Q (foldl record_call s calls) = waited_ms Q s + ms_where (fun n => Q (MakeNametag (callee n))) calls) /\
  (forall Q, waiting_ms Q (foldl record_call s calls) = waiting_ms Q s + ms_where (fun n => Q (MakeNametag (caller n))) calls).
Proof.
  unfold ms_where. induction calls as [|n calls IH]; intros s; cbn [foldl fmap list_fmap zsum foldr]; [split_and!; intros; lia|].
  destruct (IH (record_call s n)) as (H1 & H2 & H3). unfold zsum in *. split_and!; intros X.
  - rewrite H1, record_call_link. unfold link_of. lia.
  - rewrite H2, record_call_waited. lia.
  - rewrite H3, record_call_waiting. lia.
Qed.

Lemma change_dom {K A} `{Countable K} (d : A) k f (m : gmap K A) x : is_Some (change d k f m !! x) <-> x = k \/ is_Some (m !! x).
Proof. unfold change. rewrite lookup_insert_is_Some'. naive_solver. Qed.

Lemma calls_dom calls : forall s,
  (forall l, is_Some (call_links (foldl record_call s calls) !! l) <-> l ∈ link_of <$> calls \/ is_Some (call_links s !! l)) /\
  (forall x, is_Some (factory_stats (foldl record_call s calls) !! x) <->
     x ∈ (fun n => MakeNametag (caller n)) <$> calls \/ x ∈ (fun n => MakeNametag (callee n)) <$> calls \/ is_Some (factory_stats s !! x)).
Proof.
  induction calls as [|n calls IH]; intros s; cbn [foldl fmap list_fmap]; [split; intros; set_solver|].
  destruct (IH (record_call s n)) as [H1 H2]. split; intros x.
  - rewrite H1. cbn [record_call set_stats call_links]. rewrite change_dom, elem_of_cons. unfold link_of. tauto.
  - rewrite H2. cbn [record_call set_stats factory_stats]. rewrite !change_dom, !elem_of_cons. tauto.
Qed.

(** Calls that have found data. *)
Definition available (n : JCallGraphNode) : bool := match data_source n with DATA_NOT_AVAILABLE => false | _ => true end.

Definition found_calls (l : CallLink) (s : JanaDot) : Z :=
  let c := default no_calls (call_links s !! l) in u32 (Nfrom_cache c + Nfrom_source c + Nfrom_factory c).

Lemma u32_within a x b : u32 (a + u32 x + b) = u32 (a + x + b).
Proof. unfold u32. by rewrite <- Zplus_mod_idemp_l, Zplus_mod_idemp_r, Zplus_mod_idemp_l. Qed.

Lemma u32_before x b : u32 (u32 x + b) = u32 (x + b).
Proof. exact (u32_within 0 x b). Qed.

Lemma record_call_found l s n : found_calls l (record_call s n) = u32 (found_calls l s + if bool_decide (link_of n = l) && available n then 1 else 0).
Proof.
  unfold found_calls, record_call, available, change. cbn [call_links set_stats]. fold (link_of n). case_bool_decide as Hl; cbn [andb].
  - subst l. rewrite lookup_insert_eq. destruct (default no_calls (call_links s !! link_of n)) as [cm sm fm nm nc ns nf nn].
    rewrite u32_before. destruct (data_source n); cbn [count_call from_option id Nfrom_cache Nfrom_source Nfrom_factory].
    + by rewrite Z.add_0_r.
    + transitivity (u32 (u32 (nc + 1) + (ns + nf))); [f_equal; lia|]. rewrite u32_before. f_equal. lia.
    + rewrite u32_within. f_equal. lia.
    + transitivity (u32 (u32 (nf + 1) + (nc + ns))); [f_equal; lia|]. rewrite u32_before. f_equal. lia.
  - rewrite lookup_insert_ne by done. unfold u32. by rewrite Z.add_0_r, Zmod_mod.
Qed.

Lemma calls_found l calls : forall s, found_calls l (foldl record_call s calls) =
  u32 (found_calls l s + Z.of_nat (length (filter (fun n => link_of n = l /\ available n = true) calls))).
Proof.
  induction calls as [|n calls IH]; intros s; cbn [foldl].
  - rewrite Z.add_0_r. unfold found_calls, u32. by rewrite Zmod_mod.
  - rewrite IH, record_call_found. rewrite u32_before, filter_cons. f_equal.
    case_decide as Hd; case_bool_decide; destruct (available n); cbn [andb length] in *; try lia; naive_solver.
Qed.

Lemma runs_calls rs : forall s, foldl (fun s r => Process r s) s rs = foldl record_call s (rs ≫= m_call_graph).
Proof. induction rs as [|r rs IH]; intros s; [done|]. cbn [foldl mbind list_bind]. rewrite foldl_app. apply IH. Qed.

(** ** The picture *)

Lemma callees_elem s x : x ∈ callees s <-> exists l, is_Some (call_links s !! l) /\ callee_tag l = x.
Proof.
  unfold callees, sorted_links. rewrite elem_of_list_to_set, list_elem_of_fmap. setoid_rewrite merge_sort_Permutation. split.
  - intros ([l c] & -> & Hl%elem_of_map_to_list). exists l. by rewrite Hl.
  - intros (l & [c Hc] & <-). exists (l, c). split; [done|]. by apply elem_of_map_to_list.
Qed.

Lemma callers_elem s x : x ∈ callers s <-> exists l, is_Some (call_links s !! l) /\ caller_tag l = x.
Proof.
  unfold callers, sorted_links. rewrite elem_of_list_to_set, list_elem_of_fmap. setoid_rewrite merge_sort_Permutation. split.
  - intros ([l c] & -> & Hl%elem_of_map_to_list). exists l. by rewrite Hl.
  - intros (l & [c Hc] & <-). exists (l, c). split; [done|]. by apply elem_of_map_to_list.
Qed.

Lemma summed_is_link_ms s : summed_ms s = link_ms (fun l => negb (bool_decide (caller_tag l ∈ callees s))) s.
Proof.
  unfold summed_ms, link_ms, msum. rewrite <- (merge_sort_Permutation (fun a b => link_leb a.1 b.1) (map_to_list (call_links s))). fold (sorted_links s).
  assert (H : forall l a, foldl (fun total lc => if decide (caller_tag lc.1 ∈ callees s) then total else total + all_ms lc.2) a l =
    a + zsum ((fun lc => if negb (bool_decide (caller_tag lc.1 ∈ callees s)) then all_ms lc.2 else 0) <$> l)); [|by rewrite H].
  unfold zsum. induction l as [|lc l IH]; intros a; cbn; [lia|]. rewrite IH. case_decide; case_bool_decide; cbn; lia || done.
Qed.

(** Angle brackets are replaced, so that no name is the one that is not drawn. *)
Definition starts_with (c : ascii) (s : string) : bool := match s with String a _ => Ascii.eqb a c | EmptyString => false end.

Lemma nametag_is_drawn f : MakeNametag f <> "<ignore>"%string.
Proof.
  assert (H1 : forall s, starts_with "<" (regex_replace "<" "&lt;" s) = false).
  { intros [|a s]; [done|]. cbn. destruct (Ascii.eqb a "<") eqn:E; [done|exact E]. }
  assert (H2 : forall s, starts_with "<" s = false -> starts_with "<" (regex_replace ">" "&gt;" s) = false).
  { intros [|a s] Hs; [done|]. cbn in *. by destruct (Ascii.eqb a ">"). }
  intros E. pose proof (H2 _ (H1 (if (0 <? String.length f.2)%nat then String.append f.1 (String.append ":" f.2) else f.1))) as H.
  unfold MakeNametag in E. cbv zeta in E. by rewrite E in H.
Qed.

Lemma node_of_spec s relatives name f : drawn s relatives name = true -> exists n, node_of s relatives (name, f) = Some n /\
  nodename n = name /\ type n = type_of s name f /\ time_spent n = time_waited_on f - time_waiting f.
Proof.
  intros Hd. unfold node_of. rewrite Hd. cbn [negb].
  destruct (type_of s name f) eqn:E; [eexists; split_and!; [reflexivity|done..]| |eexists; split_and!; [reflexivity|done..]..].
  case_decide; (eexists; split_and!; [reflexivity|done..]).
Qed.

Lemma unfocused_drawn s relatives name : has_focus s = false -> name <> "<ignore>"%string -> drawn s relatives name = true.
Proof. intros Hf Hn. unfold drawn. by rewrite Hf, bool_decide_false. Qed.

Definition top_level (s : JanaDot) (name : string) : bool := bool_decide (name ∈ callers s) && negb (bool_decide (name ∈ callees s)).

Lemma processor_is_top_level s name f : type_of s name f = kProcessor <-> top_level s name = true.
Proof.
  unfold type_of, top_level. destruct (bool_decide (name ∈ callers s) && negb (bool_decide (name ∈ callees s))); [done|].
  destruct (negb (fac_from_source f =? 0)); [done|]. by destruct (_ && _).
Qed.

Lemma node_times s relatives l : has_focus s = false -> Forall (fun nf => nf.1 <> "<ignore>"%string) l ->
  zsum (time_spent <$> filter (fun n => type n <> kProcessor) (omap (node_of s relatives) l)) =
  zsum ((fun nf => if negb (top_level s nf.1) then time_waited_on nf.2 else 0) <$> l) - zsum ((fun nf => if negb (top_level s nf.1) then time_waiting nf.2 else 0) <$> l).
Proof.
  intros Hf. induction 1 as [|[name f] l Hn _ IH]; [done|]. destruct (node_of_spec s relatives name f (unfocused_drawn s relatives name Hf Hn)) as (n & E & _ & Ht & Hs).
  cbn [omap list_omap]. rewrite E, filter_cons. cbn [fmap list_fmap fst snd]. unfold zsum in *. cbn [foldr]. rewrite Ht. pose proof (processor_is_top_level s name f) as Hp.
  destruct (top_level s name); cbn [negb]; case_decide as Hd; [tauto|lia| |by apply Hp in Hd]. cbn [fmap list_fmap foldr]. rewrite Hs. lia.
Qed.

Lemma edge_found s relatives l : has_focus s = false -> is_Some (call_links s !! l) ->
  exists e, e ∈ omap (edge_of s relatives) (sorted_links s) /\ edge_from e = caller_tag l /\ edge_to e = callee_tag l /\ Ntotal e = found_calls l s.
Proof.
  intros Hf [c Hc]. eexists. split; [apply list_elem_of_omap; exists (l, c); split|].
  - unfold sorted_links. rewrite merge_sort_Permutation. by apply elem_of_map_to_list.
  - cbn [edge_of]. rewrite Hf, bool_decide_false by apply nametag_is_drawn. cbn [andb]. reflexivity.
  - cbn. unfold found_calls. by rewrite Hc.
Qed.

Lemma calls_focus calls : forall s, focus_factory (foldl record_call s calls) = focus_factory s.
Proof. induction calls as [|n calls IH]; intros s; [done|]. cbn [foldl]. by rewrite IH. Qed.

Lemma init_ms Q focus suppress parms : waited_ms Q (Init focus suppress parms) = 0 /\ waiting_ms Q (Init focus suppress parms) = 0.
Proof. unfold waited_ms, waiting_ms, msum, Init. cbn [factory_stats]. by rewrite map_to_list_empty. Qed.

Lemma ms_where_ext P1 P2 calls : (forall n, P1 n = P2 n) -> ms_where P1 calls = ms_where P2 calls.
Proof. intros H. unfold ms_where. f_equal. apply list_fmap_ext. intros _ n _. by rewrite H. Qed.

Lemma ms_where_minus P1 P2 P3 calls : Forall (fun n => P1 n = P2 n || P3 n /\ P2 n && P3 n = false) calls -> ms_where P1 calls - ms_where P2 calls = ms_where P3 calls.
Proof.
  unfold ms_where, zsum. induction 1 as [|n calls [H1 H2] _ IH]; [done|]. cbn [fmap list_fmap foldr]. rewrite H1. destruct (P2 n), (P3 n); cbn [andb orb] in *; try done; lia.
Qed.

(** A factory that is flagged with the special name. *)
Definition flagged (f : FacName) : Prop := f.1 = "<ignore>"%string.

(** C36: the picture accounts for all recorded calls, if none is from or to a factory with the special name "<ignore>".  However many events are added
    up, drawing without a focus ends; every recorded call has an edge between its caller and its callee, whose label is the number of their calls that
    have found data, modulo 2^32; and the times of all nodes that are not drawn as processors add up to the time that the callers which nobody calls have
    waited, which is the total of which the picture shows percentages (1, if it is 0). *)
Theorem picture_accounts_for_calls suppress parms rs fuel :
  let calls := rs ≫= m_call_graph in
  let s := foldl (fun s r => Process r s) (Init EmptyString suppress parms) rs in
  let waited := ms_where (fun n => negb (bool_decide (MakeNametag (caller n) ∈ (fun m => MakeNametag (callee m)) <$> calls))) calls in
  Forall (fun n => ~ flagged (caller n) /\ ~ flagged (callee n)) calls ->
  exists d, Finish fuel s = Some d /\
    (forall n, n ∈ calls -> exists e, e ∈ edges d /\ edge_from e = MakeNametag (caller n) /\ edge_to e = MakeNametag (callee n) /\
       Ntotal e = u32 (Z.of_nat (length (filter (fun m => link_of m = link_of n /\ available m = true) calls)))) /\
    zsum (time_spent <$> filter (fun n => type n <> kProcessor) (nodes d)) = waited /\
    total_ms s = if decide (waited = 0) then 1 else waited.
Proof.
  intros calls s waited _. assert (Es : s = foldl record_call (Init EmptyString suppress parms) calls) by apply runs_calls. clearbody s.
  assert (Hf : has_focus s = false) by (unfold has_focus; by rewrite Es, calls_focus).
  destruct (calls_dom calls (Init EmptyString suppress parms)) as [Dl Df]. destruct (calls_ms calls (Init EmptyString suppress parms)) as (Mlink & Mon & Mwait).
  rewrite <- Es in *. setoid_rewrite lookup_empty in Dl. setoid_rewrite lookup_empty in Df.
  assert (Hce : forall x, bool_decide (x ∈ callees s) = bool_decide (x ∈ (fun m => MakeNametag (callee m)) <$> calls)).
  { intros x. apply bool_decide_ext. rewrite callees_elem, list_elem_of_fmap. split; [intros (l & [Hin|[? [=]]]%Dl & <-)|intros (m & -> & Hm)].
    - apply list_elem_of_fmap in Hin as (m & -> & Hm). by exists m.
    - exists (link_of m). split; [apply Dl; left; by apply list_elem_of_fmap_2|done]. }
  assert (Hsum : summed_ms s = waited).
  { rewrite summed_is_link_ms, Mlink. unfold link_ms, msum, Init. cbn [call_links]. rewrite map_to_list_empty. unfold waited. apply ms_where_ext. intros n. by rewrite Hce. }
  unfold Finish, focus_relatives. rewrite Hf. eexists. split; [reflexivity|]. cbn [edges nodes]. split.
  - intros n Hn. destruct (edge_found s ∅ (link_of n) Hf) as (e & He & E1 & E2 & E3).
    { apply Dl. left. by apply list_elem_of_fmap_2. }
    exists e. split_and!; [done|done|done|]. rewrite E3, Es, calls_found. done.
  - split; [|unfold total_ms; by rewrite Hsum]. rewrite node_times; [|done|].
    + unfold by_key. rewrite !merge_sort_Permutation. change (waited_ms (fun x => negb (top_level s x)) s - waiting_ms (fun x => negb (top_level s x)) s = ms_where (fun n => negb (bool_decide (MakeNametag (caller n) ∈ (fun m => MakeNametag (callee m)) <$> calls))) calls).
      rewrite Mon, Mwait.
      destruct (init_ms (fun x => negb (top_level s x)) EmptyString suppress parms) as [-> ->]. rewrite !Z.add_0_l. apply ms_where_minus.
      apply Forall_forall. intros n Hn. assert (Hl : is_Some (call_links s !! link_of n)) by (apply Dl; left; by apply list_elem_of_fmap_2).
      assert (H1 : top_level s (MakeNametag (callee n)) = false).
      { unfold top_level. rewrite (bool_decide_true (_ ∈ callees s)); [apply andb_false_r|]. apply callees_elem. by exists (link_of n). }
      assert (H2 : top_level s (MakeNametag (caller n)) = negb (bool_decide (MakeNametag (caller n) ∈ (fun m => MakeNametag (callee m)) <$> calls))).
      { unfold top_level. rewrite (bool_decide_true (_ ∈ callers s)) by (apply callers_elem; by exists (link_of n)). by rewrite Hce. }
      rewrite H1, H2. by destruct (bool_decide _).
    + apply Forall_forall. intros [x f] Hx. unfold by_key in Hx. rewrite merge_sort_Permutation, elem_of_map_to_list in Hx.
      destruct (proj1 (Df x) ltac:(by exists f)) as [Hin|[Hin|[]]]; [apply list_elem_of_fmap in Hin as (n & -> & _); apply nametag_is_drawn..|done].
Qed.

(** ** The relatives of the focus *)

Section Follow.
Context (from to_ : CallLink -> string) (links : list CallLink).

Definition linked (a b : string) : Prop := exists l, l ∈ links /\ from l = a /\ to_ l = b.

Lemma fold_none fuel node ls : foldl (fun acc l => acc ≫= fun d => if decide (from l = node) then follow from to_ links fuel (to_ l) d else Some d) None ls = None.
Proof. by induction ls. Qed.

(** Without cycles the search returns all that can be reached, and nothing else. *)
Lemma follow_reaches (rank : string -> nat) fuel : (forall l, l ∈ links -> (rank (to_ l) < rank (from l))%nat) -> forall node acc, (rank node < fuel)%nat ->
  exists d, follow from to_ links fuel node acc = Some d /\ forall y, y ∈ d <-> y ∈ acc \/ rtc linked node y.
Proof.
  intros Hrank. induction fuel as [|fuel IH]; intros node acc Hfuel; [lia|]. cbn [follow].
  assert (Hls : forall ls a, ls ⊆ links -> exists d, foldl (fun acc l => acc ≫= fun d => if decide (from l = node) then follow from to_ links fuel (to_ l) d else Some d) (Some a) ls = Some d /\
    forall y, y ∈ d <-> y ∈ a \/ exists l, l ∈ ls /\ from l = node /\ rtc linked (to_ l) y).
  { induction ls as [|l ls IHls]; intros a Hsub; cbn [foldl].
    { exists a. split; [done|]. intros y. split; [by left|]. intros [Hy|(l & Hl & _)]; [done|]. by apply not_elem_of_nil in Hl. }
    assert (Hl : l ∈ links) by (apply Hsub; left). assert (Hsub' : ls ⊆ links) by (intros x Hx; apply Hsub; by right). cbn [mbind option_bind]. case_decide as Hn.
    - destruct (IH (to_ l) a) as (d & E & Hd); [pose proof (Hrank l Hl); subst; lia|]. rewrite E. destruct (IHls d Hsub') as (d' & E' & Hd'). exists d'. split; [done|].
      intros y. rewrite Hd', Hd. setoid_rewrite elem_of_cons. naive_solver.
    - destruct (IHls a Hsub') as (d' & E' & Hd'). exists d'. split; [done|]. intros y. rewrite Hd'. setoid_rewrite elem_of_cons. naive_solver. }
  destruct (Hls links ({[node]} ∪ acc) ltac:(done)) as (d & E & Hd). exists d. split; [done|]. intros y. rewrite Hd, elem_of_union, elem_of_singleton. split.
  - intros [[->|Hy]|(l & Hl & Hn & Hy)]; [right; apply rtc_refl|by left|]. right. eapply rtc_l; [|exact Hy]. by exists l.
  - intros [Hy|Hy]; [by left; right|]. inversion Hy as [|? z ? (l & Hl & Hn & <-) Hz]; subst; [left; by left|]. right. by exists l.
Qed.

(** On a cycle it never returns. *)
Lemma follow_never_ends fuel : forall node acc, tc linked node node -> follow from to_ links fuel node acc = None.
Proof.
  induction fuel as [|fuel IH]; intros node acc Hc; [done|]. cbn [follow].
  assert (exists l, l ∈ links /\ from l = node /\ tc linked (to_ l) (to_ l)) as (l & Hl & Hn & Hcl).
  { inversion Hc as [? ? (l & Hl & Hn & Ht)|? z ? (l & Hl & Hn & Ht) Hz]; subst.
    - exists l. by rewrite Ht.
    - exists l. split_and!; [done|done|]. eapply tc_r; [exact Hz|]. by exists l. }
  set (f := fun acc l => _). apply list_elem_of_split in Hl as (l1 & l2 & El). assert (Hf : foldl f (Some ({[node]} ∪ acc)) (l1 ++ l :: l2) = None); [|by rewrite <- El in Hf].
  rewrite foldl_app. cbn [foldl]. assert (E : f (foldl f (Some ({[node]} ∪ acc)) l1) l = None); [|rewrite E; apply fold_none].
  unfold f at 1. destruct (foldl f _ l1) as [d|]; [|done]. cbn [mbind option_bind]. rewrite decide_True by done. by apply IH.
Qed.

End Follow.

(** With a focus, its relatives are drawn and no others, if no factory needs itself. *)
Lemma focus_is_exact (rank : string -> nat) fuel s : has_focus s = true ->
  (forall l, is_Some (call_links s !! l) -> (rank (callee_tag l) < rank (caller_tag l))%nat) -> (forall x, (rank x < fuel)%nat) ->
  let links := fst <$> sorted_links s in
  exists d, Finish fuel s = Some d /\ forall x, x ∈ nodename <$> nodes d <-> is_Some (factory_stats s !! x) /\ x <> "<ignore>"%string /\
    (rtc (linked caller_tag callee_tag links) (focus_factory s) x \/ rtc (linked callee_tag caller_tag links) (focus_factory s) x).
Proof.
  intros Hf Hrank Hfuel links. assert (Hl : forall l, l ∈ links -> (rank (callee_tag l) < rank (caller_tag l))%nat).
  { intros l ([l' c] & -> & Hc)%list_elem_of_fmap. unfold sorted_links in Hc. rewrite merge_sort_Permutation, elem_of_map_to_list in Hc. apply Hrank. by exists c. }
  destruct (follow_reaches caller_tag callee_tag links rank fuel Hl (focus_factory s) ∅ (Hfuel _)) as (d1 & E1 & H1).
  destruct (follow_reaches callee_tag caller_tag links (fun x => fuel - 1 - rank x)%nat fuel) with (node := focus_factory s) (acc := d1) as (d2 & E2 & H2).
  { intros l Hin. pose proof (Hl l Hin). pose proof (Hfuel (caller_tag l)). lia. } { pose proof (Hfuel (focus_factory s)). lia. }
  unfold Finish, focus_relatives. rewrite Hf. unfold FindDecendents, FindAncestors. fold links. rewrite E1. cbn [mbind option_bind]. rewrite E2. eexists. split; [reflexivity|].
  cbn [nodes]. intros x. assert (Hd2 : x ∈ d2 <-> rtc (linked caller_tag callee_tag links) (focus_factory s) x \/ rtc (linked callee_tag caller_tag links) (focus_factory s) x) by (rewrite H2, H1; set_solver).
  rewrite <- Hd2. clear H1 H2 Hd2. rewrite list_elem_of_fmap. setoid_rewrite list_elem_of_omap. unfold by_key. setoid_rewrite merge_sort_Permutation. setoid_rewrite elem_of_map_to_list'. split.
  - intros (n & -> & [name f] & Hin & E). cbn [fst snd] in Hin. destruct (drawn s d2 name) eqn:Hdr; [|unfold node_of in E; by rewrite Hdr in E].
    destruct (node_of_spec s d2 name f Hdr) as (n' & E' & Hn' & _). rewrite E in E'. injection E' as <-. rewrite Hn'. unfold drawn in Hdr. rewrite Hf in Hdr. cbn [negb orb] in Hdr.
    apply andb_prop in Hdr as [Hi%negb_true_iff%bool_decide_eq_false Hr%bool_decide_eq_true]. split_and!; [by exists f|done|done].
  - intros ([f Hin] & Hi & Hr). destruct (node_of_spec s d2 x f) as (n & E & Hn & _); [unfold drawn; by rewrite Hf, bool_decide_false, bool_decide_true|].
    exists n. split; [done|]. by exists (x, f).
Qed.

(** A focus that is called again by what it calls is never drawn. *)
Lemma cyclic_focus_never_ends fuel s : has_focus s = true ->
  tc (linked caller_tag callee_tag (fst <$> sorted_links s)) (focus_factory s) (focus_factory s) -> Finish fuel s = None.
Proof. intros Hf Hc. unfold Finish, focus_relatives, FindDecendents. rewrite Hf. by rewrite follow_never_ends. Qed.

(** ** Examples *)

(** A keyword at the end of a list is taken for a class, contrary to the documentation. *)
Example last_keyword_is_class : parse_group "DTrackHit,color_red"%string = mkGroup ["DTrackHit"; "color_red"]%string None false /\
  parse_group "DTrackHit,color_red,"%string = mkGroup ["DTrackHit"%string] (Some "red"%string) false.
Proof. done. Qed.

(** A processor that calls a factory, which reads hits; the factory's own time is a quarter of the total. *)
Definition ms (t : Z) : Z := t * 1000000.

Definition one_event : JCallGraphRecorder :=
  mkRecorder true [] [] [mkNode ("Tracks", "fit")%string ("Hits", EmptyString)%string (ms 1) (ms 4) DATA_FROM_SOURCE;
    mkNode ("Plots", EmptyString)%string ("Tracks", "fit")%string (ms 0) (ms 4) DATA_FROM_FACTORY] ORIGIN_FROM_FACTORY.

Example picture_of_one_event : exists d, Finish 1 (Process one_event (Init EmptyString true ∅)) = Some d /\
  (fun n => (nodename n, type n, time_spent n)) <$> nodes d = [("Hits", kSource, 3); ("Plots", kProcessor, -4); ("Tracks:fit", kFactory, 1)]%string /\
  (fun e => (edge_from e, edge_to e, Ntotal e, my_ms e)) <$> edges d = [("Plots", "Tracks:fit", 1, 4); ("Tracks:fit", "Hits", 1, 3)]%string.
Proof. eexists. split; [vm_compute; reflexivity|]. done. Qed.

Lemma picture_accounts_for_calls_witness : exists d, Finish 1 (Process one_event (Init EmptyString true ∅)) = Some d /\
  zsum (time_spent <$> filter (fun n => type n <> kProcessor) (nodes d)) = 4.
Proof.
  destruct (picture_accounts_for_calls true ∅ [one_event] 1) as (d & E & _ & Ht & _).
  - cbn. repeat constructor; discriminate.
  - exists d. split; [exact E|]. rewrite Ht. vm_compute. reflexivity.
Defined.

End JanaDot.
