(* ===== verification/JPool.v ===== *)
(** * JPool: the recycling pool that events come from and return to

    Model of [src/src/libraries/JANA/Topology/JPool.h].  A pool owns, per location, a
    contiguous array of items and a stack of pointers to the ones that are free.
    Pointers are addresses (type [Z], with [nullptr] as 0), because [put] decides
    where an item belongs by comparing its address with the bounds of each array.
    The class [Item] has what a pool needs of its items; the addresses that [new]
    returns are an argument of the operations that allocate.  Each operation holds the mutex of the
    local pool that it changes, so it is one atomic step. *)

From S2P Require Import Prelude.
Local Open Scope Z_scope.

Module Pool.

Record LocalPool := mkLocalPool {
  items_base : Z;              (* &items[0] *)
  available_items : list Z
}.

Record JPool (T : Type) := mkJPool {
  m_pool_size : nat;
  m_location_count : nat;
  m_limit_total_events_in_flight : bool;
  m_pools : option (list LocalPool);    (* null until init() *)
  store : gmap Z T                      (* the objects that are alive *)
}.
Arguments mkJPool {T} _ _ _ _ _.
Arguments m_pool_size {T} _.
Arguments m_location_count {T} _.
Arguments m_limit_total_events_in_flight {T} _.
Arguments m_pools {T} _.
Arguments store {T} _.

(** [back()] and [pop_back()] of a [std::vector]. *)
Definition pop_back {A} (l : list A) : option (A * list A) :=
  match last l with
  | Some x => Some (x, take (length l - 1) l)
  | None => None
  end.

(** What a pool needs of its items: their size, the default constructor, and the two
    virtual functions of [JPool] that a subclass overrides. *)
Class Item (T : Type) := {
  sizeof : Z;
  default_T : T;
  configure_item : T -> T;
  release_item : T -> T
}.
Arguments sizeof T {_}.

(** What the pool promises of a free item, provided that both functions establish it. *)
Class ItemLaws (T : Type) `{Item T} := {
  clean : T -> Prop;
  sizeof_pos : 0 < sizeof T;
  configure_clean : clean (configure_item default_T);
  release_clean : forall v, clean (release_item v)
}.

(** [&items[i]] for every [i] of an array whose elements have size [sz]. *)
Definition slots (sz base : Z) (n : nat) : list Z :=
  (fun i => base + Z.of_nat i * sz) <$> seq 0 n.

(** [item >= &pool.items[0] && item <= &pool.items[m_pool_size-1]]. *)
Definition in_range (sz : Z) (n : nat) (pool : LocalPool) (item : Z) : bool :=
  (items_base pool <=? item) && (item <=? items_base pool + (Z.of_nat n - 1) * sz).

Section Operations.
Context {T : Type} {IT : Item T}.
Implicit Types (p : JPool T) (pool : LocalPool).

(** The constructor, with its two assertions. *)
Definition make (pool_size location_count : nat) (limit : bool) : outcome (JPool T) :=
  _ ← assertb (1 <=? Z.of_nat location_count);
  _ ← assertb ((0 <? Z.of_nat pool_size) || negb limit);
  Ok (mkJPool pool_size location_count limit None ∅).

(** [init()]: [bases] are the addresses of the arrays that the vectors allocate. *)
Definition init (bases : list Z) p : JPool T :=
  let bases := take (m_location_count p) bases in
  let pools := (fun base => mkLocalPool base (slots (sizeof T) base (m_pool_size p))) <$> bases in
  let objects := concat (available_items <$> pools) in
  mkJPool (m_pool_size p) (m_location_count p) (m_limit_total_events_in_flight p) (Some pools)
    (list_to_map ((fun x => (x, configure_item default_T)) <$> objects)).

Definition set_pool (j : nat) pool (pools : list LocalPool) p : JPool T :=
  mkJPool (m_pool_size p) (m_location_count p) (m_limit_total_events_in_flight p)
    (Some (<[j := pool]> pools)) (store p).

Definition set_store (st : gmap Z T) p : JPool T :=
  mkJPool (m_pool_size p) (m_location_count p) (m_limit_total_events_in_flight p) (m_pools p) st.

(** [auto t = new T; configure_item(t);] at address [a]. *)
Definition new_item (a : Z) p : JPool T :=
  set_store (<[a := configure_item default_T]> (store p)) p.

(** [m_pools[location % m_location_count]], after the assertion that [init] was called. *)
Definition local_pool p (location : nat) : outcome (list LocalPool * nat * LocalPool) :=
  match m_pools p with
  | None => Undef
  | Some pools =>
      let j := (location mod m_location_count p)%nat in
      match pools !! j with
      | Some pool => Ok (pools, j, pool)
      | None => Undef
      end
  end.

Definition get p (location : nat) (fresh : Z) : outcome (option Z * JPool T) :=
  l ← local_pool p location;
  let '(pools, j, pool) := l in
  match pop_back (available_items pool) with
  | None =>
      if m_limit_total_events_in_flight p then Ok (None, p)
      else Ok (Some fresh, new_item fresh p)
  | Some (item, rest) =>
      Ok (Some item, set_pool j (mkLocalPool (items_base pool) rest) pools p)
  end.

(** The loop over the locations in [put], starting with the current one. *)
Fixpoint put_loop (fuel l : nat) (item : Z) (pools : list LocalPool) p : outcome (JPool T) :=
  match fuel with
  | O => Ok (set_store (base.delete item (store p)) p)          (* delete item *)
  | S fuel' =>
      let j := (l mod m_location_count p)%nat in
      match pools !! j with
      | None => Undef
      | Some pool =>
          if in_range (sizeof T) (m_pool_size p) pool item then
            Ok (set_pool j (mkLocalPool (items_base pool) (available_items pool ++ [item])) pools p)
          else put_loop fuel' (S l) item pools p
      end
  end.

(** [put]: taking the address of an element of an empty [items] is undefined, and so is
    putting an item that is not alive. *)
Definition put p (item : Z) (location : nat) : outcome (JPool T) :=
  match m_pools p, store p !! item with
  | Some pools, Some v =>
      let p := set_store (<[item := release_item v]> (store p)) p in
      if (m_pool_size p =? 0)%nat then Undef
      else put_loop (m_location_count p) location item pools p
  | _, _ => Undef
  end.

(** Move [n] items from the back of the stack into [dest[i...]]. *)
Fixpoint pop_items (n i : nat) (dest avail : list Z) : outcome (list Z * list Z) :=
  match n with
  | O => Ok (dest, avail)
  | S n' =>
      match pop_back avail with
      | Some (t, rest) =>
          if decide (i < length dest)%nat then pop_items n' (S i) (<[i := t]> dest) rest else Undef
      | None => Undef
      end
  end.

(** Allocate [n] items into [dest[i...]]. *)
Fixpoint alloc_items (n i : nat) (dest fresh : list Z) p : outcome (list Z * JPool T) :=
  match n with
  | O => Ok (dest, p)
  | S n' =>
      match fresh with
      | a :: fresh' =>
          if decide (i < length dest)%nat
          then alloc_items n' (S i) (<[i := a]> dest) fresh' (new_item a p) else Undef
      | [] => Undef
      end
  end.

(** [pop(dest, min_count, max_count, location)]: the number of items written and [dest]. *)
Definition pop p (dest : list Z) (min_count max_count : Z) (location : nat) (fresh : list Z)
    : outcome ((Z * list Z) * JPool T) :=
  l ← local_pool p location;
  let '(pools, j, pool) := l in
  let available_count := sizeZ (available_items pool) in
  if m_limit_total_events_in_flight p && (available_count <? min_count) then Ok ((0, dest), p)
  else
    let count := Z.min available_count max_count in
    r ← pop_items (Z.to_nat count) 0 dest (available_items pool);
    let p := set_pool j (mkLocalPool (items_base pool) r.2) pools p in
    if m_limit_total_events_in_flight p then Ok ((count, r.1), p)
    else
      w ← alloc_items (Z.to_nat (min_count - count)) (Z.to_nat count) r.1 fresh p;
      Ok ((Z.max count min_count, w.1), w.2).

(** [push(source, count, location)]. *)
Fixpoint push_loop (n i : nat) (source : list Z) (location : nat) p : outcome (list Z * JPool T) :=
  match n with
  | O => Ok (source, p)
  | S n' =>
      match source !! i with
      | Some item => p' ← put p item location; push_loop n' (S i) (<[i := 0]> source) location p'
      | None => Undef
      end
  end.

Definition push p (source : list Z) (count : Z) (location : nat) : outcome (list Z * JPool T) :=
  push_loop (Z.to_nat count) 0 source location p.

(** The two loops of [get_many]: first from the stack, then from the heap. *)
Fixpoint get_many_loop (count : nat) (dest avail fresh : list Z) p
    : outcome (list Z * list Z * JPool T) :=
  match count with
  | O => Ok (dest, avail, p)
  | S count' =>
      match pop_back avail, fresh with
      | Some (t, rest), _ => get_many_loop count' (dest ++ [t]) rest fresh p
      | None, a :: fresh' => get_many_loop count' (dest ++ [a]) avail fresh' (new_item a p)
      | None, [] => Undef
      end
  end.

(** [get_many(dest, count, location)]: [dest] grows at the back. *)
Definition get_many p (dest : list Z) (count : Z) (location : nat) (fresh : list Z)
    : outcome ((bool * list Z) * JPool T) :=
  l ← local_pool p location;
  let '(pools, j, pool) := l in
  if m_limit_total_events_in_flight p && (sizeZ (available_items pool) <? count)
  then Ok ((false, dest), p)
  else
    r ← get_many_loop (Z.to_nat count) dest (available_items pool) fresh p;
    let '(dest, avail, p) := r in
    Ok ((true, dest), set_pool j (mkLocalPool (items_base pool) avail) pools p).

(** [put_many(finished_events, location)]. *)
Fixpoint put_many p (finished_events : list Z) (location : nat) : outcome (JPool T) :=
  match finished_events with
  | [] => Ok p
  | item :: rest => p' ← put p item location; put_many p' rest location
  end.

End Operations.

(** ** Facts about stacks and arrays *)

Lemma pop_back_Some {A} (l : list A) x rest :
  pop_back l = Some (x, rest) -> l = rest ++ [x].
Proof.
  unfold pop_back. destruct (last l) as [y|] eqn:Hl; [|done]. intros [= -> <-].
  apply last_Some in Hl as [l' ->].
  by rewrite length_app, Nat.add_sub, take_app_length.
Qed.

Lemma pop_back_None {A} (l : list A) : pop_back l = None -> l = [].
Proof. unfold pop_back. destruct (last l) eqn:Hl; [done|]. by apply last_None in Hl. Qed.

Lemma pop_items_inv n : forall i dest avail d a,
  pop_items n i dest avail = Ok (d, a) ->
  take i d = take i dest /\ length d = length dest /\
  avail ≡ₚ take n (drop i d) ++ a /\ (exists taken, avail = a ++ taken).
Proof.
  induction n as [|n IH]; intros i dest avail d a; simpl.
  - intros [= <- <-]. repeat split; try done. exists []. by rewrite app_nil_r.
  - destruct (pop_back avail) as [[t rest]|] eqn:Hp; [|done].
    apply pop_back_Some in Hp as ->. case_decide as Hi; [|done].
    intros (Ht & Hl & Hperm & taken & ->)%IH.
    rewrite length_insert in Hl.
    assert (Hdi : d !! i = Some t).
    { rewrite <- (lookup_take_lt d (S i) i), Ht, lookup_take_lt by lia.
      by apply list_lookup_insert_eq. }
    repeat split; [|done| |by exists (taken ++ [t]); rewrite app_assoc].
    + apply (f_equal (take i)) in Ht. rewrite !take_take, !Nat.min_l in Ht by lia.
      by rewrite take_insert_ge in Ht.
    + rewrite (drop_S d t i Hdi). simpl. rewrite Hperm. solve_Permutation.
Qed.

(** ** Conservation: no item is lost, duplicated or handed out twice *)

Definition all_slots (sz : Z) (n : nat) (pools : list LocalPool) : list Z :=
  concat ((fun pool => slots sz (items_base pool) n) <$> pools).

Definition all_available (pools : list LocalPool) : list Z := concat (available_items <$> pools).

(** The arrays of two locations do not overlap. *)
Definition disjoint_arrays (sz : Z) (n : nat) (pools : list LocalPool) : Prop :=
  forall j k pj pk, j <> k -> pools !! j = Some pj -> pools !! k = Some pk ->
    items_base pj + Z.of_nat n * sz <= items_base pk \/
    items_base pk + Z.of_nat n * sz <= items_base pj.

Section Conservation.
Context {T : Type} {IT : Item T} {IL : ItemLaws T}.
Implicit Types (p : JPool T) (pools : list LocalPool).
Abbreviation all_slots := (all_slots (sizeof T)).
Abbreviation disjoint_arrays := (disjoint_arrays (sizeof T)).
Abbreviation in_range := (in_range (sizeof T)).

(** [out] are the items that clients hold, [heap] the ones that live outside the arrays. *)
Record pool_inv p pools (out heap : list Z) : Prop := {
  pi_pools : m_pools p = Some pools;
  pi_length : length pools = m_location_count p;
  pi_locations : (0 < m_location_count p)%nat;
  pi_size : (0 < m_pool_size p)%nat;
  pi_layout : disjoint_arrays (m_pool_size p) pools;
  pi_heap : forall x pool, x ∈ heap -> pool ∈ pools -> in_range (m_pool_size p) pool x = false;
  pi_home : forall pool x, pool ∈ pools -> x ∈ available_items pool ->
    x ∈ slots (sizeof T) (items_base pool) (m_pool_size p);
  pi_perm : all_available pools ++ out ≡ₚ all_slots (m_pool_size p) pools ++ heap;
  pi_nodup : NoDup (all_slots (m_pool_size p) pools ++ heap);
  pi_limit : m_limit_total_events_in_flight p = true -> heap = [];
  pi_store : forall x, x ∈ all_slots (m_pool_size p) pools ++ heap <-> is_Some (store p !! x);
  pi_clean : forall x, x ∈ all_available pools -> exists v, store p !! x = Some v /\ clean v
}.

Lemma slots_in_range n pool x :
  (0 < n)%nat -> x ∈ slots (sizeof T) (items_base pool) n -> in_range n pool x = true.
Proof.
  intros Hn (i & -> & Hi)%list_elem_of_fmap. apply elem_of_seq in Hi.
  pose proof (sizeof_pos (T:=T)) as Hpos. unfold Pool.in_range. apply andb_true_iff. rewrite !Z.leb_le. nia.
Qed.

Lemma in_range_unique n pools j k pj pk x :
  disjoint_arrays n pools -> (0 < n)%nat ->
  pools !! j = Some pj -> pools !! k = Some pk ->
  in_range n pj x = true -> in_range n pk x = true -> j = k.
Proof.
  pose proof (sizeof_pos (T:=T)) as Hpos. unfold Pool.in_range. rewrite !andb_true_iff, !Z.leb_le. intros Hd Hn Hj Hk H1 H2.
  destruct (decide (j = k)) as [|Hne]; [done|].
  destruct (Hd j k pj pk Hne Hj Hk); nia.
Qed.

Lemma all_slots_insert n pools j pool rest :
  pools !! j = Some pool ->
  all_slots n (<[j := mkLocalPool (items_base pool) rest]> pools) = all_slots n pools.
Proof.
  intros Hj. unfold all_slots. f_equal. rewrite list_fmap_insert.
  apply list_insert_id. by rewrite list_lookup_fmap, Hj.
Qed.

Lemma disjoint_arrays_insert n pools j pool rest :
  pools !! j = Some pool -> disjoint_arrays n pools ->
  disjoint_arrays n (<[j := mkLocalPool (items_base pool) rest]> pools).
Proof.
  intros Hj Hd a b pa pb Hne Ha Hb.
  assert (Hbase : forall k pk, <[j := mkLocalPool (items_base pool) rest]> pools !! k = Some pk ->
    exists pk', pools !! k = Some pk' /\ items_base pk' = items_base pk).
  { intros k pk Hk. destruct (decide (j = k)) as [->|].
    - rewrite list_lookup_insert_eq in Hk by (by eapply lookup_lt_Some). simplify_eq. eauto.
    - rewrite list_lookup_insert_ne in Hk by done. eauto. }
  destruct (Hbase _ _ Ha) as (? & Ha' & <-), (Hbase _ _ Hb) as (? & Hb' & <-). eauto.
Qed.

(** Replacing the free stack of one location, keeping the books balanced. *)
Lemma pool_inv_update p pools out heap j pool avail out' :
  pool_inv p pools out heap -> pools !! j = Some pool ->
  (forall x, x ∈ avail -> x ∈ slots (sizeof T) (items_base pool) (m_pool_size p)) ->
  avail ++ out' ≡ₚ available_items pool ++ out ->
  (forall x, x ∈ avail -> x ∈ available_items pool \/ exists v, store p !! x = Some v /\ clean v) ->
  pool_inv (set_pool j (mkLocalPool (items_base pool) avail) pools p)
    (<[j := mkLocalPool (items_base pool) avail]> pools) out' heap.
Proof.
  intros [H1 H2 H3 H4 H5 H6 H7 H8 H9 H10 H11 H12] Hj Hhome Hperm Hclean.
  destruct (concat_fmap_insert available_items pools j pool Hj) as (R & HR & HR').
  assert (Hmem : forall q, q ∈ <[j := mkLocalPool (items_base pool) avail]> pools ->
    q ∈ pools \/ q = mkLocalPool (items_base pool) avail).
  { intros q [k Hk]%list_elem_of_lookup. destruct (decide (j = k)) as [->|].
    - rewrite list_lookup_insert_eq in Hk by (by eapply lookup_lt_Some). simplify_eq. by right.
    - rewrite list_lookup_insert_ne in Hk by done. left. apply list_elem_of_lookup. eauto. }
  split; simpl; rewrite ?all_slots_insert by done; try done.
  - by rewrite length_insert.
  - by apply disjoint_arrays_insert.
  - intros x q Hx [Hq| ->]%Hmem; [by apply H6|].
    apply (H6 x pool Hx). apply list_elem_of_lookup. eauto.
  - intros q x [Hq| ->]%Hmem; [by apply H7|]. apply Hhome.
  - rewrite <- H8. unfold all_available. rewrite HR, HR'. simpl.
    rewrite <- !app_assoc, (Permutation_app_comm R), (Permutation_app_comm R), !app_assoc.
    by rewrite Hperm.
  - intros x. unfold all_available. rewrite HR'. simpl.
    intros [Hx|Hx]%elem_of_app.
    + destruct (Hclean x Hx) as [Hold|?]; [|done]. apply H12.
      unfold all_available. rewrite HR. set_solver.
    + apply H12. unfold all_available. rewrite HR. set_solver.
Qed.

Lemma local_pool_inv p pools out heap location r :
  pool_inv p pools out heap -> local_pool p location = Ok r ->
  exists j pool, r = (pools, j, pool) /\ pools !! j = Some pool.
Proof.
  intros Hinv. unfold local_pool. rewrite (pi_pools _ _ _ _ Hinv).
  case_match; [|done]. intros [= <-]. eauto.
Qed.

(** What [operator new] promises: storage that overlaps no live object. *)
Definition fresh_for p (a : Z) : Prop :=
  store p !! a = None /\
  forall pools pool, m_pools p = Some pools -> pool ∈ pools -> in_range (m_pool_size p) pool a = false.

Lemma new_item_inv p pools out heap a :
  pool_inv p pools out heap -> m_limit_total_events_in_flight p = false -> fresh_for p a ->
  pool_inv (new_item a p) pools (a :: out) (a :: heap).
Proof.
  intros [H1 H2 H3 H4 H5 H6 H7 H8 H9 H10 H11 H12] Hlim [Ha Hout].
  assert (Hnew : a ∉ all_slots (m_pool_size p) pools ++ heap)
    by (intros Hin; apply H11 in Hin as [v Hv]; congruence).
  assert (Hkeep : forall x v, store p !! x = Some v ->
    <[a := configure_item default_T]> (store p) !! x = Some v).
  { intros x v Hx. rewrite lookup_insert_ne; [done|congruence]. }
  split; simpl; try done.
  - intros x pool [->|Hx]%elem_of_cons Hpool; [by eapply Hout|by apply H6].
  - rewrite <- Permutation_middle, H8. solve_Permutation.
  - rewrite <- Permutation_middle. by apply NoDup_cons.
  - congruence.
  - intros x. rewrite lookup_insert_is_Some, <- (H11 x). set_solver.
  - intros x Hx. destruct (H12 x Hx) as (v & Hv & ?). eauto.
Qed.

Lemma get_inv p pools out heap location fresh r p' :
  pool_inv p pools out heap -> fresh_for p fresh -> get p location fresh = Ok (r, p') ->
  exists pools' heap', pool_inv p' pools' (option_list r ++ out) heap'.
Proof.
  intros Hinv Hfresh. unfold get.
  destruct (local_pool p location) as [l| |] eqn:Hl; try done. simpl.
  apply (local_pool_inv _ _ _ _ _ _ Hinv) in Hl as (j & pool & -> & Hj).
  destruct (pop_back (available_items pool)) as [[item rest]|] eqn:Hb.
  - intros [= <- <-]. apply pop_back_Some in Hb. eexists _, heap.
    apply (pool_inv_update _ _ out); try done.
    + intros x Hx. eapply pi_home; [done|apply list_elem_of_lookup; eauto|]. rewrite Hb. set_solver.
    + rewrite Hb. simpl. solve_Permutation.
    + intros x Hx. left. rewrite Hb. set_solver.
  - destruct (m_limit_total_events_in_flight p) eqn:Hlim; intros [= <- <-]; simpl; eauto.
    exists pools, (fresh :: heap). by apply new_item_inv.
Qed.

(** The loop of [put] looks at every location once. *)
Lemma put_loop_home p pools j pool item fuel : forall l,
  pools !! j = Some pool -> in_range (m_pool_size p) pool item = true ->
  length pools = m_location_count p -> (0 < m_location_count p)%nat ->
  (forall k pk, pools !! k = Some pk -> in_range (m_pool_size p) pk item = true -> k = j) ->
  (exists k, k < fuel /\ (l + k) mod m_location_count p = j)%nat ->
  put_loop fuel l item pools p =
  Ok (set_pool j (mkLocalPool (items_base pool) (available_items pool ++ [item])) pools p).
Proof.
  induction fuel as [|fuel IH]; intros l Hj Hr Hlen Hpos Huniq (k & Hk & Hmod); [lia|]. simpl.
  destruct (lookup_lt_is_Some_2 pools (l mod m_location_count p)) as [q Hq].
  { rewrite Hlen. apply Nat.mod_upper_bound. lia. }
  rewrite Hq. destruct (in_range (m_pool_size p) q item) eqn:Hrq.
  - pose proof (Huniq _ _ Hq Hrq) as Hjj. rewrite Hjj in Hq |- *. by simplify_eq.
  - apply IH; try done. destruct k as [|k].
    + rewrite Nat.add_0_r in Hmod. rewrite Hmod in Hq. congruence.
    + exists k. split; [lia|]. by rewrite Nat.add_succ_l, <- Nat.add_succ_r.
Qed.

Lemma put_loop_heap p pools item fuel : forall l,
  length pools = m_location_count p -> (0 < m_location_count p)%nat ->
  (forall pk, pk ∈ pools -> in_range (m_pool_size p) pk item = false) ->
  put_loop fuel l item pools p = Ok (set_store (base.delete item (store p)) p).
Proof.
  induction fuel as [|fuel IH]; intros l Hlen Hpos Hout; simpl; [done|].
  destruct (lookup_lt_is_Some_2 pools (l mod m_location_count p)) as [q Hq].
  { rewrite Hlen. apply Nat.mod_upper_bound. lia. }
  rewrite Hq, Hout by (apply list_elem_of_lookup; eauto). by apply IH.
Qed.

Lemma mod_reaches (l j c : nat) :
  (j < c)%nat -> exists k, (k < c /\ (l + k) mod c = j)%nat.
Proof.
  intros Hj. exists ((j + (c - l mod c)) mod c)%nat.
  split; [apply Nat.mod_upper_bound; lia|].
  rewrite Nat.Div0.add_mod_idemp_r.
  pose proof (Nat.mod_upper_bound l c ltac:(lia)). pose proof (Nat.div_mod_eq l c).
  replace (l + (j + (c - l mod c)))%nat with (j + (l / c + 1) * c)%nat by nia.
  rewrite Nat.Div0.mod_add. by apply Nat.mod_small.
Qed.

Lemma set_value_inv p pools out heap x v :
  pool_inv p pools out heap -> is_Some (store p !! x) -> x ∈ out \/ clean v ->
  pool_inv (set_store (<[x := v]> (store p)) p) pools out heap.
Proof.
  intros [H1 H2 H3 H4 H5 H6 H7 H8 H9 H10 H11 H12] Hlive Hx. split; simpl; try done.
  - intros y. rewrite lookup_insert_is_Some, (H11 y).
    destruct (decide (x = y)) as [->|]; [|naive_solver]. naive_solver.
  - intros y Hy. destruct (decide (x = y)) as [->|]; [|rewrite lookup_insert_ne by done; eauto].
    rewrite lookup_insert_eq. destruct Hx as [Hout|]; [|eauto].
    rewrite <- H8 in H9. apply NoDup_app in H9 as (_ & Hd & _). destruct (Hd y Hy Hout).
Qed.

(** An item that a client holds is always accepted back. *)
Lemma put_inv p pools out1 out2 heap x location :
  pool_inv p pools (out1 ++ x :: out2) heap ->
  exists p' pools' heap', put p x location = Ok p' /\ pool_inv p' pools' (out1 ++ out2) heap'.
Proof.
  intros Hinv. pose proof Hinv as [H1 H2 H3 H4 H5 H6 H7 H8 H9 H10 H11 H12].
  assert (Hx : x ∈ all_slots (m_pool_size p) pools ++ heap) by (rewrite <- H8; set_solver).
  pose proof Hx as [v Hv]%H11. unfold put. rewrite H1, Hv.
  set (p1 := set_store (<[x := release_item v]> (store p)) p). simpl.
  assert (Hinv1 : pool_inv p1 pools (out1 ++ x :: out2) heap) by (apply set_value_inv; eauto using release_clean).
  destruct (Nat.eqb_spec (m_pool_size p) 0) as [|_]; [lia|].
  apply elem_of_app in Hx as [Hslot|Hheap].
  - unfold all_slots in Hslot.
    apply list_elem_of_In, in_concat in Hslot as (sl & Hsl & Hxs).
    apply list_elem_of_In, list_elem_of_fmap in Hsl as (pool & -> & Hpool).
    apply list_elem_of_lookup in Hpool as [j Hj]. apply list_elem_of_In in Hxs.
    pose proof (slots_in_range _ _ _ H4 Hxs) as Hr.
    eexists _, _, heap. split.
    + apply (put_loop_home p1 pools j pool); try done.
      * intros k pk Hk Hrk. by eapply in_range_unique.
      * apply mod_reaches. simpl. rewrite <- H2. by eapply lookup_lt_Some.
    + apply (pool_inv_update _ _ (out1 ++ x :: out2)); try done.
      * intros y [Hy|Hy]%elem_of_app; [eapply (H7 pool); [apply list_elem_of_lookup; eauto|done]|].
        apply list_elem_of_singleton in Hy as ->. done.
      * solve_Permutation.
      * intros y [Hy|Hy]%elem_of_app; [by left|]. apply list_elem_of_singleton in Hy as ->.
        right. exists (release_item v). simpl. rewrite lookup_insert_eq. auto using release_clean.
  - pose proof Hheap as (h1 & h2 & ->)%list_elem_of_split.
    eexists _, pools, (h1 ++ h2). split; [apply (put_loop_heap p1); auto|].
    assert (Hperm : all_available pools ++ out1 ++ out2 ≡ₚ all_slots (m_pool_size p) pools ++ h1 ++ h2).
    { apply (Permutation_cons_inv (a := x)).
      transitivity (all_available pools ++ out1 ++ x :: out2); [solve_Permutation|].
      rewrite H8. solve_Permutation. }
    assert (Hnd : NoDup (x :: all_slots (m_pool_size p) pools ++ h1 ++ h2)).
    { replace (x :: _ ++ _ ++ _) with ([x] ++ all_slots (m_pool_size p) pools ++ h1 ++ h2) by done.
      eapply NoDup_Permutation_proper; [|exact H9]. solve_Permutation. }
    apply NoDup_cons in Hnd as [Hnotin Hnd].
    destruct Hinv1 as [_ _ _ _ _ _ _ _ _ _ K11 K12]; simpl in *.
    split; simpl; try done.
    + intros y pool Hy. apply H6. set_solver.
    + intros Hl. destruct (app_cons_not_nil _ _ _ (eq_sym (H10 Hl))).
    + intros y. rewrite lookup_delete_is_Some, <- (K11 y).
      destruct (decide (x = y)) as [->|]; set_solver.
    + intros y Hy. rewrite lookup_delete_ne; [by apply K12|].
      intros ->. apply Hnotin. rewrite <- Hperm. set_solver.
Qed.

Lemma pool_inv_out p pools out out' heap :
  pool_inv p pools out heap -> out ≡ₚ out' -> pool_inv p pools out' heap.
Proof. intros [] Hperm. split; try done. by rewrite <- Hperm. Qed.

Lemma alloc_items_inv n : forall i dest fresh p d p' pools out heap,
  alloc_items n i dest fresh p = Ok (d, p') ->
  pool_inv p pools out heap -> m_limit_total_events_in_flight p = false ->
  Forall (fresh_for p) fresh -> NoDup fresh ->
  take i d = take i dest /\ length d = length dest /\
  exists heap', pool_inv p' pools (take n (drop i d) ++ out) heap'.
Proof.
  induction n as [|n IH]; intros i dest fresh p d p' pools out heap; simpl.
  - intros [= <- <-]. eauto.
  - destruct fresh as [|a fresh]; [done|]. case_decide as Hi; [|done].
    intros Hok Hinv Hlim [Ha Hf]%Forall_cons [Hna Hnd]%NoDup_cons.
    eapply IH in Hok as (Ht & Hl & heap' & Hinv'); [| by eapply new_item_inv|done| |done].
    2:{ apply Forall_forall. intros b Hb. rewrite Forall_forall in Hf.
        destruct (Hf b Hb) as [Hb1 Hb2]. split; [|done].
        simpl. rewrite lookup_insert_ne; [done|]. intros ->. done. }
    rewrite length_insert in Hl.
    assert (Hdi : d !! i = Some a).
    { rewrite <- (lookup_take_lt d (S i) i), Ht, lookup_take_lt by lia.
      by apply list_lookup_insert_eq. }
    repeat split; [|done|].
    + apply (f_equal (take i)) in Ht. rewrite !take_take, !Nat.min_l in Ht by lia.
      by rewrite take_insert_ge in Ht.
    + exists heap'. rewrite (drop_S d a i Hdi). simpl.
      eapply pool_inv_out; [exact Hinv'|]. solve_Permutation.
Qed.

Lemma fresh_for_set_pool p pools j pool rest a :
  m_pools p = Some pools -> pools !! j = Some pool -> fresh_for p a ->
  fresh_for (set_pool j (mkLocalPool (items_base pool) rest) pools p) a.
Proof.
  intros Hp Hj [Hs Hr]. split; [done|]. simpl. intros ? q [= <-] [k Hk]%list_elem_of_lookup.
  destruct (decide (j = k)) as [->|].
  - rewrite list_lookup_insert_eq in Hk by (by eapply lookup_lt_Some). simplify_eq.
    apply (Hr pools pool Hp). apply list_elem_of_lookup. eauto.
  - rewrite list_lookup_insert_ne in Hk by done. apply (Hr pools q Hp).
    apply list_elem_of_lookup. eauto.
Qed.

Lemma pool_pop_inv p pools out heap dest lo hi location fresh n d p' :
  pool_inv p pools out heap -> Forall (fresh_for p) fresh -> NoDup fresh -> 0 <= hi ->
  pop p dest lo hi location fresh = Ok ((n, d), p') ->
  length d = length dest /\
  exists pools' heap', pool_inv p' pools' (take (Z.to_nat n) d ++ out) heap'.
Proof.
  intros Hinv Hfresh Hnd Hhi. unfold pop.
  destruct (local_pool p location) as [l| |] eqn:Hl; try done. simpl.
  apply (local_pool_inv _ _ _ _ _ _ Hinv) in Hl as (j & pool & -> & Hj).
  destruct (m_limit_total_events_in_flight p && _) eqn:Hmin; [intros [= <- <- <-]; eauto|].
  set (count := Z.min _ _). destruct (pop_items _ _ _ _) as [[d1 rest]| |] eqn:Hpop; try done.
  simpl. apply pop_items_inv in Hpop as (_ & Hlen & Hperm & taken & Htaken). rewrite drop_0 in Hperm.
  assert (Hinv1 : pool_inv (set_pool j (mkLocalPool (items_base pool) rest) pools p)
    (<[j := mkLocalPool (items_base pool) rest]> pools) (take (Z.to_nat count) d1 ++ out) heap).
  { apply (pool_inv_update _ _ out); try done.
    - intros x Hx. eapply pi_home; [done|apply list_elem_of_lookup; eauto|]. rewrite Htaken. set_solver.
    - rewrite Hperm. solve_Permutation.
    - intros x Hx. left. rewrite Htaken. set_solver. }
  destruct (m_limit_total_events_in_flight p) eqn:Hlim.
  - intros [= <- <- <-]. eauto.
  - destruct (alloc_items _ _ _ _ _) as [[d2 p2]| |] eqn:Hal; try done. simpl.
    intros [= <- <- <-].
    eapply alloc_items_inv in Hal as (Ht & Hl2 & heap' & Hinv2); try done.
    2:{ eapply Forall_impl; [exact Hfresh|]. intros a Ha.
        apply fresh_for_set_pool; try done. apply Hinv. }
    split; [lia|]. eexists _, heap'. eapply pool_inv_out; [exact Hinv2|].
    assert (0 <= count) by (unfold count; pose proof (sizeZ_nonneg (available_items pool)); lia).
    replace (Z.to_nat (Z.max count lo))
      with (Z.to_nat count + Z.to_nat (lo - count))%nat by lia.
    rewrite <- take_take_drop, Ht. solve_Permutation.
Qed.

(** Popping is total: it returns nothing, or a number of items in the requested range. *)
Lemma pop_items_ok n : forall i dest avail,
  (n <= length avail)%nat -> (i + n <= length dest)%nat ->
  exists d a, pop_items n i dest avail = Ok (d, a).
Proof.
  induction n as [|n IH]; intros i dest avail Ha Hd; simpl; [eauto|].
  destruct (pop_back avail) as [[t rest]|] eqn:Hp.
  - apply pop_back_Some in Hp as ->. rewrite length_app in Ha. simpl in Ha.
    rewrite decide_True by lia. apply IH; rewrite ?length_insert; lia.
  - apply pop_back_None in Hp as ->. simpl in Ha. lia.
Qed.

Lemma alloc_items_ok n : forall i dest fresh p,
  (n <= length fresh)%nat -> (i + n <= length dest)%nat ->
  exists d p', alloc_items n i dest fresh p = Ok (d, p').
Proof.
  induction n as [|n IH]; intros i dest fresh p Hf Hd; simpl; [eauto|].
  destruct fresh as [|a fresh]; simpl in Hf; [lia|].
  rewrite decide_True by lia. apply IH; rewrite ?length_insert; lia.
Qed.

Lemma pop_ok p pools out heap dest lo hi location fresh :
  pool_inv p pools out heap -> 0 <= lo <= hi -> hi <= sizeZ dest -> lo <= sizeZ fresh ->
  exists n d p', pop p dest lo hi location fresh = Ok ((n, d), p') /\
    0 <= n <= hi /\ (n = 0 \/ lo <= n).
Proof.
  intros Hinv Hlo Hhi Hf. unfold pop, local_pool.
  rewrite (pi_pools _ _ _ _ Hinv).
  destruct (lookup_lt_is_Some_2 pools (location mod m_location_count p)) as [pool Hj].
  { rewrite (pi_length _ _ _ _ Hinv). apply Nat.mod_upper_bound.
    pose proof (pi_locations _ _ _ _ Hinv). lia. }
  rewrite Hj. simpl. destruct (m_limit_total_events_in_flight p && _) eqn:Hmin.
  { eexists _, _, _. split; [done|]. lia. }
  pose proof (sizeZ_nonneg (available_items pool)). unfold sizeZ in *.
  destruct (pop_items_ok (Z.to_nat (Z.min (Z.of_nat (length (available_items pool))) hi)) 0 dest
    (available_items pool)) as (d & a & Hpop); [lia|lia|].
  rewrite Hpop. simpl. pose proof Hpop as (_ & Hlen & _)%pop_items_inv.
  destruct (m_limit_total_events_in_flight p).
  - apply Z.ltb_ge in Hmin. eexists _, _, _. split; [done|]. lia.
  - destruct (alloc_items_ok (Z.to_nat (lo - Z.min (Z.of_nat (length (available_items pool))) hi))
      (Z.to_nat (Z.min (Z.of_nat (length (available_items pool))) hi)) d fresh
      (set_pool (location mod m_location_count p) (mkLocalPool (items_base pool) a) pools p))
      as (d' & p' & Hal); [lia|lia|].
    rewrite Hal. eexists _, _, _. split; [done|]. lia.
Qed.

(** Pushing back the items that a client holds always succeeds. *)
Lemma pool_push_loop_inv n : forall i source p pools out heap location,
  (i + n <= length source)%nat ->
  pool_inv p pools (take n (drop i source) ++ out) heap ->
  exists s' p' pools' heap', push_loop n i source location p = Ok (s', p') /\
    length s' = length source /\ pool_inv p' pools' out heap'.
Proof.
  induction n as [|n IH]; intros i source p pools out heap location Hi Hinv; simpl.
  - simpl in Hinv. eauto 10.
  - destruct (lookup_lt_is_Some_2 source i) as [x Hx]; [lia|].
    rewrite Hx. rewrite (drop_S source x i Hx) in Hinv. simpl in Hinv.
    destruct (put_inv p pools [] _ heap x location Hinv) as (p1 & pools1 & heap1 & -> & Hinv1).
    simpl. rewrite <- (length_insert source i 0). apply (IH (S i) _ p1 pools1 out heap1 location).
    + rewrite length_insert. lia.
    + by rewrite drop_insert_lt by lia.
Qed.

(** Popping creates at most the objects at the fresh addresses and deletes none. *)
Lemma alloc_items_store n : forall i dest fresh p d p' x,
  alloc_items n i dest fresh p = Ok (d, p') ->
  (is_Some (store p !! x) -> is_Some (store p' !! x)) /\
  (is_Some (store p' !! x) -> is_Some (store p !! x) \/ x ∈ fresh).
Proof.
  induction n as [|n IH]; intros i dest fresh p d p' x; simpl; [intros [= <- <-]; auto|].
  destruct fresh as [|a fresh]; [done|]. case_decide; [|done].
  intros Hr. apply (IH _ _ _ _ _ _ x) in Hr as [H1 H2]. simpl in H1, H2.
  rewrite lookup_insert_is_Some in H1, H2. set_unfold.
  destruct (decide (a = x)); naive_solver.
Qed.

Lemma pop_store p dest lo hi location fresh r p' x :
  pop p dest lo hi location fresh = Ok (r, p') ->
  (is_Some (store p !! x) -> is_Some (store p' !! x)) /\
  (is_Some (store p' !! x) -> is_Some (store p !! x) \/ x ∈ fresh).
Proof.
  intros H. unfold pop in H.
  destruct (local_pool p location) as [[[pools j] pool]| |]; simplify_eq/=.
  case_match; simplify_eq/=; [auto|].
  destruct (pop_items _ _ _ _) as [w| |]; simplify_eq/=.
  case_match; simplify_eq/=; [auto|].
  destruct (alloc_items _ _ _ _ _) as [[d p2]| |] eqn:Hal; simplify_eq/=.
  by apply (alloc_items_store _ _ _ _ _ _ _ x) in Hal.
Qed.

(** An address that popping did not use stays fresh. *)
Lemma alloc_items_pools n : forall i dest fresh p d p',
  alloc_items n i dest fresh p = Ok (d, p') -> m_pools p' = m_pools p /\ m_pool_size p' = m_pool_size p.
Proof.
  induction n as [|n IH]; intros i dest fresh p d p'; simpl; [by intros [= <- <-]|].
  destruct fresh as [|a fresh]; [done|]. case_decide; [|done]. by intros Hr%IH.
Qed.

Lemma pop_fresh p pools out heap dest lo hi location fresh r p' a :
  pool_inv p pools out heap -> pop p dest lo hi location fresh = Ok (r, p') -> a ∉ fresh ->
  fresh_for p a -> fresh_for p' a.
Proof.
  intros Hinv Hpop Ha Hfr. pose proof Hfr as [Hnone Hrange]. pose proof (pop_store _ _ _ _ _ _ _ _ a Hpop) as [_ Hst].
  assert (Hn : store p' !! a = None).
  { apply eq_None_not_Some. intros [[v Hv]|]%Hst; [congruence|done]. }
  split; [done|]. unfold pop in Hpop.
  destruct (local_pool p location) as [l| |] eqn:Hl; simplify_eq/=.
  apply (local_pool_inv _ _ _ _ _ _ Hinv) in Hl as (j & pool & -> & Hj). simpl in Hpop.
  case_match; simplify_eq/=; [done|].
  destruct (pop_items _ _ _ _) as [[d rest]| |]; simplify_eq/=.
  pose proof (fresh_for_set_pool _ _ j pool rest a (pi_pools _ _ _ _ Hinv) Hj Hfr) as [_ Hrange'].
  case_match; simplify_eq/=; [done|].
  destruct (alloc_items _ _ _ _ _) as [[d2 p2]| |] eqn:Hal; simplify_eq/=.
  apply alloc_items_pools in Hal as [-> ->]. done.
Qed.

(** Putting items back creates no object. *)
Lemma put_loop_store fuel : forall l item pools p p' x,
  put_loop fuel l item pools p = Ok p' -> is_Some (store p' !! x) -> is_Some (store p !! x).
Proof.
  induction fuel as [|fuel IH]; intros l item pools p p' x; simpl.
  - intros [= <-]. simpl. rewrite lookup_delete_is_Some. naive_solver.
  - repeat case_match; try done; [by intros [= <-]|]. apply IH.
Qed.

Lemma push_loop_store n : forall i source location p s' p' x,
  push_loop n i source location p = Ok (s', p') ->
  is_Some (store p' !! x) -> is_Some (store p !! x).
Proof.
  induction n as [|n IH]; intros i source location p s' p' x; simpl; [by intros [= <- <-]|].
  case_match; [|done]. destruct (put p _ location) as [p1| |] eqn:Hput; try done. simpl.
  intros Hr Hx. apply (IH _ _ _ _ _ _ _ Hr) in Hx. unfold put in Hput.
  repeat case_match; try done. apply (put_loop_store _ _ _ _ _ _ _ Hput) in Hx. simpl in Hx.
  apply lookup_insert_is_Some in Hx as [<-|[_ Hx]]; [by eexists|done].
Qed.

(** *** The pool and its clients *)

Definition pool_state : Type := JPool T * list Z.

(** A client gets or pops items, uses the ones it holds, and puts them back. *)
Inductive pool_step : pool_state -> pool_state -> Prop :=
| ps_get p out location fresh r p' :
    fresh_for p fresh -> get p location fresh = Ok (r, p') ->
    pool_step (p, out) (p', option_list r ++ out)
| ps_pop p out dest lo hi location fresh n d p' :
    Forall (fresh_for p) fresh -> NoDup fresh -> 0 <= hi ->
    pop p dest lo hi location fresh = Ok ((n, d), p') ->
    pool_step (p, out) (p', take (Z.to_nat n) d ++ out)
| ps_use p out x v :
    x ∈ out -> pool_step (p, out) (set_store (<[x := v]> (store p)) p, out)
| ps_put p out1 out2 x location p' :
    put p x location = Ok p' -> pool_step (p, out1 ++ x :: out2) (p', out1 ++ out2).

Lemma pool_step_inv (s s' : pool_state) :
  (exists pools heap, pool_inv s.1 pools s.2 heap) -> pool_step s s' ->
  exists pools heap, pool_inv s'.1 pools s'.2 heap.
Proof.
  intros (pools & heap & Hinv) Hstep. destruct Hstep; simpl in *.
  - by eapply get_inv.
  - by eapply pool_pop_inv.
  - exists pools, heap. apply set_value_inv; auto.
    apply (pi_store _ _ _ _ Hinv). rewrite <- (pi_perm _ _ _ _ Hinv). set_solver.
  - eapply put_inv in Hinv as (p2 & pools' & heap' & Hput & Hinv'). rewrite Hput in H.
    simplify_eq. eauto.
Qed.

(** The configuration never changes. *)
Definition same_config (p p' : JPool T) : Prop :=
  m_pool_size p' = m_pool_size p /\ m_location_count p' = m_location_count p /\
  m_limit_total_events_in_flight p' = m_limit_total_events_in_flight p.

Lemma alloc_items_config n : forall i dest fresh p r,
  alloc_items n i dest fresh p = Ok r -> same_config p r.2.
Proof.
  induction n as [|n IH]; intros i dest fresh p r; simpl; [by intros [= <-]|].
  destruct fresh as [|a fresh]; [done|]. case_decide; [|done]. by intros Hr%IH.
Qed.

Lemma put_loop_config fuel : forall l item pools p p',
  put_loop fuel l item pools p = Ok p' -> same_config p p'.
Proof.
  induction fuel as [|fuel IH]; intros l item pools p p'; simpl; [by intros [= <-]|].
  repeat case_match; try done; [by intros [= <-]|]. by intros Hr%IH.
Qed.

Lemma pool_step_config (s s' : pool_state) : pool_step s s' -> same_config s.1 s'.1.
Proof.
  destruct 1 as [p out loc fresh r p' _ H|p out dest lo hi loc fresh n d p' _ _ _ H|
    p out x v _|p out1 out2 x loc p' H]; simpl; [| |done|].
  - unfold get in H. destruct (local_pool p loc) as [[[pools j] pool]| |]; simplify_eq/=.
    repeat case_match; by simplify_eq.
  - unfold pop in H. destruct (local_pool p loc) as [[[pools j] pool]| |]; simplify_eq/=.
    case_match; simplify_eq/=; [done|].
    destruct (pop_items _ _ _ _) as [w| |]; simplify_eq/=.
    case_match; simplify_eq/=; [done|].
    destruct (alloc_items _ _ _ _ _) as [w'| |] eqn:Hal; simplify_eq/=.
    by apply alloc_items_config in Hal.
  - unfold put in H. repeat case_match; try done. by apply put_loop_config in H.
Qed.

Lemma all_slots_length n pools : length (all_slots n pools) = (length pools * n)%nat.
Proof.
  induction pools as [|q pools IH]; [done|]. unfold all_slots in *. csimpl.
  rewrite length_app, IH. unfold slots. by rewrite length_fmap, length_seq.
Qed.

(** The pool is safe for every interleaving of its clients.  Starting from a pool
    whose arrays do not overlap and whose items are all free, after any sequence of get, pop,
    use and put steps: the items that clients hold are distinct and none of them is free;
    every free item is in the state that [configure_item] or [release_item] left it in;
    putting back any held item succeeds; and if the total number of events is
    limited, clients never hold more than [pool_size * location_count] items. *)
Theorem pool_conserves_items p0 pools0 p out :
  pool_inv p0 pools0 [] [] -> steps pool_step (p0, []) (p, out) ->
  NoDup out /\
  (exists pools, m_pools p = Some pools /\
     (forall x, x ∈ all_available pools -> x ∉ out /\ exists v, store p !! x = Some v /\ clean v)) /\
  (forall x location, x ∈ out -> exists p', put p x location = Ok p') /\
  (m_limit_total_events_in_flight p0 = true ->
     (length out <= m_location_count p0 * m_pool_size p0)%nat).
Proof.
  intros Hinit Hrun.
  assert (Hinv : exists pools heap, pool_inv p pools out heap).
  { apply (steps_invariant pool_step (fun s => exists pools heap, pool_inv s.1 pools s.2 heap)
      pool_step_inv _ _ Hrun). eauto. }
  assert (Hcfg : same_config p0 p).
  { apply (steps_invariant pool_step (fun s => same_config p0 s.1)) with (2 := Hrun); [|done].
    intros s s' H1 H2%pool_step_config. unfold same_config in *. intuition congruence. }
  destruct Hinv as (pools & heap & Hinv). pose proof Hinv as [H1 H2 H3 H4 H5 H6 H7 H8 H9 H10 H11 H12].
  destruct Hcfg as (Hn & Hc & Hl).
  pose proof H9 as Hnd. rewrite <- H8 in Hnd. apply NoDup_app in Hnd as (_ & Hdis & Hndout).
  split; [done|]. split; [|split].
  - exists pools. split; [done|]. intros x Hx. split; [by apply Hdis|by apply H12].
  - intros x location (out1 & out2 & ->)%list_elem_of_split.
    destruct (put_inv _ _ _ _ _ _ location Hinv) as (p' & ? & ? & Hput & _). eauto.
  - intros Hlim. apply Permutation_length in H8.
    rewrite !length_app, all_slots_length, (H10 ltac:(congruence)), H2, Hc, Hn in H8. simpl in H8. lia.
Qed.

End Conservation.

(** ** A pool that [init] has just filled satisfies the invariant *)

Section Init.
Context {T : Type} {IT : Item T} {IL : ItemLaws T}.

Lemma slots_nodup base n : NoDup (slots (sizeof T) base n).
Proof.
  pose proof (sizeof_pos (T:=T)) as Hpos. apply NoDup_fmap_2_strong; [|apply NoDup_seq]. intros. nia.
Qed.

Lemma elem_of_all_slots n pools x :
  x ∈ all_slots (sizeof T) n pools ->
  exists k pk, pools !! k = Some pk /\ x ∈ slots (sizeof T) (items_base pk) n.
Proof.
  unfold all_slots. intros (sl & Hsl & Hx)%list_elem_of_In%in_concat.
  apply list_elem_of_In, list_elem_of_fmap in Hsl as (pk & -> & [k Hk]%list_elem_of_lookup).
  exists k, pk. split; [done|]. by apply list_elem_of_In.
Qed.

Lemma all_slots_nodup n pools :
  disjoint_arrays (sizeof T) n pools -> NoDup (all_slots (sizeof T) n pools).
Proof.
  induction pools as [|q pools IH]; intros Hd; [constructor|].
  unfold all_slots in *. csimpl. apply NoDup_app. split; [apply slots_nodup|]. split.
  - intros x Hx Hin. destruct (elem_of_all_slots n pools x Hin) as (k & pk & Hk & Hxk).
    assert (Hn : (0 < n)%nat) by (destruct n; [by apply not_elem_of_nil in Hx|lia]).
    pose proof (slots_in_range _ _ _ Hn Hx) as Hr1.
    pose proof (slots_in_range _ _ _ Hn Hxk) as Hr2.
    by pose proof (in_range_unique n (q :: pools) 0 (S k) q pk x Hd Hn
      eq_refl Hk Hr1 Hr2).
  - apply IH. intros j k pj pk Hne Hj Hk. apply (Hd (S j) (S k)); [congruence|done|done].
Qed.

Lemma init_inv (n c : nat) limit (bases : list Z) :
  (0 < n)%nat -> (0 < c)%nat -> length bases = c ->
  disjoint_arrays (sizeof T) n ((fun base => mkLocalPool base (slots (sizeof T) base n)) <$> bases) ->
  pool_inv (init bases (mkJPool (T:=T) n c limit None ∅))
    ((fun base => mkLocalPool base (slots (sizeof T) base n)) <$> bases) [] [].
Proof.
  intros Hn Hc Hlen Hdis. set (pools := _ <$> bases) in *.
  assert (Htake : take c bases = bases) by (rewrite <- Hlen; apply firstn_all).
  assert (Hsame : all_available pools = all_slots (sizeof T) n pools).
  { unfold all_available, all_slots, pools. by rewrite <- !list_fmap_compose. }
  assert (Hstore : forall x, x ∈ all_available pools ->
    store (init bases (mkJPool (T:=T) n c limit None ∅)) !! x
    = Some (configure_item default_T)).
  { intros x Hx. simpl. rewrite Htake. apply elem_of_list_to_map.
    - rewrite <- list_fmap_compose. simpl. rewrite list_fmap_id.
      change (NoDup (all_available pools)). rewrite Hsame. by apply all_slots_nodup.
    - apply list_elem_of_fmap. eauto. }
  split; simpl; rewrite ?app_nil_r, ?Htake; try done.
  - unfold pools. by rewrite length_fmap.
  - intros x pool Hx. by apply not_elem_of_nil in Hx.
  - intros pool x (base & -> & _)%list_elem_of_fmap. done.
  - by rewrite Hsame.
  - by apply all_slots_nodup.
  - intros x. rewrite <- Hsame. split.
    + intros Hx. apply Hstore in Hx. simpl in Hx. rewrite Htake in Hx. eauto.
    + intros [v Hv]. apply elem_of_list_to_map_2 in Hv.
      by apply list_elem_of_fmap in Hv as (y & [= -> _] & Hy).
  - intros x Hx. pose proof (Hstore x Hx) as Hv. simpl in Hv. rewrite Htake in Hv.
    eauto using configure_clean.
Qed.

End Init.

(** ** Witnesses *)

(** An item that is [true] when it has been reset. *)
Definition flag_item : Item bool :=
  {| sizeof := 16; default_T := false; configure_item _ := true; release_item _ := true |}.

Definition flag_laws : @ItemLaws bool flag_item.
Proof. by refine {| clean v := v = true |}. Defined.

(** Two locations of two items each. *)
Definition pool0 : JPool bool := @init bool flag_item [1000; 2000] (mkJPool 2 2 true None ∅).

Lemma pool0_inv : exists pools, @pool_inv bool flag_item flag_laws pool0 pools [] [].
Proof.
  eexists. apply (@init_inv bool flag_item flag_laws); try done; try lia.
  intros [|[|j]] [|[|k]] pj pk Hne Hj Hk; simplify_eq/=; try done; vm_compute;
    (left; congruence) || (right; congruence).
Qed.

Lemma pool_conserves_items_witness :
  exists p out, steps (@pool_step bool flag_item) (pool0, []) (p, out) /\
    out = [2016] /\ NoDup out /\ (length out <= 2 * 2)%nat.
Proof.
  destruct pool0_inv as [pools Hinv].
  assert (Hrun : exists p, steps (@pool_step bool flag_item) (pool0, []) (p, [2016])).
  { eexists. eapply steps_cons; [|apply steps_refl].
    apply (@ps_get bool flag_item pool0 [] 1 5000 (Some 2016)); [|vm_compute; reflexivity].
    split; [vm_compute; reflexivity|].
    vm_compute. intros ? q [= <-] Hq. set_unfold in Hq. by destruct Hq as [->|[->|[]]]. }
  destruct Hrun as [p Hrun]. exists p, [2016]. split; [exact Hrun|]. split; [reflexivity|].
  destruct (@pool_conserves_items bool flag_item flag_laws pool0 pools p [2016] Hinv Hrun)
    as (H1 & _ & _ & H4).
  split; [exact H1|]. apply H4. reflexivity.
Defined.

End Pool.
