(* ===== verification/JMetrics.v ===== *)
(** * Metrics: what the workers measure and where the totals go

    Models of [Topology/JArrowMetrics.h], [Engine/JWorkerMetrics.h] and
    [Engine/JPerfMetrics.{h,cc}].  Counters are [size_t] (or [long]); durations and time
    points are integers (clock ticks); the current time is an argument where the code reads the
    clock.  Every method holds its object's mutex, so it is one atomic step. *)

From S2P Require Import Prelude.
Local Open Scope Z_scope.

Module ArrowMetrics.

Inductive Status := KeepGoing | ComeBackLater | Finished | NotRunYet | Error.

#[export] Instance Status_eq_dec : EqDecision Status.
Proof. solve_decision. Defined.

Record JArrowMetrics := mkJArrowMetrics {
  m_last_status : Status;
  m_total_message_count : Z;
  m_last_message_count : Z;
  m_total_queue_visits : Z;
  m_last_queue_visits : Z;
  m_total_latency : Z;
  m_last_latency : Z;
  m_total_queue_latency : Z;
  m_last_queue_latency : Z
}.

Definition clear : JArrowMetrics := mkJArrowMetrics NotRunYet 0 0 0 0 0 0 0 0.

(** [update(const JArrowMetrics& other)]. *)
Definition update_from (other m : JArrowMetrics) : JArrowMetrics :=
  let nonzero := negb (m_last_message_count other =? 0) in
  mkJArrowMetrics
    (m_last_status other)
    (u64 (m_total_message_count m + m_total_message_count other))
    (if nonzero then m_last_message_count other else m_last_message_count m)
    (u64 (m_total_queue_visits m + m_total_queue_visits other))
    (m_last_queue_visits other)
    (m_total_latency m + m_total_latency other)
    (if nonzero then m_last_latency other else m_last_latency m)
    (m_total_queue_latency m + m_total_queue_latency other)
    (m_last_queue_latency other).

(** [take(other)]: the new value of [this] and of [other]. *)
Definition take (m other : JArrowMetrics) : JArrowMetrics * JArrowMetrics :=
  let nonzero := negb (m_last_message_count other =? 0) in
  (mkJArrowMetrics
     (m_last_status other)
     (u64 (m_total_message_count m + m_total_message_count other))
     (if nonzero then m_last_message_count other else m_last_message_count m)
     (u64 (m_total_queue_visits m + m_total_queue_visits other))
     (m_last_queue_visits other)
     (m_total_latency m + m_total_latency other)
     (if nonzero then m_last_latency other else m_last_latency m)
     (m_total_queue_latency m + m_total_queue_latency other)
     (m_last_queue_latency other),
   mkJArrowMetrics NotRunYet 0 0 0 0 0 0 0 0).

Definition update_finished (m : JArrowMetrics) : JArrowMetrics :=
  mkJArrowMetrics Finished (m_total_message_count m) (m_last_message_count m)
    (m_total_queue_visits m) (m_last_queue_visits m) (m_total_latency m) (m_last_latency m)
    (m_total_queue_latency m) (m_last_queue_latency m).

(** [update(last_status, message_count_delta, queue_visit_delta, latency_delta, ...)]. *)
Definition update (last_status : Status) (message_count_delta queue_visit_delta
    latency_delta queue_latency_delta : Z) (m : JArrowMetrics) : JArrowMetrics :=
  let some := 0 <? message_count_delta in
  mkJArrowMetrics
    last_status
    (u64 (m_total_message_count m + message_count_delta))
    (if some then message_count_delta else m_last_message_count m)
    (u64 (m_total_queue_visits m + queue_visit_delta))
    queue_visit_delta
    (m_total_latency m + latency_delta)
    (if some then latency_delta else m_last_latency m)
    (m_total_queue_latency m + queue_latency_delta)
    queue_latency_delta.

Definition get_total_message_count (m : JArrowMetrics) : Z := m_total_message_count m.
Definition get_last_status (m : JArrowMetrics) : Status := m_last_status m.

(** What a worker does with its local metrics at the end of an assignment (and
    [measure_perf] does from outside): move them onto the stack, then add them to the
    metrics of the arrow.  The result is the arrow's and the worker's new metrics. *)
Definition publish (arrow worker : JArrowMetrics) : JArrowMetrics * JArrowMetrics :=
  let '(latest, worker') := take clear worker in
  (update_from latest arrow, worker').

(** The calls of [update] that an [execute] makes: (status, messages). *)
Definition execute_all (m : JArrowMetrics) (calls : list (Status * Z)) : JArrowMetrics :=
  foldl (fun m c => update c.1 c.2 1 0 0 m) m calls.

Definition sum_messages (calls : list (Status * Z)) : Z := foldr (fun c acc => c.2 + acc) 0 calls.

Lemma execute_all_total calls : forall m,
  m_total_message_count (execute_all m calls) ≡64 m_total_message_count m + sum_messages calls.
Proof.
  induction calls as [|c calls IH]; intros m; simpl; [by rewrite Z.add_0_r|].
  rewrite IH. simpl. rewrite cong64_u64. apply cong64_eq. lia.
Qed.

Lemma publish_total arrow worker :
  m_total_message_count (publish arrow worker).1 ≡64
  m_total_message_count arrow + m_total_message_count worker.
Proof. simpl. by rewrite !cong64_u64. Qed.

Lemma sum_messages_app a b : sum_messages (a ++ b) = sum_messages a + sum_messages b.
Proof. induction a; simpl; lia. Qed.

(** A schedule of a worker on one arrow: between two publications it executes the
    arrow some number of times. *)
Fixpoint rounds (arrow worker : JArrowMetrics) (batches : list (list (Status * Z)))
    : JArrowMetrics * JArrowMetrics :=
  match batches with
  | [] => (arrow, worker)
  | calls :: rest =>
      let '(arrow', worker') := publish arrow (execute_all worker calls) in
      rounds arrow' worker' rest
  end.

Lemma rounds_total batches : forall arrow worker,
  m_total_message_count (rounds arrow worker batches).1
    + m_total_message_count (rounds arrow worker batches).2
  ≡64 m_total_message_count arrow + m_total_message_count worker
      + sum_messages (concat batches).
Proof.
  induction batches as [|calls rest IH]; intros arrow worker; [by rewrite Z.add_0_r|].
  pose proof (publish_total arrow (execute_all worker calls)) as Hp.
  rewrite execute_all_total in Hp. simpl in *. rewrite IH. simpl.
  rewrite Hp, sum_messages_app. apply cong64_eq. lia.
Qed.

(** No processed message escapes the count.  However a worker's executions
    are batched between publications, after the last publication the arrow's total message
    count (at its 64-bit width) is its initial value plus every message that the worker
    reported, and the worker's own metrics are empty. *)
Theorem publish_conserves_messages arrow worker calls rest :
  m_total_message_count (rounds arrow worker (calls :: rest)).1
  ≡64 m_total_message_count arrow + m_total_message_count worker
      + sum_messages (calls ++ concat rest) /\
  (rounds arrow worker (calls :: rest)).2 = clear.
Proof.
  assert (Hclear : (rounds arrow worker (calls :: rest)).2 = clear).
  { revert arrow worker calls. induction rest as [|c rest IH]; [done|]. intros. apply IH. }
  split; [|done]. pose proof (rounds_total (calls :: rest) arrow worker) as H.
  by rewrite Hclear, Z.add_0_r in H.
Qed.

End ArrowMetrics.

Module WorkerMetrics.

Record JWorkerMetrics := mkJWorkerMetrics {
  m_last_heartbeat : Z;
  m_scheduler_visit_count : Z;
  m_total_useful_time : Z;
  m_total_retry_time : Z;
  m_total_scheduler_time : Z;
  m_total_idle_time : Z;
  m_last_useful_time : Z;
  m_last_retry_time : Z;
  m_last_scheduler_time : Z;
  m_last_idle_time : Z
}.

(** The constructor and [clear()]. *)
Definition clear (now : Z) : JWorkerMetrics := mkJWorkerMetrics now 0 0 0 0 0 0 0 0 0.

(** [update(const JWorkerMetrics& other)]. *)
Definition update_from (other m : JWorkerMetrics) : JWorkerMetrics :=
  mkJWorkerMetrics (m_last_heartbeat other)
    (m_scheduler_visit_count m + m_scheduler_visit_count other)
    (m_total_useful_time m + m_total_useful_time other)
    (m_total_retry_time m + m_total_retry_time other)
    (m_total_scheduler_time m + m_total_scheduler_time other)
    (m_total_idle_time m + m_total_idle_time other)
    (m_last_useful_time other) (m_last_retry_time other)
    (m_last_scheduler_time other) (m_last_idle_time other).

(** [update(heartbeat, scheduler_visit_count, useful_time, ...)]. *)
Definition update (heartbeat scheduler_visit_count useful_time retry_time scheduler_time
    idle_time : Z) (m : JWorkerMetrics) : JWorkerMetrics :=
  mkJWorkerMetrics heartbeat (m_scheduler_visit_count m + scheduler_visit_count)
    (m_total_useful_time m + useful_time) (m_total_retry_time m + retry_time)
    (m_total_scheduler_time m + scheduler_time) (m_total_idle_time m + idle_time)
    useful_time retry_time scheduler_time idle_time.

(** The accumulated part of the metrics. *)
Definition totals (m : JWorkerMetrics) : Z * Z * Z * Z * Z :=
  (m_scheduler_visit_count m, m_total_useful_time m, m_total_retry_time m,
   m_total_scheduler_time m, m_total_idle_time m).

(** Combining worker metrics is associative, and cleared metrics are its left
    identity and, for the accumulated totals, its right identity: the monoid that
    the comment on the class describes. *)
Theorem worker_metrics_monoid a b c now :
  update_from c (update_from b a) = update_from (update_from c b) a /\
  update_from a (clear now) = a /\
  totals (update_from (clear now) a) = totals a.
Proof.
  destruct a, b, c. unfold update_from, totals; simpl.
  split; [f_equal; lia|]. split; [f_equal; lia|]. repeat apply f_equal2; lia.
Qed.

End WorkerMetrics.

Module PerfMetrics.

Inductive Mode := Reset | Ticking | Stopped.

Record JPerfMetrics := mkJPerfMetrics {
  mode_ : Mode;
  start_time_ : Z;
  prev_time_ : Z;
  last_time_ : Z;
  start_event_count_ : Z;
  prev_event_count_ : Z;
  last_event_count_ : Z;
  thread_count_ : Z
}.

Definition reset (now : Z) (m : JPerfMetrics) : JPerfMetrics :=
  mkJPerfMetrics Reset now now now (last_event_count_ m) (last_event_count_ m) 0 0.

Definition start (now current_thread_count : Z) (m : JPerfMetrics) : outcome JPerfMetrics :=
  match mode_ m with
  | Reset => Ok (mkJPerfMetrics Ticking now now now (start_event_count_ m) (prev_event_count_ m)
                   (last_event_count_ m) current_thread_count)
  | _ => throwJ "Stopwatch must be reset before it can be started!"
  end.

(** [start(current_event_count, current_thread_count)]. *)
Definition start_at (now current_event_count current_thread_count : Z) (m : JPerfMetrics)
    : outcome JPerfMetrics :=
  match mode_ m with
  | Reset => Ok (mkJPerfMetrics Ticking now now now current_event_count current_event_count
                   current_event_count current_thread_count)
  | _ => throwJ "Stopwatch must be reset before it can be started!"
  end.

Definition split (now current_event_count : Z) (m : JPerfMetrics) : JPerfMetrics :=
  match mode_ m with
  | Ticking => mkJPerfMetrics Ticking (start_time_ m) (last_time_ m) now (start_event_count_ m)
                 (last_event_count_ m) current_event_count (thread_count_ m)
  | _ => mkJPerfMetrics (mode_ m) (start_time_ m) (prev_time_ m) (last_time_ m)
           (start_event_count_ m) (prev_event_count_ m) current_event_count (thread_count_ m)
  end.

Definition stop (now : Z) (m : JPerfMetrics) : JPerfMetrics :=
  match mode_ m with
  | Ticking => mkJPerfMetrics Stopped (start_time_ m) (last_time_ m) now (start_event_count_ m)
                 (prev_event_count_ m) (last_event_count_ m) (thread_count_ m)
  | _ => m
  end.

(** [stop(current_event_count)]. *)
Definition stop_at (now current_event_count : Z) (m : JPerfMetrics) : JPerfMetrics :=
  match mode_ m with
  | Ticking => mkJPerfMetrics Stopped (start_time_ m) (last_time_ m) now (start_event_count_ m)
                 (last_event_count_ m) current_event_count (thread_count_ m)
  | _ => m
  end.

(** The integer part of [summarize]: monotonic, total and latest event counts, the two
    uptimes in clock ticks, and the thread count. *)
Definition summarize (m : JPerfMetrics) : Z * Z * Z * Z * Z * Z :=
  (last_event_count_ m, u64 (last_event_count_ m - start_event_count_ m),
   u64 (last_event_count_ m - prev_event_count_ m), last_time_ m - start_time_ m,
   last_time_ m - prev_time_ m, thread_count_ m).

Definition total_events_completed (m : JPerfMetrics) : Z := u64 (last_event_count_ m - start_event_count_ m).

(** [run_topology] does a reset and a start; [measure_performance] does a split. *)
Fixpoint splits (m : JPerfMetrics) (l : list (Z * Z)) : JPerfMetrics :=
  match l with
  | [] => m
  | (now, count) :: l' => splits (split now count m) l'
  end.

Lemma splits_ticking l : forall m,
  mode_ m = Ticking -> mode_ (splits m l) = Ticking /\
    start_event_count_ (splits m l) = start_event_count_ m.
Proof.
  induction l as [|[now count] l IH]; intros m Hm; simpl; [done|].
  destruct (IH (split now count m)) as [H1 H2]; unfold split in *; rewrite Hm in *; done.
Qed.

(** A run counts its own events.  A reset followed by a start always succeeds, and after the run's
    final split at event count [count] the summary reports [count] minus the last count seen before
    the reset, however many splits happen in between. *)
Theorem run_counts_its_events m t1 t2 threads l now count :
  exists m', start t2 threads (reset t1 m) = Ok m' /\
    total_events_completed (splits m' (l ++ [(now, count)])) = u64 (count - last_event_count_ m).
Proof.
  eexists; split; [done|].
  assert (Happ : forall l1 m l2, splits m (l1 ++ l2) = splits (splits m l1) l2).
  { induction l1 as [|[] l1 IH]; intros; simpl; [done|]. apply IH. }
  rewrite Happ. simpl. unfold total_events_completed.
  set (m1 := mkJPerfMetrics _ _ _ _ _ _ _ _).
  destruct (splits_ticking l m1 eq_refl) as [Hm Hs].
  unfold split. rewrite Hm. simpl. by rewrite Hs.
Qed.

(** Until the first split after a reset, the difference is taken from a count that
    [reset] has just zeroed: a run that follows any events reports a wrapped, huge total. *)
Theorem total_wraps_before_first_split m t1 t2 threads m' :
  start t2 threads (reset t1 m) = Ok m' -> 0 < last_event_count_ m < 2 ^ 64 ->
  total_events_completed m' = 2 ^ 64 - last_event_count_ m.
Proof.
  intros [= <-] Hpos. unfold total_events_completed, u64. simpl.
  rewrite <- (Z.mod_add _ 1) by lia. rewrite Z.mod_small; lia.
Qed.

Lemma total_wraps_before_first_split_witness :
  exists m', start 2 4 (reset 1 (mkJPerfMetrics Stopped 0 0 0 0 0 10 4)) = Ok m' /\
    total_events_completed m' = 2 ^ 64 - 10.
Proof.
  eexists. split; [reflexivity|].
  apply (total_wraps_before_first_split (mkJPerfMetrics Stopped 0 0 0 0 0 10 4) 1 2 4);
    [reflexivity|simpl; lia].
Defined.

End PerfMetrics.
