(* ===== verification/JArrow.v ===== *)
(** * JArrow: places, and the arrows that move events between them

    Models of [Topology/JArrow.h] (the [PlaceRef]s and the [Data] passed through them),
    [Topology/JPipelineArrow.h] and [Topology/JJunctionArrow.h].  The world is the
    queues and pools that the arrows share; a place refers to one of them by its index
    ([None] is a null [place_ref]).  Events are pointers.  Arrow code runs in the state
    monad of the world, so that what an exception leaves behind is visible.  The addresses
    that [new] would return are the argument [fresh] of [pull].  [execute] returns the
    status and the message count that it passes to [JArrowMetrics::update]. *)

From S2P Require Import Prelude JMailbox JPool JMetrics.
Import Mailbox Pool ArrowMetrics.
Local Open Scope Z_scope.

Module Arrow.

Definition JANA2_ARROWDATA_MAX_SIZE : nat := 10.

Record Data := mkData {
  items : list Z;
  item_count : Z;
  reserve_count : Z;
  location_id : nat
}.

(** The constructor: every item is a null pointer. *)
Definition make_data (location_id : nat) : Data :=
  mkData (replicate JANA2_ARROWDATA_MAX_SIZE 0) 0 0 location_id.

Definition set_item0 (x : Z) (d : Data) : Data :=
  mkData (<[0%nat := x]> (items d)) (item_count d) (reserve_count d) (location_id d).

Definition set_item_count (n : Z) (d : Data) : Data :=
  mkData (items d) n (reserve_count d) (location_id d).

Record PlaceRef := mkPlaceRef {
  place_ref : option nat;
  is_queue : bool;
  is_input : bool;
  min_item_count : Z;
  max_item_count : Z
}.

Record World (T : Type) := mkWorld {
  queues : list (JMailbox Z);
  pools : list (JPool T)
}.
Arguments mkWorld {T} _ _.
Arguments queues {T} _.
Arguments pools {T} _.

Section Places.
Context {T : Type} {IT : Item T}.
Abbreviation W := (World T).

(** An operation on the queue, or on the pool, that a place refers to. *)
Definition on_queue {A} (i : nat) (op : JMailbox Z -> outcome (A * JMailbox Z)) : M W A :=
  fun w =>
    match queues w !! i with
    | Some mb =>
        match op mb with
        | Ok (a, mb') => (Ok a, mkWorld (<[i := mb']> (queues w)) (pools w))
        | Throw e => (Throw e, w)
        | Undef => (Undef, w)
        end
    | None => (Undef, w)
    end.

Definition on_pool {A} (i : nat) (op : JPool T -> outcome (A * JPool T)) : M W A :=
  fun w =>
    match pools w !! i with
    | Some p =>
        match op p with
        | Ok (a, p') => (Ok a, mkWorld (queues w) (<[i := p']> (pools w)))
        | Throw e => (Throw e, w)
        | Undef => (Undef, w)
        end
    | None => (Undef, w)
    end.

(** [assert(place_ref != nullptr)]. *)
Definition deref (pl : PlaceRef) : M W nat :=
  match place_ref pl with Some i => mret i | None => lift Undef end.

Definition pull (pl : PlaceRef) (data : Data) (fresh : list Z) : M W (bool * Data) :=
  i ← deref pl;
  if is_input pl then
    if is_queue pl then
      r ← on_queue i (fun mb =>
            pop_and_reserve mb (items data) (min_item_count pl) (max_item_count pl) (location_id data));
      mret (min_item_count pl <=? r.1, mkData r.2 r.1 r.1 (location_id data))
    else
      r ← on_pool i (fun p =>
            pop p (items data) (min_item_count pl) (max_item_count pl)
              (location_id data) fresh);
      mret (min_item_count pl <=? r.1, mkData r.2 r.1 0 (location_id data))
  else
    if is_queue pl then
      n ← on_queue i (fun mb =>
            reserve_range mb (min_item_count pl) (max_item_count pl) (location_id data));
      mret (min_item_count pl <=? n, mkData (items data) 0 n (location_id data))
    else mret (true, mkData (items data) 0 0 (location_id data)).

(** [queue->push_and_unreserve(data.items.data(), ...)], [pool->push(data.items.data(), ...)]. *)
Definition give_to_queue (i : nat) (data : Data) : M W (list Z) :=
  on_queue i (fun mb =>
    push_and_unreserve 0 mb (items data) (item_count data) (reserve_count data) (location_id data)).

Definition give_to_pool (i : nat) (data : Data) : M W (list Z) :=
  on_pool i (fun p =>
    Pool.push p (items data) (item_count data) (location_id data)).

Definition revert (pl : PlaceRef) (data : Data) : M W Data :=
  i ← deref pl;
  if is_queue pl then
    its ← give_to_queue i data;
    mret (mkData its (item_count data) (reserve_count data) (location_id data))
  else if is_input pl then
    its ← give_to_pool i data;
    mret (mkData its (item_count data) (reserve_count data) (location_id data))
  else mret data.

(** [push]: the message count that the code returns, and [data] afterwards. *)
Definition push (pl : PlaceRef) (data : Data) : M W (Z * Data) :=
  i ← deref pl;
  if is_queue pl then
    its ← give_to_queue i data;
    let data := mkData its 0 0 (location_id data) in
    mret (if is_input pl then 0 else item_count data, data)
  else
    its ← give_to_pool i data;
    mret (1, mkData its 0 0 (location_id data)).

(** [PlaceRef::get_pending], [get_threshold] and [set_threshold]. *)
Definition place_pending (pl : PlaceRef) : M W Z :=
  i ← deref pl;
  if is_input pl && is_queue pl then on_queue i (fun mb => Ok (size mb, mb)) else mret 0.

Definition place_threshold (pl : PlaceRef) : M W Z :=
  i ← deref pl;
  if is_input pl && is_queue pl then on_queue i (fun mb => Ok (get_threshold mb, mb))
  else mret (u64 (-1)).

Definition place_set_threshold (threshold : Z) (pl : PlaceRef) : M W unit :=
  i ← deref pl;
  if is_input pl && is_queue pl then on_queue i (fun mb => Ok (tt, set_threshold threshold mb))
  else mret tt.

(** [JArrow::get_pending], [get_threshold] and [set_threshold] over the arrow's places. *)
Fixpoint sum_pending (places : list PlaceRef) (sum : Z) : M W Z :=
  match places with
  | [] => mret sum
  | pl :: rest => n ← place_pending pl; sum_pending rest (u64 (sum + n))
  end.

Definition get_pending (m_places : list PlaceRef) : M W Z := sum_pending m_places 0.

Fixpoint min_threshold (places : list PlaceRef) (result : Z) : M W Z :=
  match places with
  | [] => mret result
  | pl :: rest => n ← place_threshold pl; min_threshold rest (Z.min result n)
  end.

Definition get_threshold_all (m_places : list PlaceRef) : M W Z := min_threshold m_places (u64 (-1)).

Definition set_threshold_all (threshold : Z) (m_places : list PlaceRef) : M W unit :=
  for_each m_places (place_set_threshold threshold).

(** [data.items[0]]. *)
Definition item0 {S} (d : Data) : M S Z :=
  match items d !! 0%nat with Some x => mret x | None => lift Undef end.

Section Execute.
Context {P : Type}.   (* the state of the arrow's own component: sources, processors, ... *)

Definition on_world {A} (m : M W A) : M (W * P) A :=
  fun s => let '(r, w) := m s.1 in (r, (w, s.2)).

Definition on_component {A} (m : M P A) : M (W * P) A :=
  fun s => let '(r, c) := m s.2 in (r, (s.1, c)).

(** [JPipelineArrow::execute]; [process] is [DerivedT::process], which yields
    [process_succeeded] and [process_status]. *)
Definition pipeline_execute (m_input m_output : PlaceRef)
    (process : Z -> M P (bool * Status)) (location : nat) (fresh : list Z) : M (W * P) (Status * Z) :=
  r1 ← on_world (pull m_input (make_data location) fresh);
  r2 ← (if r1.1 : bool then on_world (pull m_output (make_data location) fresh)
        else mret (false, make_data location));
  let in_data := r1.2 in
  let out_data := r2.2 in
  if negb (r1.1 && r2.1) then
    _ ← on_world (revert m_input in_data);
    _ ← on_world (revert m_output out_data);
    mret (ComeBackLater, 0)
  else
    _ ← lift (assertb (item_count in_data =? 1));
    event ← item0 in_data;
    ps ← on_component (process event);
    let '(in_data, out_data) :=
      if ps.1 : bool
      then (set_item_count 0 in_data, set_item0 event (set_item_count 1 out_data))
      else (in_data, out_data) in
    _ ← on_world (push m_input in_data);
    _ ← on_world (push m_output out_data);
    mret (ps.2, if ps.1 then 1 else 0).

Section Junction.
Variables first_input first_output second_input second_output : PlaceRef.

(** [JJunctionArrow::try_pull_all]; [fresh k] is what [new] returns during pull [k]. *)
Definition try_pull_all (location : nat) (fresh : nat -> list Z)
    : M W (bool * (Data * Data * Data * Data)) :=
  let d0 := make_data location in
  fi ← pull first_input d0 (fresh 0%nat);
  if negb fi.1 then mret (false, (fi.2, d0, d0, d0)) else
  fo ← pull first_output d0 (fresh 1%nat);
  if negb fo.1 then
    fi' ← revert first_input fi.2;
    mret (false, (fi', fo.2, d0, d0))
  else
  si ← pull second_input d0 (fresh 2%nat);
  if negb si.1 then
    fi' ← revert first_input fi.2;
    fo' ← revert first_output fo.2;
    mret (false, (fi', fo', si.2, d0))
  else
  so ← pull second_output d0 (fresh 3%nat);
  if negb so.1 then
    fi' ← revert first_input fi.2;
    fo' ← revert first_output fo.2;
    si' ← revert second_input si.2;
    mret (false, (fi', fo', si', so.2))
  else mret (true, (fi.2, fo.2, si.2, so.2)).

Definition push_all (fi fo si so : Data) : M W Z :=
  a ← push first_input fi;
  b ← push first_output fo;
  c ← push second_input si;
  d ← push second_output so;
  mret (u64 (a.1 + b.1 + c.1 + d.1)).

(** [JJunctionArrow::execute]; [process] may move items between the four [Data]. *)
Definition junction_execute
    (process : Data * Data * Data * Data -> M P (Status * (Data * Data * Data * Data)))
    (location : nat) (fresh : nat -> list Z) : M (W * P) (Status * Z) :=
  r ← on_world (try_pull_all location fresh);
  if r.1 : bool then
    ps ← on_component (process r.2);
    let '(fi, fo, si, so) := ps.2 in
    n ← on_world (push_all fi fo si so);
    mret (ps.1, n)
  else mret (ComeBackLater, 0).

End Junction.
End Execute.
End Places.
End Arrow.
