(* ===== verification/Ledger.v ===== *)
(** * Ledger: what the arrows hold between a pull and a push

    The queues and pools that arrows share are described by one invariant, [ledger w H R]:
    [H] are the events in the hands of running arrows and [R] the queue slots they have
    reserved.  Every event that a pool has handed out is in exactly one queue or in [H],
    and every reservation recorded in a queue is one of [R].  The three lemmas
    [pull_ledger], [revert_handover] and [push_handover] say how the operations of a
    [PlaceRef] move events and reservations between the world and the arrow's [Data]; they
    follow from the mailbox and pool invariants, and all that the proofs about particular
    arrows use. *)

From S2P Require Import Prelude JMailbox JPool JArrow.
Import Mailbox Pool Arrow.
Local Open Scope Z_scope.

Module Ledger.

Section Accounting.
Context {T : Type} {IT : Item T} {IL : ItemLaws T}.
Implicit Types (w : World T) (H : list Z) (R : list (nat * nat * Z)) (pl : PlaceRef) (d : Data).

Definition queue_items w : list Z := concat (mailbox_items <$> queues w).

(** The reservations that concern queue [i]. *)
Definition tickets_of (i : nat) R : list (nat * Z) :=
  omap (fun t => if decide (t.1.1 = i) then Some (t.1.2, t.2) else None) R.

Definition pool_ok (p : JPool T) (out : list Z) : Prop :=
  exists ps heap, pool_inv p ps out heap.

(** Pool [i] created event [x]. *)
Definition owned w (i : nat) (x : Z) : Prop :=
  exists p, pools w !! i = Some p /\ is_Some (store p !! x).

Record ledger w H R : Prop := {
  lg_queues : forall i mb, queues w !! i = Some mb ->
    exists cap, protocol_inv cap (mkShared mb (tickets_of i R));
  lg_pools : exists outs, Forall2 pool_ok (pools w) outs /\ concat outs ≡ₚ queue_items w ++ H;
  lg_owner : forall i j x, owned w i x -> owned w j x -> i = j
}.

(** Sizes that never change: local queues per queue, and the number of pools. *)
Definition shape w : list nat * nat :=
  ((fun mb => length (m_queues mb)) <$> queues w, length (pools w)).

(** The place refers to a queue or pool that exists, at a valid location. *)
Definition valid (sh : list nat * nat) pl (loc : nat) : Prop :=
  exists i, place_ref pl = Some i /\
    if is_queue pl then exists n, sh.1 !! i = Some n /\ (loc < n)%nat else (i < sh.2)%nat.

(** The events in the arrow's hands, and the slots it has reserved. *)
Definition in_hand d : list Z := take (Z.to_nat (item_count d)) (items d).

Definition ticket_of pl d : list (nat * nat * Z) :=
  match place_ref pl with
  | Some i => if is_queue pl then [(i, location_id d, reserve_count d)] else []
  | None => []
  end.

(** Addresses that [new] may return. *)
Definition fresh_in w (fresh : list Z) : Prop :=
  NoDup fresh /\ forall i p, pools w !! i = Some p -> Forall (fresh_for p) fresh.

(** Only pulling from a pool allocates. *)
Definition can_allocate w pl (fresh : list Z) : Prop :=
  is_queue pl = false -> is_input pl = true -> fresh_in w fresh /\ min_item_count pl <= sizeZ fresh.

(** What the arrow may give to a place: no more events than it reserved slots for, or
    events that the pool created. *)
Definition fits w pl d : Prop :=
  0 <= item_count d <= sizeZ (items d) /\
  forall i, place_ref pl = Some i ->
    if is_queue pl then item_count d <= reserve_count d
    else Forall (owned w i) (in_hand d).

Lemma tickets_of_app i R1 R2 : tickets_of i (R1 ++ R2) = tickets_of i R1 ++ tickets_of i R2.
Proof. apply omap_app. Qed.

Lemma tickets_of_other i j loc n R : i <> j -> tickets_of i ((j, loc, n) :: R) = tickets_of i R.
Proof. intros Hne. unfold tickets_of. csimpl. by rewrite decide_False. Qed.

Lemma tickets_of_same i loc n R : tickets_of i ((i, loc, n) :: R) = (loc, n) :: tickets_of i R.
Proof. unfold tickets_of. csimpl. by rewrite decide_True. Qed.

(** One queue changes, and the arrow's books with it. *)
Lemma ledger_queue w H R i mb mb' H' R' :
  ledger w H R -> queues w !! i = Some mb ->
  (exists cap, protocol_inv cap (mkShared mb' (tickets_of i R'))) ->
  (forall j, j <> i -> tickets_of j R' = tickets_of j R) ->
  mailbox_items mb' ++ H' ≡ₚ mailbox_items mb ++ H ->
  ledger (mkWorld (<[i := mb']> (queues w)) (pools w)) H' R'.
Proof.
  intros [Hq (outs & Hf & Hperm) Ho] Hi Hcap Hother Hitems. split; simpl.
  - intros j mbj Hj. destruct (decide (j = i)) as [->|Hne].
    + rewrite list_lookup_insert_eq in Hj by (by eapply lookup_lt_Some). by simplify_eq.
    + rewrite list_lookup_insert_ne in Hj by done. rewrite Hother by done. eauto.
  - exists outs. split; [done|]. rewrite Hperm. unfold queue_items. simpl.
    destruct (concat_fmap_insert mailbox_items _ _ _ Hi) as (Q & HQ & HQ').
    rewrite HQ, HQ', <- !app_assoc, (Permutation_app_comm Q), (Permutation_app_comm Q), !app_assoc.
    by rewrite Hitems.
  - exact Ho.
Qed.

(** An event that pool [p] has handed out is one that it created, and handed out once. *)
Lemma pool_ok_out p out : pool_ok p out -> NoDup out /\ forall x, x ∈ out -> is_Some (store p !! x).
Proof.
  intros (ps & heap & []). split.
  - rewrite <- pi_perm0 in pi_nodup0. by apply NoDup_app in pi_nodup0 as (_ & _ & ?).
  - intros x Hx. apply pi_store0. rewrite <- pi_perm0. set_solver.
Qed.

Lemma outs_nodup (ps : list (JPool T)) outs :
  Forall2 pool_ok ps outs ->
  (forall i j p q x, ps !! i = Some p -> ps !! j = Some q ->
     is_Some (store p !! x) -> is_Some (store q !! x) -> i = j) ->
  NoDup (concat outs) /\
  forall x, x ∈ concat outs -> exists i p out, ps !! i = Some p /\ outs !! i = Some out /\ x ∈ out.
Proof.
  induction 1 as [|p out ps outs Hp Hf IH]; intros Ho; simpl.
  { split; [constructor|]. intros x Hx. by apply not_elem_of_nil in Hx. }
  destruct IH as [Hnd Hin].
  { intros i j p' q x Hi Hj Hx Hy. by pose proof (Ho (S i) (S j) p' q x Hi Hj Hx Hy) as [= ->]. }
  destruct (pool_ok_out _ _ Hp) as [Hndo Hst]. split.
  - apply NoDup_app. split; [done|]. split; [|done]. intros x Hx (i & q & outi & Hi & Houti & Hxi)%Hin.
    pose proof (Forall2_lookup_lr _ _ _ _ _ _ Hf Hi Houti) as [_ Hstq]%pool_ok_out.
    by pose proof (Ho 0%nat (S i) p q x eq_refl Hi (Hst x Hx) (Hstq x Hxi)).
  - intros x [Hx|(i & q & outi & ?)%Hin]%elem_of_app; [exists 0%nat|exists (S i)]; simpl; eauto.
Qed.

Lemma ledger_outs w H R :
  ledger w H R -> exists outs, Forall2 pool_ok (pools w) outs /\
    concat outs ≡ₚ queue_items w ++ H /\ NoDup (queue_items w ++ H) /\
    (forall x, x ∈ queue_items w ++ H ->
       exists i p out, pools w !! i = Some p /\ outs !! i = Some out /\ x ∈ out).
Proof.
  intros [_ (outs & Hf & Hperm) Ho]. exists outs.
  destruct (outs_nodup _ _ Hf) as [Hnd Hin].
  { intros i j p q x Hi Hj Hx Hy. apply (Ho i j x); [by exists p|by exists q]. }
  rewrite Hperm in Hnd. repeat split; try done. intros x. rewrite <- Hperm. apply Hin.
Qed.

Lemma ledger_nodup w H R : ledger w H R -> NoDup (queue_items w ++ H).
Proof. by intros (outs & _ & _ & ? & _)%ledger_outs. Qed.

(** One pool changes: it hands out events or takes some back. *)
Lemma ledger_pool w H R i p p' H' :
  ledger w H R -> pools w !! i = Some p ->
  (forall out, pool_ok p out -> (forall x, x ∈ H -> owned w i x -> x ∈ out) ->
     exists out', pool_ok p' out' /\ out ++ H' ≡ₚ out' ++ H) ->
  (forall j x, j <> i -> owned w j x -> store p' !! x = None) ->
  ledger (mkWorld (queues w) (<[i := p']> (pools w))) H' R.
Proof.
  intros Hl Hi Hout Hsep. pose proof Hl as (outs & Hf & Hperm & _ & Hin)%ledger_outs.
  destruct Hl as [Hq _ Ho]. split; simpl; [done| |].
  - destruct (Forall2_lookup_l _ _ _ _ _ Hf Hi) as (out & Hout_i & Hok).
    destruct (Hout out Hok) as (out' & Hok' & Hbal).
    { intros x Hx Hown. destruct (Hin x ltac:(set_solver)) as (k & q & outk & Hk & Houtk & Hxk).
      pose proof (Forall2_lookup_lr _ _ _ _ _ _ Hf Hk Houtk) as [_ Hst]%pool_ok_out.
      assert (k = i) as -> by (eapply Ho; [|done]; exists q; auto). by simplify_eq. }
    exists (<[i := out']> outs). split; [by apply Forall2_insert|].
    destruct (concat_fmap_insert id _ _ _ Hout_i) as (Q & HQ & HQ').
    specialize (HQ' out'). rewrite !list_fmap_id in HQ, HQ'. simpl in HQ, HQ'. rewrite HQ'.
    apply (Permutation_app_inv_r H). rewrite HQ in Hperm.
    rewrite <- app_assoc, (Permutation_app_comm Q), app_assoc, <- Hbal.
    rewrite <- (app_assoc (queue_items w)), (Permutation_app_comm H'), app_assoc.
    change (queue_items (mkWorld (queues w) (<[i := p']> (pools w)))) with (queue_items w).
    rewrite <- Hperm. solve_Permutation.
  - assert (Hcase : forall k x, owned (mkWorld (queues w) (<[i := p']> (pools w))) k x ->
      k = i /\ is_Some (store p' !! x) \/ k <> i /\ owned w k x).
    { intros k x (q & Hk & Hx). simpl in Hk. destruct (decide (k = i)) as [->|Hne].
      - rewrite list_lookup_insert_eq in Hk by (by eapply lookup_lt_Some). simplify_eq. auto.
      - rewrite list_lookup_insert_ne in Hk by done. right. split; [done|]. by exists q. }
    intros j k x [[-> Hj]|[Hj Hj']]%Hcase [[-> Hk]|[Hk Hk']]%Hcase; [done| | |by eapply Ho].
    + rewrite (Hsep k x) in Hj by done. by destruct Hj.
    + rewrite (Hsep j x) in Hk by done. by destruct Hk.
Qed.

(** The order in which the arrows hold things does not matter. *)
#[export] Instance ledger_perm w : Proper ((≡ₚ) ==> (≡ₚ) ==> iff) (ledger w).
Proof.
  assert (Himp : forall H H' R R', H ≡ₚ H' -> R ≡ₚ R' -> ledger w H R -> ledger w H' R').
  { intros H H' R R' HH HR [Hq (outs & Hf & Hp) Ho]. split; [|exists outs; by rewrite <- HH|done].
    intros i mb Hi. destruct (Hq i mb Hi) as [cap Hcap]. exists cap.
    eapply protocol_inv_perm; [|exact Hcap]. unfold tickets_of. by rewrite HR. }
  intros H H' HH R R' HR. split; apply Himp; done.
Qed.

Lemma shape_queue w i mb mb' :
  queues w !! i = Some mb -> length (m_queues mb') = length (m_queues mb) ->
  shape (mkWorld (<[i := mb']> (queues w)) (pools w)) = shape w.
Proof.
  intros Hi Hlen. unfold shape. simpl. f_equal. rewrite list_fmap_insert.
  apply list_insert_id. by rewrite list_lookup_fmap, Hi, Hlen.
Qed.

Lemma shape_pool w i p :
  shape (mkWorld (queues w) (<[i := p]> (pools w))) = shape w.
Proof. unfold shape. simpl. by rewrite length_insert. Qed.

Lemma valid_queue w pl loc :
  valid (shape w) pl loc -> is_queue pl = true ->
  exists i mb, place_ref pl = Some i /\ queues w !! i = Some mb /\ (loc < length (m_queues mb))%nat.
Proof.
  intros (i & Hi & Hv) Hq. rewrite Hq in Hv. destruct Hv as (n & Hn & Hlt). simpl in Hn.
  rewrite list_lookup_fmap in Hn. destruct (queues w !! i) as [mb|] eqn:Hmb; simplify_eq/=. eauto.
Qed.

Lemma valid_pool w pl loc :
  valid (shape w) pl loc -> is_queue pl = false ->
  exists i p, place_ref pl = Some i /\ pools w !! i = Some p.
Proof.
  intros (i & Hi & Hv) Hq. rewrite Hq in Hv. simpl in Hv.
  destruct (lookup_lt_is_Some_2 _ _ Hv) as [p Hp]. eauto.
Qed.

(** [push_and_unreserve] of what the arrow holds for a queue. *)
Lemma give_to_queue_ledger w H R i mb d :
  ledger w (in_hand d ++ H) ((i, location_id d, reserve_count d) :: R) ->
  queues w !! i = Some mb ->
  0 <= item_count d <= sizeZ (items d) -> item_count d <= reserve_count d ->
  exists its w', give_to_queue i d w = (Ok its, w') /\ shape w' = shape w /\ ledger w' H R /\
    pools w' = pools w.
Proof.
  intros Hl Hi Hc Hr. destruct (lg_queues _ _ _ Hl i mb Hi) as [cap Hcap].
  rewrite tickets_of_same in Hcap.
  destruct (push_and_unreserve_ok 0 _ _ _ _ (items d) (item_count d) (reserve_count d) Hcap
    (list_elem_of_here _ _)) as [[its mb'] Hok]; [lia|lia|].
  exists its. unfold give_to_queue, on_queue. rewrite Hi, Hok. eexists. split; [done|].
  assert (Hs : op_step 0 mb (location_id d) (in_hand d) [] mb') by (by econstructor).
  split; [by eapply shape_queue, op_step_length|]. split; [|done].
  eapply ledger_queue; [exact Hl|done| | |].
  - exists cap. eapply (push_and_unreserve_inv 0 _ _ []); [exact Hcap| |exact Hok]. lia.
  - intros j Hj. by rewrite tickets_of_other.
  - apply op_step_items in Hs. simpl in Hs. rewrite <- Hs. solve_Permutation.
Qed.

(** An event in hand was created by some pool. *)
Lemma ledger_owned w H R x : ledger w H R -> x ∈ H -> exists k, owned w k x.
Proof.
  intros (outs & Hf & _ & _ & Hin)%ledger_outs Hx.
  destruct (Hin x ltac:(set_solver)) as (k & p & out & Hk & Hout & Hxo).
  pose proof (Forall2_lookup_lr _ _ _ _ _ _ Hf Hk Hout) as [_ Hst]%pool_ok_out.
  exists k, p. auto.
Qed.

Lemma pool_push_ok p out d :
  pool_ok p out -> NoDup (in_hand d) -> (forall x, x ∈ in_hand d -> x ∈ out) ->
  0 <= item_count d <= sizeZ (items d) ->
  exists its p' out', Pool.push p (items d) (item_count d) (location_id d)
    = Ok (its, p') /\ pool_ok p' out' /\ out ≡ₚ in_hand d ++ out'.
Proof.
  intros (ps & heap & Hinv) Hnd Hsub Hc.
  destruct (submseteq_Permutation (in_hand d) out) as [out' Hout]; [by apply NoDup_submseteq|].
  destruct (pool_push_loop_inv (Z.to_nat (item_count d)) 0 (items d) p ps out' heap
    (location_id d)) as (its & p' & ps' & heap' & Hok & _ & Hinv').
  - unfold sizeZ in Hc. lia.
  - rewrite drop_0. by eapply pool_inv_out.
  - exists its, p', out'. split; [done|]. split; [by exists ps', heap'|done].
Qed.

(** [push] of what the arrow holds for the pool that created it. *)
Lemma give_to_pool_ledger w H R i p d :
  ledger w (in_hand d ++ H) R -> pools w !! i = Some p ->
  0 <= item_count d <= sizeZ (items d) -> Forall (owned w i) (in_hand d) ->
  exists its w', give_to_pool i d w = (Ok its, w') /\ shape w' = shape w /\ ledger w' H R /\
    forall k x, x ∈ H -> owned w k x -> owned w' k x.
Proof.
  intros Hl Hi Hc Hown. pose proof Hl as (outs & Hf & _ & Hnd & Hin)%ledger_outs.
  apply NoDup_app in Hnd as (_ & _ & [Hnd _]%NoDup_app).
  destruct (Forall2_lookup_l _ _ _ _ _ Hf Hi) as (out & Hout & Hok).
  destruct (pool_push_ok p out d Hok Hnd) as (its & p' & out' & Hpush & Hok' & Hperm).
  { intros x Hx. rewrite Forall_forall in Hown.
    destruct (Hin x ltac:(set_solver)) as (k & q & outk & Hk & Houtk & Hxk).
    pose proof (Forall2_lookup_lr _ _ _ _ _ _ Hf Hk Houtk) as [_ Hst]%pool_ok_out.
    assert (k = i) as -> by (eapply (lg_owner _ _ _ Hl); [|by apply Hown]; exists q; auto).
    by simplify_eq. }
  { done. }
  set (w' := mkWorld (queues w) (<[i := p']> (pools w))).
  assert (Hshrink : forall k x, owned w' k x -> owned w k x).
  { intros k x (q & Hk & Hx). simpl in Hk. destruct (decide (k = i)) as [->|Hne].
    - rewrite list_lookup_insert_eq in Hk by (by eapply lookup_lt_Some). simplify_eq.
      exists p. split; [done|]. by eapply (push_loop_store).
    - rewrite list_lookup_insert_ne in Hk by done. by exists q. }
  assert (Hl' : ledger w' H R).
  { eapply ledger_pool; [exact Hl|done| |].
    - intros out2 Hok2 Hsub2.
      destruct (pool_push_ok p out2 d Hok2 Hnd) as (its2 & p2 & out2' & Hpush2 & Hok2' & Hperm2);
        [|done|].
      { intros x Hx. apply Hsub2; [set_solver|]. rewrite Forall_forall in Hown. auto. }
      assert (p2 = p') as -> by congruence. exists out2'. split; [done|].
      rewrite Hperm2. solve_Permutation.
    - intros j x Hj Hjx. destruct (store p' !! x) as [v|] eqn:Hx; [|done]. destruct Hj.
      apply (lg_owner _ _ _ Hl j i x Hjx). apply Hshrink. exists p'. simpl.
      rewrite list_lookup_insert_eq by (by eapply lookup_lt_Some). by rewrite Hx. }
  exists its, w'. unfold give_to_pool, on_pool. rewrite Hi, Hpush. split; [done|].
  split; [apply shape_pool|]. split; [done|]. intros k x Hx Hk.
  destruct (ledger_owned _ _ _ x Hl' Hx) as [k' Hk'].
  by rewrite (lg_owner _ _ _ Hl k k' x Hk (Hshrink _ _ Hk')).
Qed.

Lemma on_queue_ok {A} i (op : JMailbox Z -> outcome (A * JMailbox Z)) w mb a mb' :
  queues w !! i = Some mb -> op mb = Ok (a, mb') ->
  on_queue i op w = (Ok a, mkWorld (<[i := mb']> (queues w)) (pools w)).
Proof. unfold on_queue. by intros -> ->. Qed.

Lemma on_pool_ok {A} i (op : JPool T -> outcome (A * JPool T)) w p a p' :
  pools w !! i = Some p -> op p = Ok (a, p') ->
  on_pool i op w = (Ok a, mkWorld (queues w) (<[i := p']> (pools w))).
Proof. unfold on_pool. by intros -> ->. Qed.

(** [op] takes what the arrow holds for a place out of its hands. *)
Definition handover {A} (op : M (World T) A) pl d : Prop :=
  forall w H R, ledger w (in_hand d ++ H) (ticket_of pl d ++ R) ->
    valid (shape w) pl (location_id d) -> fits w pl d ->
    exists r w', op w = (Ok r, w') /\ shape w' = shape w /\ ledger w' H R /\
      forall k x, x ∈ H -> owned w k x -> owned w' k x.

(** [PlaceRef::push] hands over what the arrow holds for the place. *)
Lemma push_handover pl d : handover (push pl d) pl d.
Proof.
  intros w H R Hl Hv [Hc Hfit]. unfold ticket_of in Hl. unfold push, deref.
  destruct (is_queue pl) eqn:Hq.
  - destruct (valid_queue _ _ _ Hv Hq) as (i & mb & Hi & Hmb & _).
    specialize (Hfit i Hi). rewrite Hi in Hl |- *.
    destruct (give_to_queue_ledger w H R i mb d) as (its & w' & Hg & Hs & Hl' & Hp); auto.
    rewrite M_bind_ret. mstep Hg. eexists _, w'. repeat split; try done; try apply Hl'.
    intros k x _ (p & Hk & Hx). exists p. by rewrite Hp.
  - destruct (valid_pool _ _ _ Hv Hq) as (i & p & Hi & Hp).
    specialize (Hfit i Hi). rewrite Hi in Hl |- *.
    destruct (give_to_pool_ledger w H R i p d) as (its & w' & Hg & Hs & Hl' & Ho); auto.
    rewrite M_bind_ret. mstep Hg. eexists _, w'. repeat split; try done; apply Hl'.
Qed.

(** [PlaceRef::revert] gives back what [pull] took. *)
Lemma revert_handover pl d :
  (is_input pl = false -> item_count d = 0) -> handover (revert pl d) pl d.
Proof.
  intros Hout w H R Hl Hv [Hc Hfit]. unfold ticket_of in Hl. unfold revert, deref.
  destruct (is_queue pl) eqn:Hq.
  - destruct (valid_queue _ _ _ Hv Hq) as (i & mb & Hi & Hmb & _).
    specialize (Hfit i Hi). rewrite Hi in Hl |- *.
    destruct (give_to_queue_ledger w H R i mb d) as (its & w' & Hg & Hs & Hl' & Hp); auto.
    rewrite M_bind_ret. mstep Hg. eexists _, w'. repeat split; try done; try apply Hl'.
    intros k x _ (p & Hk & Hx). exists p. by rewrite Hp.
  - destruct (valid_pool _ _ _ Hv Hq) as (i & p & Hi & Hp).
    specialize (Hfit i Hi). rewrite Hi in Hl |- *.
    destruct (is_input pl).
    + destruct (give_to_pool_ledger w H R i p d) as (its & w' & Hg & Hs & Hl' & Ho); auto.
      rewrite M_bind_ret. mstep Hg. eexists _, w'. repeat split; try done; apply Hl'.
    + eexists _, w. unfold in_hand in Hl. rewrite Hout in Hl by done. repeat split; try done; apply Hl.
Qed.

(** What [PlaceRef::pull] leaves in [data], and in the world. *)
Record pulled w H R pl d (fresh : list Z) b d' w' : Prop := {
  pd_shape : shape w' = shape w;
  pd_ledger : ledger w' (in_hand d' ++ H) (ticket_of pl d' ++ R);
  pd_location : location_id d' = location_id d;
  pd_length : length (items d') = length (items d);
  pd_fits : fits w' pl d';
  pd_owned : forall k x, owned w k x -> owned w' k x;
  pd_source : is_queue pl = true -> forall k mb x, place_ref pl = Some k ->
    queues w !! k = Some mb -> x ∈ in_hand d' -> x ∈ mailbox_items mb;
  pd_fresh : forall f, f ## fresh -> fresh_in w f -> fresh_in w' f;
  pd_failed : b = false -> item_count d' = 0 /\ reserve_count d' = 0;
  pd_max : item_count d' <= max_item_count pl;
  pd_output : is_input pl = false -> item_count d' = 0;
  pd_input : b = true -> is_input pl = true -> min_item_count pl <= item_count d';
  pd_reserved : b = true -> is_queue pl = true -> min_item_count pl <= reserve_count d'
}.

Lemma pull_queue_ledger w H R i mb pl d :
  ledger w H R -> place_ref pl = Some i -> is_queue pl = true -> queues w !! i = Some mb ->
  (location_id d < length (m_queues mb))%nat ->
  0 <= min_item_count pl <= max_item_count pl -> max_item_count pl <= sizeZ (items d) ->
  forall fresh, exists b d' w', pull pl d fresh w = (Ok (b, d'), w') /\ pulled w H R pl d fresh b d' w'.
Proof.
  intros Hl Hi Hq Hmb Hloc Hmm Hmax fresh. unfold pull, deref. rewrite Hi, Hq, M_bind_ret.
  destruct (lg_queues _ _ _ Hl i mb Hmb) as [cap Hcap].
  destruct (is_input pl) eqn:Hin.
  - destruct (pop_and_reserve_ok mb (items d) _ _ _ Hloc Hmm Hmax) as (n & b & mb' & Hpop & Hn & Hn' & Hb).
    erewrite M_bind_ok; [|eapply on_queue_ok; [exact Hmb|exact Hpop]]. eexists _, _, _. split; [done|].
    assert (Hs : op_step 0 mb (location_id d) [] (take (Z.to_nat n) b) mb')
      by (apply (os_pop_and_reserve 0 _ _ _ _ _ _ _ Hpop)).
    split; cbn; try done; try (intros; rewrite ?Z.leb_le, ?Z.leb_gt in *; (lia || congruence)).
    + by eapply shape_queue, op_step_length.
    + unfold ticket_of. rewrite Hi, Hq. cbn. eapply ledger_queue; [exact Hl|done| | |].
      * exists cap. rewrite tickets_of_same. eapply pop_and_reserve_inv; [done| |done]. lia.
      * intros j Hj. by rewrite tickets_of_other.
      * apply op_step_items in Hs. rewrite app_nil_r in Hs. rewrite Hs. unfold in_hand. cbn.
        solve_Permutation.
    + split; cbn; [unfold sizeZ in *; lia|]. intros j Hj. rewrite Hq. lia.
    + intros _ k mbk x Hk Hmbk Hx. simplify_eq.
      apply op_step_items in Hs. rewrite app_nil_r in Hs. rewrite Hs.
      unfold in_hand in Hx. set_solver.
  - destruct (reserve_range_ok cap mb _ _ _ _ Hcap Hloc Hmm) as (n & mb' & Hres & Hn & Hn').
    erewrite M_bind_ok; [|eapply on_queue_ok; [exact Hmb|exact Hres]]. eexists _, _, _. split; [done|].
    assert (Hs : op_step 0 mb (location_id d) [] [] mb') by (by econstructor).
    split; cbn; try done; try (intros; rewrite ?Z.leb_le, ?Z.leb_gt in *; (lia || congruence)).
    + by eapply shape_queue, op_step_length.
    + unfold ticket_of. rewrite Hi, Hq. cbn. eapply ledger_queue; [exact Hl|done| | |].
      * exists cap. rewrite tickets_of_same. eapply reserve_range_inv; [done| |done]. lia.
      * intros j Hj. by rewrite tickets_of_other.
      * apply op_step_items in Hs. rewrite app_nil_r in Hs. by rewrite Hs.
    + split; cbn; [unfold sizeZ; lia|]. intros j Hj. rewrite Hq. lia.
    + intros _ k mbk x _ _ Hx. by apply not_elem_of_nil in Hx.
Qed.

Lemma pull_pool_ledger w H R i p pl d fresh :
  ledger w H R -> place_ref pl = Some i -> is_queue pl = false -> pools w !! i = Some p ->
  0 <= min_item_count pl <= max_item_count pl -> max_item_count pl <= sizeZ (items d) ->
  can_allocate w pl fresh ->
  exists b d' w', pull pl d fresh w = (Ok (b, d'), w') /\ pulled w H R pl d fresh b d' w'.
Proof.
  intros Hl Hi Hq Hp Hmm Hmax Halloc. unfold pull, deref. rewrite Hi, Hq, M_bind_ret.
  assert (Htick : forall d', ticket_of pl d' ++ R = R) by (intros; unfold ticket_of; by rewrite Hi, Hq).
  destruct (is_input pl) eqn:Hin.
  2:{ eexists _, _, w. split; [done|]. split; cbn; rewrite ?Hin, ?Hq; try done; try (intros; (lia || congruence)).
      - by rewrite Htick.
      - split; cbn; [pose proof (sizeZ_nonneg (items d)); lia|].
        intros j Hj. rewrite Hq. constructor. }
  destruct (Halloc Hq Hin) as [[Hnd Hfresh] Hlen].
  pose proof Hl as (outs & Hf & _ & _ & _)%ledger_outs.
  destruct (Forall2_lookup_l _ _ _ _ _ Hf Hp) as (out & _ & (ps & heap & Hinv)).
  destruct (pop_ok p ps out heap (items d) _ _
    (location_id d) fresh Hinv Hmm Hmax Hlen) as (n & its & p' & Hpop & Hn & Hn').
  assert (Hpopped : forall out, pool_ok p out -> length its = length (items d) /\
    pool_ok p' (take (Z.to_nat n) its ++ out)).
  { intros out2 (ps2 & heap2 & Hinv2).
    destruct (pool_pop_inv p ps2 out2 heap2 (items d) _ (max_item_count pl) (location_id d) fresh n its p' Hinv2
      (Hfresh i p Hp) Hnd ltac:(lia) Hpop) as (Hl2 & ps' & heap' & Hinv'). split; [done|]. by exists ps', heap'. }
  pose proof (fun x => pop_store p _ _ _ _ _ _ p' x Hpop) as Hstore.
  destruct (Hpopped out ltac:(by exists ps, heap)) as [Hlits [_ Hst]%pool_ok_out].
  erewrite M_bind_ok; [|eapply on_pool_ok; [exact Hp|exact Hpop]]. eexists _, _, _. split; [done|].
  set (w' := mkWorld (queues w) (<[i := p']> (pools w))).
  assert (Hp' : pools w' !! i = Some p').
  { simpl. apply list_lookup_insert_eq. by eapply lookup_lt_Some. }
  split; cbn; rewrite ?Htick; try done; try (intros; rewrite ?Z.leb_le, ?Z.leb_gt in *; (lia || congruence)).
  - apply shape_pool.
  - eapply ledger_pool; [done..| |].
    + intros out2 Hok2 _. exists (take (Z.to_nat n) its ++ out2). split; [by apply Hpopped|].
      unfold in_hand. cbn. solve_Permutation.
    + intros j x Hj (q & Hjq & Hx). apply eq_None_not_Some. intros [Hx'|Hx']%Hstore.
      * destruct Hj. apply (lg_owner _ _ _ Hl j i x); [by exists q|by exists p].
      * pose proof (Hfresh j q Hjq) as Hfr. rewrite Forall_forall in Hfr.
        destruct (Hfr x Hx') as [Hnone _]. rewrite Hnone in Hx. by destruct Hx.
  - split; cbn; [unfold sizeZ in *; lia|]. intros j Hj. rewrite Hq. simplify_eq.
    apply Forall_forall. intros x Hx. exists p'. split; [done|]. apply Hst. unfold in_hand in Hx. set_solver.
  - intros k x (q & Hk & Hx). destruct (decide (k = i)) as [->|Hne].
    + simplify_eq. exists p'. split; [done|]. by apply Hstore.
    + exists q. split; [|done]. simpl. by rewrite list_lookup_insert_ne.
  - intros f Hdis [Hndf Hff]. split; [done|]. intros k q Hk. simpl in Hk.
    destruct (decide (k = i)) as [->|Hne].
    + rewrite list_lookup_insert_eq in Hk by (by eapply lookup_lt_Some). simplify_eq.
      pose proof (Hff i p Hp) as Hfp. rewrite Forall_forall in *. intros a Ha.
      eapply pop_fresh; [exact Hinv|exact Hpop|set_solver|auto].
    + rewrite list_lookup_insert_ne in Hk by done. eauto.
Qed.

(** [PlaceRef::pull] always returns, and moves events and slots into the arrow's books. *)
Lemma pull_ledger w H R pl d fresh :
  ledger w H R -> valid (shape w) pl (location_id d) ->
  0 <= min_item_count pl <= max_item_count pl -> max_item_count pl <= sizeZ (items d) ->
  can_allocate w pl fresh ->
  exists b d' w', pull pl d fresh w = (Ok (b, d'), w') /\ pulled w H R pl d fresh b d' w'.
Proof.
  intros Hl Hv Hmm Hmax Hf. destruct (is_queue pl) eqn:Hq.
  - destruct (valid_queue _ _ _ Hv Hq) as (i & mb & Hi & Hmb & Hloc). by eapply pull_queue_ledger.
  - destruct (valid_pool _ _ _ Hv Hq) as (i & p & Hi & Hp). by eapply pull_pool_ledger.
Qed.

(** What fits a place still fits once other places have been pulled from. *)
Lemma fits_mono w w' pl d :
  (forall k x, x ∈ in_hand d -> owned w k x -> owned w' k x) -> fits w pl d -> fits w' pl d.
Proof.
  intros Ho [Hc Hf]. split; [done|]. intros i Hi. specialize (Hf i Hi).
  destruct (is_queue pl); [done|]. rewrite Forall_forall in *. auto.
Qed.

(** One hand-over after the other. *)
Inductive runs {A} : list (M (World T) A) -> World T -> World T -> Prop :=
| runs_nil w : runs [] w w
| runs_cons op ops r w w1 w2 : op w = (Ok r, w1) -> runs ops w1 w2 -> runs (op :: ops) w w2.

Lemma handover_all {A} (l : list (M (World T) A * PlaceRef * Data)) : forall w H R,
  Forall (fun '(op, pl, d) => handover op pl d /\ valid (shape w) pl (location_id d) /\ fits w pl d) l ->
  ledger w (concat ((fun t => in_hand t.2) <$> l) ++ H)
    (concat ((fun t => ticket_of t.1.2 t.2) <$> l) ++ R) ->
  exists w', runs (l.*1.*1) w w' /\ shape w' = shape w /\ ledger w' H R /\
    forall k x, x ∈ H -> owned w k x -> owned w' k x.
Proof.
  induction l as [|[[op pl] d] l IH]; intros w H R Hall Hl; csimpl in *.
  - exists w. split; [constructor|auto].
  - apply Forall_cons in Hall as [(Hop & Hv & Hf) Hall]. rewrite <- !app_assoc in Hl.
    destruct (Hop _ _ _ Hl Hv Hf) as (r & w1 & Hr & Hs1 & Hl1 & Ho1).
    destruct (IH w1 H R) as (w2 & Hrun & Hs2 & Hl2 & Ho2); [|done|].
    + rewrite Forall_forall in *. intros [[op' pl'] d'] Hin. destruct (Hall _ Hin) as (? & ? & Hf').
      split; [done|]. rewrite Hs1. split; [done|]. eapply fits_mono; [|exact Hf'].
      intros k x Hx. apply Ho1. apply elem_of_app. left.
      apply list_elem_of_In, in_concat. exists (in_hand d').
      rewrite <- !list_elem_of_In. split; [|done]. apply list_elem_of_fmap. by exists (op', pl', d').
    + exists w2. split; [by econstructor|]. split; [congruence|]. split; [done|].
      intros k x Hx Hk. apply Ho2; [done|]. apply Ho1; [|done]. apply elem_of_app. by right.
Qed.

Lemma handover_both {A} (op1 op2 : M (World T) A) pl1 d1 pl2 d2 w H R :
  handover op1 pl1 d1 -> handover op2 pl2 d2 ->
  ledger w (in_hand d1 ++ in_hand d2 ++ H) (ticket_of pl1 d1 ++ ticket_of pl2 d2 ++ R) ->
  valid (shape w) pl1 (location_id d1) -> valid (shape w) pl2 (location_id d2) ->
  fits w pl1 d1 -> fits w pl2 d2 ->
  exists r1 r2 w1 w2, op1 w = (Ok r1, w1) /\ op2 w1 = (Ok r2, w2) /\
    shape w2 = shape w /\ ledger w2 H R /\ forall k x, x ∈ H -> owned w k x -> owned w2 k x.
Proof.
  intros Hop1 Hop2 Hl Hv1 Hv2 Hf1 Hf2.
  destruct (handover_all [(op1, pl1, d1); (op2, pl2, d2)] w H R) as (w2 & Hrun & Hrest).
  - by rewrite !Forall_cons, Forall_nil.
  - csimpl. by rewrite !app_nil_r, <- !app_assoc.
  - inversion_clear Hrun as [|? ? r1 ? w1 ? Hr1 Hrun']. inversion_clear Hrun' as [|? ? r2 ? w2' ? Hr2 Hend].
    inversion Hend; subst. exists r1, r2, w1, w2. by repeat split; try apply Hrest.
Qed.

(** A pull that failed took nothing. *)
Lemma failed_ledger w w' H R pl d fresh d' :
  pulled w H R pl d fresh false d' w' -> ledger w' H R.
Proof.
  intros Hp. pose proof (pd_ledger _ _ _ _ _ _ _ _ _ Hp) as Hl.
  destruct (pd_failed _ _ _ _ _ _ _ _ _ Hp eq_refl) as [Hc Hr].
  unfold in_hand, ticket_of in Hl. rewrite Hc, Hr in Hl. simpl in Hl.
  destruct (place_ref pl) as [i|]; [|done]. destruct (is_queue pl); [|done].
  destruct Hl as [Hq Hpools Ho]. split; [|done|done]. intros j mb Hj.
  destruct (Hq j mb Hj) as [cap Hcap]. exists cap. destruct (decide (j = i)) as [->|Hne].
  - cbn [app] in Hcap. rewrite tickets_of_same in Hcap. by eapply protocol_inv_drop_zero.
  - cbn [app] in Hcap. by rewrite tickets_of_other in Hcap.
Qed.

(** The initial state: empty queues, and pools that [init] has filled. *)
Lemma ledger_init w :
  (forall i mb, queues w !! i = Some mb ->
     exists cap locs stealing, 0 <= cap < 2 ^ 64 /\ mb = Mailbox.make cap locs stealing) ->
  Forall (fun p => pool_ok p []) (pools w) ->
  (forall i j x, owned w i x -> owned w j x -> i = j) ->
  ledger w [] [].
Proof.
  intros Hq Hp Ho. split; [|exists ((fun _ => []) <$> pools w)|done].
  - intros i mb (cap & locs & st & Hcap & ->)%Hq. exists cap. by apply make_inv.
  - split; [by apply Forall2_fmap_r, Forall_Forall2_diag|].
    rewrite app_nil_r. unfold queue_items. rewrite !concat_all_nil; [done| |].
    + apply Forall_fmap, Forall_forall. intros mb [i Hi]%list_elem_of_lookup.
      destruct (Hq i mb Hi) as (cap & locs & st & _ & ->). apply concat_all_nil.
      apply Forall_fmap, Forall_replicate. done.
    + by apply Forall_fmap, Forall_true.
Qed.

(** A [Data] that was never pulled holds nothing. *)
Lemma zero_ticket w H R pl loc :
  ledger w H R -> valid (shape w) pl loc -> ledger w H (ticket_of pl (make_data loc) ++ R).
Proof.
  intros Hl Hv. unfold ticket_of. destruct (place_ref pl) as [i|] eqn:Hi; [|done].
  destruct (is_queue pl) eqn:Hq; [|done]. destruct (valid_queue _ _ _ Hv Hq) as (i' & mb & ? & Hmb & Hlt).
  simplify_eq. destruct w as [qs ps]. simpl in Hmb.
  rewrite <- (list_insert_id qs i mb Hmb). 
  eapply (ledger_queue (mkWorld qs ps) H R i mb mb); [exact Hl|done| | |done].
  - destruct (lg_queues _ _ _ Hl i mb Hmb) as [cap Hcap]. exists cap.
    cbn [app make_data location_id reserve_count]. rewrite tickets_of_same.
    destruct (lookup_lt_is_Some_2 _ _ Hlt) as [q Hmq].
    pose proof (protocol_inv_at _ _ _ _ _ Hcap Hmq) as (_ & _ & Hr & _ & _ & Hle).
    assert (Hsame : set_queue loc q mb = mb).
    { destruct mb. unfold set_queue. simpl in *. by rewrite list_insert_id. }
    rewrite <- Hsame at 1. eapply inv_take_ticket; try done; lia.
  - intros j Hj. cbn [app]. by rewrite tickets_of_other.
Qed.

End Accounting.

Arguments pd_shape {T IT IL w H R pl d fresh b d' w'} _.
Arguments pd_ledger {T IT IL w H R pl d fresh b d' w'} _.
Arguments pd_location {T IT IL w H R pl d fresh b d' w'} _.
Arguments pd_length {T IT IL w H R pl d fresh b d' w'} _.
Arguments pd_fits {T IT IL w H R pl d fresh b d' w'} _.
Arguments pd_owned {T IT IL w H R pl d fresh b d' w'} _.
Arguments pd_source {T IT IL w H R pl d fresh b d' w'} _.
Arguments pd_fresh {T IT IL w H R pl d fresh b d' w'} _.
Arguments pd_failed {T IT IL w H R pl d fresh b d' w'} _.
Arguments pd_max {T IT IL w H R pl d fresh b d' w'} _.
Arguments pd_output {T IT IL w H R pl d fresh b d' w'} _.
Arguments pd_input {T IT IL w H R pl d fresh b d' w'} _.
Arguments pd_reserved {T IT IL w H R pl d fresh b d' w'} _.
Arguments lg_queues {T IT IL w H R} _.
Arguments lg_owner {T IT IL w H R} _.

End Ledger.
