(* ===== verification/JPipelineArrow.v ===== *)
(** * JPipelineArrow and JJunctionArrow: arrows conserve events and reservations

    Theorems about [Arrow.pipeline_execute] and [Arrow.junction_execute], the
    executions of [Topology/JPipelineArrow.h] and [Topology/JJunctionArrow.h], proved
    from the laws of places in [Ledger]. *)

From S2P Require Import Prelude JMailbox JPool JMetrics JArrow Ledger.
Import Mailbox Pool Arrow Ledger.
Local Open Scope Z_scope.

Module PipelineArrow.

Section Conservation.
Context {T P : Type} {IT : Item T} {IL : ItemLaws T}.
Implicit Types (w : World T) (H : list Z) (R : list (nat * nat * Z)) (pl : PlaceRef) (d : Data).

(** The places that the constructor of [JPipelineArrow] sets up, attached to queues and
    pools that exist: one item at a time. *)
Record pipeline_places w m_input m_output (loc : nat) : Prop := {
  pp_input : is_input m_input = true /\ min_item_count m_input = 1 /\ max_item_count m_input = 1;
  pp_output : is_input m_output = false /\ min_item_count m_output = 1 /\ max_item_count m_output = 1;
  pp_valid_in : valid (shape w) m_input loc;
  pp_valid_out : valid (shape w) m_output loc;
  pp_owner : forall i, is_queue m_output = false -> place_ref m_output = Some i ->
    if is_queue m_input
    then forall k mb x, place_ref m_input = Some k -> queues w !! k = Some mb ->
           x ∈ mailbox_items mb -> owned w i x
    else place_ref m_input = Some i
}.

Lemma on_world_ok {A} (m : M (World T) A) w (c : P) a w' :
  m w = (Ok a, w') -> on_world m (w, c) = (Ok a, (w', c)).
Proof. unfold on_world. simpl. by intros ->. Qed.

Lemma make_data_size loc : sizeZ (items (make_data loc)) = 10.
Proof. done. Qed.

Lemma in_hand_zero d : item_count d = 0 -> in_hand d = [].
Proof. unfold in_hand. by intros ->. Qed.

Lemma in_hand_one d : item_count d = 1 -> 1 <= sizeZ (items d) ->
  exists x, items d !! 0%nat = Some x /\ in_hand d = [x].
Proof.
  unfold in_hand, sizeZ. intros -> Hl. destruct (items d) as [|x its]; simpl in *; [lia|]. eauto.
Qed.

(** What [execute] may do when it is called with the component state [c]. *)
Definition pipeline_result (c : P) H R (process : Z -> M P (bool * ArrowMetrics.Status)) o w' c' : Prop :=
  (o = Ok (ArrowMetrics.ComeBackLater, 0) /\ c' = c /\ ledger w' H R) \/
  exists x r, process x c = (r, c') /\
    match r with
    | Ok (succeeded, status) => o = Ok (status, if succeeded then 1 else 0) /\ ledger w' H R
    | Throw e => o = Throw e /\ exists tickets, ledger w' (x :: H) (tickets ++ R)
    | Undef => o = Undef
    end.

(** The two [Data] after [process]: the event has moved, or has stayed. *)
Definition processed (succeeded : bool) (event : Z) d1 d2 : Data * Data :=
  if succeeded then (set_item_count 0 d1, set_item0 event (set_item_count 1 d2)) else (d1, d2).

Lemma processed_fits w m_input m_output loc fresh H R w1 d1 w2 d2 x succeeded :
  pipeline_places w m_input m_output loc ->
  pulled w H R m_input (make_data loc) fresh true d1 w1 ->
  pulled w1 (in_hand d1 ++ H) (ticket_of m_input d1 ++ R) m_output (make_data loc) fresh true d2 w2 ->
  item_count d1 = 1 -> in_hand d1 = [x] ->
  let '(i, o) := processed succeeded x d1 d2 in
  in_hand i ++ in_hand o = [x] /\ ticket_of m_input i = ticket_of m_input d1 /\
  ticket_of m_output o = ticket_of m_output d2 /\ location_id i = loc /\ location_id o = loc /\
  fits w2 m_input i /\ fits w2 m_output o.
Proof.
  intros [(Hii & Himin & Himax) (Hoi & Homin & Homax) Hvi Hvo Hown] Hp1 Hp2 Hc1 Hhand.
  pose proof (pd_output Hp2 Hoi) as Hc2. pose proof (pd_fits Hp2) as Hf2.
  assert (Hf1 : fits w2 m_input d1).
  { eapply fits_mono; [|exact (pd_fits Hp1)]. intros k y _. apply (pd_owned Hp2). }
  pose proof (pd_location Hp1) as Hloc1. pose proof (pd_location Hp2) as Hloc2.
  destruct succeeded; simpl.
  2:{ rewrite Hhand, (in_hand_zero d2 Hc2). by repeat split; try apply Hf1; try apply Hf2. }
  assert (Hout : in_hand (set_item0 x (set_item_count 1 d2)) = [x]).
  { pose proof (pd_length Hp2) as Hlen. unfold in_hand. simpl.
    destruct (items d2) as [|y its]; [done|]. by destruct its. }
  rewrite Hout. repeat split; try done; simpl; try apply Hf1; try (pose proof (sizeZ_nonneg (items d1)); lia).
  - intros i Hi. destruct Hf1 as [_ Hf1]. specialize (Hf1 i Hi). destruct (is_queue m_input); [lia|constructor].
  - pose proof (pd_length Hp2) as Hlen. unfold sizeZ. rewrite length_insert, Hlen. simpl. lia.
  - intros i Hi. destruct (is_queue m_output) eqn:Hq; simpl.
    + pose proof (pd_reserved Hp2 eq_refl Hq). lia.
    + rewrite Hout. apply Forall_singleton. apply (pd_owned Hp2).
      specialize (Hown i eq_refl Hi). destruct (is_queue m_input) eqn:Hqi.
      * apply (pd_owned Hp1). destruct (valid_queue _ _ _ Hvi Hqi) as (k & mb & Hk & Hmb & _).
        apply (Hown k mb x Hk Hmb). apply (pd_source Hp1 Hqi k mb x Hk Hmb). rewrite Hhand. set_solver.
      * destruct (pd_fits Hp1) as [_ Hfit]. specialize (Hfit i Hown). rewrite Hqi, Hhand in Hfit.
        exact (proj1 (Forall_singleton _ _) Hfit).
Qed.

(** Both pulls went through: the event is processed and handed over. *)
Lemma pipeline_process w (c : P) H R m_input m_output loc fresh process w1 d1 w2 d2 :
  pipeline_places w m_input m_output loc ->
  pulled w H R m_input (make_data loc) fresh true d1 w1 ->
  pulled w1 (in_hand d1 ++ H) (ticket_of m_input d1 ++ R) m_output (make_data loc) fresh true d2 w2 ->
  exists o w' c',
    (_ ← lift (assertb (item_count d1 =? 1));
     event ← item0 d1;
     ps ← on_component (process event);
     let '(in_data, out_data) := processed ps.1 event d1 d2 in
     _ ← on_world (push m_input in_data);
     _ ← on_world (push m_output out_data);
     mret (ps.2, if ps.1 then 1 else 0)) (w2, c) = (o, (w', c')) /\
    shape w' = shape w /\ pipeline_result c H R process o w' c'.
Proof.
  intros Hpl Hp1 Hp2. pose proof Hpl as [(Hii & Himin & Himax) (Hoi & Homin & Homax) Hvi Hvo Hown].
  assert (Hc1 : item_count d1 = 1).
  { pose proof (pd_max Hp1). pose proof (pd_input Hp1 eq_refl Hii). lia. }
  pose proof (pd_output Hp2 Hoi) as Hc2.
  pose proof (pd_fits Hp1) as Hf1. pose proof (pd_fits Hp2) as Hf2.
  destruct (in_hand_one d1 Hc1) as (x & Hx & Hhand); [destruct Hf1; lia|].
  pose proof (pd_ledger Hp2) as Hl2. rewrite (in_hand_zero d2 Hc2), Hhand in Hl2.
  assert (Hshape : shape w2 = shape w) by (rewrite (pd_shape Hp2); apply Hp1).
  rewrite Hc1. mstep (eq_refl (lift (assertb (1 =? 1)) (w2, c))). cbn.
  unfold item0. rewrite Hx, M_bind_ret.
  destruct (process x c) as [r c'] eqn:Hproc.
  assert (Hcomp : on_component (process x) (w2, c) = (r, (w2, c'))) by (unfold on_component; simpl; by rewrite Hproc).
  destruct r as [[succeeded status]|e|].
  - mstep Hcomp. pose proof (processed_fits _ _ _ _ _ _ _ _ _ _ _ x succeeded Hpl Hp1 Hp2 Hc1 Hhand) as Hfit.
    cbn [fst snd]. destruct (processed succeeded x d1 d2) as [i o].
    destruct Hfit as (Hh & Hti & Hto & Hli & Hlo & Hfi & Hfo).
    edestruct (handover_both (push m_input i) (push m_output o) m_input i m_output o w2 H R) as
      (r1 & r2 & w3 & w4 & Hr1 & Hr2 & Hs & Hl4 & _); [apply push_handover..| | | |done|done|].
    + rewrite app_assoc, Hh, Hti, Hto. eapply ledger_perm; [..|exact Hl2]; [done|solve_Permutation].
    + by rewrite Hshape, Hli.
    + by rewrite Hshape, Hlo.
    + mstep (on_world_ok _ _ c' _ _ Hr1). mstep (on_world_ok _ _ c' _ _ Hr2).
      eexists _, w4, c'. split; [done|]. split; [congruence|].
      right. exists x, (Ok (succeeded, status)). auto.
  - erewrite M_bind_throw by exact Hcomp. eexists _, w2, c'. split; [done|]. split; [done|].
    right. exists x, (Throw e). split; [done|]. split; [done|].
    exists (ticket_of m_output d2 ++ ticket_of m_input d1). by rewrite <- app_assoc.
  - unfold mbind, M_bind. rewrite Hcomp. eexists _, w2, c'. split; [done|]. split; [done|].
    right. by exists x, Undef.
Qed.

(** C12: a pipeline arrow neither loses nor duplicates an event.  One execution, of any
    arrow between existing places, at a valid location, in any state that satisfies the
    ledger, always returns (no assertion of a place, queue or pool fails).  Either some pull
    failed: then the component was not called, and everything the arrow had pulled or
    reserved is back where it was taken from.  Or the component processed one event: if it
    returns, the event is in the output place (or back in the input place when processing did
    not succeed) and every reservation has been returned, and the status and message count
    are the component's.  If it throws, the exception escapes while the event and the
    arrow's reservations are still checked out. *)
Theorem pipeline_conserves_events w (c : P) H R m_input m_output loc process fresh :
  ledger w H R -> pipeline_places w m_input m_output loc -> can_allocate w m_input fresh ->
  exists o w' c', pipeline_execute m_input m_output process loc fresh (w, c) = (o, (w', c')) /\
    shape w' = shape w /\ pipeline_result c H R process o w' c'.
Proof.
  intros Hl Hpl Hfresh. pose proof Hpl as [(Hii & Himin & Himax) (Hoi & Homin & Homax) Hvi Hvo Hown].
  unfold pipeline_execute.
  destruct (pull_ledger w H R m_input (make_data loc) fresh) as (b1 & d1 & w1 & Hpull1 & Hp1);
    try done; try (rewrite ?make_data_size; lia). mstep (on_world_ok _ _ c _ _ Hpull1). cbn [fst snd].
  pose proof (pd_location Hp1) as Hloc1. pose proof (pd_shape Hp1) as Hs1.
  destruct b1.
  - destruct (pull_ledger w1 (in_hand d1 ++ H) (ticket_of m_input d1 ++ R) m_output (make_data loc) fresh)
      as (b2 & d2 & w2 & Hpull2 & Hp2);
      [apply Hp1|by rewrite Hs1|lia|rewrite make_data_size; lia|intros _ Hin; congruence|].
    mstep (on_world_ok _ _ c _ _ Hpull2). cbn [fst snd andb negb].
    pose proof (pd_location Hp2) as Hloc2. pose proof (pd_shape Hp2) as Hs2. pose proof (pd_output Hp2 Hoi) as Hc2.
    destruct b2; cbn [negb]; [by eapply pipeline_process|].
    edestruct (handover_both (revert m_input d1) (revert m_output d2) m_input d1 m_output d2 w2 H R)
      as (r1 & r2 & w3 & w4 & Hr1 & Hr2 & Hs4 & Hl4 & _);
      [apply revert_handover; congruence|by apply revert_handover| | | | |apply Hp2|].
    + eapply ledger_perm; [..|apply Hp2]; [rewrite (in_hand_zero d2 Hc2)|]; solve_Permutation.
    + by rewrite Hloc1, Hs2, Hs1.
    + by rewrite Hloc2, Hs2, Hs1.
    + eapply fits_mono; [|apply Hp1]. intros k x _. apply Hp2.
    + mstep (on_world_ok _ _ c _ _ Hr1). mstep (on_world_ok _ _ c _ _ Hr2).
      eexists _, w4, c. split; [done|]. split; [congruence|]. by left.
  - rewrite M_bind_ret. cbn [fst snd andb negb].
    edestruct (handover_both (revert m_input d1) (revert m_output (make_data loc)) m_input d1 m_output
      (make_data loc) w1 H R) as (r1 & r2 & w3 & w4 & Hr1 & Hr2 & Hs4 & Hl4 & _);
      [apply revert_handover; congruence|by apply revert_handover| | | |apply Hp1| |].
    + eapply ledger_perm; [..|eapply zero_ticket; [apply Hp1|by rewrite Hs1]]; [done|solve_Permutation].
    + by rewrite Hloc1, Hs1.
    + by rewrite Hs1.
    + split; simpl; [unfold sizeZ; simpl; lia|]. intros i _. destruct (is_queue m_output); [lia|constructor].
    + mstep (on_world_ok _ _ c _ _ Hr1). mstep (on_world_ok _ _ c _ _ Hr2).
      eexists _, w4, c. split; [done|]. split; [congruence|]. by left.
Qed.

(** A place of a junction: attached, and asking for no more than a [Data] can hold. *)
Definition junction_place (sh : list nat * nat) (loc : nat) pl : Prop :=
  valid sh pl loc /\ 0 <= min_item_count pl <= max_item_count pl /\ max_item_count pl <= 10.

(** The arrow has pulled from the places of [l], and holds what [H] and [R] do not have. *)
Record holding (sh : list nat * nat) (loc : nat) H R (l : list (PlaceRef * Data)) w : Prop := {
  ho_shape : shape w = sh;
  ho_places : Forall (fun '(pl, d) => valid sh pl loc /\ location_id d = loc /\ fits w pl d /\
    (is_input pl = false -> item_count d = 0)) l;
  ho_ledger : ledger w (concat ((fun t => in_hand t.2) <$> l) ++ H)
    (concat ((fun t => ticket_of t.1 t.2) <$> l) ++ R)
}.

(** One more pull. *)
Lemma holding_pull sh loc H R l w pl fresh :
  holding sh loc H R l w -> junction_place sh loc pl -> can_allocate w pl fresh ->
  exists b d w', pull pl (make_data loc) fresh w = (Ok (b, d), w') /\
    holding sh loc H R (if b : bool then (pl, d) :: l else l) w' /\
    (exists H' R', pulled w H' R' pl (make_data loc) fresh b d w') /\
    (forall f pl', f ## fresh -> can_allocate w pl' f -> can_allocate w' pl' f).
Proof.
  intros [Hs Hall Hl] (Hv & Hmm & Hmax) Hf.
  destruct (pull_ledger w _ _ pl (make_data loc) fresh Hl) as (b & d & w' & Hpull & Hp);
    [by rewrite Hs|done..|].
  exists b, d, w'. split; [done|]. split.
  - assert (Hall' : Forall (fun '(pl, d) => valid sh pl loc /\ location_id d = loc /\ fits w' pl d /\
      (is_input pl = false -> item_count d = 0)) l).
    { eapply Forall_impl; [exact Hall|]. intros [pl' d'] (? & ? & Hfit & ?). repeat split; try done;
        eapply fits_mono; try exact Hfit; intros k x _; apply (pd_owned Hp). }
    destruct b; (split; [by rewrite (pd_shape Hp)| |]).
    + apply Forall_cons. split; [|done]. split; [done|]. split; [apply (pd_location Hp)|].
      split; [apply (pd_fits Hp)|apply (pd_output Hp)].
    + csimpl. rewrite <- !app_assoc. apply (pd_ledger Hp).
    + done.
    + by eapply failed_ledger.
  - split; [by eexists _, _|]. intros f pl' Hdis Hok Hq Hin. destruct (Hok Hq Hin). split; [|done]. by apply (pd_fresh Hp).
Qed.

(** Reverting the places pulled so far, in any order, restores the ledger. *)
Lemma holding_revert sh loc H R l l' w :
  holding sh loc H R l w -> l ≡ₚ l' ->
  exists w', runs ((fun t => revert t.1 t.2) <$> l') w w' /\ shape w' = sh /\ ledger w' H R.
Proof.
  intros [Hs Hall Hl] Hperm. rewrite Hperm in Hall. rewrite Hperm in Hl.
  destruct (handover_all ((fun t => (revert t.1 t.2, t.1, t.2)) <$> l') w H R) as (w' & Hrun & Hs' & Hl' & _).
  - apply Forall_fmap. eapply Forall_impl; [exact Hall|]. intros [pl d] (Hv & Hloc & Hf & Hout).
    simpl. rewrite Hs, Hloc. split; [by apply revert_handover|done].
  - rewrite <- !list_fmap_compose. exact Hl.
  - exists w'. rewrite <- !list_fmap_compose in Hrun. split; [exact Hrun|]. split; [congruence|done].
Qed.

(** Pushing to the places pulled so far, in any order, restores the ledger as well. *)
Lemma holding_push sh loc H R l l' w :
  holding sh loc H R l w -> l ≡ₚ l' ->
  exists w', runs ((fun t => push t.1 t.2) <$> l') w w' /\ shape w' = sh /\ ledger w' H R.
Proof.
  intros [Hs Hall Hl] Hperm. rewrite Hperm in Hall. rewrite Hperm in Hl.
  destruct (handover_all ((fun t => (push t.1 t.2, t.1, t.2)) <$> l') w H R) as (w' & Hrun & Hs' & Hl' & _).
  - apply Forall_fmap. eapply Forall_impl; [exact Hall|]. intros [pl d] (Hv & Hloc & Hf & Hout).
    simpl. rewrite Hs, Hloc. split; [by apply push_handover|done].
  - rewrite <- !list_fmap_compose. exact Hl.
  - exists w'. rewrite <- !list_fmap_compose in Hrun. split; [exact Hrun|]. split; [congruence|done].
Qed.

(** A junction pulls from all four of its places or from none.  [try_pull_all] always
    returns; when it fails at any of the four pulls, every event and reservation taken by
    the earlier ones has been given back, so the ledger is as before the call; when it
    succeeds the arrow holds exactly what it pulled from the four places. *)
Theorem junction_all_or_nothing w H R fi fo si so loc fresh :
  ledger w H R -> Forall (junction_place (shape w) loc) [fi; fo; si; so] ->
  (forall k pl, [fi; fo; si; so] !! k = Some pl -> can_allocate w pl (fresh k)) ->
  (forall j k, j <> k -> fresh j ## fresh k) ->
  exists b a1 a2 a3 a4 w', try_pull_all fi fo si so loc fresh w = (Ok (b, (a1, a2, a3, a4)), w') /\
    if b : bool then holding (shape w) loc H R [(so, a4); (si, a3); (fo, a2); (fi, a1)] w'
    else shape w' = shape w /\ ledger w' H R.
Proof.
  intros Hl Hpls Halloc Hfr. rewrite !Forall_cons in Hpls. destruct Hpls as (Hfi & Hfo & Hsi & Hso & _).
  assert (H0 : holding (shape w) loc H R [] w) by (split; [done|constructor|done]).
  unfold try_pull_all.
  destruct (holding_pull _ _ _ _ _ _ _ _ H0 Hfi (Halloc 0%nat fi eq_refl)) as ([] & d1 & w1 & Hp1 & H1 & _ & A1);
    mstep Hp1; cbn [fst snd negb]; [|destruct H1; eexists _, _, _, _, _, w1; by split].
  destruct (holding_pull _ _ _ _ _ _ _ _ H1 Hfo (A1 _ _ (Hfr 1%nat 0%nat ltac:(done)) (Halloc 1%nat fo eq_refl)))
    as ([] & d2 & w2 & Hp2 & H2 & _ & A2); mstep Hp2; cbn [fst snd negb].
  2:{ destruct (holding_revert _ _ _ _ _ [(fi, d1)] _ H2) as (w' & Hrun & Hrest); [solve_Permutation|].
      inversion_clear Hrun as [|? ? r1 ? v1 ? Hr1 Hend]; inversion Hend; subst.
      mstep Hr1. eexists _, _, _, _, _, _. split; [done|apply Hrest]. }
  destruct (holding_pull _ _ _ _ _ _ _ _ H2 Hsi (A2 _ _ (Hfr 2%nat 1%nat ltac:(done))
    (A1 _ _ (Hfr 2%nat 0%nat ltac:(done)) (Halloc 2%nat si eq_refl))))
    as ([] & d3 & w3 & Hp3 & H3 & _ & A3); mstep Hp3; cbn [fst snd negb].
  2:{ destruct (holding_revert _ _ _ _ _ [(fi, d1); (fo, d2)] _ H3) as (w' & Hrun & Hrest); [solve_Permutation|].
      inversion_clear Hrun as [|? ? r1 ? v1 ? Hr1 Hrun']. 
      inversion_clear Hrun' as [|? ? r2 ? v2 ? Hr2 Hend]; inversion Hend; subst.
      mstep Hr1. mstep Hr2. eexists _, _, _, _, _, _. split; [done|apply Hrest]. }
  destruct (holding_pull _ _ _ _ _ _ _ _ H3 Hso (A3 _ _ (Hfr 3%nat 2%nat ltac:(done))
    (A2 _ _ (Hfr 3%nat 1%nat ltac:(done)) (A1 _ _ (Hfr 3%nat 0%nat ltac:(done)) (Halloc 3%nat so eq_refl)))))
    as ([] & d4 & w4 & Hp4 & H4 & _ & A4); mstep Hp4; cbn [fst snd negb].
  2:{ destruct (holding_revert _ _ _ _ _ [(fi, d1); (fo, d2); (si, d3)] _ H4) as (w' & Hrun & Hrest);
        [solve_Permutation|].
      inversion_clear Hrun as [|? ? r1 ? v1 ? Hr1 Hrun'].
      inversion_clear Hrun' as [|? ? r2 ? v2 ? Hr2 Hrun].
      inversion_clear Hrun as [|? ? r3 ? v3 ? Hr3 Hend]; inversion Hend; subst.
      mstep Hr1. mstep Hr2. mstep Hr3. eexists _, _, _, _, _, _. split; [done|apply Hrest]. }
  eexists _, _, _, _, _, _. split; [done|exact H4].
Qed.

End Conservation.
(** ** Witnesses *)

(** One pool of two locations, one queue of capacity 1 with a local queue per location. *)
Definition world0 : World bool := mkWorld [Mailbox.make 1 2 false] [pool0].

Lemma world0_ledger : @ledger bool flag_item flag_laws world0 [] [].
Proof.
  apply ledger_init.
  - intros [|i] mb Hi; simplify_eq/=. exists 1, 2, false. split; [lia|done].
  - apply Forall_singleton. destruct pool0_inv as [ps Hps]. by exists ps, [].
  - intros i j x (p & Hi & _) (q & Hj & _). by destruct i, j; simplify_eq/=.
Qed.

Lemma world0_fresh a : 5000 <= a -> @fresh_in bool flag_item world0 [a].
Proof.
  intros Ha. split; [apply NoDup_singleton|]. intros [|i] p Hp; simplify_eq/=.
  apply Forall_singleton. split.
  - apply not_elem_of_list_to_map_1. vm_compute. intros Hin.
    repeat (apply elem_of_cons in Hin as [->|Hin]; [lia|]). by apply not_elem_of_nil in Hin.
  - intros ? q [= <-] Hq. unfold in_range. simpl in Hq. set_unfold in Hq.
    apply andb_false_iff. rewrite !Z.leb_gt. right. destruct Hq as [->|[->|[]]]; simpl; lia.
Qed.

(** The places of an event source arrow, and of two junction inputs and outputs. *)
Definition from_pool : PlaceRef := mkPlaceRef (Some 0%nat) false true 1 1.
Definition to_queue : PlaceRef := mkPlaceRef (Some 0%nat) true false 1 1.

Lemma pipeline_conserves_events_witness :
  exists o w' (c' : nat),
    @pipeline_execute bool flag_item nat from_pool to_queue
      (fun x c => (Ok (true, ArrowMetrics.KeepGoing), S c)) 1 [5000] (world0, 0%nat) = (o, (w', c')) /\
    o = Ok (ArrowMetrics.KeepGoing, 1) /\ c' = 1%nat /\
    @pipeline_result bool nat flag_item flag_laws 0%nat [] []
      (fun x c => (Ok (true, ArrowMetrics.KeepGoing), S c)) o w' c'.
Proof.
  destruct (@pipeline_conserves_events bool nat flag_item flag_laws world0 0%nat [] [] from_pool
    to_queue 1 (fun x c => (Ok (true, ArrowMetrics.KeepGoing), S c)) [5000] world0_ledger)
    as (o & w' & c' & Hrun & _ & Hres).
  - split; try done; [by exists 0%nat; simpl; split; [|lia]|].
    exists 0%nat. split; [done|]. simpl. exists 2%nat. split; [done|lia].
  - intros _ _. split; [apply world0_fresh; lia|done].
  - exists o, w', c'. split; [exact Hrun|].
    vm_compute in Hrun. injection Hrun as <- _ <-. split; [reflexivity|]. split; [reflexivity|exact Hres].
Defined.

(** The second output finds the queue full: everything is given back. *)
Lemma junction_all_or_nothing_witness :
  exists b a1 a2 a3 a4 w',
    @try_pull_all bool flag_item from_pool to_queue from_pool to_queue 1
      (fun k => [5000 + Z.of_nat k]) world0 = (Ok (b, (a1, a2, a3, a4)), w') /\ b = false /\
    @ledger bool flag_item flag_laws w' [] [].
Proof.
  assert (Hin : junction_place (shape world0) 1 from_pool).
  { split; [|simpl; lia]. exists 0%nat. split; [done|simpl; lia]. }
  assert (Hout : junction_place (shape world0) 1 to_queue).
  { split; [|simpl; lia]. exists 0%nat. split; [done|]. simpl. exists 2%nat. split; [done|lia]. }
  destruct (@junction_all_or_nothing bool flag_item flag_laws world0 [] [] from_pool to_queue
    from_pool to_queue 1 (fun k => [5000 + Z.of_nat k]) world0_ledger)
    as (b & a1 & a2 & a3 & a4 & w' & Hrun & Hres).
  - by rewrite !Forall_cons, Forall_nil.
  - intros k pl Hk _ _. split; [apply world0_fresh; lia|].
    by destruct k as [|[|[|[|k]]]]; simplify_eq/=.
  - intros j k Hjk. intros x Hx Hy. apply list_elem_of_singleton in Hx, Hy. lia.
  - exists b, a1, a2, a3, a4, w'. split; [exact Hrun|].
    assert (b = false) as -> by (vm_compute in Hrun; congruence). split; [reflexivity|apply Hres].
Defined.

End PipelineArrow.
