(* ===== verification/JScheduler.v ===== *)
(** * JScheduler: which arrow a worker runs next, and when the topology stops

    Model of [Engine/JScheduler.{h,cc}].  All scheduler state is protected by one mutex, so each
    public operation is one atomic step on a [TopologyState].  An arrow is known by its
    pointer.  The state also has the stopwatch of the topology ([m_topology->metrics])
    and the trace of calls to [initialize] and [finalize] of arrows, whose outcomes
    (they run user code, which may throw) are parameters.  What [get_pending] returns for
    the arrow that is checked in is an argument, since queues are outside the mutex. *)

From S2P Require Import Prelude JMetrics.
Import ArrowMetrics.
Local Open Scope Z_scope.

Module Scheduler.

Inductive TopologyStatus := TUninitialized | TRunning | TPausing | TDraining | TPaused | TFinalized.
Inductive ArrowStatus := AUninitialized | AActive | ADraining | AInactive | AFinalized.

#[export] Instance TopologyStatus_eq_dec : EqDecision TopologyStatus.
Proof. solve_decision. Defined.
#[export] Instance ArrowStatus_eq_dec : EqDecision ArrowStatus.
Proof. solve_decision. Defined.

(** What the scheduler reads of a [JArrow]. *)
Record JArrow := mkJArrow {
  ptr : Z;
  is_parallel : bool;
  is_source : bool;
  m_listeners : list Z
}.

#[export] Instance JArrow_eq_dec : EqDecision JArrow.
Proof. solve_decision. Defined.

Record ArrowState := mkArrowState {
  arrow : JArrow;
  status : ArrowStatus;
  thread_count : Z;
  active_or_draining_upstream_arrow_count : Z;
  downstream_arrow_indices : list nat
}.

(** The calls that reach an arrow, by its pointer. *)
Inductive ArrowCall := CallInitialize (a : Z) | CallFinalize (a : Z).

Record TopologyState := mkTopologyState {
  arrow_states : list ArrowState;
  current_topology_status : TopologyStatus;
  active_or_draining_arrow_count : Z;
  next_arrow_index : nat;
  metrics : PerfMetrics.JPerfMetrics;
  calls : list ArrowCall
}.

Definition set_states (l : list ArrowState) (s : TopologyState) : TopologyState :=
  mkTopologyState l (current_topology_status s) (active_or_draining_arrow_count s)
    (next_arrow_index s) (metrics s) (calls s).
Definition set_topology_status (t : TopologyStatus) (s : TopologyState) : TopologyState :=
  mkTopologyState (arrow_states s) t (active_or_draining_arrow_count s)
    (next_arrow_index s) (metrics s) (calls s).
Definition add_count (n : Z) (s : TopologyState) : TopologyState :=
  mkTopologyState (arrow_states s) (current_topology_status s)
    (active_or_draining_arrow_count s + n) (next_arrow_index s) (metrics s) (calls s).
Definition set_next (i : nat) (s : TopologyState) : TopologyState :=
  mkTopologyState (arrow_states s) (current_topology_status s)
    (active_or_draining_arrow_count s) i (metrics s) (calls s).
Definition set_metrics (m : PerfMetrics.JPerfMetrics) (s : TopologyState) : TopologyState :=
  mkTopologyState (arrow_states s) (current_topology_status s)
    (active_or_draining_arrow_count s) (next_arrow_index s) m (calls s).
Definition add_call (c : ArrowCall) (s : TopologyState) : TopologyState :=
  mkTopologyState (arrow_states s) (current_topology_status s)
    (active_or_draining_arrow_count s) (next_arrow_index s) (metrics s) (calls s ++ [c]).

Definition set_status (st : ArrowStatus) (a : ArrowState) : ArrowState :=
  mkArrowState (arrow a) st (thread_count a) (active_or_draining_upstream_arrow_count a)
    (downstream_arrow_indices a).
Definition add_threads (n : Z) (a : ArrowState) : ArrowState :=
  mkArrowState (arrow a) (status a) (thread_count a + n)
    (active_or_draining_upstream_arrow_count a) (downstream_arrow_indices a).
Definition add_upstream (n : Z) (a : ArrowState) : ArrowState :=
  mkArrowState (arrow a) (status a) (thread_count a)
    (active_or_draining_upstream_arrow_count a + n) (downstream_arrow_indices a).

Abbreviation MS := (M TopologyState).

(** [m_topology_state.arrow_states[index]]; outside the vector it is undefined. *)
Definition arrow_at (index : nat) : MS ArrowState := fun s =>
  match arrow_states s !! index with Some a => (Ok a, s) | None => (Undef, s) end.

Definition modify_arrow (index : nat) (f : ArrowState -> ArrowState) : MS unit := fun s =>
  match arrow_states s !! index with
  | Some a => (Ok tt, set_states (<[index := f a]> (arrow_states s)) s)
  | None => (Undef, s)
  end.

Lemma arrow_at_ok index s a : arrow_states s !! index = Some a -> arrow_at index s = (Ok a, s).
Proof. unfold arrow_at. by intros ->. Qed.

Lemma modify_arrow_ok index f s a :
  arrow_states s !! index = Some a ->
  modify_arrow index f s = (Ok tt, set_states (<[index := f a]> (arrow_states s)) s).
Proof. unfold modify_arrow. by intros ->. Qed.

(** The constructor.  [arrow_map[p]] is 0 for a pointer that is not in the map. *)
Definition make_arrow_map (arrows : list JArrow) : gmap Z nat :=
  foldl (fun mp ia => <[ptr ia.2 := ia.1]> mp) ∅ (zip (seq 0 (length arrows)) arrows).

Definition make (arrows : list JArrow) (m : PerfMetrics.JPerfMetrics) : TopologyState :=
  let arrow_map := make_arrow_map arrows in
  mkTopologyState
    ((fun a => mkArrowState a AUninitialized 0 0
                 ((fun d => default 0%nat (arrow_map !! d)) <$> m_listeners a)) <$> arrows)
    TUninitialized 0 0 m [].

Section Operations.
Context (initialize finalize : Z -> outcome unit).

Definition call_initialize (a : JArrow) : MS unit :=
  _ ← modify (add_call (CallInitialize (ptr a))); lift (initialize (ptr a)).

Definition call_finalize (a : JArrow) : MS unit :=
  _ ← modify (add_call (CallFinalize (ptr a))); lift (finalize (ptr a)).

Definition achieve_topology_pause_unprotected (now : Z) : MS unit :=
  current_status ← gets current_topology_status;
  match current_status with
  | TRunning | TPausing | TDraining =>
      _ ← modify (fun s => set_metrics (PerfMetrics.stop now (metrics s)) s);
      modify (set_topology_status TPaused)
  | _ => mret tt
  end.

(** [while (arrow_states[index].arrow != assignment) index++;] *)
Fixpoint find_arrow (l : list ArrowState) (assignment : Z) (index : nat) : outcome nat :=
  match l with
  | [] => Undef
  | a :: l' => if ptr (arrow a) =? assignment then Ok index else find_arrow l' assignment (S index)
  end.

Definition is_Active (st : ArrowStatus) : bool := bool_decide (st = AActive).
Definition is_Draining (st : ArrowStatus) : bool := bool_decide (st = ADraining).
Definition is_Finished (st : Status) : bool := bool_decide (st = Finished).

Definition checkin_unprotected (now : Z) (assignment : JArrow) (last_result : Status)
    (pending : Z) : MS unit :=
  states ← gets arrow_states;
  index ← lift (find_arrow states (ptr assignment) 0);
  _ ← modify_arrow index (add_threads (-1));
  a ← arrow_at index;
  let found_inactive_source :=
    is_source assignment && is_Finished last_result && is_Active (status a) in
  let found_draining_stage_or_sink :=
    negb (is_source assignment) && (active_or_draining_upstream_arrow_count a =? 0) &&
    (pending =? 0) && (0 <? thread_count a) && is_Active (status a) in
  let found_inactive_stage_or_sink :=
    negb (is_source assignment) && (active_or_draining_upstream_arrow_count a =? 0) &&
    (pending =? 0) && (thread_count a =? 0) &&
    (is_Draining (status a) || is_Active (status a)) in
  _ ← (if found_inactive_source || found_inactive_stage_or_sink then
         _ ← call_finalize assignment;
         _ ← modify_arrow index (set_status AFinalized);
         _ ← modify (add_count (-1));
         for_each (downstream_arrow_indices a) (fun d => modify_arrow d (add_upstream (-1)))
       else if found_draining_stage_or_sink then modify_arrow index (set_status ADraining)
       else mret tt);
  count ← gets active_or_draining_arrow_count;
  if count =? 0 then achieve_topology_pause_unprotected now else mret tt.

(** The guard of [checkout_unprotected]. *)
Definition eligible (a : ArrowState) : bool :=
  is_Active (status a) && (is_parallel (arrow a) || (thread_count a =? 0)).

(** The loop of [checkout_unprotected], from [current_idx]; one arrow per unit of fuel. *)
Fixpoint checkout_loop (fuel current_idx : nat) : MS (option JArrow) :=
  match fuel with
  | O => lift Undef
  | S fuel' =>
      candidate ← arrow_at current_idx;
      size ← gets (fun s => length (arrow_states s));
      let next := ((current_idx + 1) mod size)%nat in
      if eligible candidate then
        _ ← modify (set_next next);
        _ ← modify_arrow current_idx (add_threads 1);
        mret (Some (arrow candidate))
      else
        start ← gets next_arrow_index;
        if (next =? start)%nat then mret None else checkout_loop fuel' next
  end.

Definition checkout_unprotected : MS (option JArrow) :=
  s ← get;
  checkout_loop (length (arrow_states s)) (next_arrow_index s).

Definition next_assignment (now : Z) (assignment : option JArrow) (last_result : Status)
    (pending : Z) : MS (option JArrow) :=
  _ ← match assignment with
      | Some a => checkin_unprotected now a last_result pending
      | None => mret tt
      end;
  checkout_unprotected.

Definition last_assignment (now : Z) (assignment : option JArrow) (last_result : Status)
    (pending : Z) : MS unit :=
  match assignment with
  | Some a => checkin_unprotected now a last_result pending
  | None => mret tt
  end.

(** [checkout(arrow_index)]: it also lets out Inactive arrows. *)
Definition checkout (arrow_index : nat) : MS (option JArrow) :=
  states ← gets arrow_states;
  match states !! arrow_index with
  | None => mret None
  | Some candidate =>
      if (is_Active (status candidate) || bool_decide (status candidate = AInactive))
         && (is_parallel (arrow candidate) || (thread_count candidate =? 0))
      then _ ← modify_arrow arrow_index (add_threads 1); mret (Some (arrow candidate))
      else mret None
  end.

Definition initialize_topology : MS unit :=
  s ← get;
  _ ← lift (assertb (bool_decide (current_topology_status s = TUninitialized)));
  _ ← for_each (arrow_states s) (fun a => call_initialize (arrow a));
  modify (set_topology_status TPaused).

Definition pause_arrow_unprotected (index : nat) : MS unit :=
  a ← arrow_at index;
  if negb (is_Active (status a)) then mret tt
  else
    _ ← modify (add_count (-1));
    _ ← for_each (downstream_arrow_indices a) (fun d => modify_arrow d (add_upstream (-1)));
    modify_arrow index (set_status AInactive).

(** Activating an arrow activates everything downstream; unbounded recursion is undefined. *)
Fixpoint run_arrow_unprotected (fuel index : nat) : MS unit :=
  match fuel with
  | O => lift Undef
  | S fuel' =>
      a ← arrow_at index;
      _ ← modify (add_count 1);
      _ ← for_each (downstream_arrow_indices a) (fun d =>
            _ ← modify_arrow d (add_upstream 1);
            run_arrow_unprotected fuel' d);
      modify_arrow index (set_status AActive)
  end.

Definition finish_arrow_unprotected (index : nat) : MS unit :=
  a ← arrow_at index;
  _ ← (if is_Active (status a) then
         _ ← modify (add_count (-1));
         for_each (downstream_arrow_indices a) (fun d => modify_arrow d (add_upstream (-1)))
       else mret tt);
  _ ← (if negb (bool_decide (status a = AFinalized)) then call_finalize (arrow a) else mret tt);
  modify_arrow index (set_status AFinalized).

(** [for (i=0; i<arrow_states.size(); ++i) if (arrow_states[i].arrow->is_source()) body(i)]. *)
Definition for_sources (body : nat -> MS unit) : MS unit :=
  s ← get;
  for_each (seq 0 (length (arrow_states s))) (fun i =>
    a ← arrow_at i;
    if is_source (arrow a) then body i else mret tt).

Definition drain_topology : MS unit :=
  current_status ← gets current_topology_status;
  if bool_decide (current_status = TFinalized) then mret tt
  else
    _ ← for_sources pause_arrow_unprotected;
    modify (set_topology_status TDraining).

Definition run_topology (now nthreads : Z) : MS unit :=
  s ← get;
  match current_topology_status s with
  | TRunning | TFinalized => mret tt
  | _ =>
      if negb (existsb (fun a => is_source (arrow a)) (arrow_states s))
      then throwM "No event sources found!"
      else
        _ ← for_sources (run_arrow_unprotected (length (arrow_states s)));
        _ ← modify (fun s => set_metrics (PerfMetrics.reset now (metrics s)) s);
        s' ← get;
        m ← lift (PerfMetrics.start now nthreads (metrics s'));
        _ ← modify (set_metrics m);
        modify (set_topology_status TRunning)
  end.

Definition request_topology_pause : MS unit :=
  s ← get;
  match current_topology_status s with
  | TRunning =>
      _ ← for_each (seq 0 (length (arrow_states s))) pause_arrow_unprotected;
      modify (set_topology_status TPausing)
  | _ => mret tt
  end.

Definition finish_topology : MS unit :=
  s ← get;
  _ ← for_each (arrow_states s) (fun a =>
        if negb (bool_decide (status a = AFinalized)) then call_finalize (arrow a) else mret tt);
  modify (set_topology_status TFinalized).

End Operations.

(** ** Workers hold what the thread counts say *)

Section Threads.
Context (initialize finalize : Z -> outcome unit).

(** What the arrows are, and how many threads each one has. *)
Definition threads (s : TopologyState) : list (JArrow * Z) :=
  (fun a => (arrow a, thread_count a)) <$> arrow_states s.

Definition same_threads (s s' : TopologyState) : Prop := threads s' = threads s.

#[local] Instance same_threads_preorder : PreOrder same_threads.
Proof. unfold same_threads. split; red; congruence. Qed.

Lemma keeps_modify_arrow index f :
  (forall a, arrow (f a) = arrow a /\ thread_count (f a) = thread_count a) ->
  keeps same_threads (modify_arrow index f).
Proof.
  intros Hf s. unfold modify_arrow, same_threads, threads.
  destruct (arrow_states s !! index) as [a|] eqn:Ha; simpl; [|done].
  rewrite list_fmap_insert. apply list_insert_id. destruct (Hf a) as [-> ->].
  by rewrite list_lookup_fmap, Ha.
Qed.

Lemma keeps_modify f : (forall s, arrow_states (f s) = arrow_states s) -> keeps same_threads (modify f).
Proof. intros Hf s. unfold same_threads, threads. simpl. by rewrite Hf. Qed.

Lemma keeps_arrow_at index : keeps same_threads (arrow_at index).
Proof. intros s. unfold arrow_at, same_threads. by case_match. Qed.

Ltac keeps_threads :=
  repeat first [ apply keeps_modify_arrow; by intros []
               | apply keeps_modify; by intros []
               | apply keeps_arrow_at
               | keeps_step ].

Lemma run_arrow_threads fuel : forall index, keeps same_threads (run_arrow_unprotected fuel index).
Proof. induction fuel as [|fuel IH]; intros index; simpl; keeps_threads; apply IH. Qed.

(** The operations of the control thread leave the thread counts alone. *)
Inductive control := CInitialize | CDrain | CRun (now nthreads : Z) | CPause | CAchieve (now : Z) | CFinish.

Definition do_control (c : control) : MS unit :=
  match c with
  | CInitialize => initialize_topology initialize
  | CDrain => drain_topology
  | CRun now n => run_topology now n
  | CPause => request_topology_pause
  | CAchieve now => achieve_topology_pause_unprotected now
  | CFinish => finish_topology finalize
  end.

Lemma control_threads c : keeps same_threads (do_control c).
Proof.
  destruct c; simpl; unfold initialize_topology, drain_topology, run_topology,
    request_topology_pause, achieve_topology_pause_unprotected, finish_topology, for_sources,
    pause_arrow_unprotected, call_initialize, call_finalize; keeps_threads.
  all: apply run_arrow_threads.
Qed.

(** A scheduler and the pointers of the arrows that workers hold. *)
Definition held_state : Type := TopologyState * list Z.

Definition option_ptr (a : option JArrow) : list Z := ptr <$> option_list a.

(** A worker hands in an assignment (or none) and gets another (or none); hands in its last
    one; is thrown out because the arrow it hands in cannot be finalized; asks for a particular arrow; or the control thread does something. *)
Inductive sched_step : held_state -> held_state -> Prop :=
| ss_next s h now r pending b s' :
    next_assignment finalize now None r pending s = (Ok b, s') ->
    sched_step (s, h) (s', option_ptr b ++ h)
| ss_next_checkin s h1 h2 a now r pending b s' :
    next_assignment finalize now (Some a) r pending s = (Ok b, s') ->
    sched_step (s, h1 ++ ptr a :: h2) (s', option_ptr b ++ h1 ++ h2)
| ss_last s h1 h2 a now r pending s' :
    last_assignment finalize now (Some a) r pending s = (Ok tt, s') ->
    sched_step (s, h1 ++ ptr a :: h2) (s', h1 ++ h2)
| ss_next_throw s h1 h2 a now r pending e s' :
    next_assignment finalize now (Some a) r pending s = (Throw e, s') ->
    sched_step (s, h1 ++ ptr a :: h2) (s', h1 ++ h2)
| ss_last_throw s h1 h2 a now r pending e s' :
    last_assignment finalize now (Some a) r pending s = (Throw e, s') ->
    sched_step (s, h1 ++ ptr a :: h2) (s', h1 ++ h2)
| ss_checkout s h i b s' :
    checkout i s = (Ok b, s') -> sched_step (s, h) (s', option_ptr b ++ h)
| ss_control s h c o s' : do_control c s = (o, s') -> sched_step (s, h) (s', h).

(** The number of workers that hold the arrow at [p]. *)
Definition holders (p : Z) (h : list Z) : Z := Z.of_nat (length (filter (fun q => q = p) h)).

Lemma holders_app p h1 h2 : holders p (h1 ++ h2) = holders p h1 + holders p h2.
Proof. unfold holders. rewrite filter_app, length_app. lia. Qed.

Lemma holders_cons p q h : holders p (q :: h) = (if decide (q = p) then 1 else 0) + holders p h.
Proof. unfold holders. rewrite filter_cons. case_decide; simpl; lia. Qed.

(** Every arrow's thread count is the number of workers that hold it, and at most one
    worker holds an arrow that is not parallel. *)
Record threads_inv (s : TopologyState) (h : list Z) : Prop := {
  ti_distinct : NoDup ((fun t => ptr t.1) <$> threads s);
  ti_counts : forall a n, (a, n) ∈ threads s ->
    n = holders (ptr a) h /\ (is_parallel a = false -> n <= 1)
}.

Lemma threads_add i k s a :
  arrow_states s !! i = Some a ->
  threads (set_states (<[i := add_threads k a]> (arrow_states s)) s)
  = <[i := (arrow a, thread_count a + k)]> (threads s).
Proof. intros Ha. unfold threads. simpl. by rewrite list_fmap_insert. Qed.

Lemma threads_lookup s i a :
  arrow_states s !! i = Some a -> threads s !! i = Some (arrow a, thread_count a).
Proof. intros Ha. unfold threads. by rewrite list_lookup_fmap, Ha. Qed.

Lemma find_arrow_Ok l p : forall k i, find_arrow l p k = Ok i ->
  exists j a, i = (k + j)%nat /\ l !! j = Some a /\ ptr (arrow a) = p.
Proof.
  induction l as [|a l IH]; intros k i; simpl; [done|].
  destruct (Z.eqb_spec (ptr (arrow a)) p) as [Hp|].
  - intros [= <-]. exists 0%nat, a. by rewrite Nat.add_0_r.
  - intros (j & b & -> & Hb & Hp)%IH. exists (S j), b. split; [lia|done].
Qed.

Lemma find_arrow_no_throw l p : forall k e, find_arrow l p k <> Throw e.
Proof. induction l as [|a l IH]; intros k e; simpl; [done|]. case_match; [done|apply IH]. Qed.

(** The thread that checks an arrow in gives up one of its threads, also if finalizing the arrow throws. *)
Lemma checkin_threads now a r pending s o s' :
  checkin_unprotected finalize now a r pending s = (o, s') -> o <> Undef ->
  exists i b n, threads s !! i = Some (b, n) /\ ptr b = ptr a /\
    threads s' = <[i := (b, n - 1)]> (threads s).
Proof.
  unfold checkin_unprotected. rewrite M_bind_gets. intros H Ho.
  destruct (find_arrow (arrow_states s) (ptr a) 0) as [i|e|] eqn:Hf; [|by apply find_arrow_no_throw in Hf|].
  2:{ unfold mbind, M_bind, lift in H. by simplify_eq. }
  apply find_arrow_Ok in Hf as (j & b & -> & Hb & Hp). rewrite (M_bind_ok _ _ _ _ _ (eq_refl (lift (Ok j) s))) in H.
  rewrite (M_bind_ok _ _ _ _ _ (modify_arrow_ok j (add_threads (-1)) s b Hb)) in H.
  exists j, (arrow b), (thread_count b). split; [by apply threads_lookup|]. split; [done|].
  replace (thread_count b - 1) with (thread_count b + -1) by lia. rewrite <- (threads_add j (-1) s b Hb).
  set (s2 := set_states _ s) in *. change s' with (o, s').2. rewrite <- H.
  match goal with |- threads (?m s2).2 = _ => assert (Hk : keeps same_threads m) end; [|apply Hk].
  unfold call_finalize, achieve_topology_pause_unprotected. keeps_threads.
Qed.

(** A checked-out arrow was eligible, and gains one thread. *)
Lemma checkout_loop_threads fuel : forall cur s b s',
  checkout_loop fuel cur s = (Ok b, s') ->
  match b with
  | None => s' = s
  | Some c => exists i a, arrow_states s !! i = Some a /\ eligible a = true /\ c = arrow a /\
      s' = set_states (<[i := add_threads 1 a]> (arrow_states s))
             (set_next ((i + 1) mod length (arrow_states s)) s)
  end.
Proof.
  induction fuel as [|fuel IH]; intros cur s b s'; [done|]. simpl.
  intros (a & s1 & Ha & H)%M_bind_inv. unfold arrow_at in Ha.
  destruct (arrow_states s !! cur) as [a'|] eqn:Hcur; simplify_eq.
  apply M_bind_inv in H as (n & s2 & [= <- <-] & H).
  destruct (eligible a) eqn:He.
  - apply M_bind_inv in H as ([] & s2 & [= <-] & H).
    apply M_bind_inv in H as ([] & s3 & Hm & H). unfold modify_arrow in Hm. simpl in Hm.
    rewrite Hcur in Hm. unfold mret, M_ret in H. simplify_eq. exists cur, a. done.
  - apply M_bind_inv in H as (st & s2 & [= <- <-] & H). case_match; [|by apply IH in H].
    unfold mret, M_ret in H. by simplify_eq.
Qed.

Lemma eligible_free a : eligible a = true -> is_parallel (arrow a) = true \/ thread_count a = 0.
Proof.
  unfold eligible. intros [_ H]%andb_true_iff. apply orb_true_iff in H as [|H%Z.eqb_eq]; auto.
Qed.

Lemma threads_inv_update s s' h h' i a n n' :
  threads_inv s h -> threads s !! i = Some (a, n) -> threads s' = <[i := (a, n')]> (threads s) ->
  (forall p, p <> ptr a -> holders p h' = holders p h) ->
  n' = holders (ptr a) h' -> (is_parallel a = false -> n' <= 1) ->
  threads_inv s' h'.
Proof.
  intros [Hd Hc] Hi Hs' Hother Hn Hpar.
  assert (Hptr : (fun t => ptr t.1) <$> threads s' = (fun t => ptr t.1) <$> threads s).
  { rewrite Hs', list_fmap_insert. apply list_insert_id. by rewrite list_lookup_fmap, Hi. }
  split; [by rewrite Hptr|]. intros b m [j Hj]%list_elem_of_lookup. rewrite Hs' in Hj.
  destruct (decide (j = i)) as [->|Hne].
  - rewrite list_lookup_insert_eq in Hj by (by eapply lookup_lt_Some). by simplify_eq.
  - rewrite list_lookup_insert_ne in Hj by done. destruct (Hc b m) as [-> Hm].
    { apply list_elem_of_lookup. eauto. }
    split; [|done]. rewrite Hother; [done|]. intros Heq. destruct Hne.
    eapply NoDup_lookup; [exact Hd|..]; rewrite list_lookup_fmap; [by rewrite Hj|by rewrite Hi; simpl; f_equal].
Qed.

Lemma threads_inv_same s s' h : same_threads s s' -> threads_inv s h -> threads_inv s' h.
Proof. intros Hs [Hd Hc]. split; by rewrite Hs. Qed.

Lemma checkin_inv now a r pending s o s' h1 h2 :
  checkin_unprotected finalize now a r pending s = (o, s') -> o <> Undef ->
  threads_inv s (h1 ++ ptr a :: h2) -> threads_inv s' (h1 ++ h2).
Proof.
  intros Hin Ho Hinv. destruct (checkin_threads _ _ _ _ _ _ _ Hin Ho) as (i & b & n & Hi & Hp & Hs').
  destruct (ti_counts _ _ Hinv b n) as [Hn Hpar]; [apply list_elem_of_lookup; eauto|].
  rewrite holders_app, holders_cons, Hp, decide_True in Hn by done.
  eapply threads_inv_update; [exact Hinv|exact Hi|exact Hs'|..].
  - intros p Hne. rewrite !holders_app, holders_cons, decide_False by congruence. lia.
  - rewrite holders_app. rewrite Hp. lia.
  - intros Hnp. specialize (Hpar Hnp). lia.
Qed.

Lemma checkout_inv i a s s' h :
  arrow_states s !! i = Some a -> is_parallel (arrow a) = true \/ thread_count a = 0 ->
  threads s' = <[i := (arrow a, thread_count a + 1)]> (threads s) ->
  threads_inv s h -> threads_inv s' (ptr (arrow a) :: h).
Proof.
  intros Ha Hfree Hs' Hinv.
  destruct (ti_counts _ _ Hinv (arrow a) (thread_count a)) as [Hn Hpar].
  { apply list_elem_of_lookup. exists i. by apply threads_lookup. }
  eapply threads_inv_update; [exact Hinv|by apply threads_lookup|exact Hs'|..].
  - intros p Hne. by rewrite holders_cons, decide_False.
  - rewrite holders_cons, decide_True by done. lia.
  - intros Hnp. destruct Hfree; [congruence|lia].
Qed.

Lemma checkout_unprotected_inv s b s' h :
  checkout_unprotected s = (Ok b, s') -> threads_inv s h -> threads_inv s' (option_ptr b ++ h).
Proof.
  unfold checkout_unprotected. intros (s0 & s1 & [= <- <-] & H)%M_bind_inv Hinv.
  apply checkout_loop_threads in H. destruct b as [c|]; [|by subst].
  destruct H as (i & a & Ha & He & -> & ->).
  eapply checkout_inv; [exact Ha|by apply eligible_free| |exact Hinv].
  unfold threads. simpl. by rewrite list_fmap_insert.
Qed.

(** Only the checkin of [next_assignment] throws. *)
Lemma checkout_loop_no_throw fuel : forall cur s e s', checkout_loop fuel cur s <> (Throw e, s').
Proof.
  induction fuel as [|fuel IH]; intros cur s e s'; [done|]. cbn [checkout_loop].
  unfold mbind, M_bind, arrow_at. destruct (arrow_states s !! cur) as [a|] eqn:Ha; [|done]. cbn.
  destruct (eligible a); cbn; [unfold modify_arrow; cbn; by rewrite Ha|]. case_match; [done|apply IH].
Qed.

Lemma next_assignment_throw now a r pending s e s' :
  next_assignment finalize now (Some a) r pending s = (Throw e, s') ->
  checkin_unprotected finalize now a r pending s = (Throw e, s').
Proof.
  unfold next_assignment, mbind, M_bind.
  destruct (checkin_unprotected finalize now a r pending s) as [[u|e'|] s1]; [|by intros [= -> ->]|done].
  unfold checkout_unprotected. rewrite M_bind_get. intros H. by apply checkout_loop_no_throw in H.
Qed.

Lemma sched_step_inv (st st' : held_state) :
  threads_inv st.1 st.2 -> sched_step st st' -> threads_inv st'.1 st'.2.
Proof.
  intros Hinv Hstep. destruct Hstep as [s h now r pd b s' H|s h1 h2 a now r pd b s' H
    |s h1 h2 a now r pd s' H|s h1 h2 a now r pd e s' H|s h1 h2 a now r pd e s' H|s h i b s' H|s h c o s' H]; simpl in *.
  - unfold next_assignment in H. rewrite M_bind_ret in H. by eapply checkout_unprotected_inv.
  - unfold next_assignment in H. apply M_bind_inv in H as (u & s1 & H1 & H2).
    eapply checkout_unprotected_inv; [exact H2|]. by eapply checkin_inv.
  - by eapply checkin_inv.
  - apply next_assignment_throw in H. by eapply checkin_inv.
  - by eapply checkin_inv.
  - unfold checkout in H. apply M_bind_inv in H as (l & s1 & [= <- <-] & H).
    destruct (arrow_states s !! i) as [a|] eqn:Ha; [|unfold mret, M_ret in H; by simplify_eq].
    case_match eqn:Hg; [|unfold mret, M_ret in H; by simplify_eq].
    apply M_bind_inv in H as ([] & s1 & Hm & H). unfold modify_arrow in Hm. rewrite Ha in Hm.
    unfold mret, M_ret in H. simplify_eq. apply andb_true_iff in Hg as [_ Hg].
    eapply checkout_inv; [exact Ha| |by apply threads_add|exact Hinv].
    apply orb_true_iff in Hg as [|Hg%Z.eqb_eq]; auto.
  - eapply threads_inv_same; [|exact Hinv]. pose proof (control_threads c s) as Hk. by rewrite H in Hk.
Qed.

Lemma threads_inv_make arrows m : NoDup (ptr <$> arrows) -> threads_inv (make arrows m) [].
Proof.
  intros Hd. split; simpl; unfold threads; simpl; rewrite <- list_fmap_compose; simpl.
  - by rewrite <- list_fmap_compose.
  - intros a n (x & [= -> ->] & _)%list_elem_of_fmap. done.
Qed.

(** C1: workers never share a sequential arrow.  From a freshly constructed scheduler over
    distinct arrows, under any interleaving of workers asking for and handing in
    assignments (in any order, with any results, also if finalizing an arrow throws), of requests for particular arrows, and of
    initialising, running, pausing, draining and finishing the topology: the
    thread count of every arrow is the number of workers that hold it, and
    an arrow that is not parallel is held by at most one worker. *)
Theorem sequential_arrow_exclusive arrows m s h :
  NoDup (ptr <$> arrows) -> steps sched_step (make arrows m, []) (s, h) ->
  forall a n, (a, n) ∈ threads s ->
    n = holders (ptr a) h /\ (is_parallel a = false -> holders (ptr a) h <= 1).
Proof.
  intros Hd Hrun.
  assert (Hinv : threads_inv s h).
  { apply (steps_invariant sched_step (fun st => threads_inv st.1 st.2) sched_step_inv _ _ Hrun).
    by apply threads_inv_make. }
  intros a n Ha. destruct (ti_counts _ _ Hinv a n Ha) as [-> Hpar]. auto.
Qed.

End Threads.
(** ** Round robin *)

Definition eligible_at (s : TopologyState) (i : nat) : bool :=
  match arrow_states s !! i with Some a => eligible a | None => false end.

(** Every arrow once, starting where the last checkout left off. *)
Definition rotation (s : TopologyState) (k : nat) : list nat :=
  (fun j => (next_arrow_index s + j) mod length (arrow_states s))%nat
    <$> seq k (length (arrow_states s) - k).

(** The reference: the first eligible arrow of the rotation gains a thread, and the next
    rotation starts after it. *)
Definition checkout_spec (s : TopologyState) (l : list nat) : outcome (option JArrow) * TopologyState :=
  match head (filter (fun i => eligible_at s i = true) l) with
  | None => (Ok None, s)
  | Some i =>
      match arrow_states s !! i with
      | Some a => (Ok (Some (arrow a)),
          set_states (<[i := add_threads 1 a]> (arrow_states s))
            (set_next ((i + 1) mod length (arrow_states s)) s))
      | None => (Undef, s)
      end
  end.

Lemma mod_next (a k n : nat) : (n <> 0)%nat -> (((a + k) mod n + 1) mod n = (a + S k) mod n)%nat.
Proof. intros Hn. rewrite Nat.Div0.add_mod_idemp_l. f_equal. lia. Qed.

Lemma mod_wraps (a k n : nat) : (a < n)%nat -> (0 < k <= n)%nat -> ((a + k) mod n = a <-> k = n)%nat.
Proof.
  intros Ha Hk. destruct (decide (a + k < n)%nat) as [Hlt|Hge].
  - rewrite Nat.mod_small by done. lia.
  - replace (a + k)%nat with ((a + k - n) + 1 * n)%nat by lia.
    rewrite Nat.Div0.mod_add. destruct (decide (a + k - n < n)%nat); [rewrite Nat.mod_small by done; lia|lia].
Qed.

Lemma checkout_loop_spec fuel : forall k s,
  (next_arrow_index s < length (arrow_states s))%nat -> (k < length (arrow_states s))%nat ->
  (length (arrow_states s) - k <= fuel)%nat ->
  checkout_loop fuel ((next_arrow_index s + k) mod length (arrow_states s)) s
  = checkout_spec s (rotation s k).
Proof.
  induction fuel as [|fuel IH]; intros k s Hnext Hk Hfuel; [lia|].
  set (n := length (arrow_states s)) in *. set (cur := ((next_arrow_index s + k) mod n)%nat).
  destruct (lookup_lt_is_Some_2 (arrow_states s) cur) as [a Ha];
    [apply Nat.mod_upper_bound; lia|].
  assert (Hrot : rotation s k = cur :: rotation s (S k)).
  { unfold rotation. replace (length (arrow_states s) - k)%nat
      with (S (length (arrow_states s) - S k))%nat by (fold n; lia). done. }
  rewrite Hrot. unfold checkout_spec. rewrite filter_cons.
  assert (Hel : eligible_at s cur = eligible a) by (unfold eligible_at; by rewrite Ha).
  cbn [checkout_loop]. mstep (arrow_at_ok _ _ _ Ha). rewrite M_bind_gets.
  destruct (eligible a) eqn:He.
  - rewrite decide_True by done. simpl. rewrite Ha. autorewrite with monad.
    mstep (modify_arrow_ok cur (add_threads 1) (set_next ((cur + 1) mod n) s) a Ha). done.
  - rewrite decide_False by congruence. rewrite M_bind_gets. unfold cur. rewrite mod_next by lia.
    fold n. destruct (Nat.eqb_spec ((next_arrow_index s + S k) mod n) (next_arrow_index s)) as [Hw|Hw].
    + apply mod_wraps in Hw; [|lia|lia]. unfold rotation. fold n. by rewrite Hw, Nat.sub_diag.
    + apply IH; try done; fold n; [|lia]. destruct (decide (S k = n)); [|lia].
      destruct Hw. by apply mod_wraps; [lia|lia|].
Qed.

(** [checkout_unprotected] is a round robin.  Whenever the cursor is inside the
    topology the loop terminates, and picks the first eligible arrow (active, and parallel or
    unassigned) in the order that starts at the cursor; the cursor moves just past it. If
    there is none it returns nothing and changes nothing. *)
Theorem checkout_round_robin s :
  (next_arrow_index s < length (arrow_states s))%nat ->
  checkout_unprotected s = checkout_spec s (rotation s 0).
Proof.
  intros Hnext. unfold checkout_unprotected. rewrite M_bind_get.
  rewrite <- (checkout_loop_spec (length (arrow_states s)) 0 s) by lia.
  by rewrite Nat.add_0_r, Nat.mod_small.
Qed.

(** ** Fairness *)

Section Fairness.
Context (initialize finalize : Z -> outcome unit).

(** Only [checkout_unprotected] moves the cursor, and nothing changes the arrows. *)
Definition same_cursor (s s' : TopologyState) : Prop :=
  next_arrow_index s' = next_arrow_index s /\ arrow <$> arrow_states s' = arrow <$> arrow_states s.

#[local] Instance same_cursor_preorder : PreOrder same_cursor.
Proof. unfold same_cursor. split; red; intuition congruence. Qed.

Lemma cursor_modify_arrow index f :
  (forall a, arrow (f a) = arrow a) -> keeps same_cursor (modify_arrow index f).
Proof.
  intros Hf s. unfold modify_arrow, same_cursor.
  destruct (arrow_states s !! index) as [a|] eqn:Ha; simpl; [|done].
  split; [done|]. rewrite list_fmap_insert, Hf. apply list_insert_id. by rewrite list_lookup_fmap, Ha.
Qed.

Lemma cursor_modify f :
  (forall s, next_arrow_index (f s) = next_arrow_index s /\ arrow_states (f s) = arrow_states s) ->
  keeps same_cursor (modify f).
Proof. intros Hf s. unfold same_cursor. simpl. destruct (Hf s) as [-> ->]. done. Qed.

Lemma cursor_arrow_at index : keeps same_cursor (arrow_at index).
Proof. intros s. unfold arrow_at, same_cursor. by case_match. Qed.

Ltac keeps_cursor :=
  repeat first [ apply cursor_modify_arrow; by intros []
               | apply cursor_modify; by intros []
               | apply cursor_arrow_at
               | keeps_step ].

Lemma run_arrow_cursor fuel : forall index, keeps same_cursor (run_arrow_unprotected fuel index).
Proof. induction fuel as [|fuel IH]; intros index; simpl; keeps_cursor; apply IH. Qed.

Lemma control_cursor c : keeps same_cursor (do_control initialize finalize c).
Proof.
  destruct c; simpl; unfold initialize_topology, drain_topology, run_topology,
    request_topology_pause, achieve_topology_pause_unprotected, finish_topology, for_sources,
    pause_arrow_unprotected, call_initialize, call_finalize; keeps_cursor.
  all: apply run_arrow_cursor.
Qed.

Lemma checkin_cursor now a r pending : keeps same_cursor (checkin_unprotected finalize now a r pending).
Proof.
  unfold checkin_unprotected, call_finalize, achieve_topology_pause_unprotected. keeps_cursor.
Qed.

Lemma checkout_cursor i : keeps same_cursor (checkout i).
Proof. unfold checkout. keeps_cursor. Qed.

(** Workers' requests, during which arrow [i] is eligible whenever a worker asks, mixed with
    any other operations; [rs] are the answers. *)
Inductive requests (i : nat) : TopologyState -> list (option JArrow) -> TopologyState -> Prop :=
| rq_nil s : requests i s [] s
| rq_ask s b s1 rs s2 :
    eligible_at s i = true -> checkout_unprotected s = (Ok b, s1) ->
    requests i s1 rs s2 -> requests i s (b :: rs) s2
| rq_checkin s now a r pending rs s2 :
    requests i (checkin_unprotected finalize now a r pending s).2 rs s2 -> requests i s rs s2
| rq_checkout s j rs s2 : requests i (checkout j s).2 rs s2 -> requests i s rs s2
| rq_control s c rs s2 :
    requests i (do_control initialize finalize c s).2 rs s2 -> requests i s rs s2.

(** How far the cursor is from arrow [i]. *)
Definition cursor_distance (i : nat) (s : TopologyState) : nat :=
  ((i + (length (arrow_states s) - next_arrow_index s)) mod length (arrow_states s))%nat.

Lemma head_filter_before {A} (P : A -> Prop) `{!forall x, Decision (P x)} (l : list A) d x :
  l !! d = Some x -> P x -> exists k y, (k <= d)%nat /\ l !! k = Some y /\ head (filter P l) = Some y.
Proof.
  revert d. induction l as [|z l IH]; intros d Hd Hx; [done|]. rewrite filter_cons. case_decide as Hz.
  - exists 0%nat, z. split; [lia|done].
  - destruct d as [|d]; [by simplify_eq/=|]. simpl in Hd. destruct (IH d Hd Hx) as (k & y & Hk & Hy & Hhead).
    exists (S k), y. split; [lia|done].
Qed.

Lemma distance_mod (a e n : nat) i :
  (a < n)%nat -> (e < n)%nat -> (i = (a + e) mod n)%nat -> ((i + (n - a)) mod n = e)%nat.
Proof.
  intros Ha He ->. rewrite Nat.Div0.add_mod_idemp_l.
  replace (a + e + (n - a))%nat with (e + 1 * n)%nat by lia.
  rewrite Nat.Div0.mod_add. by apply Nat.mod_small.
Qed.

(** One request: arrow [i] is handed out, or the cursor gets closer to it. *)
Lemma ask_progress i s b s1 :
  (next_arrow_index s < length (arrow_states s))%nat -> eligible_at s i = true ->
  checkout_unprotected s = (Ok b, s1) ->
  (next_arrow_index s1 < length (arrow_states s1))%nat /\
  arrow <$> arrow_states s1 = arrow <$> arrow_states s /\
  (b = (arrow <$> arrow_states s) !! i \/ (cursor_distance i s1 < cursor_distance i s)%nat).
Proof.
  intros Hnext Hel. rewrite checkout_round_robin by done. set (n := length (arrow_states s)) in *.
  assert (Hi : (i < n)%nat).
  { unfold eligible_at in Hel. case_match eqn:Ha; [|done]. by eapply lookup_lt_Some. }
  set (d := cursor_distance i s).
  assert (Hd : (d < n)%nat) by (apply Nat.mod_upper_bound; lia).
  assert (Hdi : ((next_arrow_index s + d) mod n = i)%nat).
  { unfold d, cursor_distance. fold n. rewrite Nat.Div0.add_mod_idemp_r.
    replace (next_arrow_index s + (i + (n - next_arrow_index s)))%nat with (i + 1 * n)%nat by lia.
    rewrite Nat.Div0.mod_add. by apply Nat.mod_small. }
  destruct (head_filter_before (fun i => eligible_at s i = true) (rotation s 0) d i) as (k & j & Hk & Hj & Hhead).
  { unfold rotation. fold n. rewrite list_lookup_fmap, Nat.sub_0_r, lookup_seq_lt by lia. simpl. by rewrite Hdi. }
  { done. }
  unfold checkout_spec. rewrite Hhead.
  unfold rotation in Hj. fold n in Hj. rewrite list_lookup_fmap, Nat.sub_0_r, lookup_seq_lt in Hj by lia.
  simpl in Hj. injection Hj as <-. set (j := ((next_arrow_index s + k) mod n)%nat).
  destruct (lookup_lt_is_Some_2 (arrow_states s) j) as [a Ha]; [apply Nat.mod_upper_bound; lia|].
  rewrite Ha. intros [= <- <-]. simpl. rewrite length_insert. fold n.
  split; [apply Nat.mod_upper_bound; lia|]. split.
  { rewrite list_fmap_insert. apply list_insert_id. by rewrite list_lookup_fmap, Ha. }
  destruct (decide (k = d)) as [->|Hne].
  - left. rewrite list_lookup_fmap, <- Hdi. fold j. by rewrite Ha.
  - right. unfold cursor_distance. simpl. rewrite length_insert. fold n. unfold j. rewrite mod_next by lia.
    rewrite <- Hdi at 1. rewrite (distance_mod ((next_arrow_index s + S k) mod n) (d - S k)); [lia| |lia|].
    + apply Nat.mod_upper_bound. lia.
    + rewrite Nat.Div0.add_mod_idemp_l. f_equal. lia.
Qed.

(** Operations other than a request leave the cursor and the arrows alone. *)
Lemma requests_bound i s rs s2 :
  requests i s rs s2 -> (next_arrow_index s < length (arrow_states s))%nat ->
  forall b, (arrow <$> arrow_states s) !! i = Some b -> Some b ∉ rs ->
  (length rs <= cursor_distance i s)%nat.
Proof.
  assert (Hother : forall s s' rs, same_cursor s s' ->
    ((next_arrow_index s' < length (arrow_states s'))%nat ->
      forall b, (arrow <$> arrow_states s') !! i = Some b -> Some b ∉ rs ->
      (length rs <= cursor_distance i s')%nat) ->
    (next_arrow_index s < length (arrow_states s))%nat ->
    forall b, (arrow <$> arrow_states s) !! i = Some b -> Some b ∉ rs ->
    (length rs <= cursor_distance i s)%nat).
  { intros s0 s' rs0 [Hn Ha] IH. apply (f_equal length) in Ha as Hlen. rewrite !length_fmap in Hlen.
    unfold cursor_distance in *. by rewrite Ha, Hn, Hlen in IH. }
  induction 1 as [s|s b s1 rs s2 Hel Hask _ IH|s now a r pd rs s2 _ IH|s j rs s2 _ IH|s c rs s2 _ IH].
  - simpl. lia.
  - intros Hn c Hc Hnot. destruct (ask_progress i s b s1 Hn Hel Hask) as (Hn1 & Ha1 & Hor).
    destruct Hor as [->|Hlt]; [rewrite Hc in Hnot; set_solver|].
    specialize (IH Hn1 c). rewrite Ha1 in IH. specialize (IH Hc). simpl.
    assert (length rs <= cursor_distance i s1)%nat by (apply IH; set_solver). lia.
  - eapply Hother; [|exact IH]. apply checkin_cursor.
  - eapply Hother; [|exact IH]. apply checkout_cursor.
  - eapply Hother; [|exact IH]. apply control_cursor.
Qed.

(** C6: the round robin starves no arrow.  Take any sequence of operations on a scheduler in which
    arrow [i] is eligible each time a worker asks for an assignment, whatever is
    checked in, checked out, paused or run in between.  As soon as workers have asked as many
    times as there are arrows, arrow [i] has been handed out. *)
Theorem no_arrow_starves i s rs s2 b :
  requests i s rs s2 -> (next_arrow_index s < length (arrow_states s))%nat ->
  (arrow <$> arrow_states s) !! i = Some b ->
  (length (arrow_states s) <= length rs)%nat -> Some b ∈ rs.
Proof.
  intros Hr Hn Hb Hlen. destruct (decide (Some b ∈ rs)) as [|Hnot]; [done|].
  pose proof (requests_bound i s rs s2 Hr Hn b Hb Hnot).
  pose proof (Nat.mod_upper_bound (i + (length (arrow_states s) - next_arrow_index s))
    (length (arrow_states s)) ltac:(lia)). unfold cursor_distance in *. lia.
Qed.

End Fairness.
(** ** Witnesses *)

(** A sequential source and a parallel stage, both active. *)
Definition arrow_a : JArrow := mkJArrow 10 false true [20].
Definition arrow_b : JArrow := mkJArrow 20 true false [].
Definition watch : PerfMetrics.JPerfMetrics := PerfMetrics.mkJPerfMetrics PerfMetrics.Reset 0 0 0 0 0 0 0.
Definition sched0 : TopologyState := make [arrow_a; arrow_b] watch.
Definition sched1 : TopologyState := snd (run_topology 0 1 sched0).
Definition callback (a : Z) : outcome unit := Ok tt.

Lemma sequential_arrow_exclusive_witness :
  exists s, steps (sched_step callback callback) (sched0, []) (s, [20; 10]) /\
    (arrow_a, 1) ∈ threads s /\ 1 = holders 10 [20; 10].
Proof.
  assert (Hrun : exists s, steps (sched_step callback callback) (sched0, []) (s, [20; 10]) /\
    (arrow_a, 1) ∈ threads s).
  { eexists. split.
    - eapply steps_cons; [eapply (ss_control _ _ sched0 [] (CRun 0 1)); vm_compute; reflexivity|].
      eapply steps_cons; [eapply (ss_next _ _ _ [] 0 NotRunYet 0 (Some arrow_a)); vm_compute; reflexivity|].
      eapply steps_cons; [eapply (ss_next _ _ _ _ 0 NotRunYet 0 (Some arrow_b)); vm_compute; reflexivity|].
      apply steps_refl.
    - vm_compute. apply list_elem_of_here. }
  destruct Hrun as (s & Hrun & Hin). exists s. split; [exact Hrun|]. split; [exact Hin|].
  assert (Hd : NoDup (ptr <$> [arrow_a; arrow_b])) by (apply (bool_decide_unpack _); by vm_compute).
  exact (proj1 (sequential_arrow_exclusive callback callback [arrow_a; arrow_b] watch s [20; 10] Hd Hrun
    arrow_a 1 Hin)).
Defined.

Lemma checkout_round_robin_witness :
  checkout_unprotected sched1 = checkout_spec sched1 (rotation sched1 0).
Proof. apply checkout_round_robin. vm_compute. lia. Defined.

(** Two requests hand out both arrows; the stage is eligible at each of them. *)
Lemma no_arrow_starves_witness :
  exists rs s2, requests callback callback 1 sched1 rs s2 /\ length rs = 2%nat /\ Some arrow_b ∈ rs.
Proof.
  assert (Hr : exists s2, requests callback callback 1 sched1 [Some arrow_a; Some arrow_b] s2).
  { eexists. eapply rq_ask; [vm_compute; reflexivity|vm_compute; reflexivity|].
    eapply rq_ask; [vm_compute; reflexivity|vm_compute; reflexivity|]. apply rq_nil. }
  destruct Hr as [s2 Hr]. exists [Some arrow_a; Some arrow_b], s2. split; [exact Hr|]. split; [reflexivity|].
  apply (no_arrow_starves callback callback 1 sched1 _ s2 arrow_b Hr); vm_compute; [lia|reflexivity|lia].
Defined.

End Scheduler.
