(* ===== verification/JSchedulerStop.v ===== *)
(** * JSchedulerStop: how the scheduler starts a topology and finds out that it has stopped

    Theorems about the activation counters of [Engine/JScheduler.cc] (modelled in
    JScheduler.v): the number of active or draining arrows, and for each arrow the number of
    active or draining arrows directly upstream.  [counts_ok] says that they are what
    their names promise; [run_topology] establishes it on topologies in which every arrow
    is reached once from the sources, and every later operation of workers and of the control
    thread preserves it. *)

From S2P Require Import Prelude JMetrics JScheduler.
Import ArrowMetrics Scheduler.
Local Open Scope Z_scope.

Module Stop.

(** ** Sums and occurrences *)

Definition sumZ (l : list Z) : Z := foldr Z.add 0 l.

Definition occ (k : nat) (l : list nat) : Z := Z.of_nat (length (filter (fun j => j = k) l)).

Lemma sumZ_app l1 l2 : sumZ (l1 ++ l2) = sumZ l1 + sumZ l2.
Proof. induction l1; simpl; lia. Qed.

#[export] Instance sumZ_perm : Proper ((≡ₚ) ==> (=)) sumZ.
Proof. induction 1; simpl; lia. Qed.

Lemma sumZ_insert l i x v : l !! i = Some x -> sumZ (<[i := v]> l) = sumZ l - x + v.
Proof.
  intros Hi. pose proof (lookup_lt_Some _ _ _ Hi). rewrite insert_take_drop by done.
  rewrite <- (take_drop_middle l i x Hi) at 3. rewrite !sumZ_app. simpl. lia.
Qed.

Lemma occ_app k l1 l2 : occ k (l1 ++ l2) = occ k l1 + occ k l2.
Proof. unfold occ. rewrite filter_app, length_app. lia. Qed.

Lemma occ_cons k j l : occ k (j :: l) = (if decide (j = k) then 1 else 0) + occ k l.
Proof. unfold occ. rewrite filter_cons. case_decide; simpl; lia. Qed.

#[export] Instance occ_perm k : Proper ((≡ₚ) ==> (=)) (occ k).
Proof. intros l l' H. unfold occ. by rewrite H. Qed.

Lemma occ_concat k ls : occ k (concat ls) = sumZ (occ k <$> ls).
Proof. induction ls as [|l ls IH]; [done|]. csimpl. rewrite occ_app, IH. done. Qed.

(** Summing over the positions of a list that are in [V]. *)
Lemma sumZ_select {A} (l : list A) (V : list nat) (h : nat -> Z) :
  NoDup V -> (forall k, k ∈ V -> (k < length l)%nat) ->
  sumZ (imap (fun k _ => if bool_decide (k ∈ V) then h k else 0) l) = sumZ (h <$> V).
Proof.
  intros Hnd Hlt.
  assert (Himap : imap (fun k (_ : A) => if bool_decide (k ∈ V) then h k else 0) l
    = (fun k => if bool_decide (k ∈ V) then h k else 0) <$> seq 0 (length l)).
  { apply list_eq. intros i. rewrite list_lookup_imap, list_lookup_fmap.
    destruct (l !! i) as [x|] eqn:Hi.
    - rewrite lookup_seq_lt by (by eapply lookup_lt_Some). done.
    - rewrite lookup_seq_ge by (by apply lookup_ge_None). done. }
  rewrite Himap. transitivity (sumZ (h <$> filter (fun k => k ∈ V) (seq 0 (length l)))).
  - clear Himap. induction (seq 0 (length l)) as [|k ks IH]; [done|]. csimpl. rewrite filter_cons.
    case_bool_decide; [rewrite decide_True by done|rewrite decide_False by done]; csimpl; lia.
  - apply sumZ_perm, fmap_Permutation, NoDup_Permutation; [apply NoDup_filter, NoDup_seq|done|].
    intros k. rewrite list_elem_of_filter, elem_of_seq. naive_solver lia.
Qed.

(** ** The counters *)

Definition live (a : ArrowState) : bool := is_Active (status a) || is_Draining (status a).

Definition contrib (k : nat) (a : ArrowState) : Z :=
  if live a then occ k (downstream_arrow_indices a) else 0.

(** The counters count: arrows that are active or draining, and edges from them. *)
Record counts_ok (s : TopologyState) : Prop := {
  co_total : active_or_draining_arrow_count s
    = sumZ ((fun a => if live a then 1 else 0) <$> arrow_states s);
  co_upstream : forall k a, arrow_states s !! k = Some a ->
    active_or_draining_upstream_arrow_count a = sumZ (contrib k <$> arrow_states s)
}.

(** Every downstream index is the index of an arrow. *)
Definition graph (s : TopologyState) : list (list nat) := downstream_arrow_indices <$> arrow_states s.

Definition wf_graph (s : TopologyState) : Prop :=
  forall ds d, ds ∈ graph s -> d ∈ ds -> (d < length (arrow_states s))%nat.

(** ** Starting *)

(** The arrows that [run_arrow_unprotected] visits from [i], in order. *)
Fixpoint visit (g : list (list nat)) (fuel i : nat) : option (list nat) :=
  match fuel with
  | O => None
  | S fuel' => ds ← g !! i; vs ← mapM (visit g fuel') ds; Some (i :: concat vs)
  end.

(** The effect of activation: the arrows in [V] become active, [c] is added to the count,
    and every arrow gains one upstream per occurrence in [U]. *)
Definition activate_arrow (V U : list nat) (k : nat) (a : ArrowState) : ArrowState :=
  mkArrowState (arrow a) (if bool_decide (k ∈ V) then AActive else status a) (thread_count a)
    (active_or_draining_upstream_arrow_count a + occ k U) (downstream_arrow_indices a).

Definition activate (c : Z) (V U : list nat) (s : TopologyState) : TopologyState :=
  add_count c (set_states (imap (activate_arrow V U) (arrow_states s)) s).

Lemma activate_activate c1 V1 U1 c2 V2 U2 s :
  activate c2 V2 U2 (activate c1 V1 U1 s) = activate (c1 + c2) (V1 ++ V2) (U1 ++ U2) s.
Proof.
  unfold activate, add_count, set_states. simpl. f_equal; [|lia].
  apply list_eq. intros k. rewrite !list_lookup_imap. destruct (arrow_states s !! k) as [a|]; [|done].
  simpl. f_equal. unfold activate_arrow. simpl. f_equal.
  - repeat case_bool_decide; set_solver.
  - rewrite occ_app. lia.
Qed.

Lemma activate_ext c V V' U s : (forall k, k ∈ V <-> k ∈ V') -> activate c V U s = activate c V' U s.
Proof.
  intros HV. unfold activate. do 2 f_equal. apply imap_ext. intros k a _. unfold activate_arrow.
  f_equal. by rewrite (bool_decide_ext _ _ (HV k)).
Qed.

Lemma activate_id s : activate 0 [] [] s = s.
Proof.
  destruct s as [l t c n m cs]. unfold activate, add_count, set_states. simpl. f_equal; [|lia].
  apply list_eq. intros k. rewrite list_lookup_imap. destruct (l !! k) as [[]|]; [|done].
  unfold activate_arrow, occ. simpl. do 2 f_equal. lia.
Qed.

Lemma activate_graph c V U s : graph (activate c V U s) = graph s.
Proof.
  unfold graph, activate. simpl. apply list_eq. intros k.
  rewrite !list_lookup_fmap, list_lookup_imap. by destruct (arrow_states s !! k).
Qed.

Lemma activate_length c V U s : length (arrow_states (activate c V U s)) = length (arrow_states s).
Proof. unfold activate. simpl. apply length_imap. Qed.

Lemma modify_upstream d s :
  (d < length (arrow_states s))%nat -> modify_arrow d (add_upstream 1) s = (Ok tt, activate 0 [] [d] s).
Proof.
  intros [a Ha]%lookup_lt_is_Some_2. rewrite (modify_arrow_ok _ _ _ _ Ha).
  unfold activate, add_count, set_states. simpl. do 2 f_equal; [|lia].
  apply list_eq. intros k. rewrite list_lookup_imap. destruct (decide (d = k)) as [->|Hne].
  - rewrite list_lookup_insert_eq by (by eapply lookup_lt_Some). rewrite Ha. simpl.
    unfold activate_arrow, add_upstream. do 2 f_equal. rewrite occ_cons, decide_True by done.
    unfold occ. simpl. lia.
  - rewrite list_lookup_insert_ne by done. destruct (arrow_states s !! k) as [[]|]; [|done].
    unfold activate_arrow. simpl. do 2 f_equal. rewrite occ_cons, decide_False by done. unfold occ. simpl. lia.
Qed.

Lemma modify_active i s :
  (i < length (arrow_states s))%nat ->
  modify_arrow i (set_status AActive) s = (Ok tt, activate 0 [i] [] s).
Proof.
  intros [a Ha]%lookup_lt_is_Some_2. rewrite (modify_arrow_ok _ _ _ _ Ha).
  unfold activate, add_count, set_states. simpl. do 2 f_equal; [|lia].
  apply list_eq. intros k. rewrite list_lookup_imap. destruct (decide (i = k)) as [->|Hne].
  - rewrite list_lookup_insert_eq by (by eapply lookup_lt_Some). rewrite Ha. simpl.
    unfold activate_arrow, set_status. rewrite bool_decide_true by set_solver. do 2 f_equal.
    unfold occ. simpl. lia.
  - rewrite list_lookup_insert_ne by done. destruct (arrow_states s !! k) as [[]|]; [|done].
    unfold activate_arrow. simpl. rewrite bool_decide_false by set_solver. do 2 f_equal. unfold occ. simpl. lia.
Qed.

Lemma modify_count s : add_count 1 s = activate 1 [] [] s.
Proof.
  destruct s as [l t c n m cs]. unfold activate, add_count, set_states. simpl. f_equal.
  apply list_eq. intros k. rewrite list_lookup_imap. destruct (l !! k) as [[]|]; [|done].
  unfold activate_arrow, occ. simpl. do 2 f_equal. lia.
Qed.

Lemma visit_head g fuel i V : visit g fuel i = Some V -> V = i :: tail V /\ (i < length g)%nat.
Proof.
  destruct fuel as [|fuel]; simpl; [done|]. destruct (g !! i) as [ds|] eqn:Hi; simpl; [|done].
  destruct (mapM _ ds) as [vs|]; simpl; [|done]. intros [= <-]. split; [done|by eapply lookup_lt_Some].
Qed.

(** The loop over the downstream arrows, given what one recursive call does. *)
Lemma run_loop_spec g fuel ds :
  (forall i s V, graph s = g -> visit g fuel i = Some V ->
     run_arrow_unprotected fuel i s = (Ok tt, activate (sizeZ V) V (tail V) s)) ->
  forall vs s, graph s = g -> mapM (visit g fuel) ds = Some vs ->
    for_each ds (fun d => _ ← modify_arrow d (add_upstream 1); run_arrow_unprotected fuel d) s
    = (Ok tt, activate (sizeZ (concat vs)) (concat vs) (concat vs) s).
Proof.
  intros Hrun. induction ds as [|d ds IH]; intros vs s Hg Hm; simpl in Hm.
  - injection Hm as <-. simpl. by rewrite activate_id.
  - destruct (visit g fuel d) as [v|] eqn:Hv; [|done]. simpl in Hm.
    destruct (mapM (visit g fuel) ds) as [vs'|] eqn:Hvs; [|done]. injection Hm as <-.
    destruct (visit_head _ _ _ _ Hv) as [Hhd Hlt].
    assert (Hd : (d < length (arrow_states s))%nat) by (rewrite <- Hg in Hlt; unfold graph in Hlt; by rewrite length_fmap in Hlt).
    cbn [for_each].
    rewrite (M_bind_ok _ _ s tt (activate (sizeZ v) v v s)).
    + rewrite (IH vs'); [|by rewrite activate_graph|done].
      rewrite activate_activate. simpl. by rewrite sizeZ_app.
    + mstep (modify_upstream d s Hd).
      rewrite (Hrun d _ v); [|by rewrite activate_graph|done].
      rewrite activate_activate. simpl. by rewrite <- Hhd.
Qed.

(** [run_arrow_unprotected] activates what it visits. *)
Lemma run_arrow_spec g fuel : forall i s V,
  graph s = g -> visit g fuel i = Some V ->
  run_arrow_unprotected fuel i s = (Ok tt, activate (sizeZ V) V (tail V) s).
Proof.
  induction fuel as [|fuel IH]; intros i s V Hg; [done|]. cbn [visit].
  destruct (g !! i) as [ds|] eqn:Hi; [|done]. rewrite <- Hg in Hi.
  unfold graph in Hi. rewrite list_lookup_fmap in Hi.
  destruct (arrow_states s !! i) as [a|] eqn:Ha; [|done]. simpl in Hi. injection Hi as Hds.
  cbn. destruct (mapM (visit g fuel) ds) as [vs|] eqn:Hvs; [|done]. intros [= <-].
  cbn [run_arrow_unprotected]. mstep (arrow_at_ok _ _ _ Ha). rewrite M_bind_modify, Hds, modify_count.
  erewrite M_bind_ok; [|eapply (run_loop_spec g fuel ds IH); [by rewrite activate_graph|exact Hvs]].
  rewrite activate_activate, modify_active
    by (rewrite activate_length; by eapply lookup_lt_Some).
  rewrite activate_activate. simpl. rewrite sizeZ_cons, Z.add_0_r, app_nil_r.
  f_equal. apply activate_ext. set_solver.
Qed.

(** The indices of the sources. *)
Definition is_source_at (s : TopologyState) (i : nat) : bool :=
  match arrow_states s !! i with Some a => is_source (arrow a) | None => false end.

Definition sources (s : TopologyState) (l : list nat) : list nat :=
  filter (fun i => is_source_at s i = true) l.

Lemma activate_source c V U s i : is_source_at (activate c V U s) i = is_source_at s i.
Proof.
  unfold is_source_at, activate. simpl. rewrite list_lookup_imap. by destruct (arrow_states s !! i).
Qed.

Lemma run_sources_spec fuel l : forall s vs,
  (forall i, i ∈ l -> (i < length (arrow_states s))%nat) ->
  mapM (visit (graph s) fuel) (sources s l) = Some vs ->
  for_each l (fun i => a ← arrow_at i;
    if is_source (arrow a) then run_arrow_unprotected fuel i else mret tt) s
  = (Ok tt, activate (sizeZ (concat vs)) (concat vs) (concat (tail <$> vs)) s).
Proof.
  induction l as [|i l IH]; intros s vs Hl Hm.
  - simpl in Hm. injection Hm as <-. simpl. by rewrite activate_id.
  - destruct (lookup_lt_is_Some_2 (arrow_states s) i) as [a Ha]; [set_solver|].
    assert (Hsrc : is_source_at s i = is_source (arrow a)) by (unfold is_source_at; by rewrite Ha).
    cbn [for_each]. unfold sources in Hm. rewrite filter_cons in Hm.
    destruct (is_source (arrow a)) eqn:Hs.
    + rewrite decide_True in Hm by done. simpl in Hm.
      destruct (visit (graph s) fuel i) as [v|] eqn:Hv; [|done]. simpl in Hm.
      destruct (mapM _ _) as [vs'|] eqn:Hvs; [|done]. injection Hm as <-.
      rewrite (M_bind_ok _ _ s tt (activate (sizeZ v) v (tail v) s));
        [|mstep (arrow_at_ok _ _ _ Ha); rewrite Hs; by apply (run_arrow_spec (graph s))].
      rewrite (IH _ vs').
      * rewrite activate_activate. csimpl. by rewrite sizeZ_app.
      * intros j Hj. rewrite activate_length. set_solver.
      * rewrite activate_graph. rewrite <- Hvs. f_equal. apply list_filter_iff.
        intros j. by rewrite activate_source.
    + rewrite decide_False in Hm by congruence.
      rewrite (M_bind_ok _ _ s tt s); [|mstep (arrow_at_ok _ _ _ Ha); by rewrite Hs].
      apply IH; [set_solver|done].
Qed.

(** What is visited from [i] is [i] and the ends of the edges that leave visited arrows. *)
Lemma visit_edges g fuel : forall i V,
  visit g fuel i = Some V -> V ≡ₚ i :: concat ((fun j => default [] (g !! j)) <$> V).
Proof.
  induction fuel as [|fuel IH]; intros i V; [done|]. cbn [visit].
  destruct (g !! i) as [ds|] eqn:Hi; [|done]. cbn.
  destruct (mapM (visit g fuel) ds) as [vs|] eqn:Hvs; [|done]. intros [= <-].
  constructor. csimpl. rewrite Hi. simpl. clear Hi. revert vs Hvs.
  induction ds as [|d ds IHd]; intros vs Hvs; simpl in Hvs; [by injection Hvs as <-|].
  destruct (visit g fuel d) as [v|] eqn:Hv; [|done]. simpl in Hvs.
  destruct (mapM (visit g fuel) ds) as [vs'|] eqn:Hvs'; [|done]. injection Hvs as <-.
  csimpl. rewrite fmap_app, concat_app, (IH d v Hv) at 1.
  rewrite (IHd vs' eq_refl) at 1. solve_Permutation.
Qed.

Lemma visits_edges g fuel roots : forall vs,
  mapM (visit g fuel) roots = Some vs ->
  concat (tail <$> vs) ≡ₚ concat ((fun j => default [] (g !! j)) <$> concat vs).
Proof.
  induction roots as [|i roots IH]; intros vs Hvs; simpl in Hvs; [by injection Hvs as <-|].
  destruct (visit g fuel i) as [v|] eqn:Hv; [|done]. simpl in Hvs.
  destruct (mapM (visit g fuel) roots) as [vs'|] eqn:Hvs'; [|done]. injection Hvs as <-.
  csimpl. rewrite fmap_app, concat_app, <- (IH vs' eq_refl). f_equiv.
  apply (Permutation_cons_inv (a := i)). rewrite <- (visit_edges _ _ _ _ Hv).
  by destruct (visit_head _ _ _ _ Hv) as [<- _].
Qed.

Lemma visit_lt g fuel : forall i V k, visit g fuel i = Some V -> k ∈ V -> (k < length g)%nat.
Proof.
  induction fuel as [|fuel IH]; intros i V k; [done|]. cbn [visit].
  destruct (g !! i) as [ds|] eqn:Hi; [|done]. cbn.
  destruct (mapM (visit g fuel) ds) as [vs|] eqn:Hvs; [|done]. intros [= <-].
  intros [->|Hk]%elem_of_cons; [by eapply lookup_lt_Some|].
  apply list_elem_of_In, in_concat in Hk as (v & Hv & Hk). apply list_elem_of_In in Hv, Hk.
  apply mapM_Some in Hvs. apply list_elem_of_lookup in Hv as [j Hj].
  destruct (Forall2_lookup_r _ _ _ _ _ Hvs Hj) as (d & _ & Hd). by eapply IH.
Qed.

(** No arrow is active or draining, and the counters say so. *)
Definition idle (s : TopologyState) : Prop :=
  counts_ok s /\ forall a, a ∈ arrow_states s -> live a = false.

(** [vs] are the arrows visited from each source, and no arrow is visited twice. *)
Definition forest (s : TopologyState) (vs : list (list nat)) : Prop :=
  mapM (visit (graph s) (length (arrow_states s))) (sources s (seq 0 (length (arrow_states s))))
    = Some vs /\ NoDup (concat vs).

Lemma live_activate V U k a :
  live a = false -> live (activate_arrow V U k a) = bool_decide (k ∈ V).
Proof. unfold live, activate_arrow. simpl. by case_bool_decide. Qed.

Lemma sumZ_zero {A} (f : A -> Z) l : (forall x, x ∈ l -> f x = 0) -> sumZ (f <$> l) = 0.
Proof.
  induction l as [|x l IH]; intros Hf; [done|]. csimpl. rewrite Hf by set_solver.
  rewrite IH; [done|]. set_solver.
Qed.

Lemma activate_counts s vs :
  idle s -> forest s vs ->
  counts_ok (activate (sizeZ (concat vs)) (concat vs) (concat (tail <$> vs)) s).
Proof.
  intros [[Ht Hu] Hidle] [Hvs Hnd]. set (V := concat vs) in *. set (U := concat (tail <$> vs)).
  assert (Hlt : forall k, k ∈ V -> (k < length (arrow_states s))%nat).
  { intros k Hk. apply list_elem_of_In, in_concat in Hk as (v & Hv & Hk). apply list_elem_of_In in Hv, Hk.
    apply mapM_Some in Hvs. apply list_elem_of_lookup in Hv as [j Hj].
    destruct (Forall2_lookup_r _ _ _ _ _ Hvs Hj) as (d & _ & Hd).
    pose proof (visit_lt _ _ _ _ _ Hd Hk) as Hlt. unfold graph in Hlt. by rewrite length_fmap in Hlt. }
  assert (Hnone : forall k a, arrow_states s !! k = Some a -> live a = false).
  { intros k a Ha. apply Hidle. apply list_elem_of_lookup. eauto. }
  split.
  - assert (Hlive : (fun a => if live a then 1 else 0) <$> imap (activate_arrow V U) (arrow_states s)
      = imap (fun k _ => if bool_decide (k ∈ V) then 1 else 0) (arrow_states s)).
    { rewrite fmap_imap. apply imap_ext. intros k a Ha. simpl. by rewrite live_activate by eauto. }
    unfold activate. simpl. rewrite Ht, sumZ_zero by (intros a Ha; by rewrite Hidle).
    rewrite Hlive, (sumZ_select _ V (fun _ => 1)) by done. clear. induction V as [|k V IH]; [done|].
    rewrite sizeZ_cons. csimpl. lia.
  - intros k a'. unfold activate. simpl. rewrite list_lookup_imap.
    destruct (arrow_states s !! k) as [a|] eqn:Ha; [|done]. simpl. intros [= <-]. simpl.
    assert (Hcon : contrib k <$> imap (activate_arrow V U) (arrow_states s)
      = imap (fun j _ => if bool_decide (j ∈ V) then occ k (default [] (graph s !! j)) else 0) (arrow_states s)).
    { rewrite fmap_imap. apply imap_ext. intros j b Hb. simpl. unfold contrib.
      rewrite live_activate by eauto. unfold graph. by rewrite list_lookup_fmap, Hb. }
    rewrite (Hu k a Ha), sumZ_zero by (intros b Hb; unfold contrib; by rewrite Hidle).
    rewrite Hcon, (sumZ_select _ V (fun j => occ k (default [] (graph s !! j)))) by done.
    unfold U. rewrite (visits_edges _ _ _ _ Hvs). rewrite occ_concat, <- list_fmap_compose. done.
Qed.

(** A topology that has just been made is idle. *)
Lemma make_idle arrows m : idle (make arrows m).
Proof.
  assert (Hdead : forall a, a ∈ arrow_states (make arrows m) ->
    live a = false /\ active_or_draining_upstream_arrow_count a = 0).
  { intros a Ha. unfold make in Ha. cbn in Ha. by apply list_elem_of_fmap in Ha as (b & -> & _). }
  split; [split|]; [| |by intros a Ha; apply Hdead].
  - symmetry. apply sumZ_zero. intros a Ha. by rewrite (proj1 (Hdead a Ha)).
  - intros k a Ha. rewrite (proj2 (Hdead a (list_elem_of_lookup_2 _ _ _ Ha))). symmetry. apply sumZ_zero.
    intros b Hb. unfold contrib. by rewrite (proj1 (Hdead b Hb)).
Qed.

Lemma run_topology_exact now nthreads s vs :
  idle s -> forest s vs -> vs <> [] ->
  current_topology_status s <> TRunning -> current_topology_status s <> TFinalized ->
  exists s', run_topology now nthreads s = (Ok tt, s') /\
    current_topology_status s' = TRunning /\ counts_ok s' /\ graph s' = graph s /\
    active_or_draining_arrow_count s' = sizeZ (concat vs) /\
    forall k a, arrow_states s' !! k = Some a -> (live a = true <-> k ∈ concat vs).
Proof.
  intros Hidle Hf Hne Hrun Hfin. pose proof Hidle as [[Ht Hu] Hnone]. pose proof Hf as [Hvs Hnd].
  unfold run_topology. rewrite M_bind_get.
  destruct (existsb (fun a => is_source (arrow a)) (arrow_states s)) eqn:Hsrc.
  2:{ destruct Hne. assert (Hno : sources s (seq 0 (length (arrow_states s))) = []).
      { destruct (sources s _) as [|i l] eqn:E; [done|].
        assert (Hi : i ∈ sources s (seq 0 (length (arrow_states s)))) by (rewrite E; set_solver).
        apply list_elem_of_filter in Hi as [Hi _]. unfold is_source_at in Hi.
        destruct (arrow_states s !! i) as [a|] eqn:Ha; [|done].
        apply not_true_iff_false in Hsrc. destruct Hsrc. apply existsb_exists. exists a.
        split; [|done]. apply list_elem_of_In, list_elem_of_lookup. eauto. }
      rewrite Hno in Hvs. by injection Hvs as <-. }
  pose proof (run_sources_spec (length (arrow_states s)) (seq 0 (length (arrow_states s))) s vs) as Hgo.
  set (s1 := activate _ _ _ s) in Hgo.
  assert (Hs1 : counts_ok s1) by (by apply activate_counts).
  exists (set_topology_status TRunning (set_metrics (PerfMetrics.mkJPerfMetrics PerfMetrics.Ticking
    now now now (PerfMetrics.last_event_count_ (metrics s)) (PerfMetrics.last_event_count_ (metrics s))
    0 nthreads) s1)). split.
  { destruct (current_topology_status s); try congruence; cbn [negb]; unfold for_sources;
      (erewrite M_bind_ok; [|rewrite M_bind_get; apply Hgo; [|exact Hvs]; intros i Hi%elem_of_seq; lia]);
      reflexivity. }
  split; [done|]. split; [split; apply Hs1|]. split; [apply activate_graph|].
  split; [simpl; rewrite Ht, sumZ_zero by (intros a Ha; by rewrite Hnone); lia|].
  intros k a. simpl. rewrite list_lookup_imap. destruct (arrow_states s !! k) as [b|] eqn:Hb; [|done].
  simpl. intros [= <-]. rewrite live_activate; [by rewrite bool_decide_eq_true|].
  apply Hnone, list_elem_of_lookup. eauto.
Qed.


(** ** Stopping *)

(** The effect of deactivation: arrow [i] gets status [st] and the ends of its edges [ds]
    lose one upstream each. *)
Definition lower (ds : list nat) (k : nat) (a : ArrowState) : ArrowState :=
  add_upstream (- occ k ds) a.

Definition deactivate_arrow (i : nat) (st : ArrowStatus) (ds : list nat) (k : nat) (a : ArrowState)
    : ArrowState :=
  if bool_decide (k = i) then set_status st (lower ds k a) else lower ds k a.

Definition deactivate (i : nat) (st : ArrowStatus) (ds : list nat) (s : TopologyState) : TopologyState :=
  add_count (-1) (set_states (imap (deactivate_arrow i st ds) (arrow_states s)) s).

Lemma lower_all ds : forall s,
  (forall d, d ∈ ds -> (d < length (arrow_states s))%nat) ->
  for_each ds (fun d => modify_arrow d (add_upstream (-1))) s
  = (Ok tt, set_states (imap (lower ds) (arrow_states s)) s).
Proof.
  induction ds as [|d ds IH]; intros s Hds.
  - simpl. unfold mret, M_ret. do 2 f_equal. destruct s as [l]. unfold set_states. simpl. f_equal.
    apply list_eq. intros k. rewrite list_lookup_imap. destruct (l !! k) as [[]|]; [|done].
    unfold lower, add_upstream, occ. simpl. do 2 f_equal. lia.
  - destruct (lookup_lt_is_Some_2 (arrow_states s) d) as [a Ha]; [set_solver|].
    cbn [for_each]. mstep (modify_arrow_ok d (add_upstream (-1)) s a Ha).
    rewrite IH by (simpl; rewrite length_insert; set_solver). unfold set_states. simpl. do 2 f_equal.
    apply list_eq. intros k. rewrite !list_lookup_imap. destruct (decide (d = k)) as [->|Hne].
    + rewrite list_lookup_insert_eq by (by eapply lookup_lt_Some). rewrite Ha. simpl.
      unfold lower, add_upstream. simpl. rewrite occ_cons, decide_True by done. do 2 f_equal. lia.
    + rewrite list_lookup_insert_ne by done. destruct (arrow_states s !! k); [|done]. simpl.
      unfold lower. by rewrite occ_cons, decide_False.
Qed.

Lemma sumZ_imap_change (f : ArrowState -> Z) g l i a :
  l !! i = Some a -> (forall k b, k <> i -> f (g k b) = f b) ->
  sumZ (f <$> imap g l) = sumZ (f <$> l) - f a + f (g i a).
Proof.
  intros Hi Hg. rewrite <- (sumZ_insert (f <$> l) i (f a)) by (by rewrite list_lookup_fmap, Hi).
  f_equal. apply list_eq. intros k. rewrite list_lookup_fmap, list_lookup_imap.
  destruct (decide (i = k)) as [->|Hne].
  - rewrite list_lookup_insert_eq by (rewrite length_fmap; by eapply lookup_lt_Some). by rewrite Hi.
  - rewrite list_lookup_insert_ne, list_lookup_fmap by done.
    destruct (l !! k); [|done]. simpl. by rewrite Hg.
Qed.

Definition stopped (st : ArrowStatus) : Prop := is_Active st || is_Draining st = false.

Lemma counts_deactivate s i a st :
  counts_ok s -> arrow_states s !! i = Some a -> live a = true -> stopped st ->
  counts_ok (deactivate i st (downstream_arrow_indices a) s).
Proof.
  intros [Ht Hu] Ha Hlive Hst. split; simpl.
  - rewrite (sumZ_imap_change (fun a => if live a then 1 else 0) _ _ i a Ha).
    + unfold deactivate_arrow. rewrite bool_decide_true by done. rewrite Hlive, Ht.
      unfold live at 3. simpl. rewrite Hst. lia.
    + intros k b Hne. unfold deactivate_arrow. by rewrite bool_decide_false.
  - intros k b'. rewrite list_lookup_imap. destruct (arrow_states s !! k) as [b|] eqn:Hb; [|done].
    simpl. intros [= <-]. rewrite (sumZ_imap_change (contrib k) _ _ i a Ha).
    + rewrite <- (Hu k b Hb). unfold contrib, deactivate_arrow. rewrite Hlive, (bool_decide_true (i = i)) by done.
      unfold live at 1. simpl. rewrite Hst. case_bool_decide; simpl; lia.
    + intros j c Hne. unfold deactivate_arrow. by rewrite bool_decide_false.
Qed.

(** The part of an arrow's state that the counters are about. *)
Definition view (a : ArrowState) : ArrowStatus * Z * list nat :=
  (status a, active_or_draining_upstream_arrow_count a, downstream_arrow_indices a).

Definition skeleton (s : TopologyState) : list (ArrowStatus * Z * list nat) * Z :=
  (view <$> arrow_states s, active_or_draining_arrow_count s).

Lemma counts_ok_skeleton s s' : skeleton s' = skeleton s -> counts_ok s -> counts_ok s'.
Proof.
  intros [= Hl Hc] [Ht Hu]. pose proof (f_equal length Hl) as Hlen. rewrite !length_fmap in Hlen.
  assert (Hsum : forall F : ArrowStatus * Z * list nat -> Z,
    sumZ ((fun a => F (view a)) <$> arrow_states s') = sumZ ((fun a => F (view a)) <$> arrow_states s)).
  { intros F. rewrite !(list_fmap_compose view F). by rewrite Hl. }
  split.
  - rewrite Hc, Ht. symmetry. apply (Hsum (fun v => if is_Active v.1.1 || is_Draining v.1.1 then 1 else 0)).
  - intros k a' Ha'. destruct (lookup_lt_is_Some_2 (arrow_states s) k) as [a Ha];
      [rewrite <- Hlen; by eapply lookup_lt_Some|].
    assert (Hv : view a' = view a).
    { apply (f_equal (lookup k)) in Hl. rewrite !list_lookup_fmap, Ha, Ha' in Hl. simpl in Hl. congruence. }
    injection Hv as _ -> _. rewrite (Hu k a Ha). symmetry.
    apply (Hsum (fun v => if is_Active v.1.1 || is_Draining v.1.1 then occ k v.2 else 0)).
Qed.

Definition same_skeleton (s s' : TopologyState) : Prop := skeleton s' = skeleton s.

#[local] Instance same_skeleton_preorder : PreOrder same_skeleton.
Proof. unfold same_skeleton. split; red; congruence. Qed.

Lemma skeleton_threads i n s a :
  arrow_states s !! i = Some a ->
  skeleton (set_states (<[i := add_threads n a]> (arrow_states s)) s) = skeleton s.
Proof.
  intros Ha. unfold skeleton. simpl. f_equal. rewrite list_fmap_insert. apply list_insert_id.
  by rewrite list_lookup_fmap, Ha.
Qed.

Lemma graph_skeleton s s' : skeleton s' = skeleton s -> graph s' = graph s.
Proof.
  intros [= Hl _]. unfold graph.
  change downstream_arrow_indices with (fun a => (view a).2). rewrite !(list_fmap_compose view snd).
  by rewrite Hl.
Qed.

Lemma deactivate_graph i st ds s : graph (deactivate i st ds s) = graph s.
Proof.
  unfold graph, deactivate. simpl. rewrite fmap_imap. apply list_eq. intros k.
  rewrite list_lookup_imap, list_lookup_fmap. destruct (arrow_states s !! k); [|done]. simpl.
  unfold deactivate_arrow. by case_bool_decide.
Qed.

Lemma wf_graph_eq s s' : graph s' = graph s -> wf_graph s -> wf_graph s'.
Proof.
  intros Hg Hwf ds d. rewrite Hg. intros Hds Hd. specialize (Hwf ds d Hds Hd).
  apply (f_equal length) in Hg. unfold graph in Hg. rewrite !length_fmap in Hg. lia.
Qed.

Lemma wf_downstream s i a :
  wf_graph s -> arrow_states s !! i = Some a ->
  forall d, d ∈ downstream_arrow_indices a -> (d < length (arrow_states s))%nat.
Proof.
  intros Hwf Ha d Hd. apply (Hwf (downstream_arrow_indices a)); [|done].
  unfold graph. apply list_elem_of_fmap. exists a. split; [done|]. apply list_elem_of_lookup. eauto.
Qed.

Lemma pause_arrow_spec i a s :
  wf_graph s -> arrow_states s !! i = Some a ->
  pause_arrow_unprotected i s
  = (Ok tt, if is_Active (status a) then deactivate i AInactive (downstream_arrow_indices a) s else s).
Proof.
  intros Hwf Ha. unfold pause_arrow_unprotected. mstep (arrow_at_ok _ _ _ Ha).
  destruct (is_Active (status a)); simpl; [|done]. rewrite M_bind_modify.
  erewrite M_bind_ok; [|apply lower_all; simpl; by eapply wf_downstream].
  unfold modify_arrow. simpl. rewrite list_lookup_imap, Ha. simpl.
  unfold deactivate, add_count, set_states. simpl. do 2 f_equal. apply list_eq. intros k.
  rewrite list_lookup_imap. destruct (decide (i = k)) as [->|Hne].
  - rewrite list_lookup_insert_eq by (rewrite length_imap; by eapply lookup_lt_Some).
    rewrite Ha. simpl. unfold deactivate_arrow. by rewrite bool_decide_true.
  - rewrite list_lookup_insert_ne, list_lookup_imap by done. destruct (arrow_states s !! k); [|done].
    simpl. unfold deactivate_arrow. by rewrite bool_decide_false.
Qed.

(** What every operation after the start preserves. *)
Definition counting (s : TopologyState) : Prop := counts_ok s /\ wf_graph s.

Lemma pause_arrow_counting i s s' o :
  counting s -> pause_arrow_unprotected i s = (o, s') -> counting s'.
Proof.
  intros [Hc Hwf]. destruct (arrow_states s !! i) as [a|] eqn:Ha.
  - rewrite (pause_arrow_spec i a) by done. intros [= <- <-]. destruct (is_Active (status a)) eqn:Hact; [|done].
    split; [|by eapply wf_graph_eq; [apply deactivate_graph|]].
    apply counts_deactivate; [done|done| |done]. unfold live. by rewrite Hact.
  - unfold pause_arrow_unprotected, arrow_at, mbind, M_bind. rewrite Ha. by intros [= <- <-].
Qed.

(** [m] preserves [counting], whatever its outcome. *)
Definition safe {A} (m : MS A) : Prop := forall s, counting s -> counting (m s).2.

Lemma safe_bind {A B} (m : MS A) (f : A -> MS B) :
  safe m -> (forall a, safe (f a)) -> safe (x ← m; f x).
Proof.
  intros Hm Hf s Hs. specialize (Hm s Hs). unfold mbind, M_bind.
  destruct (m s) as [[a| |] s1]; simpl in *; [by apply Hf|done|done].
Qed.

Lemma safe_for_each {A} (l : list A) body : (forall x, safe (body x)) -> safe (for_each l body).
Proof.
  intros Hb. induction l as [|x l IH]; simpl; [by intros s|]. apply safe_bind; auto.
Qed.

Lemma safe_keeps {A} (m : MS A) : keeps same_skeleton m -> safe m.
Proof.
  intros Hk s [Hc Hwf]. specialize (Hk s). split; [by eapply counts_ok_skeleton|].
  eapply wf_graph_eq; [by apply graph_skeleton|done].
Qed.

Lemma skeleton_modify f :
  (forall s, skeleton (f s) = skeleton s) -> keeps same_skeleton (modify f).
Proof. intros Hf s. apply Hf. Qed.

Lemma skeleton_modify_arrow i n : keeps same_skeleton (modify_arrow i (add_threads n)).
Proof.
  intros s. unfold modify_arrow, same_skeleton. destruct (arrow_states s !! i) as [a|] eqn:Ha; [|done].
  by apply skeleton_threads.
Qed.

Lemma skeleton_arrow_at i : keeps same_skeleton (arrow_at i).
Proof. intros s. unfold arrow_at, same_skeleton. by case_match. Qed.

Ltac keeps_skeleton :=
  repeat first [ apply skeleton_modify_arrow
               | apply skeleton_modify; by intros []
               | apply skeleton_arrow_at
               | keeps_step ].

Lemma checkout_loop_skeleton fuel : forall cur, keeps same_skeleton (checkout_loop fuel cur).
Proof. induction fuel as [|fuel IH]; intros cur; simpl; keeps_skeleton; apply IH. Qed.

Section Stopping.
Context (finalize : Z -> outcome unit).

(** The end of a checkin: if nothing is active or draining any more, the topology has paused. *)
Definition end_checkin (now : Z) (s : TopologyState) : outcome unit * TopologyState :=
  if active_or_draining_arrow_count s =? 0 then achieve_topology_pause_unprotected now s else (Ok tt, s).

Lemma end_checkin_eq now s :
  (count ← gets active_or_draining_arrow_count;
   if count =? 0 then achieve_topology_pause_unprotected now else mret tt) s = end_checkin now s.
Proof. rewrite M_bind_gets. unfold end_checkin. by case_match. Qed.

Definition must_finalize (b : JArrow) (r : Status) (pending : Z) (a : ArrowState) : bool :=
  (is_source b && is_Finished r && is_Active (status a)) ||
  (negb (is_source b) && (active_or_draining_upstream_arrow_count a =? 0) && (pending =? 0) &&
   (thread_count a =? 0) && (is_Draining (status a) || is_Active (status a))).

Definition must_drain (b : JArrow) (pending : Z) (a : ArrowState) : bool :=
  negb (is_source b) && (active_or_draining_upstream_arrow_count a =? 0) && (pending =? 0) &&
  (0 <? thread_count a) && is_Active (status a).

Lemma checkin_spec now b r pending s i a :
  wf_graph s -> find_arrow (arrow_states s) (ptr b) 0 = Ok i -> arrow_states s !! i = Some a ->
  let a1 := add_threads (-1) a in
  let s1 := set_states (<[i := a1]> (arrow_states s)) s in
  checkin_unprotected finalize now b r pending s =
  if must_finalize b r pending a1 then
    match finalize (ptr b) with
    | Ok _ => end_checkin now (deactivate i AFinalized (downstream_arrow_indices a)
                (add_call (CallFinalize (ptr b)) s1))
    | Throw e => (Throw e, add_call (CallFinalize (ptr b)) s1)
    | Undef => (Undef, add_call (CallFinalize (ptr b)) s1)
    end
  else if must_drain b pending a1 then
    end_checkin now (set_states (<[i := set_status ADraining a1]> (arrow_states s1)) s1)
  else end_checkin now s1.
Proof.
  intros Hwf Hf Ha a1 s1. unfold checkin_unprotected. rewrite M_bind_gets.
  assert (Hlift : lift (find_arrow (arrow_states s) (ptr b) 0) s = (Ok i, s)) by (unfold lift; by rewrite Hf).
  mstep Hlift. mstep (modify_arrow_ok i (add_threads (-1)) s a Ha). fold a1 s1.
  assert (Ha1 : arrow_states s1 !! i = Some a1).
  { apply list_lookup_insert_eq. by eapply lookup_lt_Some. }
  mstep (arrow_at_ok _ _ _ Ha1). unfold must_finalize, must_drain.
  destruct (_ || _).
  - unfold call_finalize. destruct (finalize (ptr b)) as [[]| |] eqn:Hfin.
    + erewrite M_bind_ok; [apply end_checkin_eq|].
      erewrite M_bind_ok; [|rewrite M_bind_modify; reflexivity].
      assert (Hc : arrow_states (add_call (CallFinalize (ptr b)) s1) !! i = Some a1) by done.
      mstep (modify_arrow_ok i (set_status AFinalized) _ a1 Hc). rewrite M_bind_modify.
      rewrite lower_all.
      2:{ simpl. rewrite !length_insert. by eapply wf_downstream. }
      unfold deactivate, add_count, set_states. simpl. do 2 f_equal. apply list_eq. intros k.
      rewrite !list_lookup_imap. destruct (decide (i = k)) as [->|Hne].
      * rewrite !list_lookup_insert_eq by (rewrite ?length_insert; by eapply lookup_lt_Some).
        simpl. unfold deactivate_arrow. by rewrite bool_decide_true.
      * rewrite !list_lookup_insert_ne by done. destruct (arrow_states s !! k); [|done]. simpl.
        unfold deactivate_arrow. by rewrite bool_decide_false.
    + erewrite M_bind_throw; [done|]. erewrite M_bind_throw; [done|]. rewrite M_bind_modify. done.
    + done.
  - destruct (_ && _ && _ && _ && _).
    + erewrite M_bind_ok; [apply end_checkin_eq|]. by apply modify_arrow_ok.
    + rewrite M_bind_ret. apply end_checkin_eq.
Qed.

Lemma end_checkin_skeleton now s : same_skeleton s (end_checkin now s).2.
Proof.
  unfold end_checkin. case_match; [|done].
  assert (Hk : keeps same_skeleton (achieve_topology_pause_unprotected now))
    by (unfold achieve_topology_pause_unprotected; keeps_skeleton).
  apply Hk.
Qed.

Lemma counting_skeleton s s' : same_skeleton s s' -> counting s -> counting s'.
Proof.
  intros Hk [Hc Hwf]. split; [by eapply counts_ok_skeleton|].
  eapply wf_graph_eq; [by apply graph_skeleton|done].
Qed.

Lemma counting_status s i a st :
  counting s -> arrow_states s !! i = Some a -> live (set_status st a) = live a ->
  counting (set_states (<[i := set_status st a]> (arrow_states s)) s).
Proof.
  intros [[Ht Hu] Hwf] Ha Hlive.
  assert (Hsum : forall f : ArrowState -> Z, f (set_status st a) = f a ->
    f <$> <[i := set_status st a]> (arrow_states s) = f <$> arrow_states s).
  { intros f Hf. rewrite list_fmap_insert, Hf. apply list_insert_id. by rewrite list_lookup_fmap, Ha. }
  split; [split; simpl|].
  - by rewrite Hsum by (by rewrite Hlive).
  - intros k b Hb. rewrite Hsum by (unfold contrib; by rewrite Hlive).
    destruct (decide (i = k)) as [->|Hne].
    + rewrite list_lookup_insert_eq in Hb by (by eapply lookup_lt_Some). simplify_eq/=. by apply Hu.
    + rewrite list_lookup_insert_ne in Hb by done. by apply Hu.
  - eapply wf_graph_eq; [|exact Hwf]. unfold graph. simpl. rewrite list_fmap_insert.
    apply list_insert_id. by rewrite list_lookup_fmap, Ha.
Qed.

Lemma must_finalize_live b r pending a : must_finalize b r pending a = true -> live a = true.
Proof.
  unfold must_finalize, live. intros [H|H]%orb_true_iff; apply andb_true_iff in H as [_ H];
    [by rewrite H|by rewrite orb_comm].
Qed.

Lemma counting_finalize s i a :
  counting s -> arrow_states s !! i = Some a -> live a = true ->
  counting (deactivate i AFinalized (downstream_arrow_indices a) s).
Proof.
  intros [Hc Hwf] Ha Hlive. split; [by apply counts_deactivate|].
  eapply wf_graph_eq; [apply deactivate_graph|done].
Qed.

Lemma checkin_safe now b r pending : safe (checkin_unprotected finalize now b r pending).
Proof.
  intros s Hs. destruct (find_arrow (arrow_states s) (ptr b) 0) as [i| |] eqn:Hf.
  2,3: unfold checkin_unprotected; rewrite M_bind_gets; unfold mbind, M_bind, lift; by rewrite Hf.
  destruct (find_arrow_Ok _ _ _ _ Hf) as (j & a & Hj & Ha & _). simpl in Hj. subst j.
  rewrite (checkin_spec now b r pending s i a (proj2 Hs) Hf Ha).
  set (a1 := add_threads (-1) a). set (s1 := set_states (<[i := a1]> (arrow_states s)) s).
  assert (Hs1 : counting s1) by (eapply counting_skeleton; [by apply skeleton_threads|done]).
  assert (Ha1 : arrow_states s1 !! i = Some a1).
  { apply list_lookup_insert_eq. by eapply lookup_lt_Some. }
  assert (Hcall : counting (add_call (CallFinalize (ptr b)) s1)) by (by apply (counting_skeleton s1)).
  cbn zeta. destruct (must_finalize b r pending a1) eqn:Hm; [destruct (finalize (ptr b))|].
  - eapply counting_skeleton; [apply end_checkin_skeleton|].
    apply (counting_finalize (add_call (CallFinalize (ptr b)) s1) i a1); [done|done|].
    by eapply must_finalize_live.
  - done.
  - done.
  - destruct (must_drain b pending a1) eqn:Hd;
      (eapply counting_skeleton; [apply end_checkin_skeleton|]); [|done].
    apply counting_status; [done|done|]. unfold must_drain in Hd. apply andb_true_iff in Hd as [_ Hd].
    unfold live. by rewrite Hd.
Qed.

(** Everything that workers and the control thread do to a topology once it runs. *)
Inductive stop_step : TopologyState -> TopologyState -> Prop :=
| st_checkin s now b r pending : stop_step s (checkin_unprotected finalize now b r pending s).2
| st_ask s : stop_step s (checkout_unprotected s).2
| st_checkout s i : stop_step s (checkout i s).2
| st_pause s : stop_step s (request_topology_pause s).2
| st_drain s : stop_step s (drain_topology s).2
| st_achieve s now : stop_step s (achieve_topology_pause_unprotected now s).2
| st_finish s : stop_step s (finish_topology finalize s).2.

Lemma stop_step_counting s s' : counting s -> stop_step s s' -> counting s'.
Proof.
  assert (Hpause : forall i, safe (pause_arrow_unprotected i)).
  { intros i s0 Hs0. destruct (pause_arrow_unprotected i s0) eqn:E. by eapply pause_arrow_counting. }
  intros Hs Hstep. destruct Hstep; revert s Hs;
    match goal with |- forall s, counting s -> counting (?m s).2 => change (safe m) end.
  - apply checkin_safe.
  - apply safe_keeps. unfold checkout_unprotected. apply keeps_bind; [apply _|apply keeps_get; apply _|].
    intros s. apply checkout_loop_skeleton.
  - apply safe_keeps. unfold checkout. keeps_skeleton.
  - unfold request_topology_pause. apply safe_bind; [by intros s|]. intros s.
    destruct (current_topology_status s); try by intros s0.
    apply safe_bind; [by apply safe_for_each|]. intros _. apply safe_keeps. keeps_skeleton.
  - unfold drain_topology, for_sources. apply safe_bind; [by intros s|]. intros st. case_match; [by intros s0|].
    apply safe_bind; [|intros _; apply safe_keeps; keeps_skeleton].
    apply safe_bind; [by intros s|]. intros s. apply safe_for_each. intros i.
    apply safe_bind; [apply safe_keeps; keeps_skeleton|]. intros a. case_match; [apply Hpause|by intros s0].
  - apply safe_keeps. unfold achieve_topology_pause_unprotected. keeps_skeleton.
  - apply safe_keeps. unfold finish_topology, call_finalize. keeps_skeleton.
Qed.

Lemma sumZ_zero_inv {A} (f : A -> Z) l :
  (forall x, 0 <= f x) -> sumZ (f <$> l) = 0 -> forall x, x ∈ l -> f x = 0.
Proof.
  intros Hf. induction l as [|y l IH]; intros Hs x Hx; [by apply not_elem_of_nil in Hx|].
  csimpl in Hs. assert (0 <= sumZ (f <$> l)).
  { clear -Hf. induction l as [|z l IH]; [done|]. csimpl. specialize (Hf z). lia. }
  pose proof (Hf y). apply elem_of_cons in Hx as [->|Hx]; [lia|]. apply IH; [lia|done].
Qed.

Lemma end_checkin_states now s : arrow_states (end_checkin now s).2 = arrow_states s.
Proof.
  unfold end_checkin. case_match; [|done]. unfold achieve_topology_pause_unprotected.
  rewrite M_bind_gets. by destruct (current_topology_status s).
Qed.

Lemma nobody_upstream s i a j c :
  counts_ok s -> arrow_states s !! i = Some a -> active_or_draining_upstream_arrow_count a = 0 ->
  arrow_states s !! j = Some c -> i ∈ downstream_arrow_indices c -> live c = false.
Proof.
  intros [_ Hu] Ha H0 Hc Hi. rewrite (Hu i a Ha) in H0.
  pose proof (sumZ_zero_inv (contrib i) (arrow_states s)) as Hz.
  assert (Hcz : contrib i c = 0).
  { apply Hz; [|done|apply list_elem_of_lookup; eauto]. intros x. unfold contrib, occ. case_match; lia. }
  unfold contrib in Hcz. destruct (live c); [|done]. unfold occ in Hcz.
  assert (Hin : i ∈ filter (fun j => j = i) (downstream_arrow_indices c)) by (by apply list_elem_of_filter).
  destruct (filter _ _); [by apply not_elem_of_nil in Hin|simpl in Hcz; lia].
Qed.

(** C4: a stage is finalized only once it is drained.  After any sequence of operations on
    a topology with exact counters, when a worker's checkin finalizes an arrow that
    is not a source, then the arrow's queues were empty, no other worker holds it, and no
    arrow directly upstream of it is active or draining. *)
Theorem stage_finalized_when_drained s0 s now r pending s' i a a' :
  counting s0 -> steps stop_step s0 s ->
  find_arrow (arrow_states s) (ptr (arrow a)) 0 = Ok i -> arrow_states s !! i = Some a ->
  is_source (arrow a) = false -> status a <> AFinalized ->
  checkin_unprotected finalize now (arrow a) r pending s = (Ok tt, s') ->
  arrow_states s' !! i = Some a' -> status a' = AFinalized ->
  pending = 0 /\ thread_count a' = 0 /\
  forall j c, arrow_states s' !! j = Some c -> i ∈ downstream_arrow_indices c -> live c = false.
Proof.
  intros H0 Hrun Hf Ha Hns Hnf Hin Ha' Hfin.
  assert (Hs : counting s) by (eapply steps_invariant; [exact stop_step_counting|exact Hrun|done]).
  assert (Hs' : s' = (checkin_unprotected finalize now (arrow a) r pending s).2) by (by rewrite Hin).
  rewrite (checkin_spec now (arrow a) r pending s i a (proj2 Hs) Hf Ha) in Hs', Hin. cbn zeta in Hs', Hin.
  set (a1 := add_threads (-1) a) in *. set (s1 := set_states (<[i := a1]> (arrow_states s)) s) in *.
  assert (Hs1 : counting s1) by (eapply counting_skeleton; [by apply skeleton_threads|done]).
  assert (Ha1 : arrow_states s1 !! i = Some a1).
  { apply list_lookup_insert_eq. by eapply lookup_lt_Some. }
  destruct (must_finalize (arrow a) r pending a1) eqn:Hm; [destruct (finalize _); [|done|done]|].
  - unfold must_finalize in Hm. rewrite Hns in Hm. simpl in Hm.
    rewrite !andb_true_iff, !Z.eqb_eq in Hm. destruct Hm as (((Hup & Hpend) & Hthr) & _).
    subst s'. rewrite end_checkin_states in Ha'. rewrite end_checkin_states.
    change (arrow_states (deactivate _ _ _ (add_call _ s1))) with
      (imap (deactivate_arrow i AFinalized (downstream_arrow_indices a)) (arrow_states s1)) in Ha' |- *.
    rewrite list_lookup_imap, Ha1 in Ha'. simpl in Ha'. injection Ha' as <-.
    split; [done|]. split; [unfold deactivate_arrow; by rewrite bool_decide_true|].
    intros j c. rewrite list_lookup_imap. destruct (arrow_states s1 !! j) as [c0|] eqn:Hc0; [|done].
    simpl. intros [= <-]. unfold deactivate_arrow. case_bool_decide; simpl; [done|].
    intros Hij. by eapply (nobody_upstream s1 i a1 j c0); [apply Hs1|..].
  - exfalso. destruct (must_drain (arrow a) pending a1); subst s'; rewrite end_checkin_states in Ha'.
    + simpl in Ha'. rewrite list_lookup_insert_eq in Ha'
        by (rewrite length_insert; by eapply lookup_lt_Some). by simplify_eq/=.
    + rewrite Ha1 in Ha'. by simplify_eq/=.
Qed.

(** A checkin that returns ends in [end_checkin], from exact counters. *)
Lemma checkin_ends now b r pending s s' :
  counting s -> checkin_unprotected finalize now b r pending s = (Ok tt, s') ->
  exists s2, counting s2 /\ current_topology_status s2 = current_topology_status s /\
    s' = (end_checkin now s2).2.
Proof.
  intros Hs Hin. assert (Hs' : s' = (checkin_unprotected finalize now b r pending s).2) by (by rewrite Hin).
  destruct (find_arrow (arrow_states s) (ptr b) 0) as [i| |] eqn:Hf.
  2,3: unfold checkin_unprotected in Hin; rewrite M_bind_gets in Hin; unfold mbind, M_bind, lift in Hin;
    by rewrite Hf in Hin.
  destruct (find_arrow_Ok _ _ _ _ Hf) as (j & a & Hj & Ha & _). simpl in Hj. subst j.
  rewrite (checkin_spec now b r pending s i a (proj2 Hs) Hf Ha) in Hs', Hin. cbn zeta in Hs', Hin.
  set (a1 := add_threads (-1) a) in *. set (s1 := set_states (<[i := a1]> (arrow_states s)) s) in *.
  assert (Hs1 : counting s1) by (eapply counting_skeleton; [by apply skeleton_threads|done]).
  assert (Ha1 : arrow_states s1 !! i = Some a1).
  { apply list_lookup_insert_eq. by eapply lookup_lt_Some. }
  destruct (must_finalize b r pending a1) eqn:Hm; [destruct (finalize _); [|done|done]|].
  - eexists. split; [|split; [|exact Hs']]; [|done].
    apply (counting_finalize (add_call (CallFinalize (ptr b)) s1) i a1); [|done|by eapply must_finalize_live].
    by apply (counting_skeleton s1).
  - destruct (must_drain b pending a1) eqn:Hd; (eexists; split; [|split; [|exact Hs']]); try done.
    apply counting_status; [done|done|]. unfold must_drain in Hd. apply andb_true_iff in Hd as [_ Hd].
    unfold live. by rewrite Hd.
Qed.

(** ** Who is out when a running topology pauses *)

(** Workers that hold arrows ask for one and hand theirs in; the control thread pauses, drains and finishes, but does not run the topology again. *)
Inductive work_step : held_state -> held_state -> Prop :=
| wk_in s h1 h2 b now r pending o s' :
    b ∈ arrow <$> arrow_states s -> checkin_unprotected finalize now b r pending s = (o, s') -> o <> Undef ->
    work_step (s, h1 ++ ptr b :: h2) (s', h1 ++ h2)
| wk_out s h b s' : checkout_unprotected s = (Ok b, s') -> work_step (s, h) (s', option_ptr b ++ h)
| wk_pause s h s' : request_topology_pause s = (Ok tt, s') -> work_step (s, h) (s', h)
| wk_drain s h s' : drain_topology s = (Ok tt, s') -> work_step (s, h) (s', h)
| wk_achieve s h now s' : achieve_topology_pause_unprotected now s = (Ok tt, s') -> work_step (s, h) (s', h)
| wk_finish s h o s' : finish_topology finalize s = (o, s') -> work_step (s, h) (s', h).

Definition sequential_sources (s : TopologyState) : Prop := forall a n, (a, n) ∈ threads s -> is_source a = true -> is_parallel a = false.

(** While the topology is running, nobody is in an arrow that has stopped. *)
Definition settled (s : TopologyState) : Prop :=
  current_topology_status s = TRunning -> forall a, a ∈ arrow_states s -> live a = false -> thread_count a = 0.

Lemma end_checkin_running now s : current_topology_status (end_checkin now s).2 = TRunning -> current_topology_status s = TRunning.
Proof.
  unfold end_checkin, achieve_topology_pause_unprotected. case_match; [|done]. rewrite M_bind_gets.
  by destruct (current_topology_status s) eqn:E; cbn; rewrite ?E.
Qed.

(** The arrow with the pointer that is handed in is the one handed in, and somebody holds it. *)
Lemma held_arrow b s i a h1 h2 : threads_inv s (h1 ++ ptr b :: h2) -> b ∈ arrow <$> arrow_states s ->
  find_arrow (arrow_states s) (ptr b) 0 = Ok i -> arrow_states s !! i = Some a ->
  arrow a = b /\ 1 <= thread_count a /\ (is_parallel b = false -> thread_count a = 1).
Proof.
  intros Hinv (c & -> & [j Hj]%list_elem_of_lookup)%list_elem_of_fmap Hf Ha.
  destruct (find_arrow_Ok _ _ _ _ Hf) as (i' & a' & Hi' & Ha' & Hp). simpl in Hi'. subst i'. assert (a' = a) as -> by congruence.
  assert (i = j) as <-.
  { eapply NoDup_lookup; [exact (ti_distinct _ _ Hinv)|..]; unfold threads; rewrite !list_lookup_fmap; [by rewrite Ha|by rewrite Hj; cbn; f_equal]. }
  assert (c = a) as -> by congruence. split; [done|].
  destruct (ti_counts _ _ Hinv (arrow a) (thread_count a)) as [Hn Hpar]; [apply list_elem_of_lookup; exists i; by apply threads_lookup|].
  rewrite holders_app, holders_cons, decide_True in Hn by done. unfold holders in Hn. split; [lia|]. intros Hnp. specialize (Hpar Hnp). lia.
Qed.

Lemma checkin_idle now b r pending s o s' h1 h2 : counting s -> threads_inv s (h1 ++ ptr b :: h2) -> sequential_sources s -> settled s ->
  b ∈ arrow <$> arrow_states s -> checkin_unprotected finalize now b r pending s = (o, s') ->
  current_topology_status s = TRunning -> forall a, a ∈ arrow_states s' -> live a = false -> thread_count a = 0.
Proof.
  intros Hs Hinv Hseq Hset Hb Hin Hrun. assert (Hs' : s' = (checkin_unprotected finalize now b r pending s).2) by (by rewrite Hin).
  destruct (find_arrow (arrow_states s) (ptr b) 0) as [i| |] eqn:Hf.
  2,3: unfold checkin_unprotected in Hs'; rewrite M_bind_gets in Hs'; unfold mbind, M_bind, lift in Hs'; rewrite Hf in Hs'; subst s'; by apply Hset.
  destruct (find_arrow_Ok _ _ _ _ Hf) as (j & a & Hj & Ha & _). simpl in Hj. subst j.
  destruct (held_arrow b s i a h1 h2 Hinv Hb Hf Ha) as (Eb & Hpos & Hone).
  rewrite (checkin_spec now b r pending s i a (proj2 Hs) Hf Ha) in Hs'. cbn zeta in Hs'.
  set (a1 := add_threads (-1) a) in *. set (s1 := set_states (<[i := a1]> (arrow_states s)) s) in *.
  assert (Hlen : (i < length (arrow_states s))%nat) by (by eapply lookup_lt_Some).
  (* the other arrows are as they were, and the one handed in is live or has nobody left *)
  assert (Hgo : forall l : list ArrowState, (forall k c, k <> i -> l !! k = Some c -> exists c0, arrow_states s !! k = Some c0 /\ live c = live c0 /\ thread_count c = thread_count c0) ->
    (forall c, l !! i = Some c -> live c = false -> thread_count c = 0) -> current_topology_status s = TRunning ->
    forall c, c ∈ l -> live c = false -> thread_count c = 0).
  { intros l Hother Hi Hst c [k Hk]%list_elem_of_lookup Hlive. destruct (decide (k = i)) as [->|Hne]; [by apply Hi|].
    destruct (Hother k c Hne Hk) as (c0 & Hc0 & El & ->). apply (Hset Hst c0); [by eapply list_elem_of_lookup_2|congruence]. }
  assert (Hold : live a = false -> current_topology_status s = TRunning -> False).
  { intros Hl Hst. pose proof (Hset Hst a ltac:(by eapply list_elem_of_lookup_2) Hl). lia. }
  destruct (must_finalize b r pending a1) eqn:Hm; [destruct (finalize (ptr b))|].
  - subst s'. rewrite end_checkin_states. apply Hgo; [| |done]; cbn [deactivate add_count set_states arrow_states add_call].
    + intros k c Hne. rewrite list_lookup_imap. cbn [arrow_states s1 set_states]. rewrite list_lookup_insert_ne by done. intros (c0 & Hc0 & ->)%fmap_Some_1.
      exists c0. unfold deactivate_arrow. by rewrite bool_decide_false.
    + intros c. rewrite list_lookup_imap. cbn [arrow_states s1 set_states]. rewrite list_lookup_insert_eq by done. cbn. intros [= <-] _. unfold deactivate_arrow.
      rewrite bool_decide_true by done. cbn. unfold must_finalize in Hm. apply orb_true_iff in Hm as [Hm|Hm].
      * rewrite !andb_true_iff in Hm. destruct Hm as ((Hsrc & _) & _). rewrite Hone; [done|]. apply (Hseq b (thread_count a)); [|done].
        rewrite <- Eb. apply list_elem_of_lookup. exists i. by apply threads_lookup.
      * rewrite !andb_true_iff, !Z.eqb_eq in Hm. destruct Hm as ((_ & Ht) & _). exact Ht.
  - subst s'. apply Hgo; [| |done]; cbn.
    + intros k c Hne. rewrite list_lookup_insert_ne by done. intros Hc. by exists c.
    + intros c. rewrite list_lookup_insert_eq by done. intros [= <-] Hl. apply must_finalize_live in Hm. congruence.
  - subst s'. apply Hgo; [| |done]; cbn.
    + intros k c Hne. rewrite list_lookup_insert_ne by done. intros Hc. by exists c.
    + intros c. rewrite list_lookup_insert_eq by done. intros [= <-] Hl. apply must_finalize_live in Hm. congruence.
  - destruct (must_drain b pending a1) eqn:Hd; subst s'; rewrite end_checkin_states; (apply Hgo; [| |done]); cbn [arrow_states s1 set_states].
    + intros k c Hne. rewrite !list_lookup_insert_ne by done. intros Hc. by exists c.
    + intros c. rewrite list_lookup_insert_eq by (by rewrite length_insert). intros [= <-] Hl. done.
    + intros k c Hne. rewrite list_lookup_insert_ne by done. intros Hc. by exists c.
    + intros c. rewrite list_lookup_insert_eq by done. intros [= <-] Hl. by destruct (Hold Hl Hrun).
Qed.

Lemma checkin_was_running now b r pending s o s' : counting s -> checkin_unprotected finalize now b r pending s = (o, s') -> 
  current_topology_status s' = TRunning -> current_topology_status s = TRunning.
Proof.
  intros Hs Hin. assert (Hs' : s' = (checkin_unprotected finalize now b r pending s).2) by (by rewrite Hin).
  destruct (find_arrow (arrow_states s) (ptr b) 0) as [i| |] eqn:Hf.
  2,3: unfold checkin_unprotected in Hs'; rewrite M_bind_gets in Hs'; unfold mbind, M_bind, lift in Hs'; rewrite Hf in Hs'; by subst s'.
  destruct (find_arrow_Ok _ _ _ _ Hf) as (j & a & Hj & Ha & _). simpl in Hj. subst j.
  rewrite (checkin_spec now b r pending s i a (proj2 Hs) Hf Ha) in Hs'. cbn zeta in Hs'. subst s'.
  repeat case_match; try done; by intros ?%end_checkin_running.
Qed.

Lemma checkin_settled now b r pending s o s' h1 h2 : counting s -> threads_inv s (h1 ++ ptr b :: h2) -> sequential_sources s -> settled s ->
  b ∈ arrow <$> arrow_states s -> checkin_unprotected finalize now b r pending s = (o, s') -> settled s'.
Proof. intros Hs Hinv Hseq Hset Hb Hin Hrun. eapply checkin_idle; eauto. by eapply checkin_was_running. Qed.

(** The control thread's steps leave a running topology as it is, or it is no longer running. *)
Lemma finish_topology_states s : arrow_states (finish_topology finalize s).2 = arrow_states s /\
  (current_topology_status (finish_topology finalize s).2 = TRunning -> current_topology_status s = TRunning).
Proof.
  assert (Hk : keeps (fun s s' => arrow_states s' = arrow_states s /\ current_topology_status s' = current_topology_status s)
    (for_each (arrow_states s) (fun a => if negb (bool_decide (status a = AFinalized)) then call_finalize finalize (arrow a) else mret tt))).
  { apply keeps_for_each; [split; [done|by intros ??? [-> ->] [-> ->]]|]. intros a s0. case_match; [|done].
    unfold call_finalize. cbn. by destruct (finalize (ptr (arrow a))). }
  unfold finish_topology. rewrite M_bind_get. specialize (Hk s). unfold mbind, M_bind.
  destruct (for_each _ _ s) as [[[]| |] s1]; cbn in *; destruct Hk as [-> Hk]; rewrite ?Hk; naive_solver.
Qed.

(** What holds between any two operations on a topology at work. *)
Record working (sh : held_state) : Prop := {
  w_counting : counting sh.1;
  w_threads : threads_inv sh.1 sh.2;
  w_sources : sequential_sources sh.1;
  w_settled : settled sh.1;
  w_known : forall p, p ∈ sh.2 -> p ∈ ptr <$> (threads sh.1).*1
}.

Lemma working_same s s' h : working (s, h) -> counting s' -> same_threads s s' -> settled s' -> working (s', h).
Proof.
  intros [Hc Ht Hq Hs Hk] Hc' Hth Hs'. split; cbn in *; try done; [by eapply threads_inv_same|..].
  - unfold sequential_sources. by rewrite Hth.
  - by rewrite Hth.
Qed.

Lemma settled_stopped s : current_topology_status s <> TRunning -> settled s.
Proof. by intros H ?. Qed.

Lemma working_control c s s' h : working (s, h) -> s' = (do_control (fun _ => Ok tt) finalize c s).2 -> stop_step s s' -> settled s' -> working (s', h).
Proof.
  intros Hw -> Hstep Hs. apply (working_same s); [done| |apply control_threads|done].
  eapply stop_step_counting; [apply (w_counting _ Hw)|done].
Qed.

Lemma request_pause_stops s s' : request_topology_pause s = (Ok tt, s') -> current_topology_status s' <> TRunning.
Proof.
  unfold request_topology_pause. rewrite M_bind_get. destruct (current_topology_status s) eqn:E;
    first [by intros (? & ? & _ & [= <-])%M_bind_inv | intros [= <-]; congruence].
Qed.

Lemma drain_stops s s' : drain_topology s = (Ok tt, s') -> current_topology_status s' <> TRunning.
Proof.
  unfold drain_topology. rewrite M_bind_gets. case_bool_decide as E; [intros [= <-]; congruence|].
  by intros (? & ? & _ & [= <-])%M_bind_inv.
Qed.

Lemma achieve_stops now s s' : achieve_topology_pause_unprotected now s = (Ok tt, s') -> current_topology_status s' <> TRunning.
Proof.
  unfold achieve_topology_pause_unprotected. rewrite M_bind_gets.
  destruct (current_topology_status s) eqn:E; intros [= <-]; cbn; congruence.
Qed.

(** An arrow that is handed out is active. *)
Lemma checkout_working s b s' h : checkout_unprotected s = (Ok b, s') -> working (s, h) -> working (s', option_ptr b ++ h).
Proof.
  intros E [Hc Ht Hq Hs Hk]. cbn in *. pose proof (checkout_unprotected_inv _ _ _ _ E Ht) as Ht'.
  assert (Hc' : counting s').
  { replace s' with (checkout_unprotected s).2 by (by rewrite E). eapply stop_step_counting; [done|constructor]. }
  unfold checkout_unprotected in E. rewrite M_bind_get in E. apply checkout_loop_threads in E. destruct b as [c|]; [|by subst].
  destruct E as (i & a & Ha & He & -> & ->).
  assert (Hfst : (threads (set_states (<[i := add_threads 1 a]> (arrow_states s)) (set_next ((i + 1) mod length (arrow_states s)) s))).*1 = (threads s).*1).
  { unfold threads. cbn. rewrite !list_fmap_insert. apply list_insert_id. by rewrite !list_lookup_fmap, Ha. }
  split; cbn -[threads]; try done.
  - intros b m Hb Hsrc. assert (Hin : b ∈ (threads s).*1) by (rewrite <- Hfst; apply list_elem_of_fmap; by exists (b, m)).
    apply list_elem_of_fmap in Hin as ([b' m'] & -> & Hin). by apply (Hq b' m').
  - intros Hrun b [k Hb]%list_elem_of_lookup Hl. cbn in Hb. apply list_lookup_insert_Some in Hb as [(<- & <- & _)|[_ Hb]].
    + exfalso. unfold eligible in He. unfold live in Hl. cbn in Hl. destruct (status a); cbn in *; done.
    + apply (Hs Hrun); [by eapply list_elem_of_lookup_2|done].
  - rewrite Hfst. intros p [->|Hp]%elem_of_cons; [|by apply Hk].
    apply list_elem_of_fmap. exists (arrow a). split; [done|]. apply list_elem_of_fmap. exists (arrow a, thread_count a). split; [done|].
    apply list_elem_of_lookup. exists i. by apply threads_lookup.
Qed.

Lemma work_step_working sh sh' : working sh -> work_step sh sh' -> working sh'.
Proof.
  intros Hw Hstep. destruct Hstep as [s h1 h2 b now r pending o s' Hb E Ho|s h b s' E|s h s' E|s h s' E|s h now s' E|s h o s' E].
  - destruct Hw as [Hc Ht Hq Hs Hk]. cbn in *. destruct (checkin_threads _ _ _ _ _ _ _ _ E Ho) as (i & c & n & Hi & Hp & Hth).
    assert (Hfst : (threads s').*1 = (threads s).*1).
    { rewrite Hth, list_fmap_insert. apply list_insert_id. by rewrite list_lookup_fmap, Hi. }
    split; cbn.
    + replace s' with (checkin_unprotected finalize now b r pending s).2 by (by rewrite E). eapply stop_step_counting; [done|constructor].
    + by eapply checkin_inv.
    + intros a m Ha Hsrc. assert (Hin : a ∈ (threads s').*1) by (apply list_elem_of_fmap; by exists (a, m)).
      rewrite Hfst in Hin. apply list_elem_of_fmap in Hin as ([a' m'] & -> & Hin). by apply (Hq a' m').
    + by eapply checkin_settled.
    + rewrite Hfst. set_solver.
  - by eapply checkout_working.
  - apply (working_control CPause s); [done|by cbn; rewrite E| |by eapply settled_stopped, request_pause_stops].
    replace s' with (request_topology_pause s).2 by (by rewrite E). constructor.
  - apply (working_control CDrain s); [done|by cbn; rewrite E| |by eapply settled_stopped, drain_stops].
    replace s' with (drain_topology s).2 by (by rewrite E). constructor.
  - apply (working_control (CAchieve now) s); [done|by cbn; rewrite E| |by eapply settled_stopped, achieve_stops].
    replace s' with (achieve_topology_pause_unprotected now s).2 by (by rewrite E). constructor.
  - destruct (finish_topology_states s) as [Ha Hst]. rewrite E in Ha, Hst. cbn in Ha, Hst.
    apply (working_control CFinish s); [done|by cbn; rewrite E| |].
    + replace s' with (finish_topology finalize s).2 by (by rewrite E). constructor.
    + intros Hrun. rewrite Ha. apply (w_settled _ Hw), Hst, Hrun.
Qed.


Lemma settled_start s : threads_inv s [] -> settled s.
Proof.
  intros Ht _ a [i Ha]%list_elem_of_lookup _.
  destruct (ti_counts _ _ Ht (arrow a) (thread_count a)) as [-> _]; [|done].
  apply list_elem_of_lookup. exists i. by apply threads_lookup.
Qed.

(** The end of a checkin of a running topology: paused exactly when nothing is live. *)
Lemma checkin_detects now b r pending s s' : counting s -> current_topology_status s = TRunning ->
  checkin_unprotected finalize now b r pending s = (Ok tt, s') ->
  (current_topology_status s' = TPaused <-> forall a, a ∈ arrow_states s' -> live a = false).
Proof.
  intros Hs Hst Hin. destruct (checkin_ends _ _ _ _ _ _ Hs Hin) as (s2 & [[Ht _] _] & Hst2 & ->).
  rewrite end_checkin_states. rewrite <- Hst2 in Hst. unfold end_checkin.
  destruct (Z.eqb_spec (active_or_draining_arrow_count s2) 0) as [Hz|Hz].
  - split; [intros _ a Ha|intros _].
    + rewrite Hz in Ht. symmetry in Ht.
      pose proof (sumZ_zero_inv (fun a => if live a then 1 else 0) (arrow_states s2)) as Hall.
      specialize (Hall ltac:(intros x; simpl; destruct (live x); lia) Ht a Ha). simpl in Hall. by destruct (live a).
    + unfold achieve_topology_pause_unprotected. rewrite M_bind_gets. by rewrite Hst.
  - simpl. split; [congruence|]. intros Hnone. destruct Hz. rewrite Ht. apply sumZ_zero. intros a Ha. by rewrite Hnone.
Qed.

Lemma nobody_holds s h : threads_inv s h -> (forall a, a ∈ arrow_states s -> thread_count a = 0) ->
  (forall p, p ∈ h -> p ∈ ptr <$> (threads s).*1) -> h = [].
Proof.
  intros Ht Hz Hk. destruct h as [|p h]; [done|]. specialize (Hk p ltac:(left)).
  apply list_elem_of_fmap in Hk as (c & -> & ([c' n] & -> & Hn)%list_elem_of_fmap).
  destruct (ti_counts _ _ Ht c' n Hn) as [E _]. rewrite holders_cons, decide_True in E by done.
  apply list_elem_of_fmap in Hn as (a & [= -> ->] & Ha). rewrite (Hz _ Ha) in E. unfold holders in E. lia.
Qed.

(** C5: a running topology pauses exactly when its last arrow stops, and then nobody is at work.
    A topology has exact counters, distinct arrows, source arrows that are not parallel, and nobody holds one of its
    arrows.  Workers then take arrows and hand in the ones they hold (finalizing an arrow may throw), the control thread may
    pause, drain or finish, and nobody runs the topology again.  When the topology is running and a checkin returns, the
    topology is Paused if and only if no arrow is active or draining, and if it is Paused no worker
    holds an arrow. *)
Theorem pause_detected_exactly s0 s h1 h2 now b r pending s' :
  counting s0 -> threads_inv s0 [] -> sequential_sources s0 -> steps work_step (s0, []) (s, h1 ++ ptr b :: h2) ->
  current_topology_status s = TRunning -> b ∈ arrow <$> arrow_states s ->
  checkin_unprotected finalize now b r pending s = (Ok tt, s') ->
  (current_topology_status s' = TPaused <-> forall a, a ∈ arrow_states s' -> live a = false) /\
  (current_topology_status s' = TPaused -> h1 ++ h2 = [] /\ forall a, a ∈ arrow_states s' -> thread_count a = 0).
Proof.
  intros H0 Ht0 Hq0 Hrun Hst Hb Hin.
  assert (Hw : working (s, h1 ++ ptr b :: h2)).
  { eapply steps_invariant; [exact work_step_working|exact Hrun|]. split; cbn; [done..| |by intros ? ?%elem_of_nil].
    by apply settled_start. }
  pose proof (checkin_detects now b r pending s s' (w_counting _ Hw) Hst Hin) as Hiff.
  split; [done|]. intros Hp. pose proof (checkin_inv finalize _ _ _ _ _ _ _ _ _ Hin ltac:(done) (w_threads _ Hw)) as Ht'.
  assert (Hcnt : forall a, a ∈ arrow_states s' -> thread_count a = 0) by (intros a Ha; destruct Hw; eapply checkin_idle; eauto; by apply Hiff).
  split; [|done]. eapply nobody_holds; [exact Ht'|exact Hcnt|].
  apply (w_known (s', h1 ++ h2)). eapply work_step_working; [exact Hw|by eapply wk_in].
Qed.

End Stopping.

(** ** Executions that the counters do not cover *)

Definition no_finalize (a : Z) : outcome unit := Ok tt.
Definition stopwatch : PerfMetrics.JPerfMetrics := PerfMetrics.mkJPerfMetrics PerfMetrics.Reset 0 0 0 0 0 0 0.

(** Two sources that feed the same sink; a source that feeds a parallel sink. *)
Definition src1 : JArrow := mkJArrow 1 false true [3].
Definition src2 : JArrow := mkJArrow 2 false true [3].
Definition sink : JArrow := mkJArrow 3 true false [].

Definition two_sources : TopologyState := make [src1; src2; sink] stopwatch.
Definition one_source : TopologyState := make [src1; sink] stopwatch.

Definition start_up : MS unit := _ ← initialize_topology no_finalize; run_topology 0 1.

(** A worker takes arrow [i]; a worker hands in [a]. *)
Definition takes (i : nat) : MS unit := _ ← checkout i; mret tt.
Definition hands_in (a : JArrow) (r : Status) : MS unit := last_assignment no_finalize 0 (Some a) r 0.

(** Both sources finish and the sink drains; the sink was activated, and counted, twice. *)
Definition shared_sink_run : MS unit :=
  _ ← start_up;
  _ ← takes 0; _ ← hands_in src1 Finished;
  _ ← takes 1; _ ← hands_in src2 Finished;
  _ ← takes 2; hands_in sink KeepGoing.

(** A worker is inside the source while the topology drains. *)
Definition drain_run : MS unit :=
  _ ← start_up; _ ← takes 0; _ ← takes 1; _ ← drain_topology; hands_in sink ComeBackLater.

(** A topology in which two sources feed one stage never pauses by itself.  In this execution both
    sources have finished and the stage has drained, every arrow is finalized, and still the
    scheduler counts one active arrow and the topology stays Running. *)
Theorem shared_stage_never_pauses :
  exists s, shared_sink_run two_sources = (Ok tt, s) /\
    Forall (fun a => status a = AFinalized /\ thread_count a = 0) (arrow_states s) /\
    active_or_draining_arrow_count s = 1 /\ current_topology_status s = TRunning.
Proof. eexists. split; [vm_compute; reflexivity|]. by repeat constructor. Qed.

(** Draining can finalize a stage while a worker is still inside its source.  In this execution the
    stage is finalized and the topology is Paused although the source still has a thread, which may
    yet push an event that nobody will process. *)
Theorem drain_finalizes_too_early :
  exists s a b, drain_run one_source = (Ok tt, s) /\ arrow_states s = [a; b] /\
    arrow a = src1 /\ thread_count a = 1 /\ status b = AFinalized /\
    current_topology_status s = TPaused.
Proof. eexists _, _, _. split; [vm_compute; reflexivity|]. by repeat split. Qed.

(** Two workers hold arrows when a pause is requested. *)
Definition pause_run : MS unit :=
  _ ← start_up; _ ← takes 0; _ ← takes 1; _ ← request_topology_pause; hands_in sink KeepGoing.

(** A pause is declared by the first worker that checks in, not the last.  In this execution two
    workers hold arrows when the pause is requested; the topology is Paused, and its stopwatch
    stopped, as soon as one of them has handed in its arrow. *)
Theorem pause_declared_with_worker_out :
  exists s a b, pause_run one_source = (Ok tt, s) /\ arrow_states s = [a; b] /\
    thread_count a = 1 /\ current_topology_status s = TPaused /\
    PerfMetrics.mode_ (metrics s) = PerfMetrics.Stopped.
Proof. eexists _, _, _. split; [vm_compute; reflexivity|]. by repeat split. Qed.

(** The source finishes by itself, the topology drains, and is run again. *)
Definition rerun : MS unit :=
  _ ← start_up; _ ← takes 0; _ ← hands_in src1 Finished; _ ← drain_topology; run_topology 1 1.

(** Running again revives finished sources.  In this execution the source has finished and has been
    finalized; running the topology again makes it Active, and counts the sink that was still active
    a second time: three active arrows where there are two. *)
Theorem run_revives_finished_source :
  exists s a b, rerun one_source = (Ok tt, s) /\ arrow_states s = [a; b] /\
    status a = AActive /\ CallFinalize 1 ∈ calls s /\ active_or_draining_arrow_count s = 3.
Proof.
  eexists _, _, _. split; [vm_compute; reflexivity|]. repeat split. simpl. set_solver.
Qed.

Definition finish_twice : MS unit :=
  _ ← start_up; _ ← finish_topology no_finalize; finish_topology no_finalize.

(** Finishing is not idempotent.  [finish_topology] finalizes every arrow that is not Finalized but
    does not mark it, so a second call finalizes every arrow again. *)
Theorem finish_finalizes_again :
  exists s, finish_twice one_source = (Ok tt, s) /\
    calls s = [CallInitialize 1; CallInitialize 3; CallFinalize 1; CallFinalize 3; CallFinalize 1; CallFinalize 3].
Proof. eexists. split; [vm_compute; reflexivity|reflexivity]. Qed.

(** ** Witnesses *)

Lemma one_source_idle : idle one_source.
Proof.
  split; [split; [reflexivity|]|].
  - intros [|[|k]] a Ha; vm_compute in Ha; simplify_eq; reflexivity.
  - intros a Ha. vm_compute in Ha. set_unfold in Ha. by destruct Ha as [->|[->|[]]].
Qed.

Lemma one_source_forest : forest one_source [[0; 1]%nat].
Proof. split; [vm_compute; reflexivity|]. simpl. apply (bool_decide_unpack _). by vm_compute. Qed.

Lemma one_source_not_finalized a : a ∈ arrow_states one_source -> status a <> AFinalized.
Proof. intros Ha. vm_compute in Ha. set_unfold in Ha. by destruct Ha as [->|[->|[]]]. Qed.


(** [one_source] once started, and once its source has finished while the sink is out. *)
Definition started : TopologyState := snd (start_up one_source).
Definition source_done : TopologyState :=
  snd ((_ ← takes 0; _ ← takes 1; checkin_unprotected no_finalize 0 src1 Finished 0) started).

Lemma started_counting : counting started.
Proof.
  split; [split; [reflexivity|]|].
  - intros [|[|k]] a Ha; vm_compute in Ha; simplify_eq; reflexivity.
  - intros ds d Hds Hd. vm_compute in Hds. set_unfold in Hds.
    destruct Hds as [->|[->|[]]]; set_unfold in Hd; [|done]. destruct Hd as [->|[]]. vm_compute. lia.
Qed.

Lemma source_done_reached : steps (stop_step no_finalize) started source_done.
Proof.
  eapply steps_cons; [apply (st_checkout _ _ 0)|].
  eapply steps_cons; [apply (st_checkout _ _ 1)|].
  eapply steps_cons; [apply (st_checkin _ _ 0 src1 Finished 0)|]. vm_compute. apply steps_refl.
Qed.

(** The sink as it is before its last worker checks in. *)
Definition sink_state : ArrowState := mkArrowState sink AActive 1 0 [].

Lemma stage_finalized_when_drained_witness :
  exists s' a', checkin_unprotected no_finalize 0 sink ComeBackLater 0 source_done = (Ok tt, s') /\
    arrow_states s' !! 1%nat = Some a' /\ status a' = AFinalized /\ thread_count a' = 0.
Proof.
  eexists _, _. split; [vm_compute; reflexivity|]. split; [reflexivity|]. split; [reflexivity|].
  apply (stage_finalized_when_drained no_finalize started source_done 0 ComeBackLater 0
    (snd (checkin_unprotected no_finalize 0 sink ComeBackLater 0 source_done)) 1%nat sink_state _
    started_counting source_done_reached); vm_compute; try reflexivity; discriminate.
Defined.

(** Two workers take the source and the sink; the source is handed in finished. *)
Definition both_out : TopologyState := (checkout_unprotected (checkout_unprotected started).2).2.
Definition sink_out : TopologyState := (checkin_unprotected no_finalize 0 src1 Finished 0 both_out).2.

Lemma sink_out_reached : steps (work_step no_finalize) (started, []) (sink_out, [] ++ ptr sink :: []).
Proof.
  eapply steps_cons; [eapply (wk_out _ started [] (Some src1)); vm_compute; reflexivity|].
  eapply steps_cons; [eapply (wk_out _ _ _ (Some sink)); vm_compute; reflexivity|].
  eapply steps_cons; [|apply steps_refl].
  apply (wk_in _ both_out [ptr sink] [] src1 0 Finished 0 (Ok tt)); [|vm_compute; reflexivity|done].
  vm_compute. apply list_elem_of_here.
Qed.

Lemma pause_detected_exactly_witness :
  exists s', checkin_unprotected no_finalize 0 sink ComeBackLater 0 sink_out = (Ok tt, s') /\
    (current_topology_status s' = TPaused <-> forall a, a ∈ arrow_states s' -> live a = false) /\
    (current_topology_status s' = TPaused -> [] ++ [] = [] :> list Z /\ forall a, a ∈ arrow_states s' -> thread_count a = 0).
Proof.
  eexists. split; [vm_compute; reflexivity|].
  apply (pause_detected_exactly no_finalize started sink_out [] [] 0 sink ComeBackLater 0 _
    started_counting); [| |exact sink_out_reached|reflexivity| |vm_compute; reflexivity].
  - split.
    + vm_compute. apply (bool_decide_unpack _). reflexivity.
    + intros a n Hn. vm_compute in Hn. set_unfold in Hn. destruct Hn as [Hn|[Hn|[]]]; simplify_eq; done.
  - intros a n Hn. vm_compute in Hn. set_unfold in Hn. destruct Hn as [Hn|[Hn|[]]]; simplify_eq; done.
  - vm_compute. apply list_elem_of_further, list_elem_of_here.
Defined.

End Stop.
