(* ===== verification/JEvent.v ===== *)
(** * JEvent: levels, parents and reference counts

    Model of [Utils/JEventLevel.h] and of the hierarchical part of [JEvent.h]: an event
    knows its parents (pointers, the most recent one last) and counts the references to it.  Events live in a heap; code that
    dereferences an event pointer is written against the class [EventHeap], so that it runs
    both on a plain map and on the event pools of a topology.  [mReferenceCount] is an
    [atomic_int]: each operation on it is one atomic step, at 32-bit width. *)

From S2P Require Import Prelude.
Local Open Scope Z_scope.

Module Event.

Inductive JEventLevel :=
| Run | Subrun | SlowControls | Timeslice | Block | PhysicsEvent | Subevent | Task | NoLevel.

#[export] Instance JEventLevel_eq_dec : EqDecision JEventLevel.
Proof. solve_decision. Defined.

Definition toString (level : JEventLevel) : string :=
  match level with
  | Run => "Run" | Subrun => "Subrun" | Timeslice => "Timeslice" | Block => "Block"
  | SlowControls => "SlowControls" | PhysicsEvent => "PhysicsEvent" | Subevent => "Subevent"
  | Task => "Task" | NoLevel => "None"
  end.

Definition next_level (current_level : JEventLevel) : JEventLevel :=
  match current_level with
  | Run => Subrun
  | Subrun => Timeslice
  | Timeslice => Block
  | Block => SlowControls
  | SlowControls => PhysicsEvent
  | PhysicsEvent => Subevent
  | Subevent => Task
  | Task => NoLevel
  | NoLevel => NoLevel
  end.

(** The members of [JEvent], without its factories and recorders: [mEventSource] is a
    pointer, 0 if null. *)
Record JEvent := mkJEvent {
  mRunNumber : Z;
  mEventNumber : Z;
  mEventSource : Z;
  mIsBarrierEvent : bool;
  mLevel : JEventLevel;
  mParents : list (JEventLevel * Z);
  mReferenceCount : Z;
  mEventIndex : Z
}.

Definition set_parents (ps : list (JEventLevel * Z)) (e : JEvent) : JEvent :=
  mkJEvent (mRunNumber e) (mEventNumber e) (mEventSource e) (mIsBarrierEvent e) (mLevel e) ps (mReferenceCount e) (mEventIndex e).
Definition set_refs (n : Z) (e : JEvent) : JEvent :=
  mkJEvent (mRunNumber e) (mEventNumber e) (mEventSource e) (mIsBarrierEvent e) (mLevel e) (mParents e) n (mEventIndex e).

Definition SetEventNumber (n : Z) (e : JEvent) : JEvent :=
  mkJEvent (mRunNumber e) n (mEventSource e) (mIsBarrierEvent e) (mLevel e) (mParents e) (mReferenceCount e)
    (mEventIndex e).
Definition SetJEventSource (src : Z) (e : JEvent) : JEvent :=
  mkJEvent (mRunNumber e) (mEventNumber e) src (mIsBarrierEvent e) (mLevel e) (mParents e) (mReferenceCount e)
    (mEventIndex e).
Definition SetSequential (b : bool) (e : JEvent) : JEvent :=
  mkJEvent (mRunNumber e) (mEventNumber e) (mEventSource e) b (mLevel e) (mParents e) (mReferenceCount e)
    (mEventIndex e).
Definition SetEventIndex (i : Z) (e : JEvent) : JEvent :=
  mkJEvent (mRunNumber e) (mEventNumber e) (mEventSource e) (mIsBarrierEvent e) (mLevel e) (mParents e)
    (mReferenceCount e) i.

(** [Reset()]. *)
Definition Reset (e : JEvent) : JEvent := set_refs 1 e.

Definition HasParent (level : JEventLevel) (e : JEvent) : bool :=
  existsb (fun pr => bool_decide (pr.1 = level)) (mParents e).

Definition GetParent (level : JEventLevel) (e : JEvent) : outcome Z :=
  match list_find (fun pr => pr.1 = level) (mParents e) with
  | Some (_, pr) => Ok pr.2
  | None => throwJ ("Unable to find parent at level " +:+ toString level)
  end.

(** Dereferencing an event pointer, and writing through it. *)
Class EventHeap (S : Type) := {
  read_event : Z -> M S JEvent;
  write_event : Z -> JEvent -> M S unit
}.

Section Hierarchy.
Context {S : Type} `{EventHeap S}.

(** [mReferenceCount.fetch_add(d)] of the event at [x]: the value before. *)
Definition fetch_add (x : Z) (d : Z) : M S Z :=
  e ← read_event x;
  _ ← write_event x (set_refs (i32 (mReferenceCount e + d)) e);
  mret (mReferenceCount e).

(** [child->SetParent(parent)]. *)
Definition SetParent (child parent : Z) : M S unit :=
  p ← read_event parent;
  c ← read_event child;
  let level := mLevel p in
  if HasParent level c then throwM ("Event already has a parent at level " +:+ toString level)
  else
    _ ← write_event child (set_parents (mParents c ++ [(level, parent)]) c);
    _ ← fetch_add parent 1;
    mret tt.

(** [child->ReleaseParent(level)]: the parent, if this was the last reference to it. *)
Definition ReleaseParent (child : Z) (level : JEventLevel) : M S (option Z) :=
  c ← read_event child;
  match last (mParents c) with
  | None => throwM "ReleaseParent failed: child has no parents!"
  | Some pr =>
      if negb (bool_decide (pr.1 = level)) then
        throwM ("JEvent::ReleaseParent called out of level order: Caller expected "
                +:+ toString level +:+ ", but parent was actually " +:+ toString pr.1)
      else
        _ ← write_event child (set_parents (take (length (mParents c) - 1) (mParents c)) c);
        remaining_refs ← fetch_add pr.2 (-1);
        if remaining_refs <? 1 then throwM "Parent refcount has gone negative!"
        else if remaining_refs =? 1 then mret (Some pr.2)
        else mret None
  end.

(** [event->Release()]. *)
Definition Release (x : Z) : M S unit :=
  remaining_refs ← fetch_add x (-1);
  if remaining_refs <? 0 then throwM "JEvent's own refcount has gone negative!" else mret tt.

End Hierarchy.

(** Events in a plain map; dereferencing anything else is undefined. *)
#[export] Instance map_heap : EventHeap (gmap Z JEvent) := {|
  read_event x := fun h => match h !! x with Some e => (Ok e, h) | None => (Undef, h) end;
  write_event x e := fun h =>
    match h !! x with Some _ => (Ok tt, <[x := e]> h) | None => (Undef, h) end
|}.

(** ** The life of a parent *)

(** A parent event [p] at level [lvl]: the heap, whether the unfolder still holds [p], the
    children that refer to [p], and how often a child's release has handed [p] back. *)
Record family := mkFamily {
  heap : gmap Z JEvent;
  held_by_unfolder : bool;
  children : list Z;
  handed_back : nat
}.

Section Family.
Context (p : Z) (lvl : JEventLevel).

(** The unfolder attaches a child; with its last child it also lets go of the parent, as
    [JUnfoldArrow::execute] does; the folder releases a child's parent. *)
Inductive family_step : family -> family -> Prop :=
| fs_unfold h h' cs n c :
    c <> p -> c ∉ cs -> sizeZ cs < 2 ^ 30 ->
    SetParent c p h = (Ok tt, h') ->
    family_step (mkFamily h true cs n) (mkFamily h' true (c :: cs) n)
| fs_unfold_last h h' cs n c :
    c <> p -> c ∉ cs -> sizeZ cs < 2 ^ 30 ->
    (_ ← SetParent c p; Release p) h = (Ok tt, h') ->
    family_step (mkFamily h true cs n) (mkFamily h' false (c :: cs) n)
| fs_fold h h' b cs1 cs2 n c r :
    ReleaseParent c lvl h = (r, h') ->
    family_step (mkFamily h b (cs1 ++ c :: cs2) n)
      (mkFamily h' b (cs1 ++ cs2) (match r with Ok (Some _) => S n | _ => n end)).

(** The reference count is one for the unfolder plus one per child, and the parent has been
    handed back once if nobody refers to it any more, and never otherwise. *)
Record family_inv (f : family) : Prop := {
  fi_parent : exists e, heap f !! p = Some e /\ mLevel e = lvl /\
    mReferenceCount e = (if held_by_unfolder f then 1 else 0) + sizeZ (children f);
  fi_small : sizeZ (children f) <= 2 ^ 30;
  fi_distinct : NoDup (children f);
  fi_children : forall c, c ∈ children f -> c <> p /\
    exists e, heap f !! c = Some e /\ last (mParents e) = Some (lvl, p);
  fi_once : handed_back f = if held_by_unfolder f then 0%nat
                            else match children f with [] => 1%nat | _ => 0%nat end
}.

Lemma fetch_add_ok h x e d :
  h !! x = Some e ->
  fetch_add x d h = (Ok (mReferenceCount e), <[x := set_refs (i32 (mReferenceCount e + d)) e]> h).
Proof. intros Hx. unfold fetch_add, mbind, M_bind. simpl. by rewrite Hx, Hx. Qed.

Lemma SetParent_inv h e c h' :
  h !! p = Some e -> c <> p -> SetParent c p h = (Ok tt, h') ->
  exists ec, h !! c = Some ec /\
    h' = <[p := set_refs (i32 (mReferenceCount e + 1)) e]>
           (<[c := set_parents (mParents ec ++ [(mLevel e, p)]) ec]> h).
Proof.
  intros Hp Hne. unfold SetParent. intros (e1 & h1 & Hr & H)%M_bind_inv. simpl in Hr. rewrite Hp in Hr.
  simplify_eq. apply M_bind_inv in H as (ec & h2 & Hr & H). simpl in Hr.
  destruct (h1 !! c) as [ec'|] eqn:Hc; simplify_eq. case_match; [done|].
  apply M_bind_inv in H as ([] & h3 & Hw & H). simpl in Hw. rewrite Hc in Hw. simplify_eq.
  apply M_bind_inv in H as (n & h4 & Hf & H). rewrite (fetch_add_ok _ p e1) in Hf
    by (by rewrite lookup_insert_ne). unfold mret, M_ret in H. simplify_eq. eauto.
Qed.

Lemma ReleaseParent_ok h e c ec :
  h !! p = Some e -> c <> p -> h !! c = Some ec -> last (mParents ec) = Some (lvl, p) ->
  1 <= mReferenceCount e < 2 ^ 31 ->
  ReleaseParent c lvl h
  = (Ok (if mReferenceCount e =? 1 then Some p else None),
     <[p := set_refs (mReferenceCount e - 1) e]>
       (<[c := set_parents (take (length (mParents ec) - 1) (mParents ec)) ec]> h)).
Proof.
  intros Hp Hne Hc Hl Hr. unfold ReleaseParent.
  rewrite (M_bind_ok _ _ h ec h) by (simpl; by rewrite Hc). rewrite Hl. simpl.
  rewrite bool_decide_true by done. cbn [negb].
  set (h1 := <[c := set_parents (take (length (mParents ec) - 1) (mParents ec)) ec]> h). rewrite (M_bind_ok _ _ h tt h1) by (simpl; by rewrite Hc).
  rewrite (M_bind_ok _ _ _ _ _ (fetch_add_ok h1 p e (-1) ltac:(unfold h1; by rewrite lookup_insert_ne))).
  rewrite i32_small by lia. destruct (Z.ltb_spec (mReferenceCount e) 1); [lia|].
  by destruct (mReferenceCount e =? 1).
Qed.

Lemma family_inv_attach h (b : bool) cs n c h' e ec :
  family_inv (mkFamily h true cs n) -> h !! p = Some e -> h !! c = Some ec -> c <> p -> c ∉ cs ->
  sizeZ cs < 2 ^ 30 ->
  h' = <[p := set_refs ((if b then 1 else 0) + sizeZ (c :: cs)) e]>
         (<[c := set_parents (mParents ec ++ [(mLevel e, p)]) ec]> h) ->
  family_inv (mkFamily h' b (c :: cs) n).
Proof.
  intros [Hp Hsm Hnd Hch Hon] He Hc Hne Hcs Hlt ->. simpl in *.
  destruct Hp as (e0 & He0 & Hlvl & Hr). simplify_eq. split; simpl.
  - exists (set_refs ((if b then 1 else 0) + sizeZ (c :: cs)) e0). by rewrite lookup_insert_eq.
  - rewrite sizeZ_cons. lia.
  - by constructor.
  - intros d [->|Hd]%elem_of_cons.
    + split; [done|]. eexists. rewrite lookup_insert_ne, lookup_insert_eq by done. split; [done|].
      simpl. by rewrite last_snoc, Hlvl.
    + destruct (Hch d Hd) as (Hdp & ed & Hed & Hl). split; [done|]. exists ed.
      rewrite !lookup_insert_ne; [done| |done]. intros ->. done.
  - by destruct b.
Qed.

Lemma family_step_inv f f' : family_inv f -> family_step f f' -> family_inv f'.
Proof.
  intros Hinv Hstep. destruct Hstep as [h h' cs n c Hne Hcs Hlt H|h h' cs n c Hne Hcs Hlt H
    |h h' b cs1 cs2 n c r H]; pose proof Hinv as [(e & He & Hlvl & Hr) Hsm Hnd Hch Hon]; simpl in *.
  - destruct (SetParent_inv h e c h' He Hne H) as (ec & Hc & ->).
    eapply (family_inv_attach h true); try done. rewrite sizeZ_cons, Hr, i32_small; [|size_lia].
    do 2 f_equal. lia.
  - apply M_bind_inv in H as ([] & h1 & H1 & H2).
    destruct (SetParent_inv h e c h1 He Hne H1) as (ec & Hc & ->).
    unfold Release in H2. apply M_bind_inv in H2 as (k & h2 & Hf & H2).
    rewrite (fetch_add_ok _ p (set_refs (i32 (mReferenceCount e + 1)) e)) in Hf by (by rewrite lookup_insert_eq).
    simplify_eq. case_match; [done|]. unfold mret, M_ret in H2. simplify_eq.
    eapply (family_inv_attach h false); try done. rewrite insert_insert_eq. f_equal.
    unfold set_refs. simpl. f_equal. rewrite sizeZ_cons, Hr, !i32_small; size_lia.
    rewrite i32_small; size_lia.
  - destruct (Hch c ltac:(set_solver)) as (Hne & ec & Hc & Hl).
    rewrite (ReleaseParent_ok h e c ec He Hne Hc Hl) in H.
    2:{ rewrite Hr. rewrite sizeZ_app, sizeZ_cons in *. destruct b; size_lia. }
    injection H as <- <-. apply NoDup_app in Hnd as (Hnd1 & Hdis & [Hc2 Hnd2]%NoDup_cons).
    rewrite sizeZ_app, sizeZ_cons in Hsm, Hr. split; simpl.
    + eexists. rewrite lookup_insert_eq. split; [done|]. split; [done|]. simpl. rewrite Hr, sizeZ_app. lia.
    + rewrite sizeZ_app. lia.
    + apply NoDup_app. split; [done|]. split; [|done]. intros x Hx Hx2. apply (Hdis x Hx). by right.
    + intros d Hd. assert (d <> c) as Hdc.
      { intros ->. apply elem_of_app in Hd as [Hd|Hd]; [|done]. apply (Hdis c Hd). by left. }
      destruct (Hch d ltac:(set_solver)) as (Hdp & ed & Hed & Hld). split; [done|]. exists ed.
      by rewrite !lookup_insert_ne.
    + subst n. pose proof (sizeZ_nonneg cs1). pose proof (sizeZ_nonneg cs2).
      destruct (Z.eqb_spec (mReferenceCount e) 1) as [H1|H1], b; try lia.
      * by destruct cs1, cs2; rewrite ?sizeZ_cons in *; try size_lia.
      * destruct cs1, cs2; [|done..]. by destruct H1; rewrite Hr.
Qed.

(** C17: a parent event is recycled exactly once.  Start with a parent that only its unfolder holds.
    However attaching children, letting go of the parent with the last child, and releasing
    children interleave: the reference count is exactly the number of holders, releasing the
    parent of any attached child succeeds, it hands the parent back if and only if that child
    is the last holder, and in total the parent has been handed back once if nobody holds
    it any more and not at all otherwise. *)
Theorem parent_recycled_once h e f :
  h !! p = Some e -> mLevel e = lvl -> mReferenceCount e = 1 ->
  steps family_step (mkFamily h true [] 0) f ->
  (exists e', heap f !! p = Some e' /\
     mReferenceCount e' = (if held_by_unfolder f then 1 else 0) + sizeZ (children f)) /\
  handed_back f = (if held_by_unfolder f then 0%nat
                   else match children f with [] => 1%nat | _ => 0%nat end) /\
  (forall c, c ∈ children f -> exists r h', ReleaseParent c lvl (heap f) = (Ok r, h') /\
     (r = Some p <-> held_by_unfolder f = false /\ children f = [c])).
Proof.
  intros He Hlvl Hr Hrun.
  assert (Hinv : family_inv f).
  { eapply steps_invariant; [exact family_step_inv|exact Hrun|]. split; simpl; try done.
    - exists e. rewrite sizeZ_nil. auto.
    - constructor.
    - intros c Hc. by apply not_elem_of_nil in Hc. }
  destruct Hinv as [(e' & He' & Hlvl' & Hr') Hsm Hnd Hch Hon].
  split; [eauto|]. split; [done|]. intros c Hc. destruct (Hch c Hc) as (Hne & ec & Hec & Hl).
  assert (Hlen : 1 <= sizeZ (children f)).
  { destruct (children f) as [|z l]; [by apply not_elem_of_nil in Hc|].
    rewrite sizeZ_cons. pose proof (sizeZ_nonneg l). lia. }
  eexists _, _. split.
  - eapply ReleaseParent_ok; try done. rewrite Hr'. destruct (held_by_unfolder f); lia.
  - rewrite Hr'. destruct (held_by_unfolder f).
    + destruct (Z.eqb_spec (1 + sizeZ (children f)) 1); [lia|]. naive_solver.
    + destruct (children f) as [|c1 [|c2 cs]]; [by apply not_elem_of_nil in Hc| |].
      * apply list_elem_of_singleton in Hc as ->. simpl. naive_solver.
      * rewrite !sizeZ_cons. destruct (Z.eqb_spec (0 + (1 + (1 + sizeZ cs))) 1); [size_lia|]. naive_solver.
Qed.

End Family.
(** ** Witness *)

Definition event (level : JEventLevel) (ps : list (JEventLevel * Z)) (refs : Z) : JEvent :=
  mkJEvent 1 1 0 false level ps refs (-1).

(** A time slice at 1 and two physics events at 2 and 3. *)
Definition heap0 : gmap Z JEvent :=
  {[ 1 := event Timeslice [] 1; 2 := event PhysicsEvent [] 1; 3 := event PhysicsEvent [] 1 ]}.

(** Both events are unfolded from the time slice and the first is folded again. *)
Lemma parent_recycled_once_witness :
  exists f, steps (family_step 1 Timeslice) (mkFamily heap0 true [] 0) f /\
    children f = [3] /\ handed_back f = 0%nat.
Proof.
  assert (Hrun : exists h, steps (family_step 1 Timeslice) (mkFamily heap0 true [] 0) (mkFamily h false [3] 0)).
  { eexists. eapply steps_cons; [eapply (fs_unfold _ _ _ _ [] 0 2); [done|set_solver|done|vm_compute; reflexivity]|].
    eapply steps_cons; [eapply (fs_unfold_last _ _ _ _ [2] 0 3); [done|set_solver|done|vm_compute; reflexivity]|].
    eapply steps_cons; [|apply steps_refl].
    eapply (fs_fold _ _ _ _ false [3] [] 0 2 (Ok None)). vm_compute. reflexivity. }
  destruct Hrun as [h Hrun]. exists (mkFamily h false [3] 0). split; [exact Hrun|]. split; [reflexivity|].
  apply (parent_recycled_once 1 Timeslice heap0 (event Timeslice [] 1) _ eq_refl eq_refl eq_refl Hrun).
Defined.

End Event.
