(* ===== verification/JComponentSummary.v ===== *)
(** * JComponentSummary: the table of components and collections

    Model of [Status/JComponentSummary.h] and [.cc], without the printing of tables.  Collections and components are objects on a heap; an address that is
    not on the heap has been deleted, and reading it is undefined.  [Summarize] is what the components do: create their
    collections, inputs first, and hand themselves to [Add]. *)

From S2P Require Import Prelude JEvent.
Import Event.
Local Open Scope Z_scope.

Module Summary.

Inductive ComponentType := Source | Processor | Factory | Unfolder | Folder.

Record Collection := mkCollection {
  m_tag : string; m_name : string; m_type_name : string; m_level : JEventLevel; m_producers : list Z; m_consumers : list Z
}.

Record Component := mkComponent {
  m_component_type : ComponentType; m_prefix : string; c_type_name : string; c_level : JEventLevel; m_plugin_name : string;
  m_inputs : list Z; m_outputs : list Z
}.

Record JFactorySummary := mkFactorySummary {
  f_level : JEventLevel; plugin_name : string; factory_name : string; factory_tag : string; object_name : string
}.

Record JComponentSummary := mkSummary {
  collections : gmap Z Collection;
  components : gmap Z Component;
  m_components : list Z;
  m_collections : list Z;
  m_component_lookups : gmap string (list Z);
  m_collection_lookups : gmap string (list Z);
  factories : list JFactorySummary;
  next_object : Z
}.

Definition empty_summary : JComponentSummary := mkSummary ∅ ∅ [] [] ∅ ∅ [] 1.

Definition set_heap (h : gmap Z Collection) (s : JComponentSummary) : JComponentSummary :=
  mkSummary h (components s) (m_components s) (m_collections s) (m_component_lookups s) (m_collection_lookups s) (factories s) (next_object s).
Definition set_components (h : gmap Z Component) (l : list Z) (k : gmap string (list Z)) (s : JComponentSummary) : JComponentSummary :=
  mkSummary (collections s) h l (m_collections s) k (m_collection_lookups s) (factories s) (next_object s).
Definition set_collections (l : list Z) (k : gmap string (list Z)) (s : JComponentSummary) : JComponentSummary :=
  mkSummary (collections s) (components s) (m_components s) l (m_component_lookups s) k (factories s) (next_object s).
Definition add_factories (fs : list JFactorySummary) (s : JComponentSummary) : JComponentSummary :=
  mkSummary (collections s) (components s) (m_components s) (m_collections s) (m_component_lookups s) (m_collection_lookups s)
    (factories s ++ fs) (next_object s).

Abbreviation MS := (M JComponentSummary).

Definition deref (p : Z) : MS Collection :=
  s ← get; lift (match collections s !! p with Some c => Ok c | None => Undef end).
Definition write (p : Z) (c : Collection) : MS unit := modify (fun s => set_heap (<[p := c]> (collections s)) s).
Definition delete_collection (p : Z) : MS unit := modify (fun s => set_heap (delete p (collections s)) s).

(** [operator==] on collections. *)
Definition same (a b : Collection) : bool :=
  bool_decide (m_level a = m_level b) && bool_decide (m_name a = m_name b) && bool_decide (m_tag a = m_tag b) &&
  bool_decide (m_type_name a = m_type_name b).

(** A link to the component, as producer or as consumer. *)
Definition link (produces : bool) (component : Z) (c : Collection) : Collection :=
  if produces then mkCollection (m_tag c) (m_name c) (m_type_name c) (m_level c) (m_producers c ++ [component]) (m_consumers c)
  else mkCollection (m_tag c) (m_name c) (m_type_name c) (m_level c) (m_producers c) (m_consumers c ++ [component]).

Definition push (k : string) (x : Z) (m : gmap string (list Z)) : gmap string (list Z) := <[k := default [] (m !! k) ++ [x]]> m.

(** The loop over the collections that are already known: it goes on after it has deleted the new one. *)
Fixpoint merge (produces : bool) (component coll : Z) (lookups : list Z) (found : option Z) : MS (option Z) :=
  match lookups with
  | [] => mret found
  | existing :: lookups =>
      e ← deref existing;
      c ← deref coll;
      if same e c then
        _ ← write existing (link produces component e);
        _ ← delete_collection coll;
        merge produces component coll lookups (Some existing)
      else merge produces component coll lookups found
  end.

(** One collection of the component.  [lookups] is a copy: what is pushed to it is lost. *)
Definition register (produces : bool) (component coll : Z) : MS Z :=
  c ← deref coll;
  lookups ← gets (fun s => default [] (m_collection_lookups s !! m_name c));
  _ ← modify (fun s => set_collections (m_collections s) (<[m_name c := lookups]> (m_collection_lookups s)) s);
  found ← merge produces component coll lookups None;
  match found with
  | Some existing => mret existing
  | None =>
      _ ← write coll (link produces component c);
      _ ← modify (fun s => set_collections (m_collections s ++ [coll]) (push (m_type_name c) coll (m_collection_lookups s)) s);
      mret coll
  end.

Fixpoint register_all (produces : bool) (component : Z) (colls : list Z) : MS (list Z) :=
  match colls with
  | [] => mret []
  | coll :: colls => p ← register produces component coll; ps ← register_all produces component colls; mret (p :: ps)
  end.

Definition summarize_factory (component : Component) (c : Collection) : JFactorySummary :=
  mkFactorySummary (m_level c) (m_plugin_name component) (c_type_name component)
    (if bool_decide (m_tag c = EmptyString) then m_name c else m_tag c) (m_type_name c).

Fixpoint summarize_all (component : Component) (outputs : list Z) : MS (list JFactorySummary) :=
  match outputs with
  | [] => mret []
  | p :: outputs => c ← deref p; fs ← summarize_all component outputs; mret (summarize_factory component c :: fs)
  end.

Definition set_ports (ins outs : list Z) (c : Component) : Component :=
  mkComponent (m_component_type c) (m_prefix c) (c_type_name c) (c_level c) (m_plugin_name c) ins outs.

Definition Add (p : Z) (component : Component) : MS unit :=
  _ ← modify (fun s => set_components (<[p := component]> (components s)) (m_components s ++ [p])
                         (push (m_prefix component) p (push (c_type_name component) p (m_component_lookups s))) s);
  outs ← register_all true p (m_outputs component);
  ins ← register_all false p (m_inputs component);
  let component := set_ports ins outs component in
  _ ← modify (fun s => set_components (<[p := component]> (components s)) (m_components s) (m_component_lookups s) s);
  fs ← summarize_all component outs;
  modify (add_factories fs).

Definition FindCollections (name : string) (s : JComponentSummary) : list Z := default [] (m_collection_lookups s !! name).
Definition FindComponents (name : string) (s : JComponentSummary) : list Z := default [] (m_component_lookups s !! name).

(** ** Components describe themselves *)

(** A collection as it is declared: tag, name, type and level. *)
Record Port := mkPort { p_tag : string; p_name : string; p_type : string; p_level : JEventLevel }.
Record Description := mkDescription {
  d_type : ComponentType; d_prefix : string; d_type_name : string; d_level : JEventLevel; d_plugin : string;
  d_inputs : list Port; d_outputs : list Port
}.

Definition new_object : MS Z := fun s =>
  (Ok (next_object s), mkSummary (collections s) (components s) (m_components s) (m_collections s) (m_component_lookups s)
                         (m_collection_lookups s) (factories s) (next_object s + 1)).

Definition new_collection (p : Port) : MS Z :=
  a ← new_object;
  _ ← write a (mkCollection (p_tag p) (p_name p) (p_type p) (p_level p) [] []);
  mret a.

Fixpoint new_collections (ps : list Port) : MS (list Z) :=
  match ps with
  | [] => mret []
  | p :: ps => a ← new_collection p; rest ← new_collections ps; mret (a :: rest)
  end.

Definition Summarize (d : Description) : MS unit :=
  p ← new_object;
  ins ← new_collections (d_inputs d);
  outs ← new_collections (d_outputs d);
  Add p (mkComponent (d_type d) (d_prefix d) (d_type_name d) (d_level d) (d_plugin d) ins outs).

(** ** The summary gives the descriptions back *)

Definition port_of (c : Collection) : Port := mkPort (m_tag c) (m_name c) (m_type_name c) (m_level c).
Definition port_at (s : JComponentSummary) (p : Z) : option Port := port_of <$> collections s !! p.

(** The description of a component, read from the summary. *)
Definition describe (s : JComponentSummary) (p : Z) : option Description :=
  c ← components s !! p;
  ins ← mapM (port_at s) (m_inputs c);
  outs ← mapM (port_at s) (m_outputs c);
  Some (mkDescription (m_component_type c) (m_prefix c) (c_type_name c) (c_level c) (m_plugin_name c) ins outs).

(** A collection is not called like its type. *)
Definition port_ok (p : Port) : Prop := p_name p <> p_type p.

(** The table by types has collections of these types. *)
Definition typed (s : JComponentSummary) : Prop := forall t x, x ∈ FindCollections t s -> exists p, port_at s x = Some p /\ p_type p = t.

(** What registering does not change. *)
Record same_rest (s s' : JComponentSummary) : Prop := {
  sr_port : forall q, port_at s' q = port_at s q;
  sr_components : components s' = components s;
  sr_list : m_components s' = m_components s;
  sr_lookups : m_component_lookups s' = m_component_lookups s;
  sr_next : next_object s' = next_object s
}.

Lemma same_rest_trans s1 s2 s3 : same_rest s1 s2 -> same_rest s2 s3 -> same_rest s1 s3.
Proof. intros [P1 C1 L1 K1 N1] [P2 C2 L2 K2 N2]. split; [intros q; by rewrite P2|congruence..]. Qed.

Lemma port_at_Some s p port : port_at s p = Some port -> exists c, collections s !! p = Some c /\ port_of c = port.
Proof. unfold port_at. intros (c & -> & Hc)%fmap_Some. by exists c. Qed.

Lemma deref_ok s p c : collections s !! p = Some c -> deref p s = (Ok c, s).
Proof. intros H. unfold deref. rewrite M_bind_get. unfold lift. by rewrite H. Qed.

Lemma port_at_write s p c q : collections s !! p = Some c -> forall c', port_of c' = port_of c ->
  port_at (set_heap (<[p := c']> (collections s)) s) q = port_at s q.
Proof. intros H c' Hc. unfold port_at. cbn. rewrite lookup_insert. case_decide; [|done]. subst. rewrite H. cbn. by rewrite Hc. Qed.

Lemma port_of_link b x c : port_of (link b x c) = port_of c.
Proof. by destruct b. Qed.

(** Nothing is merged if the types differ. *)
Lemma merge_nothing b x coll c lookups : forall s found, collections s !! coll = Some c ->
  (forall e, e ∈ lookups -> exists p, port_at s e = Some p /\ p_type p <> m_type_name c) -> merge b x coll lookups found s = (Ok found, s).
Proof.
  induction lookups as [|e lookups IH]; intros s found Hc Hl; [done|]. cbn [merge].
  destruct (Hl e (list_elem_of_here _ _)) as (p & (ce & He & <-)%port_at_Some & Hp). cbn in Hp.
  mstep (deref_ok s e ce He). mstep (deref_ok s coll c Hc). unfold same. rewrite (bool_decide_false (m_type_name ce = _)) by done.
  rewrite andb_false_r. apply IH; [done|]. intros e' He'. by apply Hl, list_elem_of_further.
Qed.

Lemma register_spec b x coll port s : port_at s coll = Some port -> port_ok port -> typed s ->
  exists s', register b x coll s = (Ok coll, s') /\ same_rest s s' /\ m_collections s' = m_collections s ++ [coll] /\ factories s' = factories s /\
    forall t, FindCollections t s' = FindCollections t s ++ (if decide (p_type port = t) then [coll] else []).
Proof.
  intros (c & Hc & <-)%port_at_Some Hok T. unfold register. mstep (deref_ok s coll c Hc). rewrite M_bind_gets, M_bind_modify.
  set (s1 := set_collections _ _ s). assert (F1 : forall t, FindCollections t s1 = FindCollections t s).
  { intros t. unfold FindCollections, s1. cbn. rewrite lookup_insert. case_decide; [by subst|done]. }
  assert (E : merge b x coll (default [] (m_collection_lookups s !! m_name c)) None s1 = (Ok None, s1)).
  { apply (merge_nothing b x coll c); [done|]. intros e He. destruct (T (m_name c) e He) as (p & Hp & E). exists p. split; [done|]. by rewrite E. }
  mstep E.
  unfold write. rewrite M_bind_modify, M_bind_modify. eexists. split; [reflexivity|].
  split; [|split; [done|split; [done|]]].
  - split; try done. intros q. transitivity (port_at s1 q); [|done]. apply (port_at_write s1 coll c q Hc). apply port_of_link.
  - intros t. unfold FindCollections at 1, push. cbn [m_collection_lookups set_collections set_heap]. rewrite lookup_insert.
    fold (FindCollections (m_type_name c) s1). rewrite F1. cbn [port_of p_type]. case_decide; [by subst|]. rewrite app_nil_r. apply F1.
Qed.

Lemma typed_register s s' coll port : typed s -> same_rest s s' -> port_at s coll = Some port ->
  (forall t, FindCollections t s' = FindCollections t s ++ (if decide (p_type port = t) then [coll] else [])) -> typed s'.
Proof.
  intros T R Hp F t x Hx. rewrite F in Hx. setoid_rewrite (sr_port _ _ R). apply elem_of_app in Hx as [Hx|Hx]; [by apply T|].
  case_decide; [|by apply elem_of_nil in Hx]. apply list_elem_of_singleton in Hx as ->. by exists port.
Qed.

Lemma register_all_spec b x colls ports : forall s, port_at s <$> colls = Some <$> ports -> Forall port_ok ports -> typed s ->
  exists s', register_all b x colls s = (Ok colls, s') /\ same_rest s s' /\ typed s' /\ factories s' = factories s /\ m_collections s' = m_collections s ++ colls /\
    forall t, port_at s' <$> FindCollections t s' = (port_at s <$> FindCollections t s) ++ (Some <$> filter (fun p => p_type p = t) ports).
Proof.
  revert ports. induction colls as [|coll colls IH]; intros [|port ports] s Hp Hok T; try done.
  { exists s. split; [done|]. split; [by split|]. split; [done|]. split; [done|]. split; [by rewrite app_nil_r|]. intros t. by rewrite app_nil_r. }
  rewrite !fmap_cons in Hp. injection Hp as Hc Hp. apply Forall_cons in Hok as [Ho Hok].
  destruct (register_spec b x coll port s Hc Ho T) as (s1 & E1 & R1 & M1 & F1 & K1).
  pose proof (typed_register s s1 coll port T R1 Hc K1) as T1.
  destruct (IH ports s1) as (s2 & E2 & R2 & T2 & F2 & M2 & K2); [|done|done|].
  { rewrite <- Hp. apply list_fmap_ext. intros i q _. apply (sr_port _ _ R1). }
  exists s2. split; [cbn [register_all]; mstep E1; by mstep E2|]. split; [by eapply same_rest_trans|]. split; [done|]. split; [congruence|].
  split; [rewrite M2, M1, <- app_assoc; done|]. intros t. rewrite K2, K1, fmap_app, filter_cons.
  assert (P : forall l, port_at s1 <$> l = port_at s <$> l) by (intros l; apply list_fmap_ext; intros i q _; apply (sr_port _ _ R1)).
  rewrite !P, <- app_assoc. case_decide; cbn; by rewrite ?Hc.
Qed.

(** New objects. *)
Record grown (s s' : JComponentSummary) : Prop := {
  gw_port : forall q, q < next_object s -> port_at s' q = port_at s q;
  gw_components : components s' = components s;
  gw_list : m_components s' = m_components s;
  gw_lookups : m_component_lookups s' = m_component_lookups s;
  gw_collections : m_collections s' = m_collections s;
  gw_table : m_collection_lookups s' = m_collection_lookups s;
  gw_factories : factories s' = factories s;
  gw_next : next_object s <= next_object s'
}.

Lemma grown_trans s1 s2 s3 : grown s1 s2 -> grown s2 s3 -> grown s1 s3.
Proof.
  intros [P1 C1 L1 K1 M1 T1 F1 N1] [P2 C2 L2 K2 M2 T2 F2 N2]. split; [|congruence..|lia]. intros q Hq. rewrite P2 by lia. by apply P1.
Qed.

Definition bounded (s : JComponentSummary) : Prop := forall p, is_Some (port_at s p) -> p < next_object s.

Lemma new_collections_spec ports : forall s, exists ps s', new_collections ports s = (Ok ps, s') /\ grown s s' /\
  port_at s' <$> ps = Some <$> ports /\ Forall (fun p => next_object s <= p < next_object s') ps /\ (bounded s -> bounded s').
Proof.
  induction ports as [|port ports IH]; intros s.
  { exists [], s. split; [done|]. split; [by split|]. by repeat split. }
  set (s1 := set_heap (<[next_object s := mkCollection (p_tag port) (p_name port) (p_type port) (p_level port) [] []]> (collections s)) (new_object s).2).
  assert (E1 : new_collection port s = (Ok (next_object s), s1)) by done.
  assert (G1 : grown s s1).
  { split; try done; [|cbn; lia]. intros q Hq. unfold port_at, s1. cbn. rewrite lookup_insert_ne by lia. done. }
  destruct (IH s1) as (ps & s2 & E2 & G2 & P2 & B2 & D2). exists (next_object s :: ps), s2. cbn [new_collections]. mstep E1. mstep E2.
  split; [done|]. split; [by eapply grown_trans|]. pose proof (gw_next _ _ G2) as N2. cbn in N2. split; [|split].
  - rewrite !fmap_cons, P2. f_equal. rewrite (gw_port _ _ G2) by (cbn; lia). unfold port_at, s1. cbn. rewrite lookup_insert_eq. by destruct port.
  - constructor; [lia|]. eapply Forall_impl; [exact B2|]. cbn. lia.
  - intros D. apply D2. intros q. unfold port_at, s1. cbn. rewrite fmap_is_Some. intros [<-|[_ Hq]]%lookup_insert_is_Some; [lia|].
    enough (q < next_object s) by lia. apply D. unfold port_at. by rewrite fmap_is_Some.
Qed.

Definition ports (d : Description) : list Port := d_outputs d ++ d_inputs d.

(** How a component answers to a name: by its type, by its prefix, or twice. *)
Definition answers (q : string) (d : Description) : list Description :=
  (if decide (d_type_name d = q) then [d] else []) ++ (if decide (d_prefix d = q) then [d] else []).

Record summary_ok (ds : list Description) (s : JComponentSummary) : Prop := {
  ok_components : describe s <$> m_components s = Some <$> ds;
  ok_find_components : forall q, describe s <$> FindComponents q s = Some <$> (ds ≫= answers q);
  ok_collections : port_at s <$> m_collections s = Some <$> (ds ≫= ports);
  ok_find_collections : forall t, port_at s <$> FindCollections t s = Some <$> filter (fun p => p_type p = t) (ds ≫= ports);
  ok_port_bound : bounded s;
  ok_component_bound : forall p, is_Some (components s !! p) -> p < next_object s
}.

Lemma fmap_Some_lookup {A B} (f : A -> option B) (l : list A) (k : list B) x : f <$> l = Some <$> k -> x ∈ l -> exists y, f x = Some y /\ y ∈ k.
Proof.
  intros E [i Hi]%list_elem_of_lookup_1. pose proof (list_lookup_fmap f l i) as H1. rewrite Hi, E, list_lookup_fmap in H1. cbn in H1.
  destruct (k !! i) as [y|] eqn:Hy; [|done]. injection H1 as H1. exists y. split; [done|]. by apply (list_elem_of_lookup_2 _ i).
Qed.

Lemma ok_typed ds s : summary_ok ds s -> typed s.
Proof.
  intros O t x Hx. destruct (fmap_Some_lookup _ _ _ x (ok_find_collections _ _ O t) Hx) as (p & Hp & [Ht _]%list_elem_of_filter). by exists p.
Qed.

Lemma describe_kept s s' q d : describe s q = Some d -> components s' !! q = components s !! q ->
  (forall x p, port_at s x = Some p -> port_at s' x = Some p) -> describe s' q = Some d.
Proof.
  intros E Hc Hp. assert (HM : forall l ps, mapM (port_at s) l = Some ps -> mapM (port_at s') l = Some ps).
  { intros l ps H%mapM_Some. apply mapM_Some. eapply Forall2_impl; [exact H|]. auto. }
  unfold describe in *. rewrite Hc. destruct (components s !! q) as [c|]; [|done]. cbn in *.
  apply bind_Some in E as (ins & Hi & (outs & Ho & [= <-])%bind_Some). rewrite (HM _ _ Hi). cbn. by rewrite (HM _ _ Ho).
Qed.

Lemma descriptions_kept s s' (l : list Z) (ds : list Description) : describe s <$> l = Some <$> ds -> (forall q, is_Some (components s !! q) -> components s' !! q = components s !! q) ->
  (forall x p, port_at s x = Some p -> port_at s' x = Some p) -> describe s' <$> l = Some <$> ds.
Proof.
  intros E Hc Hp. rewrite <- E. apply list_fmap_ext. intros i q Hi.
  destruct (fmap_Some_lookup _ _ _ q E (list_elem_of_lookup_2 _ _ _ Hi)) as (d & Hd & _). rewrite Hd. eapply describe_kept; [done| |done].
  apply Hc. unfold describe in Hd. destruct (components s !! q); [by eexists|done].
Qed.

Lemma ports_kept s s' (l : list Z) (ps : list Port) : port_at s <$> l = Some <$> ps -> (forall x p, port_at s x = Some p -> port_at s' x = Some p) ->
  port_at s' <$> l = Some <$> ps.
Proof.
  intros E Hp. rewrite <- E. apply list_fmap_ext. intros i q Hi.
  destruct (fmap_Some_lookup _ _ _ q E (list_elem_of_lookup_2 _ _ _ Hi)) as (p & Hq & _). rewrite Hq. by apply Hp.
Qed.

Lemma summarize_all_ok component outs (ps : list Port) : forall s, port_at s <$> outs = Some <$> ps -> exists fs, summarize_all component outs s = (Ok fs, s).
Proof.
  revert ps. induction outs as [|o outs IH]; intros [|p ps] s E; try done; [by eexists|]. rewrite !fmap_cons in E. injection E as Ho E.
  apply port_at_Some in Ho as (c & Hc & _). destruct (IH ps s E) as [fs Hf]. eexists. cbn [summarize_all]. mstep (deref_ok s o c Hc). by mstep Hf.
Qed.

Lemma FindComponents_push q a b p s h l :
  FindComponents q (set_components h l (push b p (push a p (m_component_lookups s))) s) =
  FindComponents q s ++ (if decide (a = q) then [p] else []) ++ (if decide (b = q) then [p] else []).
Proof.
  unfold FindComponents, push. cbn. rewrite !lookup_insert. repeat case_decide; subst; cbn; rewrite ?app_nil_r, <- ?app_assoc; done.
Qed.

Lemma mapM_of_fmap {A B} (f : A -> option B) (l : list A) (k : list B) : f <$> l = Some <$> k -> mapM f l = Some k.
Proof.
  revert k. induction l as [|x l IH]; intros [|y k] E; try done. rewrite !fmap_cons in E. injection E as Hx E. cbn. rewrite Hx. cbn. by rewrite (IH k E).
Qed.

(** [Add] of a component whose collections are on the heap, by what it adds. *)
Lemma Add_spec p c ins_p outs_p s : port_at s <$> m_inputs c = Some <$> ins_p -> port_at s <$> m_outputs c = Some <$> outs_p ->
  Forall port_ok (outs_p ++ ins_p) -> typed s ->
  exists s', Add p c s = (Ok tt, s') /\ (forall q, port_at s' q = port_at s q) /\ next_object s' = next_object s /\
    components s' = <[p := c]> (components s) /\ m_components s' = m_components s ++ [p] /\
    (forall q, FindComponents q s' =
       FindComponents q s ++ (if decide (c_type_name c = q) then [p] else []) ++ (if decide (m_prefix c = q) then [p] else [])) /\
    m_collections s' = m_collections s ++ m_outputs c ++ m_inputs c /\
    forall t, port_at s' <$> FindCollections t s' = (port_at s <$> FindCollections t s) ++ (Some <$> filter (fun x => p_type x = t) (outs_p ++ ins_p)).
Proof.
  intros Hi Ho [Hko Hki]%Forall_app T. unfold Add. rewrite M_bind_modify. set (s4 := set_components _ _ _ s).
  destruct (register_all_spec true p (m_outputs c) outs_p s4 Ho Hko T) as (s5 & E5 & R5 & T5 & _ & M5 & K5). mstep E5.
  destruct (register_all_spec false p (m_inputs c) ins_p s5) as (s6 & E6 & R6 & _ & _ & M6 & K6); [|done|done|].
  { rewrite <- Hi. apply list_fmap_ext. intros i q _. apply (sr_port _ _ R5). }
  mstep E6. assert (R : same_rest s4 s6) by (by eapply same_rest_trans). rewrite M_bind_modify.
  assert (Hc : set_ports (m_inputs c) (m_outputs c) c = c) by (by destruct c). rewrite Hc. set (s7 := set_components _ _ _ s6).
  destruct (summarize_all_ok c (m_outputs c) outs_p s7) as [fs Ef].
  { rewrite <- Ho. apply list_fmap_ext. intros i q _. apply (sr_port _ _ R). }
  mstep Ef. eexists. split; [reflexivity|]. split; [intros q; apply (sr_port _ _ R)|]. split; [apply (sr_next _ _ R)|].
  split; [|split; [apply (sr_list _ _ R)|split; [|split]]].
  - change (<[p := c]> (components s6) = <[p := c]> (components s)). rewrite (sr_components _ _ R). apply insert_insert_eq.
  - intros q. change (FindComponents q (add_factories fs s7)) with (default [] (m_component_lookups s6 !! q)). rewrite (sr_lookups _ _ R).
    exact (FindComponents_push q (c_type_name c) (m_prefix c) p s (<[p := c]> (components s)) (m_components s ++ [p])).
  - change (m_collections s6 = m_collections s ++ m_outputs c ++ m_inputs c). rewrite M6, M5. change (m_collections s4) with (m_collections s). by rewrite <- app_assoc.
  - intros t. change (port_at s6 <$> FindCollections t s6 = (port_at s4 <$> FindCollections t s4) ++ (Some <$> filter (fun x => p_type x = t) (outs_p ++ ins_p))).
    by rewrite K6, K5, filter_app, fmap_app, app_assoc.
Qed.

Lemma Summarize_ok ds s d : summary_ok ds s -> Forall port_ok (ports d) -> exists s', Summarize d s = (Ok tt, s') /\ summary_ok (ds ++ [d]) s'.
Proof.
  intros O Hok. unfold Summarize. set (s1 := (new_object s).2). assert (E1 : new_object s = (Ok (next_object s), s1)) by done. mstep E1.
  assert (G1 : grown s s1) by (split; try done; cbn; lia).
  destruct (new_collections_spec (d_inputs d) s1) as (ins & s2 & E2 & G2 & P2 & B2 & D2). mstep E2.
  destruct (new_collections_spec (d_outputs d) s2) as (outs & s3 & E3 & G3 & P3 & _ & D3). mstep E3.
  pose proof (grown_trans _ _ _ G1 (grown_trans _ _ _ G2 G3)) as G. pose proof (gw_next _ _ G2) as N2. pose proof (gw_next _ _ G3) as N3. cbn in N2.
  assert (Hkeep : forall x p, port_at s x = Some p -> port_at s3 x = Some p).
  { intros x p Hx. rewrite (gw_port _ _ G); [done|]. apply (ok_port_bound _ _ O). by eexists. }
  assert (P2' : port_at s3 <$> ins = Some <$> d_inputs d).
  { rewrite <- P2. apply list_fmap_ext. intros i q Hq. apply (gw_port _ _ G3). apply (Forall_lookup_1 _ _ _ _ B2) in Hq. lia. }
  assert (T3 : typed s3).
  { intros t x Hx. unfold FindCollections in Hx. rewrite (gw_table _ _ G) in Hx. destruct (ok_typed _ _ O t x Hx) as (q & Hq & Ht). exists q. auto. }
  set (c := mkComponent _ _ _ _ _ ins outs).
  destruct (Add_spec (next_object s) c (d_inputs d) (d_outputs d) s3 P2' P3 Hok T3) as (s' & E & HP & HN & HC & HL & HF & HM & HK).
  exists s'. split; [done|].
  assert (Hkeep' : forall x p, port_at s x = Some p -> port_at s' x = Some p) by (intros x p Hx; rewrite HP; auto).
  assert (Hcomp : forall q, is_Some (components s !! q) -> components s' !! q = components s !! q).
  { intros q Hq%(ok_component_bound _ _ O). rewrite HC, (gw_components _ _ G), lookup_insert_ne by lia. done. }
  assert (Hd : describe s' (next_object s) = Some d).
  { unfold describe. rewrite HC, lookup_insert_eq. cbn.
    rewrite (mapM_of_fmap _ ins (d_inputs d)) by (rewrite <- P2'; apply list_fmap_ext; intros i q _; apply HP). cbn.
    rewrite (mapM_of_fmap _ outs (d_outputs d)) by (rewrite <- P3; apply list_fmap_ext; intros i q _; apply HP). by destruct d. }
  split.
  - rewrite HL, (gw_list _ _ G), !fmap_app. cbn. rewrite Hd. f_equal. by apply (descriptions_kept s s'); [apply (ok_components _ _ O)|..].
  - intros q. rewrite HF, bind_app, !fmap_app. unfold FindComponents. rewrite (gw_lookups _ _ G). fold (FindComponents q s). f_equal.
    + by apply (descriptions_kept s s'); [apply (ok_find_components _ _ O)|..].
    + cbn. rewrite app_nil_r. unfold answers. repeat case_decide; cbn; by rewrite ?Hd.
  - rewrite HM, (gw_collections _ _ G), bind_app, !fmap_app. f_equal; [by apply (ports_kept s s'); [apply (ok_collections _ _ O)|]|].
    cbn [mbind list_bind]. rewrite app_nil_r. unfold ports. rewrite fmap_app, <- P2', <- P3. f_equal; apply list_fmap_ext; intros i q _; apply HP.
  - intros t. rewrite HK. replace ((ds ++ [d]) ≫= ports) with ((ds ≫= ports) ++ d_outputs d ++ d_inputs d)
      by (rewrite bind_app; cbn [mbind list_bind]; by rewrite app_nil_r).
    rewrite (filter_app _ (ds ≫= ports)), (fmap_app _ (filter _ (ds ≫= ports))). f_equal. unfold FindCollections. rewrite (gw_table _ _ G).
    apply (ports_kept s s3); [apply (ok_find_collections _ _ O)|done].
  - intros q. rewrite HP, HN. apply D3, D2. intros x Hx. apply (ok_port_bound _ _ O) in Hx. cbn. lia.
  - intros q. rewrite HC, HN, (gw_components _ _ G). intros [<-|[_ Hq]]%lookup_insert_is_Some; [lia|].
    apply (ok_component_bound _ _ O) in Hq. lia.
Qed.

Lemma empty_ok : summary_ok [] empty_summary.
Proof. by split; try done; intros p [x Hx]; rewrite ?lookup_empty in Hx. Qed.

(** The summary has everything that was declared.  Summarize any components, in whose declarations no collection is called like its type.  Nothing fails, and
    the summary gives back exactly the descriptions: its components are those that were declared, in order, each with its collections; a
    search for components finds those with that type or prefix; the collections are the declared ones, outputs before inputs, and a
    search finds exactly those of that type. *)
Theorem summary_gives_descriptions_back ds : Forall (fun d => Forall port_ok (ports d)) ds ->
  exists s, for_each ds Summarize empty_summary = (Ok tt, s) /\ describe s <$> m_components s = Some <$> ds /\
    (forall q, describe s <$> FindComponents q s = Some <$> (ds ≫= answers q)) /\
    port_at s <$> m_collections s = Some <$> (ds ≫= ports) /\
    (forall t, port_at s <$> FindCollections t s = Some <$> filter (fun p => p_type p = t) (ds ≫= ports)).
Proof.
  intros H. enough (exists s, for_each ds Summarize empty_summary = (Ok tt, s) /\ summary_ok ds s) as (s & E & [O1 O2 O3 O4 _ _]) by (by exists s).
  induction ds as [|d ds IH] using rev_ind; [exists empty_summary; split; [done|apply empty_ok]|].
  apply Forall_app in H as [H Hd]. apply Forall_inv in Hd. destruct (IH H) as (s & E & O).
  destruct (Summarize_ok ds s d O Hd) as (s' & E' & O'). exists s'. split; [|done]. rewrite for_each_app. mstep E. cbn [for_each]. by mstep E'.
Qed.

Definition track_factory : Description :=
  mkDescription Factory "trk" "TrackFactory" PhysicsEvent "tracking" [mkPort EmptyString "hits" "Hit" PhysicsEvent] [mkPort EmptyString "tracks" "Track" PhysicsEvent].
Definition vertex_factory : Description :=
  mkDescription Factory "vtx" "VertexFactory" PhysicsEvent "tracking" [mkPort EmptyString "tracks" "Track" PhysicsEvent] [].

Lemma summary_gives_descriptions_back_witness : exists s,
  for_each [track_factory; vertex_factory] Summarize empty_summary = (Ok tt, s) /\
  describe s <$> FindComponents "vtx" s = [Some vertex_factory] /\ length (FindCollections "Track" s) = 2%nat.
Proof.
  destruct (summary_gives_descriptions_back [track_factory; vertex_factory]) as (s & E & _ & C & _ & F); [by repeat constructor|].
  exists s. split; [done|]. split; [by rewrite C|]. by rewrite <- (length_fmap (port_at s)), F.
Defined.

(** ** Where it fails *)

(** A search by the name of a collection finds nothing, and what one component produces and another consumes is two collections, because
    the table is updated in a copy. *)
Lemma names_are_not_found : exists s, for_each [track_factory; vertex_factory] Summarize empty_summary = (Ok tt, s) /\
  FindCollections "tracks" s = [] /\ port_at s <$> FindCollections "Track" s = [Some (mkPort EmptyString "tracks" "Track" PhysicsEvent); Some (mkPort EmptyString "tracks" "Track" PhysicsEvent)].
Proof. eexists. split; [vm_compute; reflexivity|]. vm_compute. done. Qed.

(** If a collection is called like its type, a second component with it is read after it was deleted when another collection of the
    type follows in the table. *)
Lemma merged_collection_is_read_again :
  let p n := mkPort EmptyString n "Hit" PhysicsEvent in
  let producer ps := mkDescription Source "src" "MySource" PhysicsEvent "io" [] ps in
  let consumer := mkDescription Processor "prc" "MyProcessor" PhysicsEvent "io" [p "Hit"] [] in
  (for_each [producer [p "Hit"; p "raw"]; consumer] Summarize empty_summary).1 = Undef.
Proof. vm_compute. reflexivity. Qed.

End Summary.
