(* ===== verification/JFoldUnfold.v ===== *)
(** * JFoldArrow and JUnfoldArrow: arrows between event levels

    Models of [Topology/JFoldArrow.h] and [Topology/JUnfoldArrow.h].  The events are the
    items of the pools of the world: dereferencing an event pointer looks it up in the pool
    that created it.  [DoUnfold] is the user's unfolder.  The arrow's own members are part
    of the state, including the item counts of [m_parent_in], which the code changes. *)

From S2P Require Import Prelude JMailbox JPool JMetrics JArrow Ledger JPipelineArrow JEvent.
Import Mailbox Pool Arrow Ledger PipelineArrow Event.
Local Open Scope Z_scope.

Module FoldUnfold.

Abbreviation W := (World JEvent).

(** The pool that holds the event at [x]. *)
Definition find_pool (x : Z) (w : W) : option (nat * JPool JEvent) :=
  list_find (fun p => is_Some (store p !! x)) (pools w).

#[export] Instance world_heap : EventHeap W := {|
  read_event x := fun w =>
    match find_pool x w with
    | Some (_, p) => match store p !! x with Some e => (Ok e, w) | None => (Undef, w) end
    | None => (Undef, w)
    end;
  write_event x e := fun w =>
    match find_pool x w with
    | Some (i, p) =>
        (Ok tt, mkWorld (queues w) (<[i := set_store (<[x := e]> (store p)) p]> (pools w)))
    | None => (Undef, w)
    end
|}.

Section Fold.
Context {IT : Item JEvent}.
Variables (m_parent_level m_child_level : JEventLevel) (m_child_in m_child_out m_parent_out : PlaceRef).

(** Pulling from a queue or reserving a slot allocates nothing. *)
Definition fold_try_pull_all (location : nat) : M W (bool * (Data * Data * Data)) :=
  let d0 := make_data location in
  ci ← pull m_child_in d0 [];
  if negb ci.1 then mret (false, (ci.2, d0, d0)) else
  co ← pull m_child_out d0 [];
  if negb co.1 then mret (false, (ci.2, co.2, d0)) else
  po ← pull m_parent_out d0 [];
  if negb po.1 then mret (false, (ci.2, co.2, po.2)) else
  mret (true, (ci.2, co.2, po.2)).

Definition fold_push_all (ci co po : Data) : M W Z :=
  let message_count := item_count co in
  _ ← push m_child_in ci;
  _ ← push m_child_out co;
  _ ← push m_parent_out po;
  mret message_count.

(** [d.items[0] = x; d.item_count = n]. *)
Definition put_item (x n : Z) (d : Data) : Data := set_item_count n (set_item0 x d).

Definition fold_execute (location : nat) : M W (ArrowMetrics.Status * Z) :=
  r ← fold_try_pull_all location;
  let '(ci, co, po) := r.2 in
  if r.1 : bool then
    child ← item0 ci;
    let ci := put_item 0 0 ci in
    c ← read_event child;
    if negb (bool_decide (mLevel c = m_child_level)) then
      throwM "JFoldArrow received a child with the wrong event level"
    else
      parent ← ReleaseParent child m_parent_level;
      let co := put_item child 1 co in
      let po := match parent with Some p => put_item p 1 po | None => put_item 0 0 po end in
      events_processed ← fold_push_all ci co po;
      mret (ArrowMetrics.KeepGoing, events_processed)
  else mret (ArrowMetrics.ComeBackLater, 0).
End Fold.

Inductive Result := NextChildNextParent | NextChildKeepParent | KeepChildNextParent.

(** The members of [JUnfoldArrow] that change. *)
Record UnfoldState := mkUnfoldState {
  m_parent_event : Z;               (* 0 is nullptr *)
  m_ready_to_fetch_parent : bool;
  m_parent_in : PlaceRef
}.

Definition set_counts (lo hi : Z) (pl : PlaceRef) : PlaceRef :=
  mkPlaceRef (place_ref pl) (is_queue pl) (is_input pl) lo hi.

Section Unfold.
Context {IT : Item JEvent} {C : Type}.
Variables (m_level m_child_level : JEventLevel) (m_child_in m_child_out : PlaceRef).
Variable DoUnfold : Z -> Z -> M C Result.

Abbreviation St := (W * (UnfoldState * C))%type.

Definition get_arrow : M St UnfoldState := fun s => (Ok s.2.1, s).
Definition set_arrow (u : UnfoldState) : M St unit := fun s => (Ok tt, (s.1, (u, s.2.2))).
Definition on_user {A} (m : M C A) : M St A := fun s =>
  let '(r, c) := m s.2.2 in (r, (s.1, (s.2.1, c))).

(** Only the pull from [m_child_in], which may be a pool, allocates. *)
Definition unfold_try_pull_all (pl_parent_in : PlaceRef) (location : nat) (fresh : list Z)
    : M W (bool * (Data * Data * Data)) :=
  let d0 := make_data location in
  pi ← pull pl_parent_in d0 [];
  if negb pi.1 then mret (false, (pi.2, d0, d0)) else
  ci ← pull m_child_in d0 fresh;
  if negb ci.1 then
    pi' ← push pl_parent_in pi.2;
    mret (false, (pi'.2, ci.2, d0))
  else
  co ← pull m_child_out d0 [];
  if negb co.1 then
    pi' ← push pl_parent_in pi.2;
    ci' ← push m_child_in ci.2;
    mret (false, (pi'.2, ci'.2, co.2))
  else mret (true, (pi.2, ci.2, co.2)).

Definition unfold_push_all (pl_parent_in : PlaceRef) (pi ci co : Data) : M W Z :=
  a ← push pl_parent_in pi;
  b ← push m_child_in ci;
  c ← push m_child_out co;
  mret (u64 (a.1 + b.1 + c.1)).

(** [get_pending()]: a parent that the arrow hangs on to counts as one. *)
Definition unfold_get_pending (u : UnfoldState) : M W Z :=
  sum ← get_pending [m_parent_in u; m_child_in; m_child_out];
  mret (if m_parent_event u =? 0 then sum else u64 (sum + 1)).

Definition next_parent (r : Result) : bool :=
  match r with NextChildNextParent | KeepChildNextParent => true | NextChildKeepParent => false end.

(** [execute] once everything has been pulled and the arrow has its parent. *)
Definition unfold_event (pi ci co : Data) : M St (ArrowMetrics.Status * Z) :=
  child ← item0 ci;
  let ci := put_item 0 0 ci in
  u ← get_arrow;
  let parent := m_parent_event u in
  if parent =? 0 then throwM "Attempting to unfold without a valid parent event" else
  p ← on_world (read_event parent);
  if negb (bool_decide (mLevel p = m_level)) then throwM "JUnfolder: Expected parent with level" else
  c ← on_world (read_event child);
  if negb (bool_decide (mLevel c = m_child_level)) then throwM "JUnfolder: Expected child with level" else
  status ← on_user (DoUnfold parent child);
  _ ← on_world (SetParent child parent);
  _ ← (if next_parent status then
         _ ← on_world (Release parent);
         set_arrow (mkUnfoldState 0 true (set_counts 1 1 (m_parent_in u)))
       else mret tt);
  u' ← get_arrow;
  let co := put_item child 1 co in
  events_processed ← on_world (unfold_push_all (m_parent_in u') pi ci co);
  mret (ArrowMetrics.KeepGoing, events_processed).

Definition unfold_execute (location : nat) (fresh : list Z) : M St (ArrowMetrics.Status * Z) :=
  u0 ← get_arrow;
  r ← on_world (unfold_try_pull_all (m_parent_in u0) location fresh);
  let '(pi, ci, co) := r.2 in
  if r.1 : bool then
    pi ← (if m_ready_to_fetch_parent u0 then
            x ← item0 pi;
            _ ← set_arrow (mkUnfoldState x false (set_counts 0 0 (m_parent_in u0)));
            mret (put_item 0 0 pi)
          else mret pi);
    unfold_event pi ci co
  else mret (ArrowMetrics.ComeBackLater, 0).

End Unfold.

(** ** Reading and writing events that the arrow holds *)

Section Held.
Context {IT : Item JEvent} {IL : ItemLaws JEvent}.
Implicit Types (w : W) (H : list Z) (R : list (nat * nat * Z)).

Lemma held_pool w H R x :
  ledger w H R -> x ∈ H -> exists i p e, find_pool x w = Some (i, p) /\ pools w !! i = Some p /\
    store p !! x = Some e.
Proof.
  intros Hl Hx. destruct (ledger_owned _ _ _ _ Hl Hx) as (k & p & Hk & Hs).
  destruct (list_find_elem_of (fun p => is_Some (store p !! x)) (pools w) p) as [[i q] Hf];
    [by eapply list_elem_of_lookup_2|done|].
  exists i, q. pose proof Hf as (Hi & [e He] & _)%list_find_Some. exists e. auto.
Qed.

(** A computation on events that works on the events in [H], whatever else the world holds:
    it does not get stuck, and the books stay as they are. *)
Definition tame {A} H (m : M W A) : Prop := forall w R, ledger w H R ->
  exists r w', m w = (r, w') /\ r <> Undef /\ ledger w' H R /\ shape w' = shape w /\
    forall k x, owned w k x -> owned w' k x.

Lemma tame_ret {A} H (a : A) : tame H (mret a).
Proof. intros w R Hl. by exists (Ok a), w. Qed.

Lemma tame_throw {A} H e : tame H (throwM (A:=A) e).
Proof. intros w R Hl. by eexists (Throw _), w. Qed.

Lemma tame_bind {A B} H (m : M W A) (k : A -> M W B) :
  tame H m -> (forall a, tame H (k a)) -> tame H (x ← m; k x).
Proof.
  intros Hm Hk w R Hl. destruct (Hm w R Hl) as (r & w1 & Hr & Hne & Hl1 & Hs1 & Ho1).
  destruct r as [a|e|]; [|exists (Throw e), w1; by erewrite M_bind_throw by exact Hr|done].
  destruct (Hk a w1 R Hl1) as (r2 & w2 & Hr2 & Hne2 & Hl2 & Hs2 & Ho2).
  exists r2, w2. mstep Hr. split; [done|]. split; [done|]. split; [done|]. split; [congruence|auto].
Qed.

Lemma tame_read H x : x ∈ H -> tame H (read_event x).
Proof.
  intros Hx w R Hl. destruct (held_pool _ _ _ _ Hl Hx) as (i & p & e & Hf & _ & He).
  exists (Ok e), w. simpl. by rewrite Hf, He.
Qed.

Lemma tame_write H x e : x ∈ H -> tame H (write_event x e).
Proof.
  intros Hx w R Hl. destruct (held_pool _ _ _ _ Hl Hx) as (i & p & e0 & Hf & Hp & He).
  eexists (Ok tt), _. split; [simpl; by rewrite Hf|]. split; [done|].
  assert (Hdom : forall y, is_Some (<[x := e]> (store p) !! y) <-> is_Some (store p !! y)).
  { intros y. rewrite lookup_insert_is_Some. destruct (decide (x = y)) as [->|]; naive_solver. }
  split; [|split; [apply shape_pool|]].
  - eapply ledger_pool; [exact Hl|done| |].
    + intros out (ps & heap & Hinv) Hin. exists out. split; [|done]. exists ps, heap.
      apply set_value_inv; [done|by eexists|]. left. apply Hin; [done|]. exists p. split; [done|by eexists].
    + intros j y Hj (q & Hq & Hy). simpl. apply eq_None_not_Some. rewrite Hdom. intros Hy'.
      destruct Hj. eapply lg_owner; [exact Hl|by exists q|by exists p].
  - intros k y (q & Hk & Hy). destruct (decide (k = i)) as [->|Hne].
    + exists (set_store (<[x := e]> (store p)) p). simpl.
      rewrite list_lookup_insert_eq by (by eapply lookup_lt_Some). simplify_eq. by rewrite Hdom.
    + exists q. simpl. by rewrite list_lookup_insert_ne.
Qed.

Lemma tame_fetch_add H x d : x ∈ H -> tame H (fetch_add x d).
Proof.
  intros Hx. apply tame_bind; [by apply tame_read|intros e].
  apply tame_bind; [by apply tame_write|intros _; apply tame_ret].
Qed.

Lemma tame_SetParent H child parent : child ∈ H -> parent ∈ H -> tame H (SetParent child parent).
Proof.
  intros Hc Hp. apply tame_bind; [by apply tame_read|intros e]. apply tame_bind; [by apply tame_read|intros e'].
  case_match; [apply tame_throw|]. apply tame_bind; [by apply tame_write|intros _].
  apply tame_bind; [by apply tame_fetch_add|intros _; apply tame_ret].
Qed.

Lemma tame_Release H x : x ∈ H -> tame H (Release x).
Proof.
  intros Hx. apply tame_bind; [by apply tame_fetch_add|intros n]. case_match; [apply tame_throw|apply tame_ret].
Qed.
End Held.

(** ** An unfolding arrow conserves events *)

Section UnfoldConserves.
Context {IT : Item JEvent} {IL : ItemLaws JEvent} {C : Type}.
Context (m_level m_child_level : JEventLevel) (m_child_in m_child_out : PlaceRef).
Context (DoUnfold : Z -> Z -> M C Result).
Implicit Types (w : W) (u : UnfoldState) (H : list Z) (R : list (nat * nat * Z)).

(** The parent that the arrow hangs on to between two executions. *)
Definition kept u : list Z := if m_parent_event u =? 0 then [] else [m_parent_event u].

(** The members agree: the arrow fetches a parent if and only if it has none. *)
Definition unfold_state_ok u : Prop :=
  is_input (m_parent_in u) = true /\ is_queue (m_parent_in u) = true /\
  if m_ready_to_fetch_parent u
  then m_parent_event u = 0 /\ min_item_count (m_parent_in u) = 1 /\ max_item_count (m_parent_in u) = 1
  else m_parent_event u <> 0 /\ min_item_count (m_parent_in u) = 0 /\ max_item_count (m_parent_in u) = 0.

(** The places that the constructor sets up, attached to queues and pools that exist. *)
Record unfold_places w u (loc : nat) : Prop := {
  up_state : unfold_state_ok u;
  up_parent_in : valid (shape w) (m_parent_in u) loc;
  up_child_in : is_input m_child_in = true /\ min_item_count m_child_in = 1 /\
    max_item_count m_child_in = 1 /\ valid (shape w) m_child_in loc;
  up_child_out : is_input m_child_out = false /\ is_queue m_child_out = true /\
    min_item_count m_child_out = 1 /\ max_item_count m_child_out = 1 /\ valid (shape w) m_child_out loc
}.

(** The arrow holds one parent [p], one child, and a slot in the output queue. *)
Record unfold_pulled w u H R (loc : nat) (p child : Z) (pi ci co : Data) w' : Prop := {
  ud_holding : holding (shape w) loc (kept u ++ H) R
    [(m_child_out, co); (m_child_in, ci); (m_parent_in u, pi)] w';
  ud_parent : if m_ready_to_fetch_parent u then items pi !! 0%nat = Some p /\ item_count pi = 1
              else m_parent_event u = p /\ item_count pi = 0;
  ud_not_null : p <> 0;
  ud_child : items ci !! 0%nat = Some child /\ item_count ci = 1;
  ud_slot : item_count co = 0 /\ 1 <= reserve_count co /\ length (items co) = 10%nat
}.

Lemma queued_owned w H R x : ledger w H R -> x ∈ queue_items w -> exists k, owned w k x.
Proof.
  intros (outs & Hf & _ & _ & Hin)%ledger_outs Hx.
  destruct (Hin x ltac:(set_solver)) as (k & p & out & Hk & Hout & Hxo).
  pose proof (Forall2_lookup_lr _ _ _ _ _ _ Hf Hk Hout) as [_ Hst]%pool_ok_out.
  exists k, p. auto.
Qed.

Lemma queue_items_intro w k mb x : queues w !! k = Some mb -> x ∈ mailbox_items mb -> x ∈ queue_items w.
Proof.
  intros Hk Hx. apply list_elem_of_In, in_concat. exists (mailbox_items mb). split; [|by apply list_elem_of_In].
  apply list_elem_of_In, list_elem_of_fmap. exists mb. split; [done|]. by eapply list_elem_of_lookup_2.
Qed.

(** What the three pulls found. *)
Lemma unfold_pulled_intro w u H R loc fresh w1 d1 w2 d2 w3 d3 H1 R1 H2 R2 H3 R3 :
  unfold_places w u loc -> ledger w (kept u ++ H) R -> (forall k, ~ owned w k 0) ->
  pulled w H1 R1 (m_parent_in u) (make_data loc) [] true d1 w1 ->
  pulled w1 H2 R2 m_child_in (make_data loc) fresh true d2 w2 ->
  pulled w2 H3 R3 m_child_out (make_data loc) [] true d3 w3 ->
  holding (shape w) loc (kept u ++ H) R [(m_child_out, d3); (m_child_in, d2); (m_parent_in u, d1)] w3 ->
  exists p child, unfold_pulled w u H R loc p child d1 d2 d3 w3.
Proof.
  intros [(Hpi & Hpq & Hst) Hvp (Hci & Hcmin & Hcmax & Hvc) (Hoi & Hoq & Homin & Homax & Hvo)] Hl Hnull P1 P2 P3 Hh.
  assert (Hc2 : item_count d2 = 1) by (pose proof (pd_max P2); pose proof (pd_input P2 eq_refl Hci); lia).
  destruct (in_hand_one d2 Hc2) as (child & Hchild & _); [destruct (pd_fits P2); lia|].
  assert (Hp : exists p, p <> 0 /\ if m_ready_to_fetch_parent u
    then items d1 !! 0%nat = Some p /\ item_count d1 = 1 else m_parent_event u = p /\ item_count d1 = 0).
  { pose proof (pd_max P1) as Hmax. pose proof (pd_input P1 eq_refl Hpi) as Hmin.
    destruct (m_ready_to_fetch_parent u).
    - assert (Hc1 : item_count d1 = 1) by lia.
      destruct (in_hand_one d1 Hc1) as (p & Hp & Hhand); [destruct (pd_fits P1); lia|]. exists p. split; [|done].
      intros ->. destruct (valid_queue _ _ _ Hvp Hpq) as (k & mb & Hk & Hmb & _).
      destruct (queued_owned w (kept u ++ H) R 0 Hl) as [i Hi]; [|by eapply Hnull].
      eapply queue_items_intro; [exact Hmb|]. eapply (pd_source P1); [done..|]. rewrite Hhand. set_solver.
    - exists (m_parent_event u). split; [apply Hst|]. split; [done|lia]. }
  destruct Hp as (p & Hne & Hp). exists p, child. split; try done.
  split; [by apply (pd_output P3)|]. split; [pose proof (pd_reserved P3 eq_refl Hoq); lia|].
  by rewrite (pd_length P3).
Qed.

Lemma unfold_try_pull_all_ok w u H R loc fresh :
  ledger w (kept u ++ H) R -> unfold_places w u loc -> (forall k, ~ owned w k 0) ->
  can_allocate w m_child_in fresh ->
  exists b pi ci co w',
    unfold_try_pull_all m_child_in m_child_out (m_parent_in u) loc fresh w = (Ok (b, (pi, ci, co)), w') /\
    if b : bool then exists p child, unfold_pulled w u H R loc p child pi ci co w'
    else shape w' = shape w /\ ledger w' (kept u ++ H) R.
Proof.
  intros Hl Hpl Hnull Hf.
  pose proof Hpl as [(Hpi & Hpq & Hst) Hvp (Hci & Hcmin & Hcmax & Hvc) (Hoi & Hoq & Homin & Homax & Hvo)].
  assert (H0 : holding (shape w) loc (kept u ++ H) R [] w) by (split; [done|constructor|done]).
  unfold unfold_try_pull_all.
  destruct (holding_pull _ _ _ _ _ _ (m_parent_in u) [] H0) as ([] & d1 & w1 & Hp1 & H1 & (? & ? & P1) & A1);
    [by destruct (m_ready_to_fetch_parent u); (split; [done|]); lia|intros ?; congruence| |];
    mstep Hp1; cbn [fst snd negb]; [|destruct H1; eexists _, _, _, _, w1; by split].
  destruct (holding_pull _ _ _ _ _ _ m_child_in fresh H1) as ([] & d2 & w2 & Hp2 & H2 & (? & ? & P2) & A2);
    [by split; [|lia]|apply A1; [|done]; intros y _ Hy; by apply not_elem_of_nil in Hy| |];
    mstep Hp2; cbn [fst snd negb].
  2:{ destruct (holding_push _ _ _ _ _ [(m_parent_in u, d1)] _ H2) as (w' & Hrun & Hrest); [solve_Permutation|].
      inversion_clear Hrun as [|? ? r1 ? v1 ? Hr1 Hend]; inversion Hend; subst.
      mstep Hr1. eexists _, _, _, _, _. split; [done|apply Hrest]. }
  destruct (holding_pull _ _ _ _ _ _ m_child_out [] H2) as ([] & d3 & w3 & Hp3 & H3 & (? & ? & P3) & A3);
    [by split; [|lia]|intros ?; congruence| |]; mstep Hp3; cbn [fst snd negb].
  2:{ destruct (holding_push _ _ _ _ _ [(m_parent_in u, d1); (m_child_in, d2)] _ H3) as (w' & Hrun & Hrest);
        [solve_Permutation|].
      inversion_clear Hrun as [|? ? r1 ? v1 ? Hr1 Hrun'].
      inversion_clear Hrun' as [|? ? r2 ? v2 ? Hr2 Hend]; inversion Hend; subst.
      mstep Hr1. mstep Hr2. eexists _, _, _, _, _. split; [done|apply Hrest]. }
  eexists _, _, _, _, _. split; [done|]. by eapply unfold_pulled_intro.
Qed.

(** The reservations of the three places. *)
Definition unfold_tickets u (pi ci co : Data) : list (nat * nat * Z) :=
  ticket_of m_child_out co ++ ticket_of m_child_in ci ++ ticket_of (m_parent_in u) pi.

Lemma unfold_pulled_ledger w u H R loc p child pi ci co w' :
  unfold_places w u loc -> unfold_pulled w u H R loc p child pi ci co w' ->
  ledger w' (child :: p :: H) (unfold_tickets u pi ci co ++ R).
Proof.
  intros [(_ & _ & Hst) _ _ _] [[_ _ Hl] Hp _ [Hc Hc1] (Ho & _)]. csimpl in Hl.
  unfold unfold_tickets. rewrite <- !app_assoc. rewrite app_nil_r, <- !app_assoc in Hl.
  rewrite (in_hand_zero co Ho) in Hl.
  replace (in_hand ci) with [child] in Hl.
  2:{ unfold in_hand. rewrite Hc1. destruct (items ci); by simplify_eq/=. }
  replace (in_hand pi ++ kept u ++ H) with (p :: H) in Hl; [done|].
  unfold in_hand, kept. destruct (m_ready_to_fetch_parent u), Hp as [Hp ->], Hst as [He _].
  - rewrite He. simpl. destruct (items pi); by simplify_eq/=.
  - rewrite Hp in *. by destruct (Z.eqb_spec p 0).
Qed.

(** The parent's [Data] once the parent has been taken out of it. *)
Definition parent_taken u (pi : Data) : Data :=
  if m_ready_to_fetch_parent u then put_item 0 0 pi else pi.

Lemma fits_none w pl d : item_count d = 0 -> (is_queue pl = true -> 0 <= reserve_count d) ->
  fits w pl d.
Proof.
  intros Hc Hr. split; [rewrite Hc; pose proof (sizeZ_nonneg (items d)); lia|].
  intros i Hi. destruct (is_queue pl); [specialize (Hr eq_refl); lia|]. by rewrite in_hand_zero.
Qed.

Lemma unfold_push_all_ok w u H R loc p child pi ci co w3 w4 pl :
  unfold_places w u loc -> unfold_pulled w u H R loc p child pi ci co w3 ->
  ledger w4 (child :: p :: H) (unfold_tickets u pi ci co ++ R) -> shape w4 = shape w ->
  place_ref pl = place_ref (m_parent_in u) -> is_queue pl = is_queue (m_parent_in u) ->
  exists n w5, unfold_push_all m_child_in m_child_out pl (parent_taken u pi) (put_item 0 0 ci)
      (put_item child 1 co) w4 = (Ok n, w5) /\ shape w5 = shape w /\ ledger w5 (p :: H) R.
Proof.
  intros [(_ & Hpq & _) Hvp (_ & _ & _ & Hvc) (_ & Hoq & _ & _ & Hvo)] [[_ Hall _] Hp _ _ (_ & Hr & Hlen)] Hl Hs Hpl Hq.
  rewrite !Forall_cons in Hall. destruct Hall as ((_ & Hlo & _ & _) & (_ & Hli & [Hic Hif] & _) & (_ & Hlp & [Hpc Hpf] & _) & _).
  assert (Htaken : item_count (parent_taken u pi) = 0 /\ reserve_count (parent_taken u pi) = reserve_count pi /\
    location_id (parent_taken u pi) = location_id pi).
  { unfold parent_taken. by destruct (m_ready_to_fetch_parent u), Hp. }
  destruct Htaken as (Ht0 & Htr & Htl).
  assert (Hhand : in_hand (put_item child 1 co) = [child]).
  { unfold in_hand. simpl. destruct (items co) as [|y its]; [done|]. by destruct its. }
  assert (Hfp : fits w4 pl (parent_taken u pi)).
  { apply fits_none; [done|]. intros _. destruct Hvp as (i & Hi & _). specialize (Hpf i Hi).
    rewrite Hpq in Hpf. rewrite Htr. lia. }
  assert (Hfi : fits w4 m_child_in (put_item 0 0 ci)).
  { apply fits_none; [done|]. intros Hq'. simpl. destruct Hvc as (i & Hi & _). specialize (Hif i Hi).
    rewrite Hq' in Hif. lia. }
  assert (Hfo : fits w4 m_child_out (put_item child 1 co)).
  { split; simpl; [unfold sizeZ; rewrite length_insert; lia|]. intros i _. by rewrite Hoq. }
  destruct (handover_all [(push pl (parent_taken u pi), pl, parent_taken u pi);
     (push m_child_in (put_item 0 0 ci), m_child_in, put_item 0 0 ci);
     (push m_child_out (put_item child 1 co), m_child_out, put_item child 1 co)] w4 (p :: H) R)
    as (w5 & Hrun & Hs5 & Hl5 & _).
  - rewrite !Forall_cons, Forall_nil, Hs, Htl. cbn [put_item set_item_count set_item0 location_id].
    rewrite Hlo, Hli, Hlp. repeat split; try apply push_handover; try apply Hfi; try apply Hfo; try apply Hfp;
      try done. unfold valid. by rewrite Hpl, Hq.
  - csimpl. rewrite Hhand, !in_hand_zero by done. eapply ledger_perm; [..|exact Hl]; [done|].
    unfold unfold_tickets, ticket_of. rewrite Hpl, Hq, Htl, Htr. simpl. solve_Permutation.
  - inversion_clear Hrun as [|? ? r1 ? v1 ? Hr1 Hrun'].
    inversion_clear Hrun' as [|? ? r2 ? v2 ? Hr2 Hrun].
    inversion_clear Hrun as [|? ? r3 ? v3 ? Hr3 Hend]; inversion Hend; subst.
    unfold unfold_push_all. mstep Hr1. mstep Hr2. mstep Hr3. eexists _, w5. split; [done|].
    split; [congruence|done].
Qed.

(** What [execute] may do when it is called with the members [u] and the user's state [c]. *)
Definition unfold_result u (c : C) H R o w' u' c' : Prop :=
  match o with
  | Ok (ArrowMetrics.ComeBackLater, n) => n = 0 /\ u' = u /\ c' = c /\ ledger w' (kept u ++ H) R
  | Ok (ArrowMetrics.KeepGoing, _) =>
      exists p child status, DoUnfold p child c = (Ok status, c') /\
        (m_ready_to_fetch_parent u = false -> p = m_parent_event u) /\
        unfold_state_ok u' /\ kept u' = match status with NextChildKeepParent => [p] | _ => [] end /\ ledger w' (p :: H) R
  | Ok _ => False
  | Throw _ => exists p child tickets, (m_ready_to_fetch_parent u = false -> p = m_parent_event u) /\
      unfold_state_ok u' /\ kept u' = [p] /\ ledger w' (child :: p :: H) (tickets ++ R)
  | Undef => exists p child, (DoUnfold p child c).1 = Undef
  end.

(** A step on the world that is tame with respect to what is held. *)
Lemma tame_step {A B} HH RR (m : M W A) (k : A -> M (W * (UnfoldState * C)) B) w s (Q : outcome B -> _ -> Prop) :
  tame HH m -> ledger w HH RR ->
  (forall a w', ledger w' HH RR -> shape w' = shape w -> exists o s', k a (w', s) = (o, s') /\ Q o s') ->
  (forall e w', ledger w' HH RR -> shape w' = shape w -> Q (Throw e) (w', s)) ->
  exists o s', (x ← on_world m; k x) (w, s) = (o, s') /\ Q o s'.
Proof.
  intros Hm Hl Hok Hthrow. destruct (Hm w RR Hl) as (r & w' & Hr & Hne & Hl' & Hs & _).
  destruct r as [a|e|]; [| |done].
  - destruct (Hok a w' Hl' Hs) as (o & s' & Hk & HQ). exists o, s'. by mstep (on_world_ok _ _ s _ _ Hr).
  - exists (Throw e), (w', s). split; [|auto]. unfold mbind, M_bind, on_world. simpl. by rewrite Hr.
Qed.

(** The arrow has its parent: the members, and what is left in the parent's [Data]. *)
Definition has_parent u u1 (p : Z) : Prop :=
  m_parent_event u1 = p /\ m_ready_to_fetch_parent u1 = false /\
  m_parent_in u1 = set_counts 0 0 (m_parent_in u).

Definition unfold_post w u (c : C) H R (o : outcome (ArrowMetrics.Status * Z)) (s : W * (UnfoldState * C)) : Prop :=
  shape s.1 = shape w /\ unfold_result u c H R o s.1 s.2.1 s.2.2.

(** The end of [unfold_event], once the user's unfolder has returned [status]. *)
Lemma unfold_finish_ok w u (c c' : C) H R loc p child pi ci co w3 status w4 u2 :
  unfold_places w u loc -> unfold_pulled w u H R loc p child pi ci co w3 ->
  ledger w4 (child :: p :: H) (unfold_tickets u pi ci co ++ R) -> shape w4 = shape w ->
  DoUnfold p child c = (Ok status, c') -> (m_ready_to_fetch_parent u = false -> p = m_parent_event u) ->
  unfold_state_ok u2 -> kept u2 = match status with NextChildKeepParent => [p] | _ => [] end ->
  place_ref (m_parent_in u2) = place_ref (m_parent_in u) ->
  exists o s',
    (u' ← get_arrow;
     events_processed ← on_world (unfold_push_all m_child_in m_child_out (m_parent_in u') (parent_taken u pi)
       (put_item 0 0 ci) (put_item child 1 co));
     mret (ArrowMetrics.KeepGoing, events_processed)) (w4, (u2, c')) = (o, s') /\ unfold_post w u c H R o s'.
Proof.
  intros Hpl Hpd Hl Hs Hdo Hsame Hok Hkept Href.
  assert (Hq : is_queue (m_parent_in u2) = is_queue (m_parent_in u)).
  { destruct Hok as (_ & -> & _). destruct (up_state _ _ _ Hpl) as (_ & -> & _). done. }
  destruct (unfold_push_all_ok _ _ _ _ _ _ _ _ _ _ _ w4 (m_parent_in u2) Hpl Hpd Hl Hs Href Hq)
    as (n & w5 & Hpush & Hs5 & Hl5).
  mstep (eq_refl (get_arrow (w4, (u2, c')))). cbn [fst snd]. mstep (on_world_ok _ _ (u2, c') _ _ Hpush).
  eexists _, _. split; [done|]. split; [done|]. exists p, child, status. auto.
Qed.

Lemma unfold_event_ok w u (c : C) H R loc p child pi ci co w3 u1 :
  unfold_places w u loc -> unfold_pulled w u H R loc p child pi ci co w3 -> has_parent u u1 p ->
  exists o s',
    unfold_event m_level m_child_level m_child_in m_child_out DoUnfold (parent_taken u pi) ci co (w3, (u1, c))
      = (o, s') /\ unfold_post w u c H R o s'.
Proof.
  intros Hpl Hpd (Hu1 & Hu2 & Hu3). pose proof (unfold_pulled_ledger _ _ _ _ _ _ _ _ _ _ _ Hpl Hpd) as Hl.
  assert (Hs : shape w3 = shape w) by apply Hpd.
  assert (Hsame : m_ready_to_fetch_parent u = false -> p = m_parent_event u).
  { intros Hr. destruct Hpd as [_ Hp _ _ _]. rewrite Hr in Hp. by destruct Hp. }
  assert (Hnz : p <> 0) by apply Hpd.
  assert (Hkeeps : unfold_state_ok u1 /\ kept u1 = [p]).
  { pose proof (up_state _ _ _ Hpl) as (Hsi & Hsq & _). split.
    - split; rewrite Hu3; [done|]. split; [done|]. rewrite Hu2. by rewrite Hu1.
    - unfold kept. rewrite Hu1. by destruct (Z.eqb_spec p 0). }
  assert (Hthrow : forall w' e c', ledger w' (child :: p :: H) (unfold_tickets u pi ci co ++ R) ->
    shape w' = shape w -> unfold_post w u c H R (Throw e) (w', (u1, c'))).
  { intros. split; [done|]. eexists _, _, _. split_and!; [done|apply Hkeeps|apply Hkeeps|done]. }
  pose proof (up_state _ _ _ Hpl) as (Hsi & Hsq & _).
  destruct Hpd as [Hh Hp Hne [Hc Hc1] Hslot] eqn:Hpd'. unfold unfold_event, item0. rewrite Hc, M_bind_ret.
  mstep (eq_refl (get_arrow (w3, (u1, c)))). cbn [fst snd]. rewrite Hu1.
  destruct (Z.eqb_spec p 0); [done|].
  eapply tame_step; [apply (tame_read (child :: p :: H)); set_solver|exact Hl| |intros; apply Hthrow; congruence].
  intros ep w4 Hl4 Hs4. destruct (negb _); [eexists _, _; split; [done|]; apply Hthrow; congruence|].
  eapply tame_step; [apply (tame_read (child :: p :: H)); set_solver|exact Hl4| |intros; apply Hthrow; congruence].
  intros ec w5 Hl5 Hs5. destruct (negb _); [eexists _, _; split; [done|]; apply Hthrow; congruence|].
  destruct (DoUnfold p child c) as [r c'] eqn:Hdo.
  assert (Huser : on_user (DoUnfold p child) (w5, (u1, c)) = (r, (w5, (u1, c')))) by (unfold on_user; simpl; by rewrite Hdo).
  destruct r as [status|e|].
  2:{ erewrite M_bind_throw by exact Huser. eexists _, _. split; [done|]. apply Hthrow; [done|congruence]. }
  2:{ unfold mbind, M_bind. rewrite Huser. eexists _, _. split; [done|]. split; [simpl; congruence|].
      exists p, child. by rewrite Hdo. }
  mstep Huser.
  eapply tame_step; [apply (tame_SetParent (child :: p :: H)); set_solver|exact Hl5| |intros; apply Hthrow; congruence].
  intros [] w6 Hl6 Hs6. destruct (next_parent status) eqn:Hnext.
  - rewrite M_bind_assoc.
    eapply tame_step; [apply (tame_Release (child :: p :: H)); set_solver|exact Hl6| |intros; apply Hthrow; congruence].
    intros [] w7 Hl7 Hs7.
    mstep (eq_refl (set_arrow (mkUnfoldState 0 true (set_counts 1 1 (m_parent_in u1))) (w7, (u1, c')))).
    eapply unfold_finish_ok; try done; [simpl; congruence|by rewrite Hu3| |by rewrite Hu3].
    by destruct status.
  - rewrite M_bind_ret.
    eapply unfold_finish_ok; try done; [simpl; congruence| | |by rewrite Hu3].
    + apply Hkeeps.
    + destruct status; [done| |done]. apply Hkeeps.
Qed.

End UnfoldConserves.

(** ** A folding arrow *)

Section FoldConserves.
Context {IT : Item JEvent} {IL : ItemLaws JEvent}.
Context (m_parent_level m_child_level : JEventLevel) (m_child_in m_child_out m_parent_out : PlaceRef).
Implicit Types (w : W) (H : list Z) (R : list (nat * nat * Z)).

(** An output place of one item; if it is a pool, it is the one that [x] comes from. *)
Definition output_for w (loc : nat) pl (x : Z) : Prop :=
  forall i, is_queue pl = false -> place_ref pl = Some i -> owned w i x.

(** The places that the constructor sets up, attached to queues and pools that exist.  The
    children in the input queue go back to their own pool, and their parents, which are
    in flight, to theirs. *)
Record fold_places w H (loc : nat) : Prop := {
  fp_child_in : is_input m_child_in = true /\ is_queue m_child_in = true /\
    min_item_count m_child_in = 1 /\ max_item_count m_child_in = 1 /\ valid (shape w) m_child_in loc;
  fp_outputs : Forall (fun pl => is_input pl = false /\ min_item_count pl = 1 /\
    max_item_count pl = 1 /\ valid (shape w) pl loc) [m_child_out; m_parent_out];
  fp_owner : forall k mb x, place_ref m_child_in = Some k -> queues w !! k = Some mb -> x ∈ mailbox_items mb ->
    output_for w loc m_child_out x /\
    forall e pr, read_event x w = (Ok e, w) -> last (mParents e) = Some pr ->
      pr.2 ∈ H /\ output_for w loc m_parent_out pr.2
}.

(** Pulling from a queue, or reserving for an output, leaves the pools alone. *)
Lemma pull_pools pl d fresh w r w' :
  is_queue pl = true \/ is_input pl = false -> pull pl d fresh w = (Ok r, w') -> pools w' = pools w.
Proof.
  intros Hpl. unfold pull. intros (i & w1 & Hd & Hrun)%M_bind_inv. unfold deref in Hd.
  destruct (place_ref pl); unfold lift, mret, M_ret in Hd; simplify_eq.
  destruct (is_input pl) eqn:Hin, (is_queue pl) eqn:Hq; try by destruct Hpl.
  1,2: apply M_bind_inv in Hrun as (a & w2 & Hop & Hret); unfold on_queue in Hop;
    destruct (queues w1 !! i) as [mb|]; [|done]; case_match; [|done..]; case_match; simplify_eq;
    unfold mret, M_ret in Hret; by simplify_eq.
  unfold mret, M_ret in Hrun. by simplify_eq.
Qed.

Lemma read_event_pools x w w' e :
  pools w' = pools w -> read_event x w' = (Ok e, w') -> read_event x w = (Ok e, w).
Proof. simpl. unfold find_pool. intros ->. repeat case_match; intros; by simplify_eq. Qed.

(** [ReleaseParent] of a held child whose parent is held too. *)
Lemma release_parent_ok HH RR w x c :
  ledger w HH RR -> x ∈ HH -> read_event x w = (Ok c, w) ->
  (forall pr, last (mParents c) = Some pr -> pr.2 ∈ HH) ->
  exists r w', ReleaseParent x m_parent_level w = (r, w') /\ r <> Undef /\ ledger w' HH RR /\
    shape w' = shape w /\ (forall k y, owned w k y -> owned w' k y) /\
    forall q, r = Ok (Some q) -> exists pr, last (mParents c) = Some pr /\ pr.2 = q.
Proof.
  intros Hl Hx Hc Hpar. unfold ReleaseParent. mstep Hc. destruct (last (mParents c)) as [pr|].
  2:{ eexists (Throw _), w. split; [done|]. repeat split; try done; apply Hl. }
  destruct (negb _); [eexists (Throw _), w; split; [done|]; repeat split; try done; apply Hl|].
  match goal with |- context [write_event x ?e] => set (e' := e) end.
  destruct (tame_bind HH (write_event x e') (fun _ => fetch_add pr.2 (-1)) (tame_write HH x e' Hx)
    (fun _ => tame_fetch_add HH pr.2 (-1) (Hpar pr eq_refl)) w RR Hl) as (r & w' & Hr & Hne & Hrest).
  rewrite <- M_bind_assoc. destruct r as [n|e|]; [mstep Hr|erewrite M_bind_throw by exact Hr|done].
  - destruct (n <? 1); [|destruct (n =? 1)]; eexists _, w'; (split; [done|]); (split; [done|]);
      repeat (split; [apply Hrest|]); intros q ?; simplify_eq; eauto.
  - eexists _, w'; (split; [done|]). split; [done|]. repeat (split; [apply Hrest|]). intros q ?; simplify_eq.
Qed.

(** An empty [Data] with room for one item. *)
Definition slot_for pl (d : Data) : Prop :=
  item_count d = 0 /\ (is_queue pl = true -> 1 <= reserve_count d) /\ length (items d) = 10%nat.

Lemma pulled_slot w H R pl loc d w' :
  pulled w H R pl (make_data loc) [] true d w' -> is_input pl = false -> min_item_count pl = 1 -> slot_for pl d.
Proof.
  intros P Hin Hmin. split; [by apply (pd_output P)|]. split; [|by rewrite (pd_length P)].
  intros Hq. pose proof (pd_reserved P eq_refl Hq). lia.
Qed.

(** Filling the slot, or leaving it empty. *)
Lemma fits_slot w pl d x loc :
  slot_for pl d -> output_for w loc pl x -> fits w pl (put_item x 1 d) /\ in_hand (put_item x 1 d) = [x].
Proof.
  intros (Hc & Hr & Hlen) Hown.
  assert (Hhand : in_hand (put_item x 1 d) = [x]).
  { unfold in_hand. simpl. destruct (items d) as [|y its]; [done|]. by destruct its. }
  split; [|done]. split; simpl; [unfold sizeZ; rewrite length_insert; lia|].
  intros i Hi. destruct (is_queue pl) eqn:Hq; [by apply Hr|]. rewrite Hhand. apply Forall_singleton. by apply Hown.
Qed.

Lemma fits_empty w pl d : slot_for pl d -> fits w pl (put_item 0 0 d).
Proof. intros (Hc & Hr & Hlen). apply fits_none; [done|]. intros Hq. simpl. specialize (Hr Hq). lia. Qed.

(** The arrow holds the child [x] and a slot in both outputs. *)
Record fold_pulled w H R (loc : nat) (x : Z) (ci co po : Data) w' : Prop := {
  fd_holding : holding (shape w) loc H R [(m_parent_out, po); (m_child_out, co); (m_child_in, ci)] w';
  fd_child : items ci !! 0%nat = Some x /\ item_count ci = 1;
  fd_slots : slot_for m_child_out co /\ slot_for m_parent_out po;
  fd_pools : pools w' = pools w;
  fd_source : exists k mb, place_ref m_child_in = Some k /\ queues w !! k = Some mb /\ x ∈ mailbox_items mb
}.

Lemma fold_try_pull_all_ok w H R loc :
  ledger w H R -> fold_places w H loc ->
  exists b ci co po w',
    fold_try_pull_all m_child_in m_child_out m_parent_out loc w = (Ok (b, (ci, co, po)), w') /\
    if b : bool then exists x, fold_pulled w H R loc x ci co po w'
    else exists l, holding (shape w) loc H R l w'.
Proof.
  intros Hl [(Hci & Hcq & Hcmin & Hcmax & Hvc) Houts _].
  rewrite !Forall_cons in Houts. destruct Houts as ((Hoi & Homin & Homax & Hvo) & (Hpi & Hpmin & Hpmax & Hvp) & _).
  assert (H0 : holding (shape w) loc H R [] w) by (split; [done|constructor|done]).
  unfold fold_try_pull_all.
  destruct (holding_pull _ _ _ _ _ _ m_child_in [] H0) as ([] & d1 & w1 & Hp1 & H1 & (? & ? & P1) & _);
    [by split; [|lia]|intros ?; congruence| |]; mstep Hp1; cbn [fst snd negb];
    [|eexists _, _, _, _, _; split; [done|simpl; eauto]].
  destruct (holding_pull _ _ _ _ _ _ m_child_out [] H1) as ([] & d2 & w2 & Hp2 & H2 & (? & ? & P2) & _);
    [by split; [|lia]|intros ? ?; congruence| |]; mstep Hp2; cbn [fst snd negb];
    [|eexists _, _, _, _, _; split; [done|simpl; eauto]].
  destruct (holding_pull _ _ _ _ _ _ m_parent_out [] H2) as ([] & d3 & w3 & Hp3 & H3 & (? & ? & P3) & _);
    [by split; [|lia]|intros ? ?; congruence| |]; mstep Hp3; cbn [fst snd negb];
    [|eexists _, _, _, _, _; split; [done|simpl; eauto]].
  eexists _, _, _, _, _. split; [done|].
  assert (Hc1 : item_count d1 = 1) by (pose proof (pd_max P1); pose proof (pd_input P1 eq_refl Hci); lia).
  destruct (in_hand_one d1 Hc1) as (y & Hy & Hhand); [destruct (pd_fits P1); lia|]. exists y. split; try done.
  - split; by eapply pulled_slot.
  - rewrite (pull_pools _ _ _ _ _ _ (or_intror Hpi) Hp3), (pull_pools _ _ _ _ _ _ (or_intror Hoi) Hp2).
    by rewrite (pull_pools _ _ _ _ _ _ (or_introl Hcq) Hp1).
  - destruct (valid_queue _ _ _ Hvc Hcq) as (k & mb & Hk & Hmb & _). exists k, mb. split; [done|]. split; [done|].
    apply (pd_source P1 Hcq k mb y Hk Hmb). rewrite Hhand. set_solver.
Qed.

(** What [execute] may do: [lost] and [tickets] are what a failed pull leaves behind. *)
Definition fold_result H R (o : outcome (ArrowMetrics.Status * Z)) w' : Prop :=
  match o with
  | Ok (ArrowMetrics.ComeBackLater, n) => n = 0 /\ exists lost tickets, ledger w' (lost ++ H) (tickets ++ R)
  | Ok (ArrowMetrics.KeepGoing, n) =>
      n = 1 /\ exists parent H', H ≡ₚ option_list parent ++ H' /\ ledger w' H' R
  | Ok _ => False
  | Throw _ => exists x tickets, ledger w' (x :: H) (tickets ++ R)
  | Undef => False
  end.

(** The pushes at the end of [execute]. *)
Lemma fold_push_all_ok w H H' R loc x ci co po w3 w4 parent :
  fold_places w H loc -> fold_pulled w H R loc x ci co po w3 ->
  ledger w4 (x :: H) (ticket_of m_parent_out po ++ ticket_of m_child_out co ++ ticket_of m_child_in ci ++ R) ->
  shape w4 = shape w -> H ≡ₚ option_list parent ++ H' ->
  output_for w4 loc m_child_out x ->
  (forall q, parent = Some q -> output_for w4 loc m_parent_out q) ->
  exists w5, fold_push_all m_child_in m_child_out m_parent_out (put_item 0 0 ci) (put_item x 1 co)
      (match parent with Some q => put_item q 1 po | None => put_item 0 0 po end) w4 = (Ok 1, w5) /\
    ledger w5 H' R.
Proof.
  intros [(_ & Hcq & _ & _ & Hvc) Houts _] [[_ Hall _] [Hc Hc1] [Hso Hsp] _ _] Hl Hs HH Hox Hop.
  rewrite !Forall_cons in Houts. rewrite !Forall_cons in Hall. destruct Houts as ((_ & _ & _ & Hvo) & (_ & _ & _ & Hvp) & _).
  destruct Hall as ((_ & Hlp & _ & _) & (_ & Hlo & _ & _) & (_ & Hlc & [_ Hcf] & _) & _).
  destruct (fits_slot w4 _ _ x loc Hso Hox) as [Hfo Hho].
  set (po' := match parent with Some q => put_item q 1 po | None => put_item 0 0 po end).
  assert (Hpo : fits w4 m_parent_out po' /\ in_hand po' = option_list parent /\
    location_id po' = location_id po /\ ticket_of m_parent_out po' = ticket_of m_parent_out po).
  { unfold po'. destruct parent as [q|].
    - destruct (fits_slot w4 _ _ q loc Hsp (Hop q eq_refl)) as [Hf Hh]. by rewrite Hh.
    - split; [by apply fits_empty|done]. }
  destruct Hpo as (Hfp & Hhp & Hlp' & Htp).
  assert (Hfc : fits w4 m_child_in (put_item 0 0 ci)).
  { apply fits_none; [done|]. intros _. simpl. destruct Hvc as (i & Hi & _). specialize (Hcf i Hi).
    rewrite Hcq in Hcf. lia. }
  destruct (handover_all [(push m_child_in (put_item 0 0 ci), m_child_in, put_item 0 0 ci);
     (push m_child_out (put_item x 1 co), m_child_out, put_item x 1 co);
     (push m_parent_out po', m_parent_out, po')] w4 H' R) as (w5 & Hrun & _ & Hl5 & _).
  - rewrite !Forall_cons, Forall_nil, Hs, Hlp', Hlp. cbn [put_item set_item_count set_item0 location_id].
    rewrite Hlo, Hlc. auto 10 using push_handover.
  - csimpl. rewrite Hho, Hhp, Htp. eapply ledger_perm; [..|exact Hl].
    + rewrite HH, app_nil_r. solve_Permutation.
    + unfold ticket_of. simpl. solve_Permutation.
  - inversion_clear Hrun as [|? ? r1 ? v1 ? Hr1 Hrun'].
    inversion_clear Hrun' as [|? ? r2 ? v2 ? Hr2 Hrun].
    inversion_clear Hrun as [|? ? r3 ? v3 ? Hr3 Hend]; inversion Hend; subst.
    unfold fold_push_all. mstep Hr1. mstep Hr2. mstep Hr3. by exists w5.
Qed.

(** A folding arrow that gets all it needs conserves events.  When the three pulls
    succeed, the child goes back through its output, every reservation is settled, and if
    the child was the last holder of its parent, the parent goes out too; exactly one
    message is counted.  A child of the wrong level, or one whose parent is missing or of the
    wrong level, makes the exception escape with the child still checked out.  No
    assertion of a queue or pool fails.  When a pull fails, whatever had been pulled stays
    checked out (see the next theorem). *)
Theorem fold_conserves_events w H R loc :
  ledger w H R -> fold_places w H loc ->
  exists o w',
    fold_execute m_parent_level m_child_level m_child_in m_child_out m_parent_out loc w = (o, w') /\
    fold_result H R o w'.
Proof.
  intros Hl Hpl. unfold fold_execute.
  destruct (fold_try_pull_all_ok w H R loc Hl Hpl) as (b & ci & co & po & w3 & Hpull & Hres).
  mstep Hpull. cbn [fst snd]. destruct b.
  2:{ destruct Hres as (l & [_ _ Hl3]). eexists _, w3. split; [done|]. split; [done|]. by eexists _, _. }
  destruct Hres as (x & Hpd). pose proof Hpd as [[Hs3 _ Hl3] [Hx Hx1] [[Hco _] [Hpo _]] Hpools (k & mb & Hk & Hmb & Hsrc)].
  csimpl in Hl3. rewrite !app_nil_r, (in_hand_zero co Hco), (in_hand_zero po Hpo), <- !app_assoc in Hl3.
  replace (in_hand ci) with [x] in Hl3 by (unfold in_hand; rewrite Hx1; destruct (items ci); by simplify_eq/=).
  cbn [app] in Hl3. unfold item0. rewrite Hx, M_bind_ret.
  destruct (tame_read (x :: H) x ltac:(set_solver) w3 _ Hl3) as (r & w3' & Hr & Hne & _).
  destruct (held_pool _ _ _ x Hl3) as (i & p & c & Hf & _ & Hc); [set_solver|].
  assert (Hread : read_event x w3 = (Ok c, w3)) by (simpl; by rewrite Hf, Hc). mstep Hread.
  assert (Hthrow : forall w' e, ledger w' (x :: H) (ticket_of m_parent_out po ++ ticket_of m_child_out co ++
    ticket_of m_child_in ci ++ R) -> fold_result H R (Throw e) w').
  { intros w' e Hl'. exists x, (ticket_of m_parent_out po ++ ticket_of m_child_out co ++ ticket_of m_child_in ci).
    by rewrite <- !app_assoc. }
  destruct (negb _); [eexists _, w3; split; [done|]; by apply Hthrow|].
  destruct (fp_owner _ _ _ Hpl k mb x Hk Hmb Hsrc) as [Hox Hpar].
  pose proof (read_event_pools _ _ _ _ Hpools Hread) as Hread0.
  destruct (release_parent_ok (x :: H) _ w3 x c Hl3) as (rp & w4 & Hrp & Hnu & Hl4 & Hs4 & Ho4 & Hq);
    [set_solver|done|intros pr Hpr; destruct (Hpar c pr Hread0 Hpr); set_solver|].
  assert (Howned : forall j y, owned w j y -> owned w4 j y).
  { intros j y (pj & Hpj & Hy). apply Ho4. exists pj. by rewrite Hpools. }
  destruct rp as [parent|e|]; [|erewrite M_bind_throw by exact Hrp; eexists _, w4; by auto|done].
  mstep Hrp.
  assert (Hpq : exists H', H ≡ₚ option_list parent ++ H' /\ forall q, parent = Some q -> output_for w4 loc m_parent_out q).
  { destruct parent as [q|]; [|by exists H]. destruct (Hq q eq_refl) as (pr & Hpr & <-).
    destruct (Hpar c pr Hread0 Hpr) as [Hin Hout]. apply elem_of_Permutation in Hin as [H' HH']. exists H'.
    split; [done|]. intros q' [= <-] j Hj Hj'. by apply Howned, Hout. }
  destruct Hpq as (H' & HH' & Hout).
  destruct (fold_push_all_ok w H H' R loc x ci co po w3 w4 parent Hpl Hpd Hl4) as (w5 & Hpush & Hl5);
    [congruence|done|intros j Hj Hj'; by apply Howned, Hox|done|].
  mstep Hpush. eexists _, w5. split; [done|]. split; [done|]. by exists parent, H'.
Qed.

(** A folding arrow loses the child when an output is full.  If the child is pulled but the child
    output has no room, [execute] reports [ComeBackLater] without giving anything
    back: the child is in no queue and remains checked out of its pool, and so does the slot
    in the input queue, where it was reserved. *)
Theorem fold_loses_child w H R loc ci w1 co w2 :
  ledger w H R -> fold_places w H loc ->
  pull m_child_in (make_data loc) [] w = (Ok (true, ci), w1) ->
  pull m_child_out (make_data loc) [] w1 = (Ok (false, co), w2) ->
  exists x, in_hand ci = [x] /\
    fold_execute m_parent_level m_child_level m_child_in m_child_out m_parent_out loc w
      = (Ok (ArrowMetrics.ComeBackLater, 0), w2) /\
    ledger w2 (x :: H) (ticket_of m_child_in ci ++ R) /\ x ∉ queue_items w2.
Proof.
  intros Hl [(Hci & Hcq & Hcmin & Hcmax & Hvc) Houts _] Hp1 Hp2.
  rewrite !Forall_cons in Houts. destruct Houts as ((Hoi & Homin & Homax & Hvo) & _).
  assert (H0 : holding (shape w) loc H R [] w) by (split; [done|constructor|done]).
  destruct (holding_pull _ _ _ _ _ _ m_child_in [] H0) as (b1 & d1 & w1' & Hp1' & H1 & (? & ? & P1) & _);
    [by split; [|lia]|intros ?; congruence|]. rewrite Hp1 in Hp1'. simplify_eq.
  destruct (holding_pull _ _ _ _ _ _ m_child_out [] H1) as (b2 & d2 & w2' & Hp2' & [_ _ H2] & _ & _);
    [by split; [|lia]|intros ? ?; congruence|]. rewrite Hp2 in Hp2'. simplify_eq.
  assert (Hc1 : item_count d1 = 1) by (pose proof (pd_max P1); pose proof (pd_input P1 eq_refl Hci); lia).
  destruct (in_hand_one d1 Hc1) as (y & Hy & Hhand); [destruct (pd_fits P1); lia|].
  csimpl in H2. rewrite !app_nil_r, Hhand in H2. exists y. split; [done|]. split; [|split; [done|]].
  - unfold fold_execute, fold_try_pull_all. rewrite M_bind_assoc. mstep Hp1. cbn [fst snd negb].
    rewrite M_bind_assoc. mstep Hp2. done.
  - pose proof (ledger_nodup _ _ _ H2) as (_ & Hd & _)%NoDup_app. intros Hy2. apply (Hd y Hy2). set_solver.
Qed.
End FoldConserves.

(** ** The event pool, and witnesses *)

(** [JEventPool]: a new event gets the pool's level; a released one is reset. *)
Definition event_item (m_level : JEventLevel) : Item JEvent := {|
  sizeof := 16;
  default_T := mkJEvent 0 0 0 false NoLevel [] 1 (-1);
  configure_item _ := mkJEvent 0 0 0 false m_level [] 1 (-1);
  release_item := Reset
|}.

Definition event_laws (m_level : JEventLevel) : @ItemLaws JEvent (event_item m_level).
Proof. by refine {| clean e := mReferenceCount e = 1 |}. Defined.

(** A pool of one time slice and one of two events; two queues, the first without room. *)
Definition slices : JPool JEvent := @init JEvent (event_item Timeslice) [1000] (mkJPool 1 1 true None ∅).
Definition physics : JPool JEvent := @init JEvent (event_item PhysicsEvent) [2000] (mkJPool 2 1 true None ∅).
Definition worldE : W := mkWorld [Mailbox.make 0 1 false; Mailbox.make 1 1 false] [slices; physics].

Definition take_slice : PlaceRef := mkPlaceRef (Some 0%nat) false true 1 1.
Definition take_event : PlaceRef := mkPlaceRef (Some 1%nat) false true 1 1.
Definition event_out : PlaceRef := mkPlaceRef (Some 1%nat) true false 1 1.
Definition event_in : PlaceRef := mkPlaceRef (Some 1%nat) true true 1 1.

Definition first_item (x n r : Z) : Data := mkData (<[0%nat := x]> (replicate 10 0)) n r 0.

(** A slice and an event are taken, the event becomes the slice's child, the unfolder lets go of the
    slice, and the event is put into the second queue. *)
Definition worldE1 : W := (@pull JEvent (event_item PhysicsEvent) take_slice (make_data 0) [9000] worldE).2.
Definition worldE2 : W := (@pull JEvent (event_item PhysicsEvent) take_event (make_data 0) [9016] worldE1).2.
Definition worldE3 : W := ((_ ← SetParent 2016 1000; Release 1000) worldE2).2.
Definition worldE4 : W := (@pull JEvent (event_item PhysicsEvent) event_out (make_data 0) [] worldE3).2.
Definition worldE5 : W := (@push JEvent (event_item PhysicsEvent) event_out
  (first_item 2016 1 1) worldE4).2.

Abbreviation ledgerE := (@ledger JEvent (event_item PhysicsEvent) (event_laws PhysicsEvent)).

(** The level that a pool gives to new events does not matter for its books. *)
Lemma pool_ok_level l1 l2 p out :
  @pool_ok JEvent (event_item l1) (event_laws l1) p out -> @pool_ok JEvent (event_item l2) (event_laws l2) p out.
Proof. intros (ps & heap & []). exists ps, heap. by split. Qed.

Lemma fresh_pool_ok l n base : (0 < n)%nat ->
  @pool_ok JEvent (event_item l) (event_laws l) (@init JEvent (event_item l) [base] (mkJPool n 1 true None ∅)) [].
Proof.
  intros Hn. eexists _, []. apply (@init_inv JEvent (event_item l) (event_laws l)); try done; try lia.
  intros [|j] [|k] pj pk Hne Hj Hk; by simplify_eq/=.
Qed.

Lemma worldE_ledger : ledgerE worldE [] [].
Proof.
  apply ledger_init.
  - intros [|[|i]] mb Hi; simplify_eq/=; [exists 0, 1, false|exists 1, 1, false]; (split; [lia|done]).
  - apply Forall_cons. split; [|apply Forall_singleton].
    + apply (pool_ok_level Timeslice), (fresh_pool_ok Timeslice 1 1000). lia.
    + apply (fresh_pool_ok PhysicsEvent 2 2000). lia.
  - assert (Hdis : forall x, is_Some (store slices !! x) -> is_Some (store physics !! x) -> False).
    { intros x. replace (store slices) with ({[1000 := mkJEvent 0 0 0 false Timeslice [] 1 (-1)]} : gmap Z JEvent)
        by (vm_compute; reflexivity).
      intros Hx. rewrite lookup_singleton_is_Some in Hx. subst x. vm_compute. by intros [? ?]. }
    intros [|[|i]] [|[|j]] x (p & Hi & Hp) (q & Hj & Hq); simplify_eq/=; try done; exfalso; eauto.
Qed.
(** What a pull that has been run leaves in the books. *)
Lemma pull_run w H R pl d fresh b d' w' :
  ledgerE w H R -> valid (shape w) pl (location_id d) ->
  0 <= min_item_count pl <= max_item_count pl -> max_item_count pl <= sizeZ (items d) ->
  @can_allocate JEvent (event_item PhysicsEvent) w pl fresh ->
  @pull JEvent (event_item PhysicsEvent) pl d fresh w = (Ok (b, d'), w') ->
  ledgerE w' (in_hand d' ++ H) (ticket_of pl d' ++ R).
Proof.
  intros Hl Hv Hmm Hmax Hf Hrun. destruct (pull_ledger w H R pl d fresh Hl Hv Hmm Hmax Hf) as (b1 & d1 & w1 & Hp & P).
  rewrite Hrun in Hp. simplify_eq. apply (pd_ledger P).
Qed.

(** In a concrete world: [new] may return these addresses, and a place is valid. *)
Ltac solve_fresh := intros _ _; split; [|done]; split; [apply NoDup_singleton|];
  intros [|[|i]] p Hp; [..|done]; vm_compute in Hp; injection Hp as <-;
  apply Forall_singleton; (split; [vm_compute; reflexivity|]); vm_compute; intros ? q [= <-] Hq;
  apply list_elem_of_singleton in Hq as ->; reflexivity.

Ltac solve_valid := eexists; split; [reflexivity|]; vm_compute; first [lia | eexists; split; [reflexivity|lia]].

Lemma worldE1_ledger : ledgerE worldE1 [1000] [].
Proof.
  apply (pull_run worldE [] [] take_slice (make_data 0) [9000] true (first_item 1000 1 0)); [apply worldE_ledger|solve_valid|by vm_compute
    |by vm_compute|solve_fresh|vm_compute; reflexivity].
Qed.

Lemma worldE2_ledger : ledgerE worldE2 [2016; 1000] [].
Proof.
  apply (pull_run worldE1 [1000] [] take_event (make_data 0) [9016] true (first_item 2016 1 0)); [apply worldE1_ledger|solve_valid
    |by vm_compute|by vm_compute|solve_fresh|vm_compute; reflexivity].
Qed.

Lemma worldE3_ledger : ledgerE worldE3 [2016; 1000] [].
Proof.
  assert (Ht : @tame _ (event_laws PhysicsEvent) _ [2016; 1000] (_ ← SetParent 2016 1000; Release 1000)).
  { apply tame_bind; [apply tame_SetParent; set_solver|intros _; apply tame_Release; set_solver]. }
  destruct (Ht worldE2 [] worldE2_ledger) as (r & w' & Hr & _ & Hl & _). unfold worldE3. by rewrite Hr.
Qed.

Lemma worldE5_ledger : ledgerE worldE5 [1000] [].
Proof.
  assert (Hl4 : ledgerE worldE4 [2016; 1000] [(1%nat, 0%nat, 1)]).
  { apply (pull_run worldE3 [2016; 1000] [] event_out (make_data 0) [] true (first_item 0 0 1)); [apply worldE3_ledger|solve_valid
      |by vm_compute|by vm_compute|by intros ?|vm_compute; reflexivity]. }
  destruct (push_handover event_out (first_item 2016 1 1) worldE4 [1000] [] Hl4)
    as (r & w' & Hr & _ & Hl & _); [solve_valid|by split|]. unfold worldE5. by rewrite Hr.
Qed.

(** The unfolder hangs on to the slice, with [take_event] and [event_out] for its children. *)
Definition unfold0 : UnfoldState := mkUnfoldState 1000 false (mkPlaceRef (Some 0%nat) true true 0 0).


(** The events in the second queue of [worldE5] belong to the two pools. *)
Lemma worldE5_places child_out :
  is_input child_out = false -> min_item_count child_out = 1 -> max_item_count child_out = 1 ->
  valid (shape worldE5) child_out 0 -> (is_queue child_out = false -> place_ref child_out = Some 1%nat) ->
  @fold_places event_in child_out (mkPlaceRef (Some 0%nat) false false 1 1) worldE5 [1000] 0.
Proof.
  intros Hi Hmin Hmax Hv Hq. split.
  - repeat (split; [done|]). solve_valid.
  - rewrite !Forall_cons, Forall_nil. repeat split; try done. solve_valid.
  - intros k mb x [= <-] Hmb Hx. vm_compute in Hmb. injection Hmb as <-. vm_compute in Hx.
    apply list_elem_of_singleton in Hx as ->. split.
    + intros i Hq' Hi'. rewrite (Hq Hq') in Hi'. injection Hi' as <-.
      eexists. split; [vm_compute; reflexivity|]. vm_compute. eauto.
    + intros e pr He Hpr. vm_compute in He. injection He as <-. vm_compute in Hpr. injection Hpr as <-.
      split; [set_solver|]. intros i _ [= <-]. eexists. split; [vm_compute; reflexivity|]. vm_compute. eauto.
Qed.

(** The last child is folded: both the event and its slice go back to their pools. *)
Lemma fold_conserves_events_witness :
  exists w',
    @fold_execute (event_item PhysicsEvent) Timeslice PhysicsEvent event_in
      (mkPlaceRef (Some 1%nat) false false 1 1) (mkPlaceRef (Some 0%nat) false false 1 1) 0 worldE5
    = (Ok (ArrowMetrics.KeepGoing, 1), w') /\
    @fold_result (event_item PhysicsEvent) (event_laws PhysicsEvent) [1000] [] (Ok (ArrowMetrics.KeepGoing, 1)) w'.
Proof.
  destruct (@fold_conserves_events (event_item PhysicsEvent) (event_laws PhysicsEvent) Timeslice PhysicsEvent
    event_in (mkPlaceRef (Some 1%nat) false false 1 1) (mkPlaceRef (Some 0%nat) false false 1 1) worldE5
    [1000] [] 0 worldE5_ledger) as (o & w' & Hrun & Hres).
  - apply worldE5_places; try done. solve_valid.
  - exists w'. assert (Ho : o = Ok (ArrowMetrics.KeepGoing, 1)) by (vm_compute in Hrun; congruence).
    rewrite Ho in *. split; [exact Hrun|exact Hres].
Defined.

(** The first queue has no room: the child is lost. *)
Lemma fold_loses_child_witness :
  exists w2 tickets,
    @fold_execute (event_item PhysicsEvent) Timeslice PhysicsEvent event_in
      (mkPlaceRef (Some 0%nat) true false 1 1) (mkPlaceRef (Some 0%nat) false false 1 1) 0 worldE5
    = (Ok (ArrowMetrics.ComeBackLater, 0), w2) /\ ledgerE w2 [2016; 1000] tickets /\ 2016 ∉ queue_items w2.
Proof.
  destruct (@fold_loses_child (event_item PhysicsEvent) (event_laws PhysicsEvent) Timeslice PhysicsEvent
    event_in (mkPlaceRef (Some 0%nat) true false 1 1) (mkPlaceRef (Some 0%nat) false false 1 1) worldE5
    [1000] [] 0 (first_item 2016 1 1)
    (@pull JEvent (event_item PhysicsEvent) event_in (make_data 0) [] worldE5).2 (first_item 0 0 0)
    (@pull JEvent (event_item PhysicsEvent) (mkPlaceRef (Some 0%nat) true false 1 1) (make_data 0) []
       (@pull JEvent (event_item PhysicsEvent) event_in (make_data 0) [] worldE5).2).2 worldE5_ledger)
    as (x & Hx & Hrun & Hl & Hn).
  - apply worldE5_places; try done. solve_valid.
  - vm_compute; reflexivity.
  - vm_compute; reflexivity.
  - injection Hx as <-. eexists _, _. split; [exact Hrun|]. split; [exact Hl|exact Hn].
Defined.
End FoldUnfold.
