(* ===== verification/JComponent.v ===== *)
(** * JComponent: what sources, processors and unfolders share

    Model of [Omni/JComponentFwd.h] and of the exception wrapper of [Omni/JComponent.h].
    Every callback of a user's component runs inside [CallWithJExceptionWrapper], which turns
    whatever it throws into a [JException] that names its origin.  The name that the
    runtime gives to the type of a foreign exception is the argument [demangle]. *)

From S2P Require Import Prelude.
Local Open Scope Z_scope.

Module Component.

Inductive Status := Uninitialized | Initialized | Opened | Closed | Finalized.

#[export] Instance Status_eq_dec : EqDecision Status.
Proof. solve_decision. Defined.

Inductive CallbackStyle := LegacyMode | ExpertMode | DeclarativeMode.

#[export] Instance CallbackStyle_eq_dec : EqDecision CallbackStyle.
Proof. solve_decision. Defined.

(** The names by which a component is known. *)
Record JComponent := mkJComponent {
  m_prefix : string;
  m_plugin_name : string;
  m_type_name : string
}.

(** [if (field.empty()) field = name]. *)
Definition if_empty (field name : string) : string := if decide (field = EmptyString) then name else field.

Section Wrapper.
Context (demangle : exn -> string).

(** The handlers of the wrapper. *)
Definition annotate (func_name : string) (c : JComponent) (e : exn) : exn :=
  match e with
  | EJ ex =>
      EJ (mkJException (exception_type ex) (message ex) (if_empty (plugin_name ex) (m_plugin_name c))
            (if_empty (type_name ex) (m_type_name c)) (if_empty (function_name ex) func_name)
            (if_empty (instance_name ex) (m_prefix c)))
  | EStd what =>
      EJ (mkJException (demangle e) what (m_plugin_name c) (m_type_name c) func_name (m_prefix c))
  | _ =>
      EJ (mkJException (demangle e) "Unknown exception" (m_plugin_name c) (m_type_name c) func_name (m_prefix c))
  end.

Definition CallWithJExceptionWrapper {S A} (c : JComponent) (func_name : string) (func : M S A) : M S A :=
  fun s => match func s with
           | (Throw e, s') => (Throw (annotate func_name c e), s')
           | r => r
           end.

Lemma wrapper_ok {S A} c fn (m : M S A) s a s' :
  m s = (Ok a, s') -> CallWithJExceptionWrapper c fn m s = (Ok a, s').
Proof. unfold CallWithJExceptionWrapper. by intros ->. Qed.

(** Only [JException]s leave a wrapped callback, and the innermost component is blamed.  Whatever a
    callback throws comes out as a [JException] with a function name; if it already was one,
    its message is unchanged; and when a named component's callback runs inside the callbacks
    of other components, further wrappers change nothing. *)
Theorem innermost_component_is_blamed {S A} (c : JComponent) (fn : string) (func : M S A)
    (outer : list (JComponent * string)) (s : S) :
  fn <> EmptyString ->
  m_prefix c <> EmptyString -> m_plugin_name c <> EmptyString -> m_type_name c <> EmptyString ->
  let inner := CallWithJExceptionWrapper c fn func in
  foldr (fun o m => CallWithJExceptionWrapper o.1 o.2 m) inner outer s = inner s /\
  forall e s', inner s = (Throw e, s') ->
    exists ex, e = EJ ex /\ function_name ex <> EmptyString /\ plugin_name ex <> EmptyString /\
      type_name ex <> EmptyString /\ instance_name ex <> EmptyString /\
      forall ex0, func s = (Throw (EJ ex0), s') -> message ex = message ex0.
Proof.
  intros Hfn Hp Hpl Ht inner.
  assert (Hempty : forall f n, n <> EmptyString -> if_empty f n <> EmptyString).
  { intros f n Hn. unfold if_empty. by case_decide. }
  assert (Hinner : forall e s', inner s = (Throw e, s') ->
    exists ex, e = EJ ex /\ function_name ex <> EmptyString /\ plugin_name ex <> EmptyString /\
      type_name ex <> EmptyString /\ instance_name ex <> EmptyString /\
      forall ex0, func s = (Throw (EJ ex0), s') -> message ex = message ex0).
  { intros e s' He. unfold inner, CallWithJExceptionWrapper in He. destruct (func s) as [[a|e0|] s0]; simplify_eq.
    destruct e0; simpl; eexists; (split; [reflexivity|]); simpl; repeat split; auto; intros; by simplify_eq. }
  split; [|done]. induction outer as [|[o f] outer IH]; [done|]. cbn [foldr fst snd].
  unfold CallWithJExceptionWrapper at 1. rewrite IH. destruct (inner s) as [[a|e|] s'] eqn:He; [done| |done].
  destruct (Hinner e s' eq_refl) as (ex & -> & H1 & H2 & H3 & H4 & _). simpl. unfold if_empty.
  rewrite !decide_False by done. by destruct ex.
Qed.

End Wrapper.

(** A factory that throws inside a processor. *)
Lemma innermost_component_is_blamed_witness :
  let c := mkJComponent "hits" "calo" "HitFactory" in
  let o := mkJComponent "proc" "ana" "Proc" in
  exists e s', CallWithJExceptionWrapper (fun _ => "int") o "Process"
      (CallWithJExceptionWrapper (fun _ => "int") c "Init" (fun n : nat => (Throw EOther : outcome unit, S n))) 0%nat
    = (Throw (EJ e), s') /\ type_name e = "HitFactory"%string /\ s' = 1%nat.
Proof.
  intros c o.
  destruct (innermost_component_is_blamed (fun _ => "int"%string) c "Init"
    (fun n : nat => (Throw EOther : outcome unit, S n)) [(o, "Process"%string)] 0%nat ltac:(done) ltac:(done) ltac:(done) ltac:(done))
    as [H1 H2].
  simpl in H1. eexists _, _. split; [exact H1|]. split; reflexivity.
Defined.

End Component.
