(* ===== verification/JEventSource.v ===== *)
(** * JEventSource: opening, skipping, counting, closing

    Model of [JEventSource.h] and of [Topology/JEventSourceArrow.cc].  The user's callbacks
    are the record [Callbacks]; they act on the user's own state and, where they are passed it, on
    the event.  [DoNext] runs under the component's mutex, so that each call is one step.
    The call graph recorder of the event, which the source resets, is not modelled. *)

From S2P Require Import Prelude JMetrics JEvent JComponent.
Import Event Component.
Local Open Scope Z_scope.

Module Source.

Inductive Result := Success | FailureTryAgain | FailureFinished.

#[export] Instance Result_eq_dec : EqDecision Result.
Proof. solve_decision. Defined.

Record JEventSource := mkSource {
  m_this : Z;
  m_component : JComponent;
  m_resource_name : string;
  m_callback_style : CallbackStyle;
  m_status : Status;
  m_event_count : Z;
  m_nskip : Z;
  m_nevents : Z;
  m_enable_free_event : bool
}.

Definition set_status (st : Status) (s : JEventSource) : JEventSource :=
  mkSource (m_this s) (m_component s) (m_resource_name s) (m_callback_style s) st (m_event_count s)
    (m_nskip s) (m_nevents s) (m_enable_free_event s).
Definition set_count (n : Z) (s : JEventSource) : JEventSource :=
  mkSource (m_this s) (m_component s) (m_resource_name s) (m_callback_style s) (m_status s) n
    (m_nskip s) (m_nevents s) (m_enable_free_event s).

(** The virtual methods, and the collections that the source's outputs insert. *)
Record Callbacks (U : Type) := mkCallbacks {
  Init : M U unit;
  Open : M U unit;
  Close : M U unit;
  Emit : M (JEvent * U) Result;
  GetEvent : M (JEvent * U) unit;
  FinishEvent : M (JEvent * U) unit;
  m_outputs : list (M (JEvent * U) unit)
}.
Arguments mkCallbacks {U} _ _ _ _ _ _ _.
Arguments Init {U} _.
Arguments Open {U} _.
Arguments Close {U} _.
Arguments Emit {U} _.
Arguments GetEvent {U} _.
Arguments FinishEvent {U} _.
Arguments m_outputs {U} _.

Section Operations.
Context (demangle : exn -> string) {U : Type} (cb : Callbacks U).
Abbreviation St := (JEventSource * (JEvent * U))%type.

Definition get_source : M St JEventSource := fun s => (Ok s.1, s).
Definition modify_source (f : JEventSource -> JEventSource) : M St unit := fun s => (Ok tt, (f s.1, s.2)).
Definition modify_event (f : JEvent -> JEvent) : M St unit := fun s => (Ok tt, (s.1, (f s.2.1, s.2.2))).
Definition on_user {A} (m : M U A) : M St A := fun s =>
  let '(r, u) := m s.2.2 in (r, (s.1, (s.2.1, u))).
Definition on_event {A} (m : M (JEvent * U) A) : M St A := fun s =>
  let '(r, eu) := m s.2 in (r, (s.1, eu)).

(** [CallWithJExceptionWrapper] of the source itself. *)
Definition wrapped {A} (fn : string) (m : M St A) : M St A := fun s =>
  CallWithJExceptionWrapper demangle (m_component s.1) fn m s.

Definition DoInit : M St unit :=
  src ← get_source;
  if decide (m_status src = Uninitialized) then
    _ ← wrapped "JEventSource::Init" (on_user (Init cb));
    modify_source (set_status Initialized)
  else throwM "Attempted to initialize a JEventSource that is not uninitialized!".

Definition DoOpen : M St unit :=
  src ← get_source;
  if decide (m_status src = Initialized) then
    _ ← wrapped "JEventSource::Open" (on_user (Open cb));
    modify_source (set_status Opened)
  else throwM "Attempted to open a JEventSource that hasn't been initialized!".

Definition DoClose : M St unit :=
  src ← get_source;
  if decide (m_status src = Opened) then
    _ ← wrapped "JEventSource::Close" (on_user (Close cb));
    modify_source (set_status Closed)
  else mret tt.

Definition open_if_initialized : M St unit :=
  src ← get_source;
  if decide (m_status src = Initialized) then DoOpen else mret tt.

Definition count_event : M St unit := modify_source (fun s => set_count (u64 (m_event_count s + 1)) s).

(** [m_nevents != 0 && m_event_count == last_evt_nr]. *)
Definition limit_reached (src : JEventSource) : bool :=
  negb (m_nevents src =? 0) && (m_event_count src =? u64 (m_nevents src + m_nskip src)).

(** The body of the [try] block. *)
Definition compatibility_body : M St Result :=
  _ ← open_if_initialized;
  src ← get_source;
  match m_status src with
  | Opened =>
      if m_event_count src <? m_nskip src then
        _ ← modify_event (SetEventNumber (m_event_count src));
        _ ← on_event (GetEvent cb);
        _ ← count_event;
        mret FailureTryAgain
      else if limit_reached src then
        _ ← DoClose;
        mret FailureFinished
      else
        _ ← modify_event (fun e =>
              SetSequential false (SetJEventSource (m_this src) (SetEventNumber (m_event_count src) e)));
        _ ← on_event (GetEvent cb);
        _ ← for_each (m_outputs cb) on_event;
        _ ← count_event;
        mret Success
  | Closed => mret FailureFinished
  | _ => throwM "Invalid m_status"
  end.

Definition DoNextCompatibility : M St Result := fun s =>
  match compatibility_body s with
  | (Throw (EReturn rs), s') =>
      match rs with
      | kNO_MORE_EVENTS => (_ ← DoClose; mret FailureFinished) s'
      | kTRY_AGAIN | kBUSY => (Ok FailureTryAgain, s')
      | kERROR | kUNKNOWN =>
          (Throw (EJ (mkJException EmptyString "JEventSource threw RETURN_STATUS::kERROR or kUNKNOWN"
             (m_plugin_name (m_component s'.1)) (m_type_name (m_component s'.1)) "JEventSource::GetEvent"
             (m_resource_name s'.1))), s')
      | kSUCCESS => (Ok Success, s')
      end
  | (Throw e, s') => (Throw (annotate demangle "JEventSource::GetEvent" (m_component s'.1) e), s')
  | r => r
  end.

Definition DoNext : M St Result :=
  src0 ← get_source;
  if decide (m_status src0 = Uninitialized) then throwM "JEventSource has not been initialized!" else
  if decide (m_callback_style src0 = LegacyMode) then DoNextCompatibility else
  let first_evt_nr := m_nskip src0 in
  _ ← open_if_initialized;
  src ← get_source;
  if decide (m_status src = Opened) then
    if limit_reached src then
      _ ← DoClose;
      mret FailureFinished
    else
      _ ← modify_event (fun e =>
            SetSequential false (SetJEventSource (m_this src) (SetEventNumber (m_event_count src) e)));
      result ← wrapped "JEventSource::Emit" (on_event (Emit cb));
      match result with
      | Success =>
          _ ← count_event;
          _ ← for_each (m_outputs cb) on_event;
          src' ← get_source;
          if m_event_count src' <=? first_evt_nr then mret FailureTryAgain else mret Success
      | FailureFinished => _ ← DoClose; mret FailureFinished
      | FailureTryAgain => mret FailureTryAgain
      end
  else mret FailureFinished.

Definition DoFinish : M St unit :=
  src ← get_source;
  if m_enable_free_event src then wrapped "JEventSource::FinishEvent" (on_event (FinishEvent cb)) else mret tt.

End Operations.

(** How the primitive steps run. *)
Section Steps.
Context (demangle : exn -> string) {U A : Type}.
Implicit Type s : JEventSource * (JEvent * U).

Lemma bind_get_source (k : JEventSource -> M _ A) s : (x ← get_source; k x) s = k s.1 s.
Proof. done. Qed.

Lemma bind_modify_source f (k : unit -> M _ A) s : (x ← modify_source f; k x) s = k tt (f s.1, s.2).
Proof. done. Qed.

Lemma bind_modify_event f (k : unit -> M _ A) s : (x ← modify_event f; k x) s = k tt (s.1, (f s.2.1, s.2.2)).
Proof. done. Qed.

Lemma bind_wrapped_modify fn f (k : unit -> M _ A) s :
  (x ← wrapped demangle fn (on_user (modify f)); k x) s = k tt (s.1, (s.2.1, f s.2.2)).
Proof. done. Qed.
End Steps.

Create Rewrite HintDb source.
#[export] Hint Rewrite @bind_get_source @bind_modify_source @bind_modify_event @bind_wrapped_modify @M_bind_ret : source.

(** ** What a source does, whatever its callback style *)

(** A source over a stream that answers one request at a time. *)
Record stream (U : Type) := mkStream {
  sp_status : Status;
  sp_count : Z;
  sp_user : U;
  sp_opens : nat;
  sp_closes : nat
}.
Arguments mkStream {U} _ _ _ _ _.
Arguments sp_status {U} _.
Arguments sp_count {U} _.
Arguments sp_user {U} _.
Arguments sp_opens {U} _.
Arguments sp_closes {U} _.

Section Spec.
Context {U : Type} (emit : Z -> U -> Result * U) (nskip nevents : Z).

Definition spec_close (t : stream U) : stream U :=
  mkStream Closed (sp_count t) (sp_user t) (sp_opens t) (S (sp_closes t)).

(** Ask the opened stream for its next entry: the first [nskip] are dropped, and nothing is
    read beyond [nevents] more, unless that is 0. *)
Definition spec_read (t : stream U) : Result * stream U :=
  if negb (nevents =? 0) && (sp_count t =? nskip + nevents) then (FailureFinished, spec_close t)
  else let '(r, u) := emit (sp_count t) (sp_user t) in
    match r with
    | Success => (if sp_count t <? nskip then FailureTryAgain else Success,
                  mkStream Opened (sp_count t + 1) u (sp_opens t) (sp_closes t))
    | FailureTryAgain => (FailureTryAgain, mkStream Opened (sp_count t) u (sp_opens t) (sp_closes t))
    | FailureFinished => (FailureFinished, spec_close (mkStream Opened (sp_count t) u (sp_opens t) (sp_closes t)))
    end.

Definition spec_next (t : stream U) : Result * stream U :=
  match sp_status t with
  | Initialized => spec_read (mkStream Opened (sp_count t) (sp_user t) (S (sp_opens t)) (sp_closes t))
  | Opened => spec_read t
  | _ => (FailureFinished, t)
  end.

(** Callbacks that read the stream, and count how often they are opened and closed.  A legacy source says by an
    exception what the new interface returns. *)
Definition stream_emit : M (JEvent * (U * (nat * nat))) Result := fun s =>
  let '(r, u) := emit (mEventNumber s.1) s.2.1 in (Ok r, (s.1, (u, s.2.2))).

Definition stream_callbacks : Callbacks (U * (nat * nat)) := {|
  Init := mret tt;
  Open := modify (fun s => (s.1, (S s.2.1, s.2.2)));
  Close := modify (fun s => (s.1, (s.2.1, S s.2.2)));
  Emit := stream_emit;
  GetEvent := r ← stream_emit;
    match r with
    | Success => mret tt
    | FailureTryAgain => lift (Throw (EReturn kTRY_AGAIN))
    | FailureFinished => lift (Throw (EReturn kNO_MORE_EVENTS))
    end;
  FinishEvent := mret tt;
  m_outputs := []
|}.

Context (demangle : exn -> string).

(** The source is at the state [t] of the stream. *)
Definition at_stream (t : stream U) (src : JEventSource) (u : U * (nat * nat)) : Prop :=
  m_status src = sp_status t /\ m_event_count src = sp_count t /\ m_nskip src = nskip /\ m_nevents src = nevents /\
  u = (sp_user t, (sp_opens t, sp_closes t)).

Context (Hnskip : 0 <= nskip) (Hnevents : 0 <= nevents) (Hbound : nskip + nevents < 2 ^ 64).

Lemma limit_reached_at t src u : at_stream t src u ->
  limit_reached src = negb (nevents =? 0) && (sp_count t =? nskip + nevents).
Proof.
  intros (_ & Hc & Hs & He & _). unfold limit_reached. rewrite Hc, Hs, He, u64_small by lia. by rewrite (Z.add_comm nevents).
Qed.

Lemma DoClose_at t src e u : at_stream t src u -> sp_status t = Opened ->
  exists src' u', DoClose demangle stream_callbacks (src, (e, u)) = (Ok tt, (src', (e, u'))) /\
    at_stream (spec_close t) src' u' /\ m_callback_style src' = m_callback_style src.
Proof.
  intros (Hst & Hc & Hs & He & ->) Ho. unfold DoClose. autorewrite with source. cbn [fst snd].
  rewrite decide_True by congruence. cbn [Close stream_callbacks]. autorewrite with source.
  eexists _, _. split; [reflexivity|]. split; [|done]. by repeat split.
Qed.

(** Opening the stream, if it is not open yet. *)
Lemma open_at t src e u : at_stream t src u -> sp_status t = Initialized \/ sp_status t = Opened ->
  exists t1 src' u', open_if_initialized demangle stream_callbacks (src, (e, u)) = (Ok tt, (src', (e, u'))) /\
    at_stream t1 src' u' /\ sp_status t1 = Opened /\ sp_count t1 = sp_count t /\
    m_callback_style src' = m_callback_style src /\ spec_next t = spec_read t1.
Proof.
  intros Hat Hst. pose proof Hat as (Hs & Hc & Hk & He & Hu). unfold open_if_initialized.
  autorewrite with source. cbn [fst snd]. destruct Hst as [Hi|Ho].
  - rewrite decide_True by congruence. unfold DoOpen. autorewrite with source. cbn [fst snd].
    rewrite decide_True by congruence. cbn [Open stream_callbacks]. autorewrite with source.
    exists (mkStream Opened (sp_count t) (sp_user t) (S (sp_opens t)) (sp_closes t)). eexists _, _.
    split; [reflexivity|]. subst u. split; [by repeat split|]. repeat split. unfold spec_next. by rewrite Hi.
  - rewrite decide_False by congruence. exists t, src, u. repeat (split; [done|]). unfold spec_next. by rewrite Ho.
Qed.

(** [m] answers as the stream does, and a successful answer carries the next number. *)
Definition answers (m : M (JEventSource * (JEvent * (U * (nat * nat)))) Result) (t0 : stream U)
    (answer : Result * stream U) src e u : Prop :=
  exists src' e' u', m (src, (e, u)) = (Ok answer.1, (src', (e', u'))) /\ at_stream answer.2 src' u' /\
    m_callback_style src' = m_callback_style src /\ (answer.1 = Success -> mEventNumber e' = sp_count t0).

Lemma count_at t src e u : at_stream t src u -> 0 <= sp_count t < 2 ^ 64 - 1 ->
  exists src', count_event (src, (e, u)) = (Ok tt, (src', (e, u))) /\
    at_stream (mkStream (sp_status t) (sp_count t + 1) (sp_user t) (sp_opens t) (sp_closes t)) src' u /\
    m_callback_style src' = m_callback_style src.
Proof.
  intros (Hs & Hc & Hk & He & Hu) Hb. eexists. split; [reflexivity|]. split; [|done].
  repeat split; try done. cbn. rewrite Hc, u64_small; [done|lia].
Qed.

Lemma expert_read_at t src e u :
  at_stream t src u -> sp_status t = Opened -> 0 <= sp_count t < 2 ^ 64 - 1 ->
  answers
    (src ← get_source;
     if decide (m_status src = Opened) then
       if limit_reached src then
         _ ← DoClose demangle stream_callbacks;
         mret FailureFinished
       else
         _ ← modify_event (fun e =>
               SetSequential false (SetJEventSource (m_this src) (SetEventNumber (m_event_count src) e)));
         result ← wrapped demangle "JEventSource::Emit" (on_event (Emit stream_callbacks));
         match result with
         | Success =>
             _ ← count_event;
             _ ← for_each (m_outputs stream_callbacks) on_event;
             src' ← get_source;
             if m_event_count src' <=? nskip then mret FailureTryAgain else mret Success
         | FailureFinished => _ ← DoClose demangle stream_callbacks; mret FailureFinished
         | FailureTryAgain => mret FailureTryAgain
         end
     else mret FailureFinished) t (spec_read t) src e u.
Proof.
  intros Hat Ho Hb. pose proof Hat as (Hs & Hc & Hk & He & Hu). unfold answers.
  autorewrite with source. cbn [fst snd]. rewrite decide_True by congruence.
  rewrite (limit_reached_at t src u Hat). unfold spec_read. destruct (negb _ && _).
  { destruct (DoClose_at t src e u Hat Ho) as (src' & u' & Hcl & Hat' & Hsty). mstep Hcl.
    by eexists src', e, u'. }
  autorewrite with source. cbn [fst snd].
  set (e1 := SetSequential false _). subst u. cbn [Emit stream_callbacks].
  destruct (emit (sp_count t) (sp_user t)) as [r u1] eqn:Hemit.
  set (t1 := mkStream Opened (sp_count t) u1 (sp_opens t) (sp_closes t)).
  assert (Hrun : wrapped demangle "JEventSource::Emit" (on_event stream_emit)
      (src, (e1, (sp_user t, (sp_opens t, sp_closes t)))) = (Ok r, (src, (e1, (u1, (sp_opens t, sp_closes t)))))).
  { unfold wrapped, CallWithJExceptionWrapper, on_event, stream_emit. cbn. by rewrite Hc, Hemit. }
  mstep Hrun.
  assert (Hat1 : at_stream t1 src (u1, (sp_opens t, sp_closes t))) by (repeat split; try done; simpl; congruence).
  destruct r.
  - destruct (count_at t1 src e1 _ Hat1 Hb) as (src' & Hcount & Hat' & Hsty). mstep Hcount.
    cbn [m_outputs stream_callbacks for_each]. autorewrite with source. cbn [fst snd].
    pose proof Hat' as (_ & -> & _). cbn [sp_count t1].
    destruct (Z.leb_spec (sp_count t + 1) nskip), (Z.ltb_spec (sp_count t) nskip); try lia;
      by eexists src', e1, _.
  - by eexists src, e1, _.
  - destruct (DoClose_at t1 src e1 _ Hat1 eq_refl) as (src' & u' & Hcl & Hat' & Hsty). mstep Hcl.
    by eexists src', e1, u'.
Qed.

(** The callback of a legacy source. *)
Lemma get_event_at t src e :
  mEventNumber e = sp_count t ->
  on_event (GetEvent stream_callbacks) (src, (e, (sp_user t, (sp_opens t, sp_closes t)))) =
  let '(r, u1) := emit (sp_count t) (sp_user t) in
  (match r with
   | Success => Ok tt
   | FailureTryAgain => Throw (EReturn kTRY_AGAIN)
   | FailureFinished => Throw (EReturn kNO_MORE_EVENTS)
   end, (src, (e, (u1, (sp_opens t, sp_closes t))))).
Proof.
  intros He. unfold on_event. cbn. unfold mbind, M_bind, stream_emit. cbn. rewrite He.
  by destruct (emit (sp_count t) (sp_user t)) as [[] u1].
Qed.

Lemma legacy_next_at t src e u :
  at_stream t src u -> sp_status t = Initialized \/ sp_status t = Opened -> 0 <= sp_count t < 2 ^ 64 - 1 ->
  answers (DoNextCompatibility demangle stream_callbacks) t (spec_next t) src e u.
Proof.
  intros Hat Hst Hb.
  destruct (open_at t src e u Hat Hst) as (t1 & src1 & u1 & Hopen & Hat1 & Ho & Hcnt & Hsty & ->).
  unfold answers, DoNextCompatibility, compatibility_body. erewrite M_bind_ok by exact Hopen.
  autorewrite with source. cbn [fst snd]. pose proof Hat1 as (Hs & Hc & Hk & He & ->). rewrite Hs, Ho, Hc, Hk.
  rewrite (limit_reached_at t1 src1 _ Hat1). unfold spec_read. rewrite <- Hcnt in *.
  destruct (Z.ltb_spec (sp_count t1) nskip) as [Hskip|Hskip].
  - replace (negb (nevents =? 0) && (sp_count t1 =? nskip + nevents)) with false
      by (symmetry; apply andb_false_iff; right; apply Z.eqb_neq; lia).
    autorewrite with source. cbn [fst snd]. unfold mbind at 1, M_bind at 1. rewrite get_event_at by done.
    destruct (emit (sp_count t1) (sp_user t1)) as [r u2].
    set (t2 := mkStream Opened (sp_count t1) u2 (sp_opens t1) (sp_closes t1)).
    assert (Hat2 : at_stream t2 src1 (u2, (sp_opens t1, sp_closes t1))) by (repeat split; try done; simpl; congruence).
    destruct r.
    + destruct (count_at t2 src1 (SetEventNumber (sp_count t1) e) _ Hat2 Hb) as (src' & Hcount & Hat' & Hsty').
      mstep Hcount. eexists src', _, _. repeat (split; [done|]). split; [congruence|done].
    + by eexists src1, _, _.
    + destruct (DoClose_at t2 src1 (SetEventNumber (sp_count t1) e) _ Hat2 eq_refl) as (src' & u' & Hcl & Hat' & Hsty').
      mstep Hcl. eexists src', _, u'. repeat (split; [done|]). split; [congruence|done].
  - destruct (negb (nevents =? 0) && (sp_count t1 =? nskip + nevents)).
    { destruct (DoClose_at t1 src1 e _ Hat1 Ho) as (src' & u' & Hcl & Hat' & Hsty'). mstep Hcl.
      eexists src', e, u'. repeat (split; [done|]). split; [congruence|done]. }
    autorewrite with source. cbn [fst snd]. set (e1 := SetSequential false _).
    unfold mbind at 1, M_bind at 1. rewrite get_event_at by done.
    destruct (emit (sp_count t1) (sp_user t1)) as [r u2].
    set (t2 := mkStream Opened (sp_count t1) u2 (sp_opens t1) (sp_closes t1)).
    assert (Hat2 : at_stream t2 src1 (u2, (sp_opens t1, sp_closes t1))) by (repeat split; try done; simpl; congruence).
    destruct r.
    + cbn [m_outputs stream_callbacks for_each]. autorewrite with source.
      destruct (count_at t2 src1 e1 _ Hat2 Hb) as (src' & Hcount & Hat' & Hsty').
      mstep Hcount. eexists src', _, _. repeat (split; [done|]). split; [congruence|done].
    + by eexists src1, _, _.
    + destruct (DoClose_at t2 src1 e1 _ Hat2 eq_refl) as (src' & u' & Hcl & Hat' & Hsty').
      mstep Hcl. eexists src', _, u'. repeat (split; [done|]). split; [congruence|done].
Qed.

(** The source has been initialized, and has not been finalized. *)
Definition started (t : stream U) : Prop :=
  sp_status t = Initialized \/ sp_status t = Opened \/ sp_status t = Closed.

Lemma DoNext_at t src e u :
  at_stream t src u -> started t -> 0 <= sp_count t < 2 ^ 64 - 1 ->
  answers (DoNext demangle stream_callbacks) t (spec_next t) src e u.
Proof.
  intros Hat Hst Hb. pose proof Hat as (Hs & Hc & Hk & He & Hu).
  unfold answers, DoNext. autorewrite with source. cbn [fst snd].
  rewrite decide_False by (unfold started in Hst; naive_solver congruence).
  destruct Hst as [Hi|[Ho|Hcl]].
  1,2: destruct (decide (m_callback_style src = LegacyMode)); [by eapply legacy_next_at; auto|];
    destruct (open_at t src e u Hat ltac:(auto)) as (t1 & src1 & u1 & Hopen & Hat1 & Ho1 & Hcnt & Hsty & ->);
    mstep Hopen; rewrite <- Hcnt in *;
    destruct (expert_read_at t1 src1 e u1 Hat1 Ho1 Hb) as (src' & e' & u' & Hrun & Hat' & Hsty' & Hnum);
    rewrite Hk; exists src', e', u'; rewrite Hsty' by done; auto.
  unfold spec_next. rewrite Hcl. exists src, e, u. split; [|done].
  case_decide.
  - unfold DoNextCompatibility, compatibility_body, open_if_initialized. autorewrite with source. cbn [fst snd].
    rewrite M_bind_assoc. autorewrite with source. cbn [fst snd]. rewrite decide_False by congruence.
    autorewrite with source. cbn [fst snd]. by rewrite Hs, Hcl.
  - unfold open_if_initialized. rewrite M_bind_assoc. autorewrite with source. cbn [fst snd].
    rewrite decide_False by congruence. autorewrite with source. cbn [fst snd]. by rewrite decide_False by congruence.
Qed.

(** C35: an event source does the same whichever way its callbacks are written.  Legacy sources, which
    throw status codes from [GetEvent], and new-style ones, which return them from [Emit],
    both implement the stream specification: the stream is opened by the first
    request, entries below [nskip] are dropped, the [nevents] limit closes it, the end of the
    stream closes it, an entry that is handed out carries the running number of the entry, and
    a closed stream answers without calling the user. *)
Theorem source_refines_stream t src e u :
  at_stream t src u -> started t -> 0 <= sp_count t < 2 ^ 64 - 1 ->
  exists src' e' u',
    DoNext demangle stream_callbacks (src, (e, u)) = (Ok (spec_next t).1, (src', (e', u'))) /\
    at_stream (spec_next t).2 src' u' /\ m_callback_style src' = m_callback_style src /\
    ((spec_next t).1 = Success -> mEventNumber e' = sp_count t).
Proof. apply DoNext_at. Qed.

(** Requests with the events [es], one after the other. *)
Definition serve_one (e : JEvent) : M (JEventSource * (U * (nat * nat))) (Result * Z) := fun s =>
  let '(o, (src, (e', u))) := DoNext demangle stream_callbacks (s.1, (e, s.2)) in
  (match o with Ok r => Ok (r, mEventNumber e') | Throw x => Throw x | Undef => Undef end, (src, u)).

Fixpoint serve (es : list JEvent) : M (JEventSource * (U * (nat * nat))) (list (Result * Z)) :=
  match es with
  | [] => mret []
  | e :: es => r ← serve_one e; rs ← serve es; mret (r :: rs)
  end.

(** The numbers of the events that were handed out. *)
Definition handed_out (rs : list (Result * Z)) : list Z :=
  omap (fun r => match r.1 with Success => Some r.2 | _ => None end) rs.

Inductive spec_run : stream U -> list (Result * Z) -> stream U -> Prop :=
| sr_nil t : spec_run t [] t
| sr_cons t r n t1 rs t2 :
    spec_next t = (r, t1) -> (r = Success -> n = sp_count t) -> spec_run t1 rs t2 -> spec_run t ((r, n) :: rs) t2.

Lemma spec_next_started t r t1 : started t -> spec_next t = (r, t1) ->
  started t1 /\ sp_count t <= sp_count t1 <= sp_count t + 1.
Proof.
  unfold started, spec_next, spec_read. intros [Hs|[Hs|Hs]]; rewrite Hs; repeat case_match; intros; simplify_eq/=; auto with lia.
Qed.

Lemma serve_at es : forall t src u,
  at_stream t src u -> started t -> 0 <= sp_count t -> sp_count t + sizeZ es < 2 ^ 64 - 1 ->
  exists rs t' src' u', serve es (src, u) = (Ok rs, (src', u')) /\ at_stream t' src' u' /\ spec_run t rs t' /\
    length rs = length es.
Proof.
  induction es as [|e es IH]; intros t src u Hat Hst H0 Hb; simpl.
  { exists [], t, src, u. repeat (split; [done|]). split; [constructor|done]. }
  rewrite sizeZ_cons in Hb. pose proof (sizeZ_nonneg es).
  destruct (DoNext_at t src e u Hat Hst ltac:(lia)) as (src1 & e1 & u1 & Hrun & Hat1 & _ & Hnum).
  destruct (spec_next t) as [r t1] eqn:Hnext. destruct (spec_next_started t r t1 Hst Hnext) as [Hst1 Hc1].
  destruct (IH t1 src1 u1 Hat1 Hst1 ltac:(lia) ltac:(lia)) as (rs & t' & src' & u' & Hserve & Hat' & Hsr & Hlen).
  assert (Hone : serve_one e (src, u) = (Ok (r, mEventNumber e1), (src1, u1))).
  { unfold serve_one. cbn [fst snd]. by rewrite Hrun. }
  mstep Hone. mstep Hserve. eexists _, t', src', u'. split; [reflexivity|]. split; [done|].
  split; [by eapply sr_cons|]. simpl. by rewrite Hlen.
Qed.

(** The stream has been opened and closed as often as its status says. *)
Definition opened_once (t : stream U) : Prop :=
  match sp_status t with
  | Initialized => sp_opens t = 0%nat /\ sp_closes t = 0%nat
  | Opened => sp_opens t = 1%nat /\ sp_closes t = 0%nat
  | Closed => sp_opens t = 1%nat /\ sp_closes t = 1%nat
  | _ => False
  end.

(** What one request does to the counters. *)
Lemma spec_next_inv t r t1 :
  spec_next t = (r, t1) -> opened_once t -> (nevents <> 0 -> sp_count t <= nskip + nevents) ->
  opened_once t1 /\ (nevents <> 0 -> sp_count t1 <= nskip + nevents) /\
  Z.max (sp_count t1) nskip = Z.max (sp_count t) nskip + (if decide (r = Success) then 1 else 0) /\
  (r = Success -> nskip <= sp_count t) /\ (r = FailureFinished <-> sp_status t1 = Closed) /\
  (sp_status t1 <> Initialized) /\ (sp_status t = Closed -> t1 = t).
Proof.
  unfold spec_next, spec_read, opened_once. intros Hn Ho Hb.
  destruct (sp_status t) eqn:Hs; repeat case_match; simplify_eq/=; rewrite ?Hs in *; try done;
    repeat match goal with H : (_ && _) = false |- _ => apply andb_false_iff in H as [H|H] end;
    rewrite ?negb_false_iff, ?Z.eqb_eq, ?Z.eqb_neq, ?Z.ltb_lt, ?Z.ltb_ge in *;
    repeat case_decide; try done; repeat split; intros; simplify_eq/=; try done; try lia.
Qed.

Lemma spec_run_inv t rs t' :
  spec_run t rs t' -> opened_once t -> (nevents <> 0 -> sp_count t <= nskip + nevents) ->
  opened_once t' /\ (nevents <> 0 -> sp_count t' <= nskip + nevents) /\
  handed_out rs = seqZ (Z.max (sp_count t) nskip) (sizeZ (handed_out rs)) /\
  Z.max (sp_count t') nskip = Z.max (sp_count t) nskip + sizeZ (handed_out rs) /\
  (sp_status t' = Closed <-> sp_status t = Closed \/ FailureFinished ∈ rs.*1).
Proof.
  induction 1 as [t|t r n t1 rs t' Hn Hnum _ IH]; intros Ho Hb.
  { repeat split; try done; [simpl; rewrite sizeZ_nil; lia|by left|]. intros [?|Hf]; [done|by apply not_elem_of_nil in Hf]. }
  destruct (spec_next_inv _ _ _ Hn Ho Hb) as (Ho1 & Hb1 & Hm & Hs & Hf & _ & Hcl).
  destruct (IH Ho1 Hb1) as (Ho' & Hb' & Hseq & Hm' & Hf'). repeat (split; [done|]).
  assert (Hcl' : sp_status t' = Closed <-> sp_status t = Closed \/ FailureFinished ∈ ((r, n) :: rs).*1).
  { rewrite Hf'. csimpl. rewrite elem_of_cons, <- Hf. split; [naive_solver|].
    intros [Hc|[->|?]]; [left; rewrite Hf; by rewrite (Hcl Hc)|auto|auto]. }
  unfold handed_out in *. csimpl. destruct r; simpl.
  2,3: rewrite decide_False, Z.add_0_r in Hm by done; rewrite Hm in *; done.
  rewrite decide_True in Hm by done. rewrite sizeZ_cons. specialize (Hs eq_refl). specialize (Hnum eq_refl).
  split; [|split; [lia|done]]. rewrite seqZ_cons by (pose proof (sizeZ_nonneg (omap (fun r => match r.1 with Success => Some r.2 | _ => None end) rs)); lia).
  f_equal; [lia|]. rewrite Hseq at 1. f_equal; lia.
Qed.

(** A stream that always has another entry reaches the limit. *)
Lemma spec_run_full t rs t' :
  (forall n u, (emit n u).1 = Success) -> nevents <> 0 ->
  spec_run t rs t' -> opened_once t -> sp_count t <= nskip + nevents -> 
  (sp_status t = Closed -> sp_count t = nskip + nevents) ->
  nskip + nevents - sp_count t < sizeZ rs ->
  sp_status t' = Closed /\ sp_count t' = nskip + nevents.
Proof.
  intros Hemit Hne. induction 1 as [t|t r n t1 rs t' Hn Hnum Hrun IH]; intros Ho Hb Hcl Hlen.
  { rewrite sizeZ_nil in Hlen. lia. }
  rewrite sizeZ_cons in Hlen.
  destruct (spec_next_inv _ _ _ Hn Ho (fun _ => Hb)) as (Ho1 & Hb1 & _ & _ & _ & _ & Hsame).
  assert (Hdone : sp_status t1 = Closed -> sp_count t1 = nskip + nevents -> sp_status t' = Closed /\ sp_count t' = nskip + nevents).
  { intros Hs1 Hc1. clear -Hrun Hs1 Hc1. induction Hrun as [|t r n t1 rs t2 Hn _ Hrun IH]; [done|].
    unfold spec_next in Hn. rewrite Hs1 in Hn. simplify_eq. auto. }
  unfold spec_next, spec_read in Hn. pose proof Ho as Ho'. unfold opened_once in Ho'.
  destruct (sp_status t) eqn:Hs; try done.
  3:{ simplify_eq. apply Hdone; [done|by apply Hcl]. }
  1,2: cbn [sp_count sp_user] in Hn; rewrite (bool_decide_eq_false_2 _ Hne) || idtac;
    destruct (negb (nevents =? 0) && (sp_count t =? nskip + nevents)) eqn:Hlim;
    [apply andb_true_iff in Hlim as [_ Hlim%Z.eqb_eq]; simplify_eq; by apply Hdone|];
    pose proof (Hemit (sp_count t) (sp_user t)) as He; destruct (emit _ _) as [r' u']; simpl in He; subst r';
    simplify_eq; apply IH; simpl in *; try done; try lia;
    apply andb_false_iff in Hlim as [Hl|Hl]; rewrite ?negb_false_iff, ?Z.eqb_eq, ?Z.eqb_neq in Hl; try done; lia.
Qed.

(** C26: a source hands out exactly the events it was asked for, in order.  Ask a source that has just been
    initialized for events, as often as you like: every request is answered; the events handed
    out have the numbers [nskip], [nskip + 1], ... without gap or repetition, and at most
    [nevents] of them unless that is 0; the stream is opened at most once and closed
    at most once, the latter exactly when a request has been answered with
    [FailureFinished].  And if the stream never runs dry, then more than [nskip + nevents]
    requests hand out all [nevents] events and close the source. *)
Theorem source_serves_range src u es :
  m_status src = Initialized -> m_event_count src = 0 -> m_nskip src = nskip -> m_nevents src = nevents ->
  sizeZ es < 2 ^ 64 - 1 ->
  exists rs src' u' opens closes, serve es (src, (u, (0%nat, 0%nat))) = (Ok rs, (src', (u', (opens, closes)))) /\
    length rs = length es /\
    handed_out rs = seqZ nskip (sizeZ (handed_out rs)) /\
    (nevents <> 0 -> sizeZ (handed_out rs) <= nevents) /\
    (opens <= 1)%nat /\ closes = (if decide (m_status src' = Closed) then 1 else 0)%nat /\
    (m_status src' = Closed <-> FailureFinished ∈ rs.*1) /\
    ((forall n u, (emit n u).1 = Success) -> nevents <> 0 -> nskip + nevents < sizeZ es ->
       handed_out rs = seqZ nskip nevents /\ m_status src' = Closed).
Proof.
  intros Hs Hc Hk He Hlen. set (t := mkStream Initialized 0 u 0%nat 0%nat).
  assert (Hat : at_stream t src (u, (0%nat, 0%nat))) by done.
  destruct (serve_at es t src _ Hat ltac:(by left) ltac:(done) ltac:(simpl; lia))
    as (rs & t' & src' & u' & Hrun & (Hs' & Hc' & _ & _ & ->) & Hsr & Hl).
  assert (Ho : opened_once t) by done.
  destruct (spec_run_inv t rs t' Hsr Ho ltac:(simpl; lia)) as (Ho' & Hb' & Hseq & Hm & Hf).
  exists rs, src', (sp_user t'), (sp_opens t'), (sp_closes t'). split; [exact Hrun|]. split; [done|].
  replace (sp_count t `max` nskip) with nskip in Hseq, Hm by (simpl; lia). split; [done|]. split; [intros Hne; specialize (Hb' Hne); lia|].
  rewrite Hs'. unfold opened_once in Ho'. split; [destruct (sp_status t'); lia|].
  split; [destruct (sp_status t'); try done; by destruct Ho'|]. split; [rewrite Hf; split; [by intros [?|?]|auto]|].
  intros Hemit Hne Hlt. destruct (spec_run_full t rs t' Hemit Hne Hsr Ho) as [Hs1 Hc1]; simpl; try done; try lia.
  { unfold sizeZ in *. rewrite Hl. lia. }
  split; [|done]. rewrite Hseq. f_equal. lia.
Qed.

End Spec.

(** ** Witnesses *)

(** A legacy source of ever more events that skips 2 and stops after 3. *)
Definition source0 (style : CallbackStyle) : JEventSource :=
  mkSource 1 (mkJComponent EmptyString "plugin" "Source") "file" style Initialized 0 2 3 false.

Definition counter (n : Z) (u : nat) : Result * nat := (Success, S u).

Lemma source_refines_stream_witness :
  exists src' e' u',
    DoNext (fun _ => "t"%string) (stream_callbacks counter) (source0 LegacyMode, (event PhysicsEvent [] 1, (0%nat, (0%nat, 0%nat))))
      = (Ok FailureTryAgain, (src', (e', u'))) /\ u' = (1%nat, (1%nat, 0%nat)) /\ m_event_count src' = 1.
Proof.
  destruct (source_refines_stream counter 2 3 (fun _ => "t"%string) ltac:(lia) ltac:(lia) ltac:(lia)
    (mkStream Initialized 0 0%nat 0%nat 0%nat) (source0 LegacyMode) (event PhysicsEvent [] 1) (0%nat, (0%nat, 0%nat)))
    as (src' & e' & u' & Hrun & (_ & Hc & _ & _ & Hu) & _); [done|by left|simpl; lia|].
  exists src', e', u'. split; [exact Hrun|]. split; [exact Hu|exact Hc].
Defined.

Lemma source_serves_range_witness :
  exists rs src' u' opens closes,
    serve counter (fun _ => "t"%string) (replicate 7 (event PhysicsEvent [] 1)) (source0 ExpertMode, (0%nat, (0%nat, 0%nat)))
      = (Ok rs, (src', (u', (opens, closes)))) /\ handed_out rs = [2; 3; 4] /\ m_status src' = Closed.
Proof.
  destruct (source_serves_range counter 2 3 (fun _ => "t"%string) ltac:(lia) ltac:(lia) ltac:(lia)
    (source0 ExpertMode) 0%nat (replicate 7 (event PhysicsEvent [] 1)) eq_refl eq_refl eq_refl eq_refl ltac:(by vm_compute))
    as (rs & src' & u' & o & c & Hrun & _ & _ & _ & _ & _ & _ & Hfull).
  destruct Hfull as [H1 H2]; [done|lia|by vm_compute|].
  exists rs, src', u', o, c. split; [exact Hrun|]. split; [exact H1|exact H2].
Defined.

End Source.
