(* ===== verification/JEventProcessor.v ===== *)
(** * JEventProcessor: run brackets and counting

    Model of [JEventProcessor.h], of the run callbacks of [Omni/JHasRunCallbacks.h] and of
    [Topology/JEventProcessorArrow.cc].  [DoReduce] and [DoFinalize] hold the
    component's mutex, so that each call is one step.  Events are seen as values: a
    processor gets them as [const]. *)

From S2P Require Import Prelude JMetrics JEvent JComponent.
Import Event Component.
Local Open Scope Z_scope.

Module Processor.

Record JEventProcessor := mkProcessor {
  m_component : JComponent;
  m_callback_style : CallbackStyle;
  m_status : Status;
  m_last_run_number : Z;
  m_event_count : Z
}.

Definition set_status (st : Status) (p : JEventProcessor) : JEventProcessor :=
  mkProcessor (m_component p) (m_callback_style p) st (m_last_run_number p) (m_event_count p).
Definition set_run (r : Z) (p : JEventProcessor) : JEventProcessor :=
  mkProcessor (m_component p) (m_callback_style p) (m_status p) r (m_event_count p).
Definition set_count (n : Z) (p : JEventProcessor) : JEventProcessor :=
  mkProcessor (m_component p) (m_callback_style p) (m_status p) (m_last_run_number p) n.

(** The virtual methods, and the registered parameters, services, resources and inputs. *)
Record Callbacks (U : Type) := mkCallbacks {
  m_parameters : list (M U unit);
  m_services : list (M U unit);
  m_resources : list (Z -> M U unit);
  m_inputs_prefetch : list (JEvent -> M U unit);
  m_inputs_get : list (JEvent -> M U unit);
  Init : M U unit;
  BeginRun : JEvent -> M U unit;
  EndRun : M U unit;
  Process_legacy : JEvent -> M U unit;
  Process_expert : JEvent -> M U unit;
  Process_declarative : Z -> Z -> Z -> M U unit;
  Finish : M U unit
}.
Arguments m_parameters {U} _.
Arguments m_services {U} _.
Arguments m_resources {U} _.
Arguments m_inputs_prefetch {U} _.
Arguments m_inputs_get {U} _.
Arguments Init {U} _.
Arguments BeginRun {U} _ _.
Arguments EndRun {U} _.
Arguments Process_legacy {U} _ _.
Arguments Process_expert {U} _ _.
Arguments Process_declarative {U} _ _ _ _.
Arguments Finish {U} _.

Section Operations.
Context (demangle : exn -> string) {U : Type} (cb : Callbacks U).
Abbreviation St := (JEventProcessor * U)%type.

Definition get_self : M St JEventProcessor := fun s => (Ok s.1, s).
Definition modify_self (f : JEventProcessor -> JEventProcessor) : M St unit := fun s => (Ok tt, (f s.1, s.2)).
Definition on_user {A} (m : M U A) : M St A := fun s => let '(r, u) := m s.2 in (r, (s.1, u)).
Definition wrapped {A} (fn : string) (m : M St A) : M St A := fun s =>
  CallWithJExceptionWrapper demangle (m_component s.1) fn m s.

Definition DoInitialize : M St unit :=
  _ ← for_each (m_parameters cb) on_user;
  _ ← for_each (m_services cb) on_user;
  _ ← wrapped "JEventProcessor::Init" (on_user (Init cb));
  modify_self (set_status Initialized).

Definition DoReduce (e : JEvent) : M St unit :=
  let run_number := mRunNumber e in
  self ← get_self;
  _ ← (if decide (m_status self = Uninitialized) then DoInitialize
       else if decide (m_status self = Finalized) then
         throwM "JEventProcessor: Attempted to call DoMap() after Finalize()"
       else mret tt);
  _ ← (if negb (m_last_run_number self =? run_number) then
         _ ← (if negb (m_last_run_number self =? -1) then wrapped "JEventProcessor::EndRun" (on_user (EndRun cb))
              else mret tt);
         _ ← for_each (m_resources cb) (fun resource => on_user (resource (mRunNumber e)));
         _ ← modify_self (set_run run_number);
         wrapped "JEventProcessor::BeginRun" (on_user (BeginRun cb e))
       else mret tt);
  _ ← for_each (m_inputs_get cb) (fun input => on_user (input e));
  _ ← wrapped "JEventProcessor::Process" (on_user
        (match m_callback_style self with
         | DeclarativeMode => Process_declarative cb (mRunNumber e) (mEventNumber e) (mEventIndex e)
         | ExpertMode => Process_expert cb e
         | LegacyMode => Process_legacy cb e
         end));
  modify_self (fun p => set_count (u64 (m_event_count p + 1)) p).

Definition DoMap (e : JEvent) : M St unit :=
  _ ← for_each (m_inputs_prefetch cb) (fun input => on_user (input e));
  self ← get_self;
  if decide (m_callback_style self = DeclarativeMode) then mret tt else DoReduce e.

Definition DoFinalize : M St unit :=
  self ← get_self;
  if decide (m_status self = Finalized) then mret tt else
  _ ← (if negb (m_last_run_number self =? -1) then wrapped "JEventProcessor::EndRun" (on_user (EndRun cb))
       else mret tt);
  _ ← wrapped "JEventProcessor::Finish" (on_user (Finish cb));
  modify_self (set_status Finalized).

End Operations.

(** [JEventProcessorArrow]: its processors share the state [S]; each is a pair of [DoMap]
    and the two life cycle calls. *)
Section ProcessorArrow.
Context {S : Type}.

Record Member := mkMember { member_map : JEvent -> M S unit; member_initialize : M S unit; member_finalize : M S unit }.

Definition processor_arrow_process (m_processors : list Member) (e : JEvent) : M S (bool * ArrowMetrics.Status) :=
  _ ← for_each m_processors (fun processor => member_map processor e);
  mret (true, ArrowMetrics.KeepGoing).

Definition processor_arrow_initialize (m_processors : list Member) : M S unit :=
  for_each m_processors member_initialize.

Definition processor_arrow_finalize (m_processors : list Member) : M S unit :=
  for_each m_processors member_finalize.
End ProcessorArrow.

(** ** The callbacks that a processor sees *)

Inductive call := CInit | CBeginRun (run : Z) | CProcess (run event : Z) | CEndRun | CFinish.

(** Callbacks that write down each call. *)
Definition log (c : call) : M (list call) unit := modify (fun l => l ++ [c]).

Definition logging_callbacks : Callbacks (list call) := {|
  m_parameters := []; m_services := []; m_resources := []; m_inputs_prefetch := []; m_inputs_get := [];
  Init := log CInit;
  BeginRun e := log (CBeginRun (mRunNumber e));
  EndRun := log CEndRun;
  Process_legacy e := log (CProcess (mRunNumber e) (mEventNumber e));
  Process_expert e := log (CProcess (mRunNumber e) (mEventNumber e));
  Process_declarative r n _ := log (CProcess r n);
  Finish := log CFinish
|}.

(** The protocol of run callbacks: [Some r] is inside run [r]. *)
Fixpoint bracketed (inside : option Z) (l : list call) : bool :=
  match l, inside with
  | [], _ => false
  | [CFinish], None => true
  | CBeginRun r :: l, None => bracketed (Some r) l
  | CProcess r _ :: l, Some r' => (r =? r') && bracketed inside l
  | CEndRun :: l, Some _ => bracketed None l
  | _, _ => false
  end.

Definition processed (l : list call) : list (Z * Z) :=
  omap (fun c => match c with CProcess r n => Some (r, n) | _ => None end) l.

Definition begun (l : list call) : list Z :=
  omap (fun c => match c with CBeginRun r => Some r | _ => None end) l.

(** The runs of a sequence of events, without immediate repetitions. *)
Fixpoint runs_of (last : option Z) (es : list JEvent) : list Z :=
  match es with
  | [] => []
  | e :: es => if decide (last = Some (mRunNumber e)) then runs_of last es
               else mRunNumber e :: runs_of (Some (mRunNumber e)) es
  end.

Section Brackets.
Context (demangle : exn -> string).

(** What the processor has been told from [last] on. *)
Fixpoint calls_for (last : option Z) (es : list JEvent) : list call :=
  match es with
  | [] => match last with Some _ => [CEndRun; CFinish] | None => [CFinish] end
  | e :: es =>
      (if decide (last = Some (mRunNumber e)) then []
       else match last with Some _ => [CEndRun] | None => [] end ++ [CBeginRun (mRunNumber e)])
      ++ CProcess (mRunNumber e) (mEventNumber e) :: calls_for (Some (mRunNumber e)) es
  end.

Definition run_of (last : option Z) : Z := default (-1) last.

Lemma DoMap_logs p l last e :
  m_callback_style p <> DeclarativeMode -> m_status p = Initialized -> m_last_run_number p = run_of last ->
  last <> Some (-1) -> mRunNumber e <> -1 ->
  DoMap demangle logging_callbacks e (p, l) = (Ok tt,
    (set_count (u64 (m_event_count p + 1)) (set_run (mRunNumber e) p),
     l ++ (if decide (last = Some (mRunNumber e)) then []
       else match last with Some _ => [CEndRun] | None => [] end ++ [CBeginRun (mRunNumber e)])
      ++ [CProcess (mRunNumber e) (mEventNumber e)])).
Proof.
  intros Hsty Hst Hlast Hl He. unfold DoMap, DoReduce. cbn [m_inputs_prefetch logging_callbacks for_each].
  rewrite M_bind_ret. mstep (eq_refl (get_self (p, l))). cbn [fst snd]. rewrite decide_False by done.
  mstep (eq_refl (get_self (p, l))). cbn [fst snd]. rewrite Hst, !decide_False by done. rewrite M_bind_ret.
  destruct p as [co sty st lr n]. cbn [m_callback_style m_status m_last_run_number m_event_count] in *. subst st lr.
  destruct last as [r|]; cbn [run_of default from_option id].
  - case_decide as Hr.
    + injection Hr as ->. rewrite Z.eqb_refl. destruct sty; done || (cbn; by rewrite ?app_nil_l).
    + destruct (Z.eqb_spec r (mRunNumber e)); [congruence|]. destruct (Z.eqb_spec r (-1)); [congruence|].
      cbn [app]. rewrite (snoc_three l). by destruct sty.
  - rewrite decide_False by done. destruct (Z.eqb_spec (-1) (mRunNumber e)); [congruence|].
    cbn [app]. rewrite (snoc_two l). by destruct sty.
Qed.

(** A log of calls that starts at [last] is well bracketed and complete. *)
Lemma calls_for_ok es : forall last, Forall (fun e => mRunNumber e <> -1) es ->
  bracketed last (calls_for last es) = true /\
  processed (calls_for last es) = (fun e => (mRunNumber e, mEventNumber e)) <$> es /\
  begun (calls_for last es) = runs_of last es.
Proof.
  induction es as [|e es IH]; intros last Hes; [by destruct last|].
  apply Forall_cons in Hes as [He Hes]. destruct (IH (Some (mRunNumber e)) Hes) as (H1 & H2 & H3). cbn [calls_for runs_of].
  case_decide as Hr.
  - subst last. cbn [app bracketed]. rewrite Z.eqb_refl, H1. split; [done|].
    unfold processed, begun in *. csimpl. by rewrite H2, H3.
  - destruct last as [r|]; cbn [app bracketed]; rewrite Z.eqb_refl, H1; (split; [done|]);
      unfold processed, begun in *; csimpl; by rewrite H2, H3.
Qed.

(** Processing the events, and then finalizing, makes exactly these calls. *)
Lemma process_all es : forall p l last,
  m_callback_style p <> DeclarativeMode -> m_status p = Initialized -> m_last_run_number p = run_of last ->
  last <> Some (-1) -> Forall (fun e => mRunNumber e <> -1) es ->
  0 <= m_event_count p -> m_event_count p + sizeZ es < 2 ^ 64 ->
  exists p', (_ ← for_each es (DoMap demangle logging_callbacks); DoFinalize demangle logging_callbacks) (p, l)
      = (Ok tt, (p', l ++ calls_for last es)) /\
    m_status p' = Finalized /\ m_event_count p' = m_event_count p + sizeZ es.
Proof.
  induction es as [|e es IH]; intros p l last Hsty Hst Hrun Hl Hes H0 Hb.
  - cbn [for_each]. rewrite M_bind_ret. unfold DoFinalize. mstep (eq_refl (get_self (p, l))). cbn [fst snd].
    rewrite Hst, decide_False by done. rewrite sizeZ_nil, Z.add_0_r, Hrun. exists (set_status Finalized p).
    split; [|done]. destruct last as [r|]; simpl.
    + destruct (Z.eqb_spec r (-1)); [congruence|]. by rewrite (snoc_two l).
    + done.
  - apply Forall_cons in Hes as [He Hes]. rewrite sizeZ_cons in *. pose proof (sizeZ_nonneg es).
    cbn [for_each]. rewrite M_bind_assoc. mstep (DoMap_logs p l last e Hsty Hst Hrun Hl He).
    match goal with |- context [(_ , ?l') ] => set (l1 := l') end.
    destruct (IH (set_count (u64 (m_event_count p + 1)) (set_run (mRunNumber e) p)) l1 (Some (mRunNumber e)))
      as (p' & Hrun' & Hs' & Hc'); [done|done|done|congruence|done|simpl; rewrite u64_small; lia
      |simpl; rewrite u64_small; lia|].
    exists p'. rewrite Hrun'. split; [|split; [done|]].
    + cbn [calls_for]. unfold l1. by rewrite <- !app_assoc.
    + rewrite Hc'. simpl. rewrite u64_small; lia.
Qed.

(** A processor sees every event exactly once, inside its run.  Initialize a legacy or expert
    processor, map any sequence of events (of run numbers other than the sentinel -1) and
    finalize: all calls return, [Init] comes first and [Finish] last, every
    [Process] happens between the [BeginRun] of its own run and the next [EndRun], runs
    never overlap, each event is processed once and in the order of arrival, a run begins
    only when the run number changes, and the event count is the number of events. *)
Theorem processor_brackets_runs p es :
  m_callback_style p <> DeclarativeMode -> m_last_run_number p = -1 -> m_event_count p = 0 ->
  Forall (fun e => mRunNumber e <> -1) es -> sizeZ es < 2 ^ 64 ->
  exists p' l,
    (_ ← DoInitialize demangle logging_callbacks;
     _ ← for_each es (DoMap demangle logging_callbacks);
     DoFinalize demangle logging_callbacks) (p, []) = (Ok tt, (p', CInit :: l)) /\
    bracketed None l = true /\
    processed l = (fun e => (mRunNumber e, mEventNumber e)) <$> es /\
    begun l = runs_of None es /\
    m_event_count p' = sizeZ es /\ m_status p' = Finalized.
Proof.
  intros Hsty Hrun Hcnt Hes Hb.
  assert (Hinit : DoInitialize demangle logging_callbacks (p, []) = (Ok tt, (set_status Initialized p, [CInit]))) by done.
  mstep Hinit. destruct (process_all es (set_status Initialized p) [CInit] None) as (p' & Hrun' & Hs' & Hc');
    try done; try (simpl; lia).
  exists p', (calls_for None es). split; [exact Hrun'|].
  destruct (calls_for_ok es None Hes) as (H1 & H2 & H3). repeat (split; [done|]). split; [|done].
  rewrite Hc'. simpl. lia.
Qed.

(** A declarative processor never processes anything.  [DoMap], the only entry point that the
    processor arrow calls, stops after prefetching the inputs when the callback style is
    [DeclarativeMode]; [DoReduce] has no other caller.  Whatever the callbacks are, mapping
    any events with one that has no inputs changes neither the processor nor the user's state. *)
Theorem declarative_processor_never_runs {U} (cb : Callbacks U) p u es :
  m_callback_style p = DeclarativeMode -> m_inputs_prefetch cb = [] ->
  for_each es (DoMap demangle cb) (p, u) = (Ok tt, (p, u)).
Proof.
  intros Hsty Hin. induction es as [|e es IH]; [done|]. cbn [for_each].
  assert (Hmap : DoMap demangle cb e (p, u) = (Ok tt, (p, u))).
  { unfold DoMap. rewrite Hin. cbn [for_each]. rewrite M_bind_ret. mstep (eq_refl (get_self (p, u))).
    cbn [fst snd]. by rewrite decide_True. }
  mstep Hmap. exact IH.
Qed.
End Brackets.

(** ** Witnesses *)

Definition processor0 (style : CallbackStyle) : JEventProcessor :=
  mkProcessor (mkJComponent EmptyString "plugin" "Proc") style Uninitialized (-1) 0.

Definition run_event (r n : Z) : JEvent := mkJEvent r n 0 false PhysicsEvent [] 1 (-1).

Lemma processor_brackets_runs_witness :
  exists p' l, (_ ← DoInitialize (fun _ => "t"%string) logging_callbacks;
     _ ← for_each [run_event 7 1; run_event 7 2; run_event 8 3] (DoMap (fun _ => "t"%string) logging_callbacks);
     DoFinalize (fun _ => "t"%string) logging_callbacks) (processor0 LegacyMode, []) = (Ok tt, (p', CInit :: l)) /\
    begun l = [7; 8] /\ m_event_count p' = 3.
Proof.
  destruct (processor_brackets_runs (fun _ => "t"%string) (processor0 LegacyMode)
    [run_event 7 1; run_event 7 2; run_event 8 3] ltac:(done) eq_refl eq_refl) as (p' & l & Hrun & _ & _ & Hb & Hc & _).
  - rewrite !Forall_cons, Forall_nil. done.
  - by vm_compute.
  - exists p', l. split; [exact Hrun|]. split; [exact Hb|exact Hc].
Defined.

Lemma declarative_processor_never_runs_witness :
  for_each [run_event 7 1] (DoMap (fun _ => "t"%string) logging_callbacks) (processor0 DeclarativeMode, [])
    = (Ok tt, (processor0 DeclarativeMode, [])).
Proof.
  exact (declarative_processor_never_runs (fun _ => "t"%string) logging_callbacks (processor0 DeclarativeMode) []
    [run_event 7 1] eq_refl eq_refl).
Defined.
End Processor.
