(* ===== verification/JEventUnfolder.v ===== *)
(** * JEventUnfolder: the component inside an unfolding arrow

    Model of [JEventUnfolder.h].  [DoUnfold] holds the component's mutex.  The child event
    is part of the state, since the unfolder fills it; the parent is a value. *)

From S2P Require Import Prelude JMetrics JEvent JComponent JFoldUnfold.
Import Event Component.
Local Open Scope Z_scope.

Module Unfolder.
Import FoldUnfold.

Record JEventUnfolder := mkUnfolder {
  m_component : JComponent;
  m_callback_style : CallbackStyle;
  m_status : Status;
  m_last_run_number : Z;
  m_enable_simplified_callbacks : bool;
  m_child_number : Z;
  m_call_preprocess_upstream : bool
}.

Definition set_status (st : Status) (p : JEventUnfolder) : JEventUnfolder :=
  mkUnfolder (m_component p) (m_callback_style p) st (m_last_run_number p) (m_enable_simplified_callbacks p)
    (m_child_number p) (m_call_preprocess_upstream p).
Definition set_run (r : Z) (p : JEventUnfolder) : JEventUnfolder :=
  mkUnfolder (m_component p) (m_callback_style p) (m_status p) r (m_enable_simplified_callbacks p)
    (m_child_number p) (m_call_preprocess_upstream p).
Definition set_child (n : Z) (p : JEventUnfolder) : JEventUnfolder :=
  mkUnfolder (m_component p) (m_callback_style p) (m_status p) (m_last_run_number p)
    (m_enable_simplified_callbacks p) n (m_call_preprocess_upstream p).

(** The virtual methods, and the registered parameters, services, resources, inputs and
    outputs. *)
Record Callbacks (U : Type) := mkCallbacks {
  m_parameters : list (M U unit);
  m_services : list (M U unit);
  m_resources : list (Z -> M U unit);
  m_inputs_prefetch : list (JEvent -> M U unit);
  m_inputs_get : list (JEvent -> M U unit);
  m_outputs_reset : list (M U unit);
  m_outputs_insert : list (M (JEvent * U) unit);
  Init : M U unit;
  Preprocess : JEvent -> M U unit;
  ChangeRun_number : Z -> M U unit;
  ChangeRun_event : JEvent -> M U unit;
  Unfold_numbers : Z -> Z -> Z -> M U Result;
  Unfold : JEvent -> Z -> M (JEvent * U) Result;
  Finish : M U unit
}.
Arguments m_parameters {U} _.
Arguments m_services {U} _.
Arguments m_resources {U} _.
Arguments m_inputs_prefetch {U} _.
Arguments m_inputs_get {U} _.
Arguments m_outputs_reset {U} _.
Arguments m_outputs_insert {U} _.
Arguments Init {U} _.
Arguments Preprocess {U} _ _.
Arguments ChangeRun_number {U} _ _.
Arguments ChangeRun_event {U} _ _.
Arguments Unfold_numbers {U} _ _ _ _.
Arguments Unfold {U} _ _ _.
Arguments Finish {U} _.

Section Operations.
Context (demangle : exn -> string) {U : Type} (cb : Callbacks U).
Abbreviation St := (JEventUnfolder * (JEvent * U))%type.

Definition get_self : M St JEventUnfolder := fun s => (Ok s.1, s).
Definition get_child : M St JEvent := fun s => (Ok s.2.1, s).
Definition modify_self (f : JEventUnfolder -> JEventUnfolder) : M St unit := fun s => (Ok tt, (f s.1, s.2)).
Definition modify_child (f : JEvent -> JEvent) : M St unit := fun s => (Ok tt, (s.1, (f s.2.1, s.2.2))).
Definition on_user {A} (m : M U A) : M St A := fun s =>
  let '(r, u) := m s.2.2 in (r, (s.1, (s.2.1, u))).
Definition on_child {A} (m : M (JEvent * U) A) : M St A := fun s =>
  let '(r, eu) := m s.2 in (r, (s.1, eu)).
Definition wrapped {A} (fn : string) (m : M St A) : M St A := fun s =>
  CallWithJExceptionWrapper demangle (m_component s.1) fn m s.

Definition DoInit : M St unit :=
  _ ← for_each (m_parameters cb) on_user;
  _ ← for_each (m_services cb) on_user;
  self ← get_self;
  if decide (m_status self = Uninitialized) then
    _ ← wrapped "JEventUnfolder::Init" (on_user (Init cb));
    modify_self (set_status Initialized)
  else throwM "JEventUnfolder: Attempting to initialize twice or from an invalid state".

Definition DoPreprocess (parent : JEvent) : M St unit :=
  self ← get_self;
  if negb (bool_decide (m_status self = Initialized)) then
    throwM "JEventUnfolder: Component needs to be initialized and not finalized before Unfold can be called"
  else
  _ ← for_each (m_inputs_prefetch cb) (fun input => on_user (input parent));
  if decide (m_callback_style self = DeclarativeMode) then mret tt
  else wrapped "JEventUnfolder::Preprocess" (on_user (Preprocess cb parent)).

(** The part of [DoUnfold] that deals with a new run. *)
Definition change_run (parent : JEvent) : M St unit :=
  self ← get_self;
  if m_last_run_number self =? mRunNumber parent then mret tt else
  _ ← for_each (m_resources cb) (fun resource => on_user (resource (mRunNumber parent)));
  _ ← wrapped "JEventUnfolder::ChangeRun" (on_user
        (if decide (m_callback_style self = DeclarativeMode) then ChangeRun_number cb (mRunNumber parent)
         else ChangeRun_event cb parent));
  modify_self (set_run (mRunNumber parent)).

Definition DoUnfold (parent : JEvent) : M St Result :=
  self ← get_self;
  if decide (m_status self = Initialized) then
    _ ← (if negb (m_call_preprocess_upstream self) && negb (m_enable_simplified_callbacks self) then
           wrapped "JEventUnfolder::Preprocess" (on_user (Preprocess cb parent))
         else mret tt);
    _ ← change_run parent;
    _ ← for_each (m_inputs_get cb) (fun input => on_user (input parent));
    _ ← for_each (m_outputs_reset cb) on_user;
    _ ← modify_child (SetEventIndex (m_child_number self));
    result ← (if m_enable_simplified_callbacks self then
                child ← get_child;
                wrapped "JEventUnfolder::Unfold" (on_user
                  (Unfold_numbers cb (mEventNumber parent) (mEventNumber child) (m_child_number self)))
              else wrapped "JEventUnfolder::Unfold" (on_child (Unfold cb parent (m_child_number self))));
    _ ← for_each (m_outputs_insert cb) on_child;
    _ ← modify_self (fun p => set_child (i32 (m_child_number p + 1)) p);
    _ ← (if next_parent result then modify_self (set_child 0) else mret tt);
    mret result
  else throwM "Component needs to be initialized and not finalized before Unfold can be called".

Definition DoFinish : M St unit :=
  self ← get_self;
  if decide (m_status self = Finalized) then mret tt else
  _ ← wrapped "JEventUnfolder::Finish" (on_user (Finish cb));
  modify_self (set_status Finalized).

End Operations.

(** ** Children are numbered within their parent *)

Section Numbering.
Context (demangle : exn -> string) {U : Type} (split : JEvent -> Z -> U -> Result * U).

(** An unfolder that neither throws nor touches the child's number. *)
Definition splitter : Callbacks U := {|
  m_parameters := []; m_services := []; m_resources := []; m_inputs_prefetch := []; m_inputs_get := [];
  m_outputs_reset := []; m_outputs_insert := [];
  Init := mret tt; Preprocess _ := mret tt; ChangeRun_number _ := mret tt; ChangeRun_event _ := mret tt;
  Unfold_numbers _ _ _ := mret NextChildNextParent;
  Unfold parent nr := fun s => let '(r, u) := split parent nr s.2 in (Ok r, (s.1, u));
  Finish := mret tt
|}.

(** Calls with the given parents and children: each result with the child's index. *)
Fixpoint unfold_all (calls : list (JEvent * JEvent)) : M (JEventUnfolder * U) (list (Result * Z)) :=
  match calls with
  | [] => mret []
  | (parent, child) :: calls => fun s =>
      match DoUnfold demangle splitter parent (s.1, (child, s.2)) with
      | (Ok r, (self, (child', u))) => (rs ← unfold_all calls; mret ((r, mEventIndex child') :: rs)) (self, u)
      | (Throw e, (self, (_, u))) => (Throw e, (self, u))
      | (Undef, (self, (_, u))) => (Undef, (self, u))
      end
  end.

(** How many children of the same parent the last results have asked to add. *)
Definition siblings (rs : list Result) : nat :=
  foldl (fun n r => if next_parent r then 0%nat else S n) 0%nat rs.

Lemma siblings_snoc rs r : siblings (rs ++ [r]) = if next_parent r then 0%nat else S (siblings rs).
Proof. unfold siblings. by rewrite foldl_app. Qed.

Lemma siblings_le rs : (siblings rs <= length rs)%nat.
Proof.
  induction rs as [|r rs IH] using rev_ind; [done|]. rewrite siblings_snoc, length_app. destruct (next_parent r); simpl; lia.
Qed.

Definition ready (self : JEventUnfolder) (n : Z) : Prop :=
  m_status self = Initialized /\ m_enable_simplified_callbacks self = false /\ m_child_number self = n.

Lemma DoUnfold_step self child parent u n :
  ready self n -> 0 <= n < 2 ^ 31 - 1 ->
  exists self' child', DoUnfold demangle splitter parent (self, (child, u))
      = (Ok (split parent n u).1, (self', (child', (split parent n u).2))) /\
    mEventIndex child' = n /\ ready self' (if next_parent (split parent n u).1 then 0 else n + 1).
Proof.
  intros (Hs & He & Hn) Hb. unfold DoUnfold. mstep (eq_refl (get_self (self, (child, u)))). cbn [fst snd].
  rewrite decide_True by done. rewrite He, andb_true_r.
  assert (Hpre : forall b : bool, (if b then wrapped demangle "JEventUnfolder::Preprocess" (on_user (Preprocess splitter parent))
    else mret tt) (self, (child, u)) = (Ok tt, (self, (child, u)))) by (by intros []).
  mstep (Hpre (negb (m_call_preprocess_upstream self))).
  assert (Hrun : exists r, change_run demangle splitter parent (self, (child, u))
    = (Ok tt, (set_run r self, (child, u)))).
  { unfold change_run. mstep (eq_refl (get_self (self, (child, u)))). cbn [fst snd].
    destruct (Z.eqb_spec (m_last_run_number self) (mRunNumber parent)) as [Hr|Hr].
    - exists (mRunNumber parent). rewrite <- Hr. by destruct self.
    - exists (mRunNumber parent). by case_decide. }
  destruct Hrun as [r Hrun]. mstep Hrun. cbn [m_inputs_get m_outputs_reset splitter for_each]. rewrite !M_bind_ret.
  mstep (eq_refl (modify_child (SetEventIndex (m_child_number self)) (set_run r self, (child, u)))). cbn [fst snd].
  rewrite Hn. set (child' := SetEventIndex n child). destruct (split parent n u) as [res u'] eqn:Hsplit.
  assert (Hunf : wrapped demangle "JEventUnfolder::Unfold" (on_child (Unfold splitter parent n)) (set_run r self, (child', u))
    = (Ok res, (set_run r self, (child', u')))).
  { unfold wrapped, CallWithJExceptionWrapper, on_child. cbn. by rewrite Hsplit. }
  mstep Hunf. cbn [m_outputs_insert splitter for_each]. rewrite M_bind_ret.
  mstep (eq_refl (modify_self (fun p => set_child (i32 (m_child_number p + 1)) p) (set_run r self, (child', u')))).
  cbn [fst snd]. destruct (next_parent res) eqn:Hnext; eexists _, child'; (split; [reflexivity|]);
    (split; [done|]); repeat split; try done. cbn. rewrite Hn, i32_small; lia.
Qed.

(** Children are numbered from 0 within each parent.  Whatever the parents, children and answers
    of the unfolder are, a sequence of calls of [DoUnfold] returns, and the index written
    into each child is the number of children that the same parent has already been given: it
    starts at 0, goes up by one as long as the unfolder keeps the parent, and starts again
    when it moves on. *)
Theorem children_numbered_per_parent calls : forall self u,
  ready self 0 -> sizeZ calls < 2 ^ 31 - 1 ->
  exists rs self' u', unfold_all calls (self, u) = (Ok rs, (self', u')) /\ length rs = length calls /\
    (forall i r, rs !! i = Some r -> r.2 = Z.of_nat (siblings (take i (rs.*1)))) /\
    m_child_number self' = Z.of_nat (siblings (rs.*1)).
Proof.
  intros self u Hr Hb.
  assert (Hgen : forall calls done self u, ready self (Z.of_nat (siblings done)) ->
    Z.of_nat (length done) + sizeZ calls < 2 ^ 31 - 1 ->
    exists rs self' u', unfold_all calls (self, u) = (Ok rs, (self', u')) /\ length rs = length calls /\
      (forall i r, rs !! i = Some r -> r.2 = Z.of_nat (siblings (done ++ take i (rs.*1)))) /\
      m_child_number self' = Z.of_nat (siblings (done ++ rs.*1))).
  { clear. induction calls as [|[parent child] calls IH]; intros done self u Hr Hb; simpl.
    { exists [], self, u. split; [done|]. split; [done|]. split; [by intros []|].
      rewrite app_nil_r. apply Hr. }
    rewrite sizeZ_cons in Hb. pose proof (sizeZ_nonneg calls). pose proof (siblings_le done).
    destruct (DoUnfold_step self child parent u _ Hr ltac:(lia)) as (self1 & child1 & Hrun & Hidx & Hr1). rewrite Hrun.
    destruct (split parent (Z.of_nat (siblings done)) u) as [r u1]. cbn [fst snd] in *.
    destruct (IH (done ++ [r]) self1 u1) as (rs & self' & u' & Hall & Hlen & Hnum & Hend).
    - rewrite siblings_snoc. destruct (next_parent r); [done|]. by replace (Z.of_nat (S (siblings done))) with (Z.of_nat (siblings done) + 1) by lia.
    - rewrite length_app. simpl. lia.
    - eexists _, self', u'. split; [by mstep Hall|]. split; [simpl; by rewrite Hlen|].
      rewrite <- app_assoc in Hend. split; [|done].
      intros [|i] r' Hr'; simplify_eq/=; [by rewrite app_nil_r|]. rewrite (Hnum i r' Hr'), <- app_assoc. done. }
  exact (Hgen calls [] self u Hr ltac:(simpl; lia)).
Qed.
End Numbering.

(** ** Witness *)

Definition unfolder0 : JEventUnfolder :=
  mkUnfolder (mkJComponent EmptyString "plugin" "Unf") ExpertMode Initialized (-1) false 0 true.

(** Three children per parent. *)
Lemma children_numbered_per_parent_witness :
  exists rs self' u', unfold_all (fun _ => "t"%string)
      (fun _ nr (u : unit) => (if nr =? 2 then NextChildNextParent else NextChildKeepParent, u))
      (replicate 5 (event Timeslice [] 1, event PhysicsEvent [] 1)) (unfolder0, tt) = (Ok rs, (self', u')) /\
    rs.*2 = [0; 1; 2; 0; 1] /\ m_child_number self' = 2.
Proof.
  destruct (children_numbered_per_parent (fun _ => "t"%string)
    (fun _ nr (u : unit) => (if nr =? 2 then NextChildNextParent else NextChildKeepParent, u))
    (replicate 5 (event Timeslice [] 1, event PhysicsEvent [] 1)) unfolder0 tt) as (rs & self' & u' & Hrun & _ & _ & Hend);
    [done|by vm_compute|].
  exists rs, self', u'. split; [exact Hrun|]. vm_compute in Hrun. injection Hrun as <- Hself Hu.
  split; [reflexivity|exact Hend].
Defined.

End Unfolder.
