(* ===== verification/JEventArrows.v ===== *)
(** * JEventSourceArrow and JEventMapArrow

    Models of [Topology/JEventSourceArrow.cc] and [Topology/JEventMapArrow.cc]: what the
    [process] methods that [JPipelineArrow::execute] calls do with an event.  The sources
    share the state [S] (it holds the event as well); a source is its three entry points. *)

From S2P Require Import Prelude JMetrics JEventSource.
Import Source.
Local Open Scope Z_scope.

Module EventArrows.

Section SourceArrow.
Context {S : Type}.

Record Member := mkMember { member_next : M S Result; member_init : M S unit; member_close : M S unit }.

(** The state is [m_current_source] and the sources' own. *)
Definition on_sources {A} (m : M S A) : M (nat * S) A := fun s => let '(r, t) := m s.2 in (r, (s.1, t)).

(** The [while] loop, from the current source on. *)
Fixpoint process_loop (rest : list Member) : M (nat * S) (bool * ArrowMetrics.Status) :=
  match rest with
  | [] => mret (false, ArrowMetrics.Finished)
  | source :: rest =>
      source_status ← on_sources (member_next source);
      match source_status with
      | FailureFinished =>
          _ ← modify (fun s => (Datatypes.S s.1, s.2));
          process_loop rest
      | FailureTryAgain => mret (false, ArrowMetrics.ComeBackLater)
      | Success => mret (true, ArrowMetrics.KeepGoing)
      end
  end.

(** [process]: [success] and the arrow's status. *)
Definition source_arrow_process (m_sources : list Member) : M (nat * S) (bool * ArrowMetrics.Status) :=
  match m_sources with
  | [] => mret (false, ArrowMetrics.Finished)
  | _ => m_current_source ← gets fst; process_loop (drop m_current_source m_sources)
  end.

Definition source_arrow_initialize (m_sources : list Member) : M (nat * S) unit :=
  for_each m_sources (fun source => on_sources (member_init source)).

Definition source_arrow_finalize (m_sources : list Member) : M (nat * S) unit :=
  for_each m_sources (fun source => on_sources (member_close source)).

End SourceArrow.

(** [JEventMapArrow::process]: the sources and the unfolders preprocess the event. *)
Definition map_arrow_process {S} (m_sources m_unfolders : list (M S unit)) : M S (bool * ArrowMetrics.Status) :=
  _ ← for_each m_sources id;
  _ ← for_each m_unfolders id;
  mret (true, ArrowMetrics.KeepGoing).

(** ** The sources are read one after the other *)

(** Sources that answer from a script each, and are finished at its end; the state is what
    is left of the scripts. *)
Definition scripted (n : nat) : list (Member (S := list (list Result))) :=
  (fun i => mkMember
     (fun scripts => match scripts !! i with
                     | Some (r :: rest) => (Ok r, <[i := rest]> scripts)
                     | _ => (Ok FailureFinished, scripts)
                     end)
     (mret tt) (mret tt)) <$> seq 0 n.

Definition arrow_answer (r : Result) : bool * ArrowMetrics.Status :=
  match r with
  | Success => (true, ArrowMetrics.KeepGoing)
  | FailureTryAgain => (false, ArrowMetrics.ComeBackLater)
  | FailureFinished => (false, ArrowMetrics.Finished)
  end.

(** The scripts never say "finished" themselves, and those before the current one are used up. *)
Definition scripts_ok (scripts : list (list Result)) (current : nat) : Prop :=
  Forall (fun s => FailureFinished ∉ s) scripts /\ concat (take current scripts) = [] /\ (current <= length scripts)%nat.

Fixpoint process_times (k : nat) (sources : list (Member (S := list (list Result))))
    : M (nat * list (list Result)) (list (bool * ArrowMetrics.Status)) :=
  match k with
  | O => mret []
  | S k => a ← source_arrow_process sources; rest ← process_times k sources; mret (a :: rest)
  end.

(** One pass of the loop, from source [current] on. *)
Lemma process_loop_scripted n : forall current scripts,
  length scripts = (current + n)%nat -> scripts_ok scripts current ->
  exists current' scripts',
    process_loop (drop current (scripted (current + n))) (current, scripts)
      = (Ok (default (false, ArrowMetrics.Finished) (arrow_answer <$> head (concat (drop current scripts)))),
         (current', scripts')) /\
    length scripts' = length scripts /\ scripts_ok scripts' current' /\
    concat (drop current' scripts') = tail (concat (drop current scripts)).
Proof.
  induction n as [|n IH]; intros current scripts Hlen (Hf & Ht & Hc).
  - rewrite Nat.add_0_r in *. rewrite !drop_ge by (unfold scripted; rewrite ?length_fmap, ?length_seq; lia).
    simpl. exists current, scripts. rewrite drop_ge by lia. by repeat split.
  - assert (Hlt : (current < length scripts)%nat) by lia.
    destruct (lookup_lt_is_Some_2 _ _ Hlt) as [script Hs].
    rewrite (drop_S _ _ _ Hs). rewrite (drop_S (scripted (current + S n)) (mkMember
     (fun scripts => match scripts !! current with
                     | Some (r :: rest) => (Ok r, <[current := rest]> scripts)
                     | _ => (Ok FailureFinished, scripts)
                     end) (mret tt) (mret tt)) current).
    2:{ unfold scripted. rewrite list_lookup_fmap, lookup_seq_lt by lia. done. }
    cbn [process_loop member_next]. unfold on_sources at 1. destruct script as [|r script].
    + unfold mbind at 1, M_bind at 1. cbn [snd]. rewrite Hs. rewrite M_bind_modify. cbn [fst snd].
      replace (current + S n)%nat with (S current + n)%nat in * by lia.
      destruct (IH (S current) scripts Hlen) as (c' & s' & Hrun & Hrest).
      { split; [done|]. split; [|lia]. rewrite (take_S_r _ _ _ Hs), concat_app, Ht. done. }
      exists c', s'. split; [exact Hrun|exact Hrest].
    + unfold mbind at 1, M_bind at 1. cbn [snd]. rewrite Hs. cbn [concat app head fmap option_fmap option_map default].
      pose proof (Forall_lookup_1 _ _ _ _ Hf Hs) as Hns. rewrite not_elem_of_cons in Hns. destruct Hns as [Hr Hns].
      exists current, (<[current := script]> scripts).
      split; [by destruct r|]. rewrite length_insert. split; [done|].
      split; [split; [by apply Forall_insert|split; [by rewrite take_insert_ge|by rewrite length_insert]]|].
      rewrite (drop_S _ script current) by (by apply list_lookup_insert_eq). simpl.
      by rewrite drop_insert_lt by lia.
Qed.

(** A source arrow reads its sources one after the other.  Whatever the sources answer until they
    are finished, the answers of [process] are those of the first source, then those of
    the second, and so on, and [Finished] once all of them are; no answer is lost or repeated,
    and no source is asked again after the arrow has moved on. *)
Theorem source_arrow_concatenates k scripts :
  Forall (fun s => FailureFinished ∉ s) scripts ->
  exists current' scripts',
    process_times k (scripted (length scripts)) (0%nat, scripts)
      = (Ok ((arrow_answer <$> take k (concat scripts))
             ++ replicate (k - length (concat scripts)) (false, ArrowMetrics.Finished)), (current', scripts')) /\
    concat (drop current' scripts') = drop k (concat scripts).
Proof.
  intros Hf.
  assert (Hgen : forall k current scripts', length scripts' = length scripts -> scripts_ok scripts' current ->
    exists current' scripts'', process_times k (scripted (length scripts)) (current, scripts')
      = (Ok ((arrow_answer <$> take k (concat (drop current scripts')))
             ++ replicate (k - length (concat (drop current scripts'))) (false, ArrowMetrics.Finished)), (current', scripts'')) /\
      concat (drop current' scripts'') = drop k (concat (drop current scripts'))).
  { clear k. induction k as [|k IH]; intros current scripts' Hlen Hok; [by exists current, scripts'|].
    pose proof Hok as (_ & _ & Hc).
    destruct (process_loop_scripted (length scripts - current) current scripts' ltac:(lia) Hok)
      as (c1 & s1 & Hrun & Hlen1 & Hok1 & Hrest).
    replace (current + (length scripts - current))%nat with (length scripts) in Hrun by lia.
    assert (Hproc : source_arrow_process (scripted (length scripts)) (current, scripts')
      = (Ok (default (false, ArrowMetrics.Finished) (arrow_answer <$> head (concat (drop current scripts')))), (c1, s1))).
    { rewrite <- Hrun. unfold source_arrow_process. destruct (scripted (length scripts)) eqn:Hs; [|done].
      by rewrite drop_nil. }
    cbn [process_times]. mstep Hproc. destruct (IH c1 s1 ltac:(lia) Hok1) as (c2 & s2 & Hrun2 & Hrest2).
    mstep Hrun2. exists c2, s2. rewrite Hrest2, Hrest. destruct (concat (drop current scripts')) as [|r l]; cbn.
    - rewrite ?take_nil, ?drop_nil. simpl. by rewrite Nat.sub_0_r.
    - done. }
  destruct (Hgen k 0%nat scripts eq_refl) as (c & s & Hrun & Hrest); [split; [done|split; [done|lia]]|].
  rewrite drop_0 in *. exists c, s. auto.
Qed.

Lemma source_arrow_concatenates_witness :
  exists current' scripts',
    process_times 5 (scripted 3) (0%nat, [[Success]; []; [FailureTryAgain; Success]])
      = (Ok [(true, ArrowMetrics.KeepGoing); (false, ArrowMetrics.ComeBackLater); (true, ArrowMetrics.KeepGoing);
             (false, ArrowMetrics.Finished); (false, ArrowMetrics.Finished)], (current', scripts')) /\
    concat (drop current' scripts') = [].
Proof.
  destruct (source_arrow_concatenates 5 [[Success]; []; [FailureTryAgain; Success]]) as (c & s & Hrun & Hrest).
  - rewrite !Forall_cons, Forall_nil. repeat split; set_solver.
  - exists c, s. split; [exact Hrun|exact Hrest].
Defined.

End EventArrows.
