(* ===== verification/JSubeventArrow.v ===== *)
(** * JSubeventArrow: splitting events, processing the parts in parallel, merging them again

    Model of [Topology/JSubeventArrow.h].  The world of the three arrows is the four queues
    between them and the table of the merge arrow; events are pointers.  What the user's code
    returns ([JEvent::Get], [ProcessSubevent], [JEvent::Insert]) is an argument of each execution.
    [execute] returns the status and the message count that it passes to
    [JArrowMetrics::update].  Workers interleave between queue operations; [sub_step] lists
    what one of them does between two such points. *)

From S2P Require Import Prelude JMailbox JMetrics.
Import Mailbox ArrowMetrics.
Local Open Scope Z_scope.

Module Subevent.

Record SubeventWrapper (T : Type) := mkSubeventWrapper {
  parent : Z;
  data : T;
  id : Z;
  total : Z
}.
Arguments mkSubeventWrapper {T} _ _ _ _.
Arguments parent {T} _.
Arguments data {T} _.
Arguments id {T} _.
Arguments total {T} _.

Section Arrows.
Context {InputT OutputT : Type}.

(** The mailboxes that the three arrows are constructed with, and [m_in_progress]. *)
Record SubeventWorld := mkSubeventWorld {
  events_in : JMailbox Z;
  subevents_in : JMailbox (SubeventWrapper InputT);
  subevents_out : JMailbox (SubeventWrapper OutputT);
  events_out : JMailbox Z;
  m_in_progress : gmap Z Z
}.

(** A call on one of the queues. *)
Definition on_events_in {A} (op : JMailbox Z -> outcome (A * JMailbox Z)) : M SubeventWorld A := fun w =>
  match op (events_in w) with
  | Ok (a, q) => (Ok a, mkSubeventWorld q (subevents_in w) (subevents_out w) (events_out w) (m_in_progress w))
  | Throw e => (Throw e, w)
  | Undef => (Undef, w)
  end.

Definition on_subevents_in {A} (op : JMailbox (SubeventWrapper InputT) -> outcome (A * JMailbox (SubeventWrapper InputT)))
    : M SubeventWorld A := fun w =>
  match op (subevents_in w) with
  | Ok (a, q) => (Ok a, mkSubeventWorld (events_in w) q (subevents_out w) (events_out w) (m_in_progress w))
  | Throw e => (Throw e, w)
  | Undef => (Undef, w)
  end.

Definition on_subevents_out {A} (op : JMailbox (SubeventWrapper OutputT) -> outcome (A * JMailbox (SubeventWrapper OutputT)))
    : M SubeventWorld A := fun w =>
  match op (subevents_out w) with
  | Ok (a, q) => (Ok a, mkSubeventWorld (events_in w) (subevents_in w) q (events_out w) (m_in_progress w))
  | Throw e => (Throw e, w)
  | Undef => (Undef, w)
  end.

Definition on_events_out {A} (op : JMailbox Z -> outcome (A * JMailbox Z)) : M SubeventWorld A := fun w =>
  match op (events_out w) with
  | Ok (a, q) => (Ok a, mkSubeventWorld (events_in w) (subevents_in w) (subevents_out w) q (m_in_progress w))
  | Throw e => (Throw e, w)
  | Undef => (Undef, w)
  end.

Definition set_in_progress (m : gmap Z Z) (w : SubeventWorld) : SubeventWorld :=
  mkSubeventWorld (events_in w) (subevents_in w) (subevents_out w) (events_out w) m.

(** The status at the end of each [execute]. *)
Definition next_status (in_status out_status : Mailbox.Status) : ArrowMetrics.Status :=
  if decide (in_status = Ready /\ out_status = Ready) then KeepGoing else ComeBackLater.

(** ** The split arrow *)

(** [for (original : originals) wrapped.push_back(SubeventWrapper(event, original, i++, actual_size))]. *)
Fixpoint wrap (event actual_size i : Z) (originals : list InputT) : list (SubeventWrapper InputT) :=
  match originals with
  | [] => []
  | original :: rest => mkSubeventWrapper event original i actual_size :: wrap event actual_size (u64 (i + 1)) rest
  end.

Definition split_execute (Get : Z -> outcome (list InputT)) (chunksize : Z) (contended : bool) (location_id : nat)
    : M SubeventWorld (ArrowMetrics.Status * Z) :=
  reserved_size ← on_subevents_in (fun q => reserve q chunksize 0);
  popped ← on_events_in (fun q => pop_item contended q 0 location_id);
  let '(in_status, event, success) := popped in
  wrapped ← (if success : bool then
      originals ← lift (Get event);
      mret (wrap event (sizeZ originals) 1 originals)
    else mret []);
  out_status ← (if success : bool then
      pushed ← on_subevents_in (fun q => push q wrapped reserved_size location_id);
      mret pushed.1
    else mret Ready);
  mret (next_status in_status out_status, sizeZ wrapped).

(** ** The subevent arrow *)

(** [for (input : inputs) outputs.push_back(SubeventWrapper(input.parent, ProcessSubevent(input.data), ...))]. *)
Fixpoint process_all (ProcessSubevent : InputT -> outcome OutputT) (inputs : list (SubeventWrapper InputT))
    : outcome (list (SubeventWrapper OutputT)) :=
  match inputs with
  | [] => Ok []
  | input :: rest =>
      output ← ProcessSubevent (data input);
      outputs ← process_all ProcessSubevent rest;
      Ok (mkSubeventWrapper (parent input) output (id input) (total input) :: outputs)
  end.

Definition subevent_execute (ProcessSubevent : InputT -> outcome OutputT) (chunksize : Z) (contended : bool)
    (location_id : nat) : M SubeventWorld (ArrowMetrics.Status * Z) :=
  downstream_accepts ← on_subevents_out (fun q => reserve q chunksize location_id);
  popped ← on_subevents_in (fun q => pop_vector contended q [] downstream_accepts location_id);
  outputs ← lift (process_all ProcessSubevent popped.2);
  out_status ← (if 0 <? sizeZ outputs then
      pushed ← on_subevents_out (fun q => push q outputs downstream_accepts location_id);
      mret pushed.1
    else mret Ready);
  mret (next_status popped.1 out_status, sizeZ outputs).

(** ** The merge arrow *)

(** The body of the loop over the inputs: whether the input's parent goes to the outputs. *)
Definition merge_one (Insert : Z -> OutputT -> outcome unit) (input : SubeventWrapper OutputT) : M SubeventWorld bool :=
  _ ← lift (Insert (parent input) (data input));
  if total input =? 1 then mret true
  else
    in_progress ← gets m_in_progress;
    match in_progress !! parent input with
    | None =>
        _ ← modify (set_in_progress (<[parent input := u64 (total input - 1)]> in_progress));
        mret false
    | Some second =>
        if second =? 0 then
          _ ← modify (set_in_progress (<[parent input := u64 (total input - 1)]> in_progress));
          mret false
        else if second =? 1 then
          _ ← modify (set_in_progress (<[parent input := u64 (second - 1)]> in_progress));
          mret true
        else
          _ ← modify (set_in_progress (<[parent input := u64 (second - 1)]> in_progress));
          mret false
    end.

Fixpoint merge_inputs (Insert : Z -> OutputT -> outcome unit) (inputs : list (SubeventWrapper OutputT)) (outputs : list Z)
    : M SubeventWorld (list Z) :=
  match inputs with
  | [] => mret outputs
  | input :: rest =>
      ready ← merge_one Insert input;
      merge_inputs Insert rest (if ready : bool then outputs ++ [parent input] else outputs)
  end.

Definition merge_execute (Insert : Z -> OutputT -> outcome unit) (chunksize : Z) (contended : bool)
    (location_id : nat) : M SubeventWorld (ArrowMetrics.Status * Z) :=
  downstream_accepts ← on_events_out (fun q => reserve q chunksize location_id);
  popped ← on_subevents_out (fun q => pop_vector contended q [] downstream_accepts location_id);
  outputs ← merge_inputs Insert popped.2 [];
  pushed ← on_events_out (fun q => push q outputs downstream_accepts location_id);
  let status := if 0 <? sizeZ popped.2 then next_status popped.1 pushed.1 else ComeBackLater in
  mret (status, sizeZ outputs).

End Arrows.
Arguments SubeventWorld : clear implicits.

(** ** Workers interleave *)

Section Interleaving.
Context {InputT OutputT : Type}.
Implicit Types (w : SubeventWorld InputT OutputT).

(** What a worker that is inside an [execute] holds. *)
Inductive Hand :=
| Splitting (wrapped : list (SubeventWrapper InputT))
| Processing (inputs : list (SubeventWrapper InputT))
| Processed (outputs : list (SubeventWrapper OutputT))
| Merging (inputs : list (SubeventWrapper OutputT)) (outputs : list Z).

(** A subevent is known by its parent, its number and the number of its siblings. *)
Definition key {T} (x : SubeventWrapper T) : Z * Z * Z := (parent x, id x, total x).

Definition hand_keys (h : Hand) : list (Z * Z * Z) :=
  match h with
  | Splitting xs | Processing xs => key <$> xs
  | Processed xs | Merging xs _ => key <$> xs
  end.

Definition hand_events (h : Hand) : list Z :=
  match h with Merging _ outputs => outputs | _ => [] end.

(** The arrows, their workers, the events that the rest of the topology holds, and the history
    of subevents that were split off and that were inserted into their parents; [lost] are the
    events that the split arrow has popped without getting any subevent for them. *)
Record Sys := mkSys {
  world : SubeventWorld InputT OutputT;
  hands : list Hand;
  others : list Z;
  split_off : list (Z * Z * Z);
  merged : list (Z * Z * Z);
  lost : list Z
}.

(** An event without subevents is pushed nowhere. *)
Definition lose (originals : list InputT) (e : Z) (lo : list Z) : list Z :=
  match originals with [] => e :: lo | _ => lo end.

(** What [JEvent::Get] may do for an event. *)
Context (gives : Z -> outcome (list InputT) -> Prop).

(** A worker whose [ProcessSubevent] or [Insert] throws takes no further step: it keeps what it holds. *)
Inductive sub_step : Sys -> Sys -> Prop :=
| st_reserve w hs o so mg lo (m : M (SubeventWorld InputT OutputT) Z) n loc r w' :
    m ∈ [on_subevents_in (fun q => reserve q n loc); on_subevents_out (fun q => reserve q n loc);
         on_events_out (fun q => reserve q n loc)] ->
    m w = (Ok r, w') -> sub_step (mkSys w hs o so mg lo) (mkSys w' hs o so mg lo)
| st_split_none w hs o so mg lo c loc st e w' :
    on_events_in (fun q => pop_item c q 0 loc) w = (Ok (st, e, false), w') ->
    sub_step (mkSys w hs o so mg lo) (mkSys w' hs o so mg lo)
| st_split w hs o so mg lo c loc st e w' originals :
    on_events_in (fun q => pop_item c q 0 loc) w = (Ok (st, e, true), w') ->
    gives e (Ok originals) -> sizeZ originals < 2 ^ 64 ->
    let wrapped := wrap e (sizeZ originals) 1 originals in
    sub_step (mkSys w hs o so mg lo) (mkSys w' (Splitting wrapped :: hs) o (so ++ (key <$> wrapped)) mg (lose originals e lo))
| st_split_throw w hs o so mg lo c loc st e w' x :
    on_events_in (fun q => pop_item c q 0 loc) w = (Ok (st, e, true), w') -> gives e (Throw x) ->
    sub_step (mkSys w hs o so mg lo) (mkSys w' hs o so mg (e :: lo))
| st_split_push w hs hs' o so mg lo wrapped n loc r w' :
    hs ≡ₚ Splitting wrapped :: hs' ->
    on_subevents_in (fun q => push q wrapped n loc) w = (Ok r, w') ->
    sub_step (mkSys w hs o so mg lo) (mkSys w' hs' o so mg lo)
| st_pop w hs o so mg lo c n loc st inputs w' :
    on_subevents_in (fun q => pop_vector c q [] n loc) w = (Ok (st, inputs), w') ->
    sub_step (mkSys w hs o so mg lo) (mkSys w' (Processing inputs :: hs) o so mg lo)
| st_process w hs hs' o so mg lo (ProcessSubevent : InputT -> outcome OutputT) inputs outputs :
    hs ≡ₚ Processing inputs :: hs' -> process_all ProcessSubevent inputs = Ok outputs ->
    sub_step (mkSys w hs o so mg lo) (mkSys w (Processed outputs :: hs') o so mg lo)
| st_process_none w hs hs' o so mg lo :
    hs ≡ₚ Processed [] :: hs' -> sub_step (mkSys w hs o so mg lo) (mkSys w hs' o so mg lo)
| st_push w hs hs' o so mg lo outputs n loc r w' :
    hs ≡ₚ Processed outputs :: hs' ->
    on_subevents_out (fun q => push q outputs n loc) w = (Ok r, w') ->
    sub_step (mkSys w hs o so mg lo) (mkSys w' hs' o so mg lo)
| st_merge_pop w hs o so mg lo c n loc st inputs w' :
    on_subevents_out (fun q => pop_vector c q [] n loc) w = (Ok (st, inputs), w') ->
    sub_step (mkSys w hs o so mg lo) (mkSys w' (Merging inputs [] :: hs) o so mg lo)
| st_merge w hs hs' o so mg lo Insert input inputs outputs (ready : bool) w' :
    hs ≡ₚ Merging (input :: inputs) outputs :: hs' -> merge_one Insert input w = (Ok ready, w') ->
    let outputs' := if ready then outputs ++ [parent input] else outputs in
    sub_step (mkSys w hs o so mg lo) (mkSys w' (Merging inputs outputs' :: hs') o so (mg ++ [key input]) lo)
| st_merge_push w hs hs' o so mg lo outputs n loc r w' :
    hs ≡ₚ Merging [] outputs :: hs' ->
    on_events_out (fun q => push q outputs n loc) w = (Ok r, w') ->
    sub_step (mkSys w hs o so mg lo) (mkSys w' hs' o so mg lo)
| st_arrive w hs o o' so mg lo q loc ins :
    o ≡ₚ ins ++ o' -> op_step 0 (events_in w) loc ins [] q ->
    sub_step (mkSys w hs o so mg lo)
      (mkSys (mkSubeventWorld q (subevents_in w) (subevents_out w) (events_out w) (m_in_progress w)) hs o' so mg lo)
| st_leave w hs o so mg lo q loc outs :
    op_step 0 (events_out w) loc [] outs q ->
    sub_step (mkSys w hs o so mg lo)
      (mkSys (mkSubeventWorld (events_in w) (subevents_in w) (subevents_out w) q (m_in_progress w)) hs (outs ++ o) so mg lo).

(** The subevents between the split and the merge arrow, and the events that are not split. *)
Definition inside (s : Sys) : list (Z * Z * Z) :=
  (key <$> mailbox_items (subevents_in (world s))) ++ (key <$> mailbox_items (subevents_out (world s)))
    ++ concat (hand_keys <$> hands s).

Definition outside (s : Sys) : list Z :=
  mailbox_items (events_in (world s)) ++ mailbox_items (events_out (world s)) ++ others s
    ++ concat (hand_events <$> hands s).

(** The subevents of [p]. *)
Definition of_parent (p : Z) (l : list (Z * Z * Z)) : list (Z * Z * Z) := filter (fun k => k.1.1 = p) l.

(** What the entry of [p] in [m_in_progress] says about the subevents [l] of [p] that are inside. *)
Definition entry_ok (entry : Z) (l : list (Z * Z * Z)) : Prop :=
  l = [] /\ entry = 0 \/
  exists n, 1 <= sizeZ l <= n /\ n < 2 ^ 64 /\ Forall (fun k => k.2 = n) l /\
    entry = if sizeZ l =? n then 0 else sizeZ l.

Record balanced (events out : list Z) (ins : list (Z * Z * Z)) (m : gmap Z Z) (so mg : list (Z * Z * Z)) : Prop := {
  ba_events : exists open, events ≡ₚ out ++ open /\ forall p, p ∈ open <-> of_parent p ins <> [];
  ba_table : forall p, entry_ok (default 0 (m !! p)) (of_parent p ins);
  ba_history : so ≡ₚ ins ++ mg
}.

Definition sys_ok (events : list Z) (s : Sys) : Prop :=
  balanced events (outside s ++ lost s) (inside s) (m_in_progress (world s)) (split_off s) (merged s).

Lemma of_parent_perm p l l' : l ≡ₚ l' -> of_parent p l ≡ₚ of_parent p l'.
Proof. unfold of_parent. by intros ->. Qed.

Lemma perm_nil_iff {A} (l l' : list A) : l ≡ₚ l' -> l = [] <-> l' = [].
Proof. intros H. split; intros ->; [by apply Permutation_nil_l in H|by apply Permutation_nil_r in H]. Qed.

Lemma entry_ok_perm e l l' : l ≡ₚ l' -> entry_ok e l -> entry_ok e l'.
Proof.
  intros H [[-> ->]|(n & Hl & Hn & Hf & ->)].
  - left. split; [by apply Permutation_nil_l in H|done].
  - right. exists n. pose proof (Permutation_length H) as Hlen. unfold sizeZ in *. rewrite <- Hlen, <- H. auto.
Qed.

Lemma balanced_perm events out out' ins ins' m so mg :
  out ≡ₚ out' -> ins ≡ₚ ins' -> balanced events out ins m so mg -> balanced events out' ins' m so mg.
Proof.
  intros Ho Hi [(open & He & Hopen) Ht Hh]. split.
  - exists open. rewrite <- Ho. split; [done|]. intros p. rewrite Hopen.
    by rewrite (perm_nil_iff _ _ (of_parent_perm p _ _ Hi)).
  - intros p. eapply entry_ok_perm; [by apply of_parent_perm|done].
  - by rewrite <- Hi.
Qed.

Lemma of_parent_all p ks : Forall (fun k : Z * Z * Z => k.1.1 = p) ks -> of_parent p ks = ks.
Proof. unfold of_parent. induction 1 as [|k ks Hk _ IH]; [done|]. by rewrite filter_cons_True, IH. Qed.

Lemma of_parent_other p q ks : Forall (fun k : Z * Z * Z => k.1.1 = p) ks -> p <> q -> of_parent q ks = [].
Proof.
  unfold of_parent. intros H Hne. induction H as [|k ks Hk _ IH]; [done|].
  rewrite filter_cons_False; [done|congruence].
Qed.

(** Splitting an event that is outside opens it. *)
Lemma balanced_split events e out ins m so mg ks :
  NoDup events -> balanced events (e :: out) ins m so mg ->
  ks <> [] -> sizeZ ks < 2 ^ 64 -> Forall (fun k => k.1.1 = e) ks -> Forall (fun k => k.2 = sizeZ ks) ks ->
  balanced events out (ks ++ ins) m (so ++ ks) mg.
Proof.
  intros Hnd [(open & He & Hopen) Ht Hh] Hne Hsz Hks Hn.
  assert (Hno : of_parent e ins = []).
  { rewrite He in Hnd. inversion_clear Hnd as [|? ? Hnot _].
    destruct (decide (of_parent e ins = [])) as [|Hx]; [done|]. apply Hopen in Hx. set_solver. }
  assert (Hp : forall p, of_parent p (ks ++ ins) = if decide (p = e) then ks else of_parent p ins).
  { intros p. unfold of_parent. rewrite filter_app. fold (of_parent p ks). fold (of_parent p ins). case_decide as Hpe.
    - subst p. by rewrite Hno, (of_parent_all _ _ Hks), app_nil_r.
    - by rewrite (of_parent_other e p _ Hks). }
  split.
  - exists (e :: open). split; [rewrite He; solve_Permutation|]. intros p. rewrite Hp, elem_of_cons, Hopen.
    case_decide; subst; [rewrite Hno|]; naive_solver.
  - intros p. rewrite Hp. case_decide as Hpe; [subst p|apply Ht]. specialize (Ht e). rewrite Hno in Ht.
    right. exists (sizeZ ks). destruct Ht as [[_ ->]|(n & H1 & _)]; [|rewrite sizeZ_nil in H1; lia].
    rewrite Z.eqb_refl. destruct ks; [done|]. rewrite sizeZ_cons in *. size_lia. naive_solver lia.
  - rewrite Hh. solve_Permutation.
Qed.

(** What the loop body of the merge arrow does to an entry. *)
Definition next_entry (n entry : Z) : bool * Z :=
  if n =? 1 then (true, entry)
  else if entry =? 0 then (false, n - 1)
  else if entry =? 1 then (true, 0)
  else (false, entry - 1).

Lemma next_entry_ok entry k l :
  entry_ok entry (k :: l) ->
  entry_ok (next_entry k.2 entry).2 l /\ ((next_entry k.2 entry).1 = true <-> l = []).
Proof.
  intros [[? _]|(n & Hl & Hn & Hf & ->)]; [done|]. inversion_clear Hf as [|? ? Hk Hrest].
  rewrite sizeZ_cons in *. unfold next_entry. rewrite Hk.
  assert (Hnil : sizeZ l = 0 <-> l = []).
  { destruct l; [done|]. rewrite sizeZ_cons. size_lia. naive_solver lia. }
  pose proof (sizeZ_nonneg l).
  repeat case_match; rewrite ?Z.eqb_eq, ?Z.eqb_neq in *; try lia; simpl.
  all: split; [|rewrite <- Hnil; naive_solver lia].
  all: first [left; split; [apply Hnil|]; lia
    |right; exists n; split; [lia|]; split; [done|]; split; [done|];
     destruct (Z.eqb_spec (sizeZ l) n); lia].
Qed.

Lemma balanced_merge events out k ins m m' so mg :
  NoDup events -> balanced events out (k :: ins) m so mg ->
  (forall p, default 0 (m' !! p) = if decide (p = k.1.1) then (next_entry k.2 (default 0 (m !! p))).2
                                   else default 0 (m !! p)) ->
  let ready := (next_entry k.2 (default 0 (m !! k.1.1))).1 in
  balanced events ((if ready : bool then [k.1.1] else []) ++ out) ins m' so (mg ++ [k]).
Proof.
  intros Hnd [(open & He & Hopen) Ht Hh] Hm' ready.
  assert (Hp : forall p, of_parent p (k :: ins) = if decide (p = k.1.1) then k :: of_parent p ins else of_parent p ins).
  { intros p. unfold of_parent. case_decide; [by rewrite filter_cons_True|by rewrite filter_cons_False]. }
  pose proof (Ht k.1.1) as Hk. rewrite Hp, decide_True in Hk by done. apply next_entry_ok in Hk as [Hk Hready].
  fold ready in Hready.
  assert (Hin : k.1.1 ∈ open) by (apply Hopen; rewrite Hp, decide_True; done).
  split.
  - assert (Hnd' : NoDup open) by (rewrite He in Hnd; by apply NoDup_app in Hnd as (_ & _ & ?)).
    destruct ready eqn:Hr.
    + apply elem_of_Permutation in Hin as [open' Hin]. exists open'.
      split; [rewrite He, Hin; solve_Permutation|]. rewrite Hin in Hnd'. apply NoDup_cons in Hnd' as [Hnot _].
      intros p. specialize (Hopen p). rewrite Hin, elem_of_cons, Hp in Hopen. case_decide; [subst p|naive_solver].
      rewrite (proj1 Hready eq_refl). naive_solver.
    + exists open. split; [done|]. intros p. rewrite Hopen, Hp. case_decide; [subst p|done].
      destruct (of_parent k.1.1 ins); naive_solver.
  - intros p. rewrite Hm'. case_decide; [by subst p|]. specialize (Ht p). by rewrite Hp, decide_False in Ht.
  - rewrite Hh. solve_Permutation.
Qed.

(** The loop body does to the table what [next_entry] says. *)
Lemma merge_one_entry Insert (input : SubeventWrapper OutputT) w ready w' :
  0 <= total input < 2 ^ 64 ->
  (forall v, m_in_progress w !! parent input = Some v -> 0 <= v < 2 ^ 64) ->
  total input <> 0 ->
  merge_one Insert input w = (Ok ready, w') ->
  exists m', w' = set_in_progress m' w /\
    ready = (next_entry (total input) (default 0 (m_in_progress w !! parent input))).1 /\
    forall p, default 0 (m' !! p) = if decide (p = parent input)
      then (next_entry (total input) (default 0 (m_in_progress w !! p))).2 else default 0 (m_in_progress w !! p).
Proof.
  intros Ht Hv Ht0 H. unfold merge_one in H. apply M_bind_inv in H as ([] & w1 & H1 & H).
  unfold lift in H1. simplify_eq. unfold next_entry.
  destruct (total input =? 1) eqn:Hone.
  { injection H as <- <-. exists (m_in_progress w1). split; [by destruct w1|]. split; [done|].
    intros p. case_decide; by subst. }
  autorewrite with monad in H.
  destruct (m_in_progress w1 !! parent input) as [v|] eqn:Hl; simpl in H |- *.
  - specialize (Hv v eq_refl). destruct (Z.eqb_spec v 0); [|destruct (Z.eqb_spec v 1)]; injection H as <- <-;
      (eexists; split; [reflexivity|]; split; [done|]);
      intros p; (case_decide; [subst p; rewrite lookup_insert_eq, Hl; simpl|by rewrite lookup_insert_ne]);
      repeat case_match; rewrite ?Z.eqb_eq, ?Z.eqb_neq in *; try lia; simpl; apply u64_small || (rewrite u64_small); lia.
  - injection H as <- <-. eexists; split; [reflexivity|]; split; [done|].
    intros p. case_decide; [subst p; rewrite lookup_insert_eq, Hl; simpl|by rewrite lookup_insert_ne].
    apply u64_small; lia.
Qed.

Lemma perm_concat_fmap {A B} (f : A -> list B) l l' : l ≡ₚ l' -> concat (f <$> l) ≡ₚ concat (f <$> l').
Proof. induction 1; simpl; [done|by f_equiv|solve_Permutation|by etransitivity]. Qed.

(** A call on a queue: the items it moves, and what else of the world it leaves alone. *)
Definition moves_subevents_in (ins outs : list (SubeventWrapper InputT)) w w' : Prop :=
  exists q, mailbox_items (subevents_in w) ++ ins ≡ₚ outs ++ mailbox_items q /\
    w' = mkSubeventWorld (events_in w) q (subevents_out w) (events_out w) (m_in_progress w).

Definition moves_subevents_out (ins outs : list (SubeventWrapper OutputT)) w w' : Prop :=
  exists q, mailbox_items (subevents_out w) ++ ins ≡ₚ outs ++ mailbox_items q /\
    w' = mkSubeventWorld (events_in w) (subevents_in w) q (events_out w) (m_in_progress w).

Definition moves_events_in (ins outs : list Z) w w' : Prop :=
  exists q, mailbox_items (events_in w) ++ ins ≡ₚ outs ++ mailbox_items q /\
    w' = mkSubeventWorld q (subevents_in w) (subevents_out w) (events_out w) (m_in_progress w).

Definition moves_events_out (ins outs : list Z) w w' : Prop :=
  exists q, mailbox_items (events_out w) ++ ins ≡ₚ outs ++ mailbox_items q /\
    w' = mkSubeventWorld (events_in w) (subevents_in w) (subevents_out w) q (m_in_progress w).

Lemma events_in_moves {A} (op : JMailbox Z -> outcome (A * JMailbox Z)) w a w' loc ins outs :
  on_events_in op w = (Ok a, w') ->
  (forall q, op (events_in w) = Ok (a, q) -> op_step 0 (events_in w) loc ins outs q) -> moves_events_in ins outs w w'.
Proof.
  unfold on_events_in. destruct (op _) as [[a' q]| |]; intros [= <- <-] H. exists q.
  split; [|done]. eapply op_step_items. by apply H.
Qed.

Lemma events_out_moves {A} (op : JMailbox Z -> outcome (A * JMailbox Z)) w a w' loc ins outs :
  on_events_out op w = (Ok a, w') ->
  (forall q, op (events_out w) = Ok (a, q) -> op_step 0 (events_out w) loc ins outs q) -> moves_events_out ins outs w w'.
Proof.
  unfold on_events_out. destruct (op _) as [[a' q]| |]; intros [= <- <-] H. exists q.
  split; [|done]. eapply op_step_items. by apply H.
Qed.

Lemma subevents_in_moves {A} null op w (a : A) w' loc ins outs :
  on_subevents_in op w = (Ok a, w') ->
  (forall q, op (subevents_in w) = Ok (a, q) -> op_step null (subevents_in w) loc ins outs q) ->
  moves_subevents_in ins outs w w'.
Proof.
  unfold on_subevents_in. destruct (op _) as [[a' q]| |]; intros [= <- <-] H. exists q.
  split; [|done]. eapply op_step_items. by apply H.
Qed.

Lemma subevents_out_moves {A} null op w (a : A) w' loc ins outs :
  on_subevents_out op w = (Ok a, w') ->
  (forall q, op (subevents_out w) = Ok (a, q) -> op_step null (subevents_out w) loc ins outs q) ->
  moves_subevents_out ins outs w w'.
Proof.
  unfold on_subevents_out. destruct (op _) as [[a' q]| |]; intros [= <- <-] H. exists q.
  split; [|done]. eapply op_step_items. by apply H.
Qed.

Lemma wrap_keys e n : forall i (l : list InputT),
  length (wrap e n i l) = length l /\ Forall (fun k => k.1.1 = e /\ k.2 = n) (key <$> wrap e n i l).
Proof.
  intros i l. revert i. induction l as [|x l IH]; intros i; [done|].
  simpl. destruct (IH (u64 (i + 1))). split; [by f_equal|by constructor].
Qed.

Lemma wrap_size e n i (l : list InputT) : sizeZ (key <$> wrap e n i l) = sizeZ l.
Proof. unfold sizeZ. by rewrite length_fmap, (proj1 (wrap_keys e n i l)). Qed.

Lemma process_all_keys f (inputs : list (SubeventWrapper InputT)) (outputs : list (SubeventWrapper OutputT)) :
  process_all f inputs = Ok outputs -> key <$> outputs = key <$> inputs.
Proof.
  revert outputs. induction inputs as [|x l IH]; simpl; intros outputs; [by intros [= <-]|].
  destruct (f (data x)) as [y| |]; simpl; try done. destruct (process_all f l) as [ys| |]; simpl; try done.
  intros [= <-]. by rewrite !fmap_cons, (IH ys).
Qed.

Context (null_in : SubeventWrapper InputT) (null_out : SubeventWrapper OutputT).

Lemma merge_one_world Insert (input : SubeventWrapper OutputT) w ready w' :
  merge_one Insert input w = (Ok ready, w') -> exists m', w' = set_in_progress m' w.
Proof.
  intros H. unfold merge_one in H. apply M_bind_inv in H as ([] & w1 & H1 & H). unfold lift in H1. simplify_eq.
  destruct (total input =? 1); [injection H as _ <-; exists (m_in_progress w1); by destruct w1|].
  autorewrite with monad in H. destruct (_ !! _) as [v|]; [|injection H as _ <-; eauto].
  destruct (v =? 0), (v =? 1); injection H as _ <-; eauto.
Qed.

(** What the workers hold when one of them holds [h]. *)
Definition hands_are (hs : list Hand) (h : Hand) (hs' : list Hand) : Prop :=
  concat (hand_keys <$> hs) ≡ₚ hand_keys h ++ concat (hand_keys <$> hs') /\
  concat (hand_events <$> hs) ≡ₚ hand_events h ++ concat (hand_events <$> hs').

Lemma hands_hold hs h hs' : hs ≡ₚ h :: hs' -> hands_are hs h hs'.
Proof. intros H. by split; rewrite (perm_concat_fmap _ _ _ H). Qed.

(** Use the items [Hq] that a call moved, and that [hs] holds the hand of the worker. *)
Ltac account Hq :=
  rewrite ?app_nil_r in Hq; simpl in Hq; try (apply (fmap_Permutation key) in Hq; rewrite ?fmap_app in Hq; simpl in Hq);
  unfold inside, outside; simpl; rewrite ?fmap_app, ?fmap_nil, ?app_nil_r; simpl;
  try match goal with H : hands_are _ _ _ |- _ => destruct H as [Hk He]; rewrite Hk, He end;
  first [rewrite Hq|rewrite <- Hq]; repeat split; try done; try solve_Permutation.

(** Each step is one of three things: it only moves subevents and events, it splits an event, or
    it merges one subevent. *)
Lemma sub_step_cases s s' :
  sub_step s s' ->
  inside s ≡ₚ inside s' /\ outside s ++ lost s ≡ₚ outside s' ++ lost s' /\ m_in_progress (world s') = m_in_progress (world s) /\
    split_off s' = split_off s /\ merged s' = merged s \/
  (exists e (originals : list InputT), originals <> [] /\ sizeZ originals < 2 ^ 64 /\
     let ks := key <$> wrap e (sizeZ originals) 1 originals in
     outside s ++ lost s ≡ₚ e :: outside s' ++ lost s' /\ inside s' ≡ₚ ks ++ inside s /\
     m_in_progress (world s') = m_in_progress (world s) /\ split_off s' = split_off s ++ ks /\ merged s' = merged s) \/
  (exists Insert input ready, merge_one Insert input (world s) = (Ok ready, world s') /\
     inside s ≡ₚ key input :: inside s' /\
     outside s' ++ lost s' ≡ₚ (if ready : bool then [parent input] else []) ++ outside s ++ lost s /\
     split_off s' = split_off s /\ merged s' = merged s ++ [key input]).
Proof.
  destruct 1 as [w hs o so mg lo m n loc r w' Hm H|w hs o so mg lo c loc st e w' H|w hs o so mg lo c loc st e w' originals H HG Hsz ks
    |w hs o so mg lo c loc st e w' x H Hx
    |w hs hs' o so mg lo ws n loc r w' Hh%hands_hold H|w hs o so mg lo c n loc st ins w' H|w hs hs' o so mg lo f ins outs Hh%hands_hold H
    |w hs hs' o so mg lo Hh%hands_hold|w hs hs' o so mg lo outs n loc r w' Hh%hands_hold H|w hs o so mg lo c n loc st ins w' H
    |w hs hs' o so mg lo Insert i ins outs ready w' Hh%hands_hold H outs'|w hs hs' o so mg lo outs n loc r w' Hh%hands_hold H
    |w hs o o' so mg lo q loc ins Ho H|w hs o so mg lo q loc outs H];
    [left|left|destruct originals as [|x0 l0]; [left|right; left]|left|left|left|left|left|left|left|right; right|left|left|left].
  - rewrite !elem_of_cons, elem_of_nil in Hm. destruct Hm as [->|[->|[->|[]]]].
    + apply (subevents_in_moves null_in _ _ _ _ loc [] []) in H as (q & Hq & ->); [account Hq|by econstructor].
    + apply (subevents_out_moves null_out _ _ _ _ loc [] []) in H as (q & Hq & ->); [account Hq|by econstructor].
    + apply (events_out_moves _ _ _ _ loc [] []) in H as (q & Hq & ->); [account Hq|by econstructor].
  - apply (events_in_moves _ _ _ _ loc [] []) in H as (q & Hq & ->); [account Hq|].
    intros q Hq. by apply (os_pop_item _ _ _ _ _ _ _ Hq).
  - apply (events_in_moves _ _ _ _ loc [] [e]) in H as (q & Hq & ->); [account Hq|].
    intros q Hq. by apply (os_pop_item _ _ _ _ _ _ _ Hq).
  - exists e, (x0 :: l0). split; [done|]. split; [done|].
    apply (events_in_moves _ _ _ _ loc [] [e]) in H as (q & Hq & ->); [account Hq|].
    intros q Hq. by apply (os_pop_item _ _ _ _ _ _ _ Hq).
  - apply (events_in_moves _ _ _ _ loc [] [e]) in H as (q & Hq & ->); [account Hq|].
    intros q Hq. by apply (os_pop_item _ _ _ _ _ _ _ Hq).
  - apply (subevents_in_moves null_in _ _ _ _ loc ws []) in H as (q & Hq & ->); [account Hq|by econstructor].
  - apply (subevents_in_moves null_in _ _ _ _ loc [] ins) in H as (q & Hq & ->); [account Hq|].
    intros q Hq. by apply (os_pop_vector _ _ _ _ [] _ _ _ Hq).
  - apply process_all_keys in H. account H.
  - destruct Hh as [Hk He]. unfold inside, outside. simpl. by rewrite Hk, He.
  - apply (subevents_out_moves null_out _ _ _ _ loc outs []) in H as (q & Hq & ->); [account Hq|by econstructor].
  - apply (subevents_out_moves null_out _ _ _ _ loc [] ins) in H as (q & Hq & ->); [account Hq|].
    intros q Hq. by apply (os_pop_vector _ _ _ _ [] _ _ _ Hq).
  - exists Insert, i, ready. split; [done|]. destruct (merge_one_world _ _ _ _ _ H) as [m' ->]. destruct Hh as [Hk He].
    unfold inside, outside, outs'. simpl. rewrite Hk, He.
    destruct ready; simpl; repeat split; try done; solve_Permutation.
  - apply (events_out_moves _ _ _ _ loc outs []) in H as (q & Hq & ->); [account Hq|by econstructor].
  - apply op_step_items in H. simpl in H. unfold inside, outside. simpl. rewrite <- H, Ho. repeat split; try done.
    solve_Permutation.
  - apply op_step_items in H. account H.
Qed.

Lemma entry_ok_range e k l : entry_ok e (k :: l) -> 0 <= e < 2 ^ 64 /\ 1 <= k.2 < 2 ^ 64.
Proof.
  intros [[? _]|(n & Hl & Hn & Hf & ->)]; [done|]. inversion_clear Hf as [|? ? Hk _]. case_match; lia.
Qed.

Lemma sub_step_ok events s s' : NoDup events -> sys_ok events s -> sub_step s s' -> sys_ok events s'.
Proof.
  unfold sys_ok. intros Hnd Hok [(Hi & Ho & -> & -> & ->)|[(e & l & Hne & Hsz & Ho & Hi & -> & -> & ->)
    |(Insert & i & ready & Hm & Hi & Ho & -> & ->)]]%sub_step_cases.
  - by eapply balanced_perm.
  - symmetry in Hi. eapply (balanced_perm _ _ _ _ _ _ _ _ (Permutation_refl _) Hi), balanced_split; try done.
    + by eapply (balanced_perm _ _ _ _ _ _ _ _ Ho (Permutation_refl _)).
    + destruct l; [done|]. simpl. done.
    + by rewrite wrap_size.
    + eapply Forall_impl; [apply wrap_keys|]. naive_solver.
    + rewrite wrap_size. eapply Forall_impl; [apply wrap_keys|]. naive_solver.
  - apply (balanced_perm _ _ _ _ _ _ _ _ (Permutation_refl _) Hi) in Hok. symmetry in Ho.
    pose proof (ba_table _ _ _ _ _ _ Hok (parent i)) as Ht. unfold of_parent in Ht.
    rewrite filter_cons_True in Ht by done. apply entry_ok_range in Ht as [Hv Hn].
    apply merge_one_entry in Hm as (m' & -> & -> & Hm'); [|simpl in Hn; lia|by intros v Hl; rewrite Hl in Hv|simpl in Hn; lia].
    eapply (balanced_perm _ _ _ _ _ _ _ _ Ho (Permutation_refl _)), (balanced_merge _ _ (key i)); done.
Qed.

(** An event that is lost had no subevents, or getting them failed. *)
Lemma lost_step s s' : Forall (fun e => gives e (Ok []) \/ exists x, gives e (Throw x)) (lost s) -> sub_step s s' ->
  Forall (fun e => gives e (Ok []) \/ exists x, gives e (Throw x)) (lost s').
Proof.
  intros Hl Hs. destruct Hs; try exact Hl; cbn in *.
  - destruct originals; [constructor; auto|done].
  - constructor; eauto.
Qed.


(** ** The executions consist of these steps *)

Lemma split_execute_steps Get n c loc w hs o so mg lo r w' :
  (forall e, gives e (Get e)) -> (forall e l, Get e = Ok l -> sizeZ l < 2 ^ 64) ->
  split_execute Get n c loc w = (Ok r, w') ->
  exists so' lo', steps sub_step (mkSys w hs o so mg lo) (mkSys w' hs o so' mg lo').
Proof.
  intros Hgives HGet H. unfold split_execute in H.
  apply M_bind_inv in H as (k & w1 & H1 & H). apply M_bind_inv in H as ([[st e] ok] & w2 & H2 & H).
  assert (Hr : sub_step (mkSys w hs o so mg lo) (mkSys w1 hs o so mg lo)).
  { eapply (st_reserve _ _ _ _ _ _ _ n 0); [|exact H1]. set_solver. }
  destruct ok.
  - apply M_bind_inv in H as (ws & w3 & H3 & H). apply M_bind_inv in H3 as (l & w4 & H4 & H3).
    unfold lift in H4. injection H4 as H4 <-. injection H3 as <- <-. pose proof (HGet _ _ H4) as Hsz. pose proof (Hgives e) as Hg. rewrite H4 in Hg.
    apply M_bind_inv in H as (k2 & w5 & H5 & H). apply M_bind_inv in H5 as (x & w6 & H6 & H5).
    injection H5 as _ <-. injection H as _ <-. eexists _, _.
    eapply steps_cons; [exact Hr|]. eapply steps_cons; [by eapply (st_split _ _ _ _ _ _ c loc)|].
    eapply steps_cons; [by eapply st_split_push|apply steps_refl].
  - injection H as _ <-. exists so, lo. eapply steps_cons; [exact Hr|].
    eapply steps_cons; [by eapply st_split_none|apply steps_refl].
Qed.

Lemma subevent_execute_steps f n c loc w hs o so mg lo r w' :
  subevent_execute f n c loc w = (Ok r, w') -> steps sub_step (mkSys w hs o so mg lo) (mkSys w' hs o so mg lo).
Proof.
  intros H. unfold subevent_execute in H.
  apply M_bind_inv in H as (k & w1 & H1 & H). apply M_bind_inv in H as ([st ins] & w2 & H2 & H).
  apply M_bind_inv in H as (outs & w3 & H3 & H). unfold lift in H3. injection H3 as H3 <-.
  eapply steps_cons; [eapply (st_reserve _ _ _ _ _ _ _ n loc); [|exact H1]; set_solver|].
  eapply steps_cons; [by eapply st_pop|]. eapply steps_cons; [by eapply st_process|].
  destruct (Z.ltb_spec 0 (sizeZ outs)) as [|Hz].
  - apply M_bind_inv in H as (k2 & w5 & H5 & H). apply M_bind_inv in H5 as (x & w6 & H6 & H5).
    injection H5 as _ <-. injection H as _ <-. eapply steps_cons; [by eapply st_push|apply steps_refl].
  - injection H as _ <-. destruct outs; [|rewrite sizeZ_cons in Hz; size_lia].
    eapply steps_cons; [by eapply st_process_none|apply steps_refl].
Qed.

Lemma merge_inputs_steps Insert ins : forall outs w hs o so mg lo outs' w',
  merge_inputs Insert ins outs w = (Ok outs', w') ->
  exists mg', steps sub_step (mkSys w (Merging ins outs :: hs) o so mg lo) (mkSys w' (Merging [] outs' :: hs) o so mg' lo).
Proof.
  induction ins as [|i ins IH]; intros outs w hs o so mg lo outs' w' H; simpl in H.
  - injection H as <- <-. exists mg. apply steps_refl.
  - apply M_bind_inv in H as (ready & w1 & H1 & H). eapply IH in H as [mg' H]. exists mg'.
    eapply steps_cons; [by eapply st_merge|exact H].
Qed.

Lemma merge_execute_steps Insert n c loc w hs o so mg lo r w' :
  merge_execute Insert n c loc w = (Ok r, w') ->
  exists mg', steps sub_step (mkSys w hs o so mg lo) (mkSys w' hs o so mg' lo).
Proof.
  intros H. unfold merge_execute in H.
  apply M_bind_inv in H as (k & w1 & H1 & H). apply M_bind_inv in H as ([st ins] & w2 & H2 & H).
  apply M_bind_inv in H as (outs & w3 & H3 & H). apply M_bind_inv in H as (x & w4 & H4 & H). injection H as _ <-.
  eapply merge_inputs_steps in H3 as [mg' H3]. exists mg'.
  eapply steps_cons; [eapply (st_reserve _ _ _ _ _ _ _ n loc); [|exact H1]; set_solver|].
  eapply steps_cons; [by eapply st_merge_pop|]. eapply steps_trans; [exact H3|].
  eapply steps_cons; [by eapply st_merge_push|apply steps_refl].
Qed.

End Interleaving.
Arguments Hand : clear implicits.
Arguments Sys : clear implicits.

(** ** What goes wrong *)

Section Flaws.
Context {InputT OutputT : Type} (null_in : SubeventWrapper InputT).
Implicit Types (w : SubeventWorld InputT OutputT).

Lemma on_events_in_ok {A} op w (a : A) q :
  op (events_in w) = Ok (a, q) ->
  on_events_in op w = (Ok a, mkSubeventWorld q (subevents_in w) (subevents_out w) (events_out w) (m_in_progress w)).
Proof. unfold on_events_in. by intros ->. Qed.

Lemma on_subevents_in_ok {A} op w (a : A) q :
  op (subevents_in w) = Ok (a, q) ->
  on_subevents_in op w = (Ok a, mkSubeventWorld (events_in w) q (subevents_out w) (events_out w) (m_in_progress w)).
Proof. unfold on_subevents_in. by intros ->. Qed.

Lemma on_subevents_out_ok {A} op w (a : A) q :
  op (subevents_out w) = Ok (a, q) ->
  on_subevents_out op w = (Ok a, mkSubeventWorld (events_in w) (subevents_in w) q (events_out w) (m_in_progress w)).
Proof. unfold on_subevents_out. by intros ->. Qed.

(** Run a call on a queue with the equation [H]. *)
Tactic Notation "qstep" uconstr(L) hyp(H) := erewrite M_bind_ok; [|eapply L; exact H]; cbn beta iota.

(** The split arrow drops an event without subevents: it takes it off its queue, and it is in no
    queue afterwards. *)
Lemma childless_event_is_lost Get n loc w e r qs :
  Get e = Ok [] -> m_queues (events_in w) !! loc = Some (mkLocalQueue (e :: r) 0) ->
  m_queues (subevents_in w) !! 0%nat = Some qs -> is_Some (m_queues (subevents_in w) !! loc) ->
  exists st w', split_execute Get n false loc w = (Ok (st, 0), w') /\
    mailbox_items (events_in w) ≡ₚ e :: mailbox_items (events_in w') /\
    mailbox_items (subevents_in w') ≡ₚ mailbox_items (subevents_in w) /\
    subevents_out w' = subevents_out w /\ events_out w' = events_out w.
Proof.
  intros HGet Hq Hs0 [ql Hl].
  assert (H1 : exists k q, reserve (subevents_in w) n 0 = Ok (k, q) /\ is_Some (m_queues q !! loc)).
  { unfold reserve, at_location. rewrite Hs0. case_match; simpl; eexists _, _; (split; [reflexivity|]); simpl;
      apply lookup_lt_is_Some; rewrite length_insert; by eapply lookup_lt_Some. }
  destruct H1 as (k & q1 & H1 & [ql1 Hl1]).
  assert (H2 : exists st q, pop_item false (events_in w) 0 loc = Ok ((st, e, true), q)).
  { unfold pop_item, at_location. rewrite Hq. simpl. destruct r; simpl; eauto. }
  destruct H2 as (st & q2 & H2).
  assert (H3 : exists st' q3, push q1 [] k loc = Ok ((st', []), q3)).
  { unfold push, at_location. rewrite Hl1. simpl. eauto. }
  destruct H3 as (st' & q3 & H3).
  eexists _, (mkSubeventWorld q2 q3 (subevents_out w) (events_out w) (m_in_progress w)). split; [|split; [|split; [|done]]].
  - unfold split_execute. qstep on_subevents_in_ok H1. qstep on_events_in_ok H2.
    erewrite M_bind_ok; [|unfold mbind, M_bind, lift; rewrite HGet; reflexivity]. rewrite M_bind_assoc.
    qstep on_subevents_in_ok H3. reflexivity.
  - simpl. pose proof (op_step_items 0 _ _ _ _ _ (os_pop_item _ _ _ _ _ _ _ H2)) as H. by rewrite app_nil_r in H.
  - simpl. pose proof (op_step_items null_in _ _ _ _ _ (os_reserve _ _ _ _ _ _ H1)) as Ha.
    pose proof (op_step_items null_in _ _ _ _ _ (os_push _ _ _ _ _ _ _ H3)) as Hb.
    rewrite app_nil_r in Ha, Hb. simpl in *. by rewrite Ha, Hb.
Qed.

(** The subevent arrow at [loc] has nothing to do, and [reserved] slots downstream are reserved. *)
Definition idle (loc : nat) (reserved : Z) w : Prop :=
  (exists q, m_queues (subevents_in w) !! loc = Some q /\ queue q = []) /\
  m_queues (subevents_out w) !! loc = Some (mkLocalQueue [] reserved).

Definition with_subevents_in (q : JMailbox (SubeventWrapper InputT)) w : SubeventWorld InputT OutputT :=
  mkSubeventWorld (events_in w) q (subevents_out w) (events_out w) (m_in_progress w).

(** [k] executions of the subevent arrow. *)
Definition executions (k : nat) (f : InputT -> outcome OutputT) (chunksize : Z) (loc : nat) : M (SubeventWorld InputT OutputT) unit :=
  for_each (replicate k tt) (fun _ => _ ← subevent_execute f chunksize false loc; mret tt).

Lemma idle_execution f n loc reserved w :
  let capacity := m_capacity (subevents_out w) in
  idle loc reserved w -> 0 < n -> 0 <= reserved <= capacity -> capacity < 2 ^ 64 ->
  exists r w', subevent_execute f n false loc w = (Ok r, w') /\
    idle loc (Z.min capacity (reserved + n)) w' /\ m_capacity (subevents_out w') = capacity.
Proof.
  intros capacity [(q & Hq & Hnil) Ho] Hn Hr Hc.
  assert (H1 : exists k, reserve (subevents_out w) n loc = Ok (k, set_queue loc (mkLocalQueue [] (Z.min capacity (reserved + n))) (subevents_out w))).
  { unfold reserve, at_location, free_slots. rewrite Ho. cbn [queue reserved_count]. fold capacity.
    change (sizeZ []) with 0. rewrite Z.sub_0_r, u64_small by lia. destruct (Z.ltb_spec 0 (capacity - reserved)); simpl; eexists.
    - rewrite u64_small by lia. repeat f_equal. lia.
    - repeat f_equal. lia. }
  destruct H1 as [k H1].
  assert (H2 : exists st, pop_vector false (subevents_in w) [] k loc = Ok ((st, []), set_queue loc (mkLocalQueue [] (reserved_count q)) (subevents_in w))).
  { unfold pop_vector, at_location. rewrite Hq. simpl. rewrite Hnil, drop_nil, take_nil. eauto. }
  destruct H2 as [st H2].
  eexists _, _. split.
  - unfold subevent_execute. qstep on_subevents_out_ok H1.
    qstep on_subevents_in_ok H2. reflexivity.
  - split; [|done]. split; simpl; [eexists; split|]; [by eapply lookup_set_queue|done|by eapply lookup_set_queue].
Qed.

Lemma idle_executions f n loc k : forall reserved w,
  let capacity := m_capacity (subevents_out w) in
  idle loc reserved w -> 0 < n -> 0 <= reserved <= capacity -> capacity < 2 ^ 64 ->
  exists w', executions k f n loc w = (Ok tt, w') /\
    idle loc (Z.min capacity (reserved + Z.of_nat k * n)) w' /\ m_capacity (subevents_out w') = capacity.
Proof.
  induction k as [|k IH]; intros reserved w capacity Hi Hn Hr Hc.
  - exists w. split; [done|]. by rewrite Z.add_0_r, Z.min_r by lia.
  - destruct (idle_execution f n loc reserved w Hi Hn Hr Hc) as (r & w1 & H1 & Hi1 & Hc1). fold capacity in Hi1, Hc1.
    destruct (IH _ w1 Hi1 Hn) as (w2 & H2 & Hi2 & Hc2); [rewrite ?Hc1; lia..|]. rewrite Hc1 in Hi2, Hc2. exists w2.
    split; [|split; [|done]].
    + unfold executions. simpl. rewrite M_bind_assoc. mstep H1. exact H2.
    + by replace (Z.min capacity (reserved + Z.of_nat (S k) * n))
        with (Z.min capacity (Z.min capacity (reserved + n) + Z.of_nat k * n)) by lia.
Qed.

(** The subevent arrow starves itself.  Each execution reserves slots in the queue downstream, but one
    that finds nothing to do never gives them back.  After enough of them (capacity divided by
    chunk size) the arrow takes nothing off its queue any more, whatever arrives there. *)
Theorem idle_executions_exhaust_reservations f n loc k w :
  let capacity := m_capacity (subevents_out w) in
  idle loc 0 w -> 0 < n -> 0 <= capacity < 2 ^ 64 -> capacity <= Z.of_nat k * n ->
  exists w', executions k f n loc w = (Ok tt, w') /\
    forall q, is_Some (m_queues q !! loc) ->
      exists r w'', subevent_execute f n false loc (with_subevents_in q w') = (Ok r, w'') /\
        contents (subevents_in w'') loc = contents q loc.
Proof.
  intros capacity Hidle Hn Hc Hk.
  destruct (idle_executions f n loc k 0 w Hidle) as (w' & H1 & [_ Ho] & Hc'); [lia..|]. exists w'. split; [done|]. intros q [lq Hq].
  fold capacity in Ho, Hc'. rewrite Z.min_l in Ho by lia.
  assert (H2 : reserve (subevents_out w') n loc = Ok (0, set_queue loc (mkLocalQueue [] capacity) (subevents_out w'))).
  { unfold reserve, at_location, free_slots. rewrite Ho. cbn [queue reserved_count]. rewrite Hc'. change (sizeZ []) with 0.
    by replace (capacity - 0 - capacity) with 0 by lia. }
  assert (H3 : exists st, pop_vector false q [] 0 loc = Ok ((st, []), set_queue loc lq q)).
  { unfold pop_vector, at_location. rewrite Hq. simpl. rewrite Z.min_l by apply sizeZ_nonneg. simpl.
    eexists. destruct lq. reflexivity. }
  destruct H3 as [st H3]. eexists _, _. split.
  - unfold subevent_execute. qstep on_subevents_out_ok H2. qstep on_subevents_in_ok H3. reflexivity.
  - simpl. unfold contents. by rewrite (lookup_set_queue _ _ _ _ Hq), Hq.
Qed.

End Flaws.

(** ** Witnesses *)

(** Two events, with two subevents each; one of them has come back, the other has been split. *)
Definition two_events : SubeventWorld Z Z :=
  mkSubeventWorld (mkJMailbox 100 1 false [mkLocalQueue [5; 7] 0]) (make 100 1 false) (make 100 1 false) (make 100 1 false) ∅.

Definition two_parts (e : Z) : outcome (list Z) := Ok [10 * e; 10 * e + 1].

Definition two_parts_done (x : Z) : outcome Z := Ok (x + 1).
Definition no_insert (e : Z) (output : Z) : outcome unit := Ok tt.

Definition w1 : SubeventWorld Z Z := (split_execute two_parts 16 false 0 two_events).2.
Definition w2 : SubeventWorld Z Z := (subevent_execute two_parts_done 16 false 0 w1).2.
Definition w3 : SubeventWorld Z Z := (merge_execute no_insert 16 false 0 w2).2.
Definition w4 : SubeventWorld Z Z := (split_execute two_parts 16 false 0 w3).2.

Definition always_two (e : Z) (r : outcome (list Z)) : Prop := r = two_parts e.

Lemma two_events_run :
  exists so mg lo, steps (sub_step always_two) (mkSys two_events [] [] [] [] []) (mkSys w4 [] [] so mg lo).
Proof.
  assert (Htwo : forall e l, two_parts e = Ok l -> sizeZ l < 2 ^ 64) by (intros e l [= <-]; done).
  destruct (returns_ok (split_execute two_parts 16 false 0) two_events) as [r1 H1]; [vm_compute; reflexivity|].
  destruct (returns_ok (subevent_execute two_parts_done 16 false 0) w1) as [r2 H2]; [vm_compute; reflexivity|].
  destruct (returns_ok (merge_execute no_insert 16 false 0) w2) as [r3 H3]; [vm_compute; reflexivity|].
  destruct (returns_ok (split_execute two_parts 16 false 0) w3) as [r4 H4]; [vm_compute; reflexivity|].
  assert (Hal : forall e, always_two e (two_parts e)) by done.
  apply (split_execute_steps always_two _ _ _ _ _ [] [] [] [] [] _ _ Hal Htwo) in H1 as (so1 & lo1 & H1).
  apply (subevent_execute_steps always_two _ _ _ _ _ [] [] so1 [] lo1) in H2.
  apply (merge_execute_steps always_two _ _ _ _ _ [] [] so1 [] lo1) in H3 as [mg H3].
  apply (split_execute_steps always_two _ _ _ _ _ [] [] so1 mg lo1 _ _ Hal Htwo) in H4 as (so2 & lo2 & H4).
  exists so2, mg, lo2. eapply steps_trans; [exact H1|]. eapply steps_trans; [exact H2|]. by eapply steps_trans.
Qed.


Definition no_work : SubeventWorld Z Z := mkSubeventWorld (make 2 1 false) (make 2 1 false) (make 2 1 false) (make 2 1 false) ∅.

Lemma idle_executions_exhaust_reservations_witness :
  exists w', executions 2 (fun x => Ok x) 1 0 no_work = (Ok tt, w') /\
    let q := mkJMailbox 2 1 false [mkLocalQueue [mkSubeventWrapper 5 50 1 1] 0] in
    exists r w'', subevent_execute (fun x => Ok x) 1 false 0 (with_subevents_in q w') = (Ok r, w'') /\
      contents (subevents_in w'') 0 = [mkSubeventWrapper 5 50 1 1].
Proof.
  destruct (idle_executions_exhaust_reservations (fun x : Z => Ok x) 1 0 2 no_work) as (w' & H1 & H2);
    [split; [eexists; split; reflexivity|reflexivity]|lia|simpl; lia|simpl; lia|].
  exists w'. split; [exact H1|]. intros q. apply H2. exists (mkLocalQueue [mkSubeventWrapper 5 50 1 1] 0). reflexivity.
Defined.

End Subevent.
