(* ===== verification/JFactory.v ===== *)
(** * JFactory: lazily created, cached data

    Model of [JFactory.h], [JFactory.cc] and [JFactoryT.h].  A factory holds pointers to the
    objects it has made; the state also records which objects have been deleted.  The user's
    callbacks act on the factory itself (they fill it) and on the user's state. *)

From S2P Require Import Prelude JEvent JComponent.
Import Event Component.
Local Open Scope Z_scope.

Module Factory.

Inductive FStatus := FUninitialized | FUnprocessed | FProcessed | FInserted.

#[export] Instance FStatus_eq_dec : EqDecision FStatus.
Proof. solve_decision. Defined.

Inductive CreationStatus := NotCreatedYet | Created | CInserted | InsertedViaGetObjects | NeverCreated.

Definition PERSISTENT : Z := 1.
Definition WRITE_TO_OUTPUT : Z := 2.
Definition NOT_OBJECT_OWNER : Z := 4.
Definition REGENERATE : Z := 8.

Record JFactory := mkFactory {
  m_component : JComponent;
  m_level : JEventLevel;
  mObjectType : Z;
  mObjectName : string;
  mTag : string;
  mFlags : Z;
  mPreviousRunNumber : Z;
  mStatus : FStatus;
  mCreationStatus : CreationStatus;
  mData : list Z
}.

Definition set_flags (fl : Z) (f : JFactory) : JFactory :=
  mkFactory (m_component f) (m_level f) (mObjectType f) (mObjectName f) (mTag f) fl (mPreviousRunNumber f)
    (mStatus f) (mCreationStatus f) (mData f).
Definition set_run (r : Z) (f : JFactory) : JFactory :=
  mkFactory (m_component f) (m_level f) (mObjectType f) (mObjectName f) (mTag f) (mFlags f) r
    (mStatus f) (mCreationStatus f) (mData f).
Definition set_state (st : FStatus) (cst : CreationStatus) (f : JFactory) : JFactory :=
  mkFactory (m_component f) (m_level f) (mObjectType f) (mObjectName f) (mTag f) (mFlags f) (mPreviousRunNumber f)
    st cst (mData f).
Definition set_data (d : list Z) (f : JFactory) : JFactory :=
  mkFactory (m_component f) (m_level f) (mObjectType f) (mObjectName f) (mTag f) (mFlags f) (mPreviousRunNumber f)
    (mStatus f) (mCreationStatus f) d.
Definition SetStatus (st : FStatus) (f : JFactory) : JFactory := set_state st (mCreationStatus f) f.

(** Flags, on a 32-bit word. *)
Definition SetFactoryFlag (fl : Z) (f : JFactory) : JFactory := set_flags (Z.lor (mFlags f) fl) f.
Definition ClearFactoryFlag (fl : Z) (f : JFactory) : JFactory :=
  set_flags (Z.land (mFlags f) (u32 (Z.lnot fl))) f.
Definition TestFactoryFlag (fl : Z) (f : JFactory) : bool := Z.land (mFlags f) fl =? fl.
Definition set_flag (fl : Z) (b : bool) (f : JFactory) : JFactory :=
  if b then SetFactoryFlag fl f else ClearFactoryFlag fl f.
Definition SetPersistentFlag : bool -> JFactory -> JFactory := set_flag PERSISTENT.
Definition SetNotOwnerFlag : bool -> JFactory -> JFactory := set_flag NOT_OBJECT_OWNER.
Definition SetRegenerateFlag : bool -> JFactory -> JFactory := set_flag REGENERATE.
Definition SetWriteToOutputFlag : bool -> JFactory -> JFactory := set_flag WRITE_TO_OUTPUT.

(** The virtual methods, on the factory, the deleted objects and the user's state. *)
Record Callbacks (U : Type) := mkCallbacks {
  Init : M (JFactory * (list Z * U)) unit;
  ChangeRun : JEvent -> M (JFactory * (list Z * U)) unit;
  BeginRun : JEvent -> M (JFactory * (list Z * U)) unit;
  EndRun : M (JFactory * (list Z * U)) unit;
  Process : JEvent -> M (JFactory * (list Z * U)) unit
}.
Arguments Init {U} _.
Arguments ChangeRun {U} _ _.
Arguments BeginRun {U} _ _.
Arguments EndRun {U} _.
Arguments Process {U} _ _.

Section Operations.
Context {U : Type}.
Abbreviation St := (JFactory * (list Z * U))%type.

Definition get_self : M St JFactory := fun s => (Ok s.1, s).
Definition modify_self (f : JFactory -> JFactory) : M St unit := fun s => (Ok tt, (f s.1, s.2)).
Definition delete_objects (l : list Z) : M St unit := fun s => (Ok tt, (s.1, (s.2.1 ++ l, s.2.2))).

Definition ClearData : M St unit :=
  self ← get_self;
  if decide (mStatus self = FUninitialized) then mret tt
  else if TestFactoryFlag PERSISTENT self then mret tt
  else
    _ ← (if TestFactoryFlag NOT_OBJECT_OWNER self then mret tt else delete_objects (mData self));
    modify_self (fun f => set_state FUnprocessed NotCreatedYet (set_data [] f)).

(** [Set(std::vector<T*>&&)], and [Set(const std::vector<T*>&)]. *)
Definition Set_move (aData : list Z) : M St unit :=
  _ ← ClearData;
  modify_self (fun f => set_state FInserted CInserted (set_data aData f)).

Definition Set_copy (aData : list Z) : M St unit :=
  self ← get_self;
  if decide (aData = mData self) then modify_self (set_state FInserted CInserted)
  else Set_move aData.

Definition Insert (aDatum : Z) : M St unit :=
  modify_self (fun f => set_state FInserted CInserted (set_data (mData f ++ [aDatum]) f)).

Section Creation.
Context (demangle : exn -> string) (cb : Callbacks U).

Definition wrapped {A} (fn : string) (m : M St A) : M St A := fun s =>
  CallWithJExceptionWrapper demangle (m_component s.1) fn m s.

Definition DoInit : M St unit :=
  self ← get_self;
  if decide (mStatus self = FUninitialized) then
    _ ← wrapped "JFactory::Init" (Init cb);
    modify_self (SetStatus FUnprocessed)
  else mret tt.

(** [ClearData] if the data was inserted and is to be regenerated. *)
Definition clear_to_regenerate : M St unit :=
  self ← get_self;
  if TestFactoryFlag REGENERATE self && bool_decide (mStatus self = FInserted) then ClearData else mret tt.

(** The run callbacks. *)
Definition change_run (event : JEvent) : M St unit :=
  self ← get_self;
  let run_number := mRunNumber event in
  if mPreviousRunNumber self =? -1 then
    _ ← wrapped "JFactory::ChangeRun" (ChangeRun cb event);
    _ ← wrapped "JFactory::BeginRun" (BeginRun cb event);
    modify_self (set_run run_number)
  else if negb (mPreviousRunNumber self =? run_number) then
    _ ← wrapped "JFactory::EndRun" (EndRun cb);
    _ ← wrapped "JFactory::ChangeRun" (ChangeRun cb event);
    _ ← wrapped "JFactory::BeginRun" (BeginRun cb event);
    modify_self (set_run run_number)
  else mret tt.

Definition Create (event : JEvent) : M St unit :=
  _ ← DoInit;
  _ ← clear_to_regenerate;
  self ← get_self;
  if decide (mStatus self = FUnprocessed) then
    _ ← change_run event;
    _ ← wrapped "JFactory::Process" (Process cb event);
    modify_self (set_state FProcessed Created)
  else mret tt.

Definition CreateAndGetData (event : JEvent) : M St (list Z) :=
  _ ← Create event;
  self ← get_self;
  mret (mData self).

End Creation.
End Operations.

(** ** A factory over the life of an event stream *)

Inductive fcall := FInit | FChangeRun (run : Z) | FBeginRun (run : Z) | FEndRun | FProcess (run event : Z).

Section Life.
Context (demangle : exn -> string) (produce : JEvent -> list Z).

Definition flog (c : fcall) : M (JFactory * (list Z * list fcall)) unit := fun s =>
  (Ok tt, (s.1, (s.2.1, s.2.2 ++ [c]))).

(** A user's factory: it makes the objects [produce e] for event [e], and writes down
    which of its callbacks were called. *)
Definition producer : Callbacks (list fcall) := {|
  Init := flog FInit;
  ChangeRun e := flog (FChangeRun (mRunNumber e));
  BeginRun e := flog (FBeginRun (mRunNumber e));
  EndRun := flog FEndRun;
  Process e := _ ← flog (FProcess (mRunNumber e) (mEventNumber e)); Set_move (produce e)
|}.

Fixpoint get_times (k : nat) (e : JEvent) : M (JFactory * (list Z * list fcall)) (list (list Z)) :=
  match k with
  | O => mret []
  | S k => d ← CreateAndGetData demangle producer e; rest ← get_times k e; mret (d :: rest)
  end.

(** Each event is asked [k] times for the factory's data, and then recycled. *)
Fixpoint live (es : list (JEvent * nat)) : M (JFactory * (list Z * list fcall)) (list (list Z)) :=
  match es with
  | [] => mret []
  | (e, k) :: es => r ← get_times k e; _ ← ClearData; rest ← live es; mret (r ++ rest)
  end.

(** The callbacks due for an event of run [r] when the last run was [last]. *)
Definition calls_at (last : option Z) (e : JEvent) : list fcall :=
  let r := mRunNumber e in
  (if decide (last = Some r) then []
   else match last with Some _ => [FEndRun] | None => [] end ++ [FChangeRun r; FBeginRun r])
  ++ [FProcess r (mEventNumber e)].

Fixpoint calls_over (last : option Z) (es : list JEvent) : list fcall :=
  match es with [] => [] | e :: es => calls_at last e ++ calls_over (Some (mRunNumber e)) es end.

(** The events for which somebody wanted the data. *)
Definition wanted (es : list (JEvent * nat)) : list JEvent :=
  omap (fun ek => match ek.2 with O => None | _ => Some ek.1 end) es.

(** Between two events: nothing is held. *)
Definition idle (fl : Z) (last : option Z) (f : JFactory) : Prop :=
  mStatus f = FUnprocessed /\ mData f = [] /\ mFlags f = fl /\ mPreviousRunNumber f = default (-1) last.

(** While an event is being processed, once the data has been made. *)
Definition filled (fl : Z) (e : JEvent) (f : JFactory) : Prop :=
  mStatus f = FProcessed /\ mData f = produce e /\ mFlags f = fl /\ mPreviousRunNumber f = mRunNumber e.

Context (fl : Z) (Hpers : (Z.land fl PERSISTENT =? PERSISTENT) = false).

Lemma not_persistent f : mFlags f = fl -> TestFactoryFlag PERSISTENT f = false.
Proof. unfold TestFactoryFlag. by intros ->. Qed.

Lemma change_run_at f del l last e :
  idle fl last f -> last <> Some (-1) -> mRunNumber e <> -1 ->
  exists f', change_run demangle producer e (f, (del, l)) = (Ok tt, (f', (del, l ++
      (if decide (last = Some (mRunNumber e)) then []
       else match last with Some _ => [FEndRun] | None => [] end ++ [FChangeRun (mRunNumber e); FBeginRun (mRunNumber e)])))) /\
    idle fl (Some (mRunNumber e)) f'.
Proof.
  intros (Hs & Hd & Hf & Hr) Hl He. unfold change_run. mstep (eq_refl (get_self (f, (del, l)))). cbn [fst snd].
  rewrite Hr. destruct last as [r|]; cbn [default from_option id].
  - destruct (Z.eqb_spec r (-1)); [congruence|]. case_decide as Hc.
    + injection Hc as ->. rewrite Z.eqb_refl, app_nil_r. by exists f.
    + destruct (Z.eqb_spec r (mRunNumber e)); [congruence|]. exists (set_run (mRunNumber e) f).
      split; [|by repeat split]. cbn [app]. by rewrite snoc_three.
  - rewrite Z.eqb_refl, decide_False by done. exists (set_run (mRunNumber e) f). split; [|by repeat split].
    cbn [app]. by rewrite snoc_two.
Qed.

(** A factory that is initialized and whose data was not inserted goes straight to its work. *)
Lemma create_settled e f s :
  mStatus f <> FUninitialized -> mStatus f <> FInserted ->
  Create demangle producer e (f, s) =
    (if decide (mStatus f = FUnprocessed) then
       _ ← change_run demangle producer e;
       _ ← wrapped demangle "JFactory::Process" (Process producer e);
       modify_self (set_state FProcessed Created)
     else mret tt) (f, s).
Proof.
  intros Hu Hi. unfold Create.
  assert (Hinit : DoInit demangle producer (f, s) = (Ok tt, (f, s))).
  { unfold DoInit. mstep (eq_refl (get_self (f, s))). cbn [fst snd]. by rewrite decide_False. }
  assert (Hreg : clear_to_regenerate (f, s) = (Ok tt, (f, s))).
  { unfold clear_to_regenerate. mstep (eq_refl (get_self (f, s))). cbn [fst snd].
    by rewrite bool_decide_false, andb_false_r. }
  mstep Hinit. mstep Hreg. mstep (eq_refl (get_self (f, s))). done.
Qed.

(** The first request for an event makes the data; later ones find it. *)
Lemma get_first f del l last e :
  idle fl last f -> last <> Some (-1) -> mRunNumber e <> -1 ->
  exists f', CreateAndGetData demangle producer e (f, (del, l))
      = (Ok (produce e), (f', (del, l ++ calls_at last e))) /\ filled fl e f'.
Proof.
  intros Hidle Hl He. pose proof Hidle as (Hs & Hd & Hf & Hr). unfold CreateAndGetData, mbind at 1, M_bind at 1.
  rewrite create_settled, decide_True by congruence.
  destruct (change_run_at f del l last e Hidle Hl He) as (f1 & Hrun & Hs1 & Hd1 & Hf1 & Hr1).
  mstep Hrun. unfold calls_at. rewrite app_assoc.
  match goal with |- context [(del, ?l1)] => set (l' := l1) end.
  assert (Hproc : wrapped demangle "JFactory::Process" (Process producer e) (f1, (del, l'))
    = (Ok tt, (set_state FInserted CInserted (set_data (produce e) (set_state FUnprocessed NotCreatedYet (set_data [] f1))),
              (del, l' ++ [FProcess (mRunNumber e) (mEventNumber e)])))).
  { unfold wrapped, CallWithJExceptionWrapper. cbn [Process producer].
    mstep (eq_refl (flog (FProcess (mRunNumber e) (mEventNumber e)) (f1, (del, l')))). cbn [fst snd].
    unfold Set_move, ClearData. rewrite M_bind_assoc.
    mstep (eq_refl (get_self (f1, (del, l' ++ [FProcess (mRunNumber e) (mEventNumber e)])))). cbn [fst snd].
    rewrite Hs1, decide_False, (not_persistent f1 Hf1), Hd1 by done.
    destruct (TestFactoryFlag NOT_OBJECT_OWNER f1); [done|]. unfold delete_objects. by rewrite <- (app_nil_r del) at 2. }
  mstep Hproc. eexists. split; [reflexivity|]. repeat split; done.
Qed.

Lemma get_again f del l e k :
  filled fl e f -> get_times k e (f, (del, l)) = (Ok (replicate k (produce e)), (f, (del, l))).
Proof.
  intros (Hs & Hd & Hf & Hr). induction k as [|k IH]; [done|]. cbn [get_times replicate].
  assert (Hget : CreateAndGetData demangle producer e (f, (del, l)) = (Ok (produce e), (f, (del, l)))).
  { unfold CreateAndGetData, mbind at 1, M_bind at 1. rewrite create_settled, decide_False by congruence.
    rewrite <- Hd. done. }
  mstep Hget. mstep IH. done.
Qed.

(** Recycling deletes the objects that the factory owns. *)
Definition owned_by_factory (d : list Z) : list Z := if Z.land fl NOT_OBJECT_OWNER =? NOT_OBJECT_OWNER then [] else d.

Lemma clear_at f del (l : list fcall) :
  mStatus f <> FUninitialized -> mFlags f = fl ->
  ClearData (f, (del, l)) = (Ok tt, (set_state FUnprocessed NotCreatedYet (set_data [] f), (del ++ owned_by_factory (mData f), l))).
Proof.
  intros Hs Hf. unfold ClearData. mstep (eq_refl (get_self (f, (del, l)))). cbn [fst snd].
  rewrite decide_False, (not_persistent f Hf) by done. unfold owned_by_factory, TestFactoryFlag. rewrite Hf.
  destruct (_ =? NOT_OBJECT_OWNER); cbn; [by rewrite app_nil_r|done].
Qed.

Lemma get_times_at k f del l last e :
  idle fl last f -> last <> Some (-1) -> mRunNumber e <> -1 ->
  exists f', get_times (S k) e (f, (del, l)) = (Ok (replicate (S k) (produce e)), (f', (del, l ++ calls_at last e))) /\
    filled fl e f'.
Proof.
  intros Hidle Hl He. destruct (get_first f del l last e Hidle Hl He) as (f' & Hget & Hfill). exists f'.
  split; [|done]. change (get_times (S k) e) with (d ← CreateAndGetData demangle producer e; rest ← get_times k e; mret (d :: rest)).
  mstep Hget. mstep (get_again f' del (l ++ calls_at last e) e k Hfill). done.
Qed.

Lemma live_at es : forall f del l last,
  idle fl last f -> last <> Some (-1) -> Forall (fun ek => mRunNumber ek.1 <> -1) es ->
  exists f', live es (f, (del, l)) = (Ok (concat ((fun ek => replicate ek.2 (produce ek.1)) <$> es)),
      (f', (del ++ concat ((fun e => owned_by_factory (produce e)) <$> wanted es), l ++ calls_over last (wanted es)))).
Proof.
  induction es as [|[e k] es IH]; intros f del l last Hidle Hl Hes.
  { exists f. cbn. by rewrite !app_nil_r. }
  apply Forall_cons in Hes as [He Hes]. cbn [fst snd] in He.
  assert (Hstep : exists f1 last1, (r ← get_times k e; _ ← ClearData; mret r) (f, (del, l))
      = (Ok (replicate k (produce e)), (f1, (del ++ concat ((fun e => owned_by_factory (produce e)) <$> wanted [(e, k)]),
          l ++ calls_over last (wanted [(e, k)])))) /\
    idle fl last1 f1 /\ last1 <> Some (-1) /\ forall es', calls_over last (wanted [(e, k)] ++ es') = calls_over last (wanted [(e, k)]) ++ calls_over last1 es').
  { destruct k as [|k].
    - exists (set_state FUnprocessed NotCreatedYet (set_data [] f)), last. cbn [get_times]. rewrite M_bind_ret.
      destruct Hidle as (Hs & Hd & Hf & Hr). rewrite (M_bind_ok _ _ _ _ _ (clear_at f del l ltac:(congruence) Hf)).
      rewrite Hd. split; [|by repeat split]. cbn. rewrite !app_nil_r. unfold owned_by_factory.
      destruct (_ =? NOT_OBJECT_OWNER); by rewrite app_nil_r.
    - destruct (get_times_at k f del l last e Hidle Hl He) as (f1 & Hget & Hs & Hd & Hf & Hr). mstep Hget.
      rewrite (M_bind_ok _ _ _ _ _ (clear_at f1 del (l ++ calls_at last e) ltac:(congruence) Hf)).
      rewrite Hd. eexists _, (Some (mRunNumber e)). split; [cbn; by rewrite !app_nil_r|].
      split; [by repeat split|]. split; [congruence|]. intros es'. cbn. by rewrite app_nil_r. }
  destruct Hstep as (f1 & last1 & Hstep & Hidle1 & Hl1 & Hcalls).
  destruct (IH f1 (del ++ concat ((fun e => owned_by_factory (produce e)) <$> wanted [(e, k)]))
    (l ++ calls_over last (wanted [(e, k)])) last1 Hidle1 Hl1 Hes) as (f' & Hrun).
  exists f'. cbn [live].
  assert (Hsplit : forall s, (r ← get_times k e; _ ← ClearData; rest ← live es; mret (r ++ rest)) s
    = (x ← (r ← get_times k e; _ ← ClearData; mret r); rest ← live es; mret (x ++ rest)) s).
  { intros s0. rewrite M_bind_assoc. unfold mbind, M_bind. destruct (get_times k e s0) as [[] s1]; [|done..].
    by destruct (ClearData s1) as [[] s2]. }
  rewrite Hsplit. mstep Hstep. mstep Hrun. unfold mret, M_ret.
  assert (Hw : wanted ((e, k) :: es) = wanted [(e, k)] ++ wanted es) by (unfold wanted; by destruct k).
  by rewrite Hw, Hcalls, fmap_app, concat_app, <- !app_assoc.
Qed.

(** The protocol of the callbacks: [Some r] is inside run [r]. *)
Fixpoint fbracketed (inside : option Z) (l : list fcall) : bool :=
  match l, inside with
  | [], _ => true
  | FChangeRun r :: FBeginRun r' :: l, None => (r =? r') && fbracketed (Some r) l
  | FProcess r _ :: l, Some r' => (r =? r') && fbracketed inside l
  | FEndRun :: l, Some _ => fbracketed None l
  | _, _ => false
  end.

Definition fprocessed (l : list fcall) : list (Z * Z) :=
  omap (fun c => match c with FProcess r n => Some (r, n) | _ => None end) l.

Lemma calls_over_ok es : forall last,
  fbracketed last (calls_over last es) = true /\
  fprocessed (calls_over last es) = (fun e => (mRunNumber e, mEventNumber e)) <$> es.
Proof.
  induction es as [|e es IH]; intros last; [by destruct last|].
  destruct (IH (Some (mRunNumber e))) as [H1 H2]. cbn [calls_over]. unfold calls_at.
  case_decide as Hr; [subst last; cbn|destruct last as [r|]; cbn]; rewrite ?Z.eqb_refl; cbn; rewrite H1;
    (split; [done|]); unfold fprocessed in *; csimpl; by rewrite H2.
Qed.

(** A factory makes its data once per event and everybody gets the same data.  Initialize a factory
    that is not persistent, ask each event of a stream any number of times for its data, and
    recycle the event: all calls return; every request gets exactly the objects made for
    that event; [Process] runs once for each event that is asked at least once and
    not at all for the others, in order, after [Init] and inside the callbacks of its run; and
    each object made is deleted exactly once, when its event is recycled, unless the factory
    does not own its objects, in which case none is. *)
Theorem factory_processes_once_per_event f0 es :
  mStatus f0 = FUninitialized -> mFlags f0 = fl -> mData f0 = [] -> mPreviousRunNumber f0 = -1 ->
  Forall (fun ek => mRunNumber ek.1 <> -1) es ->
  exists f' l,
    (_ ← DoInit demangle producer; live es) (f0, ([], []))
      = (Ok (concat ((fun ek => replicate ek.2 (produce ek.1)) <$> es)),
         (f', (concat ((fun e => owned_by_factory (produce e)) <$> wanted es), FInit :: l))) /\
    fbracketed None l = true /\
    fprocessed l = (fun e => (mRunNumber e, mEventNumber e)) <$> wanted es.
Proof.
  intros Hs Hf Hd Hr Hes.
  assert (Hinit : DoInit demangle producer (f0, ([], [])) = (Ok tt, (SetStatus FUnprocessed f0, ([], [FInit])))).
  { unfold DoInit. mstep (eq_refl (get_self (f0, ([] : list Z, [] : list fcall)))). cbn [fst snd]. by rewrite Hs. }
  mstep Hinit. destruct (live_at es (SetStatus FUnprocessed f0) [] [FInit] None) as (f' & Hrun); [by repeat split|done|done|].
  destruct (calls_over_ok (wanted es) None) as [H1 H2].
  exists f', (calls_over None (wanted es)). split; [exact Hrun|]. auto.
Qed.

(** Inserting into a factory that has not been initialized skips its initialization for good.  [Insert]
    changes the status from [Uninitialized] to [Inserted]; recycling the event makes it
    [Unprocessed]; and the next event that asks for the data runs [Process], although [Init]
    has never been called, and never will be. *)
Theorem insert_skips_init f0 x e :
  mStatus f0 = FUninitialized -> mFlags f0 = fl -> mData f0 = [] -> mPreviousRunNumber f0 = -1 -> mRunNumber e <> -1 ->
  exists f' del l,
    (_ ← Insert x; _ ← ClearData; CreateAndGetData demangle producer e) (f0, ([], []))
      = (Ok (produce e), (f', (del, l))) /\
    mStatus f' = FProcessed /\ FInit ∉ l /\ FProcess (mRunNumber e) (mEventNumber e) ∈ l.
Proof.
  intros Hs Hf Hd Hr He.
  set (f1 := set_state FInserted CInserted (set_data (mData f0 ++ [x]) f0)).
  mstep (eq_refl (Insert x (f0, ([] : list Z, [] : list fcall)))). cbn [fst snd]. fold f1.
  rewrite (M_bind_ok _ _ _ _ _ (clear_at f1 [] [] ltac:(done) Hf)).
  edestruct (get_first (set_state FUnprocessed NotCreatedYet (set_data [] f1))) with (last := @None Z)
    as (f' & Hget & Hfill); [by repeat split|done|exact He|].
  rewrite Hget. eexists f', _, _. split; [reflexivity|]. split; [apply Hfill|].
  change ([] ++ calls_at None e) with [FChangeRun (mRunNumber e); FBeginRun (mRunNumber e); FProcess (mRunNumber e) (mEventNumber e)].
  rewrite !elem_of_cons. split; [|auto].
  intros [?|[?|[?|Hn]]]; [done..|]. by apply not_elem_of_nil in Hn.
Qed.
End Life.

(** ** Witnesses *)

Definition factory0 : JFactory :=
  mkFactory (mkJComponent "hits" "calo" "HitFactory") PhysicsEvent 1 "Hit" EmptyString WRITE_TO_OUTPUT (-1)
    FUninitialized NotCreatedYet [].

Definition run_event (r n : Z) : JEvent := mkJEvent r n 0 false PhysicsEvent [] 1 (-1).

(** The first event is asked twice, the second not at all, the third once. *)
Lemma factory_processes_once_per_event_witness :
  exists f' l, (_ ← DoInit (fun _ => "t"%string) (producer (fun e => [10 * mEventNumber e; 10 * mEventNumber e + 1]));
      live (fun _ => "t"%string) (fun e => [10 * mEventNumber e; 10 * mEventNumber e + 1])
        [(run_event 7 1, 2%nat); (run_event 7 2, 0%nat); (run_event 8 3, 1%nat)]) (factory0, ([], []))
    = (Ok [[10; 11]; [10; 11]; [30; 31]], (f', ([10; 11; 30; 31], FInit :: l))) /\
    fprocessed l = [(7, 1); (8, 3)].
Proof.
  destruct (factory_processes_once_per_event (fun _ => "t"%string) (fun e => [10 * mEventNumber e; 10 * mEventNumber e + 1])
    WRITE_TO_OUTPUT eq_refl factory0 [(run_event 7 1, 2%nat); (run_event 7 2, 0%nat); (run_event 8 3, 1%nat)]
    eq_refl eq_refl eq_refl eq_refl) as (f' & l & Hrun & _ & Hp).
  - rewrite !Forall_cons, Forall_nil. done.
  - exists f', l. split; [exact Hrun|exact Hp].
Defined.

Lemma insert_skips_init_witness :
  exists f' del l, (_ ← Insert 5; _ ← ClearData; CreateAndGetData (fun _ => "t"%string) (producer (fun _ => [6])) (run_event 7 1))
      (factory0, ([], [])) = (Ok [6], (f', (del, l))) /\ FInit ∉ l.
Proof.
  destruct (insert_skips_init (fun _ => "t"%string) (fun _ => [6]) WRITE_TO_OUTPUT eq_refl factory0 5 (run_event 7 1)
    eq_refl eq_refl eq_refl eq_refl ltac:(done)) as (f' & del & l & Hrun & _ & Hn & _).
  exists f', del, l. split; [exact Hrun|exact Hn].
Defined.

End Factory.
