(* ===== verification/JFactorySet.v ===== *)
(** * JFactorySet and the getters of JEvent

    Models of [JFactorySet.cc], [JFactorySet.h] and of the data access of [JEvent.h].
    Factories are objects in a store, known by their address; a set indexes them by type and
    tag and by name and tag.  The indices are finite maps: the order in which a
    [std::map] iterates over type indices is unspecified.  The call graph recorder, which
    times the calls, is not modelled. *)

From S2P Require Import Prelude JEvent JComponent JFactory.
Import Event Component Factory.
Local Open Scope Z_scope.

Module FactorySet.

Record JFactorySet := mkFactorySet {
  mFactories : gmap (Z * string) Z;
  mFactoriesFromString : gmap (string * string) Z;
  mMultifactories : list Z;
  mIsFactoryOwner : bool;
  mLevel : JEventLevel
}.

Definition empty_set : JFactorySet := mkFactorySet ∅ ∅ [] true PhysicsEvent.

Abbreviation Store := (gmap Z JFactory).

Definition typed_key (f : JFactory) : Z * string := (mObjectType f, mTag f).
Definition untyped_key (f : JFactory) : string * string := (mObjectName f, mTag f).

(** [typed_result != end || untyped_result != end]. *)
Definition is_duplicate (set : JFactorySet) (f : JFactory) : bool :=
  bool_decide (is_Some (mFactories set !! typed_key f)) ||
  bool_decide (is_Some (mFactoriesFromString set !! untyped_key f)).

Definition index (p : Z) (f : JFactory) (set : JFactorySet) : JFactorySet :=
  mkFactorySet (<[typed_key f := p]> (mFactories set)) (<[untyped_key f := p]> (mFactoriesFromString set))
    (mMultifactories set) (mIsFactoryOwner set) (mLevel set).

(** [Add] of a factory. *)
Definition Add (store : Store) (p : Z) (set : JFactorySet) : outcome (bool * JFactorySet) :=
  match store !! p with
  | None => Undef
  | Some f =>
      if is_duplicate set f then throwJ "JFactorySet::Add failed because factory is duplicate"
      else Ok (true, index p f set)
  end.

Fixpoint add_all (store : Store) (ps : list Z) (set : JFactorySet) : outcome JFactorySet :=
  match ps with
  | [] => Ok set
  | p :: ps => r ← Add store p set; add_all store ps r.2
  end.

(** [GetAllFactories()]. *)
Definition GetAllFactories (set : JFactorySet) : list Z := (map_to_list (mFactories set)).*2.

(** [Add] of a multifactory: [helpers] is the set that the multifactory uses internally. *)
Definition Add_multifactory (store : Store) (mf : Z) (helpers set : JFactorySet) : outcome (JFactorySet * JFactorySet) :=
  set' ← add_all store (GetAllFactories helpers) set;
  Ok (mkFactorySet (mFactories helpers) (mFactoriesFromString helpers) (mMultifactories helpers) false (mLevel helpers),
      mkFactorySet (mFactories set') (mFactoriesFromString set') (mMultifactories set' ++ [mf]) (mIsFactoryOwner set')
        (mLevel set')).

(** The loop of [Merge]: this set, and the duplicates to copy back. *)
Fixpoint merge_loop (store : Store) (l : list ((Z * string) * Z)) (this : JFactorySet) (dups : gmap (Z * string) Z)
    : outcome (JFactorySet * gmap (Z * string) Z) :=
  match l with
  | [] => Ok (this, dups)
  | (k, p) :: l =>
      match store !! p with
      | None => Undef
      | Some f =>
          if is_duplicate this f then merge_loop store l this (<[k := p]> dups)
          else merge_loop store l (index p f this) dups
      end
  end.

(** [Merge]: this set and the other one, afterwards. *)
Definition Merge (store : Store) (this other : JFactorySet) : outcome (JFactorySet * JFactorySet) :=
  r ← merge_loop store (map_to_list (mFactories other)) this ∅;
  Ok (mkFactorySet (mFactories r.1) (mFactoriesFromString r.1) (mMultifactories r.1 ++ mMultifactories other)
        (mIsFactoryOwner r.1) (mLevel r.1),
      mkFactorySet r.2 (mFactoriesFromString other) [] (mIsFactoryOwner other) (mLevel other)).

(** Merging the sets that the generators fill, one after the other. *)
Fixpoint merge_all (store : Store) (this : JFactorySet) (generated : list JFactorySet) : outcome JFactorySet :=
  match generated with
  | [] => Ok this
  | g :: gs => r ← Merge store this g; merge_all store r.1 gs
  end.

(** A factory that was found: it has to be on the set's level. *)
Definition at_level (store : Store) (set : JFactorySet) (p : Z) (msg : string) : outcome (option Z) :=
  match store !! p with
  | None => Undef
  | Some f => if decide (m_level f = mLevel set) then Ok (Some p) else throwJ msg
  end.

(** [GetFactory(object_name, tag)] and [GetFactory<T>(tag)]. *)
Definition GetFactory_named (store : Store) (set : JFactorySet) (object_name tag : string) : outcome (option Z) :=
  match mFactoriesFromString set !! (object_name, tag) with
  | Some p => at_level store set p "Factory belongs to a different level on the event hierarchy!"
  | None => Ok None
  end.

Definition GetFactory_typed (store : Store) (set : JFactorySet) (T : Z) (T_name tag : string) : outcome (option Z) :=
  match mFactories set !! (T, tag) with
  | Some p => at_level store set p "Factory belongs to a different level on the event hierarchy."
  | None =>
      match mFactoriesFromString set !! (T_name, tag) with
      | Some p => at_level store set p "Factory belongs to a different level on the event hierarchy."
      | None => Ok None
      end
  end.

(** [GetAllFactories<T>()]. *)
Definition GetAllFactories_typed (store : Store) (set : JFactorySet) (T : Z) : list Z :=
  omap (fun kp => if decide (kp.1.1 = T) then
                    match store !! kp.2 with
                    | Some f => if decide (m_level f = mLevel set) then Some kp.2 else None
                    | None => None
                    end
                  else None) (map_to_list (mFactories set)).

(** ** Well-formed sets *)

(** Both indices hold the same factories, each under its own keys. *)
Record set_ok (store : Store) (set : JFactorySet) : Prop := {
  so_typed : forall k p, mFactories set !! k = Some p -> exists f, store !! p = Some f /\ typed_key f = k /\
    mFactoriesFromString set !! untyped_key f = Some p;
  so_untyped : forall k p, mFactoriesFromString set !! k = Some p -> exists f, store !! p = Some f /\ untyped_key f = k /\
    mFactories set !! typed_key f = Some p
}.

Lemma index_ok store set p f :
  set_ok store set -> store !! p = Some f -> is_duplicate set f = false -> set_ok store (index p f set).
Proof.
  intros [Ht Hu] Hp [Hn1 Hn2]%orb_false_iff. apply bool_decide_eq_false, eq_None_not_Some in Hn1, Hn2.
  split; simpl; intros k q [[<- <-]|[Hne Hk]]%lookup_insert_Some.
  - exists f. by rewrite lookup_insert_eq.
  - destruct (Ht k q Hk) as (g & Hg & <- & Hgu). exists g. split; [done|]. split; [done|].
    rewrite lookup_insert_ne; [done|]. intros Heq. rewrite <- Heq in Hgu. congruence.
  - exists f. by rewrite lookup_insert_eq.
  - destruct (Hu k q Hk) as (g & Hg & <- & Hgt). exists g. split; [done|]. split; [done|].
    rewrite lookup_insert_ne; [done|]. intros Heq. rewrite <- Heq in Hgt. congruence.
Qed.

(** What the loop does, for a list of factories with distinct keys. *)
Lemma merge_loop_ok store l : forall this dups,
  set_ok store this -> (forall k p, (k, p) ∈ l -> exists f, store !! p = Some f /\ typed_key f = k) ->
  NoDup l.*1 -> (forall k, k ∈ l.*1 -> dups !! k = None) ->
  exists this' dups', merge_loop store l this dups = Ok (this', dups') /\ set_ok store this' /\
    mFactories this ⊆ mFactories this' /\ mFactoriesFromString this ⊆ mFactoriesFromString this' /\
    (mMultifactories this' = mMultifactories this /\ mIsFactoryOwner this' = mIsFactoryOwner this /\ mLevel this' = mLevel this) /\
    (map_to_list (mFactories this')).*2 ++ (map_to_list dups').*2
      ≡ₚ (map_to_list (mFactories this)).*2 ++ (map_to_list dups).*2 ++ l.*2 /\
    (forall k p, dups' !! k = Some p -> dups !! k = Some p \/ exists f, (k, p) ∈ l /\ store !! p = Some f /\
       is_duplicate this' f = true).
Proof.
  induction l as [|[k p] l IH]; intros this dups Hok Hl Hnd Hdup.
  { exists this, dups. csimpl. rewrite app_nil_r. repeat split; try done; try apply Hok. auto. }
  csimpl in Hnd. apply NoDup_cons in Hnd as [Hk Hnd]. csimpl. destruct (Hl k p) as (f & Hf & Hkey); [by left|]. rewrite Hf.
  assert (Hl' : forall k p, (k, p) ∈ l -> exists f, store !! p = Some f /\ typed_key f = k) by (intros; apply Hl; by right).
  destruct (is_duplicate this f) eqn:Hd.
  - destruct (IH this (<[k := p]> dups) Hok Hl' Hnd) as (this' & dups' & Hrun & Hok' & Hs1 & Hs2 & Hrest & Hperm & Hdups).
    { intros k' Hk'. rewrite lookup_insert_ne; [apply Hdup; by right|]. intros ->. done. }
    exists this', dups'. repeat (split; [done|]). split.
    + rewrite Hperm, map_to_list_insert by (apply Hdup; by left). csimpl. solve_Permutation.
    + intros k' q Hq. destruct (Hdups k' q Hq) as [[[-> ->]|[_ ?]]%lookup_insert_Some|(g & Hg & Hs & Hdg)];
        [right; exists f; split; [by left|]; split; [done|]|auto|right; exists g; split; [by right|done]].
      unfold is_duplicate in *. apply orb_true_iff in Hd as [Hd|Hd]; apply orb_true_iff;
        [left|right]; apply bool_decide_eq_true in Hd as [q' Hq']; apply bool_decide_eq_true; exists q'; eapply lookup_weaken; eauto.
  - assert (Hok1 : set_ok store (index p f this)) by (by apply index_ok).
    destruct (IH (index p f this) dups Hok1 Hl' Hnd) as (this' & dups' & Hrun & Hok' & Hs1 & Hs2 & Hrest & Hperm & Hdups).
    { intros k' Hk'. apply Hdup. by right. }
    pose proof Hd as [Hn1 Hn2]%orb_false_iff. apply bool_decide_eq_false, eq_None_not_Some in Hn1, Hn2.
    exists this', dups'. split; [done|]. split; [done|]. split; [etrans; [|exact Hs1]; by apply insert_subseteq|].
    split; [etrans; [|exact Hs2]; by apply insert_subseteq|]. split; [done|]. split.
    + rewrite Hperm. cbn [mFactories index]. rewrite map_to_list_insert by done. csimpl. solve_Permutation.
    + intros k' q Hq. destruct (Hdups k' q Hq) as [?|(g & Hg & ?)]; [auto|]. right. exists g. split; [by right|done].
Qed.

(** Merging factory sets loses and duplicates nothing.  [Merge] of two well-formed sets returns;
    the result is well-formed and keeps every factory it had under the same keys; every
    factory of the other set is now in exactly one of the two; the ones left behind are
    exactly those that a factory of this set shadows by type and tag or by name and tag; and the
    multifactories move over. *)
Theorem merge_conserves_factories store this other :
  set_ok store this -> set_ok store other ->
  exists this' other', Merge store this other = Ok (this', other') /\
    set_ok store this' /\
    mFactories this ⊆ mFactories this' /\ mFactoriesFromString this ⊆ mFactoriesFromString this' /\
    GetAllFactories this' ++ GetAllFactories other' ≡ₚ GetAllFactories this ++ GetAllFactories other /\
    (forall p, p ∈ GetAllFactories other' -> exists f, store !! p = Some f /\ is_duplicate this' f = true) /\
    mMultifactories this' = mMultifactories this ++ mMultifactories other /\ mMultifactories other' = [].
Proof.
  intros Hthis Hother.
  destruct (merge_loop_ok store (map_to_list (mFactories other)) this ∅ Hthis) as
    (this' & dups' & Hrun & [Ht Hu] & Hs1 & Hs2 & (Hm & _ & _) & Hperm & Hdups).
  - intros k p Hk%elem_of_map_to_list. destruct (so_typed _ _ Hother k p Hk) as (f & Hf & Hkey & _). eauto.
  - apply NoDup_fst_map_to_list.
  - intros k _. apply lookup_empty.
  - unfold Merge. rewrite Hrun. eexists _, _. split; [reflexivity|]. cbn.
    split; [by split|]. split; [done|]. split; [done|]. rewrite Hm. split; [|split; [|done]].
    + unfold GetAllFactories. cbn. rewrite Hperm, map_to_list_empty. done.
    + unfold GetAllFactories. cbn. intros p Hp. apply list_elem_of_fmap in Hp as ([k q] & -> & Hkq%elem_of_map_to_list).
      destruct (Hdups k q Hkq) as [Hn|(f & _ & Hf & Hd)]; [by rewrite lookup_empty in Hn|]. exists f. auto.
Qed.

(** ** Data access *)

(** The factories of an event, and whatever else the user's code sees. *)
Record EventState (U : Type) := mkEventState {
  es_store : Store;
  es_set : JFactorySet;
  es_user : U
}.
Arguments mkEventState {U} _ _ _.
Arguments es_store {U} _.
Arguments es_set {U} _.
Arguments es_user {U} _.

Section Access.
Context (demangle : exn -> string) {U : Type}.
Context (mUseDefaultTags : bool) (mDefaultTags : gmap string string) (event : JEvent).
Context (callbacks : Z -> Callbacks (EventState U)).
Abbreviation St := (list Z * EventState U)%type.

Definition get_state : M St (EventState U) := fun s => (Ok s.2, s).
Definition put_state (es : EventState U) : M St unit := fun s => (Ok tt, (s.1, es)).

(** A method of the factory at [p]. *)
Definition on_factory {A} (p : Z) (m : M (JFactory * (list Z * EventState U)) A) : M St A := fun s =>
  match es_store s.2 !! p with
  | None => (Undef, s)
  | Some f =>
      let '(r, (f', (del, es))) := m (f, s) in
      (r, (del, mkEventState (<[p := f']> (es_store es)) (es_set es) (es_user es)))
  end.

Definition resolve_tag (T_name tag : string) : string :=
  if mUseDefaultTags && bool_decide (tag = EmptyString) then default tag (mDefaultTags !! T_name) else tag.

(** [new JFactoryT<T>], with the tag and level that [Insert] gives it. *)
Definition new_factory (T : Z) (T_name tag : string) (level : JEventLevel) : JFactory :=
  mkFactory (mkJComponent T_name EmptyString EmptyString) level T T_name tag WRITE_TO_OUTPUT (-1)
    FUninitialized NotCreatedYet [].

(** The factory that [Insert] puts items into; [fresh] is where a new one is allocated. *)
Definition factory_for_insert (T : Z) (T_name tag : string) (fresh : Z) : M St Z :=
  es ← get_state;
  found ← lift (GetFactory_typed (es_store es) (es_set es) T T_name (resolve_tag T_name tag));
  match found with
  | Some p => mret p
  | None =>
      let store := <[fresh := new_factory T T_name tag (mLevel (es_set es))]> (es_store es) in
      r ← lift (Add store fresh (es_set es));
      _ ← put_state (mkEventState store r.2 (es_user es));
      mret fresh
  end.

Definition Insert_one (T : Z) (T_name : string) (item : Z) (tag : string) (fresh : Z) : M St Z :=
  p ← factory_for_insert T T_name tag fresh;
  _ ← on_factory p (Factory.Insert item);
  mret p.

Definition Insert_many (T : Z) (T_name : string) (items : list Z) (tag : string) (fresh : Z) : M St Z :=
  p ← factory_for_insert T T_name tag fresh;
  _ ← for_each items (fun item => on_factory p (Factory.Insert item));
  _ ← on_factory p (modify_self (set_state FInserted CInserted));
  mret p.

(** [GetFactory<T>(tag, throw_on_missing)]. *)
Definition GetFactory (T : Z) (T_name tag : string) (throw_on_missing : bool) : M St (option Z) :=
  es ← get_state;
  found ← lift (GetFactory_typed (es_store es) (es_set es) T T_name (resolve_tag T_name tag));
  match found with
  | None => if throw_on_missing then throwM ("Could not find JFactoryT<" +:+ T_name +:+ "> with tag=" +:+ tag)
            else mret None
  | Some p => mret (Some p)
  end.

Definition create_and_get (p : Z) : M St (list Z) := on_factory p (CreateAndGetData demangle (callbacks p) event).

(** [Get<T>(tag, strict)]. *)
Definition Get (T : Z) (T_name tag : string) (strict : bool) : M St (list Z) :=
  factory ← GetFactory T T_name tag strict;
  match factory with None => mret [] | Some p => create_and_get p end.

(** [Get<T>(destination, tag, strict)]: the factory, and the destination afterwards. *)
Definition Get_into (T : Z) (T_name : string) (destination : list Z) (tag : string) (strict : bool)
    : M St (option Z * list Z) :=
  factory ← GetFactory T T_name tag strict;
  match factory with
  | None => mret (None, destination)
  | Some p => d ← create_and_get p; mret (Some p, destination ++ d)
  end.

(** A factory that is required to exist. *)
Definition required (T : Z) (T_name tag : string) : M St Z :=
  factory ← GetFactory T T_name tag true;
  match factory with Some p => mret p | None => lift Undef end.

(** [Get<T>(destination, tag)] of one item, and [GetSingle<T>(tag)]; 0 is a null pointer. *)
Definition Get_item (T : Z) (T_name tag : string) : M St (Z * Z) :=
  p ← required T T_name tag;
  d ← create_and_get p;
  mret (p, default 0 (head d)).

Definition GetSingle (T : Z) (T_name tag : string) : M St Z :=
  p ← required T T_name tag;
  d ← create_and_get p;
  mret (default 0 (head d)).

Definition GetSingleStrict (T : Z) (T_name tag : string) : M St Z :=
  p ← required T T_name tag;
  d ← create_and_get p;
  match d with
  | [] => throwM "GetSingle failed due to missing"
  | [x] => mret x
  | _ => throwM "GetSingle failed due to too many"
  end.

(** The JANA1 [GetSingle]: the factory and [t]. *)
Definition GetSingle_compat (T : Z) (T_name tag : string) (exception_if_not_one : bool) : M St (Z * Z) :=
  fac ← required T T_name tag;
  r ← Get_into T T_name [] tag true;
  let v := r.2 in
  if negb (sizeZ v =? 1) && exception_if_not_one then lift (Throw (ESize (sizeZ v)))
  else match v !! 0%nat with Some x => mret (fac, x) | None => lift Undef end.

(** [GetFactoryAll<T>(throw_on_missing)]. *)
Definition GetFactoryAll (T : Z) (T_name : string) (throw_on_missing : bool) : M St (list Z) :=
  es ← get_state;
  let factories := GetAllFactories_typed (es_store es) (es_set es) T in
  if bool_decide (factories = []) && throw_on_missing then
    throwM ("Could not find any JFactoryT<" +:+ T_name +:+ "> (from any tag)")
  else mret factories.

Fixpoint create_all (ps : list Z) (destination : list Z) : M St (list Z) :=
  match ps with
  | [] => mret destination
  | p :: ps => d ← create_and_get p; create_all ps (destination ++ d)
  end.

(** [GetAll<T>(destination)]. *)
Definition GetAll_into (T : Z) (T_name : string) (destination : list Z) : M St (list Z) :=
  factories ← GetFactoryAll T T_name true;
  create_all factories destination.

(** [GetAll<T>()]: the data goes into a vector that shadows the one that is returned. *)
Definition GetAll (T : Z) (T_name : string) : M St (list Z) :=
  let vec := [] in
  factories ← GetFactoryAll T T_name true;
  _ ← for_each factories (fun p => iters ← create_and_get p; let vec := iters in mret tt);
  mret vec.

(** [JFactorySet::Release()]. *)
Definition Release : M St unit :=
  es ← get_state;
  for_each (GetAllFactories (es_set es)) (fun p => on_factory p ClearData).

End Access.

(** ** On-demand evaluation *)

Section Dataflow.
Context (demangle : exn -> string) (mUseDefaultTags : bool) (mDefaultTags : gmap string string) (event : JEvent).
(** What the factory at [p] asks the event for, and what it computes from the answers. *)
Context (deps : Z -> list (Z * string * string)) (fn : Z -> list (list Z) -> list Z).
Abbreviation ES := (EventState (list Z)).

(** [Get] for each key, with the factories' callbacks [cbs]. *)
Fixpoint get_each (cbs : Z -> Callbacks ES) (keys : list (Z * string * string)) : M (list Z * ES) (list (list Z)) :=
  match keys with
  | [] => mret []
  | (T, T_name, tag) :: keys =>
      d ← Get demangle mUseDefaultTags mDefaultTags event cbs T T_name tag true;
      rest ← get_each cbs keys;
      mret (d :: rest)
  end.

Definition on_event {A} (m : M (list Z * ES) A) : M (JFactory * (list Z * ES)) A := fun s =>
  let '(r, t) := m s.2 in (r, (s.1, t)).

(** The user's factories: [Process] asks for its inputs, which may run other factories, notes
    that it ran, and sets its data.  [n] bounds the depth of the recursion. *)
Fixpoint program (n : nat) (p : Z) : Callbacks ES := {|
  Init := mret tt;
  ChangeRun _ := mret tt;
  BeginRun _ := mret tt;
  EndRun := mret tt;
  Process _ :=
    match n with
    | O => lift Undef
    | S n =>
        inputs ← on_event (get_each (program n) (deps p));
        _ ← on_event (fun s => (Ok tt, (s.1, mkEventState (es_store s.2) (es_set s.2) (es_user s.2 ++ [p]))));
        Set_move (fn p inputs)
    end
|}.

(** Inserted data is used as it is, unless the factory is to regenerate it; persistent data stays even then. *)
Definition keeps_inserted (f : JFactory) : bool :=
  bool_decide (mStatus f = FInserted) && (negb (TestFactoryFlag REGENERATE f) || TestFactoryFlag PERSISTENT f).

(** The inserted data that is deleted when the factory regenerates it. *)
Definition discarded (f : JFactory) : list Z :=
  if bool_decide (mStatus f = FInserted) && negb (TestFactoryFlag NOT_OBJECT_OWNER f) then mData f else [].

(** The factories as the event is handed out: not run yet, or filled by [Insert]. *)
Context (store0 : Store) (set0 : JFactorySet).
Context (Hstart : forall p f, store0 !! p = Some f ->
  (mStatus f = FUninitialized \/ mStatus f = FUnprocessed) /\ mData f = [] \/ mStatus f = FInserted).
(** Inputs exist, and there are no cycles. *)
Context (find : Z * string * string -> Z) (rank : Z -> nat).
Context (Hfind : forall p T T_name tag, (T, T_name, tag) ∈ deps p -> is_Some (store0 !! p) ->
  GetFactory_typed store0 set0 T T_name (resolve_tag mUseDefaultTags mDefaultTags T_name tag)
    = Ok (Some (find (T, T_name, tag))) /\
  is_Some (store0 !! find (T, T_name, tag)) /\ (rank (find (T, T_name, tag)) < rank p)%nat).
(** The values that the factories are meant to have. *)
Context (value : Z -> list Z).
Context (Hvalue : forall p f, store0 !! p = Some f ->
  value p = if keeps_inserted f then mData f else fn p ((fun k => value (find k)) <$> deps p)).

(** A factory that has run, or one that has not been touched. *)
Definition current (log : list Z) (p : Z) (f0 f : JFactory) : Prop :=
  if decide (p ∈ log) then mStatus f = FProcessed /\ mData f = value p /\ m_level f = m_level f0 else f = f0.

Record valid_event (es : ES) : Prop := {
  ve_set : es_set es = set0;
  ve_nodup : NoDup (es_user es);
  ve_log : forall p, p ∈ es_user es -> exists f, store0 !! p = Some f /\ keeps_inserted f = false;
  ve_store : forall p f0, store0 !! p = Some f0 -> exists f, es_store es !! p = Some f /\ current (es_user es) p f0 f;
  ve_dom : forall p, is_Some (es_store es !! p) -> is_Some (store0 !! p)
}.

Lemma level_same es p f0 : valid_event es -> store0 !! p = Some f0 ->
  exists f, es_store es !! p = Some f /\ m_level f = m_level f0.
Proof.
  intros Hv Hp. destruct (ve_store es Hv p f0 Hp) as (f & Hf & Hc). exists f. split; [done|].
  unfold current in Hc. case_decide; [apply Hc|by subst].
Qed.

(** Looking up a factory does not depend on what has been run. *)
Lemma lookup_same es T T_name tag q : valid_event es ->
  GetFactory_typed store0 set0 T T_name tag = Ok (Some q) ->
  GetFactory_typed (es_store es) (es_set es) T T_name tag = Ok (Some q).
Proof.
  intros Hv. rewrite (ve_set es Hv). unfold GetFactory_typed, at_level.
  assert (Hal : forall p, match store0 !! p with
      | Some f => if decide (m_level f = mLevel set0) then Ok (Some p) else throwJ "Factory belongs to a different level on the event hierarchy."
      | None => Undef end = Ok (Some q) ->
    match es_store es !! p with
      | Some f => if decide (m_level f = mLevel set0) then Ok (Some p) else throwJ "Factory belongs to a different level on the event hierarchy."
      | None => Undef end = Ok (Some q)).
  { intros p. destruct (store0 !! p) as [f0|] eqn:Hp; [|done].
    destruct (level_same es p f0 Hv Hp) as (f & -> & ->). done. }
  destruct (mFactories set0 !! (T, tag)) as [p|]; [apply Hal|].
  destruct (mFactoriesFromString set0 !! (T_name, tag)) as [p|]; [apply Hal|done].
Qed.

(** What is deleted for the factory at [p]. *)
Definition gone (p : Z) : list Z := match store0 !! p with Some f => discarded f | None => [] end.

(** What a request for the data of [p] does. *)
Definition evaluates (n : nat) (p : Z) : Prop := forall del es, valid_event es ->
  exists del' es', create_and_get demangle event (program n) p (del, es) = (Ok (value p), (del', es')) /\ valid_event es' /\
    (exists l, es_user es' = es_user es ++ l /\ Forall (fun q => (rank q <= rank p)%nat) l /\ del' ≡ₚ del ++ (l ≫= gone)).

Lemma get_each_ok n keys r :
  (forall T T_name tag, (T, T_name, tag) ∈ keys ->
     GetFactory_typed store0 set0 T T_name (resolve_tag mUseDefaultTags mDefaultTags T_name tag)
       = Ok (Some (find (T, T_name, tag))) /\
     (rank (find (T, T_name, tag)) < r)%nat /\ evaluates n (find (T, T_name, tag))) ->
  forall del es, valid_event es ->
  exists del' es', get_each (program n) keys (del, es) = (Ok ((fun k => value (find k)) <$> keys), (del', es')) /\ valid_event es' /\
    (exists l, es_user es' = es_user es ++ l /\ Forall (fun q => (rank q < r)%nat) l /\ del' ≡ₚ del ++ (l ≫= gone)).
Proof.
  induction keys as [|[[T T_name] tag] keys IH]; intros Hkeys del es Hv.
  { exists del, es. split; [done|]. split; [done|]. exists []. by rewrite !app_nil_r. }
  destruct (Hkeys T T_name tag) as (Hfound & Hr & Hev); [by left|].
  destruct (Hev del es Hv) as (del1 & es1 & Hget & Hv1 & l1 & Hl1 & Hf1 & Hd1).
  destruct (IH ltac:(intros; apply Hkeys; by right) del1 es1 Hv1) as (del2 & es2 & Hrest & Hv2 & l2 & Hl2 & Hf2 & Hd2).
  exists del2, es2. cbn [get_each].
  assert (Hone : Get demangle mUseDefaultTags mDefaultTags event (program n) T T_name tag true (del, es)
    = (Ok (value (find (T, T_name, tag))), (del1, es1))).
  { unfold Get, GetFactory. rewrite M_bind_assoc. mstep (eq_refl (get_state (del, es))). cbn [fst snd].
    rewrite (lookup_same es T T_name _ _ Hv Hfound). exact Hget. }
  mstep Hone. mstep Hrest. split; [done|]. split; [done|]. exists (l1 ++ l2). rewrite Hl2, Hl1, app_assoc. split; [done|].
  split; [apply Forall_app; split; [|done]; eapply Forall_impl; [exact Hf1|]; simpl; lia|].
  by rewrite Hd2, Hd1, bind_app, app_assoc.
Qed.

(** A factory that has run, or keeps what was inserted, answers at once. *)
Lemma create_done n p f s :
  mStatus f = FProcessed \/ keeps_inserted f = true ->
  CreateAndGetData demangle (program n p) event (f, s) = (Ok (mData f), (f, s)).
Proof.
  intros Hs. assert (Hst : mStatus f = FProcessed \/ mStatus f = FInserted).
  { destruct Hs as [?|[?%bool_decide_eq_true _]%andb_true_iff]; auto. }
  unfold CreateAndGetData, Create. rewrite M_bind_assoc.
  assert (Hinit : DoInit demangle (program n p) (f, s) = (Ok tt, (f, s))).
  { unfold DoInit. mstep (eq_refl (get_self (f, s))). cbn [fst snd]. rewrite decide_False; [done|]. destruct Hst as [->| ->]; done. }
  assert (Hreg : clear_to_regenerate (f, s) = (Ok tt, (f, s))).
  { unfold clear_to_regenerate. mstep (eq_refl (get_self (f, s))). cbn [fst snd].
    destruct Hs as [->|[Hi Hk]%andb_true_iff]; [by rewrite andb_false_r|]. rewrite Hi.
    destruct (TestFactoryFlag REGENERATE f); [|done]. cbn in Hk |- *. unfold ClearData. mstep (eq_refl (get_self (f, s))). cbn [fst snd].
    apply bool_decide_eq_true in Hi. rewrite decide_False by congruence. by rewrite Hk. }
  mstep Hinit. rewrite M_bind_assoc. mstep Hreg. rewrite M_bind_assoc. mstep (eq_refl (get_self (f, s))). cbn [fst snd].
  rewrite decide_False by (destruct Hst as [->| ->]; done). done.
Qed.

(** A factory that has to run: it is initialized, and data to be regenerated is deleted. *)
Definition must_run (f : JFactory) : Prop :=
  (mStatus f = FUninitialized \/ mStatus f = FUnprocessed) /\ mData f = [] \/ mStatus f = FInserted /\ keeps_inserted f = false.

Lemma prepare_run n p f del es : must_run f ->
  exists f1, (_ ← DoInit demangle (program (S n) p); clear_to_regenerate) (f, (del, es)) = (Ok tt, (f1, (del ++ discarded f, es))) /\
    mStatus f1 = FUnprocessed /\ mData f1 = [] /\ m_level f1 = m_level f.
Proof.
  unfold discarded. intros [[Hs Hd]|[Hs Hk]].
  - assert (Hinit : DoInit demangle (program (S n) p) (f, (del, es)) = (Ok tt, (SetStatus FUnprocessed f, (del, es)))).
    { unfold DoInit. mstep (eq_refl (get_self (f, (del, es)))). cbn [fst snd].
      destruct Hs as [Hs|Hs]; rewrite Hs; [done|]. rewrite decide_False by done. by destruct f; simpl in Hs; subst. }
    exists (SetStatus FUnprocessed f). mstep Hinit. unfold clear_to_regenerate. mstep (eq_refl (get_self (SetStatus FUnprocessed f, (del, es)))). cbn [fst snd].
    rewrite (bool_decide_eq_false_2 (mStatus (SetStatus FUnprocessed f) = FInserted)), andb_false_r by done.
    rewrite bool_decide_eq_false_2 by (destruct Hs as [->| ->]; done). cbn [andb]. rewrite app_nil_r. done.
  - assert (Hinit : DoInit demangle (program (S n) p) (f, (del, es)) = (Ok tt, (f, (del, es)))).
    { unfold DoInit. mstep (eq_refl (get_self (f, (del, es)))). cbn [fst snd]. by rewrite decide_False by (rewrite Hs; done). }
    mstep Hinit. unfold clear_to_regenerate. mstep (eq_refl (get_self (f, (del, es)))). cbn [fst snd].
    unfold keeps_inserted in Hk. rewrite bool_decide_eq_true_2 in Hk |- * by done. cbn in Hk. apply orb_false_iff in Hk as [Hr Hp].
    apply negb_false_iff in Hr. rewrite Hr. cbn [andb]. unfold ClearData. mstep (eq_refl (get_self (f, (del, es)))). cbn [fst snd].
    rewrite decide_False by (rewrite Hs; done). rewrite Hp.
    destruct (TestFactoryFlag NOT_OBJECT_OWNER f); cbn [negb]; [rewrite app_nil_r|]; eexists; (split; [reflexivity|done]).
Qed.

(** One that has to run gets its inputs, runs, and keeps the result. *)
Lemma create_runs n p f del es del' es' inputs :
  must_run f ->
  get_each (program n) (deps p) (del ++ discarded f, es) = (Ok inputs, (del', es')) ->
  exists f', CreateAndGetData demangle (program (S n) p) event (f, (del, es))
      = (Ok (fn p inputs), (f', (del', mkEventState (es_store es') (es_set es') (es_user es' ++ [p])))) /\
    mStatus f' = FProcessed /\ mData f' = fn p inputs /\ m_level f' = m_level f.
Proof.
  intros Hs Hin. destruct (prepare_run n p f del es Hs) as (f1 & ([] & s1 & Hinit & Hreg)%M_bind_inv & Hst1 & Hd1 & Hl1).
  set (del1 := del ++ discarded f) in *. unfold CreateAndGetData, Create. rewrite M_bind_assoc. mstep Hinit.
  rewrite M_bind_assoc. mstep Hreg. rewrite M_bind_assoc. mstep (eq_refl (get_self (f1, (del1, es)))). cbn [fst snd]. rewrite decide_True by done.
  assert (Hrun : exists r, change_run demangle (program (S n) p) event (f1, (del1, es)) = (Ok tt, (set_run r f1, (del1, es)))).
  { unfold change_run. mstep (eq_refl (get_self (f1, (del1, es)))). cbn [fst snd].
    destruct (mPreviousRunNumber f1 =? -1) eqn:H1; [by eexists|].
    destruct (negb (mPreviousRunNumber f1 =? mRunNumber event)); [by eexists|].
    exists (mPreviousRunNumber f1). by destruct f1. }
  destruct Hrun as [r Hrun]. rewrite M_bind_assoc. mstep Hrun. set (f2 := set_run r f1).
  assert (Hproc : wrapped demangle "JFactory::Process" (Process (program (S n) p) event) (f2, (del1, es))
    = (Ok tt, (set_state FInserted CInserted (set_data (fn p inputs) (if TestFactoryFlag PERSISTENT f2 then f2
         else set_state FUnprocessed NotCreatedYet (set_data [] f2))),
       (del', mkEventState (es_store es') (es_set es') (es_user es' ++ [p]))))).
  { unfold wrapped, CallWithJExceptionWrapper. cbn [Process program].
    assert (Hev : on_event (get_each (program n) (deps p)) (f2, (del1, es)) = (Ok inputs, (f2, (del', es')))).
    { unfold on_event. cbn [fst snd]. by rewrite Hin. }
    mstep Hev. set (es2 := mkEventState (es_store es') (es_set es') (es_user es' ++ [p])).
    mstep (eq_refl (on_event (fun s : list Z * ES => (Ok tt, (s.1, mkEventState (es_store s.2) (es_set s.2) (es_user s.2 ++ [p])))) (f2, (del', es')))).
    cbn [fst snd]. fold es2. unfold Set_move, ClearData. rewrite M_bind_assoc. mstep (eq_refl (get_self (f2, (del', es2)))). cbn [fst snd].
    change (mStatus f2) with (mStatus f1). rewrite Hst1, decide_False by done. destruct (TestFactoryFlag PERSISTENT f2); [done|].
    destruct (TestFactoryFlag NOT_OBJECT_OWNER f2); [done|]. unfold delete_objects. change (mData f2) with (mData f1). rewrite Hd1.
    by rewrite <- (app_nil_r del') at 2. }
  rewrite M_bind_assoc. mstep Hproc. eexists. split; [reflexivity|].
  by destruct (TestFactoryFlag PERSISTENT f2).
Qed.

Lemma evaluates_ok n : forall p, is_Some (store0 !! p) -> (rank p < n)%nat -> evaluates n p.
Proof.
  induction n as [|n IH]; intros p [f0 Hp] Hr; [lia|]. intros del es Hv.
  destruct (ve_store es Hv p f0 Hp) as (f & Hf & Hc). unfold create_and_get, on_factory. cbn [fst snd]. rewrite Hf.
  assert (Hdone : mStatus f = FProcessed \/ keeps_inserted f = true ->
    mData f = value p -> exists del' es', (let '(r, (f', (del, es))) := CreateAndGetData demangle (program (S n) p) event (f, (del, es)) in
      (r, (del, mkEventState (<[p := f']> (es_store es)) (es_set es) (es_user es)))) = (Ok (value p), (del', es')) /\ valid_event es' /\
    (exists l, es_user es' = es_user es ++ l /\ Forall (fun q => (rank q <= rank p)%nat) l /\ del' ≡ₚ del ++ (l ≫= gone))).
  { intros Hs Hd. rewrite (create_done (S n) p f (del, es) Hs), Hd. exists del, es. rewrite insert_id by done.
    split; [by destruct es|]. split; [done|]. exists []. by rewrite !app_nil_r. }
  unfold current in Hc. case_decide as Hlog; [by apply Hdone; [left|]; apply Hc|]. subst f.
  destruct (keeps_inserted f0) eqn:Hk; [apply Hdone; [by right|]; by rewrite (Hvalue p f0 Hp), Hk|].
  assert (Hmust : must_run f0) by (destruct (Hstart p f0 Hp); [by left|by right]).
  destruct (get_each_ok n (deps p) (rank p)) with (del := del ++ discarded f0) (es := es) as (del1 & es1 & Hget & Hv1 & l & Hl & Hlr & Hdel); [|done|].
  { intros T T_name tag Hin. destruct (Hfind p T T_name tag Hin ltac:(by eexists)) as (Hfd & Hst & Hrk).
    split; [done|]. split; [done|]. apply IH; [done|lia]. }
  destruct (create_runs n p f0 del es del1 es1 _ Hmust Hget) as (f' & -> & Hst & Hdat & Hlev).
  assert (Hval : fn p ((fun k => value (find k)) <$> deps p) = value p) by (by rewrite (Hvalue p f0 Hp), Hk).
  rewrite Hval in *. eexists _, _. split; [reflexivity|].
  assert (Hnp : p ∉ es_user es1).
  { rewrite Hl, elem_of_app. intros [?|Hq]; [done|]. rewrite Forall_forall in Hlr. specialize (Hlr p Hq). lia. }
  split; [split; cbn [es_set es_user es_store]|].
  - apply Hv1.
  - apply NoDup_app. split; [apply Hv1|]. split; [|apply NoDup_singleton]. intros q Hq ->%list_elem_of_singleton. done.
  - intros q [Hq| ->%list_elem_of_singleton]%elem_of_app; [by apply Hv1|]. by exists f0.
  - intros q g0 Hq. destruct (decide (q = p)) as [->|Hne].
    + exists f'. rewrite lookup_insert_eq. split; [done|]. unfold current. rewrite decide_True by set_solver. simplify_eq. auto.
    + destruct (ve_store es1 Hv1 q g0 Hq) as (g & Hg & Hcg). exists g. rewrite lookup_insert_ne by done. split; [done|].
      unfold current in *. destruct (decide (q ∈ es_user es1)); [by rewrite decide_True by set_solver|].
      rewrite decide_False; [done|]. rewrite elem_of_app, list_elem_of_singleton. naive_solver.
  - intros q. rewrite lookup_insert_is_Some. intros [->|[_ Hq]]; [by exists f0|by apply Hv1].
  - exists (l ++ [p]). cbn [es_user]. rewrite Hl, app_assoc. split; [done|]. split.
    + apply Forall_app. split; [|by apply Forall_singleton]. eapply Forall_impl; [exact Hlr|]. simpl. lia.
    + rewrite Hdel, bind_app, bind_singleton. unfold gone at 3. rewrite Hp. solve_Permutation.
Qed.

(** C10: factories are evaluated on demand, each at most once.  Take an event whose factories have not run or were filled by
    [Insert]; to process an event, a factory asks for the data of others, without cycles, and sets what it computes from their data.
    Any sequence of [Get]s returns, for each key, the value that the
    dataflow equations give to its factory: inserted data is used as it is, unless the factory has the flag REGENERATE and not
    PERSISTENT, and otherwise the factory's function is applied to the values of its inputs.  No factory runs twice,
    however often and on whatever paths its data is wanted, no factory whose inserted data is used runs at
    all, and what is deleted is the inserted data that was regenerated, of the factories that own their objects. *)
Theorem get_evaluates_once n keys :
  (forall T T_name tag, (T, T_name, tag) ∈ keys ->
     GetFactory_typed store0 set0 T T_name (resolve_tag mUseDefaultTags mDefaultTags T_name tag)
       = Ok (Some (find (T, T_name, tag))) /\
     is_Some (store0 !! find (T, T_name, tag)) /\ (rank (find (T, T_name, tag)) < n)%nat) ->
  exists del es', get_each (program n) keys ([], mkEventState store0 set0 []) = (Ok ((fun k => value (find k)) <$> keys), (del, es')) /\
    NoDup (es_user es') /\
    (forall p, p ∈ es_user es' -> exists f, store0 !! p = Some f /\ keeps_inserted f = false) /\
    del ≡ₚ es_user es' ≫= gone.
Proof.
  intros Hkeys. assert (Hv : valid_event (mkEventState store0 set0 [])).
  { split; cbn; [done|apply NoDup_nil_2| | |done].
    - intros p Hp. by apply not_elem_of_nil in Hp.
    - intros p f0 Hp. exists f0. split; [done|]. unfold current. rewrite decide_False; [done|]. apply not_elem_of_nil. }
  destruct (get_each_ok n keys n) with (del := @nil Z) (es := mkEventState store0 set0 (@nil Z)) as (del & es' & Hrun & Hv' & l & Hl & _ & Hd); [|done|].
  - intros T T_name tag Hin. destruct (Hkeys T T_name tag Hin) as (H1 & H2 & H3). split; [done|]. split; [done|].
    by apply evaluates_ok.
  - exists del, es'. split; [exact Hrun|]. split; [apply Hv'|]. split; [intros p Hp; by apply Hv'|]. cbn in Hl. by rewrite Hl.
Qed.
End Dataflow.

(** [GetAll] without argument returns nothing.  Whenever the overload that returns a vector returns at
    all, the vector is empty, however much data the factories hold: the loop fills a second
    variable of the same name. *)
Theorem get_all_is_empty demangle {U} event (callbacks : Z -> Callbacks (EventState U)) T T_name s r s' :
  GetAll demangle event callbacks T T_name s = (Ok r, s') -> r = [].
Proof.
  unfold GetAll. intros (fs & s1 & _ & H)%M_bind_inv. apply M_bind_inv in H as ([] & s2 & _ & H).
  unfold mret, M_ret in H. by simplify_eq.
Qed.

(** Inserting under a default tag works only once.  If the event resolves the empty tag of a type to
    a default tag for which there is no factory, the first [Insert] creates one, but
    registers it under the unresolved tag; so the second [Insert] does not find it, creates
    another one, and fails because that is a duplicate. *)
Theorem insert_under_default_tag_fails {U} tags T T_name dtag set (es : EventState U) x y a b :
  tags !! T_name = Some dtag -> dtag <> EmptyString -> es_set es = set -> a <> b ->
  mFactories set !! (T, dtag) = None -> mFactoriesFromString set !! (T_name, dtag) = None ->
  mFactories set !! (T, EmptyString) = None -> mFactoriesFromString set !! (T_name, EmptyString) = None ->
  exists s1, Insert_one true tags T T_name x EmptyString a ([], es) = (Ok a, s1) /\
    exists s2, Insert_one true tags T T_name y EmptyString b s1
      = (Throw (EJ (mkex "JFactorySet::Add failed because factory is duplicate")), s2).
Proof.
  intros Htag Hd Hset Hab H1 H2 H3 H4. subst set.
  assert (Hres : resolve_tag true tags T_name EmptyString = dtag).
  { unfold resolve_tag. cbn. rewrite bool_decide_true by done. by rewrite Htag. }
  unfold Insert_one, factory_for_insert. rewrite Hres.
  set (f := new_factory T T_name EmptyString (mLevel (es_set es))).
  assert (Hnew : is_duplicate (es_set es) f = false).
  { unfold is_duplicate, typed_key, untyped_key. cbn. rewrite H3, H4. done. }
  assert (Hadd : Add (<[a := f]> (es_store es)) a (es_set es) = Ok (true, index a f (es_set es))).
  { unfold Add. by rewrite lookup_insert_eq, Hnew. }
  eexists. split.
  - rewrite M_bind_assoc. mstep (eq_refl (get_state ([] : list Z, es))). cbn [fst snd]. unfold GetFactory_typed. rewrite H1, H2.
    cbn [lift mbind M_bind]. unfold mbind, M_bind, lift. fold f. rewrite Hadd. cbn.
    unfold on_factory. cbn. rewrite lookup_insert_eq. reflexivity.
  - eexists. rewrite M_bind_assoc. unfold get_state at 1. unfold mbind at 1, M_bind at 1. cbn [fst snd es_set es_store mFactories index].
    unfold GetFactory_typed. cbn [mFactories mFactoriesFromString index typed_key untyped_key].
    rewrite !lookup_insert_ne by (unfold typed_key, untyped_key; cbn; congruence). rewrite H1, H2.
    unfold mbind at 1, M_bind at 1. unfold lift at 1. cbn [mLevel index]. fold f. unfold mbind at 1, M_bind at 1. unfold lift at 1.
    unfold Add. rewrite lookup_insert_eq. unfold is_duplicate. cbn [mFactories index]. rewrite lookup_insert_eq. reflexivity.
Qed.

(** ** Witnesses *)

Definition fac (T : Z) (T_name : string) (st : FStatus) (d : list Z) : JFactory :=
  mkFactory (mkJComponent T_name "plugin" T_name) PhysicsEvent T T_name EmptyString WRITE_TO_OUTPUT (-1) st NotCreatedYet d.

(** Raw data [A], two factories [B] and [C] that need it, and [D], which needs both; and
    another factory for [B].  Somebody has inserted data for [C], but [C] regenerates it. *)
Definition diamond : Store :=
  {[ 1 := fac 1 "A" FInserted [5]; 2 := fac 2 "B" FUninitialized []; 3 := SetRegenerateFlag true (fac 3 "C" FInserted [8]);
     4 := fac 4 "D" FUninitialized []; 5 := fac 2 "B" FUninitialized [] ]}.

Definition set_of (ps : list Z) : JFactorySet :=
  foldl (fun set p => match diamond !! p with Some f => index p f set | None => set end) empty_set ps.

Lemma set_of_ok ps : forall set, set_ok diamond set ->
  foldl (fun b p => match diamond !! p with
                    | Some f => (b.1 && negb (is_duplicate b.2 f), index p f b.2)
                    | None => (false, b.2) end) (true, set) ps = (true, foldl (fun set p =>
     match diamond !! p with Some f => index p f set | None => set end) set ps) ->
  set_ok diamond (foldl (fun set p => match diamond !! p with Some f => index p f set | None => set end) set ps).
Proof.
  assert (Hf : forall ps set, (foldl (fun b p => match diamond !! p with
                    | Some f => (b.1 && negb (is_duplicate b.2 f), index p f b.2)
                    | None => (false, b.2) end) (false, set) ps).1 = false).
  { clear. induction ps as [|p ps IH]; intros set; [done|]. simpl. by destruct (diamond !! p). }
  induction ps as [|p ps IH]; intros set Hok H; [done|]. simpl in *.
  destruct (diamond !! p) as [f|] eqn:Hp; [|pose proof (Hf ps set) as Hc; rewrite H in Hc; done].
  destruct (is_duplicate set f) eqn:Hd; [pose proof (Hf ps (index p f set)) as Hc; simpl in H; rewrite H in Hc; done|].
  apply IH; [by apply index_ok|done].
Qed.

Lemma empty_set_ok store : set_ok store empty_set.
Proof. split; intros k p Hk; cbn in Hk; by rewrite lookup_empty in Hk. Qed.

Lemma merge_conserves_factories_witness :
  exists this' other', Merge diamond (set_of [1; 2]) (set_of [3; 5]) = Ok (this', other') /\
    GetAllFactories other' = [5] /\
    GetAllFactories this' ++ GetAllFactories other' ≡ₚ GetAllFactories (set_of [1; 2]) ++ GetAllFactories (set_of [3; 5]).
Proof.
  destruct (merge_conserves_factories diamond (set_of [1; 2]) (set_of [3; 5])) as (t & o & Hrun & _ & _ & _ & Hperm & _).
  - apply set_of_ok; [apply empty_set_ok|vm_compute; reflexivity].
  - apply set_of_ok; [apply empty_set_ok|vm_compute; reflexivity].
  - exists t, o. split; [exact Hrun|]. split; [|exact Hperm].
    vm_compute in Hrun. injection Hrun as _ <-. reflexivity.
Defined.

Definition diamond_deps (p : Z) : list (Z * string * string) :=
  if p =? 2 then [(1, "A", EmptyString)]
  else if p =? 3 then [(1, "A", EmptyString)]
  else if p =? 4 then [(2, "B", EmptyString); (3, "C", EmptyString)]
  else [].

(** Each factory adds its number to the sum of its inputs. *)
Definition diamond_fn (p : Z) (inputs : list (list Z)) : list Z := [p + foldr Z.add 0 (concat inputs)].

Definition diamond_value (p : Z) : list Z :=
  if p =? 1 then [5] else if p =? 2 then [7] else if p =? 3 then [8] else if p =? 4 then [19] else [5].

Definition diamond_rank (p : Z) : nat := Z.to_nat p.

(** The four addresses that the store has. *)
Lemma diamond_cases p f : diamond !! p = Some f ->
  p = 1 /\ f = fac 1 "A" FInserted [5] \/ p = 2 /\ f = fac 2 "B" FUninitialized [] \/
  p = 3 /\ f = SetRegenerateFlag true (fac 3 "C" FInserted [8]) \/ p = 4 /\ f = fac 4 "D" FUninitialized [] \/
  p = 5 /\ f = fac 2 "B" FUninitialized [].
Proof.
  intros H. apply elem_of_map_to_list in H. vm_compute in H.
  repeat (apply elem_of_cons in H as [H|H]; [injection H as -> ->; auto 10|]). by apply not_elem_of_nil in H.
Qed.

Lemma get_evaluates_once_witness :
  exists del es', get_each (fun _ => "t"%string) false ∅ (event PhysicsEvent [] 1)
      (program (fun _ => "t"%string) false ∅ (event PhysicsEvent [] 1) diamond_deps diamond_fn 10)
      [(4, "D", EmptyString); (2, "B", EmptyString)]%string ([], mkEventState diamond (set_of [1; 2; 3; 4]) [])
    = (Ok [[19]; [7]], (del, es')) /\ NoDup (es_user es') /\ es_user es' = [2; 3; 4] /\ del = [8].
Proof.
  destruct (get_evaluates_once (fun _ => "t"%string) false ∅ (event PhysicsEvent [] 1) diamond_deps diamond_fn diamond
    (set_of [1; 2; 3; 4])) with (find := fun k : Z * string * string => k.1.1) (rank := diamond_rank) (value := diamond_value)
    (n := 10%nat) (keys := [(4, "D", EmptyString); (2, "B", EmptyString)]%string) as (del & es' & Hrun & Hnd & _).
  - intros p f [[-> ->]|[[-> ->]|[[-> ->]|[[-> ->]|[-> ->]]]]]%diamond_cases; simpl; auto.
  - intros p T T_name tag Hin [f Hf]. apply diamond_cases in Hf as [[-> _]|[[-> _]|[[-> _]|[[-> _]|[-> _]]]]];
      cbn in Hin; set_unfold in Hin; destruct_or?; simplify_eq; try done;
      (split; [vm_compute; reflexivity|]; split; [vm_compute; eauto|vm_compute; lia]).
  - intros p f [[-> ->]|[[-> ->]|[[-> ->]|[[-> ->]|[-> ->]]]]]%diamond_cases; vm_compute; reflexivity.
  - intros T T_name tag Hin. set_unfold in Hin. destruct_or?; simplify_eq; try done;
      (split; [vm_compute; reflexivity|]; split; [vm_compute; eauto|vm_compute; lia]).
  - exists del, es'. split; [exact Hrun|]. split; [exact Hnd|]. vm_compute in Hrun. by injection Hrun as <- <-.
Defined.

Lemma get_all_is_empty_witness :
  exists r s', GetAll (fun _ => "t"%string) (event PhysicsEvent [] 1)
      (program (fun _ => "t"%string) false ∅ (event PhysicsEvent [] 1) diamond_deps diamond_fn 10) 1 "A"
      ([], mkEventState diamond (set_of [1; 2; 3; 4]) []) = (Ok r, s') /\ r = [].
Proof.
  eexists _, _. split; [vm_compute; reflexivity|].
  eapply (get_all_is_empty (fun _ => "t"%string) (event PhysicsEvent [] 1)
    (program (fun _ => "t"%string) false ∅ (event PhysicsEvent [] 1) diamond_deps diamond_fn 10) 1 "A"
    ([], mkEventState diamond (set_of [1; 2; 3; 4]) [])).
  vm_compute; reflexivity.
Defined.

Lemma insert_under_default_tag_fails_witness :
  exists s1, Insert_one true {[ "A" := "raw" ]}%string 1 "A" 70 EmptyString 8 ([], mkEventState ∅ empty_set tt) = (Ok 8, s1) /\
    exists s2, Insert_one true {[ "A" := "raw" ]}%string 1 "A" 71 EmptyString 9 s1
      = (Throw (EJ (mkex "JFactorySet::Add failed because factory is duplicate")), s2).
Proof.
  exact (insert_under_default_tag_fails {[ "A" := "raw" ]}%string 1 "A" "raw" empty_set (mkEventState ∅ empty_set tt) 70 71 8 9
    eq_refl ltac:(done) eq_refl ltac:(done) eq_refl eq_refl eq_refl eq_refl).
Defined.

End FactorySet.
