(* ===== verification/JMultifactory.v ===== *)
(** * JMultifactory: one computation, several outputs

    Model of [JMultifactory.h] and [JMultifactory.cc] (without PODIO).  A multifactory has a helper for each
    declared output: a [JFactoryT] whose [Process] executes the multifactory, which is expected to set the data
    of all helpers.  Helpers are factories in a store, known by their address; while a method of a
    helper runs, [JFactory] sees the helper as a value, so that [as_process] puts it back
    into the store before the multifactory, which may write to it, runs. *)

From S2P Require Import Prelude JEvent JComponent JFactory JFactorySet.
Import Event Component Factory FactorySet.
Local Open Scope Z_scope.

Module Multifactory.

Record JMultifactory := mkJMultifactory {
  mf_component : JComponent;
  mf_level : JEventLevel;
  m_status : Component.Status;
  m_last_run_number : Z;
  mHelpers : JFactorySet;
  mFactoryName : string
}.

Definition new_multifactory (c : JComponent) (name : string) (level : JEventLevel) : JMultifactory :=
  mkJMultifactory c level Uninitialized (-1) empty_set name.

Definition set_mf_status (st : Component.Status) (mf : JMultifactory) : JMultifactory :=
  mkJMultifactory (mf_component mf) (mf_level mf) st (m_last_run_number mf) (mHelpers mf) (mFactoryName mf).
Definition set_last_run (r : Z) (mf : JMultifactory) : JMultifactory :=
  mkJMultifactory (mf_component mf) (mf_level mf) (m_status mf) r (mHelpers mf) (mFactoryName mf).
Definition set_helpers (s : JFactorySet) (mf : JMultifactory) : JMultifactory :=
  mkJMultifactory (mf_component mf) (mf_level mf) (m_status mf) (m_last_run_number mf) s (mFactoryName mf).

(** The factories, the objects that have been deleted, the multifactory, and the user's state. *)
Record MfWorld (U : Type) := mkMfWorld {
  w_store : Store;
  w_deleted : list Z;
  w_mf : JMultifactory;
  w_user : U
}.
Arguments mkMfWorld {U} _ _ _ _.
Arguments w_store {U} _.
Arguments w_deleted {U} _.
Arguments w_mf {U} _.
Arguments w_user {U} _.

(** The methods that users override. *)
Record MultiCallbacks (U : Type) := mkMultiCallbacks {
  MInit : M (MfWorld U) unit;
  MBeginRun : JEvent -> M (MfWorld U) unit;
  MProcess : JEvent -> M (MfWorld U) unit;
  MEndRun : M (MfWorld U) unit;
  MFinish : M (MfWorld U) unit
}.
Arguments MInit {U} _.
Arguments MBeginRun {U} _ _.
Arguments MProcess {U} _ _.
Arguments MEndRun {U} _.
Arguments MFinish {U} _.

Section Methods.
Context (demangle : exn -> string) {U : Type} (cb : MultiCallbacks U).
Implicit Types (w : MfWorld U).

Definition modify_mf (f : JMultifactory -> JMultifactory) : M (MfWorld U) unit :=
  modify (fun w => mkMfWorld (w_store w) (w_deleted w) (f (w_mf w)) (w_user w)).

(** A method of the factory at [p]. *)
Definition on_helper {A} (p : Z) (m : M (JFactory * (list Z * MfWorld U)) A) : M (MfWorld U) A := fun w =>
  match w_store w !! p with
  | None => (Undef, w)
  | Some f =>
      let '(r, (f', (del, w'))) := m (f, (w_deleted w, w)) in
      (r, mkMfWorld (<[p := f']> (w_store w')) del (w_mf w') (w_user w'))
  end.

(** Code that the helper at [p] calls and that may access the helper itself. *)
Definition as_process (p : Z) (m : M (MfWorld U) unit) : M (JFactory * (list Z * MfWorld U)) unit := fun s =>
  let '(r, w') := m (mkMfWorld (<[p := s.1]> (w_store s.2.2)) s.2.1 (w_mf s.2.2) (w_user s.2.2)) in
  match w_store w' !! p with
  | None => (Undef, s)
  | Some f' => (r, (f', (w_deleted w', w')))
  end.

(** [DeclareOutput<T>(tag, owns_data)]; [fresh] is the address of the new helper. *)
Definition new_helper (T : Z) (T_name tag : string) (owns_data : bool) (mf : JMultifactory) : JFactory :=
  let flags := if owns_data then WRITE_TO_OUTPUT else Z.lor WRITE_TO_OUTPUT NOT_OBJECT_OWNER in
  mkFactory (mkJComponent T_name (m_plugin_name (mf_component mf)) (mFactoryName mf)) (mf_level mf) T T_name tag
    flags (-1) FUninitialized NotCreatedYet [].

Definition DeclareOutput (T : Z) (T_name tag : string) (owns_data : bool) (fresh : Z) : M (MfWorld U) unit :=
  w ← get;
  let mf := w_mf w in
  let store := <[fresh := new_helper T T_name tag owns_data mf]> (w_store w) in
  _ ← modify (fun w => mkMfWorld store (w_deleted w) (w_mf w) (w_user w));
  let helpers := mkFactorySet (mFactories (mHelpers mf)) (mFactoriesFromString (mHelpers mf))
                   (mMultifactories (mHelpers mf)) (mIsFactoryOwner (mHelpers mf)) (mf_level mf) in
  _ ← modify_mf (set_helpers helpers);
  r ← lift (Add store fresh helpers);
  modify_mf (set_helpers r.2).

(** [SetData<T>(tag, data)]. *)
Definition SetData (T : Z) (T_name tag : string) (data : list Z) : M (MfWorld U) unit :=
  w ← get;
  let mf := w_mf w in
  helper ← lift (GetFactory_typed (w_store w) (mHelpers mf) T T_name tag);
  match helper with
  | None =>
      lift (Throw (EJ (mkJException EmptyString
        "JMultifactory: Attempting to SetData() without corresponding DeclareOutput()"
        (m_plugin_name (mf_component mf)) (m_type_name (mf_component mf)) "JMultifactory::SetData" (m_prefix (mf_component mf)))))
  | Some p => on_helper p (Set_copy data)
  end.

Definition mf_wrapped (fn : string) (m : M (MfWorld U) unit) : M (MfWorld U) unit := fun w =>
  CallWithJExceptionWrapper demangle (mf_component (w_mf w)) fn m w.

Definition DoInit : M (MfWorld U) unit :=
  w ← get;
  if decide (m_status (w_mf w) = Uninitialized) then
    _ ← mf_wrapped "JMultifactory::Init" (MInit cb);
    modify_mf (set_mf_status Initialized)
  else mret tt.

(** The run callbacks of [Execute]. *)
Definition mf_change_run (event : JEvent) : M (MfWorld U) unit :=
  w ← get;
  let run_number := mRunNumber event in
  if m_last_run_number (w_mf w) =? -1 then
    _ ← mf_wrapped "JMultifactory::BeginRun" (MBeginRun cb event);
    modify_mf (set_last_run run_number)
  else if negb (m_last_run_number (w_mf w) =? run_number) then
    _ ← mf_wrapped "JMultifactory::EndRun" (MEndRun cb);
    _ ← mf_wrapped "JMultifactory::BeginRun" (MBeginRun cb event);
    modify_mf (set_last_run run_number)
  else mret tt.

Definition Execute (event : JEvent) : M (MfWorld U) unit :=
  _ ← DoInit;
  _ ← mf_change_run event;
  mf_wrapped "JMultifactory::Process" (MProcess cb event).

Definition Release : M (MfWorld U) unit :=
  w ← get;
  if decide (m_status (w_mf w) = Initialized) then
    _ ← mf_wrapped "JMultifactory::Finish" (MFinish cb);
    modify_mf (set_mf_status Finalized)
  else mret tt.

(** [JMultifactoryHelper<T>]: only [Process] is overridden. *)
Definition helper_callbacks (p : Z) : Callbacks (MfWorld U) := {|
  Init := mret tt;
  ChangeRun _ := mret tt;
  BeginRun _ := mret tt;
  EndRun := mret tt;
  Process event := as_process p (Execute event)
|}.

(** Asking the helper at [p] for its data. *)
Definition get_output (event : JEvent) (p : Z) : M (MfWorld U) (list Z) :=
  on_helper p (CreateAndGetData demangle (helper_callbacks p) event).

End Methods.

(** ** One execution per event *)

Section Once.
Context (demangle : exn -> string).
(** The outputs (type, type name, tag), the addresses of their helpers, and the data that the user's
    [Process] makes for an event. *)
Context (outputs : list (Z * string * string)) (addr : Z * string * string -> Z).
Context (produce : JEvent -> Z * string * string -> list Z).
Abbreviation W := (MfWorld (list fcall)).

Definition mlog (c : fcall) : M W unit := modify (fun w => mkMfWorld (w_store w) (w_deleted w) (w_mf w) (w_user w ++ [c])).

(** A user's multifactory: it sets the data of the outputs [outs], and writes down which of its
    callbacks were called. *)
Definition setter (outs : list (Z * string * string)) : MultiCallbacks (list fcall) := {|
  MInit := mlog FInit;
  MBeginRun e := mlog (FBeginRun (mRunNumber e));
  MProcess e :=
    _ ← mlog (FProcess (mRunNumber e) (mEventNumber e));
    for_each outs (fun o => SetData o.1.1 o.1.2 o.2 (produce e o));
  MEndRun := mlog FEndRun;
  MFinish := mret tt
|}.

(** Every output has a helper, at its own address and on the multifactory's level. *)
Record declared (w : W) : Prop := {
  de_inj : forall o o', o ∈ outputs -> o' ∈ outputs -> addr o = addr o' -> o = o';
  de_index : forall o, o ∈ outputs -> mFactories (mHelpers (w_mf w)) !! (o.1.1, o.2) = Some (addr o);
  de_store : forall o, o ∈ outputs -> exists f, w_store w !! addr o = Some f /\
    m_level f = mLevel (mHelpers (w_mf w)) /\ TestFactoryFlag PERSISTENT f = false /\ TestFactoryFlag REGENERATE f = false
}.

(** Nothing has been asked for yet; the data is there. *)
Definition fresh_helper (f : JFactory) : Prop :=
  (mStatus f = FUninitialized \/ mStatus f = FUnprocessed) /\ mData f = [].
Definition filled_helper (d : list Z) (f : JFactory) : Prop :=
  (mStatus f = FInserted \/ mStatus f = FProcessed) /\ mData f = d.

Definition helpers_are (P : Z * string * string -> JFactory -> Prop) (outs : list (Z * string * string)) (w : W) : Prop :=
  forall o f, o ∈ outs -> w_store w !! addr o = Some f -> P o f.

(** Two worlds that differ only in the contents of helpers. *)
Definition same_shape (w w' : W) : Prop :=
  mHelpers (w_mf w') = mHelpers (w_mf w) /\ forall o f, w_store w !! addr o = Some f -> exists f', w_store w' !! addr o = Some f' /\
    m_level f' = m_level f /\ mFlags f' = mFlags f.

#[local] Instance same_shape_preorder : PreOrder same_shape.
Proof.
  split.
  - intros w. split; [done|]. eauto.
  - intros w1 w2 w3 [H1 H2] [H3 H4]. split; [congruence|]. intros o f Hf.
    destruct (H2 o f Hf) as (f2 & Hf2 & Hl2 & Hg2). destruct (H4 o f2 Hf2) as (f3 & Hf3 & Hl3 & Hg3).
    exists f3. split; [done|]. split; congruence.
Qed.

(** Replacing a helper by one on the same level with the same flags. *)
Lemma same_shape_insert (w : W) p f f' del u :
  w_store w !! p = Some f -> m_level f' = m_level f -> mFlags f' = mFlags f ->
  same_shape w (mkMfWorld (<[p := f']> (w_store w)) del (w_mf w) u).
Proof.
  intros Hf Hl Hg. split; [done|]. intros o g Hg'. simpl. destruct (decide (addr o = p)) as [He|Hne].
  - rewrite He in Hg' |- *. rewrite lookup_insert_eq. exists f'. rewrite Hf in Hg'. injection Hg' as <-. eauto.
  - rewrite lookup_insert_ne by done. eauto.
Qed.

Lemma declared_same w w' : same_shape w w' -> declared w -> declared w'.
Proof.
  intros [Hm Hs] [H1 H2 H3]. split; [done|by rewrite Hm|]. rewrite Hm. intros o Ho.
  destruct (H3 o Ho) as (f & Hf & Hl & Hp & Hr). destruct (Hs o f Hf) as (f' & Hf' & Hl' & Hg'). exists f'.
  unfold TestFactoryFlag in *. rewrite Hl', Hg'. done.
Qed.

(** [Set] on a helper that has no data. *)
Lemma Set_copy_fresh (f : JFactory) (del : list Z) (w : W) (d : list Z) :
  fresh_helper f -> TestFactoryFlag PERSISTENT f = false ->
  exists f', Set_copy d (f, (del, w)) = (Ok tt, (f', (del, w))) /\ filled_helper d f' /\ mStatus f' = FInserted /\
    m_level f' = m_level f /\ mFlags f' = mFlags f /\ mPreviousRunNumber f' = mPreviousRunNumber f.
Proof.
  intros [Hs Hd] Hp. unfold Set_copy. mstep (eq_refl (get_self (f, (del, w)))). cbn [fst snd]. case_decide as Hc.
  - exists (set_state FInserted CInserted f). unfold filled_helper. simpl. rewrite Hd in *. auto 10.
  - unfold Set_move, ClearData. rewrite M_bind_assoc. mstep (eq_refl (get_self (f, (del, w)))). cbn [fst snd].
    exists (set_state FInserted CInserted (set_data d (if decide (mStatus f = FUninitialized) then f else set_state FUnprocessed NotCreatedYet (set_data [] f)))).
    unfold filled_helper. case_decide as Hu; [simpl; auto 10|]. rewrite Hp. split; [|simpl; auto 10].
    rewrite M_bind_assoc. destruct (TestFactoryFlag NOT_OBJECT_OWNER f); [done|].
    unfold delete_objects, mbind, M_bind, modify_self. cbn. by rewrite Hd, app_nil_r.
Qed.

(** [SetData] fills one helper and leaves everything else. *)
Lemma SetData_fresh (w : W) o (d : list Z) :
  declared w -> o ∈ outputs -> helpers_are (fun _ => fresh_helper) [o] w ->
  exists w', SetData o.1.1 o.1.2 o.2 d w = (Ok tt, w') /\ same_shape w w' /\ w_user w' = w_user w /\
    w_deleted w' = w_deleted w /\
    (exists f', w_store w' !! addr o = Some f' /\ filled_helper d f' /\ mStatus f' = FInserted) /\
    forall p, p <> addr o -> w_store w' !! p = w_store w !! p.
Proof.
  intros [_ Hi Hs] Ho Hfresh. destruct (Hs o Ho) as (f & Hf & Hl & Hp & _).
  specialize (Hfresh o f (list_elem_of_here _ _) Hf). unfold SetData. autorewrite with monad.
  assert (Hg : GetFactory_typed (w_store w) (mHelpers (w_mf w)) o.1.1 o.1.2 o.2 = Ok (Some (addr o))).
  { unfold GetFactory_typed, at_level. by rewrite (Hi o Ho), Hf, decide_True. }
  unfold lift. erewrite M_bind_ok; [|rewrite Hg; reflexivity]. cbn beta iota.
  destruct (Set_copy_fresh f (w_deleted w) w d Hfresh Hp) as (f' & Hset & Hfill & Hst & Hl' & Hfl & _).
  exists (mkMfWorld (<[addr o := f']> (w_store w)) (w_deleted w) (w_mf w) (w_user w)).
  split; [unfold on_helper; by rewrite Hf, Hset|]. split.
  - by eapply same_shape_insert.
  - simpl. split; [done|]. split; [done|]. rewrite lookup_insert_eq. split; [eauto|].
    intros p Hne. by rewrite lookup_insert_ne.
Qed.

Lemma set_all e outs : forall w : W,
  declared w -> NoDup outs -> (forall o, o ∈ outs -> o ∈ outputs) -> helpers_are (fun _ => fresh_helper) outs w ->
  exists w', for_each outs (fun o => SetData o.1.1 o.1.2 o.2 (produce e o)) w = (Ok tt, w') /\ same_shape w w' /\
    w_user w' = w_user w /\ w_deleted w' = w_deleted w /\
    helpers_are (fun o => filled_helper (produce e o)) outs w' /\
    forall p, (forall o, o ∈ outs -> p <> addr o) -> w_store w' !! p = w_store w !! p.
Proof.
  induction outs as [|o outs IH]; intros w Hd Hnd Hsub Hfresh.
  { exists w. split; [done|]. split; [reflexivity|]. split; [done|]. split; [done|]. split; [|done]. intros ? ? []%not_elem_of_nil. }
  apply NoDup_cons in Hnd as [Hnot Hnd].
  destruct (SetData_fresh w o (produce e o) Hd) as (w1 & H1 & Hsame & Hu & Hdel & (f1 & Hf1 & Hfill & _) & Hother).
  { apply Hsub. by left. }
  { intros o' f Ho'%list_elem_of_singleton. subst o'. apply Hfresh. by left. }
  assert (Hne : forall o', o' ∈ outs -> addr o' <> addr o).
  { intros o' Ho' Heq. assert (o' = o) as ->; [|done].
    apply (de_inj _ Hd); [apply Hsub; by right|apply Hsub; by left|done]. }
  destruct (IH w1) as (w2 & H2 & Hsame2 & Hu2 & Hdel2 & Hfill2 & Hother2);
    [by eapply declared_same|done|intros; apply Hsub; by right| |].
  { intros o' f Ho' Hf. rewrite Hother in Hf by (by apply Hne). eapply Hfresh; [by right|done]. }
  exists w2. cbn [for_each]. mstep H1. split; [exact H2|]. split; [by etransitivity|]. split; [congruence|]. split; [congruence|].
  split.
  - intros o' f [->|Ho']%elem_of_cons Hf; [|by eapply Hfill2].
    rewrite Hother2 in Hf by (intros o' Ho' Heq; by apply (Hne o')). by simplify_eq.
  - intros p Hp. rewrite Hother2 by (intros; apply Hp; by right). apply Hother. apply Hp. by left.
Qed.

(** The callbacks due when the multifactory is executed for an event. *)
Definition due (mf : JMultifactory) (e : JEvent) : list fcall :=
  (if decide (m_status mf = Uninitialized) then [FInit] else []) ++
  (if m_last_run_number mf =? -1 then [FBeginRun (mRunNumber e)]
   else if negb (m_last_run_number mf =? mRunNumber e) then [FEndRun; FBeginRun (mRunNumber e)] else []) ++
  [FProcess (mRunNumber e) (mEventNumber e)].

Definition logged (cs : list fcall) (f : JMultifactory -> JMultifactory) (w : W) : W :=
  mkMfWorld (w_store w) (w_deleted w) (f (w_mf w)) (w_user w ++ cs).

(** What [Execute] does before it calls [Process]. *)
Lemma prepare_spec cb e (w : W) :
  MInit cb = mlog FInit -> MBeginRun cb e = mlog (FBeginRun (mRunNumber e)) -> MEndRun cb = mlog FEndRun ->
  exists g cs, (_ ← DoInit demangle cb; mf_change_run demangle cb e) w = (Ok tt, logged cs g w) /\
    cs ++ [FProcess (mRunNumber e) (mEventNumber e)] = due (w_mf w) e /\
    mHelpers (g (w_mf w)) = mHelpers (w_mf w).
Proof.
  intros Hi Hb He. unfold due. set (w1 := if decide (m_status (w_mf w) = Uninitialized) then logged [FInit] (set_mf_status Initialized) w else w).
  assert (H1 : DoInit demangle cb w = (Ok tt, w1)).
  { unfold DoInit, w1. autorewrite with monad. case_decide; [|done]. by rewrite Hi. }
  mstep H1. unfold mf_change_run. autorewrite with monad.
  assert (Hlast : m_last_run_number (w_mf w1) = m_last_run_number (w_mf w)) by (unfold w1; by case_decide).
  rewrite Hlast. set (i := if decide (m_status (w_mf w) = Uninitialized) then [FInit] else []).
  set (g1 := if decide (m_status (w_mf w) = Uninitialized) then set_mf_status Initialized else id).
  assert (Hw1 : w1 = logged i g1 w).
  { unfold w1, i, g1. case_decide; [done|]. unfold logged. rewrite app_nil_r. by destruct w. }
  rewrite Hw1, Hb, He. destruct (m_last_run_number (w_mf w) =? -1); [|destruct (negb _)].
  - exists (fun mf => set_last_run (mRunNumber e) (g1 mf)), (i ++ [FBeginRun (mRunNumber e)]).
    split; [|split; [by rewrite <- app_assoc|unfold g1; by case_decide]].
    unfold mbind, M_bind, mf_wrapped, CallWithJExceptionWrapper, mlog, modify_mf, modify, logged. simpl. by rewrite <- app_assoc.
  - exists (fun mf => set_last_run (mRunNumber e) (g1 mf)), (i ++ [FEndRun; FBeginRun (mRunNumber e)]).
    split; [|split; [by rewrite <- app_assoc|unfold g1; by case_decide]].
    unfold mbind, M_bind, mf_wrapped, CallWithJExceptionWrapper, mlog, modify_mf, modify, logged. simpl. by rewrite <- !app_assoc.
  - exists g1, i. split; [done|]. split; [done|]. unfold g1. by case_decide.
Qed.

(** Executing the multifactory fills all helpers. *)
Lemma Execute_fills e (w : W) :
  declared w -> NoDup outputs -> helpers_are (fun _ => fresh_helper) outputs w ->
  exists w', Execute demangle (setter outputs) e w = (Ok tt, w') /\ same_shape w w' /\
    w_user w' = w_user w ++ due (w_mf w) e /\ w_deleted w' = w_deleted w /\
    helpers_are (fun o => filled_helper (produce e o)) outputs w' /\
    forall p, (forall o, o ∈ outputs -> p <> addr o) -> w_store w' !! p = w_store w !! p.
Proof.
  intros Hd Hnd Hfresh. destruct (prepare_spec (setter outputs) e w) as (g & cs & Hprep & Hcs & Hh); [done..|].
  set (w1 := logged (cs ++ [FProcess (mRunNumber e) (mEventNumber e)]) g w).
  assert (Hs1 : same_shape w w1) by (split; [exact Hh|eauto]).
  destruct (set_all e outputs w1) as (w2 & H2 & Hs2 & Hu2 & Hdel2 & Hfill & Hother); [by eapply declared_same|done|done|exact Hfresh|].
  exists w2. split.
  - unfold Execute. rewrite <- M_bind_assoc. mstep Hprep. unfold mf_wrapped, CallWithJExceptionWrapper. cbn [setter MProcess].
    assert (Hp : (_ ← mlog (FProcess (mRunNumber e) (mEventNumber e)); for_each outputs (fun o => SetData o.1.1 o.1.2 o.2 (produce e o))) (logged cs g w) = (Ok tt, w2)).
    { assert (Hl : mlog (FProcess (mRunNumber e) (mEventNumber e)) (logged cs g w) = (Ok tt, w1)).
      { unfold mlog, modify, logged, w1. simpl. unfold logged. by rewrite <- app_assoc. }
      mstep Hl. exact H2. }
    by rewrite Hp.
  - split; [by etransitivity|]. rewrite Hu2. unfold w1, logged. simpl. rewrite Hcs. done.
Qed.

(** A helper that has its data answers at once. *)
Lemma get_output_filled cb e (w : W) p f d :
  w_store w !! p = Some f -> filled_helper d f -> TestFactoryFlag REGENERATE f = false ->
  get_output demangle cb e p w = (Ok d, w).
Proof.
  intros Hf [Hs Hd] Hr. unfold get_output, on_helper. rewrite Hf.
  assert (Hc : CreateAndGetData demangle (helper_callbacks demangle cb p) e (f, (w_deleted w, w)) = (Ok d, (f, (w_deleted w, w)))).
  { assert (H1 : Create demangle (helper_callbacks demangle cb p) e (f, (w_deleted w, w)) = (Ok tt, (f, (w_deleted w, w)))).
    { unfold Create, Factory.DoInit, clear_to_regenerate, get_self, mbind, M_bind. cbn [fst snd].
      rewrite decide_False by (destruct Hs; congruence). cbn [fst snd mret M_ret]. rewrite Hr. cbn [andb].
      cbn [fst snd mret M_ret]. by rewrite decide_False by (destruct Hs; congruence). }
    unfold CreateAndGetData. mstep H1. unfold get_self, mbind, M_bind. cbn. by rewrite Hd. }
  rewrite Hc. rewrite insert_id by done. by destruct w.
Qed.

(** The callbacks of a helper other than [Process] do nothing. *)
Lemma helper_DoInit cb p f (s : list Z * W) :
  fresh_helper f -> exists f', Factory.DoInit demangle (helper_callbacks demangle cb p) (f, s) = (Ok tt, (f', s)) /\
    mStatus f' = FUnprocessed /\ mData f' = [] /\ m_level f' = m_level f /\ mFlags f' = mFlags f.
Proof.
  intros [[Hs|Hs] Hd]; [exists (SetStatus FUnprocessed f)|exists f];
    (split; [|done]); unfold Factory.DoInit, get_self, mbind, M_bind; cbn [fst snd];
    [by rewrite decide_True|by rewrite decide_False by congruence].
Qed.

Lemma helper_change_run cb p e f (s : list Z * W) :
  mStatus f = FUnprocessed -> mData f = [] ->
  exists f', change_run demangle (helper_callbacks demangle cb p) e (f, s) = (Ok tt, (f', s)) /\
    mStatus f' = FUnprocessed /\ mData f' = [] /\ m_level f' = m_level f /\ mFlags f' = mFlags f.
Proof.
  intros Hs Hd. unfold change_run, get_self, mbind, M_bind. cbn [fst snd].
  destruct (_ =? -1); [|destruct (negb _)];
    [exists (set_run (mRunNumber e) f)|exists (set_run (mRunNumber e) f)|exists f]; done.
Qed.

(** A helper that is asked first runs the multifactory, and all helpers have their data. *)
Lemma get_output_fresh e (w : W) o :
  declared w -> NoDup outputs -> helpers_are (fun _ => fresh_helper) outputs w -> o ∈ outputs ->
  exists w', get_output demangle (setter outputs) e (addr o) w = (Ok (produce e o), w') /\ same_shape w w' /\
    w_user w' = w_user w ++ due (w_mf w) e /\ w_deleted w' = w_deleted w /\
    helpers_are (fun o => filled_helper (produce e o)) outputs w'.
Proof.
  intros Hd Hnd Hfresh Ho. set (p := addr o). set (cbp := helper_callbacks demangle (setter outputs) p).
  destruct (de_store _ Hd o Ho) as (f & Hf & Hl & Hp & Hr). pose proof (Hfresh o f Ho Hf) as Hff.
  destruct (helper_DoInit (setter outputs) p f (w_deleted w, w) Hff) as (f1 & H1 & Hs1 & Hd1 & Hl1 & Hg1).
  destruct (helper_change_run (setter outputs) p e f1 (w_deleted w, w) Hs1 Hd1) as (f2 & H2 & Hs2 & Hd2 & Hl2 & Hg2).
  set (wp := mkMfWorld (<[p := f2]> (w_store w)) (w_deleted w) (w_mf w) (w_user w)).
  assert (Hsame : same_shape w wp).
  { eapply same_shape_insert; [exact Hf|congruence|congruence]. }
  assert (Hfp : helpers_are (fun _ => fresh_helper) outputs wp).
  { intros o' g Ho' Hg'. cbn [w_store wp] in Hg'. apply lookup_insert_Some in Hg' as [[_ <-]|[_ Hg']]; [by split; [right|]|by eapply Hfresh]. }
  destruct (Execute_fills e wp) as (w3 & H3 & Hs3 & Hu3 & Hdel3 & Hfill & _); [by eapply declared_same|done|done|].
  destruct (proj2 Hs3 o f2) as (f3 & Hf3 & Hl3 & Hg3); [apply lookup_insert_eq|].
  destruct (Hfill o f3 Ho Hf3) as [_ Hd3].
  set (f4 := set_state FProcessed Created f3).
  assert (Hcreate : Create demangle cbp e (f, (w_deleted w, w)) = (Ok tt, (f4, (w_deleted w3, w3)))).
  { assert (Hclear : clear_to_regenerate (f1, (w_deleted w, w)) = (Ok tt, (f1, (w_deleted w, w)))).
    { unfold clear_to_regenerate, get_self, mbind, M_bind. cbn [fst snd].
      unfold TestFactoryFlag in *. rewrite Hg1, Hr. done. }
    assert (Hproc : wrapped demangle "JFactory::Process" (Process cbp e) (f2, (w_deleted w, w)) = (Ok tt, (f3, (w_deleted w3, w3)))).
    { unfold wrapped, CallWithJExceptionWrapper. cbn [cbp helper_callbacks Process]. unfold as_process. cbn [fst snd]. fold wp.
      rewrite H3. fold p in Hf3. by rewrite Hf3. }
    unfold Create. mstep H1. mstep Hclear. mstep (eq_refl (get_self (f1, (w_deleted w, w)))). cbn [fst snd].
    rewrite decide_True by done. mstep H2. mstep Hproc. done. }
  exists (mkMfWorld (<[p := f4]> (w_store w3)) (w_deleted w3) (w_mf w3) (w_user w3)). split.
  { unfold get_output, on_helper. fold p. unfold p at 1. rewrite Hf. unfold CreateAndGetData.
    fold cbp. erewrite M_bind_ok; [|exact Hcreate]. cbn beta. unfold get_self, mbind, M_bind. cbn. by rewrite Hd3. }
  split.
  { etransitivity; [exact Hsame|]. etransitivity; [exact Hs3|]. by eapply same_shape_insert. }
  split; [done|]. split; [done|]. intros o' g Ho' Hg'. cbn [w_store] in Hg'.
  apply lookup_insert_Some in Hg' as [[He <-]|[_ Hg']]; [|by eapply Hfill].
  assert (o' = o) as -> by (by apply (de_inj _ Hd)). split; [by right|done].
Qed.

(** [Get] on several outputs, one after the other. *)
Fixpoint get_outputs (e : JEvent) (os : list (Z * string * string)) : M W (list (list Z)) :=
  match os with
  | [] => mret []
  | o :: os => d ← get_output demangle (setter outputs) e (addr o); ds ← get_outputs e os; mret (d :: ds)
  end.

(** A multifactory runs once per event.  If its [Process] sets the data of every declared output, then
    however many outputs are asked for, in whatever order and however often, the multifactory is
    executed once (after [Init] and the run callbacks that are due), every request gets the data
    of its output, and nothing is deleted. *)
Theorem multifactory_runs_once e (w : W) o os :
  declared w -> NoDup outputs -> helpers_are (fun _ => fresh_helper) outputs w ->
  (forall x, x ∈ o :: os -> x ∈ outputs) ->
  exists w', get_outputs e (o :: os) w = (Ok (produce e <$> o :: os), w') /\
    w_user w' = w_user w ++ due (w_mf w) e /\ w_deleted w' = w_deleted w /\
    helpers_are (fun x => filled_helper (produce e x)) outputs w'.
Proof.
  intros Hd Hnd Hfresh Hsub.
  destruct (get_output_fresh e w o Hd Hnd Hfresh) as (w' & H1 & Hs & Hu & Hdel & Hfill); [apply Hsub; by left|].
  exists w'. split; [|done]. pose proof (declared_same _ _ Hs Hd) as Hd'.
  assert (Hrest : forall xs, (forall x, x ∈ xs -> x ∈ outputs) -> get_outputs e xs w' = (Ok (produce e <$> xs), w')).
  { induction xs as [|x xs IH]; intros Hxs; [done|]. destruct (de_store _ Hd' x) as (f & Hf & _ & _ & Hr); [apply Hxs; by left|].
    cbn [get_outputs]. mstep (get_output_filled (setter outputs) e w' (addr x) f (produce e x) Hf (Hfill x f (Hxs x (list_elem_of_here _ _)) Hf) Hr).
    mstep (IH (fun y Hy => Hxs y (list_elem_of_further _ _ _ Hy))). done. }
  cbn [get_outputs]. mstep H1. mstep (Hrest os (fun y Hy => Hsub y (list_elem_of_further _ _ _ Hy))). done.
Qed.

End Once.

(** ** Declaring outputs *)

Section Declaring.
Context {U : Type} (addr : Z * string * string -> Z).
Implicit Types (w : MfWorld U).

Definition declare_all (outs : list (Z * string * string)) : M (MfWorld U) unit :=
  for_each outs (fun o => DeclareOutput o.1.1 o.1.2 o.2 true (addr o)).

End Declaring.

(** ** Witnesses *)

Definition two_outputs : list (Z * string * string) := [(1, "Hit", "raw"); (2, "Track", "")]%string.
Definition two_addr (o : Z * string * string) : Z := 100 + o.1.1.
Definition two_data (e : JEvent) (o : Z * string * string) : list Z := [10 * mEventNumber e + o.1.1].
Definition some_event : JEvent := mkJEvent 7 3 0 false PhysicsEvent [] 1 0.

(** What the constructor of a multifactory with two outputs leaves. *)
Definition constructed : MfWorld (list fcall) :=
  (declare_all two_addr two_outputs
    (mkMfWorld ∅ [] (new_multifactory (mkJComponent "m" "p" "M") "M" PhysicsEvent) [])).2.

Lemma constructed_declared : declared two_outputs two_addr constructed.
Proof.
  split.
  - intros o o' Ho Ho'. unfold two_outputs in *. rewrite !elem_of_cons, elem_of_nil in *.
    by destruct Ho as [->|[->|[]]], Ho' as [->|[->|[]]].
  - intros o Ho. unfold two_outputs in Ho. rewrite !elem_of_cons, elem_of_nil in Ho.
    destruct Ho as [->|[->|[]]]; vm_compute; reflexivity.
  - intros o Ho. unfold two_outputs in Ho. rewrite !elem_of_cons, elem_of_nil in Ho.
    destruct Ho as [->|[->|[]]]; eexists; (split; [vm_compute; reflexivity|]); split; [reflexivity|done|reflexivity|done].
Qed.

Lemma multifactory_runs_once_witness :
  exists w', get_outputs (fun _ => EmptyString) two_outputs two_addr two_data some_event
      [(2, "Track", ""); (1, "Hit", "raw"); (2, "Track", "")]%string constructed = (Ok [[32]; [31]; [32]], w') /\
    w_user w' = [FInit; FBeginRun 7; FProcess 7 3].
Proof.
  destruct (multifactory_runs_once (fun _ => EmptyString) two_outputs two_addr two_data some_event constructed
    (2, "Track", "")%string [(1, "Hit", "raw"); (2, "Track", "")]%string) as (w' & H1 & H2 & _).
  - exact constructed_declared.
  - refine (bool_decide_unpack _ _). vm_compute. exact I.
  - intros o f Ho Hf. unfold two_outputs in Ho. rewrite !elem_of_cons, elem_of_nil in Ho.
    destruct Ho as [->|[->|[]]]; vm_compute in Hf; injection Hf as <-; (split; [by left|reflexivity]).
  - intros x. rewrite !elem_of_cons, elem_of_nil. unfold two_outputs. rewrite !elem_of_cons, elem_of_nil. tauto.
  - exists w'. split; [exact H1|exact H2].
Defined.

(** If [Process] leaves an output unset, asking for it executes the multifactory again, for the same
    event. *)
Definition set_first : MultiCallbacks (list fcall) := setter two_data [(1, "Hit", "raw")]%string.

Lemma unset_output_runs_again :
  let ask p := get_output (fun _ => EmptyString) set_first some_event p in
  ((_ ← ask 101; _ ← ask 102; mret tt) constructed).1 = Ok tt /\
  w_user ((_ ← ask 101; _ ← ask 102; mret tt) constructed).2 = [FInit; FBeginRun 7; FProcess 7 3; FProcess 7 3].
Proof. split; vm_compute; reflexivity. Qed.

End Multifactory.
