(* ===== verification/JServiceLocator.v ===== *)
(** * JServiceLocator: services that initialize each other on demand

    Model of [Services/JServiceLocator.h] and [JService.cc].  Services are known by the type under which they
    are provided.  A service fetches others while it is being initialized: those it has registered as
    members ([m_services]), those its [acquire_services] asks for and those its [Init] asks the application for.  What the
    user's part of an initialization does otherwise is [user_init]; the calls that return are written down.  [DoInit]
    holds the service's mutex, which is not recursive: locking it again on the same thread is
    undefined.  The nesting of initializations is bounded by the argument [fuel]. *)

From S2P Require Import Prelude JComponent.
Import Component.
Local Open Scope Z_scope.

Module ServiceLocator.

Record JService := mkJService {
  s_component : JComponent;
  m_status : Status;
  locked : bool
}.

Record Locator := mkLocator {
  underlying : gmap Z JService;
  calls : list Z
}.

Definition set_service (t : Z) (f : JService -> JService) (l : Locator) : Locator :=
  mkLocator (alter f t (underlying l)) (calls l).
Definition set_locked (b : bool) (s : JService) : JService := mkJService (s_component s) (m_status s) b.
Definition set_service_status (st : Status) (s : JService) : JService := mkJService (s_component s) st (locked s).

Section Services.
Context (demangle : exn -> string).
(** The types that a service has as members, those it asks for in [acquire_services] and in [Init], and how its
    [Configure], [acquire_services] and [Init] end otherwise. *)
Context (m_services acquired fetched : Z -> list Z) (user_configure user_acquire user_init : Z -> outcome unit).

Definition provide (t : Z) (c : JComponent) : M Locator unit :=
  modify (fun l => mkLocator (<[t := mkJService c Uninitialized false]> (underlying l)) (calls l)).

(** [get<T>()], given how services are initialized. *)
Definition get_with (init : Z -> M Locator unit) (t : Z) : M Locator unit :=
  l ← get;
  match underlying l !! t with
  | None => throwM "Service not found"
  | Some _ => init t
  end.

(** The user's [Init], which may fetch services. *)
Definition call_init (init : Z -> M Locator unit) (t : Z) : M Locator unit :=
  _ ← for_each (fetched t) (get_with init);
  _ ← lift (user_init t);
  modify (fun l => mkLocator (underlying l) (calls l ++ [t])).

(** [std::lock_guard]: unlocked also when the body throws. *)
Definition with_lock (t : Z) (body : JService -> M Locator unit) : M Locator unit := fun l =>
  match underlying l !! t with
  | None => (Undef, l)
  | Some s =>
      if locked s then (Undef, l)
      else let '(r, l') := body s (set_service t (set_locked true) l) in (r, set_service t (set_locked false) l')
  end.

Fixpoint DoInit (fuel : nat) (t : Z) : M Locator unit :=
  match fuel with
  | O => lift Undef
  | S fuel =>
      with_lock t (fun s =>
        if decide (m_status s <> Uninitialized) then mret tt
        else
          _ ← lift (user_configure t);
          _ ← for_each (m_services t) (get_with (DoInit fuel));
          _ ← CallWithJExceptionWrapper demangle (s_component s) "JService::acquire_services"
                (_ ← for_each (acquired t) (get_with (DoInit fuel)); lift (user_acquire t));
          _ ← CallWithJExceptionWrapper demangle (s_component s) "JService::Init" (call_init (DoInit fuel) t);
          modify (set_service t (set_service_status Initialized)))
  end.

(** [JServiceLocator::get] and [wire_everything]; the order of types is up to the implementation. *)
Definition get_service (fuel : nat) : Z -> M Locator unit := get_with (DoInit fuel).

Definition wire_everything (fuel : nat) : M Locator unit :=
  l ← get;
  for_each (map_to_list (underlying l)).*1 (DoInit fuel).

(** ** The order of initialization *)

Definition deps (t : Z) : list Z := m_services t ++ acquired t ++ fetched t.

(** The dependencies have no cycle, and nothing else goes wrong. *)
Context (rank : Z -> nat).
Hypothesis deps_rank : forall t d, d ∈ deps t -> (rank d < rank t)%nat.
Hypothesis users_ok : forall t, user_configure t = Ok tt /\ user_acquire t = Ok tt /\ user_init t = Ok tt.

(** [x] is [t], or something that [t] depends on. *)
Inductive needs (t : Z) : Z -> Prop :=
| needs_self : needs t t
| needs_dep d x : d ∈ deps t -> needs d x -> needs t x.

(** The calls so far: every initialized service once, after those it depends on. *)
Record order_ok (l : Locator) : Prop := {
  oo_nodup : NoDup (calls l);
  oo_status : forall t s, underlying l !! t = Some s -> m_status s <> Uninitialized <-> t ∈ calls l;
  oo_order : forall l1 t l2, calls l = l1 ++ t :: l2 -> forall d, d ∈ deps t -> d ∈ l1;
  oo_provided : forall t d, is_Some (underlying l !! t) -> d ∈ deps t -> is_Some (underlying l !! d)
}.

(** Everything else about the services stays as it is. *)
Definition same_services (l l' : Locator) : Prop :=
  forall t, (locked <$> underlying l' !! t) = (locked <$> underlying l !! t).

Definition unlocked_below (n : nat) (l : Locator) : Prop :=
  forall t s, underlying l !! t = Some s -> locked s = true -> (n <= rank t)%nat.

(** What initializing [t] achieves. *)
Definition initializes (t : Z) (l : Locator) (r : outcome unit * Locator) : Prop :=
  r.1 = Ok tt /\ order_ok r.2 /\ same_services l r.2 /\ t ∈ calls r.2 /\
  exists new, calls r.2 = calls l ++ new /\ forall x, x ∈ new -> needs t x.

#[local] Instance same_services_preorder : PreOrder same_services.
Proof. split; [by intros l t|]. intros l1 l2 l3 H1 H2 t. by rewrite H2. Qed.

Lemma same_is_Some l l' t : same_services l l' -> is_Some (underlying l !! t) -> is_Some (underlying l' !! t).
Proof. intros H [s Hs]. specialize (H t). rewrite Hs in H. destruct (underlying l' !! t); [eauto|done]. Qed.

Lemma same_unlocked n l l' : same_services l l' -> unlocked_below n l -> unlocked_below n l'.
Proof.
  intros H Hu t s Hs Hl. specialize (H t). rewrite Hs in H. destruct (underlying l !! t) as [s0|] eqn:H0; [|done].
  simpl in H. injection H as H. eapply Hu; [done|congruence].
Qed.

(** Fetching a list of services, each of which can be initialized. *)
Lemma fetch_all (init : Z -> M Locator unit) (ds : list Z) (n : nat) :
  (forall d l, d ∈ ds -> order_ok l -> is_Some (underlying l !! d) -> unlocked_below n l -> initializes d l (init d l)) ->
  forall l, order_ok l -> (forall d, d ∈ ds -> is_Some (underlying l !! d)) -> unlocked_below n l ->
  exists l' new, for_each ds (get_with init) l = (Ok tt, l') /\ order_ok l' /\ same_services l l' /\
    (forall d, d ∈ ds -> d ∈ calls l') /\ calls l' = calls l ++ new /\
    forall x, x ∈ new -> exists d, d ∈ ds /\ needs d x.
Proof.
  induction ds as [|d ds IH]; intros Hinit l Hok Hp Hu.
  { exists l, []. rewrite app_nil_r. split; [done|]. split; [done|]. split; [reflexivity|]. split; [set_solver|].
    split; [done|]. set_solver. }
  destruct (Hp d) as [s Hs]; [by left|].
  destruct (Hinit d l) as (Hr & Hok1 & Hsame1 & Hd & new1 & Hnew1 & Hneeds1); [by left|done|eauto|done|].
  destruct (init d l) as [r l1] eqn:Hrun. simpl in *. subst r.
  assert (Hget : get_with init d l = (Ok tt, l1)) by (unfold get_with; autorewrite with monad; by rewrite Hs).
  destruct (IH (fun d' l' H => Hinit d' l' (list_elem_of_further _ _ _ H)) l1 Hok1) as (l2 & new2 & H2 & Hok2 & Hsame2 & Hds & Hnew2 & Hneeds2).
  { intros d' Hd'. eapply same_is_Some; [done|]. apply Hp. by right. }
  { by eapply same_unlocked. }
  exists l2, (new1 ++ new2). mstep Hget. split; [exact H2|]. split; [done|]. split; [by etransitivity|].
  split; [|split].
  - intros d' [->|Hd']%elem_of_cons; [rewrite Hnew2; apply elem_of_app; by left|by apply Hds].
  - by rewrite Hnew2, Hnew1, app_assoc.
  - intros x [Hx|Hx]%elem_of_app; [exists d; split; [by left|by apply Hneeds1]|].
    destruct (Hneeds2 x Hx) as (d' & Hd' & Hn). exists d'. split; [by right|done].
Qed.

Lemma needs_rank t x : needs t x -> (rank x <= rank t)%nat.
Proof. induction 1 as [|t d x Hd _ IH]; [done|]. specialize (deps_rank _ _ Hd). lia. Qed.

Lemma lookup_set_service t u f l : underlying (set_service t f l) !! u =
  if decide (u = t) then f <$> underlying l !! u else underlying l !! u.
Proof. simpl. case_decide; [subst; apply lookup_alter_eq|by apply lookup_alter_ne]. Qed.

Lemma is_Some_set_service t u f l : is_Some (underlying (set_service t f l) !! u) <-> is_Some (underlying l !! u).
Proof. rewrite lookup_set_service. case_decide; [apply fmap_is_Some|done]. Qed.

Lemma order_ok_locked t b l : order_ok l -> order_ok (set_service t (set_locked b) l).
Proof.
  intros [H1 H2 H3 H4]. split; [done| |done|].
  - intros u s. rewrite lookup_set_service. case_decide; [|apply H2].
    intros (s0 & Hs & ->)%fmap_Some. by apply (H2 u s0).
  - intros u d. rewrite !is_Some_set_service. apply H4.
Qed.

(** The last two steps of [DoInit]: all dependencies are there, and [t] is not. *)
Lemma order_ok_complete t l :
  order_ok l -> t ∉ calls l -> (forall d, d ∈ deps t -> d ∈ calls l) ->
  order_ok (set_service t (set_service_status Initialized) (mkLocator (underlying l) (calls l ++ [t]))).
Proof.
  intros [H1 H2 H3 H4] Ht Hd. split.
  - simpl. apply NoDup_app. split; [done|]. split; [set_solver|apply NoDup_singleton].
  - intros u s. rewrite lookup_set_service. simpl calls. rewrite elem_of_app, list_elem_of_singleton.
    case_decide as Hu; [|intros Hs; rewrite (H2 u s Hs); naive_solver].
    intros (s0 & Hs & ->)%fmap_Some. split; [auto|done].
  - intros l1 u l2 Heq d Hdep. simpl in Heq. destruct l2 as [|y l2 _] using rev_ind.
    + apply app_inj_tail in Heq as [<- <-]. by apply Hd.
    + rewrite app_comm_cons, app_assoc in Heq. apply app_inj_tail in Heq as [Heq _]. by eapply H3.
  - intros u d. rewrite !is_Some_set_service. apply H4.
Qed.

(** What the locked part of [DoInit] does when [t] is not initialized. *)
Lemma init_body fuel t s l :
  (forall d l, d ∈ deps t -> order_ok l -> is_Some (underlying l !! d) -> unlocked_below (rank t) l ->
     initializes d l (DoInit fuel d l)) ->
  order_ok l -> is_Some (underlying l !! t) -> t ∉ calls l -> unlocked_below (rank t) l ->
  initializes t l ((_ ← lift (user_configure t);
    _ ← for_each (m_services t) (get_with (DoInit fuel));
    _ ← CallWithJExceptionWrapper demangle (s_component s) "JService::acquire_services"
          (_ ← for_each (acquired t) (get_with (DoInit fuel)); lift (user_acquire t));
    _ ← CallWithJExceptionWrapper demangle (s_component s) "JService::Init" (call_init (DoInit fuel) t);
    modify (set_service t (set_service_status Initialized))) l).
Proof.
  intros IH Hok Hsome Hnot Hu. destruct (users_ok t) as (Hc & Ha & Hi).
  assert (Hp : forall d, d ∈ deps t -> is_Some (underlying l !! d)) by (intros; by eapply (oo_provided _ Hok t)).
  destruct (fetch_all (DoInit fuel) (m_services t) (rank t)) with (l := l)
    as (l1 & new1 & H1 & Hok1 & Hsame1 & Hd1 & Hnew1 & Hn1); [intros; apply IH; set_solver|done|set_solver|done|].
  destruct (fetch_all (DoInit fuel) (acquired t) (rank t)) with (l := l1)
    as (l2 & new2 & H2 & Hok2 & Hsame2 & Hd2 & Hnew2 & Hn2); [intros; apply IH; set_solver|done| |by eapply same_unlocked|].
  { intros d Hd. eapply same_is_Some; [done|]. set_solver. }
  destruct (fetch_all (DoInit fuel) (fetched t) (rank t)) with (l := l2)
    as (l3 & new3 & H3 & Hok3 & Hsame3 & Hd3 & Hnew3 & Hn3); [intros; apply IH; set_solver|done| |eapply same_unlocked; [exact Hsame2|]; by eapply same_unlocked|].
  { intros d Hd. eapply same_is_Some; [done|]. eapply same_is_Some; [done|]. set_solver. }
  assert (Hdeps : forall d, d ∈ deps t -> d ∈ calls l3).
  { unfold deps. intros d. rewrite !elem_of_app. intros [Hd|[Hd|Hd]]; [rewrite Hnew3, Hnew2; set_solver|rewrite Hnew3; set_solver|by apply Hd3]. }
  assert (Hnew : forall x, x ∈ new1 ++ new2 ++ new3 -> exists d, d ∈ deps t /\ needs d x).
  { unfold deps. intros x. rewrite !elem_of_app.
    intros [Hx|[Hx|Hx]]; [destruct (Hn1 x Hx) as (d & ? & ?)|destruct (Hn2 x Hx) as (d & ? & ?)|destruct (Hn3 x Hx) as (d & ? & ?)];
      exists d; rewrite !elem_of_app; auto. }
  assert (Hcalls : calls l3 = calls l ++ new1 ++ new2 ++ new3) by (by rewrite Hnew3, Hnew2, Hnew1, <- !app_assoc).
  assert (Hnot3 : t ∉ calls l3).
  { rewrite Hcalls. intros [Hin|Hin]%elem_of_app; [done|].
    destruct (Hnew t Hin) as (d & Hd & Hn%needs_rank). specialize (deps_rank _ _ Hd). lia. }
  set (l4 := set_service t (set_service_status Initialized) (mkLocator (underlying l3) (calls l3 ++ [t]))).
  assert (Hrun : forall l', l' = l4 -> initializes t l (Ok tt, l')).
  { intros l' ->. split; [done|]. split; [by apply order_ok_complete|]. split.
    - etransitivity; [exact Hsame1|]. etransitivity; [exact Hsame2|]. etransitivity; [exact Hsame3|]. intros u. cbn [snd]. unfold l4.
      rewrite lookup_set_service. simpl. case_decide; [|done]. by destruct (underlying l3 !! u).
    - split; [simpl; set_solver|]. exists ((new1 ++ new2 ++ new3) ++ [t]). split; [simpl; by rewrite Hcalls, <- !app_assoc|].
      intros x. rewrite elem_of_app, list_elem_of_singleton. intros [Hx| ->]; [|constructor].
      destruct (Hnew x Hx) as (d & Hd & Hx'). by eapply needs_dep. }
  assert (Hcl : lift (user_configure t) l = (Ok tt, l)) by (unfold lift; by rewrite Hc).
  mstep Hcl. mstep H1. unfold mbind at 1, M_bind at 1. unfold CallWithJExceptionWrapper at 1.
  unfold mbind at 1, M_bind at 1. rewrite H2. unfold lift at 1. rewrite Ha.
  assert (Hci : call_init (DoInit fuel) t l2 = (Ok tt, mkLocator (underlying l3) (calls l3 ++ [t]))).
  { unfold call_init. mstep H3. unfold mbind, M_bind, lift. by rewrite Hi. }
  unfold mbind at 1, M_bind at 1, CallWithJExceptionWrapper. rewrite Hci. by apply Hrun.
Qed.

Lemma relock t s l : underlying l !! t = Some s -> locked s = false ->
  set_service t (set_locked false) (set_service t (set_locked true) l) = l.
Proof.
  intros Hs Hl. destruct l as [m c]. unfold set_service. simpl in *. f_equal. apply map_eq. intros u.
  destruct (decide (t = u)) as [<-|Hne]; [|by rewrite !lookup_alter_ne].
  rewrite !lookup_alter_eq, Hs. simpl. destruct s. simpl in *. by subst.
Qed.

Lemma DoInit_initializes fuel : forall t l,
  (rank t < fuel)%nat -> order_ok l -> is_Some (underlying l !! t) -> unlocked_below (S (rank t)) l ->
  initializes t l (DoInit fuel t l).
Proof.
  induction fuel as [|fuel IH]; intros t l Hf Hok [s Hs] Hu; [lia|].
  assert (Hl : locked s = false). { destruct (locked s) eqn:Hl; [|done]. specialize (Hu t s Hs Hl). lia. }
  cbn [DoInit]. unfold with_lock. rewrite Hs, Hl. case_decide as Hst.
  - unfold mret, M_ret. rewrite (relock t s l Hs Hl). split; [done|]. split; [done|]. split; [reflexivity|].
    split; [by apply (oo_status _ Hok t s)|]. exists []. rewrite app_nil_r. split; [done|set_solver].
  - set (l1 := set_service t (set_locked true) l).
    destruct (init_body fuel t s l1) as (Hr & Hok' & Hsame & Ht & new & Hnew & Hneeds).
    + intros d l' Hd Hok' Hd' Hu'. specialize (deps_rank _ _ Hd). apply IH; [lia|done|done|].
      intros x sx Hx Hlx. specialize (Hu' x sx Hx Hlx). lia.
    + by apply order_ok_locked.
    + apply is_Some_set_service. eauto.
    + simpl. rewrite <- (oo_status _ Hok t s Hs). naive_solver.
    + intros x sx. unfold l1. rewrite lookup_set_service. case_decide as Hxt; [by subst x|].
      intros Hx Hlx. specialize (Hu x sx Hx Hlx). lia.
    + match goal with |- initializes _ _ (let '(_, _) := ?m in _) => destruct m as [r l2] end. simpl in Hr, Hok', Hsame, Ht, Hnew. subst r.
      split; [done|]. split; [by apply order_ok_locked|]. split; [|split; [done|by exists new]].
      intros u. cbn [snd]. specialize (Hsame u). unfold l1 in Hsame. rewrite lookup_set_service in Hsame |- *.
      case_decide as Hut; [subst u|done]. rewrite Hs in *. destruct (underlying l2 !! t); [|done]. simpl. by rewrite Hl.
Qed.

(** Nobody is initializing anything. *)
Definition at_rest (l : Locator) : Prop := forall t s, underlying l !! t = Some s -> locked s = false.

Lemma at_rest_same l l' : same_services l l' -> at_rest l -> at_rest l'.
Proof.
  intros H Hr t s Hs. specialize (H t). rewrite Hs in H. destruct (underlying l !! t) as [s0|] eqn:H0; [|done].
  simpl in H. injection H as ->. by eapply Hr.
Qed.

Lemma at_rest_unlocked n l : at_rest l -> unlocked_below n l.
Proof. intros H t s Hs Hl. by rewrite (H t s Hs) in Hl. Qed.

(** C27: services are initialized once, on demand, after the services they use.  If the dependencies have no
    cycle, every service that is needed has been provided and the users' callbacks do not throw, [get] returns, whichever services
    have been initialized before; the service and everything it needs are initialized then, nothing else has
    been, no service is initialized twice, and each after all those that it fetches; the locator is ready
    for the next [get]. *)
Theorem services_initialize_in_order fuel t l :
  (rank t < fuel)%nat -> order_ok l -> at_rest l -> is_Some (underlying l !! t) ->
  exists l' new, get_service fuel t l = (Ok tt, l') /\ calls l' = calls l ++ new /\
    (forall x, needs t x -> x ∈ calls l') /\ (forall x, x ∈ new -> needs t x) /\
    NoDup (calls l') /\ (forall l1 x l2, calls l' = l1 ++ x :: l2 -> forall d, d ∈ deps x -> d ∈ l1) /\
    order_ok l' /\ at_rest l'.
Proof.
  intros Hf Hok Hrest [s Hs].
  destruct (DoInit_initializes fuel t l Hf Hok) as (Hr & Hok' & Hsame & Ht & new & Hnew & Hneeds); [eauto|by apply at_rest_unlocked|].
  destruct (DoInit fuel t l) as [r l'] eqn:Hrun. simpl in *. subst r. exists l', new.
  split; [unfold get_service, get_with; autorewrite with monad; by rewrite Hs|]. split; [done|].
  split; [|split; [done|]; split; [by apply oo_nodup|]; split; [by apply oo_order|]; split; [done|by eapply at_rest_same]].
  intros x Hx. clear - Hx Ht Hok'.
  induction Hx as [|t d x Hd _ IH]; [done|]. apply IH.
  apply list_elem_of_split in Ht as (l1 & l2 & Hc). rewrite Hc. apply elem_of_app. left. by eapply (oo_order _ Hok').
Qed.

End Services.

(** ** Cycles *)

Section Cycles.
Context (demangle : exn -> string) (m_services acquired fetched : Z -> list Z) (configure acquire init : Z -> outcome unit).
Abbreviation run := (DoInit demangle m_services acquired fetched configure acquire init).

Lemma first_member_undef fuel t u us l s :
  m_services t = u :: us -> configure t = Ok tt -> underlying l !! t = Some s -> m_status s = Uninitialized ->
  is_Some (underlying l !! u) -> (run fuel u (set_service t (set_locked true) l)).1 = Undef ->
  (run (S fuel) t l).1 = Undef.
Proof.
  intros Hm Hc Hs Hst Hu Hundef. cbn [DoInit]. unfold with_lock. rewrite Hs. destruct (locked s); [done|].
  rewrite decide_False by (rewrite Hst; tauto). set (l1 := set_service t (set_locked true) l) in *.
  assert (Hget : exists l2, for_each (m_services t) (get_with (run fuel)) l1 = (Undef, l2)).
  { rewrite Hm. cbn [for_each]. destruct (run fuel u l1) as [r l2] eqn:Hrun. simpl in Hundef. subst r. exists l2.
    assert (Hg : get_with (run fuel) u l1 = (Undef, l2)).
    { unfold get_with. autorewrite with monad. destruct (proj2 (is_Some_set_service t u (set_locked true) l) Hu) as [su Hsu].
      fold l1 in Hsu. by rewrite Hsu. }
    unfold mbind, M_bind. by rewrite Hg. }
  destruct Hget as [l2 Hget].
  assert (Hcl : lift (configure t) l1 = (Ok tt, l1)) by (unfold lift; by rewrite Hc).
  mstep Hcl. unfold mbind at 1, M_bind at 1. by rewrite Hget.
Qed.

(** A cycle of services is a deadlock: two services that fetch each other can never be initialized. *)
Lemma cyclic_services_deadlock fuel t u l st su ts us :
  m_services t = u :: ts -> m_services u = t :: us -> t <> u -> configure t = Ok tt -> configure u = Ok tt ->
  underlying l !! t = Some st -> underlying l !! u = Some su -> m_status st = Uninitialized -> m_status su = Uninitialized ->
  (run fuel t l).1 = Undef.
Proof.
  intros Hmt Hmu Hne Hct Hcu Ht Hu Hst Hsu. destruct fuel as [|fuel]; [done|].
  eapply first_member_undef; [done..|eauto|]. destruct fuel as [|fuel]; [done|].
  eapply first_member_undef; [done|done| |exact Hsu| |].
  - by rewrite lookup_set_service, decide_False.
  - apply is_Some_set_service. eauto.
  - destruct fuel as [|fuel]; [done|]. cbn [DoInit]. unfold with_lock.
    by rewrite lookup_set_service, decide_False, lookup_set_service, decide_True, Ht by done.
Qed.

End Cycles.

(** ** Witness *)

(** Four services: 1 has 2 as a member and asks for 3; 2 asks for 3, and fetches 4 in its [Init]. *)
Definition some_members (t : Z) : list Z := if t =? 1 then [2] else [].
Definition some_acquired (t : Z) : list Z := if t =? 1 then [3] else if t =? 2 then [3] else [].
Definition some_fetched (t : Z) : list Z := if t =? 2 then [4] else [].
Definition some_locator : Locator :=
  mkLocator (list_to_map ((fun t => (t, mkJService (mkJComponent "s" "p" "T") Uninitialized false)) <$> [1; 2; 3; 4])) [].

Lemma services_initialize_in_order_witness :
  exists l', get_service (fun _ => EmptyString) some_members some_acquired some_fetched (fun _ => Ok tt) (fun _ => Ok tt) (fun _ => Ok tt) 5 1 some_locator
    = (Ok tt, l') /\ calls l' = [3; 4; 2; 1] /\ NoDup (calls l').
Proof.
  destruct (services_initialize_in_order (fun _ => EmptyString) some_members some_acquired some_fetched (fun _ => Ok tt) (fun _ => Ok tt)
    (fun _ => Ok tt) (fun t => Z.to_nat (4 - t))) with (fuel := 5%nat) (t := 1) (l := some_locator)
    as (l' & new & H1 & _ & _ & _ & H2 & _).
  - intros t d. unfold deps, some_members, some_acquired, some_fetched.
    destruct (Z.eqb_spec t 1) as [->|]; [|destruct (Z.eqb_spec t 2) as [->|]]; simpl; rewrite ?elem_of_cons, elem_of_nil; lia.
  - done.
  - simpl. lia.
  - split; [constructor| |by intros [] ? ?|].
    + intros t s Hs. simpl calls. rewrite elem_of_nil. unfold some_locator in Hs. simpl in Hs.
      rewrite !lookup_insert_Some, lookup_empty in Hs. naive_solver.
    + intros t d _. unfold deps, some_members, some_acquired, some_fetched.
      destruct (Z.eqb_spec t 1) as [->|]; [|destruct (Z.eqb_spec t 2) as [->|]]; simpl; rewrite ?elem_of_cons, elem_of_nil;
        intros Hd; destruct_or?; subst; try done; vm_compute; eauto.
  - intros t s Hs. unfold some_locator in Hs. simpl in Hs. rewrite !lookup_insert_Some, lookup_empty in Hs. naive_solver.
  - vm_compute. eauto.
  - exists l'. split; [exact H1|]. split; [vm_compute in H1; by injection H1 as <-|exact H2].
Defined.

End ServiceLocator.
