(* ===== verification/JParameterManager.v ===== *)
(** * JParameterManager: configuration parameters

    Model of [Services/JParameterManager.h] and [Services/JParameterManager.cc].  A
    parameter's value is a string; [Codec] is what the templates [Stringify], [Parse] and
    [Equals] and the stream operator do at a type.  A configuration file is the list of its
    characters.  Logging, and the layout of the printed table, are not modelled. *)

From stdpp Require Import sorting.
From Stdlib Require Import Ascii.
From S2P Require Import Prelude.
Local Open Scope Z_scope.

Module Parameters.

Record JParameter := mkParameter {
  m_name : string;
  m_value : string;
  m_default_value : string;
  m_description : string;
  m_has_default : bool;
  m_is_default : bool;
  m_is_deprecated : bool;
  m_is_advanced : bool;
  m_is_used : bool
}.

(** The constructor. *)
Definition make_parameter (key value defaultValue description : string) (hasDefault isDefault : bool) : JParameter :=
  mkParameter key value defaultValue description hasDefault isDefault false false false.

Definition SetValue (v : string) (p : JParameter) : JParameter :=
  mkParameter (m_name p) v (m_default_value p) (m_description p) (m_has_default p) (m_is_default p)
    (m_is_deprecated p) (m_is_advanced p) (m_is_used p).
Definition SetIsDefault (b : bool) (p : JParameter) : JParameter :=
  mkParameter (m_name p) (m_value p) (m_default_value p) (m_description p) (m_has_default p) b
    (m_is_deprecated p) (m_is_advanced p) (m_is_used p).
Definition SetIsUsed (b : bool) (p : JParameter) : JParameter :=
  mkParameter (m_name p) (m_value p) (m_default_value p) (m_description p) (m_has_default p) (m_is_default p)
    (m_is_deprecated p) (m_is_advanced p) b.
Definition SetIsAdvanced (b : bool) (p : JParameter) : JParameter :=
  mkParameter (m_name p) (m_value p) (m_default_value p) (m_description p) (m_has_default p) (m_is_default p)
    (m_is_deprecated p) b (m_is_used p).
(** [SetHasDefault(true); SetDefault(v); SetDescription(desc)]. *)
Definition declare_default (v desc : string) (p : JParameter) : JParameter :=
  mkParameter (m_name p) (m_value p) v desc true (m_is_default p) (m_is_deprecated p) (m_is_advanced p) (m_is_used p).

Record JParameterManager := mkManager {
  m_parameters : gmap string JParameter;
  m_strictness : Z;
  m_verbosity : Z
}.

Definition empty_manager : JParameterManager := mkManager ∅ 1 1.

Definition set_parameters (ps : gmap string JParameter) (m : JParameterManager) : JParameterManager :=
  mkManager ps (m_strictness m) (m_verbosity m).

(** [tolower] in the C locale. *)
Definition tolower (c : ascii) : ascii :=
  let n := nat_of_ascii c in
  if (65 <=? n)%nat && (n <=? 90)%nat then ascii_of_nat (n + 32) else c.

Definition ToLower (name : string) : string :=
  String.string_of_list_ascii (tolower <$> String.list_ascii_of_string name).

Definition FindParameter (name : string) (m : JParameterManager) : option JParameter :=
  m_parameters m !! ToLower name.

Definition Exists (name : string) (m : JParameterManager) : bool := bool_decide (is_Some (FindParameter name m)).

(** What a type of parameter values provides. *)
Class Codec (T : Type) := {
  stream_out : T -> string;
  Stringify : T -> string;
  Parse : string -> outcome T;
  Equals : T -> T -> bool
}.

#[export] Instance string_codec : Codec string := {|
  stream_out v := v;
  Stringify v := v;
  Parse v := Ok v;
  Equals (a b : string) := bool_decide (a = b)
|}.

#[export] Instance bool_codec : Codec bool := {|
  stream_out (b : bool) := (if b then "1" else "0")%string;
  Stringify (b : bool) := (if b then "1" else "0")%string;
  Parse value :=
    if decide (value = "0" \/ value = "false" \/ value = "off")%string then Ok false
    else if decide (value = "1" \/ value = "true" \/ value = "on")%string then Ok true
    else throwJ "not parseable as bool";
  Equals := eqb
|}.

(** [getline(ss, s, ',')] until it fails: an empty last segment is not delivered. *)
Fixpoint segments (buf : list ascii) (l : list ascii) : list (list ascii) :=
  match l with
  | [] => if decide (buf = []) then [] else [buf]
  | c :: l => if Ascii.eqb c "," then buf :: segments [] l else segments (buf ++ [c]) l
  end.

Definition getlines (value : string) : list string :=
  String.string_of_list_ascii <$> segments [] (String.list_ascii_of_string value).

(** The elements with commas between them. *)
Fixpoint comma_separated (l : list string) : string :=
  match l with
  | [] => EmptyString
  | [x] => x
  | x :: l => x +:+ "," +:+ comma_separated l
  end.

Fixpoint parse_all {T} `{Codec T} (l : list string) : outcome (list T) :=
  match l with
  | [] => Ok []
  | s :: l => t ← Parse s; rest ← parse_all l; Ok (t :: rest)
  end.

Fixpoint equal_all {T} `{Codec T} (a b : list T) : bool :=
  match a, b with
  | [], [] => true
  | x :: a, y :: b => Equals x y && equal_all a b
  | _, _ => false
  end.

#[export] Instance vector_codec {T} `{Codec T} : Codec (list T) := {|
  stream_out v := comma_separated (stream_out <$> v);
  Stringify v := comma_separated (stream_out <$> v);
  Parse value := parse_all (getlines value);
  Equals := equal_all
|}.

Section Access.
Context {T : Type} `{Codec T}.

Definition update (key : string) (f : JParameter -> JParameter) : M JParameterManager unit :=
  modify (fun m => set_parameters (alter f key (m_parameters m)) m).

(** [GetParameter]: the value, if the parameter exists. *)
Definition GetParameter (name : string) : M JParameterManager (option T) :=
  found ← gets (FindParameter name);
  match found with
  | None => mret None
  | Some p =>
      t ← lift (Parse (m_value p));
      _ ← update (ToLower name) (SetIsUsed true);
      mret (Some t)
  end.

Definition GetParameterValue (name : string) : M JParameterManager T :=
  found ← gets (FindParameter name);
  match found with
  | None => throwM ("Unknown parameter " +:+ name)
  | Some p =>
      _ ← update (ToLower name) (SetIsUsed true);
      lift (Parse (m_value p))
  end.

Definition SetParameter (name : string) (val : T) : M JParameterManager unit :=
  found ← gets (FindParameter name);
  match found with
  | None => modify (fun m => set_parameters (<[ToLower name :=
      make_parameter name (Stringify val) EmptyString EmptyString false false]> (m_parameters m)) m)
  | Some _ => update (ToLower name) (fun p => SetIsDefault false (SetValue (Stringify val) p))
  end.

(** [SetDefaultParameter]: what [val] becomes. *)
Definition SetDefaultParameter (name : string) (val : T) (description : string) : M JParameterManager T :=
  found ← gets (FindParameter name);
  _ ← (match found with
       | Some p =>
           if negb (m_has_default p) then update (ToLower name) (declare_default (Stringify val) description)
           else
             t ← lift (Parse (m_default_value p));
             if negb (Equals val t) && m_is_default p then update (ToLower name) (SetValue (Stringify val)) else mret tt
       | None =>
           _ ← lift (Parse (Stringify val));
           modify (fun m => set_parameters (<[ToLower name :=
             make_parameter name (Stringify val) (Stringify val) description true true]> (m_parameters m)) m)
       end);
  found ← gets (FindParameter name);
  match found with
  | None => lift Undef
  | Some p =>
      t ← lift (Parse (m_value p));
      _ ← update (ToLower name) (SetIsUsed true);
      mret t
  end.

Definition RegisterParameter (name : string) (default_val : T) (description : string) : M JParameterManager T :=
  SetDefaultParameter name default_val description.

End Access.

(** ** Printing *)

(** The keys of a [std::map] in its order. *)
Definition sorted_params (m : JParameterManager) : list (string * JParameter) :=
  merge_sort (fun a b => String.leb a.1 b.1) (map_to_list (m_parameters m)).

Definition violates_strictness (strictness : Z) (p : JParameter) : bool :=
  (0 <? strictness) && negb (m_is_default p) && negb (m_is_used p).

(** Which parameters the table shows. *)
Definition shown (verbosity : Z) (p : JParameter) : bool :=
  negb (m_is_deprecated p && m_is_default p) &&
  negb ((verbosity =? 1) && m_is_default p) &&
  negb ((verbosity =? 2) && m_is_default p && m_is_advanced p).

(** [PrintParameters(verbosity, strictness)]: the rows of the table. *)
Definition PrintParameters (verbosity strictness : Z) : M JParameterManager (list JParameter) :=
  m ← get;
  if verbosity =? 0 then mret [] else
  let strictness_violation := existsb (fun kp => violates_strictness strictness kp.2) (sorted_params m) in
  let verbosity := if strictness_violation then 3 else verbosity in
  let params_to_print := filter (fun p => shown verbosity p = true) (sorted_params m).*2 in
  if bool_decide (params_to_print = []) then mret [] else
  if strictness_violation && (1 <? strictness) then throwM
    "Unrecognized parameters found! Throwing an exception because jana:parameter_strictness=2. See full parameters table in log."
  else mret params_to_print.

(** The deprecated overload. *)
Definition PrintParameters_flags (show_defaulted show_advanced warn_on_unused : bool)
    : M JParameterManager (list JParameter) :=
  PrintParameters (if show_advanced then 3 else if show_defaulted then 2 else 1) (if warn_on_unused then 1 else 0).

(** [PrintParameters()]; [int] parameters go through their own codec. *)
Definition PrintParameters_default `{Codec Z} : M JParameterManager (list JParameter) :=
  m ← get;
  verbosity ← SetDefaultParameter "jana:parameter_verbosity" (m_verbosity m) "0: Don't show parameters table
1: Show user-provided parameters only
2: Show defaulted parameters
3: Show defaulted advanced parameters";
  _ ← modify (fun m => mkManager (m_parameters m) (m_strictness m) verbosity);
  strictness ← SetDefaultParameter "jana:parameter_strictness" (m_strictness m) "0: Ignore unused parameters
1: Warn on unused parameters
2: Throw on unused parameters";
  _ ← modify (fun m => mkManager (m_parameters m) strictness (m_verbosity m));
  if (verbosity <? 0) || (3 <? verbosity) then throwM "jana:parameter_verbosity: Bad parameter value!" else
  if (strictness <? 0) || (2 <? strictness) then throwM "jana:parameter_strictness: Bad parameter value!" else
  PrintParameters verbosity strictness.

(** [FilterParameters]: the map it fills; keys keep their original case. *)
Definition FilterParameters (filter : string) : M JParameterManager (gmap string string) := fun m =>
  let matching := List.filter (fun kp => String.prefix filter (m_name kp.2)) (sorted_params m) in
  (Ok (foldl (fun acc kp => <[String.substring (String.length filter)
                               (String.length (m_name kp.2) - String.length filter) (m_name kp.2) := m_value kp.2]> acc) ∅ matching),
   set_parameters (foldl (fun ps kp => alter (SetIsUsed true) kp.1 ps) (m_parameters m) matching) m).

(** ** Configuration files *)

Abbreviation line := (list ascii).
Definition chars (s : string) : line := String.list_ascii_of_string s.
Definition text (l : line) : string := String.string_of_list_ascii l.

Definition is_space (c : ascii) : bool :=
  let n := nat_of_ascii c in (n =? 32)%nat || ((9 <=? n)%nat && (n <=? 13)%nat).

(** [while (ss >> buf) tokens.push_back(buf)]. *)
Fixpoint tokens_from (buf : line) (l : line) : list line :=
  match l with
  | [] => if decide (buf = []) then [] else [buf]
  | c :: l =>
      if is_space c then (if decide (buf = []) then [] else [buf]) ++ tokens_from [] l
      else tokens_from (buf ++ [c]) l
  end.

Definition tokens : line -> list line := tokens_from [].

(** Erase a comment, and the blank before it. *)
Definition strip_comment (l : line) : line :=
  match list_find (fun c => c = "#"%char) l with
  | None => l
  | Some (pos, _) =>
      if (0 <? pos)%nat && bool_decide (l !! (pos - 1)%nat = Some " "%char) then take (pos - 1) l else take pos l
  end.

(** The tokens with one blank between them. *)
Fixpoint join (ts : list line) : line :=
  match ts with
  | [] => []
  | [t] => t
  | t :: ts => t ++ " "%char :: join ts
  end.

(** The lines that [getline] delivers until the end of the file is reached. *)
Fixpoint file_lines (buf : line) (l : line) : list line :=
  match l with
  | [] => [buf]
  | c :: l => if Ascii.eqb c "010" then buf :: file_lines [] l else file_lines (buf ++ [c]) l
  end.

(** What a buffer holds when it is read as a C string. *)
Fixpoint c_str (l : line) : line :=
  match l with
  | [] => []
  | c :: l => if Ascii.eqb c "000" then [] else c :: c_str l
  end.

(** One turn of the loop of [ReadConfigFile].  A line that does not fit the buffer of 8190
    characters makes the stream fail, and the loop, which waits for its end, never ends. *)
Definition read_line (l : line) : M JParameterManager unit :=
  if (8190 <=? length l)%nat then lift Undef else
  let l := c_str l in
  match l with
  | [] => mret tt
  | c :: _ =>
      if Ascii.eqb c "#" then mret tt else
      match tokens (strip_comment l) with
      | [] => mret tt
      | key :: rest =>
          let val := join rest in
          let val := if decide (val = []) then chars "1" else val in
          param ← gets (FindParameter (text key));
          match param with
          | Some p => if m_has_default p then SetParameter (text key) (text val) else mret tt
          | None => SetParameter (text key) (text val)
          end
      end
  end.

(** [ReadConfigFile]: [file] is what the file contains, or [None] if it cannot be opened. *)
Definition ReadConfigFile (file : option line) : M JParameterManager unit :=
  match file with
  | None => throwM "Unable to open configuration file"
  | Some content => for_each (file_lines [] content) read_line
  end.

(** One line of [WriteConfigFile]. *)
Definition write_line (max_key_len max_val_len : nat) (key val desc : line) : line :=
  key ++ replicate (max_key_len - length key) " "%char ++ " "%char ::
  val ++ replicate (max_val_len - length val) " "%char ++ chars " # " ++ desc.

(** The lines that [WriteConfigFile] writes; [created] is the date, without the end of line that
    [ctime] adds to it. *)
Definition config_lines (created : line) (m : JParameterManager) : list line :=
  let ps := sorted_params m in
  let max_key_len := foldr Nat.max 0%nat ((fun kp => String.length kp.1) <$> ps) in
  let max_val_len := foldr Nat.max 0%nat ((fun kp => String.length (m_value kp.2)) <$> ps) in
  [chars "#"; chars "# JANA configuration parameters"; chars "# Created " ++ created; chars "#"; []] ++
  ((fun kp => write_line max_key_len max_val_len (chars kp.1) (chars (m_value kp.2)) (chars (m_description kp.2))) <$> ps).

(** [WriteConfigFile]: what the file contains, or the failure to open it. *)
Definition WriteConfigFile (is_open : bool) (created : line) : M JParameterManager line :=
  if negb is_open then throwM "Unable to open configuration file for writing!" else
  gets (fun m => config_lines created m ≫= fun l => l ++ ["010"%char]).

(** ** Round trip through a configuration file *)

(** A line that [getline] delivers whole: it fits the buffer and has no control characters that end it. *)
Definition fits (l : line) : Prop := (length l < 8190)%nat /\ Forall (fun c => c <> "010"%char /\ c <> "000"%char) l.

Lemma c_str_fits l : fits l -> c_str l = l.
Proof.
  intros [_ H]. induction H as [|c l [_ Hc] _ IH]; [done|]. cbn. rewrite (proj2 (Ascii.eqb_neq c _)) by done. by rewrite IH.
Qed.

Lemma file_lines_line l : forall buf rest, Forall (fun c => c <> "010"%char /\ c <> "000"%char) l ->
  file_lines buf (l ++ "010"%char :: rest) = (buf ++ l) :: file_lines [] rest.
Proof.
  induction l as [|c l IH]; intros buf rest Hl; [by rewrite app_nil_r|]. apply Forall_cons in Hl as [[Hc _] Hl].
  cbn. rewrite (proj2 (Ascii.eqb_neq c _)) by done. rewrite IH by done. by rewrite <- app_assoc.
Qed.

Lemma file_lines_written ls : Forall fits ls -> file_lines [] (ls ≫= fun l => l ++ ["010"%char]) = ls ++ [[]].
Proof.
  induction 1 as [|l ls [_ Hl] _ IH]; [done|]. csimpl. rewrite <- app_assoc. cbn. by rewrite file_lines_line, IH.
Qed.

(** A token without blanks. *)
Definition unspaced (t : line) : Prop := Forall (fun c => is_space c = false) t.

Lemma tokens_from_unspaced t : forall buf l, unspaced t -> tokens_from buf (t ++ l) = tokens_from (buf ++ t) l.
Proof.
  induction t as [|c t IH]; intros buf l Ht; [by rewrite app_nil_r|].
  apply Forall_cons in Ht as [Hc Ht]. cbn. rewrite Hc, IH, <- app_assoc by done. done.
Qed.

Lemma tokens_unspaced t c l : t <> [] -> unspaced t -> is_space c = true -> tokens (t ++ c :: l) = t :: tokens l.
Proof. intros Hne Ht Hc. unfold tokens. rewrite tokens_from_unspaced by done. cbn. by rewrite Hc, decide_False. Qed.

(** A token that survives: no blanks and no comment character. *)
Definition word (t : line) : Prop := t <> [] /\ Forall (fun c => is_space c = false /\ c <> "#"%char) t.

Lemma word_unspaced t : word t -> unspaced t.
Proof. intros [_ Ht]. eapply Forall_impl; [exact Ht|]. by intros c []. Qed.

Lemma tokens_blanks n l : tokens (replicate n " "%char ++ l) = tokens l.
Proof. unfold tokens. induction n as [|n IH]; [done|]. cbn. apply IH. Qed.

Lemma tokens_word t l : word t -> tokens (t ++ " "%char :: l) = t :: tokens l.
Proof. intros Ht. apply tokens_unspaced; [apply Ht|by apply word_unspaced|done]. Qed.

Lemma tokens_join ts n : Forall word ts -> tokens (join ts ++ replicate n " "%char) = ts.
Proof.
  induction ts as [|t ts IH]; intros Hts.
  { cbn [join app]. rewrite <- (app_nil_r (replicate n _)). by rewrite tokens_blanks. }
  apply Forall_cons in Hts as [Ht Hts]. destruct ts as [|t' ts].
  - cbn [join]. destruct n as [|n].
    + cbn. rewrite app_nil_r. unfold tokens. rewrite <- (app_nil_r t).
      rewrite tokens_from_unspaced by (by apply word_unspaced). cbn. rewrite app_nil_r, decide_False by apply Ht. done.
    + cbn [replicate]. rewrite tokens_word by done. f_equal.
      rewrite <- (app_nil_r (replicate n _)). by rewrite tokens_blanks.
  - change (join (t :: t' :: ts)) with (t ++ " "%char :: join (t' :: ts)). rewrite <- app_assoc. cbn [app].
    rewrite tokens_word by done. f_equal. by apply IH.
Qed.

Lemma no_hash_word t : word t -> Forall (fun c => c <> "#"%char) t.
Proof. intros [_ Ht]. eapply Forall_impl; [exact Ht|]. by intros c []. Qed.

Lemma no_hash_blanks n : Forall (fun c => c <> "#"%char) (replicate n " "%char).
Proof. apply Forall_replicate. done. Qed.

Lemma no_hash_join ts : Forall word ts -> Forall (fun c => c <> "#"%char) (join ts).
Proof.
  induction ts as [|t ts IH]; intros Hts; [constructor|]. apply Forall_cons in Hts as [Ht Hts].
  destruct ts as [|t' ts]; [by apply no_hash_word|].
  change (join (t :: t' :: ts)) with (t ++ " "%char :: join (t' :: ts)).
  apply Forall_app. split; [by apply no_hash_word|]. apply Forall_cons. split; [done|]. by apply IH.
Qed.

Lemma strip_comment_at A d : Forall (fun c => c <> "#"%char) A -> strip_comment (A ++ " "%char :: "#"%char :: d) = A.
Proof.
  intros HA. unfold strip_comment.
  assert (Hf : list_find (fun c => c = "#"%char) (A ++ " "%char :: "#"%char :: d) = Some (S (length A), "#"%char)).
  { apply list_find_Some. split.
    - rewrite lookup_app_r by lia. by replace (S (length A) - length A)%nat with 1%nat by lia.
    - split; [done|]. intros j y Hj Hlt. destruct (decide (j < length A)%nat) as [Hl|Hl].
      + rewrite lookup_app_l in Hj by done. by eapply Forall_lookup_1 in HA.
      + rewrite lookup_app_r in Hj by lia. by replace (j - length A)%nat with 0%nat in Hj by lia; simplify_eq/=. }
  rewrite Hf. replace (S (length A) - 1)%nat with (length A) by lia.
  rewrite bool_decide_true by (rewrite lookup_app_r, Nat.sub_diag by lia; done). cbn. by rewrite take_app_length.
Qed.

(** The tokens of a line that was written. *)
Lemma written_tokens mk mv key ts desc :
  word key -> Forall word ts ->
  tokens (strip_comment (write_line mk mv key (join ts) desc)) = key :: ts.
Proof.
  intros Hk Hts. unfold write_line.
  set (pk := (mk - length key)%nat). set (pv := (mv - length (join ts))%nat).
  replace (key ++ replicate pk " "%char ++ " "%char :: join ts ++ replicate pv " "%char ++ chars " # " ++ desc)
    with ((key ++ replicate pk " "%char ++ " "%char :: join ts ++ replicate pv " "%char) ++ " "%char :: "#"%char :: " "%char :: desc)
    by (rewrite <- !app_assoc; cbn; by rewrite <- !app_assoc).
  rewrite strip_comment_at.
  2:{ repeat (apply Forall_app; split); auto using no_hash_word, no_hash_blanks. apply Forall_cons. split; [done|].
      apply Forall_app. auto using no_hash_join, no_hash_blanks. }
  assert (Hpad : replicate pk " "%char ++ " "%char :: join ts ++ replicate pv " "%char
    = " "%char :: replicate pk " "%char ++ join ts ++ replicate pv " "%char).
  { change (" "%char :: join ts ++ replicate pv " "%char) with ([" "%char] ++ join ts ++ replicate pv " "%char).
    rewrite app_assoc. change [" "%char] with (replicate 1 " "%char). rewrite <- replicate_add, Nat.add_1_r. done. }
  rewrite Hpad, tokens_word by done. f_equal. by rewrite tokens_blanks, tokens_join.
Qed.

(** A parameter that a configuration file can carry: a lower-case key without blanks, and a value of
    words with single blanks between them; neither contains the comment character. *)
Definition portable (k : string) (p : JParameter) : Prop :=
  word (chars k) /\ ToLower k = k /\ exists ts, ts <> [] /\ Forall word ts /\ chars (m_value p) = join ts.

Lemma text_chars s : text (chars s) = s.
Proof. apply String.string_of_list_ascii_of_string. Qed.

Lemma join_nonempty ts : ts <> [] -> Forall word ts -> join ts <> [].
Proof.
  intros Hne Hts. destruct ts as [|t ts]; [done|]. apply Forall_cons in Hts as [[Ht _] _].
  destruct ts; [done|]. cbn. destruct t; done.
Qed.

Lemma read_written mk mv k p m :
  portable k p -> fits (write_line mk mv (chars k) (chars (m_value p)) (chars (m_description p))) ->
  m_parameters m !! k = None ->
  read_line (write_line mk mv (chars k) (chars (m_value p)) (chars (m_description p))) m
    = (Ok tt, set_parameters (<[k := make_parameter k (m_value p) EmptyString EmptyString false false]> (m_parameters m)) m).
Proof.
  intros (Hk & Hlow & ts & Hne & Hts & Hv) Hlen Hnone. unfold read_line.
  rewrite (proj2 (Nat.leb_gt _ _)) by apply Hlen. rewrite c_str_fits by done. rewrite Hv. clear Hlen.
  assert (Hhd : exists c r, write_line mk mv (chars k) (join ts) (chars (m_description p)) = c :: r /\ c <> "#"%char).
  { destruct Hk as [Hkne Hka]. unfold write_line. destruct (chars k) as [|c r]; [done|].
    apply Forall_cons in Hka as [[_ Hc] _]. cbn. eauto. }
  pose proof (written_tokens mk mv (chars k) ts (chars (m_description p)) Hk Hts) as Htok.
  destruct Hhd as (c & r & Hl & Hc). rewrite Hl in *. rewrite (proj2 (Ascii.eqb_neq c "#")) by done.
  rewrite Htok. rewrite decide_False by (by apply join_nonempty). rewrite text_chars.
  replace (text (join ts)) with (m_value p) by (by rewrite <- Hv, text_chars).
  rewrite M_bind_gets. unfold FindParameter. rewrite Hlow, Hnone.
  unfold SetParameter. rewrite M_bind_gets. unfold FindParameter. by rewrite Hlow, Hnone.
Qed.

Lemma read_all_written mk mv (ps : list (string * JParameter)) : forall m,
  NoDup ps.*1 -> Forall (fun kp => portable kp.1 kp.2 /\
    fits (write_line mk mv (chars kp.1) (chars (m_value kp.2)) (chars (m_description kp.2)))) ps ->
  (forall k, k ∈ ps.*1 -> m_parameters m !! k = None) ->
  exists m', for_each ((fun kp => write_line mk mv (chars kp.1) (chars (m_value kp.2)) (chars (m_description kp.2))) <$> ps)
      read_line m = (Ok tt, m') /\
    m_value <$> m_parameters m' = (m_value <$> list_to_map ps) ∪ (m_value <$> m_parameters m).
Proof.
  induction ps as [|[k p] ps IH]; intros m Hnd Hps Hnone.
  { exists m. split; [done|]. cbn. by rewrite fmap_empty, (left_id_L ∅ (∪)). }
  csimpl in Hnd. apply NoDup_cons in Hnd as [Hk Hnd]. apply Forall_cons in Hps as [[Hp Hlen] Hps]. csimpl.
  cbn [for_each]. mstep (read_written mk mv k p m Hp Hlen (Hnone k ltac:(by left))).
  set (m1 := set_parameters _ m). destruct (IH m1 Hnd Hps) as (m' & Hrun & Hval).
  { intros k' Hk'. cbn. rewrite lookup_insert_ne; [apply Hnone; by right|]. intros ->. done. }
  exists m'. split; [exact Hrun|]. rewrite Hval. cbn. rewrite !fmap_insert. cbn.
  rewrite <- insert_union_l, insert_union_r; [done|].
  rewrite lookup_fmap, not_elem_of_list_to_map_1 by done. done.
Qed.

(** The header is comments. *)
Lemma read_header created :
  fits (chars "# Created " ++ created) ->
  for_each [chars "#"; chars "# JANA configuration parameters"; chars "# Created " ++ created; chars "#"; []]
    read_line empty_manager = (Ok tt, empty_manager).
Proof.
  intros Hdate. cbn [for_each].
  assert (Hc : read_line (chars "# Created " ++ created) empty_manager = (Ok tt, empty_manager)).
  { unfold read_line. rewrite (proj2 (Nat.leb_gt _ _)) by apply Hdate. by rewrite c_str_fits. }
  mstep (eq_refl (read_line (chars "#") empty_manager)).
  mstep (eq_refl (read_line (chars "# JANA configuration parameters") empty_manager)). mstep Hc.
  by mstep (eq_refl (read_line (chars "#") empty_manager)).
Qed.

(** A configuration file reads back as it was written.  Write the parameters of a manager to a file and
    read that file into a new manager: it then has exactly the same keys with exactly
    the same values, provided that keys and values survive the format (a key is lower-case
    and without blanks, a value consists of words with single blanks between them, neither
    contains [#], and every line fits the reader's buffer and has no end of line inside it). *)
Theorem config_file_round_trip created m :
  (forall k p, m_parameters m !! k = Some p -> portable k p) ->
  Forall fits (config_lines created m) ->
  exists content m', WriteConfigFile true created m = (Ok content, m) /\
    ReadConfigFile (Some content) empty_manager = (Ok tt, m') /\
    m_value <$> m_parameters m' = m_value <$> m_parameters m.
Proof.
  intros Hport Hlen. cut (exists m', for_each (config_lines created m) read_line empty_manager = (Ok tt, m') /\
    m_value <$> m_parameters m' = m_value <$> m_parameters m).
  { intros (m' & Hrun & Hval). eexists _, m'. split; [done|]. split; [|exact Hval].
    unfold ReadConfigFile. rewrite file_lines_written, for_each_app by done. by mstep Hrun. }
  unfold config_lines in *.
  set (ps := sorted_params m) in *. set (mk := foldr Nat.max 0%nat ((fun kp => String.length kp.1) <$> ps)) in *.
  set (mv := foldr Nat.max 0%nat ((fun kp => String.length (m_value kp.2)) <$> ps)) in *.
  assert (Hperm : ps ≡ₚ map_to_list (m_parameters m)) by apply merge_sort_Permutation.
  assert (Hnd : NoDup ps.*1) by (rewrite Hperm; apply NoDup_fst_map_to_list).
  rewrite !Forall_app in Hlen. destruct Hlen as [Hhead Hlen]. rewrite !Forall_cons in Hhead. destruct Hhead as (_ & _ & Hdate & _).
  destruct (read_all_written mk mv ps empty_manager Hnd) as (m' & Hrun & Hval).
  - apply Forall_forall. intros [k p] Hkp. split.
    + apply Hport. rewrite Hperm in Hkp. by apply elem_of_map_to_list in Hkp.
    + rewrite Forall_forall in Hlen. apply Hlen. apply list_elem_of_fmap. by exists (k, p).
  - intros k _. apply lookup_empty.
  - exists m'. split.
    + rewrite for_each_app. mstep (read_header created Hdate). exact Hrun.
    + rewrite Hval. cbn. rewrite fmap_empty, (right_id_L ∅ (∪)). f_equal.
      rewrite (list_to_map_proper ps (map_to_list (m_parameters m)) Hnd Hperm). apply list_to_map_to_list.
Qed.

#[local] Instance word_dec t : Decision (word t).
Proof. unfold word. apply _. Defined.
#[local] Instance fits_dec l : Decision (fits l).
Proof. unfold fits. apply _. Defined.

(** A manager with a user's value of two words and with a default. *)
Definition small_manager : JParameterManager :=
  mkManager (<["nthreads"%string := make_parameter "NTHREADS" "4" "1" "Workers # all" true false]>
            (<["log:off"%string := make_parameter "log:off" "JPool JArrow" "a" "Quiet" true true]> ∅)) 1 1.

Lemma config_file_round_trip_witness :
  exists content m', WriteConfigFile true (chars "Sun Nov 15 2026") small_manager = (Ok content, small_manager) /\
    ReadConfigFile (Some content) empty_manager = (Ok tt, m') /\
    m_value <$> m_parameters m' = m_value <$> m_parameters small_manager.
Proof.
  apply (config_file_round_trip (chars "Sun Nov 15 2026") small_manager).
  - intros k p Hp. unfold small_manager in Hp. cbn [m_parameters] in Hp.
    apply lookup_insert_Some in Hp as [[<- <-]|[_ Hp]].
    + split; [by refine (bool_decide_unpack _ _); vm_compute|]. split; [done|]. exists [chars "4"].
      split; [done|]. split; [by refine (bool_decide_unpack _ _); vm_compute|done].
    + apply lookup_insert_Some in Hp as [[<- <-]|[_ Hp]]; [|by rewrite lookup_empty in Hp].
      split; [by refine (bool_decide_unpack _ _); vm_compute|]. split; [done|]. exists [chars "JPool"; chars "JArrow"].
      split; [done|]. split; [by refine (bool_decide_unpack _ _); vm_compute|done].
  - by refine (bool_decide_unpack _ _); vm_compute.
Defined.

(** ** Which value a parameter has *)

(** Calls on string parameters, under names of any case. *)
Inductive call :=
| CSet (name v : string)
| CDefault (name v desc : string)
| CGet (name : string).

Definition run_call (c : call) : M JParameterManager unit :=
  match c with
  | CSet name v => SetParameter name v
  | CDefault name v desc => _ ← SetDefaultParameter name v desc; mret tt
  | CGet name => _ ← GetParameter (T := string) name; mret tt
  end.

(** What has been set, and what has been declared as a default, for a key. *)
Definition set_values (k : string) (cs : list call) : list string :=
  omap (fun c => match c with CSet n v => if decide (ToLower n = k) then Some v else None | _ => None end) cs.
Definition default_values (k : string) (cs : list call) : list string :=
  omap (fun c => match c with CDefault n v _ => if decide (ToLower n = k) then Some v else None | _ => None end) cs.

(** The value that prevails among several defaults: the last one that differs from the first. *)
Definition prevailing (ds : list string) : option string :=
  match ds with
  | [] => None
  | d0 :: rest => Some (default d0 (last (filter (fun d => d <> d0) rest)))
  end.

Definition value_of (k : string) (cs : list call) : option string :=
  match last (set_values k cs) with Some v => Some v | None => prevailing (default_values k cs) end.

(** What is stored for a key after the calls. *)
Definition stored (cs : list call) (k : string) (o : option JParameter) : Prop :=
  match o with
  | None => set_values k cs = [] /\ default_values k cs = []
  | Some p =>
      value_of k cs = Some (m_value p) /\
      m_has_default p = negb (bool_decide (default_values k cs = [])) /\
      m_is_default p = bool_decide (set_values k cs = []) /\
      (forall d0 rest, default_values k cs = d0 :: rest -> m_default_value p = d0)
  end.

Lemma prevailing_snoc d0 rest d :
  prevailing (d0 :: rest ++ [d]) = if decide (d = d0) then prevailing (d0 :: rest) else Some d.
Proof.
  unfold prevailing. rewrite filter_app. case_decide as Hd.
  - subst. rewrite filter_cons_False by (intros H; by apply H). by rewrite filter_nil, app_nil_r.
  - rewrite filter_cons_True by done. by rewrite filter_nil, last_snoc.
Qed.

(** A call does not touch other keys. *)
Lemma stored_other cs c k o :
  stored cs k o -> (match c with CSet n _ | CDefault n _ _ => ToLower n <> k | CGet _ => True end) ->
  stored (cs ++ [c]) k o.
Proof.
  intros Hs Hc. assert (Hset : set_values k (cs ++ [c]) = set_values k cs).
  { unfold set_values. rewrite omap_app. destruct c; cbn; [rewrite decide_False by done| |]; by rewrite app_nil_r. }
  assert (Hdef : default_values k (cs ++ [c]) = default_values k cs).
  { unfold default_values. rewrite omap_app. destruct c; cbn; [|rewrite decide_False by done|]; by rewrite app_nil_r. }
  unfold stored, value_of in *. by rewrite Hset, Hdef.
Qed.

Lemma stored_used cs k p : stored cs k (Some p) -> stored cs k (Some (SetIsUsed true p)).
Proof. done. Qed.

Lemma stored_set cs n v o p :
  stored cs (ToLower n) o -> m_value p = v -> m_is_default p = false ->
  (forall q, o = Some q -> m_has_default p = m_has_default q /\ m_default_value p = m_default_value q) ->
  (o = None -> m_has_default p = false) ->
  stored (cs ++ [CSet n v]) (ToLower n) (Some p).
Proof.
  intros Hs Hv Hd Hsome Hnone.
  assert (Hset : set_values (ToLower n) (cs ++ [CSet n v]) = set_values (ToLower n) cs ++ [v]).
  { unfold set_values. rewrite omap_app. cbn. by rewrite decide_True. }
  assert (Hdef : default_values (ToLower n) (cs ++ [CSet n v]) = default_values (ToLower n) cs).
  { unfold default_values. rewrite omap_app. cbn. by rewrite app_nil_r. }
  unfold stored, value_of. rewrite Hset, Hdef, last_snoc, Hv, Hd. split; [done|].
  rewrite (bool_decide_eq_false_2 (set_values _ cs ++ [v] = [])) by (by destruct (set_values (ToLower n) cs)).
  destruct o as [q|]; cbn in Hs.
  - destruct Hs as (_ & Hh & _ & Hdv), (Hsome q eq_refl) as [-> ->]. auto.
  - destruct Hs as [_ ->]. rewrite (Hnone eq_refl). by rewrite bool_decide_true.
Qed.

(** The parameter after its default has been declared (again). *)
Definition after_default (v desc : string) (p : JParameter) : JParameter :=
  SetIsUsed true
    (if negb (m_has_default p) then declare_default v desc p
     else if negb (bool_decide (v = m_default_value p)) && m_is_default p then SetValue v p else p).

Lemma stored_default cs n v desc p :
  stored cs (ToLower n) (Some p) ->
  stored (cs ++ [CDefault n v desc]) (ToLower n) (Some (after_default v desc p)).
Proof.
  intros (Hv & Hh & Hi & Hd).
  assert (Hset : set_values (ToLower n) (cs ++ [CDefault n v desc]) = set_values (ToLower n) cs).
  { unfold set_values. rewrite omap_app. cbn. by rewrite app_nil_r. }
  assert (Hdef : default_values (ToLower n) (cs ++ [CDefault n v desc]) = default_values (ToLower n) cs ++ [v]).
  { unfold default_values. rewrite omap_app. cbn. by rewrite decide_True. }
  unfold stored, value_of, after_default in *. rewrite Hset, Hdef.
  rewrite (bool_decide_eq_false_2 (default_values _ cs ++ [v] = [])) by (by destruct (default_values (ToLower n) cs)).
  destruct (default_values (ToLower n) cs) as [|d0 rest] eqn:Hds.
  - rewrite bool_decide_true in Hh by done. cbn in Hh. rewrite Hh. cbn.
    destruct (last (set_values (ToLower n) cs)) as [u|] eqn:Hu; [|done].
    repeat (split; [done|]). intros d0 rest [= <- <-]. done.
  - rewrite bool_decide_false in Hh by done. cbn in Hh. rewrite Hh. cbn [negb]. specialize (Hd d0 rest eq_refl). rewrite Hd.
    change ((d0 :: rest) ++ [v]) with (d0 :: rest ++ [v]). rewrite prevailing_snoc.
    destruct (set_values (ToLower n) cs) as [|u us] eqn:Hus.
    + cbn [last] in *. rewrite bool_decide_true in Hi by done. rewrite Hi.
      destruct (decide (v = d0)) as [->|Hne].
      * rewrite (bool_decide_true (d0 = d0)) by done. cbn. repeat (split; [done|]). by intros ? ? [= <- <-].
      * rewrite (bool_decide_false (v = d0)) by done. cbn. repeat (split; [done|]). by intros ? ? [= <- <-].
    + assert (Hl : is_Some (last (u :: us))) by (by apply last_is_Some). destruct Hl as [x Hx]. rewrite Hx in *.
      rewrite bool_decide_false in Hi by done. rewrite Hi, andb_false_r. cbn.
      repeat (split; [done|]). by intros ? ? [= <- <-].
Qed.

Lemma stored_new_default cs n v desc :
  stored cs (ToLower n) None ->
  stored (cs ++ [CDefault n v desc]) (ToLower n) (Some (SetIsUsed true (make_parameter n v v desc true true))).
Proof.
  intros [Hs Hd]. unfold stored, value_of, set_values, default_values in *. rewrite !omap_app, Hs, Hd. cbn.
  rewrite decide_True by done. cbn. repeat (split; [done|]). by intros ? ? [= <- <-].
Qed.

Definition all_stored (cs : list call) (m : JParameterManager) : Prop := forall k, stored cs k (m_parameters m !! k).

Lemma all_stored_insert cs c n p m m' :
  all_stored cs m -> (match c with CSet n' _ | CDefault n' _ _ => n' = n | CGet _ => False end) ->
  stored (cs ++ [c]) (ToLower n) (Some p) -> m_parameters m' = <[ToLower n := p]> (m_parameters m) ->
  all_stored (cs ++ [c]) m'.
Proof.
  intros Hall Hc Hp Hm' k. rewrite Hm'. destruct (decide (k = ToLower n)) as [->|Hne]; [by rewrite lookup_insert_eq|].
  rewrite lookup_insert_ne by done. apply stored_other; [apply Hall|]. destruct c; [congruence..|done].
Qed.

Lemma update_at k f p m :
  m_parameters m !! k = Some p -> update k f m = (Ok tt, set_parameters (<[k := f p]> (m_parameters m)) m).
Proof.
  intros Hp. unfold update, modify. do 2 f_equal. apply map_eq. intros j.
  destruct (decide (j = k)) as [->|Hne]; [by rewrite lookup_alter_eq, lookup_insert_eq, Hp|].
  by rewrite lookup_alter_ne, lookup_insert_ne by done.
Qed.

(** The end of [SetDefaultParameter], [GetParameter]: the parameter is marked as used. *)
Lemma use_parameter n q m :
  m_parameters m !! ToLower n = Some q ->
  (found ← gets (FindParameter n);
   match found with
   | None => lift Undef
   | Some p => t ← lift (Parse (m_value p)); _ ← update (ToLower n) (SetIsUsed true); mret t
   end) m = (Ok (m_value q), set_parameters (<[ToLower n := SetIsUsed true q]> (m_parameters m)) m).
Proof.
  intros Hq. rewrite M_bind_gets. unfold FindParameter. rewrite Hq. mstep (eq_refl (lift (Ok (m_value q)) m)).
  by mstep (update_at _ (SetIsUsed true) _ _ Hq).
Qed.

Lemma redeclare n v desc p m :
  m_parameters m !! ToLower n = Some p ->
  exists q, (if negb (m_has_default p) then update (ToLower n) (declare_default v desc)
     else t ← lift (Parse (m_default_value p));
       if negb (Equals v t) && m_is_default p then update (ToLower n) (SetValue v) else mret tt) m
    = (Ok tt, set_parameters (<[ToLower n := q]> (m_parameters m)) m) /\ SetIsUsed true q = after_default v desc p.
Proof.
  intros Hp. unfold after_default. destruct (negb (m_has_default p)).
  - exists (declare_default v desc p). by rewrite (update_at _ _ _ _ Hp).
  - mstep (eq_refl (lift (Ok (m_default_value p)) m)). cbn [Equals string_codec].
    destruct (negb (bool_decide (v = m_default_value p)) && m_is_default p).
    + exists (SetValue v p). by rewrite (update_at _ _ _ _ Hp).
    + exists p. split; [|done]. cbn. do 2 f_equal. rewrite insert_id by done. by destruct m.
Qed.

Lemma SetDefaultParameter_ok cs n v desc m :
  all_stored cs m ->
  exists r m', SetDefaultParameter n v desc m = (Ok r, m') /\ all_stored (cs ++ [CDefault n v desc]) m' /\
    value_of (ToLower n) (cs ++ [CDefault n v desc]) = Some r.
Proof.
  intros Hall. pose proof (Hall (ToLower n)) as Hn. unfold SetDefaultParameter. rewrite M_bind_gets.
  change (FindParameter n m) with (m_parameters m !! ToLower n).
  destruct (m_parameters m !! ToLower n) as [p|] eqn:Hp.
  - destruct (redeclare n v desc p m Hp) as (q & Hstep & Hq). mstep Hstep.
    rewrite (use_parameter n q) by (cbn; by rewrite lookup_insert_eq).
    pose proof (stored_default _ _ v desc _ Hn) as Hst. rewrite <- Hq in Hst.
    do 2 eexists. split; [done|]. split; [|apply Hst].
    eapply all_stored_insert; [done..|exact Hst|]. cbn. by rewrite insert_insert_eq.
  - set (m1 := set_parameters (<[ToLower n := make_parameter n v v desc true true]> (m_parameters m)) m).
    pose proof (stored_new_default _ _ v desc Hn) as Hst.
    mstep (eq_refl (@Ok unit tt, m1)).
    rewrite (use_parameter n (make_parameter n v v desc true true)) by (cbn; by rewrite lookup_insert_eq).
    do 2 eexists. split; [done|]. split; [|apply Hst].
    eapply all_stored_insert; [done..|exact Hst|]. cbn. by rewrite insert_insert_eq.
Qed.

Lemma run_call_ok cs c m :
  all_stored cs m -> exists m', run_call c m = (Ok tt, m') /\ all_stored (cs ++ [c]) m'.
Proof.
  intros Hall. destruct c as [n v|n v desc|n]; cbn [run_call].
  - pose proof (Hall (ToLower n)) as Hn. unfold SetParameter. rewrite M_bind_gets.
    change (FindParameter n m) with (m_parameters m !! ToLower n). destruct (m_parameters m !! ToLower n) as [p|] eqn:Hp.
    + rewrite (update_at _ _ _ _ Hp). eexists. split; [done|]. eapply all_stored_insert; [done..| |done].
      eapply stored_set; [exact Hn|done..| |done]. by intros q [= <-].
    + eexists. split; [done|]. by eapply all_stored_insert; [done..|eapply stored_set|done].
  - destruct (SetDefaultParameter_ok cs n v desc m Hall) as (r & m' & Hrun & Hm' & _). mstep Hrun. by exists m'.
  - unfold GetParameter. rewrite M_bind_assoc, M_bind_gets.
    change (FindParameter n m) with (m_parameters m !! ToLower n). destruct (m_parameters m !! ToLower n) as [p|] eqn:Hp.
    + rewrite M_bind_assoc. mstep (eq_refl (lift (Ok (m_value p)) m)). rewrite M_bind_assoc.
      mstep (update_at _ (SetIsUsed true) _ _ Hp). eexists. split; [done|]. intros k. apply stored_other; [|done].
      pose proof (Hall k) as Hk. cbn. destruct (decide (k = ToLower n)) as [->|Hne].
      * rewrite lookup_insert_eq. rewrite Hp in Hk. exact Hk.
      * by rewrite lookup_insert_ne.
    + eexists. split; [done|]. intros k. by apply stored_other.
Qed.

Lemma run_calls_ok cs m0 :
  all_stored [] m0 -> exists m, for_each cs run_call m0 = (Ok tt, m) /\ all_stored cs m.
Proof.
  intros H0. induction cs as [|c cs IH] using rev_ind; [by exists m0|]. destruct IH as (m & Hrun & Hm).
  destruct (run_call_ok cs c m Hm) as (m' & Hc & Hm'). exists m'. split; [|done].
  rewrite for_each_app. mstep Hrun. cbn. by mstep Hc.
Qed.

Lemma stored_value cs k o : stored cs k o -> m_value <$> o = value_of k cs.
Proof.
  destruct o as [p|]; [by intros (-> & _)|]. intros [Hs Hd]. unfold value_of. by rewrite Hs, Hd.
Qed.

(** Whatever calls [SetParameter], [SetDefaultParameter] and [GetParameter] are made, in any
    order and under names of any case, none of them throws, and the value of every parameter is then
    the last one a user has set for it or, when no user has set it, the last declared default that
    differs from the first one.  The next component that declares a default of its own gets that
    value back: what a user has set is never overwritten by a default. *)
Theorem user_value_prevails (cs : list call) (name d desc : string) :
  exists m r m',
    for_each cs run_call empty_manager = (Ok tt, m) /\
    (forall k, m_value <$> m_parameters m !! k = value_of k cs) /\
    SetDefaultParameter name d desc m = (Ok r, m') /\
    Some r = match last (set_values (ToLower name) cs) with
             | Some v => Some v
             | None => prevailing (default_values (ToLower name) cs ++ [d])
             end.
Proof.
  destruct (run_calls_ok cs empty_manager) as (m & Hrun & Hm); [intros k; cbn; by rewrite lookup_empty|].
  destruct (SetDefaultParameter_ok cs name d desc m Hm) as (r & m' & Hd & _ & Hr).
  exists m, r, m'. split; [done|]. split; [intros k; apply stored_value, Hm|]. split; [done|].
  rewrite <- Hr. unfold value_of, set_values, default_values. rewrite !omap_app. cbn.
  by rewrite decide_True, app_nil_r.
Qed.

End Parameters.
