(* ===== verification/JStatusBits.v ===== *)
(** * JStatusBits: the status word of an event

    Model of [Compatibility/JStatusBits.h]: a 64-bit word with one bit per status, and the
    descriptions of the bits, which all words of one type share.  A bit is the integer [int(bit)];
    shifting a 64-bit word by a negative amount or by 64 and more is undefined. *)

From Stdlib Require Import Ascii.
From S2P Require Import Prelude JParameterManager.
Import Parameters.
Local Open Scope Z_scope.

Module StatusBits.

(** One word of the type with the table of the type. *)
Record JStatusBits := mkJStatusBits {
  m_status : Z;
  m_status_bit_descriptions : gmap Z string
}.

Definition set_m_status (w : Z) (s : JStatusBits) : JStatusBits := mkJStatusBits w (m_status_bit_descriptions s).
Definition set_descriptions (d : gmap Z string) (s : JStatusBits) : JStatusBits := mkJStatusBits (m_status s) d.

(** [m_status >> bit] and [((uint64_t)1) << bit]. *)
Definition shift_right (w bit : Z) : outcome Z :=
  if (0 <=? bit) && (bit <? 64) then Ok (Z.shiftr w bit) else Undef.

Definition shift_left (w bit : Z) : outcome Z :=
  if (0 <=? bit) && (bit <? 64) then Ok (u64 (Z.shiftl w bit)) else Undef.

Definition SetStatus (status : Z) : M JStatusBits unit := modify (set_m_status status).

Definition GetStatus : M JStatusBits Z := gets m_status.

Definition GetStatusBit (bit : Z) : M JStatusBits bool :=
  w ← gets m_status;
  shifted ← lift (shift_right w bit);
  mret (negb (Z.land shifted 1 =? 0)).

Definition SetStatusBit (bit : Z) (val : bool) : M JStatusBits bool :=
  w ← gets m_status;
  shifted ← lift (shift_right w bit);
  let old_val := negb (Z.land shifted 1 =? 0) in
  mask ← lift (shift_left 1 bit);
  _ ← modify (set_m_status (if val then Z.lor w mask else Z.land w (u64 (Z.lnot mask))));
  mret old_val.

Definition ClearStatusBit (bit : Z) : M JStatusBits bool :=
  w ← gets m_status;
  shifted ← lift (shift_right w bit);
  let old_val := negb (Z.land shifted 1 =? 0) in
  mask ← lift (shift_left 1 bit);
  _ ← modify (set_m_status (Z.land w (u64 (Z.lnot mask))));
  mret old_val.

Definition ClearStatus : M JStatusBits unit := modify (set_m_status 0).

(** The table is keyed by [uint32_t]. *)
Definition SetStatusBitDescription (bit : Z) (description : string) : M JStatusBits unit :=
  d ← gets m_status_bit_descriptions;
  modify (set_descriptions (<[u32 bit := description]> d)).

Definition GetStatusBitDescription (bit : Z) : M JStatusBits string :=
  d ← gets m_status_bit_descriptions;
  mret (default "no description available"%string (d !! u32 bit)).

Definition GetStatusBitDescriptions : M JStatusBits (gmap Z string) := gets m_status_bit_descriptions.

(** Digits as the stream writes them: [digits b n w] has the lowest [n] digits of [w] to base
    [2 ^ b], the highest first. *)
Definition digit (d : Z) : ascii := ascii_of_nat (Z.to_nat (if d <? 10 then 48 + d else 87 + d)).

Fixpoint digits (b : Z) (n : nat) (w : Z) : line :=
  match n with
  | O => []
  | S n => digits b n (Z.shiftr w b) ++ [digit (Z.land w (2 ^ b - 1))]
  end.

Definition eol : line := ["010"%char].

(** The line of bits: [i] counts down from [n - 1], with a bar after every byte. *)
Fixpoint binary_line (n : nat) (w : Z) : line :=
  match n with
  | O => []
  | S i =>
      [digit (Z.land (Z.shiftr w (Z.of_nat i)) 1)] ++ (if Z.of_nat i mod 8 =? 0 then chars "|" else [])
      ++ binary_line i w
  end.

Fixpoint hex_line (n : nat) (w : Z) : line :=
  match n with
  | O => []
  | S i => chars "   0x" ++ digits 4 2 (Z.land (Z.shiftr w (Z.of_nat i * 8)) 255) ++ chars "  " ++ hex_line i w
  end.

(** [setw(2)] with blanks, of a number below 100. *)
Definition two_wide (i : Z) : line :=
  if i <? 10 then [" "%char; digit i] else [digit (i / 10); digit (i mod 10)].

(** The lines of the bits from [i] on that are set or have a description.  Reading
    [m_status_bit_descriptions[i]] puts an empty description in the table where there was none. *)
Fixpoint description_lines (n : nat) (i w : Z) (d : gmap Z string) : line * gmap Z string :=
  match n with
  | O => ([], d)
  | S n =>
      let val := Z.land (Z.shiftr w i) 1 in
      if bool_decide (is_Some (d !! i)) || negb (val =? 0) then
        let described := default EmptyString (d !! i) in
        let '(rest, d') := description_lines n (i + 1) w (<[i := described]> d) in
        (chars "  " ++ [digit val] ++ chars " - [" ++ two_wide i ++ chars "] " ++ chars described ++ eol ++ rest, d')
      else description_lines n (i + 1) w d
  end.

Definition ToString : M JStatusBits line :=
  w ← gets m_status;
  d ← gets m_status_bit_descriptions;
  let '(described, d') := description_lines 64 0 w d in
  _ ← modify (set_descriptions d');
  mret (chars "status: 0x" ++ digits 4 16 w ++ eol
        ++ chars "   bin |" ++ binary_line 64 w ++ eol
        ++ chars "   hex " ++ hex_line 8 w ++ eol
        ++ described ++ eol).

(** ** The word as a set of bits *)

(** What the class promises: a set of the statuses that hold. *)
Inductive op := Assign (status : Z) | Set_ (bit : Z) (val : bool) | Clear (bit : Z) | Get (bit : Z) | ClearAll | Describe (bit : Z) (text : string) | Show_.

Definition run_op (o : op) : M JStatusBits bool :=
  match o with
  | Assign status => _ ← SetStatus status; mret false
  | Set_ bit val => SetStatusBit bit val
  | Clear bit => ClearStatusBit bit
  | Get bit => GetStatusBit bit
  | ClearAll => _ ← ClearStatus; mret false
  | Describe bit t => _ ← SetStatusBitDescription bit t; mret false
  | Show_ => _ ← ToString; mret false
  end.

Definition bits_of (w : Z) : gset Z := list_to_set (filter (fun i => Z.testbit w i = true) (seqZ 0 64)).

Definition spec_op (o : op) (s : gset Z) : bool * gset Z :=
  match o with
  | Assign status => (false, bits_of status)
  | Set_ bit val => (bool_decide (bit ∈ s), if val then {[bit]} ∪ s else s ∖ {[bit]})
  | Clear bit => (bool_decide (bit ∈ s), s ∖ {[bit]})
  | Get bit => (bool_decide (bit ∈ s), s)
  | ClearAll => (false, ∅)
  | Describe _ _ | Show_ => (false, s)
  end.

Definition op_ok (o : op) : bool :=
  match o with
  | Assign status => (0 <=? status) && (status <? 2 ^ 64)
  | Set_ bit _ | Clear bit | Get bit => (0 <=? bit) && (bit <? 64)
  | _ => true
  end.

Fixpoint run_ops (os : list op) : M JStatusBits (list bool) :=
  match os with
  | [] => mret []
  | o :: os => b ← run_op o; bs ← run_ops os; mret (b :: bs)
  end.

Fixpoint spec_ops (os : list op) (s : gset Z) : list bool * gset Z :=
  match os with
  | [] => ([], s)
  | o :: os => let '(b, s) := spec_op o s in let '(bs, s) := spec_ops os s in (b :: bs, s)
  end.

(** The word has 64 bits and holds the statuses of the set. *)
Record represents (w : Z) (s : gset Z) : Prop := {
  rep_range : 0 <= w < 2 ^ 64;
  rep_bits : forall i, 0 <= i -> Z.testbit w i = bool_decide (i ∈ s);
  rep_members : forall i, i ∈ s -> 0 <= i < 64
}.

Lemma represents_bits_of w : 0 <= w < 2 ^ 64 -> represents w (bits_of w).
Proof.
  intros Hw. split; [done| |].
  - intros i Hi. unfold bits_of. destruct (Z.testbit w i) eqn:Ht; symmetry.
    + apply bool_decide_eq_true. rewrite elem_of_list_to_set, list_elem_of_filter, elem_of_seqZ. split; [done|].
      destruct (decide (i < 64)); [lia|]. exfalso.
      rewrite Z.bits_above_log2 in Ht; [done|lia|]. destruct (decide (w = 0)) as [->|]; [cbn; lia|].
      apply Z.log2_lt_pow2; [lia|]. apply (Z.lt_le_trans _ (2 ^ 64)); [lia|]. apply Z.pow_le_mono_r; lia.
    + apply bool_decide_eq_false. rewrite elem_of_list_to_set, list_elem_of_filter. intros [? _]. congruence.
  - intros i. unfold bits_of. rewrite elem_of_list_to_set, list_elem_of_filter, elem_of_seqZ. lia.
Qed.

Lemma bit_read w bit : 0 <= bit -> negb (Z.land (Z.shiftr w bit) 1 =? 0) = Z.testbit w bit.
Proof.
  intros Hb. change 1 with (Z.ones 1). rewrite Z.land_ones by lia. change (2 ^ 1) with 2.
  rewrite <- Z.bit0_mod, Z.shiftr_spec, Z.add_0_l by lia. by destruct (Z.testbit w bit).
Qed.

Lemma shifts_ok bit w : 0 <= bit < 64 -> shift_right w bit = Ok (Z.shiftr w bit) /\ shift_left 1 bit = Ok (2 ^ bit).
Proof.
  intros Hb. unfold shift_right, shift_left.
  rewrite (proj2 (Z.leb_le 0 bit)), (proj2 (Z.ltb_lt bit 64)) by lia. cbn [andb]. split; [done|].
  rewrite Z.shiftl_1_l, u64_small; [done|]. split; [apply Z.pow_nonneg; lia|apply Z.pow_lt_mono_r; lia].
Qed.

Lemma testbit_not_mask bit i : 0 <= bit < 64 -> 0 <= i < 64 ->
  Z.testbit (u64 (Z.lnot (2 ^ bit))) i = negb (bool_decide (i = bit)).
Proof.
  intros Hb Hi. unfold u64. rewrite Z.mod_pow2_bits_low, Z.lnot_spec by lia.
  rewrite Z.pow2_bits_eqb by lia. f_equal.
  destruct (Z.eqb_spec bit i); symmetry; [by apply bool_decide_eq_true|apply bool_decide_eq_false; congruence].
Qed.

(** A word whose bits are those of a set of positions below 64 represents it. *)
Lemma represents_of_bits w (s : gset Z) :
  0 <= w -> (forall i, 0 <= i -> Z.testbit w i = bool_decide (i ∈ s)) -> (forall i, i ∈ s -> 0 <= i < 64) -> represents w s.
Proof.
  intros Hw Hbits Hm. split; [|done|done]. split; [done|].
  destruct (decide (w = 0)) as [->|]; [lia|]. apply Z.log2_lt_pow2; [lia|].
  assert (Ht : Z.testbit w (Z.log2 w) = true) by (apply Z.bit_log2; lia).
  rewrite Hbits in Ht by apply Z.log2_nonneg. apply bool_decide_eq_true, Hm in Ht. lia.
Qed.

Lemma represents_set w s bit : 0 <= bit < 64 -> represents w s -> represents (Z.lor w (2 ^ bit)) ({[bit]} ∪ s).
Proof.
  intros Hb [Hr Hbits Hm]. apply represents_of_bits.
  - apply Z.lor_nonneg. split; [lia|apply Z.pow_nonneg; lia].
  - intros i Hi. rewrite Z.lor_spec, Hbits, Z.pow2_bits_eqb by lia.
    destruct (Z.eqb_spec bit i) as [->|]; [rewrite orb_true_r|rewrite orb_false_r];
      apply bool_decide_ext || (symmetry; apply bool_decide_eq_true); set_solver.
  - intros i [->%elem_of_singleton|Hi]%elem_of_union; [done|by apply Hm].
Qed.

Lemma represents_clear w s bit : 0 <= bit < 64 -> represents w s ->
  represents (Z.land w (u64 (Z.lnot (2 ^ bit)))) (s ∖ {[bit]}).
Proof.
  intros Hb [Hr Hbits Hm]. apply represents_of_bits.
  - apply Z.land_nonneg. left. lia.
  - intros i Hi. rewrite Z.land_spec, Hbits by lia. destruct (decide (i < 64)).
    + rewrite testbit_not_mask by lia. case_bool_decide; case_bool_decide; cbn; symmetry;
        first [apply bool_decide_eq_true|apply bool_decide_eq_false]; set_solver.
    + assert (i ∉ s) by (intros ?%Hm; lia). rewrite bool_decide_eq_false_2 by done. symmetry.
      apply bool_decide_eq_false. set_solver.
  - intros i [Hi _]%elem_of_difference. by apply Hm.
Qed.

Lemma get_bit_spec bit st s : 0 <= bit < 64 -> represents (m_status st) s ->
  GetStatusBit bit st = (Ok (bool_decide (bit ∈ s)), st).
Proof.
  intros Hb Hrep. unfold GetStatusBit. rewrite M_bind_gets. destruct (shifts_ok bit (m_status st) Hb) as [Hr _].
  rewrite (M_bind_lift _ _ _ _ Hr), bit_read by lia. by rewrite (rep_bits _ _ Hrep) by lia.
Qed.

Lemma set_bit_spec bit val st s : 0 <= bit < 64 -> represents (m_status st) s ->
  exists w, SetStatusBit bit val st = (Ok (bool_decide (bit ∈ s)), set_m_status w st)
    /\ represents w (if val then {[bit]} ∪ s else s ∖ {[bit]}).
Proof.
  intros Hb Hrep. unfold SetStatusBit. rewrite M_bind_gets. destruct (shifts_ok bit (m_status st) Hb) as [Hr Hl].
  rewrite (M_bind_lift _ _ _ _ Hr), bit_read by lia. rewrite (M_bind_lift _ _ _ _ Hl), M_bind_modify.
  rewrite (rep_bits _ _ Hrep) by lia. eexists. split; [done|].
  destruct val; [by apply represents_set|by apply represents_clear].
Qed.

Lemma op_refines o st s : op_ok o = true -> represents (m_status st) s ->
  exists st', run_op o st = (Ok (spec_op o s).1, st') /\ represents (m_status st') (spec_op o s).2.
Proof.
  intros Hok Hrep. destruct o as [status|bit val|bit|bit| |bit t|]; cbn [op_ok] in Hok;
    try (apply andb_true_iff in Hok; destruct Hok as [H1%Z.leb_le H2%Z.ltb_lt]).
  - exists (set_m_status status st). split; [done|]. exact (represents_bits_of status (conj H1 H2)).
  - destruct (set_bit_spec bit val st s) as (w & Hw & Hr); [lia|done|]. eauto.
  - destruct (set_bit_spec bit false st s) as (w & Hw & Hr); [lia|done|]. eauto.
  - cbn [run_op]. rewrite (get_bit_spec bit st s); [eauto|lia|done].
  - exists (set_m_status 0 st). split; [done|]. apply represents_of_bits; [done| |set_solver].
    intros i _. rewrite Z.bits_0. symmetry. apply bool_decide_eq_false. set_solver.
  - eexists. split; [done|]. apply Hrep.
  - cbn [run_op spec_op]. unfold ToString. rewrite M_bind_assoc, M_bind_gets, M_bind_assoc, M_bind_gets.
    destruct (description_lines _ _ _ _). eexists. split; [done|]. apply Hrep.
Qed.

Lemma ops_refine os : forall st s, forallb op_ok os = true -> represents (m_status st) s ->
  exists st', run_ops os st = (Ok (spec_ops os s).1, st') /\ represents (m_status st') (spec_ops os s).2.
Proof.
  induction os as [|o os IH]; intros st s Hok Hrep; [by exists st|].
  cbn [forallb] in Hok. apply andb_true_iff in Hok as [Ho Hos]. cbn [run_ops spec_ops].
  destruct (op_refines o st s Ho Hrep) as (st1 & H1 & Hrep1). rewrite (M_bind_ok _ _ _ _ _ H1).
  destruct (spec_op o s) as [b s1]. cbn [fst snd] in *.
  destruct (IH st1 s1 Hos Hrep1) as (st2 & H2 & Hrep2). rewrite (M_bind_ok _ _ _ _ _ H2).
  destruct (spec_ops os s1) as [bs s2]. by exists st2.
Qed.

(** C39: Over any sequence of calls with bits from 0 to 63 and 64-bit words, the status word is the set
    of the bits that hold: every call returns the value the bit had before, only the bit named changes,
    printing and describing change none, and the word stays within 64 bits. *)
Theorem status_word_is_a_set os st : 0 <= m_status st < 2 ^ 64 -> forallb op_ok os = true ->
  exists st', run_ops os st = (Ok (spec_ops os (bits_of (m_status st))).1, st')
    /\ 0 <= m_status st' < 2 ^ 64
    /\ (forall i, 0 <= i < 64 -> Z.testbit (m_status st') i = bool_decide (i ∈ (spec_ops os (bits_of (m_status st))).2)).
Proof.
  intros Hw Hok. destruct (ops_refine os st _ Hok (represents_bits_of _ Hw)) as (st' & Hrun & [Hr Hbits _]).
  exists st'. repeat split; [done|apply Hr|apply Hr|]. intros i Hi. apply Hbits. lia.
Qed.

Definition demo_ops : list op := [Set_ 5 true; Set_ 63 true; Show_; Clear 5; Get 5; Get 63].
Definition demo : JStatusBits := mkJStatusBits 3 ∅.

Lemma status_word_is_a_set_witness :
  exists st', run_ops demo_ops demo = (Ok [false; false; false; true; false; true], st') /\ m_status st' = 2 ^ 63 + 3.
Proof.
  destruct (status_word_is_a_set demo_ops demo ltac:(vm_compute; split; congruence) ltac:(vm_compute; reflexivity)) as (st' & Hrun & _).
  exists st'. split; [rewrite Hrun; vm_compute; reflexivity|].
  assert (Hst : st' = (run_ops demo_ops demo).2) by (rewrite Hrun; reflexivity).
  rewrite Hst. vm_compute. reflexivity.
Defined.

(** ** What [ToString] shows *)

Definition digit_value (c : ascii) : Z := let n := Z.of_nat (nat_of_ascii c) in if n <? 58 then n - 48 else n - 87.

Definition number (b : Z) (ds : line) : Z := foldl (fun v c => v * 2 ^ b + digit_value c) 0 ds.

Lemma digit_value_digit d : 0 <= d < 16 -> digit_value (digit d) = d.
Proof.
  intros Hd. assert (Hin : d ∈ seqZ 0 16) by (apply elem_of_seqZ; lia). revert d Hin Hd.
  apply (proj1 (Forall_forall (fun d => 0 <= d < 16 -> digit_value (digit d) = d) (seqZ 0 16))).
  repeat (apply Forall_cons; split; [intros _; reflexivity|]). apply Forall_nil. done.
Qed.

Lemma number_digits b n : 0 < b <= 4 -> forall w, number b (digits b n w) = w mod 2 ^ (b * Z.of_nat n).
Proof.
  intros Hb. induction n as [|n IH]; intros w.
  - cbn [digits]. rewrite Z.mul_0_r, Z.mod_1_r. done.
  - cbn [digits]. unfold number in *. rewrite foldl_app. cbn [foldl]. rewrite IH.
    assert (Hp : 0 < 2 ^ b) by (apply Z.pow_pos_nonneg; lia).
    assert (Hq : 0 < 2 ^ (b * Z.of_nat n)) by (apply Z.pow_pos_nonneg; lia).
    assert (H16 : 2 ^ b <= 16) by (change 16 with (2 ^ 4); apply Z.pow_le_mono_r; lia).
    replace (2 ^ b - 1) with (Z.ones b) by (rewrite Z.ones_equiv; lia). rewrite Z.land_ones by lia.
    pose proof (Z.mod_pos_bound w (2 ^ b) Hp). rewrite digit_value_digit by lia.
    rewrite Z.shiftr_div_pow2 by lia.
    replace (b * Z.of_nat (S n)) with (b + b * Z.of_nat n) by lia.
    rewrite Z.pow_add_r, Z.rem_mul_r by lia. lia.
Qed.

(** The part of the first line after the label. *)
Definition shown_word (out : line) : line := take 16 (drop 10 out).

(** The text shows the word exactly: the sixteen hexadecimal digits of the first line are its value.
    Afterwards every bit that is set has a description, an empty one where there was none. *)
Lemma shown_status_reads_back st : 0 <= m_status st < 2 ^ 64 ->
  exists out st', ToString st = (Ok out, st') /\ number 4 (shown_word out) = m_status st.
Proof.
  intros Hw. unfold ToString. rewrite M_bind_gets, M_bind_gets.
  destruct (description_lines 64 0 (m_status st) (m_status_bit_descriptions st)) as [described d'].
  rewrite M_bind_modify. eexists _, _. split; [reflexivity|].
  unfold shown_word. rewrite drop_app_length' by reflexivity.
  rewrite take_app_length' by reflexivity. rewrite number_digits by lia. by apply Z.mod_small.
Qed.

(** Printing the word changes the table: a bit that is set and has no description gets an empty one,
    and is then listed as described. *)
Example printing_describes_bits :
  let st := (ToString demo).2 in
  (GetStatusBitDescription 1 demo).1 = Ok "no description available"%string /\ (GetStatusBitDescription 1 st).1 = Ok EmptyString.
Proof. split; vm_compute; reflexivity. Qed.

End StatusBits.
