(* ===== verification/JStreamLog.v ===== *)
(** * JStreamLog: log streams that several threads write to

    Model of [Compatibility/JStreamLogBuffer.cc] and [JStreamLog.cc].  Every character goes through [overflow], which is taken
    apart at its locks: a reader/writer lock protects the map of buffers, one buffer for each thread, and a mutex the
    stream behind.  [step_thread] is what a thread does next, or [None] if it waits for a lock or has nothing to
    write.  Threads are numbers; the text of the current time is an argument of a step. *)

From Stdlib Require Import Ascii.
From stdpp Require Import functions pretty.
From S2P Require Import Prelude JParameterManager.
Import Parameters.

Module StreamLog.

(** ** The buffer *)

Record JStreamLogBuffer := mkBuffer { tag : line; prepend_timestamp : bool; prepend_threadstamp : bool }.

Definition new_buffer (t : line) : JStreamLogBuffer := mkBuffer t false false.
Definition SetTag (t : line) (b : JStreamLogBuffer) : JStreamLogBuffer := mkBuffer t (prepend_timestamp b) (prepend_threadstamp b).
Definition SetTimestampFlag (f : bool) (b : JStreamLogBuffer) : JStreamLogBuffer := mkBuffer (tag b) f (prepend_threadstamp b).
Definition SetThreadstampFlag (f : bool) (b : JStreamLogBuffer) : JStreamLogBuffer := mkBuffer (tag b) (prepend_timestamp b) f.

Definition getThreadStamp (t : Z) : line := chars "thr=" ++ chars (pretty t).

(** What is put in front of a line. *)
Definition stamped (b : JStreamLogBuffer) (time : line) (t : Z) (copy_out : line) : line :=
  (if prepend_timestamp b then time ++ chars " # " else []) ++
  (if prepend_threadstamp b then getThreadStamp t ++ chars " # " else []) ++ tag b ++ copy_out.

(** Where a thread is in [overflow]; [c] is the character. *)
Inductive Place :=
  | Idle
  | Finding (c : ascii)        (* holds the lock for reading *)
  | WantWrite (c : ascii)      (* waits for the lock for writing *)
  | Inserted (c : ascii)       (* holds the lock for writing *)
  | WantRead (c : ascii)       (* waits for the lock for reading *)
  | Appending (c : ascii)      (* holds the lock for reading *)
  | Releasing (copy_out : line) (* holds the lock for reading *)
  | WantMutex (copy_out : line)
  | Putting (rest : line).     (* holds the mutex *)

Record State := mkState {
  todo : Z -> line;              (* what each thread has yet to write *)
  place : Z -> Place;
  thr_buffers : gmap Z line;
  readers : gset Z; writer : option Z;
  mutex : option Z;
  output : line                  (* what has gone to the stream behind *)
}.

Definition move (t : Z) (p : Place) (s : State) : State :=
  mkState (todo s) (<[t := p]> (place s)) (thr_buffers s) (readers s) (writer s) (mutex s) (output s).
Definition set_buffer (t : Z) (l : line) (s : State) : State :=
  mkState (todo s) (place s) (<[t := l]> (thr_buffers s)) (readers s) (writer s) (mutex s) (output s).
Definition set_readers (r : gset Z) (s : State) : State :=
  mkState (todo s) (place s) (thr_buffers s) r (writer s) (mutex s) (output s).
Definition set_writer (w : option Z) (s : State) : State :=
  mkState (todo s) (place s) (thr_buffers s) (readers s) w (mutex s) (output s).
Definition set_mutex (m : option Z) (s : State) : State :=
  mkState (todo s) (place s) (thr_buffers s) (readers s) (writer s) m (output s).
Definition set_todo (t : Z) (l : line) (s : State) : State :=
  mkState (<[t := l]> (todo s)) (place s) (thr_buffers s) (readers s) (writer s) (mutex s) (output s).
Definition sputc (c : ascii) (s : State) : State :=
  mkState (todo s) (place s) (thr_buffers s) (readers s) (writer s) (mutex s) (output s ++ [c]).

Definition is_end (c : ascii) : bool := Ascii.eqb c "010" || Ascii.eqb c "013".

Definition step_thread (b : JStreamLogBuffer) (time : line) (t : Z) (s : State) : option State :=
  match place s t with
  | Idle =>
      match todo s t, writer s with
      | c :: rest, None => Some (move t (Finding c) (set_readers ({[t]} ∪ readers s) (set_todo t rest s)))
      | _, _ => None
      end
  | Finding c =>
      match thr_buffers s !! t with
      | Some _ => Some (move t (Appending c) s)
      | None => Some (move t (WantWrite c) (set_readers (readers s ∖ {[t]}) s))
      end
  | WantWrite c =>
      match writer s with
      | None => if decide (readers s = ∅) then Some (move t (Inserted c) (set_buffer t [] (set_writer (Some t) s))) else None
      | Some _ => None
      end
  | Inserted c => Some (move t (WantRead c) (set_writer None s))
  | WantRead c =>
      match writer s with
      | None => Some (move t (Appending c) (set_readers ({[t]} ∪ readers s) s))
      | Some _ => None
      end
  | Appending c =>
      let str := default [] (thr_buffers s !! t) ++ [c] in
      Some (if is_end c then move t (Releasing str) (set_buffer t [] s) else move t (Releasing []) (set_buffer t str s))
  | Releasing copy_out =>
      Some (move t (if decide (copy_out = []) then Idle else WantMutex (stamped b time t copy_out)) (set_readers (readers s ∖ {[t]}) s))
  | WantMutex copy_out =>
      match mutex s with
      | None => Some (move t (Putting copy_out) (set_mutex (Some t) s))
      | Some _ => None
      end
  | Putting (c :: rest) => Some (move t (Putting rest) (sputc c s))
  | Putting [] => Some (move t Idle (set_mutex None s))
  end.

Definition start (input : Z -> line) : State := mkState input (fun _ => Idle) ∅ ∅ None None [].

(** The states that the threads can bring about, in any order of their steps. *)
Inductive reached (b : JStreamLogBuffer) (input : Z -> line) : State -> Prop :=
  | reached_start : reached b input (start input)
  | reached_step s time t s' : reached b input s -> step_thread b time t s = Some s' -> reached b input s'.

(** The steps of the threads of a list. *)
Fixpoint run (b : JStreamLogBuffer) (schedule : list Z) (s : State) : option State :=
  match schedule with
  | [] => Some s
  | t :: schedule => s' ← step_thread b [] t s; run b schedule s'
  end.

Lemma run_reached b input schedule : forall s s', reached b input s -> run b schedule s = Some s' -> reached b input s'.
Proof.
  induction schedule as [|t l IH]; intros s s' Hr; cbn [run]; [by intros [= <-]|].
  intros (s1 & E & H)%bind_Some. eapply IH; [|exact H]. by eapply reached_step.
Qed.

(** ** Lines stay whole *)

(** A message: the thread, the time, and a line that ends with its only end of line. *)
Abbreviation message := (Z * line * line)%type.
Definition whole (l : line) : Prop := exists body e, l = body ++ [e] /\ is_end e = true /\ Forall (fun c => is_end c = false) body.
Definition written (b : JStreamLogBuffer) (ms : list message) : line := concat ((fun m => stamped b m.1.2 m.1.1 m.2) <$> ms).
Definition lines_of (t : Z) (ms : list message) : list line := snd <$> filter (fun m => m.1.1 = t) ms.

Section Invariant.
Context (b : JStreamLogBuffer) (input : Z -> line).

Definition buffer (s : State) (t : Z) : line := default [] (thr_buffers s !! t).

(** What a thread has written is what its messages have, what it holds at its place, what is in its buffer, and the rest. *)
Definition at_place (s : State) (ms : list message) (t : Z) : Prop :=
  let before := concat (lines_of t ms) in
  match place s t with
  | Idle => input t = before ++ buffer s t ++ todo s t
  | Finding c | Appending c | WantRead c | Inserted c => input t = before ++ buffer s t ++ c :: todo s t
  | WantWrite c => thr_buffers s !! t = None /\ input t = before ++ buffer s t ++ c :: todo s t
  | Releasing copy_out => input t = before ++ copy_out ++ buffer s t ++ todo s t /\ (copy_out = [] \/ (whole copy_out /\ buffer s t = []))
  | WantMutex text => exists time l, text = stamped b time t l /\ whole l /\ buffer s t = [] /\ input t = before ++ l ++ todo s t
  | Putting rest => exists time l, mutex s = Some t /\ written b ms ++ stamped b time t l = output s ++ rest /\ whole l /\ buffer s t = [] /\
      input t = before ++ l ++ todo s t
  end.

Definition reads (p : Place) : bool := match p with Finding _ | Appending _ | Releasing _ => true | _ => false end.
Definition inserts (p : Place) : bool := match p with Inserted _ => true | _ => false end.
Definition puts (p : Place) : bool := match p with Putting _ => true | _ => false end.

Record log_inv (s : State) (ms : list message) : Prop := {
  inv_whole : Forall (fun m => whole m.2) ms;
  inv_place : forall t, at_place s ms t;
  inv_open : forall t, Forall (fun c => is_end c = false) (buffer s t);
  inv_readers : forall t, t ∈ readers s <-> reads (place s t) = true;
  inv_writer : forall t, writer s = Some t <-> inserts (place s t) = true;
  inv_mutex : forall t, mutex s = Some t <-> puts (place s t) = true;
  inv_output : mutex s = None -> output s = written b ms
}.

Lemma inv_start : log_inv (start input) [].
Proof. by split. Qed.

(** A step of a thread leaves the place of the others as it is. *)
Lemma at_place_frame s s' ms ms' u : place s' u = place s u -> todo s' u = todo s u -> thr_buffers s' !! u = thr_buffers s !! u ->
  lines_of u ms' = lines_of u ms -> (puts (place s u) = true -> mutex s' = mutex s /\ output s' = output s /\ ms' = ms) ->
  at_place s ms u -> at_place s' ms' u.
Proof.
  unfold at_place, buffer. intros -> -> -> -> Hp. destruct (place s u); try done. destruct Hp as (-> & -> & ->); done.
Qed.

(** The invariant after a step of [t], which leaves the others alone. *)
Lemma inv_local s s' ms ms' t : log_inv s ms -> Forall (fun m => whole m.2) ms' ->
  (forall u, u <> t -> place s' u = place s u /\ todo s' u = todo s u /\ thr_buffers s' !! u = thr_buffers s !! u /\ lines_of u ms' = lines_of u ms) ->
  (forall u, u <> t -> (u ∈ readers s' <-> u ∈ readers s) /\ (writer s' = Some u <-> writer s = Some u) /\ (mutex s' = Some u <-> mutex s = Some u)) ->
  (mutex s' = mutex s /\ output s' = output s /\ ms' = ms \/ mutex s = None \/ mutex s = Some t) ->
  at_place s' ms' t -> Forall (fun c => is_end c = false) (buffer s' t) ->
  (t ∈ readers s' <-> reads (place s' t) = true) -> (writer s' = Some t <-> inserts (place s' t) = true) ->
  (mutex s' = Some t <-> puts (place s' t) = true) -> (mutex s' = None -> output s' = written b ms') -> log_inv s' ms'.
Proof.
  intros H Hw Hothers Hlocks Hm Ht Hopen Hr Hwr Hmu Ho.
  split; [done| | | | | |done]; intros u; (destruct (decide (u = t)) as [->|Hne]; [done|]); destruct (Hothers u Hne) as (E1 & E2 & E3 & E4), (Hlocks u Hne) as (L1 & L2 & L3).
  - apply (at_place_frame s s' ms ms' u); try done; [|apply H]. intros Hp. apply (inv_mutex s ms H) in Hp as Hu.
    destruct Hm as [?|[Hm|Hm]]; [done|congruence..].
  - unfold buffer. rewrite E3. apply H.
  - rewrite E1, L1. apply H.
  - rewrite E1, L2. apply H.
  - rewrite E1, L3. apply H.
Qed.


Lemma whole_append l c : Forall (fun c => is_end c = false) l -> is_end c = true -> whole (l ++ [c]).
Proof. by exists l, c. Qed.

Lemma lines_of_snoc_ne u t time l ms : u <> t -> lines_of u (ms ++ [(t, time, l)]) = lines_of u ms.
Proof. intros Hne. unfold lines_of. rewrite filter_app, filter_cons_False by (cbn; congruence). by rewrite filter_nil, app_nil_r. Qed.

Lemma lines_of_snoc t time l ms : lines_of t (ms ++ [(t, time, l)]) = lines_of t ms ++ [l].
Proof. unfold lines_of. rewrite filter_app, filter_cons_True by done. by rewrite filter_nil, fmap_app. Qed.

Lemma written_snoc t time l ms : written b (ms ++ [(t, time, l)]) = written b ms ++ stamped b time t l.
Proof. unfold written. rewrite fmap_app, concat_app. cbn. by rewrite app_nil_r. Qed.

Ltac step_local H ms :=
  exists ms; eapply inv_local; [exact H|..]; unfold at_place, buffer in *; cbn;
  rewrite ?fn_lookup_insert, ?lookup_insert_eq; intros; rewrite ?fn_lookup_insert_ne, ?lookup_insert_ne by done; cbn; split_and?; try done;
  rewrite ?elem_of_union, ?elem_of_difference, ?elem_of_singleton; try tauto; try (split; congruence); try (intuition congruence).

(** Every step keeps the invariant; the last of a line adds a message. *)
Lemma inv_step time t s s' ms : log_inv s ms -> step_thread b time t s = Some s' -> exists ms', log_inv s' ms'.
Proof.
  intros H Hs. pose proof (inv_place s ms H t) as Hp. pose proof (inv_open s ms H t) as Ho. pose proof (inv_readers s ms H t) as Hr.
  pose proof (inv_writer s ms H t) as Hw. pose proof (inv_mutex s ms H t) as Hm. pose proof (inv_whole s ms H) as Hwh. pose proof (inv_output s ms H) as Hout.
  unfold step_thread in Hs. unfold at_place, buffer in *. destruct (place s t) as [|c|c|c|c|c|copy|copy|[|c rest]] eqn:Ep.
  - destruct (todo s t) as [|c rest] eqn:Et, (writer s) eqn:Ew; simplify_eq. step_local H ms.
  - destruct (thr_buffers s !! t) eqn:Eb; simplify_eq; step_local H ms.
  - destruct Hp as [Eb Hp]. rewrite Eb in Hp, Ho. destruct (writer s) eqn:Ew; [done|]. case_decide; simplify_eq. step_local H ms.
  - simplify_eq. step_local H ms.
  - destruct (writer s) eqn:Ew; simplify_eq. step_local H ms.
  - destruct (is_end c) eqn:Ee; simplify_eq; step_local H ms.
    + rewrite Hp. by rewrite <- !app_assoc.
    + right. split; [by apply whole_append|done].
    + rewrite Hp. by rewrite <- !app_assoc.
    + apply Forall_app. by split; [|constructor].
  - destruct Hp as [Hp Hc]. simplify_eq. case_decide as Hcopy; step_local H ms; [by subst|].
    destruct Hc as [?|[Hc Hb]]; [done|]. exists time, copy. rewrite Hp, Hb. done.
  - destruct (mutex s) eqn:Em; simplify_eq. step_local H ms. destruct Hp as (time' & l & -> & Hl & Hb & Hi). exists time', l.
    rewrite Hout by done. done.
  - destruct Hp as (time' & l & Hmu & Hpre & Hl & Hb & Hi). simplify_eq. step_local H (ms ++ [(t, time', l)]).
    + by apply Forall_app; split; [|constructor].
    + by apply lines_of_snoc_ne.
    + rewrite lines_of_snoc, concat_app, Hi, Hb. cbn. by rewrite app_nil_r, <- !app_assoc.
    + by rewrite written_snoc, Hpre, app_nil_r.
  - destruct Hp as (time' & l & Hmu & Hpre & Hl & Hb & Hi). simplify_eq. step_local H ms.
    exists time', l. rewrite Hpre, <- app_assoc. done.
Qed.

(** If no thread can go on, all have written all that they had to: no two wait for each other. *)
Lemma stuck_is_done time s ms : log_inv s ms -> (forall t, step_thread b time t s = None) -> mutex s = None /\ forall t, place s t = Idle /\ todo s t = [].
Proof.
  intros H Hs.
  assert (Hp : forall t, match place s t with Finding _ | Inserted _ | Appending _ | Releasing _ | Putting _ => False | _ => True end).
  { intros t. specialize (Hs t). unfold step_thread in Hs. destruct (place s t) as [| | | | | | | |[|]]; try done. by destruct (thr_buffers s !! t). }
  assert (Ew : writer s = None).
  { destruct (writer s) as [t|] eqn:E; [|done]. apply (inv_writer s ms H) in E. specialize (Hp t). by destruct (place s t). }
  assert (Er : readers s = ∅).
  { apply leibniz_equiv, elem_of_equiv_empty. intros t Ht%(inv_readers s ms H). specialize (Hp t). by destruct (place s t). }
  assert (Em : mutex s = None).
  { destruct (mutex s) as [t|] eqn:E; [|done]. apply (inv_mutex s ms H) in E. specialize (Hp t). by destruct (place s t). }
  split; [done|]. intros t. specialize (Hs t). specialize (Hp t). unfold step_thread in Hs. rewrite Ew, Er, Em in Hs.
  destruct (place s t); try done. by destruct (todo s t).
Qed.

Lemma lines_prefix s ms t : log_inv s ms -> concat (lines_of t ms) `prefix_of` input t.
Proof.
  intros H. pose proof (inv_place s ms H t) as Hp. unfold at_place in Hp.
  destruct (place s t); repeat match type of Hp with _ /\ _ => destruct Hp as [? Hp] | exists _, _ => destruct Hp as [? Hp] end; try (rewrite Hp; by apply prefix_app_r).
  match goal with E : input t = _ |- _ => rewrite E end. by apply prefix_app_r.
Qed.

Lemma inv_reached s : reached b input s -> exists ms, log_inv s ms.
Proof.
  induction 1 as [|s time t s' _ [ms H] Hs]; [exists []; apply inv_start|]. by eapply inv_step.
Qed.

End Invariant.

(** ** Every run ends *)

(** How far a thread is from being idle with nothing to write, and what it has yet to put. *)
Definition ahead (p : Place) : nat :=
  match p with
  | Idle => 0 | Finding _ => 8 | WantWrite _ => 7 | Inserted _ => 6 | WantRead _ => 5 | Appending _ => 4 | Releasing _ => 3
  | WantMutex _ => 2 | Putting _ => 1
  end.
Definition phase (s : State) (t : Z) : nat := (9 * length (todo s t) + ahead (place s t))%nat.
Definition unput (s : State) (t : Z) : nat := match place s t with Putting rest => length rest | _ => 0%nat end.

Lemma step_gets_ahead b time t s s' : step_thread b time t s = Some s' ->
  (forall u, u <> t -> place s' u = place s u /\ todo s' u = todo s u) /\ (place s t <> Idle \/ todo s t <> []) /\
  ((phase s' t < phase s t)%nat \/ phase s' t = phase s t /\ (unput s' t < unput s t)%nat).
Proof.
  unfold step_thread. intros H.
  destruct (place s t) as [|c|c|c|c|c|copy|copy|[|c rest]] eqn:Ep; repeat case_match; simplify_eq; unfold phase, unput; cbn;
    rewrite ?fn_lookup_insert, ?Ep; (split; [intros u Hu; rewrite ?fn_lookup_insert_ne by done; done|]);
    (split; [by first [left; congruence|right; congruence]|]); cbn;
    repeat match goal with E : todo s t = _ |- _ => rewrite E end; cbn; lia.
Qed.

Lemma sum_smaller (f g : Z -> nat) t ts : NoDup ts -> t ∈ ts -> (forall u, u <> t -> g u = f u) ->
  (sum_list_with g ts + f t = sum_list_with f ts + g t)%nat.
Proof.
  intros Hnd Hin Hg. assert (Hout : forall l, t ∉ l -> sum_list_with g l = sum_list_with f l).
  { induction l as [|u l IH]; [done|]. intros [Hu Hl]%not_elem_of_cons. cbn. by rewrite IH, Hg. }
  induction ts as [|u ts IH]; [by apply not_elem_of_nil in Hin|]. apply NoDup_cons in Hnd as [Hu Hnd]. cbn.
  apply elem_of_cons in Hin as [->|Hin]; [rewrite Hout by done; lia|]. rewrite Hg by (intros ->; done). specialize (IH Hnd Hin). lia.
Qed.

Definition later (b : JStreamLogBuffer) (s' s : State) : Prop := exists time t, step_thread b time t s = Some s'.

(** With finitely many threads that have something to write, no run goes on forever. *)
Lemma runs_end b ts : NoDup ts -> forall n m s, (forall t, t ∉ ts -> place s t = Idle /\ todo s t = []) ->
  sum_list_with (phase s) ts = n -> sum_list_with (unput s) ts = m -> Acc (later b) s.
Proof.
  intros Hnd n. induction n as [n IHn] using lt_wf_ind. intros m. induction m as [m IHm] using lt_wf_ind.
  intros s Hout Hn Hm. constructor. intros s' (time & t & Hs). destruct (step_gets_ahead _ _ _ _ _ Hs) as (Hsame & Hwas & Hless).
  assert (Ht : t ∈ ts) by (destruct (decide (t ∈ ts)) as [|Hno]; [done|]; destruct (Hout t Hno), Hwas; done).
  assert (Hout' : forall u, u ∉ ts -> place s' u = Idle /\ todo s' u = []).
  { intros u Hu. destruct (Hsame u) as [-> ->]; [by intros ->|by apply Hout]. }
  pose proof (sum_smaller (phase s) (phase s') t ts Hnd Ht ltac:(intros u Hu; unfold phase; by destruct (Hsame u Hu) as [-> ->])) as E1.
  pose proof (sum_smaller (unput s) (unput s') t ts Hnd Ht ltac:(intros u Hu; unfold unput; by destruct (Hsame u Hu) as [-> _])) as E2.
  destruct Hless as [Hless|[Heq Hless]].
  - eapply IHn; [|done|done|done]. lia.
  - eapply IHm; [|done| |done]; lia.
Qed.

(** If only the threads of [ts] have something to write, the others never start. *)
Lemma reached_ends b input (ts : list Z) s : (forall t, t ∉ ts -> input t = []) -> reached b input s -> Acc (later b) s.
Proof.
  intros Hin. induction 1 as [|s time t s' _ IH Hs]; [|by apply (Acc_inv IH); exists time, t].
  eapply (runs_end b (remove_dups ts)); [apply NoDup_remove_dups| |done|done]. intros t Ht. cbn. split; [done|]. apply Hin. by rewrite <- elem_of_remove_dups.
Qed.

(** C23: lines of different threads are never mixed, and none is lost.  Whatever the order in which the threads take
    their steps, the output is at any time the beginning of a sequence of whole lines with their stamps, in which each thread's
    lines are the first ones that it wrote, in its order.  If finitely many threads write, every run comes to its end: from no state there is an
    infinite sequence of steps.  And at the end, when no thread can go on, every thread has
    written all it had to, and all that is missing in the output is text behind a thread's last end of line. *)
Theorem lines_stay_whole b input s : reached b input s ->
  (exists ms, Forall (fun m => whole m.2) ms /\ output s `prefix_of` written b ms /\ forall t, concat (lines_of t ms) `prefix_of` input t) /\
  (forall ts : list Z, (forall t, t ∉ ts -> input t = []) -> Acc (later b) s) /\
  forall time, (forall t, step_thread b time t s = None) ->
    exists ms, Forall (fun m => whole m.2) ms /\ output s = written b ms /\
      forall t, todo s t = [] /\ input t = concat (lines_of t ms) ++ buffer s t /\ Forall (fun c => is_end c = false) (buffer s t).
Proof.
  intros Hreach. pose proof Hreach as [ms H]%inv_reached. pose proof (inv_place _ _ s ms H) as Hp. split; [|split; [intros ts Hts; by eapply reached_ends|]].
  - destruct (mutex s) as [u|] eqn:Em.
    + assert (Hu := proj1 (inv_mutex _ _ s ms H u) Em). specialize (Hp u) as Hpu. unfold at_place in Hpu. destruct (place s u); try done.
      destruct Hpu as (time & l & _ & Hpre & Hl & _ & Hi). exists (ms ++ [(u, time, l)]). rewrite written_snoc, Hpre. split_and!.
      * apply Forall_app. split; [apply H|by constructor].
      * by apply prefix_app_r.
      * intros t. destruct (decide (t = u)) as [->|Hne].
        -- rewrite lines_of_snoc, concat_app. cbn. rewrite app_nil_r, Hi, app_assoc. by apply prefix_app_r.
        -- rewrite lines_of_snoc_ne by done. by eapply lines_prefix.
    + exists ms. split_and!; [apply H|by rewrite (inv_output _ _ s ms H Em)|]. intros t. by eapply lines_prefix.
  - intros time Hstuck. destruct (stuck_is_done _ _ time s ms H Hstuck) as [Em Hdone]. exists ms. split_and!; [apply H|by apply H|].
    intros t. destruct (Hdone t) as [Et Ed]. specialize (Hp t). unfold at_place in Hp. rewrite Et, Ed in Hp. rewrite app_nil_r in Hp.
    split_and!; [done|done|apply H].
Qed.

Definition two_threads (t : Z) : line := if decide (t = 1%Z) then ["a"; "010"]%char else if decide (t = 2%Z) then ["b"; "010"; "c"]%char else [].

(** The second thread writes a line while the first is in the middle of its own, and the first comes to the mutex before it is free. *)
Definition a_schedule : list Z := replicate 7 1%Z ++ replicate 13 2%Z ++ replicate 4 1%Z ++ replicate 3 2%Z ++ replicate 5 1%Z ++ replicate 4 2%Z.

Lemma lines_stay_whole_witness : exists s, reached (new_buffer (chars ">")) two_threads s /\ text (output s) = (">b" +:+ text ["010"%char] +:+ ">a" +:+ text ["010"%char])%string
  /\ exists ms, output s `prefix_of` written (new_buffer (chars ">")) ms.
Proof.
  destruct (run (new_buffer (chars ">")) a_schedule (start two_threads)) as [s|] eqn:E; [|by vm_compute in E].
  assert (Hr : reached (new_buffer (chars ">")) two_threads s) by (eapply run_reached; [apply reached_start|exact E]).
  exists s. split_and!; [exact Hr|by vm_compute in E; simplify_eq|]. destruct (proj1 (lines_stay_whole _ _ _ Hr)) as (ms & _ & Hms & _). by exists ms.
Defined.

End StreamLog.

(** ** The stream *)

Module Stream.
Import StreamLog.

(** [rdbuf] is the buffer if the stream has one and it is a [JStreamLogBuffer]. *)
Record JStreamLog := mkStream { rdbuf : option JStreamLogBuffer; own_rdbuf : bool }.

Definition new_stream (t : line) : JStreamLog := mkStream (Some (new_buffer t)) true.

(** The destructor; also whether it deletes the buffer. *)
Definition destroy (s : JStreamLog) : bool * JStreamLog :=
  if own_rdbuf s then (bool_decide (is_Some (rdbuf s)), mkStream None false) else (false, mkStream (rdbuf s) false).

Definition GetTag (s : JStreamLog) : line := match rdbuf s with Some b => tag b | None => chars "unknown" end.
Definition GetTimestampFlag (s : JStreamLog) : bool := match rdbuf s with Some b => prepend_timestamp b | None => false end.
Definition GetThreadstampFlag (s : JStreamLog) : bool := match rdbuf s with Some b => prepend_threadstamp b | None => false end.

Definition change (f : JStreamLogBuffer -> JStreamLogBuffer) (s : JStreamLog) : JStreamLog := mkStream (f <$> rdbuf s) (own_rdbuf s).
Definition SetTag (t : line) : JStreamLog -> JStreamLog := change (StreamLog.SetTag t).
Definition SetTimestampFlag (f : bool) : JStreamLog -> JStreamLog := change (StreamLog.SetTimestampFlag f).
Definition SetThreadstampFlag (f : bool) : JStreamLog -> JStreamLog := change (StreamLog.SetThreadstampFlag f).

(** The buffer is deleted once, however often the destructor runs. *)
Lemma deleted_once s n : own_rdbuf s = true -> is_Some (rdbuf s) -> (destroy s).1 = true /\ (destroy (Nat.iter n (fun s => (destroy s).2) (destroy s).2)).1 = false.
Proof.
  intros Ho Hb. assert (E : destroy s = (true, mkStream None false)) by (unfold destroy; by rewrite Ho, bool_decide_true).
  rewrite E. split; [done|]. cbn [snd]. enough (H : Nat.iter n (fun s => (destroy s).2) (mkStream None false) = mkStream None false) by (by rewrite H).
  induction n as [|n IH]; [done|]. change ((destroy (Nat.iter n (fun s => (destroy s).2) (mkStream None false))).2 = mkStream None false). by rewrite IH.
Qed.

(** What the next line gets in front is what was set. *)
Lemma settings_stamp s b t time thread l : rdbuf s = Some b ->
  exists b', rdbuf (SetTag t (SetTimestampFlag true (SetThreadstampFlag true s))) = Some b' /\
    stamped b' time thread l = time ++ chars " # " ++ getThreadStamp thread ++ chars " # " ++ t ++ l.
Proof. intros Hb. cbn. rewrite Hb. eexists. split; [done|]. unfold stamped. cbn. by rewrite <- !app_assoc. Qed.

End Stream.
