(* ===== verification/JObject.v ===== *)
(** * JObject: objects and their associations

    Model of [JObject.h] and of [JCsvWriter.h].  Objects live in a heap by address; [std::set] of
    pointers is a finite set that is iterated in the order of the addresses.  An object has the name
    that [className()] returns and the types that [dynamic_cast] takes it for.  Reading an object that
    was deleted is undefined. *)

From Stdlib Require Import Ascii.
From stdpp Require Import sorting.
From S2P Require Import Prelude JParameterManager.
Import Parameters.
Local Open Scope Z_scope.

Module Objects.

(** What [Summarize] tells about one field of an object. *)
Record JObjectMember := mkMember { field_name : line; field_type : line; field_value : line; field_description : line }.

Abbreviation JObjectSummary := (list JObjectMember).

(** [summary.add(x, name, format, description)]: [printed] is [x] in the format; [snprintf] keeps 255 characters of it. *)
Definition add_value (printed name type_name description : line) (summary : JObjectSummary) : JObjectSummary :=
  summary ++ [mkMember name type_name (take 255 printed) description].

Definition add_member (objectMember : JObjectMember) (summary : JObjectSummary) : JObjectSummary := summary ++ [objectMember].

Record JObject := mkJObject {
  className : string;
  casts_to : list string;
  associated : gset Z;
  auto_delete : gset Z
}.

Abbreviation Heap := (gmap Z JObject).
Abbreviation MH := (M Heap).

Definition in_order (s : gset Z) : list Z := merge_sort Z.le (elements s).

(** Following a pointer. *)
Definition at_ (h : Heap) (p : Z) : outcome JObject := match h !! p with Some o => Ok o | None => Undef end.

Definition deref (p : Z) : MH JObject := fun h => (at_ h p, h).

(** [dynamic_cast<const T*>(p)]: the null pointer, zero, if the object is not of the type. *)
Definition dynamic_cast (T : string) (p : Z) (o : JObject) : Z := if decide (T ∈ casts_to o) then p else 0.

Definition set_associated (s : gset Z) (o : JObject) : JObject := mkJObject (className o) (casts_to o) s (auto_delete o).
Definition set_auto_delete (s : gset Z) (o : JObject) : JObject := mkJObject (className o) (casts_to o) (associated o) s.

Definition update (p : Z) (f : JObject -> JObject) : MH unit :=
  o ← deref p;
  modify (fun h => <[p := f o]> h).

Definition AddAssociatedObject (this obj : Z) : MH unit :=
  _ ← lift (assertb (negb (obj =? 0)));
  update this (fun o => set_associated ({[obj]} ∪ associated o) o).

Definition AddAssociatedObjectAutoDelete (this obj : Z) (auto_del : bool) : MH unit :=
  _ ← AddAssociatedObject this obj;
  if auto_del then update this (fun o => set_auto_delete ({[obj]} ∪ auto_delete o) o) else mret tt.

Definition RemoveAssociatedObject (this obj : Z) : MH unit :=
  update this (fun o => set_associated (associated o ∖ {[obj]}) o).

(** [delete p]: the object is gone; its own objects are not deleted with it. *)
Definition delete_object (p : Z) : MH unit :=
  _ ← deref p;
  modify (fun h => base.delete p h).

Definition ClearAssociatedObjects (this : Z) : MH unit :=
  _ ← update this (set_associated ∅);
  o ← deref this;
  _ ← for_each (in_order (auto_delete o)) delete_object;
  update this (set_auto_delete ∅).

Definition IsAssociated (this obj : Z) : MH bool :=
  o ← deref this;
  mret (bool_decide (obj ∈ associated o)).

(** ** The getters *)

Fixpoint casting (h : Heap) (T : string) (ps : list Z) : outcome (list Z) :=
  match ps with
  | [] => Ok []
  | p :: ps =>
      o ← at_ h p;
      rest ← casting h T ps;
      Ok ((if dynamic_cast T p o =? 0 then [] else [dynamic_cast T p o]) ++ rest)
  end.

Fixpoint of_class (h : Heap) (classname : string) (ps : list Z) : outcome (list Z) :=
  match ps with
  | [] => Ok []
  | p :: ps =>
      o ← at_ h p;
      rest ← of_class h classname ps;
      Ok ((if decide (className o = classname) then [p] else []) ++ rest)
  end.

(** The loop of [GetSingle<T>()]: [found] says what an object counts as, zero for none. *)
Fixpoint single (h : Heap) (found : Z -> JObject -> Z) (ps : list Z) (last_found : Z) : outcome Z :=
  match ps with
  | [] => Ok last_found
  | p :: ps =>
      o ← at_ h p;
      if found p o =? 0 then single h found ps last_found
      else if last_found =? 0 then single h found ps (found p o)
      else throwJ "JObject::GetSingle(): Multiple objects found."
  end.

(** [GetSingle<T>()]: by type, and by the name of the class if there is none. *)
Definition GetSingle (h : Heap) (this : Z) (T : string) : outcome Z :=
  o ← at_ h this;
  last_found ← single h (dynamic_cast T) (in_order (associated o)) 0;
  if last_found =? 0 then single h (fun p o => if decide (className o = T) then p else 0) (in_order (associated o)) 0
  else Ok last_found.

(** [Get<T>()]. *)
Definition Get (h : Heap) (this : Z) (T : string) : outcome (list Z) :=
  o ← at_ h this;
  typed ← casting h T (in_order (associated o));
  match typed with
  | [] => of_class h T (in_order (associated o))
  | _ => Ok typed
  end.

(** [GetT(ptrs)]. *)
Definition GetT (h : Heap) (this : Z) (T : string) : outcome (list Z) :=
  o ← at_ h this;
  casting h T (in_order (associated o)).

(** [GetSingle(t, classname)]: the first object of the class that is of the type; [static_className T] is [T::static_className()]. *)
Fixpoint first_of (h : Heap) (T classname : string) (ps : list Z) : outcome Z :=
  match ps with
  | [] => Ok 0
  | p :: ps =>
      o ← at_ h p;
      if bool_decide (className o = classname) && negb (dynamic_cast T p o =? 0) then Ok (dynamic_cast T p o) else first_of h T classname ps
  end.

Definition GetSingle_classname (static_className : string -> string) (h : Heap) (this : Z) (T classname : string) : outcome Z :=
  o ← at_ h this;
  first_of h T (if decide (classname = EmptyString) then static_className T else classname) (in_order (associated o)).

(** ** The search through all levels *)

Record Search := mkSearch { already_checked : gset Z; objs_found : gset Z }.

(** The loop over the associated objects; [visit] is the call on one of them.  [max_depth] is its value after the decrement. *)
Definition check_all (h : Heap) (T classname : string) (max_depth : Z) (visit : Z -> Search -> outcome Search)
    : list Z -> Search -> outcome Search :=
  fix loop ps s :=
    match ps with
    | [] => Ok s
    | p :: ps =>
        o ← at_ h p;
        let s := if decide (className o = classname) then mkSearch (already_checked s) ({[dynamic_cast T p o]} ∪ objs_found s) else s in
        s ← (if (max_depth <=? 0) || bool_decide (p ∈ already_checked s) then Ok s
             else visit p (mkSearch ({[p]} ∪ already_checked s) (objs_found s)));
        loop ps s
    end.

Fixpoint GetAssociatedAncestors (fuel : nat) (h : Heap) (T classname : string) (this : Z) (max_depth : Z) (s : Search) : outcome Search :=
  match fuel with
  | O => Undef
  | S fuel =>
      o ← at_ h this;
      let s := mkSearch ({[this]} ∪ already_checked s) (objs_found s) in
      let max_depth := max_depth - 1 in
      check_all h T classname max_depth (fun p => GetAssociatedAncestors fuel h T classname p max_depth) (in_order (associated o)) s
  end.

(** [Get(ptrs, classname, max_depth)].  A call is made for an object that was not checked before, so that there are no more nested calls than objects. *)
Definition Get_classname (static_className : string -> string) (h : Heap) (this : Z) (T classname : string) (max_depth : Z) : outcome (list Z) :=
  let classname := if decide (classname = EmptyString) then static_className T else classname in
  s ← GetAssociatedAncestors (S (size h)) h T classname this max_depth (mkSearch ∅ ∅);
  Ok (in_order (objs_found s)).

(** ** What the search finds *)

(** One association after the other, at least one. *)
Definition points_to (h : Heap) (a b : Z) : Prop := exists o, h !! a = Some o /\ b ∈ associated o.

Definition reaches (h : Heap) : Z -> Z -> Prop := tc (points_to h).

(** Every association leads to an object. *)
Definition closed (h : Heap) : Prop := forall a b, points_to h a b -> is_Some (h !! b).

Lemma in_order_elem s p : p ∈ in_order s <-> p ∈ s.
Proof. unfold in_order. by rewrite merge_sort_Permutation, elem_of_elements. Qed.

Section Ancestors.
Context (h : Heap) (T classname : string) (Hclosed : closed h).

(** What an object adds to the objects found. *)
Definition hit (p f : Z) : Prop := exists o, h !! p = Some o /\ className o = classname /\ f = dynamic_cast T p o.

Definition expanded (s : Search) (x : Z) : Prop :=
  forall y, points_to h x y -> y ∈ already_checked s /\ forall f, hit y f -> f ∈ objs_found s.

(** From [s] to [s'] by looking at objects of [from] and what they reach. *)
Record progress (from : Z -> Prop) (s s' : Search) : Prop := {
  pr_checked : already_checked s ⊆ already_checked s';
  pr_found : objs_found s ⊆ objs_found s';
  pr_expanded : forall x, x ∈ already_checked s' -> x ∉ already_checked s -> expanded s' x;
  pr_new : forall x, x ∈ already_checked s' -> x ∉ already_checked s -> is_Some (h !! x);
  pr_hits : forall f, f ∈ objs_found s' -> f ∈ objs_found s \/ exists p y, from p /\ (y = p \/ reaches h p y) /\ hit y f
}.

Lemma progress_refl from s : progress from s s.
Proof. split; [done|done|done|done|by left]. Qed.

Lemma expanded_mono s s' x : already_checked s ⊆ already_checked s' -> objs_found s ⊆ objs_found s' -> expanded s x -> expanded s' x.
Proof. intros Hc Hf He y Hy. destruct (He y Hy) as [H1 H2]. split; [by apply Hc|]. intros f Hh. by apply Hf, H2. Qed.

Lemma progress_trans from s1 s2 s3 : progress from s1 s2 -> progress from s2 s3 -> progress from s1 s3.
Proof.
  intros [C1 F1 E1 N1 H1] [C2 F2 E2 N2 H2]. split; [set_solver|set_solver| | |].
  - intros x Hx Hn. destruct (decide (x ∈ already_checked s2)) as [H|H]; [|by apply E2]. by apply (expanded_mono s2 s3); [| |apply E1].
  - intros x Hx Hn. destruct (decide (x ∈ already_checked s2)) as [H|H]; [by apply N1|by apply N2].
  - intros f Hf. apply H2 in Hf as [Hf|?]; [|by right]. by apply H1.
Qed.

Lemma progress_weaken (from from' : Z -> Prop) s s' : (forall p, from p -> exists q, from' q /\ (p = q \/ reaches h q p)) ->
  progress from s s' -> progress from' s s'.
Proof.
  intros Hw [C F E N H]. split; [done..|]. intros f Hf. apply H in Hf as [?|(p & y & Hp & Hy & Hhit)]; [by left|right].
  destruct (Hw p Hp) as (q & Hq & Hqp). exists q, y. split_and!; [done| |done].
  destruct Hqp as [->|Hqp]; [done|]. destruct Hy as [->|Hy]; [by right|right]. by eapply tc_transitive.
Qed.

(** How many objects are not checked yet. *)
Definition unchecked (s : Search) : nat := size (dom h ∖ already_checked s).

Lemma unchecked_mono s s' : already_checked s ⊆ already_checked s' -> (unchecked s' <= unchecked s)%nat.
Proof. intros Hc. unfold unchecked. apply subseteq_size. set_solver. Qed.

Lemma unchecked_less p s : is_Some (h !! p) -> p ∉ already_checked s ->
  (unchecked (mkSearch ({[p]} ∪ already_checked s) (objs_found s)) < unchecked s)%nat.
Proof. intros Hp Hs. unfold unchecked. apply subset_size. apply elem_of_dom in Hp. cbn. set_solver. Qed.

(** A call on [this]: it returns, the object and everything that was not checked before is expanded. *)
Definition visits (visit : Z -> Search -> outcome Search) (n : nat) : Prop := forall p s, is_Some (h !! p) -> (unchecked s < n)%nat -> p ∈ already_checked s ->
  exists s', visit p s = Ok s' /\ progress (points_to h p) s s' /\ expanded s' p.

Definition listed (s : Search) (p : Z) : Prop := p ∈ already_checked s /\ forall f, hit p f -> f ∈ objs_found s.

(** The call on one object, unless it was checked before. *)
Lemma visit_one visit n d p o ps s1 : visits visit n -> h !! p = Some o -> (unchecked s1 <= n)%nat -> ((0 < unchecked s1)%nat -> 0 < d) ->
  exists s2, (if (d <=? 0) || bool_decide (p ∈ already_checked s1) then Ok s1
      else visit p (mkSearch ({[p]} ∪ already_checked s1) (objs_found s1))) = Ok s2 /\ progress (fun q => q ∈ p :: ps) s1 s2 /\ p ∈ already_checked s2.
Proof.
  intros Hvisit Ho Hn Hd.
  destruct (decide (p ∈ already_checked s1)) as [Hin|Hout].
  { exists s1. rewrite bool_decide_eq_true_2, orb_true_r by done. split_and!; [done|apply progress_refl|done]. }
  pose proof (unchecked_less p s1 ltac:(by exists o) Hout) as Hless.
  rewrite (proj2 (Z.leb_gt d 0)) by (apply Hd; lia). rewrite bool_decide_eq_false_2 by done. cbn [orb].
  destruct (Hvisit p (mkSearch ({[p]} ∪ already_checked s1) (objs_found s1))) as (s2 & H2 & P2 & E2); [by exists o|lia|cbn; set_solver|].
  exists s2. split_and!; [done| |apply (pr_checked _ _ _ P2); cbn; set_solver]. destruct P2 as [C2 F2 X2 N2 H2']. cbn in *. split.
  - set_solver.
  - done.
  - intros x Hx Hnx. destruct (decide (x = p)) as [->|]; [done|]. apply X2; [done|set_solver].
  - intros x Hx Hnx. destruct (decide (x = p)) as [->|]; [by exists o|]. apply N2; [done|set_solver].
  - intros f Hf. apply H2' in Hf as [?|(q & y & Hq & Hy & Hf)]; [by left|right]. exists p, y. split_and!; [apply list_elem_of_here| |done]. right.
    destruct Hy as [->|Hy]; [by apply tc_once|]. by eapply tc_l.
Qed.

(** The loop, if the depth suffices for the objects that are not checked yet. *)
Lemma check_all_spec visit n d : visits visit n -> forall ps s, (forall p, p ∈ ps -> is_Some (h !! p)) -> (unchecked s <= n)%nat ->
  ((0 < unchecked s)%nat -> 0 < d) ->
  exists s', check_all h T classname d visit ps s = Ok s' /\ progress (fun p => p ∈ ps) s s' /\ forall p, p ∈ ps -> listed s' p.
Proof.
  intros Hvisit. induction ps as [|p ps IH]; intros s Hps Hn Hd; cbn [check_all].
  { exists s. split_and!; [done|apply progress_refl|]. by intros ? ?%not_elem_of_nil. }
  destruct (Hps p) as [o Ho]; [apply list_elem_of_here|]. unfold at_ at 1. rewrite Ho. unfold mbind at 1, outcome_bind at 1.
  set (s1 := if decide (className o = classname) then mkSearch (already_checked s) ({[dynamic_cast T p o]} ∪ objs_found s) else s).
  assert (Hchecked : already_checked s1 = already_checked s) by (unfold s1; by case_decide).
  assert (Hhit : forall f, hit p f -> f ∈ objs_found s1).
  { intros f (o' & Ho' & Hc & ->). rewrite Ho in Ho'. injection Ho' as <-. unfold s1. rewrite decide_True by done. cbn. set_solver. }
  assert (P1 : progress (fun q => q ∈ p :: ps) s s1).
  { split; [by rewrite Hchecked| | | |].
    - unfold s1. case_decide; [cbn; set_solver|done].
    - intros x. rewrite Hchecked. done.
    - intros x. rewrite Hchecked. done.
    - intros f. unfold s1. case_decide as Hcl; [|by left]. cbn. intros [->%elem_of_singleton|?]%elem_of_union; [right|by left].
      exists p, p. split_and!; [apply list_elem_of_here|by left|by exists o]. }
  assert (Hu : unchecked s1 = unchecked s) by (unfold unchecked; by rewrite Hchecked).
  destruct (visit_one visit n d p o ps s1 Hvisit Ho ltac:(lia) ltac:(lia)) as (s2 & H2 & P2 & Hp2). rewrite H2. unfold mbind, outcome_bind.
  pose proof (progress_trans _ _ _ _ P1 P2) as P12. pose proof (unchecked_mono s s2 (pr_checked _ _ _ P12)) as Hu2.
  destruct (IH s2) as (s3 & H3 & P3 & L3); [intros q Hq; by apply Hps, list_elem_of_further|lia|lia|].
  exists s3. split_and!; [done| |].
  - eapply progress_trans; [exact P12|]. eapply progress_weaken; [|exact P3]. intros q Hq. exists q. split; [by apply list_elem_of_further|by left].
  - intros q [->|Hq]%elem_of_cons; [|by apply L3]. split; [by apply (pr_checked _ _ _ P3)|].
    intros f Hf. apply (pr_found _ _ _ P3), (pr_found _ _ _ P2). by apply Hhit.
Qed.

Lemma checked_again (C F : gset Z) p : p ∈ C -> mkSearch ({[p]} ∪ C) F = mkSearch C F.
Proof. intros Hp. f_equal. set_solver. Qed.

Lemma ancestors_visits fuel : forall n d, (n <= fuel)%nat -> Z.of_nat n <= d -> visits (fun p => GetAssociatedAncestors fuel h T classname p d) n.
Proof.
  induction fuel as [|fuel IH]; intros n d Hn Hd p s Hp Hu Hin; [lia|]. cbn [GetAssociatedAncestors].
  destruct Hp as [o Ho]. unfold at_ at 1. rewrite Ho. unfold mbind, outcome_bind. rewrite checked_again by done.
  assert (Hlist : forall q, q ∈ in_order (associated o) <-> points_to h p q).
  { intros q. rewrite in_order_elem. split; [intros Hq; by exists o|]. intros (o' & Ho' & Hq). congruence. }
  destruct (check_all_spec _ (n - 1) (d - 1) (IH (n - 1)%nat (d - 1) ltac:(lia) ltac:(lia)) (in_order (associated o)) (mkSearch (already_checked s) (objs_found s)))
    as (s' & H' & P & L).
  - intros q Hq%Hlist. by apply (Hclosed p).
  - destruct s. cbn in *. lia.
  - destruct s. cbn in *. lia.
  - exists s'. split_and!; [done| |].
    + destruct s. eapply progress_weaken; [|exact P]. intros q Hq%Hlist. exists q. split; [done|by left].
    + intros q Hq%Hlist. by apply L.
Qed.

(** The first call marks its own object. *)
Lemma search_start fuel this d : GetAssociatedAncestors fuel h T classname this d (mkSearch ∅ ∅) = GetAssociatedAncestors fuel h T classname this d (mkSearch {[this]} ∅).
Proof.
  destruct fuel as [|fuel]; [done|]. cbn [GetAssociatedAncestors already_checked objs_found].
  by replace ({[this]} ∪ ∅ : gset Z) with ({[this]} ∪ {[this]} : gset Z) by set_solver.
Qed.

(** All that is reached, and nothing else. *)
Lemma ancestors_found this d : is_Some (h !! this) -> Z.of_nat (size h) <= d ->
  exists s, GetAssociatedAncestors (S (size h)) h T classname this d (mkSearch ∅ ∅) = Ok s
    /\ forall f, f ∈ objs_found s <-> exists y, reaches h this y /\ hit y f.
Proof.
  intros Hthis Hd. set (s0 := mkSearch {[this]} ∅).
  rewrite search_start. fold s0. destruct (ancestors_visits (S (size h)) (size h) d ltac:(lia) Hd this s0 Hthis) as (s & Hs & P & E).
  { rewrite <- (size_dom h). unfold unchecked. apply subset_size. apply elem_of_dom in Hthis. unfold s0. cbn. set_solver. }
  { unfold s0. cbn. set_solver. }
  exists s. split; [done|]. intros f. split.
  - intros Hf. apply (pr_hits _ _ _ P) in Hf as [Hf|(p & y & Hp & Hy & Hhit)]; [unfold s0 in Hf; cbn in Hf; set_solver|].
    exists y. split; [|done]. destruct Hy as [->|Hy]; [by apply tc_once|by eapply tc_l].
  - intros (y & Hy & Hhit).
    assert (Hall : forall x, x ∈ already_checked s -> expanded s x).
    { intros x Hx. destruct (decide (x = this)) as [->|]; [done|]. apply (pr_expanded _ _ _ P); [done|]. unfold s0. cbn. set_solver. }
    assert (Hthis' : this ∈ already_checked s) by (apply (pr_checked _ _ _ P); unfold s0; cbn; set_solver).
    revert f Hhit. enough (Hl : listed s y) by apply Hl. clear -Hy Hall Hthis'. unfold reaches in Hy.
    induction Hy as [x y Hxy|x y z Hxy Hyz IH]; [by apply (Hall x)|]. apply IH. by apply (Hall x).
Qed.

(** With any depth the search returns, and what it finds is reached. *)
Record sound (from : Z -> Prop) (s s' : Search) : Prop := {
  so_checked : already_checked s ⊆ already_checked s';
  so_hits : forall f, f ∈ objs_found s' -> f ∈ objs_found s \/ exists p y, from p /\ (y = p \/ reaches h p y) /\ hit y f
}.

Definition returns_sound (visit : Z -> Search -> outcome Search) (n : nat) : Prop := forall p s, is_Some (h !! p) -> (unchecked s < n)%nat -> p ∈ already_checked s ->
  exists s', visit p s = Ok s' /\ sound (points_to h p) s s'.

Lemma check_all_sound visit n d : returns_sound visit n -> forall ps s, (forall p, p ∈ ps -> is_Some (h !! p)) -> (unchecked s <= n)%nat ->
  exists s', check_all h T classname d visit ps s = Ok s' /\ sound (fun p => p ∈ ps) s s'.
Proof.
  intros Hvisit. induction ps as [|p ps IH]; intros s Hps Hn; cbn [check_all]; [exists s; split; [done|split; [done|by left]]|].
  destruct (Hps p) as [o Ho]; [apply list_elem_of_here|]. unfold at_ at 1. rewrite Ho. unfold mbind at 1, outcome_bind at 1.
  set (s1 := if decide (className o = classname) then mkSearch (already_checked s) ({[dynamic_cast T p o]} ∪ objs_found s) else s).
  assert (Hchecked : already_checked s1 = already_checked s) by (unfold s1; by case_decide).
  assert (H1 : forall f, f ∈ objs_found s1 -> f ∈ objs_found s \/ hit p f).
  { intros f. unfold s1. case_decide as Hcl; [|by left]. cbn. intros [->%elem_of_singleton|?]%elem_of_union; [right|by left]. by exists o. }
  assert (Hu : unchecked s1 = unchecked s) by (unfold unchecked; by rewrite Hchecked).
  assert (Hstep : exists s2, (if (d <=? 0) || bool_decide (p ∈ already_checked s1) then Ok s1
      else visit p (mkSearch ({[p]} ∪ already_checked s1) (objs_found s1))) = Ok s2 /\ sound (points_to h p) s1 s2).
  { destruct (_ || _) eqn:Hskip; [exists s1; split; [done|split; [done|by left]]|]. apply orb_false_iff in Hskip as [_ Hout%bool_decide_eq_false].
    pose proof (unchecked_less p s1 ltac:(by exists o) Hout) as Hless.
    destruct (Hvisit p (mkSearch ({[p]} ∪ already_checked s1) (objs_found s1))) as (s2 & H2 & [C2 F2]); [by exists o|lia|cbn; set_solver|].
    exists s2. split; [done|]. split; [cbn in C2; set_solver|done]. }
  destruct Hstep as (s2 & H2 & [C2 F2]). rewrite H2. unfold mbind, outcome_bind. rewrite Hchecked in C2.
  pose proof (unchecked_mono s s2 C2) as Hu2.
  destruct (IH s2) as (s3 & H3 & [C3 F3]); [intros q Hq; by apply Hps, list_elem_of_further|lia|].
  exists s3. split; [done|]. split; [set_solver|]. intros f Hf. apply F3 in Hf as [Hf|(q & y & Hq & Hy)].
  - apply F2 in Hf as [Hf|(q & y & Hq & Hy & Hh)].
    + apply H1 in Hf as [?|Hh]; [by left|right]. exists p, p. split_and!; [apply list_elem_of_here|by left|done].
    + right. exists p, y. split_and!; [apply list_elem_of_here| |done]. right. destruct Hy as [->|Hy]; [by apply tc_once|by eapply tc_l].
  - right. exists q, y. split; [by apply list_elem_of_further|done].
Qed.

Lemma ancestors_sound fuel : forall n d, (n <= fuel)%nat -> returns_sound (fun p => GetAssociatedAncestors fuel h T classname p d) n.
Proof.
  induction fuel as [|fuel IH]; intros n d Hn p s Hp Hu Hin; [lia|]. cbn [GetAssociatedAncestors].
  destruct Hp as [o Ho]. unfold at_ at 1. rewrite Ho. unfold mbind, outcome_bind. rewrite checked_again by done.
  assert (Hlist : forall q, q ∈ in_order (associated o) -> points_to h p q) by (intros q; rewrite in_order_elem; intros Hq; by exists o).
  destruct (check_all_sound _ (n - 1) (d - 1) (IH (n - 1)%nat (d - 1) ltac:(lia)) (in_order (associated o)) (mkSearch (already_checked s) (objs_found s)))
    as (s' & H' & [C F]).
  - intros q Hq%Hlist. by apply (Hclosed p).
  - destruct s. cbn in *. lia.
  - exists s'. split; [done|]. destruct s. split; [done|]. intros f Hf. apply F in Hf as [?|(q & y & Hq%Hlist & Hy)]; [by left|right; by exists q, y].
Qed.

Lemma ancestors_return this d : is_Some (h !! this) ->
  exists s, GetAssociatedAncestors (S (size h)) h T classname this d (mkSearch ∅ ∅) = Ok s
    /\ forall f, f ∈ objs_found s -> exists y, reaches h this y /\ hit y f.
Proof.
  intros Hthis. rewrite search_start. destruct (ancestors_sound (S (size h)) (size h) d ltac:(lia) this (mkSearch {[this]} ∅) Hthis) as (s & Hs & [_ F]).
  { rewrite <- (size_dom h). unfold unchecked. apply subset_size. apply elem_of_dom in Hthis. cbn. set_solver. }
  { cbn. set_solver. }
  exists s. split; [done|]. intros f Hf. apply F in Hf as [Hf|(p & y & Hp & Hy & Hh)]; [cbn in Hf; set_solver|].
  exists y. split; [|done]. destruct Hy as [->|Hy]; [by apply tc_once|by eapply tc_l].
Qed.

End Ancestors.

(** C25: Searching all levels of association finds exactly what is there.  If every association leads to an object and the depth is at least
    the number of objects (the default is a million), [Get(ptrs, classname)] returns, also around cycles, the objects of the class that
    are reached over one or more associations, each once and in the order of the addresses; one that is not of type [T] counts as a null pointer. *)
Theorem get_finds_all_associated static_className h this T classname max_depth : closed h -> is_Some (h !! this) -> Z.of_nat (size h) <= max_depth ->
  exists ps, Get_classname static_className h this T classname max_depth = Ok ps /\ NoDup ps /\ StronglySorted Z.le ps
    /\ forall f, f ∈ ps <-> exists y, reaches h this y /\ hit h T (if decide (classname = EmptyString) then static_className T else classname) y f.
Proof.
  intros Hclosed Hthis Hd. destruct (ancestors_found h T (if decide (classname = EmptyString) then static_className T else classname) Hclosed this max_depth Hthis Hd) as (s & Hs & Hf).
  exists (in_order (objs_found s)). split_and!.
  - unfold Get_classname. by rewrite Hs.
  - unfold in_order. rewrite merge_sort_Permutation. apply NoDup_elements.
  - apply (StronglySorted_merge_sort Z.le).
  - intros f. rewrite in_order_elem. apply Hf.
Qed.

(** A track with its hits, one of which leads back to the track, and an object of another type with the name of the class. *)
Definition demo_cluster : JObject := mkJObject "Cluster" ["Cluster"; "JObject"]%string {[4; 1]} ∅.

Definition demo_heap : Heap :=
  {[1 := mkJObject "Track" ["Track"; "JObject"]%string {[2; 3]} ∅;
    2 := demo_cluster;
    3 := mkJObject "Hit" ["Hit"; "JObject"]%string ∅ ∅;
    4 := mkJObject "Hit" ["Hit"; "JObject"]%string {[5]} ∅;
    5 := mkJObject "Hit" ["OldHit"; "JObject"]%string ∅ ∅]}.

(** Whether the associations of a heap all lead to objects, decided. *)
Definition closed_b (h : Heap) : bool := forallb (fun o => forallb (fun b => bool_decide (is_Some (h !! b))) (elements (associated o))) (map_to_list h).*2.

Lemma closed_b_spec h : closed_b h = true -> closed h.
Proof.
  unfold closed_b. rewrite forallb_forall. intros H a b (o & Ho & Hb).
  assert (Hin : In o (map_to_list h).*2) by (apply list_elem_of_In, (list_elem_of_fmap_2 snd _ (a, o)), elem_of_map_to_list, Ho).
  specialize (H o Hin). rewrite forallb_forall in H. apply (bool_decide_eq_true (is_Some (h !! b))), H, list_elem_of_In, elem_of_elements, Hb.
Qed.

Lemma get_finds_all_associated_witness :
  exists ps, Get_classname (fun T => T) demo_heap 1 "Hit" EmptyString 1000000 = Ok ps /\ ps = [0; 3; 4]
    /\ forall f, f ∈ ps <-> exists y, reaches demo_heap 1 y /\ hit demo_heap "Hit" "Hit" y f.
Proof.
  destruct (get_finds_all_associated (fun T => T) demo_heap 1 "Hit" EmptyString 1000000) as (ps & Hps & _ & _ & Hall).
  - apply closed_b_spec. vm_compute. reflexivity.
  - eexists. vm_compute. reflexivity.
  - vm_compute. congruence.
  - exists ps. split_and!; [exact Hps| |exact Hall].
    assert (Hv : Get_classname (fun T => T) demo_heap 1 "Hit" EmptyString 1000000 = Ok [0; 3; 4]) by (vm_compute; reflexivity).
    rewrite Hps in Hv. injection Hv as Hv. exact Hv.
Defined.

Lemma casting_spec h T ps : Forall (fun p => is_Some (h !! p)) ps -> exists l, casting h T ps = Ok l
  /\ forall f, f ∈ l <-> f ∈ ps /\ f <> 0 /\ exists o, h !! f = Some o /\ T ∈ casts_to o.
Proof.
  induction 1 as [|p ps [o Ho] _ (l & Hl & Hin)]; cbn [casting].
  { exists []. split; [done|]. intros f. set_solver. }
  unfold at_ at 1. rewrite Ho, Hl. unfold mbind, outcome_bind, dynamic_cast. case_decide as HT.
  - destruct (Z.eqb_spec p 0) as [->|Hp].
    + exists l. split; [done|]. intros f. rewrite Hin, elem_of_cons. naive_solver.
    + exists (p :: l). split; [done|]. intros f. rewrite !elem_of_cons, Hin. naive_solver.
  - exists l. split; [done|]. intros f. rewrite Hin, elem_of_cons. naive_solver.
Qed.

Lemma first_of_spec h T classname ps : Forall (fun p => is_Some (h !! p)) ps -> exists f, first_of h T classname ps = Ok f
  /\ (f = 0 \/ f ∈ ps /\ exists o, h !! f = Some o /\ T ∈ casts_to o /\ className o = classname).
Proof.
  induction 1 as [|p ps [o Ho] _ (f & Hf & Hor)]; cbn [first_of]; [exists 0; auto|].
  unfold at_ at 1. rewrite Ho. unfold mbind, outcome_bind. destruct (_ && _) eqn:Hb.
  - apply andb_true_iff in Hb as [Hc%bool_decide_eq_true Hz]. unfold dynamic_cast in *. case_decide as HT; [|done].
    exists p. split; [done|]. right. split; [apply list_elem_of_here|by exists o].
  - exists f. split; [done|]. destruct Hor as [?|[Hin ?]]; [by left|right]. split; [by apply list_elem_of_further|done].
Qed.

(** C40: What the typed getters return is of the type asked for.  On a heap where every association leads to an object they return, with any
    limit of the depth; [GetT] gives exactly the associated objects that are of type [T], and a pointer that [GetSingle] or [Get] with a class name
    gives is null or an object of type [T] and of the class that is associated, directly or over other objects. *)
Theorem getters_return_the_type static_className h this T : closed h -> forall o, h !! this = Some o ->
  (exists ps, GetT h this T = Ok ps /\ forall f, f ∈ ps <-> f ∈ associated o /\ f <> 0 /\ exists o', h !! f = Some o' /\ T ∈ casts_to o')
  /\ forall classname, let classname' := if decide (classname = EmptyString) then static_className T else classname in
     (exists f, GetSingle_classname static_className h this T classname = Ok f
        /\ (f = 0 \/ f ∈ associated o /\ exists o', h !! f = Some o' /\ T ∈ casts_to o' /\ className o' = classname'))
     /\ forall max_depth, exists ps, Get_classname static_className h this T classname max_depth = Ok ps
        /\ forall f, f ∈ ps -> f = 0 \/ reaches h this f /\ exists o', h !! f = Some o' /\ T ∈ casts_to o' /\ className o' = classname'.
Proof.
  intros Hclosed o Ho.
  assert (Hall : Forall (fun p => is_Some (h !! p)) (in_order (associated o))).
  { apply Forall_forall. intros p Hp%in_order_elem. apply (Hclosed this). by exists o. }
  split; [|intros classname classname'; split].
  - destruct (casting_spec h T _ Hall) as (ps & Hps & Hin). exists ps. unfold GetT, at_. rewrite Ho. split; [done|].
    intros f. by rewrite Hin, in_order_elem.
  - destruct (first_of_spec h T classname' _ Hall) as (f & Hf & Hor). exists f. unfold GetSingle_classname, at_. rewrite Ho. split; [done|].
    by rewrite in_order_elem in Hor.
  - intros d. destruct (ancestors_return h T classname' Hclosed this d ltac:(by exists o)) as (s & Hs & Hf).
    exists (in_order (objs_found s)). split; [unfold Get_classname; fold classname'; by rewrite Hs|].
    intros f Hin%in_order_elem. apply Hf in Hin as (y & Hy & (o' & Ho' & Hc & ->)). unfold dynamic_cast. case_decide; [|by left].
    right. split; [done|]. by exists o'.
Qed.

Lemma getters_return_the_type_witness :
  (exists ps, GetT demo_heap 2 "Hit" = Ok ps /\ forall f, f ∈ ps <-> f ∈ associated demo_cluster /\ f <> 0 /\ exists o', demo_heap !! f = Some o' /\ "Hit"%string ∈ casts_to o')
  /\ GetT demo_heap 2 "Hit" = Ok [4].
Proof.
  split; [|vm_compute; reflexivity].
  assert (Hc : closed demo_heap) by (apply closed_b_spec; vm_compute; reflexivity).
  exact (proj1 (getters_return_the_type (fun T => T) demo_heap 2 "Hit" Hc demo_cluster ltac:(vm_compute; reflexivity))).
Defined.

(** With a limit the search can miss an object that is near enough: object 2 is first reached over object 1, where the limit is used up
    before its own associations, and is not looked at again. *)
Example depth_limit_misses_near_object :
  let obj c s := mkJObject c [c] s ∅ in
  let h : Heap := {[10 := obj "A"%string {[1; 2]}; 1 := obj "A"%string {[2]}; 2 := obj "A"%string {[3]}; 3 := obj "A"%string {[4]}; 4 := obj "Far"%string ∅]} in
  Get_classname (fun T => T) h 10 "Far" EmptyString 3 = Ok [] /\ points_to h 10 2 /\ points_to h 2 3 /\ points_to h 3 4.
Proof.
  cbv zeta. split_and!; [vm_compute; reflexivity|..]; (eexists; split; [vm_compute; reflexivity|]; apply (bool_decide_unpack _); vm_compute; exact I).
Qed.

(** An object that was removed from the associations is still deleted when they are cleared. *)
Example removed_object_is_deleted :
  let h : Heap := {[1 := mkJObject "A" [] ∅ ∅; 2 := mkJObject "B" [] ∅ ∅]} in
  let run := _ ← AddAssociatedObjectAutoDelete 1 2 true; _ ← RemoveAssociatedObject 1 2; ClearAssociatedObjects 1 in
  (run h).1 = Ok tt /\ (run h).2 !! 2 = None.
Proof. split; vm_compute; reflexivity. Qed.

End Objects.
