(* ===== verification/JCsvWriter.v ===== *)
(** * JCsvWriter: objects as lines of a file

    Model of [JCsvWriter.h].  The objects of an event are given by the summaries that they return; the mutex makes the calls of
    [Process] follow one another, so that a run is a sequence of events. *)

From Stdlib Require Import Ascii.
From stdpp Require Import pretty.
From S2P Require Import Prelude JParameterManager JObject.
Import Parameters.
Local Open Scope Z_scope.

Module CsvWriter.

Record JCsvWriter := mkWriter { m_tag : line; m_dest_dir : line; m_header_written : bool; m_dest_file : option (line * line) }.

Definition new_writer (tag : line) : JCsvWriter := mkWriter tag (chars ".") false None.

(** [dest_dir] is the value of the parameter csv:dest_dir; the file is the name and what was written. *)
Definition Init (type_name dest_dir : line) (w : JCsvWriter) : JCsvWriter :=
  let filename := dest_dir ++ chars "/" ++ type_name ++ (if decide (m_tag w = []) then [] else chars "_" ++ m_tag w) ++ chars ".csv" in
  mkWriter (m_tag w) dest_dir (m_header_written w) (Some (filename, [])).

(** Writing to a stream that is not open has no effect. *)
Definition put_text (s : line) (w : JCsvWriter) : JCsvWriter :=
  mkWriter (m_tag w) (m_dest_dir w) (m_header_written w) ((fun f => (f.1, f.2 ++ s)) <$> m_dest_file w).

Definition csv_line (first : line) (rest : list line) : line := first ++ (rest ≫= fun s => chars ", " ++ s) ++ ["010"%char].

Definition header_of (summary : Objects.JObjectSummary) : line := csv_line (chars "EventNr") (Objects.field_name <$> summary).
Definition row_of (event_nr : Z) (summary : Objects.JObjectSummary) : line := csv_line (chars (pretty event_nr)) (Objects.field_value <$> summary).

Definition Process (event_nr : Z) (jobjs : list Objects.JObjectSummary) (w : JCsvWriter) : JCsvWriter :=
  let w :=
    match jobjs with
    | first :: _ =>
        if m_header_written w then w
        else let w := put_text (header_of first) w in mkWriter (m_tag w) (m_dest_dir w) true (m_dest_file w)
    | [] => w
    end in
  foldl (fun w obj => put_text (row_of event_nr obj) w) w jobjs.

Definition Finish (w : JCsvWriter) : JCsvWriter := mkWriter (m_tag w) (m_dest_dir w) (m_header_written w) None.

Fixpoint process_all (events : list (Z * list Objects.JObjectSummary)) (w : JCsvWriter) : JCsvWriter :=
  match events with
  | [] => w
  | e :: events => process_all events (Process e.1 e.2 w)
  end.

(** The lines for all objects, event after event. *)
Definition all_rows (events : list (Z * list Objects.JObjectSummary)) : line := events ≫= fun e => e.2 ≫= row_of e.1.

Lemma put_rows n objs : forall w, m_dest_file (foldl (fun w obj => put_text (row_of n obj) w) w objs) = (fun f => (f.1, f.2 ++ (objs ≫= row_of n))) <$> m_dest_file w
  /\ m_header_written (foldl (fun w obj => put_text (row_of n obj) w) w objs) = m_header_written w.
Proof.
  induction objs as [|o objs IH]; intros w; cbn [foldl].
  - split; [|done]. destruct (m_dest_file w) as [[name t]|]; [|done]. cbn. by rewrite app_nil_r.
  - destruct (IH (put_text (row_of n o) w)) as [-> ->]. split; [|done]. cbn [put_text m_dest_file].
    destruct (m_dest_file w) as [[name t]|]; [|done]. cbn. by rewrite <- app_assoc.
Qed.

Lemma process_all_written events : forall w, m_header_written w = true ->
  m_dest_file (process_all events w) = (fun f => (f.1, f.2 ++ all_rows events)) <$> m_dest_file w.
Proof.
  induction events as [|[n objs] events IH]; intros w Hw; cbn [process_all].
  - destruct (m_dest_file w) as [[name t]|]; [|done]. cbn. by rewrite app_nil_r.
  - assert (Hp : Process n objs w = foldl (fun w obj => put_text (row_of n obj) w) w objs) by (unfold Process; destruct objs; [done|by rewrite Hw]).
    cbn [fst snd]. rewrite Hp. destruct (put_rows n objs w) as [Hf Hh]. rewrite IH by (by rewrite Hh). rewrite Hf.
    destruct (m_dest_file w) as [[name t]|]; [|done]. cbn. by rewrite <- app_assoc.
Qed.

(** The file of a run: one line per object, event after event, under one heading with the names of the fields of the first
    object; nothing if there is no object. *)
Lemma csv_has_all_objects type_name dest_dir tag events : exists name,
  m_dest_file (process_all events (Init type_name dest_dir (new_writer tag)))
    = Some (name, match concat events.*2 with [] => [] | first :: _ => header_of first ++ all_rows events end).
Proof.
  set (w := Init type_name dest_dir (new_writer tag)).
  assert (Hw : m_header_written w = false) by done. assert (Hf : exists name, m_dest_file w = Some (name, [])) by (by eexists).
  destruct Hf as [name Hf]. exists name. clearbody w.
  revert w Hw Hf. induction events as [|[n objs] events IH]; intros w Hw Hf; cbn [process_all fst snd]; [done|].
  destruct objs as [|first objs]; [by apply IH|]. cbn [fmap list_fmap concat app].
  rewrite process_all_written.
  - unfold Process. rewrite Hw. rewrite (proj1 (put_rows _ _ _)). cbn [put_text m_dest_file]. rewrite Hf. cbn. by rewrite <- !app_assoc.
  - unfold Process. rewrite Hw. by rewrite (proj2 (put_rows _ _ _)).
Qed.

End CsvWriter.
