(* ===== verification/JLogging.v ===== *)
(** * JLogger and JLoggingService: levels of log messages

    Model of [JLogger.h] and [Services/JLoggingService.cc].  A logger is the level that it has and what it puts in front of a message; a message
    that is not shown is [None].  The levels come from parameters: one for all loggers, and a list of names for each level. *)

From stdpp Require Import sorting.
From Stdlib Require Import Ascii.
From S2P Require Import Prelude JParameterManager.
Import Parameters.
Local Open Scope Z_scope.

Module Logging.

Inductive Level := TRACE | DEBUG | INFO | WARN | ERROR | FATAL | OFF.

#[export] Instance Level_eq_dec : EqDecision Level.
Proof. solve_decision. Defined.

Definition severity (l : Level) : Z :=
  match l with TRACE => 0 | DEBUG => 1 | INFO => 2 | WARN => 3 | ERROR => 4 | FATAL => 5 | OFF => 6 end.

Definition level_name (l : Level) : string :=
  match l with
  | TRACE => "TRACE" | DEBUG => "DEBUG" | INFO => "INFO" | WARN => "WARN" | ERROR => "ERROR" | FATAL => "FATAL" | OFF => "OFF"
  end.

Definition parse_level (value : string) : outcome Level :=
  let token := ToLower value in
  if decide (token = "trace"%string) then Ok TRACE
  else if decide (token = "debug"%string) then Ok DEBUG
  else if decide (token = "info"%string) then Ok INFO
  else if decide (token = "warn"%string) then Ok WARN
  else if decide (token = "error"%string) then Ok ERROR
  else if decide (token = "fatal"%string) then Ok FATAL
  else if decide (token = "off"%string) then Ok OFF
  else throwJ ("Unable to parse log level: '" +:+ value +:+ "'. Options are: TRACE, DEBUG, INFO, WARN, ERROR, FATAL, OFF").

#[export] Instance level_codec : Codec Level := {|
  stream_out := level_name;
  Stringify := level_name;
  Parse := parse_level;
  Equals a b := bool_decide (a = b)
|}.

Record JLogger := mkLogger { level : Level; className : string; show_level : bool; show_classname : bool }.

(** The macro [LOG_AT_LEVEL] with the message [text]. *)
Definition LOG_AT_LEVEL (logger : JLogger) (msglevel : Level) (text : string) : option string :=
  if severity (level logger) <=? severity msglevel then
    Some ((if show_level logger then "[" +:+ level_name msglevel +:+ "] " else EmptyString) +:+
          (if show_classname logger then className logger +:+ ": " else EmptyString) +:+ text)
  else None.

(** [ltrunc]: a text of more than [desired] characters is cut at the left.  The mark in front of it is one
    character, of three bytes. *)
Definition ltrunc (original : list ascii) (desired : nat) : list ascii :=
  let n := length original in
  if (n <=? desired)%nat then original
  else ["226"; "128"; "166"]%char ++ take (if (desired =? 0)%nat then n else desired - 1) (drop (n - desired) original).

Record JLoggingService := mkService { m_global_log_level : Level; m_local_log_levels : gmap string Level }.

Definition new_service : JLoggingService := mkService INFO ∅.

Definition set_level (l : Level) (s : JLoggingService) : JLoggingService := mkService l (m_local_log_levels s).
Definition set_level_of (name : string) (l : Level) (s : JLoggingService) : JLoggingService :=
  mkService (m_global_log_level s) (<[name := l]> (m_local_log_levels s)).

Definition get_logger (s : JLoggingService) : JLogger := mkLogger (m_global_log_level s) EmptyString true false.
Definition get_logger_of (name : string) (s : JLoggingService) : JLogger :=
  mkLogger (default (m_global_log_level s) (m_local_log_levels s !! name)) name true true.

(** The lists of names, in the order in which they are read. *)
Definition group_lists : list (string * Level * string) :=
  [("log:off", OFF, "Comma-separated list of loggers that should be turned off completely");
   ("log:fatal", FATAL, "Comma-separated list of loggers that should only print FATAL");
   ("log:error", ERROR, "Comma-separated list of loggers that should only print ERROR or higher");
   ("log:warn", WARN, "Comma-separated list of loggers that should only print WARN or higher");
   ("log:info", INFO, "Comma-separated list of loggers that should only print INFO or higher");
   ("log:debug", DEBUG, "Comma-separated list of loggers that should only print DEBUG or higher");
   ("log:trace", TRACE, "Comma-separated list of loggers that should print everything")]%string.

Fixpoint read_lists (ls : list (string * Level * string)) (s : JLoggingService) : M JParameterManager JLoggingService :=
  match ls with
  | [] => mret s
  | (name, l, description) :: ls =>
      groups ← SetDefaultParameter name (@nil string) description;
      read_lists ls (foldl (fun s g => set_level_of g l s) s groups)
  end.

(** [acquire_services]: the service with the levels of the parameters, and the logger of the parameter manager. *)
Definition acquire_services (s : JLoggingService) : M JParameterManager (JLoggingService * JLogger) :=
  global ← SetDefaultParameter "log:global" (m_global_log_level s) "Default log level";
  s ← read_lists group_lists (set_level global s);
  mret (s, get_logger_of "JParameterManager" s).

(** ** The level of a logger *)

(** What a user has set for a parameter, before anybody has declared it. *)
Definition only_set (name : string) (m : JParameterManager) : Prop := forall p, FindParameter name m = Some p -> m_has_default p = false.

Definition value_or (v : string) (name : string) (m : JParameterManager) : string := from_option m_value v (FindParameter name m).

Lemma declared {T} `{Codec T} name v desc m t : only_set name m -> Parse (value_or (Stringify v) name m) = Ok t ->
  exists m', SetDefaultParameter name v desc m = (Ok t, m') /\
    (forall k, ToLower k <> ToLower name -> FindParameter k m' = FindParameter k m).
Proof.
  intros Hs. unfold only_set, value_or, FindParameter in *. unfold SetDefaultParameter, FindParameter. rewrite M_bind_gets.
  destruct (m_parameters m !! ToLower name) as [p|] eqn:Hp; cbn [from_option]; intros Ht.
  - rewrite (Hs p eq_refl). cbn [negb]. mstep (update_at _ (declare_default (Stringify v) desc) p m Hp). rewrite M_bind_gets. cbn [m_parameters set_parameters].
    rewrite lookup_insert_eq. unfold declare_default at 2. cbn [m_value]. rewrite (M_bind_lift _ _ _ _ Ht).
    erewrite M_bind_ok by (apply update_at; cbn; apply lookup_insert_eq). eexists. split; [done|].
    intros k Hk. cbn. by rewrite !lookup_insert_ne by done.
  - rewrite M_bind_assoc, (M_bind_lift _ _ _ _ Ht), M_bind_modify, M_bind_gets. cbn [m_parameters set_parameters]. rewrite lookup_insert_eq. cbn [m_value make_parameter].
    rewrite (M_bind_lift _ _ _ _ Ht). erewrite M_bind_ok by (apply update_at; cbn; apply lookup_insert_eq). eexists. split; [done|].
    intros k Hk. cbn. by rewrite !lookup_insert_ne by done.
Qed.

Lemma parse_strings l : parse_all (T := string) l = Ok l.
Proof. induction l as [|x l IH]; [done|]. cbn [parse_all]. cbn. by rewrite IH. Qed.

(** The names that a user has given in a list. *)
Definition names_in (name : string) (m : JParameterManager) : list string := getlines (value_or EmptyString name m).

Lemma set_levels_lookup gs l s c :
  m_global_log_level (foldl (fun s g => set_level_of g l s) s gs) = m_global_log_level s /\
  m_local_log_levels (foldl (fun s g => set_level_of g l s) s gs) !! c =
    if decide (c ∈ gs) then Some l else m_local_log_levels s !! c.
Proof.
  revert s. induction gs as [|g gs IH]; intros s; cbn [foldl]; [by rewrite decide_False by apply not_elem_of_nil|].
  destruct (IH (set_level_of g l s)) as [-> ->]. split; [done|]. destruct (decide (c ∈ gs)) as [Hc|Hc].
  - by rewrite decide_True by by apply list_elem_of_further.
  - cbn. destruct (decide (c = g)) as [->|Hne]; [by rewrite lookup_insert_eq, decide_True by apply list_elem_of_here|].
    rewrite lookup_insert_ne, decide_False by (rewrite ?elem_of_cons; naive_solver). done.
Qed.

Definition pick (c : string) (m : JParameterManager) (old : option Level) (x : string * Level * string) : option Level :=
  if decide (c ∈ names_in x.1.1 m) then Some x.1.2 else old.

Lemma picks_same c m m' ls : forall o, (forall x, x ∈ ls -> FindParameter x.1.1 m = FindParameter x.1.1 m') ->
  foldl (pick c m) o ls = foldl (pick c m') o ls.
Proof.
  induction ls as [|x ls IH]; intros o Hx; cbn [foldl]; [done|]. rewrite IH by (intros y Hy; apply Hx; by apply list_elem_of_further).
  f_equal. unfold pick, names_in, value_or. by rewrite Hx by apply list_elem_of_here.
Qed.

Lemma read_lists_ok ls : forall s m, Forall (fun x => only_set x.1.1 m) ls -> NoDup ((fun x => ToLower x.1.1) <$> ls) ->
  exists s' m', read_lists ls s m = (Ok s', m') /\ m_global_log_level s' = m_global_log_level s /\
    forall c, m_local_log_levels s' !! c = foldl (pick c m) (m_local_log_levels s !! c) ls.
Proof.
  induction ls as [|[[name l] d] ls IH]; intros s m Hs Hn; cbn [read_lists]; [by exists s, m|].
  apply Forall_cons in Hs as [Hs Hs']. rewrite fmap_cons in Hn. apply NoDup_cons in Hn as [Hn Hn'].
  destruct (declared name (@nil string) d m (names_in name m) Hs) as (m1 & E & Hm); [apply parse_strings|]. mstep E.
  assert (Hother : forall x, x ∈ ls -> FindParameter x.1.1 m1 = FindParameter x.1.1 m).
  { intros x Hx. apply Hm. intros Hk. apply Hn. cbn [fst]. rewrite <- Hk. by apply (list_elem_of_fmap_2 (fun x : string * Level * string => ToLower x.1.1)). }
  destruct (IH (foldl (fun s g => set_level_of g l s) s (names_in name m)) m1) as (s' & m' & E' & Hg & Hl).
  - apply Forall_forall. intros x Hx p. rewrite Hother by done. revert p. by apply (proj1 (Forall_forall _ _) Hs').
  - done.
  - exists s', m'. split; [done|]. split; [by rewrite Hg; apply (set_levels_lookup _ _ _ EmptyString)|]. intros c. rewrite Hl, (proj2 (set_levels_lookup _ _ _ c)). cbn [foldl].
    by rewrite (picks_same c m1 m) by done.
Qed.

(** The last list that has the name is the one that counts. *)
Lemma picked c m ls : forall old, (exists x ls1 ls2, ls = ls1 ++ x :: ls2 /\ c ∈ names_in x.1.1 m /\ (forall y, y ∈ ls2 -> c ∉ names_in y.1.1 m) /\
    foldl (pick c m) old ls = Some x.1.2) \/ ((forall y, y ∈ ls -> c ∉ names_in y.1.1 m) /\ foldl (pick c m) old ls = old).
Proof.
  induction ls as [|x ls IH] using rev_ind; intros old; [right; split; [by intros y []%elem_of_nil|done]|].
  rewrite foldl_app. cbn [foldl]. unfold pick at 1 3. destruct (decide (c ∈ names_in x.1.1 m)) as [Hc|Hc].
  - left. exists x, ls, []. split; [done|]. split; [done|]. split; [by intros y []%elem_of_nil|done].
  - destruct (IH old) as [(x' & ls1 & ls2 & -> & Hx & Hlast & E)|[Hno E]].
    + left. exists x', ls1, (ls2 ++ [x]). rewrite <- app_assoc. split; [done|]. split; [done|]. split; [|done].
      intros y [Hy| ->%list_elem_of_singleton]%elem_of_app; [by apply Hlast|done].
    + right. split; [|done]. intros y [Hy| ->%list_elem_of_singleton]%elem_of_app; [by apply Hno|done].
Qed.

Definition listed (c name : string) (l : Level) (m : JParameterManager) : Prop := (exists d, (name, l, d) ∈ group_lists) /\ c ∈ names_in name m.

(** The lists are read from the quietest to the most verbose. *)
Lemma lists_ordered : StronglySorted (fun x y => severity y.1.2 <= severity x.1.2) group_lists.
Proof. by repeat constructor. Qed.

(** The level of each logger is what the parameters say.  If the user has set [log:global] to the name of a level, in any case, or
    not at all, and has set any of the lists, the service starts; a logger has the most verbose one of the levels whose list
    has its name, the level it was given before if no list has it, and otherwise the global one; and it
    shows exactly the messages that are at least as severe as its level. *)
Theorem logger_levels s m global : Forall (fun x => only_set x.1.1 m) group_lists -> only_set "log:global" m ->
  parse_level (value_or (level_name (m_global_log_level s)) "log:global" m) = Ok global ->
  exists s' logger m', acquire_services s m = (Ok (s', logger), m') /\ get_logger s' = mkLogger global EmptyString true false /\
    forall c, let l := level (get_logger_of c s') in
      (forall name l', listed c name l' m -> severity l <= severity l') /\
      ((exists name, listed c name l m) \/
       ((forall name l', ~ listed c name l' m) /\ l = default global (m_local_log_levels s !! c))) /\
      forall msglevel text, is_Some (LOG_AT_LEVEL (get_logger_of c s') msglevel text) <-> severity l <= severity msglevel.
Proof.
  intros Hl Hg Hp. unfold acquire_services. destruct (declared "log:global" (m_global_log_level s) "Default log level" m global Hg) as (m1 & E & Hm); [exact Hp|]. mstep E.
  assert (Hother : forall x, x ∈ group_lists -> FindParameter x.1.1 m1 = FindParameter x.1.1 m).
  { intros x Hx. apply Hm. revert x Hx. apply Forall_forall. by repeat constructor. }
  destruct (read_lists_ok group_lists (set_level global s) m1) as (s' & m' & E' & Hglob & Hloc).
  { apply Forall_forall. intros x Hx p. rewrite Hother by done. revert p. by apply (proj1 (Forall_forall _ _) Hl). }
  { apply (bool_decide_unpack _). vm_compute. done. }
  mstep E'. eexists s', _, m'. split; [done|]. split; [unfold get_logger; by rewrite Hglob|].
  intros c. set (l := level (get_logger_of c s')).
  assert (Hnames : forall y, y ∈ group_lists -> names_in y.1.1 m1 = names_in y.1.1 m).
  { intros y Hy. unfold names_in, value_or. by rewrite Hother. }
  split; [|split].
  3: { intros msglevel text. unfold LOG_AT_LEVEL. fold l. destruct (Z.leb_spec (severity l) (severity msglevel)); split; intros H'; try done; lia. }
  all: subst l; unfold get_logger_of; cbn [level]; rewrite Hloc, Hglob.
  all: destruct (picked c m1 group_lists (m_local_log_levels (set_level global s) !! c)) as [(x & ls1 & ls2 & Hls & Hx & Hlast & ->)|[Hno ->]]; cbn [default from_option].
  - intros name l' [[d Hd] Hc]. pose proof lists_ordered as Hord. rewrite Hls in Hord. assert (Hd' := Hd). rewrite Hls in Hd'.
    apply elem_of_app in Hd' as [Hd'|[<-|Hd']%elem_of_cons]; [|done|].
    + apply (StronglySorted_app_1_elem_of _ _ _ (name, l', d) x Hord Hd'), list_elem_of_here.
    + exfalso. apply (Hlast _ Hd'). by rewrite (Hnames _ Hd).
  - intros name l' [[d Hd] Hc]. exfalso. apply (Hno _ Hd). by rewrite (Hnames _ Hd).
  - left. assert (Hin : x ∈ group_lists) by (rewrite Hls; apply elem_of_app; right; apply list_elem_of_here).
    exists x.1.1. split; [exists x.2; by destruct x as [[] ]|]. by rewrite <- (Hnames _ Hin).
  - right. split; [|done]. intros name l' [[d Hd] Hc]. apply (Hno _ Hd). by rewrite (Hnames _ Hd).
Qed.

(** A user who wants details of two components only, of which one is in two lists. *)
Definition user_manager : JParameterManager :=
  mkManager (<["log:global"%string := make_parameter "log:global" "Warn" EmptyString EmptyString false false]>
            (<["log:trace"%string := make_parameter "log:trace" "JPool" EmptyString EmptyString false false]>
            (<["log:off"%string := make_parameter "log:off" "JPool,JArrow" EmptyString EmptyString false false]> ∅))) 1 1.

Lemma logger_levels_witness :
  exists s' logger m', acquire_services new_service user_manager = (Ok (s', logger), m') /\
    level (get_logger_of "JPool" s') = TRACE /\ level logger = WARN.
Proof.
  destruct (logger_levels new_service user_manager WARN) as (s' & logger & m' & E & Hg & Hl).
  - repeat constructor; intros p Hp; vm_compute in Hp; by simplify_eq.
  - intros p Hp. vm_compute in Hp. by simplify_eq.
  - vm_compute. reflexivity.
  - exists s', logger, m'. split; [done|]. vm_compute in E. injection E as <- <- _. vm_compute. done.
Defined.

(** Names of levels are read in any case, and as they are written. *)
Lemma level_reads_back l : parse_level (level_name l) = Ok l /\ parse_level (ToLower (level_name l)) = Ok l.
Proof. by destruct l. Qed.

(** The text that is cut loses its last character as well: the end of it is not kept. *)
Lemma truncation_loses_the_end : text (drop 3 (ltrunc (chars "abcdefgh") 4)) = "efg"%string.
Proof. done. Qed.

End Logging.
