(* ===== verification/JBenchmarker.v ===== *)
(** * JBenchmarker: rates at different numbers of threads

    Model of [CLI/JBenchmarker.cc].  What the application answers is an argument: whether it is quitting ([quitting]), its number of threads
    ([threads]) and its rate ([rate]), each at the k-th time it is asked, apart from questions that are only asked for a log message.  Numbers of
    type [double] are those of IEEE 754 with 53 bits.  What the benchmark asks the application to do is written down; the results are the
    rows of the two files.  The loops over numbers of threads and over variables in a file name have fuel; they may not end. *)

From stdpp Require Import sorting.
From Stdlib Require Import SpecFloat Ascii.
From S2P Require Import Prelude JParameterManager.
Import Parameters.
Local Open Scope Z_scope.

Module Benchmarker.

(** ** Arithmetic *)

Abbreviation double := spec_float.
Definition of_int (n : Z) : double := binary_normalize 53 1024 n 0 false.
Definition add : double -> double -> double := SFadd 53 1024.
Definition sub : double -> double -> double := SFsub 53 1024.
Definition mul : double -> double -> double := SFmul 53 1024.
Definition div : double -> double -> double := SFdiv 53 1024.
Definition sqrt : double -> double := SFsqrt 53 1024.

(** ** The benchmark *)

Record Settings := mkSettings {
  m_min_threads : Z; m_max_threads : Z; m_thread_step : Z; m_nsamples : Z; m_output_dir : line; m_copy_script : bool
}.

Definition default_settings (num_cpus : Z) : Settings := mkSettings 1 num_cpus 1 15 (chars "JANA_Test_Results") true.

(** The constructor; [size_t] and [unsigned] parameters go through their own codec. *)
Definition construct `{Codec Z} (num_cpus : Z) : M JParameterManager Settings :=
  let d := default_settings num_cpus in
  _ ← SetParameter "jana:nevents" 0;
  nsamples ← SetDefaultParameter "benchmark:nsamples" (m_nsamples d) "Number of samples for each benchmark test";
  min ← SetDefaultParameter "benchmark:minthreads" (m_min_threads d) "Minimum number of threads for benchmark test";
  max ← SetDefaultParameter "benchmark:maxthreads" (m_max_threads d) "Maximum number of threads for benchmark test";
  step ← SetDefaultParameter "benchmark:threadstep" (m_thread_step d) "Delta number of threads between each benchmark test";
  dir ← SetDefaultParameter "benchmark:resultsdir" (text (m_output_dir d)) "Output directory name for benchmark test results";
  copy ← SetDefaultParameter "benchmark:copyscript" (m_copy_script d) "Copy plotting script to results dir";
  _ ← SetParameter "nthreads" max;
  mret (mkSettings min max step nsamples (chars dir) copy).

Inductive Action := SetTicker (on : bool) | Run (wait_until_finished : bool) | Scale (nthreads : Z) | Stop.

Record Bench := mkBench {
  asked_quitting : nat; asked_threads : nat; asked_rate : nat;
  actions : list Action;
  samples : gmap Z (list double);
  rates : gmap Z (double * double)
}.

Definition start : Bench := mkBench 0 0 0 [] ∅ ∅.

Definition act (a : Action) (b : Bench) : Bench :=
  mkBench (asked_quitting b) (asked_threads b) (asked_rate b) (actions b ++ [a]) (samples b) (rates b).
Definition add_sample (n : Z) (r : double) (b : Bench) : Bench :=
  mkBench (asked_quitting b) (asked_threads b) (asked_rate b) (actions b) (<[n := default [] (samples b !! n) ++ [r]]> (samples b)) (rates b).
Definition set_rate (n : Z) (avg rms : double) (b : Bench) : Bench :=
  mkBench (asked_quitting b) (asked_threads b) (asked_rate b) (actions b) (samples b) (<[n := (avg, rms)]> (rates b)).

Abbreviation MB := (M Bench).

Section Running.
Context (quitting : nat -> bool) (threads : nat -> Z) (rate : nat -> double).

Definition IsQuitting : MB bool := fun b =>
  (Ok (quitting (asked_quitting b)), mkBench (S (asked_quitting b)) (asked_threads b) (asked_rate b) (actions b) (samples b) (rates b)).
Definition GetNThreads : MB Z := fun b =>
  (Ok (threads (asked_threads b)), mkBench (asked_quitting b) (S (asked_threads b)) (asked_rate b) (actions b) (samples b) (rates b)).
Definition GetInstantaneousRate : MB double := fun b =>
  (Ok (rate (asked_rate b)), mkBench (asked_quitting b) (asked_threads b) (S (asked_rate b)) (actions b) (samples b) (rates b)).

(** At most [n] times: wait for the source. *)
Fixpoint wait_for_rate (n : nat) : MB unit :=
  match n with
  | O => mret tt
  | S n => r ← GetInstantaneousRate; if SFltb (of_int 10) r then mret tt else wait_for_rate n
  end.

(** At most [n] times: wait for the threads. *)
Fixpoint wait_for_threads (n : nat) (nthreads : Z) : MB unit :=
  match n with
  | O => mret tt
  | S n => t ← GetNThreads; if t =? nthreads then mret tt else wait_for_threads n nthreads
  end.

(** [n] more samples after [isample]. *)
Fixpoint sample_loop (n : nat) (isample : Z) (nthreads : Z) (sum sum2 : double) : MB unit :=
  match n with
  | O => mret tt
  | S n =>
      q ← IsQuitting;
      if q : bool then mret tt else
      r ← GetInstantaneousRate;
      _ ← modify (add_sample nthreads r);
      let sum := add sum r in
      let sum2 := add sum2 (mul r r) in
      let N := of_int (isample + 1) in
      let avg := div sum N in
      let rms := sqrt (div (sub (add sum2 (mul (mul N avg) avg)) (mul (mul (of_int 2) avg) sum)) N) in
      _ ← modify (set_rate nthreads avg rms);
      sample_loop n (isample + 1) nthreads sum sum2
  end.

(** The loop over numbers of threads: false when the fuel is used up. *)
Fixpoint scale_loop (fuel : nat) (st : Settings) (nthreads : Z) : MB bool :=
  match fuel with
  | O => mret false
  | S fuel =>
      if negb (nthreads <=? m_max_threads st) then mret true else
      q ← IsQuitting;
      if q : bool then mret true else
      _ ← modify (act (Scale nthreads));
      _ ← wait_for_threads 60 nthreads;
      _ ← sample_loop (Z.to_nat (m_nsamples st)) 0 nthreads (of_int 0) (of_int 0);
      scale_loop fuel st (u32 (nthreads + m_thread_step st))
  end.

(** The rows of the two files. *)
Definition sorted_keys {A} (m : gmap Z A) : list (Z * A) := merge_sort (fun a b => Z.leb a.1 b.1) (map_to_list m).
Definition samples_dat (b : Bench) : list (Z * double) := x ← sorted_keys (samples b); (fun r => (x.1, r)) <$> x.2.
Definition rates_dat (b : Bench) : list (Z * (double * double)) := sorted_keys (rates b).

(** The measurement, up to the files. *)
Definition measure (fuel : nat) (st : Settings) : MB bool :=
  _ ← modify (act (SetTicker false));
  _ ← modify (act (Run false));
  _ ← wait_for_rate 5;
  scale_loop fuel st (u32 (m_min_threads st)).

End Running.

(** ** Copying the script *)

(** [find]: where [pat] begins, from position [from]. *)
Fixpoint is_prefix (pat l : line) : bool :=
  match pat, l with
  | [], _ => true
  | c :: pat, d :: l => Ascii.eqb c d && is_prefix pat l
  | _, [] => false
  end.

Fixpoint find_at (pat l : line) (i : nat) : option nat :=
  if is_prefix pat l then Some i else match l with [] => None | _ :: l => find_at pat l (S i) end.

Definition find (pat l : line) (from : nat) : option nat := find_at pat (drop from l) from.

Inductive Copy := Copied (src dst : line) | NotSet (name : line) | Endless.

(** Variables are substituted.  The position of the dollar sign is taken to be that of the second character, because the
    comparison binds more tightly than the assignment. *)
Fixpoint substitute (fuel : nat) (getenv : line -> option line) (new_fname : line) : line + Copy :=
  match fuel with
  | O => inr Endless
  | S fuel =>
      match find (chars "${") new_fname 0 with
      | None => inl new_fname
      | Some _ =>
          match find (chars "}") new_fname 4 with
          | None => substitute fuel getenv new_fname
          | Some pos_end =>
              let envar_name := take (pos_end - 2) (drop 2 new_fname) in
              match getenv envar_name with
              | Some v => substitute fuel getenv (v ++ drop (pos_end + 1) new_fname)
              | None => inr (NotSet envar_name)
              end
          end
      end
  end.

(** The last slash and what follows it; nothing is left of a name without one. *)
Fixpoint from_last_slash (l : line) : option line :=
  match l with
  | [] => None
  | c :: l' => match from_last_slash l' with Some r => Some r | None => if Ascii.eqb c "/" then Some l else None end
  end.

Definition copy_to_output_dir (fuel : nat) (getenv : line -> option line) (dir filename : line) : Copy :=
  match substitute fuel getenv filename with
  | inr c => c
  | inl new_fname => Copied new_fname (dir ++ "/"%char :: default [] (from_last_slash new_fname))
  end.

Record Results := mkResults { done_actions : list Action; file1 : list (Z * double); file2 : list (Z * (double * double)); script : option Copy }.

(** [RunUntilFinished]: [None] if a loop does not end. *)
Definition RunUntilFinished (fuel : nat) (quitting : nat -> bool) (threads : nat -> Z) (rate : nat -> double) (getenv : line -> option line)
    (st : Settings) : outcome (option Results) :=
  match measure quitting threads rate fuel st start with
  | (Ok true, b) =>
      let script := if m_copy_script st then Some (copy_to_output_dir fuel getenv (m_output_dir st) (chars "${JANA_HOME}/bin/jana-plot-scaletest.py")) else None in
      match script with
      | Some Endless => Ok None
      | _ => Ok (Some (mkResults (actions b ++ [Stop]) (samples_dat b) (rates_dat b) script))
      end
  | (Ok false, _) => Ok None
  | (Throw e, _) => Throw e
  | (Undef, _) => Undef
  end.

(** ** What is measured *)

(** Mean and standard deviation, as the code computes them. *)
Definition statistics (l : list double) : double * double :=
  let sum := foldl add (of_int 0) l in
  let sum2 := foldl (fun a r => add a (mul r r)) (of_int 0) l in
  let N := of_int (sizeZ l) in
  let avg := div sum N in
  (avg, sqrt (div (sub (add sum2 (mul (mul N avg) avg)) (mul (mul (of_int 2) avg) sum)) N)).

(** The rows of the files for measurements at increasing numbers of threads. *)
Definition rows1 (ms : list (Z * list double)) : list (Z * double) := x ← ms; (fun r => (x.1, r)) <$> x.2.
Definition rows2 (ms : list (Z * list double)) : list (Z * (double * double)) := (fun x => (x.1, statistics x.2)) <$> ms.

(** Sorting does nothing to what is sorted. *)
Lemma sorted_keys_sorted {A} (l : list (Z * A)) : StronglySorted (fun x y => x < y) l.*1 -> sorted_keys (list_to_map l) = l.
Proof.
  intros Hs. assert (Hnd : NoDup l.*1).
  { induction Hs as [|x k Hk IH Hx]; [constructor|]. apply NoDup_cons. split; [|done]. intros Hin. rewrite Forall_forall in Hx. specialize (Hx x Hin). lia. }
  assert (Hp : sorted_keys (list_to_map l) ≡ₚ l) by (unfold sorted_keys; by rewrite merge_sort_Permutation, map_to_list_to_map).
  apply (StronglySorted_unique_strong (fun a b : Z * A => Is_true (a.1 <=? b.1))); [| | |done].
  - intros [k1 v1] [k2 v2] H1 H2 L1%Is_true_true%Z.leb_le L2%Is_true_true%Z.leb_le. cbn in *. assert (k1 = k2) as -> by lia. f_equal.
    rewrite Hp, (elem_of_list_to_map (M := gmap Z)) in H1 by done. rewrite (elem_of_list_to_map (M := gmap Z)) in H2 by done. congruence.
  - apply StronglySorted_merge_sort.
    + intros x y z ?%Is_true_true%Z.leb_le ?%Is_true_true%Z.leb_le. apply Is_true_true, Z.leb_le. lia.
    + intros x y. rewrite !Is_true_true, !Z.leb_le. lia.
  - clear -Hs. induction l as [|x l IH]; [constructor|]. cbn in Hs. apply StronglySorted_inv in Hs as [Hs Hx]. constructor; [by apply IH|].
    rewrite Forall_fmap in Hx. eapply Forall_impl; [exact Hx|]. intros y Hy. cbn in *. apply Is_true_true, Z.leb_le. lia.
Qed.

Section Covering.
Context (quitting : nat -> bool) (threads : nat -> Z) (rate : nat -> double) (st : Settings).
Context (calm : forall k, quitting k = false).

(** The state after [k] more samples at [t], of which there were [l]. *)
Definition after_samples (k : nat) (t : Z) (l : list double) (b : Bench) : Bench :=
  mkBench (asked_quitting b + k) (asked_threads b) (asked_rate b + k) (actions b)
    (<[t := l ++ (rate <$> seq (asked_rate b) k)]> (samples b)) (<[t := statistics (l ++ (rate <$> seq (asked_rate b) k))]> (rates b)).

Definition sum_of (l : list double) : double := foldl add (of_int 0) l.
Definition squares_of (l : list double) : double := foldl (fun a r => add a (mul r r)) (of_int 0) l.

#[local] Opaque of_int add sub mul div sqrt.

Lemma sample_step k t l b : default [] (samples b !! t) = l ->
  sample_loop quitting rate (S k) (sizeZ l) t (sum_of l) (squares_of l) b =
  let l' := l ++ [rate (asked_rate b)] in
  sample_loop quitting rate k (sizeZ l') t (sum_of l') (squares_of l') (after_samples 1 t l b).
Proof.
  intros Hl. unfold sum_of, squares_of, after_samples, statistics. cbv zeta. cbn [sample_loop fmap list_fmap seq].
  unfold mbind, M_bind at 1, IsQuitting at 1. rewrite calm. unfold GetInstantaneousRate, modify, add_sample, set_rate. cbn -[sample_loop foldl].
  rewrite Hl, !foldl_app, sizeZ_app, !Nat.add_1_r. done.
Qed.

Lemma after_samples_step k t l b :
  after_samples k t (l ++ [rate (asked_rate b)]) (after_samples 1 t l b) = after_samples (S k) t l b.
Proof.
  unfold after_samples. cbn [asked_quitting asked_rate asked_threads actions samples rates fmap list_fmap seq].
  rewrite !insert_insert_eq, !Nat.add_1_r, <- app_assoc. f_equal; lia.
Qed.

Lemma sample_loop_ok k : forall t l b, default [] (samples b !! t) = l ->
  sample_loop quitting rate (S k) (sizeZ l) t (sum_of l) (squares_of l) b = (Ok tt, after_samples (S k) t l b).
Proof.
  induction k as [|k IH]; intros t l b Hl; rewrite sample_step by done; [done|]. cbv zeta. rewrite IH, after_samples_step; [done|].
  cbn. by rewrite lookup_insert_eq.
Qed.

Lemma wait_for_threads_ok n : forall t b, exists j,
  wait_for_threads threads n t b = (Ok tt, mkBench (asked_quitting b) j (asked_rate b) (actions b) (samples b) (rates b)).
Proof.
  induction n as [|n IH]; intros t b; cbn [wait_for_threads]; [exists (asked_threads b); by destruct b|].
  unfold mbind, M_bind, GetNThreads. destruct (_ =? t); [by eexists|]. destruct (IH t (mkBench (asked_quitting b) (S (asked_threads b)) (asked_rate b) (actions b) (samples b) (rates b))) as [j E].
  exists j. exact E.
Qed.

Lemma wait_for_rate_ok n : forall b, exists j, (j <= asked_rate b + n)%nat /\
  wait_for_rate rate n b = (Ok tt, mkBench (asked_quitting b) (asked_threads b) j (actions b) (samples b) (rates b)).
Proof.
  induction n as [|n IH]; intros b; cbn [wait_for_rate]; [exists (asked_rate b); split; [lia|by destruct b]|].
  unfold mbind, M_bind, GetInstantaneousRate. destruct (SFltb _ _); [eexists; split; [|done]; lia|].
  destruct (IH (mkBench (asked_quitting b) (asked_threads b) (S (asked_rate b)) (actions b) (samples b) (rates b))) as (j & Hj & E).
  exists j. cbn in Hj. split; [lia|exact E].
Qed.

(** [k] numbers of threads from [n] on. *)
Fixpoint upto (k : nat) (n : Z) : list Z := match k with O => [] | S k => n :: upto k (n + m_thread_step st) end.

(** What has been measured so far. *)
Record measured (acts : list Action) (ms : list (Z * list double)) (b : Bench) : Prop := {
  measured_samples : samples b = list_to_map ms;
  measured_rates : rates b = list_to_map (rows2 ms);
  measured_actions : actions b = acts ++ (Scale <$> ms.*1)
}.

Lemma rows2_keys ms : (rows2 ms).*1 = ms.*1.
Proof. unfold rows2. by rewrite <- list_fmap_compose. Qed.

Lemma measured_below {A} (ms : list (Z * A)) n : Forall (fun m => m < n) ms.*1 -> n ∉ ms.*1.
Proof. intros H Hn. rewrite Forall_forall in H. specialize (H n Hn). lia. Qed.

Context (positive : 0 < m_thread_step st) (some_samples : 0 < m_nsamples st) (no_overflow : m_max_threads st + m_thread_step st < 2 ^ 32).

Lemma one_count fuel n b acts ms : 0 <= n <= m_max_threads st -> measured acts ms b -> Forall (fun m => m < n) ms.*1 ->
  let N := Z.to_nat (m_nsamples st) in
  exists b', scale_loop quitting threads rate (S fuel) st n b = scale_loop quitting threads rate fuel st (n + m_thread_step st) b' /\
    asked_rate b' = (asked_rate b + N)%nat /\ measured acts (ms ++ [(n, rate <$> seq (asked_rate b) N)]) b'.
Proof.
  intros Hn [Hs Hr Ha] Hm N. assert (E0 : N = S (pred N)) by lia. pose proof (measured_below _ _ Hm) as Hnew. cbn [scale_loop].
  rewrite (proj2 (Z.leb_le _ _) (proj2 Hn)). cbn [negb].
  set (b1 := mkBench (S (asked_quitting b)) (asked_threads b) (asked_rate b) (actions b ++ [Scale n]) (samples b) (rates b)).
  destruct (wait_for_threads_ok 60 n b1) as [j Ew]. set (b2 := mkBench _ j _ _ _ _) in Ew.
  assert (Hnone : samples b2 !! n = None) by (cbn; rewrite Hs; by apply not_elem_of_list_to_map).
  pose proof (sample_loop_ok (pred N) n [] b2) as Es. rewrite Hnone in Es. specialize (Es eq_refl). rewrite <- E0 in Es.
  exists (after_samples N n [] b2). split; [|split; [done|]].
  - assert (Eq : IsQuitting quitting b = (Ok false, mkBench (S (asked_quitting b)) (asked_threads b) (asked_rate b) (actions b) (samples b) (rates b))).
    { unfold IsQuitting. by rewrite calm. }
    mstep Eq. rewrite M_bind_modify. change (act (Scale n) _) with b1. mstep Ew. fold N. mstep Es. unfold u32. rewrite Z.mod_small by lia. done.
  - split; cbn [after_samples samples rates actions b2 b1 asked_rate app].
    + by rewrite Hs, list_to_map_snoc.
    + unfold rows2. rewrite Hr, fmap_app. cbn [fmap list_fmap fst snd]. rewrite list_to_map_snoc by by rewrite rows2_keys. done.
    + rewrite Ha, !fmap_app, app_assoc. done.
Qed.

Lemma scale_loop_ok k : forall fuel n b acts ms, (k < fuel)%nat -> 0 <= n -> m_max_threads st < n + Z.of_nat k * m_thread_step st ->
  (k = 0%nat \/ n + (Z.of_nat k - 1) * m_thread_step st <= m_max_threads st) -> measured acts ms b -> Forall (fun m => m < n) ms.*1 ->
  let N := Z.to_nat (m_nsamples st) in
  exists b' ms', scale_loop quitting threads rate fuel st n b = (Ok true, b') /\ measured acts (ms ++ ms') b' /\
    ms'.*1 = upto k n /\ Forall (fun l => length l = N) ms'.*2 /\ concat ms'.*2 = rate <$> seq (asked_rate b) (k * N).
Proof.
  induction k as [|k IH]; intros fuel n b acts ms Hf Hn Hmax Hk Hm Hb N; (destruct fuel as [|fuel]; [lia|]).
  - exists b, []. rewrite app_nil_r. cbn [scale_loop]. rewrite (proj2 (Z.leb_gt _ _)) by lia. done.
  - destruct Hk as [|Hk]; [done|]. destruct (one_count fuel n b acts ms) as (b1 & E & Hr & Hm1); [nia|done|done|].
    destruct (IH fuel (n + m_thread_step st) b1 acts (ms ++ [(n, rate <$> seq (asked_rate b) N)])) as (b' & ms' & E' & Hm' & Hkeys & Hlen & Hcat);
      [lia|lia|lia|destruct k; [by left|right; lia]|done| |].
    + rewrite fmap_app. apply Forall_app. split; [eapply Forall_impl; [exact Hb|]; intros x Hx; cbn in *; lia|]. repeat constructor. cbn. lia.
    + exists b', ((n, rate <$> seq (asked_rate b) N) :: ms'). rewrite E, E'. split; [done|]. split; [by rewrite <- app_assoc in Hm'|].
      cbn [fmap list_fmap fst snd upto concat]. rewrite Hkeys. split; [done|]. split; [constructor; [by rewrite length_fmap, length_seq|done]|].
      change (concat ((rate <$> seq (asked_rate b) N) :: ms'.*2)) with ((rate <$> seq (asked_rate b) N) ++ concat ms'.*2).
      rewrite Hcat, Hr, <- fmap_app, <- seq_app. done.
Qed.

Lemma upto_above k : forall n, Forall (fun m => n <= m) (upto k n) /\ StronglySorted (fun x y => x < y) (upto k n).
Proof.
  induction k as [|k IH]; intros n; cbn [upto]; [repeat constructor|]. destruct (IH (n + m_thread_step st)) as [Ha Hs].
  assert (Ha' : Forall (fun m => n < m) (upto k (n + m_thread_step st))) by (eapply Forall_impl; [exact Ha|]; intros x Hx; cbn in *; lia).
  split; constructor; [lia| |done|done]. eapply Forall_impl; [exact Ha'|]. intros x Hx. cbn in *. lia.
Qed.

Lemma upto_seq k : forall n, upto k n = (fun i => n + Z.of_nat i * m_thread_step st) <$> seq 0 k.
Proof.
  induction k as [|k IH]; intros n; [done|]. cbn [upto seq]. rewrite fmap_cons, IH, <- fmap_S_seq, <- list_fmap_compose.
  f_equal; [lia|]. apply list_fmap_ext. intros i x _. cbn. lia.
Qed.

(** The number of steps. *)
Definition rounds : nat := Z.to_nat ((m_max_threads st - m_min_threads st) / m_thread_step st + 1).

Lemma rounds_ok : m_max_threads st < m_min_threads st + Z.of_nat rounds * m_thread_step st /\
  (rounds = 0%nat \/ m_min_threads st + (Z.of_nat rounds - 1) * m_thread_step st <= m_max_threads st).
Proof.
  unfold rounds. set (d := m_max_threads st - m_min_threads st). pose proof (Z.div_mod d (m_thread_step st)). pose proof (Z.mod_pos_bound d (m_thread_step st)).
  set (q := d / m_thread_step st) in *. destruct (decide (0 <= q + 1)).
  - rewrite Z2Nat.id by lia. split; [nia|right; nia].
  - assert (Z.to_nat (q + 1) = 0%nat) as -> by lia. split; [nia|by left].
Qed.

Lemma measure_ok fuel : (rounds < fuel)%nat -> 0 <= m_min_threads st < 2 ^ 32 ->
  exists b ms first, (first <= 5)%nat /\ measure quitting threads rate fuel st start = (Ok true, b) /\ measured [SetTicker false; Run false] ms b /\
    ms.*1 = upto rounds (m_min_threads st) /\ Forall (fun l => length l = Z.to_nat (m_nsamples st)) ms.*2 /\
    concat ms.*2 = rate <$> seq first (rounds * Z.to_nat (m_nsamples st)).
Proof.
  intros Hf Hm. unfold measure. rewrite !M_bind_modify. destruct (wait_for_rate_ok 5 (act (Run false) (act (SetTicker false) start))) as (j & Hj & Ew).
  mstep Ew. unfold u32. rewrite Z.mod_small by lia. destruct rounds_ok as [R1 R2].
  set (b0 := mkBench _ _ j _ _ _).
  destruct (scale_loop_ok rounds fuel (m_min_threads st) b0 [SetTicker false; Run false] []) as (b' & ms & E & Hms & H1 & H2 & H3); [done|lia|done|done|done|constructor|].
  exists b', ms, j. done.
Qed.

End Covering.

Lemma from_last_slash_app a l r : from_last_slash l = Some r -> from_last_slash (a ++ l) = Some r.
Proof. intros H. induction a as [|c a IH]; [done|]. cbn. by rewrite IH. Qed.

Definition script_name : line := chars "/bin/jana-plot-scaletest.py".

Lemma script_copied fuel getenv dir home : (2 <= fuel)%nat -> getenv (chars "JANA_HOME") = Some home -> find (chars "${") (home ++ script_name) 0 = None ->
  copy_to_output_dir fuel getenv dir (chars "${JANA_HOME}/bin/jana-plot-scaletest.py") =
    Copied (home ++ script_name) (dir ++ chars "//jana-plot-scaletest.py").
Proof.
  intros Hf Hh Hn. destruct fuel as [|[|fuel]]; [lia|lia|]. unfold copy_to_output_dir.
  assert (E : substitute (S (S fuel)) getenv (chars "${JANA_HOME}/bin/jana-plot-scaletest.py") = inl (home ++ script_name)).
  { cbn [substitute].
    change (find (chars "${") (chars "${JANA_HOME}/bin/jana-plot-scaletest.py") 0) with (Some 0%nat).
    change (find (chars "}") (chars "${JANA_HOME}/bin/jana-plot-scaletest.py") 4) with (Some 11%nat). cbv iota zeta.
    change (take (11 - 2) _) with (chars "JANA_HOME"). rewrite Hh. change (drop (11 + 1) _) with script_name. by rewrite Hn. }
  rewrite E, (from_last_slash_app home script_name (chars "/jana-plot-scaletest.py") eq_refl). done.
Qed.

(** The benchmark measures every number of threads that it is asked for.  With a positive step and a maximum from which one step does not
    overflow, and an application that does not quit, the benchmark ends.  It asks for the numbers from the minimum to the maximum, in steps, each
    once and in this order, and stops the application at the end.  At each number it takes as many samples as it should, all of
    them consecutive rates of the application; the files have these samples and their means and deviations, by increasing number
    of threads; and the script is copied from [JANA_HOME]. *)
Theorem benchmark_covers_the_range quitting threads rate getenv home st fuel :
  (forall k, quitting k = false) -> 0 < m_thread_step st -> 0 < m_nsamples st -> 0 <= m_min_threads st < 2 ^ 32 ->
  m_max_threads st + m_thread_step st < 2 ^ 32 -> (rounds st < fuel)%nat -> (2 <= fuel)%nat ->
  getenv (chars "JANA_HOME") = Some home -> find (chars "${") (home ++ script_name) 0 = None ->
  exists ms first, (first <= 5)%nat /\
    RunUntilFinished fuel quitting threads rate getenv st =
      Ok (Some (mkResults ([SetTicker false; Run false] ++ (Scale <$> ms.*1) ++ [Stop]) (rows1 ms) (rows2 ms)
        (if m_copy_script st then Some (Copied (home ++ script_name) (m_output_dir st ++ chars "//jana-plot-scaletest.py")) else None))) /\
    ms.*1 = (fun i => m_min_threads st + Z.of_nat i * m_thread_step st) <$> seq 0 (rounds st) /\
    Forall (fun l => length l = Z.to_nat (m_nsamples st)) ms.*2 /\
    concat ms.*2 = rate <$> seq first (rounds st * Z.to_nat (m_nsamples st)).
Proof.
  intros Hq Hp Hs Hm Ho Hf Hf2 Hh Hn. destruct (measure_ok quitting threads rate st Hq Hp Hs Ho fuel Hf Hm) as (b & ms & first & Hfirst & E & [Ms Mr Ma] & K & Len & Cat).
  exists ms, first. split; [done|]. rewrite <- upto_seq. split; [|done]. unfold RunUntilFinished. rewrite E. rewrite (script_copied fuel getenv _ home) by done.
  assert (Hsorted : StronglySorted (fun x y => x < y) ms.*1) by (rewrite K; by apply upto_above).
  unfold samples_dat, rates_dat. rewrite Ma, Ms, Mr, !sorted_keys_sorted by (rewrite ?rows2_keys; done). by destruct (m_copy_script st).
Qed.

Definition small_settings : Settings := mkSettings 1 6 2 2 (chars "out") true.
Definition home_of (name : line) : option line := if decide (name = chars "JANA_HOME") then Some (chars "/opt/jana") else None.

Lemma benchmark_covers_the_range_witness :
  exists ms first, (first <= 5)%nat /\
    RunUntilFinished 4 (fun _ => false) (fun _ => 1) (fun k => of_int (Z.of_nat k)) home_of small_settings =
      Ok (Some (mkResults ([SetTicker false; Run false] ++ (Scale <$> ms.*1) ++ [Stop]) (rows1 ms) (rows2 ms)
        (Some (Copied (chars "/opt/jana/bin/jana-plot-scaletest.py") (chars "out//jana-plot-scaletest.py"))))) /\ ms.*1 = [1; 3; 5].
Proof.
  destruct (benchmark_covers_the_range (fun _ => false) (fun _ => 1) (fun k => of_int (Z.of_nat k)) home_of (chars "/opt/jana") small_settings 4)
    as (ms & first & Hf & E & K & _); [done|done|done|done|done|vm_compute; lia|lia|vm_compute; reflexivity|vm_compute; reflexivity|].
  exists ms, first. split; [exact Hf|]. split; [exact E|exact K].
Defined.

(** ** Difficulties *)

Lemma sample_loop_returns quitting rate k : forall i n sum sum2 b, exists b', sample_loop quitting rate k i n sum sum2 b = (Ok tt, b').
Proof.
  induction k as [|k IH]; intros i n sum sum2 b; cbn [sample_loop]; [by exists b|]. unfold mbind, M_bind at 1, IsQuitting at 1.
  destruct (quitting _); [by eexists|]. unfold GetInstantaneousRate, modify. cbv beta iota zeta. apply IH.
Qed.

(** With a step of zero the loop never ends. *)
Lemma zero_step_never_ends threads rate getenv max nsamples dir copy fuel : 1 <= max ->
  RunUntilFinished fuel (fun _ => false) threads rate getenv (mkSettings 1 max 0 nsamples dir copy) = Ok None.
Proof.
  intros Hm. unfold RunUntilFinished, measure. rewrite !M_bind_modify.
  destruct (wait_for_rate_ok rate 5 (act (Run false) (act (SetTicker false) start))) as (j & _ & Ew). mstep Ew. change (u32 _) with 1.
  assert (L : forall b, exists b', scale_loop (fun _ => false) threads rate fuel (mkSettings 1 max 0 nsamples dir copy) 1 b = (Ok false, b')).
  { induction fuel as [|fuel IH]; intros b; [by exists b|]. cbn [scale_loop m_max_threads]. rewrite (proj2 (Z.leb_le 1 max) Hm). cbn [negb].
    mstep (eq_refl (IsQuitting (fun _ => false) b)). rewrite M_bind_modify.
    destruct (wait_for_threads_ok threads 60 1 (act (Scale 1) (IsQuitting (fun _ => false) b).2)) as [i Ei]. mstep Ei.
    edestruct sample_loop_returns as [b' Es]. mstep Es. apply IH. }
  match goal with |- context [scale_loop _ _ _ _ _ 1 ?b] => destruct (L b) as [b' E] end. by rewrite E.
Qed.

(** The deviation of three equal rates is not a number: rounding makes the argument of the root negative. *)
Lemma equal_rates_are_not_a_number : (statistics (replicate 3 (div (of_int 1) (of_int 10)))).2 = S754_nan.
Proof. vm_compute. done. Qed.

(** The substitution does not end either if a variable has no closing brace, or a name of one letter. *)
Lemma open_brace_never_ends fuel getenv dir : copy_to_output_dir fuel getenv dir (chars "${A}/x") = Endless.
Proof. unfold copy_to_output_dir. assert (E : substitute fuel getenv (chars "${A}/x") = inr Endless) by by induction fuel. by rewrite E. Qed.

(** A variable that is not at the beginning of the name is misread. *)
Lemma variable_must_come_first : copy_to_output_dir 9 home_of (chars "out") (chars "/x/${JANA_HOME}/y") = NotSet (chars "/${JANA_HOME").
Proof. vm_compute. done. Qed.





End Benchmarker.
