(* ===== verification/JCalibrationFile.v ===== *)
(** * JCalibrationFile: calibration constants in text files

    Model of [Calibrations/JCalibrationFile.cc] and of the routines of [Calibrations/JCalibration.cc] that write files in its format.
    A file is the list of its characters, or [None] if it cannot be opened; a directory is a tree.  A set of constants is a
    map from names to values, both lists of characters; [std::map] is traversed in the order of its keys.  A request
    returns whether it failed, as the code does, and the constants.  Date, host and the like are arguments. *)

From stdpp Require Import sorting pretty.
From Stdlib Require Import Ascii.
From S2P Require Import Prelude JParameterManager.
Import Parameters.
Local Open Scope nat_scope.

Module CalibrationFile.

Abbreviation Constants := (gmap line line).

(** What [getline] delivers with delimiter [d]: a last piece only if it is not empty. *)
Fixpoint delivered (d : ascii) (buf l : line) : list line :=
  match l with
  | [] => if decide (buf = []) then [] else [buf]
  | c :: l => if Ascii.eqb c d then buf :: delivered d [] l else delivered d (buf ++ [c]) l
  end.

Definition newline : ascii := "010"%char.

Definition starts_with (c : ascii) (l : line) : bool := match l with x :: _ => Ascii.eqb x c | [] => false end.

(** [setw(4) << setfill('0')] of a number. *)
Definition default_key (n : nat) : line :=
  let digits := chars (pretty n) in replicate (4 - length digits) "0"%char ++ digits.

Definition unable_to_open {A} (fname : line) : outcome A := throwJ ("Unable to open " +:+ quoted (text fname) +:+ "!").

(** ** Lists of values *)

(** The key and the value of a line that is not skipped; [nvals] is the number of those before it. *)
Definition key_value (nvals : nat) (l : line) : line * line :=
  let key := hd [] (tokens l) in
  if decide (key = l) then (default_key nvals, key) else (key, hd [] (tl (tokens l))).

Fixpoint key_values (nvals : nat) (ls : list line) : list (line * line) :=
  match ls with
  | [] => []
  | l :: ls =>
      if bool_decide (l = []) || starts_with "#" l then key_values nvals ls
      else key_value nvals l :: key_values (S nvals) ls
  end.

Definition insert_pair (m : Constants) (kv : line * line) : Constants := <[kv.1 := kv.2]> m.

Definition GetCalib_map (fname : line) (file : option line) : outcome (bool * Constants) :=
  match file with
  | None => unable_to_open fname
  | Some content => Ok (false, foldl insert_pair ∅ (key_values 0 (delivered newline [] content)))
  end.

Definition GetCalib_vector (fname : line) (file : option line) : outcome (bool * list line) :=
  match file with
  | None => unable_to_open fname
  | Some content => Ok (false, (key_values 0 (delivered newline [] content)).*2)
  end.

(** ** Tables *)

(** A row: the columns that have no name get one. *)
Fixpoint name_columns (colnames : list line) (icol : nat) (vals : list line) (mval : Constants) : list line * Constants :=
  match vals with
  | [] => (colnames, mval)
  | val :: vals =>
      let colnames := if length colnames <=? icol then colnames ++ [default_key icol] else colnames in
      name_columns colnames (S icol) vals (<[default [] (colnames !! icol) := val]> mval)
  end.

Definition is_column_line (l : line) : bool := bool_decide (take 2 l = chars "#%").

Fixpoint table_rows (colnames : list line) (ls : list line) : list Constants :=
  match ls with
  | [] => []
  | l :: ls =>
      if bool_decide (l = []) then table_rows colnames ls else
      let colnames := if is_column_line l then tokens (drop 2 l) else colnames in
      if starts_with "#" l then table_rows colnames ls else
      let '(colnames, mval) := name_columns colnames 0 (tokens l) ∅ in
      mval :: table_rows colnames ls
  end.

(** The comparison of the rows with the first one, which is undefined if there is none. *)
Definition uneven {A} (size : A -> nat) (rows : list A) : outcome bool :=
  match rows with
  | [] => Undef
  | r :: rows => Ok (negb (forallb (fun x => size x =? size r) rows))
  end.

Definition GetCalib_table (fname : line) (file : option line) : outcome (bool * list Constants) :=
  match file with
  | None => unable_to_open fname
  | Some content =>
      let rows := table_rows [] (delivered newline [] content) in
      err ← uneven size rows; Ok (err, rows)
  end.

(** The version with vectors; the names of columns have no effect. *)
Fixpoint vector_rows (ls : list line) : list (list line) :=
  match ls with
  | [] => []
  | l :: ls => if bool_decide (l = []) || starts_with "#" l then vector_rows ls else tokens l :: vector_rows ls
  end.

Definition GetCalib_vectors (fname : line) (file : option line) : outcome (bool * list (list line)) :=
  match file with
  | None => unable_to_open fname
  | Some content =>
      let rows := vector_rows (delivered newline [] content) in
      err ← uneven length rows; Ok (err, rows)
  end.

(** ** Writing *)

Definition by_key (m : Constants) : list (line * line) :=
  merge_sort (fun a b => String.leb (text a.1) (text b.1)) (map_to_list m).

Definition ended (l : line) : line := l ++ [newline].

Record Origin := mkOrigin { created : line; host : option line; author : line; namepath : line; context : line; run_min : Z; run_max : Z }.

(** The lines of the comment.  The test for an end of line takes the number of lines for the length of the line: it
    looks behind its end if there are more lines than it has characters. *)
Definition comment_line (n : nat) (l : line) : outcome line :=
  if length l <? n - 1 then Undef
  else Ok (chars "# " ++ l ++ (if bool_decide (l !! (n - 1) = Some newline) then [] else [newline])).

Fixpoint all_lines (n : nat) (ls : list line) : outcome line :=
  match ls with
  | [] => Ok []
  | l :: ls => x ← comment_line n l; rest ← all_lines n ls; Ok (x ++ rest)
  end.

(** [CreateItemFile]: the header; [ctime] ends its line itself. *)
Definition CreateItemFile (o : Origin) (comment : line) : outcome line :=
  let lines := delivered newline [] comment in
  cs ← all_lines (length lines) lines;
  Ok (concat (ended <$>
        [chars "#"; chars "# Created: " ++ created o; chars "# Host: " ++ default (chars "unknown") (host o); chars "# Author: " ++ author o;
         chars "# Namepath: " ++ namepath o; chars "# Context: " ++ context o;
         chars "# Run range: " ++ chars (pretty (run_min o)) ++ chars " - " ++ chars (pretty (run_max o)); chars "#"; chars "# Comment:"])
      ++ cs ++ ended (chars "#")).

(** [PutCalib] returns [true] also when it has written the file.  [None]: the file could not be opened. *)
Definition PutCalib_map (is_open : bool) (o : Origin) (svals : Constants) (comment : line) : outcome (bool * option line) :=
  if negb is_open then Ok (true, None) else
  header ← CreateItemFile o comment;
  Ok (true, Some (header ++ concat ((fun kv => ended (kv.1 ++ chars "  " ++ kv.2)) <$> by_key svals))).

Definition put_row (colnames : list line) (mvals : Constants) : line :=
  ended (concat ((fun c => default [] (mvals !! c) ++ chars "  ") <$> colnames)).

Definition PutCalib_table (is_open : bool) (o : Origin) (svals : list Constants) (comment : line) : outcome (bool * option line) :=
  match svals with
  | [] => Ok (true, None)
  | first :: _ =>
      if negb is_open then Ok (true, None) else
      header ← CreateItemFile o comment;
      let colnames := (by_key first).*1 in
      Ok (true, Some (header ++ ended (chars "#% " ++ concat ((fun c => " "%char :: c) <$> colnames)) ++ concat (put_row colnames <$> svals)))
  end.

(** The files that [DumpCalibrationsToFiles] writes. *)
Definition WriteCalibFileVector (r : outcome (bool * Constants)) : outcome line :=
  '(err, vals) ← r; Ok (if err : bool then [] else concat ((fun kv => ended kv.2) <$> by_key vals)).
Definition WriteCalibFileMap (r : outcome (bool * Constants)) : outcome line :=
  '(err, vals) ← r; Ok (if err : bool then [] else concat ((fun kv => ended (kv.1 ++ "009"%char :: kv.2)) <$> by_key vals)).

Definition dump_row (m : Constants) : line := ended (concat ((fun kv => " "%char :: kv.2) <$> by_key m)).
Definition dump_names (m : Constants) : line := ended (chars "#%" ++ concat ((fun kv => chars "  " ++ kv.1) <$> by_key m)).

Definition WriteCalibFileVectorVector (r : outcome (bool * list Constants)) : outcome line :=
  '(err, vals) ← r; Ok (if err : bool then [] else concat (dump_row <$> vals)).
Definition WriteCalibFileVectorMap (r : outcome (bool * list Constants)) : outcome line :=
  '(err, vals) ← r;
  Ok (if err : bool then [] else from_option dump_names [] (head vals) ++ concat (dump_row <$> vals)).

(** ** Directories *)

(** [MakeDirectoryPath]: the directories that are created, in order. *)
Fixpoint subdirectories (dirname : line) (dirs : list line) : list line :=
  match dirs with
  | [] | [_] => []
  | d :: dirs => let dirname := dirname ++ "/"%char :: d in dirname :: subdirectories dirname dirs
  end.

Definition MakeDirectoryPath (basedir namepath : line) : list line :=
  match delivered "/" [] namepath with
  | [] => []
  | dirs => basedir :: subdirectories basedir dirs
  end.

(** What is in a directory, in the order of [readdir]. *)
Inductive Entry := File (name : line) | Directory (name : line) (entries : list Entry).

Definition entry_name (e : Entry) : line := match e with File n | Directory n _ => n end.

Definition ignored_names : list line := [chars "."; chars ".."; chars ".svn"; chars "info.xml"; chars ".DS_Store"].

(** [AddToNamepathList] with the length of [basedir]. *)
Fixpoint AddToNamepathList (base : nat) (dirname : line) (e : Entry) : list line :=
  if bool_decide (entry_name e ∈ ignored_names) then [] else
  match e with
  | File name => [drop base (dirname ++ "/"%char :: name)]
  | Directory name es => concat (AddToNamepathList base (dirname ++ "/"%char :: name) <$> es)
  end.

Definition GetListOfNamepaths (basedir : line) (es : list Entry) : list line :=
  concat (AddToNamepathList (length basedir) (take (length basedir - 1) basedir) <$> es).

(** ** What is written reads back *)

(** A line without line ends. *)
Definition one_line (l : line) : Prop := Forall (fun c => c <> newline) l.

Lemma unspaced_one_line t : unspaced t -> one_line t.
Proof. intros Ht. eapply Forall_impl; [exact Ht|]. by intros c Hc ->. Qed.

Lemma delivered_piece d l : forall buf rest, Forall (fun c => c <> d) l -> delivered d buf (l ++ d :: rest) = (buf ++ l) :: delivered d [] rest.
Proof.
  induction l as [|c l IH]; intros buf rest Hl; cbn [app delivered]; [by rewrite Ascii.eqb_refl, app_nil_r|].
  apply Forall_cons in Hl as [Hc Hl]. rewrite (proj2 (Ascii.eqb_neq c d) Hc), IH, <- app_assoc by done. done.
Qed.

Lemma delivered_lines ls rest : Forall one_line ls -> delivered newline [] (concat (ended <$> ls) ++ rest) = ls ++ delivered newline [] rest.
Proof.
  induction 1 as [|l ls Hl _ IH]; [done|]. rewrite fmap_cons. cbn [concat]. unfold ended at 1.
  rewrite <- !app_assoc. cbn [app]. rewrite delivered_piece, IH by done. done.
Qed.

Lemma delivered_all ls : Forall one_line ls -> delivered newline [] (concat (ended <$> ls)) = ls.
Proof. intros Hl. rewrite <- (app_nil_r (concat _)), delivered_lines by done. cbn. by rewrite app_nil_r. Qed.

Lemma delivered_one_line l : forall buf, one_line buf -> Forall one_line (delivered newline buf l).
Proof.
  induction l as [|c l IH]; intros buf Hb; cbn [delivered].
  - case_decide; [constructor|by constructor].
  - destruct (Ascii.eqb_spec c newline); [constructor; [done|by apply IH; constructor]|]. apply IH. apply Forall_app. split; [done|by constructor].
Qed.

(** The header consists of comment lines. *)
Definition commented (l : line) : Prop := one_line l /\ (exists rest, l = "#"%char :: rest /\ head rest <> Some "%"%char).

Definition origin_ok (o : Origin) : Prop :=
  Forall one_line [created o; default [] (host o); author o; namepath o; context o].

(** The comment that does not run into the wrong test. *)
Definition comment_ok (comment : line) : Prop :=
  let lines := delivered newline [] comment in Forall (fun l => length lines - 1 <= length l) lines.

Lemma all_lines_ok n ls : Forall one_line ls -> Forall (fun l => n - 1 <= length l) ls ->
  all_lines n ls = Ok (concat (ended <$> ((fun l => chars "# " ++ l) <$> ls))).
Proof.
  induction 1 as [|l ls Hl _ IH]; intros Hlen; [done|]. apply Forall_cons in Hlen as [Hll Hlen]. cbn [all_lines]. unfold comment_line.
  rewrite (proj2 (Nat.ltb_ge _ _) Hll). rewrite bool_decide_false by (intros Hn; by apply (Forall_lookup_1 _ _ _ _ Hl Hn)).
  rewrite IH by done. cbn. unfold ended. f_equal.
Qed.

Lemma pretty_go_one_line x : forall s, one_line (chars s) -> one_line (chars (pretty_N_go x s)).
Proof.
  induction (N.lt_wf_0 x) as [x _ IH]. intros s Hs. destruct (decide (x = 0)%N) as [->|Hx]; [by rewrite pretty_N_go_0|].
  rewrite pretty_N_go_step by lia. apply IH; [apply N.div_lt; lia|]. change (one_line (pretty_N_char (x mod 10) :: chars s)).
  constructor; [|done]. unfold pretty_N_char. by repeat case_match.
Qed.

Lemma pretty_one_line (z : Z) : one_line (chars (pretty z)).
Proof.
  assert (HN : forall x : N, one_line (chars (pretty x))).
  { intros x. unfold pretty, pretty_N. case_decide; [by repeat constructor|]. apply pretty_go_one_line. constructor. }
  destruct z as [|p|p]; [by repeat constructor|apply HN|]. change (one_line ("-"%char :: chars (pretty (N.pos p)))). constructor; [done|apply HN].
Qed.

Lemma commented_intro l : one_line l -> head l = Some "#"%char -> l !! 1 <> Some "%"%char -> commented l.
Proof. intros Hl Hh Hp. split; [done|]. destruct l as [|c l]; [done|]. injection Hh as ->. exists l. split; [done|]. by destruct l. Qed.

(** The lines of the header. *)
Lemma header_lines o comment : origin_ok o -> comment_ok comment ->
  exists hs, CreateItemFile o comment = Ok (concat (ended <$> hs)) /\ Forall commented hs.
Proof.
  intros Ho Hc. unfold CreateItemFile. pose proof (delivered_one_line comment [] (Forall_nil_2 _)) as Hl.
  unfold comment_ok in Hc. set (ls := delivered newline [] comment) in *. rewrite all_lines_ok by done. cbn [mbind outcome_bind].
  set (hs := [_; _; _; _; _; _; _; _; _]). exists (hs ++ ((fun l => chars "# " ++ l) <$> ls) ++ [chars "#"]). split.
  { rewrite !fmap_app, !concat_app. cbn [fmap list_fmap concat]. by rewrite app_nil_r. }
  unfold origin_ok in Ho. rewrite !Forall_cons in Ho. destruct Ho as (H1 & H2 & H3 & H4 & H5 & _).
  assert (Hh : one_line (default (chars "unknown") (host o))) by (destruct (host o); [done|by repeat constructor]).
  rewrite !Forall_app. split; [|split; [|by constructor; [apply commented_intro; [by repeat constructor|done..]|]]].
  - unfold hs. repeat (constructor; [apply commented_intro; [repeat (apply Forall_app; split);
      (apply pretty_one_line || done || (by repeat constructor))|done..]|]). constructor.
  - apply Forall_fmap. eapply Forall_impl; [exact Hl|]. intros l Hl'. apply commented_intro; [|done..].
    apply Forall_app. split; [by repeat constructor|done].
Qed.

Lemma skip_comments n hs ls : Forall (fun h => starts_with "#" h = true) hs -> key_values n (hs ++ ls) = key_values n ls.
Proof.
  induction 1 as [|h hs Hh _ IH]; [done|]. cbn [app key_values]. rewrite Hh, orb_true_r. exact IH.
Qed.

Lemma commented_starts hs : Forall commented hs -> Forall (fun h => starts_with "#" h = true) hs.
Proof. intros H. eapply Forall_impl; [exact H|]. by intros h (_ & rest & -> & _). Qed.

Lemma skip_comments_table cols hs ls : Forall commented hs -> table_rows cols (hs ++ ls) = table_rows cols ls.
Proof.
  induction 1 as [|h hs (_ & rest & -> & Hr) _ IH]; [done|]. cbn [app table_rows]. rewrite bool_decide_false by done.
  unfold is_column_line. rewrite bool_decide_false; [exact IH|]. destruct rest as [|c rest]; [done|]. cbn. intros [= ->]. done.
Qed.

(** A key: a name that does not look like a comment. *)
Definition key_ok (k : line) : Prop := k <> [] /\ unspaced k /\ head k <> Some "#"%char.

Lemma key_starts k l : key_ok k -> starts_with "#" (k ++ l) = false.
Proof. intros (Hne & _ & Hh). destruct k as [|c k]; [done|]. cbn. apply Ascii.eqb_neq. intros ->. by apply Hh. Qed.

Lemma tokens_one v : unspaced v -> tokens v = if decide (v = []) then [] else [v].
Proof. intros Hv. unfold tokens. rewrite <- (app_nil_r v) at 1. by rewrite tokens_from_unspaced. Qed.

Lemma tokens_space c l : is_space c = true -> tokens (c :: l) = tokens l.
Proof. intros Hc. unfold tokens. cbn. by rewrite Hc. Qed.

(** A line with a key, some blanks and a value. *)
Lemma key_value_line n k sep v : key_ok k -> unspaced v -> sep <> [] -> Forall (fun c => is_space c = true) sep ->
  key_value n (k ++ sep ++ v) = (k, v).
Proof.
  intros (Hne & Hk & _) Hv Hsep Hs. assert (T : tokens (k ++ sep ++ v) = k :: tokens v).
  { destruct Hs as [|c sep Hc Hs]; [done|]. cbn [app]. rewrite tokens_unspaced by done. f_equal.
    induction Hs as [|c' sep Hc' _ IH]; [done|]. cbn [app]. rewrite tokens_space by done. apply IH. done. }
  unfold key_value. rewrite T. cbn [hd tl]. rewrite decide_False.
  - rewrite (tokens_one v Hv). case_decide; by subst.
  - intros E. apply (f_equal length) in E. rewrite !length_app in E. destruct sep; [done|]. cbn in E. lia.
Qed.

Lemma key_values_lines sep kvs : sep <> [] -> Forall (fun c => is_space c = true) sep ->
  Forall (fun kv => key_ok kv.1 /\ unspaced kv.2) kvs -> forall n, key_values n ((fun kv => kv.1 ++ sep ++ kv.2) <$> kvs) = kvs.
Proof.
  intros Hne Hs. induction 1 as [|[k v] kvs [Hk Hv] _ IH]; intros n; [done|]. cbn [fmap list_fmap key_values fst snd] in *.
  rewrite bool_decide_false by (intros E; apply app_nil in E as [-> _]; by destruct Hk). rewrite key_starts by done. cbn [orb].
  rewrite key_value_line by done. f_equal. apply IH.
Qed.

Lemma foldl_insert kvs : forall m, NoDup kvs.*1 -> foldl insert_pair m kvs = list_to_map kvs ∪ m.
Proof.
  induction kvs as [|[k v] kvs IH]; intros m Hnd; cbn [foldl]; [by rewrite list_to_map_nil, (left_id_L ∅ (∪))|]. cbn in Hnd.
  apply NoDup_cons in Hnd as [Hk Hnd]. rewrite IH by done. unfold insert_pair. cbn [fst snd]. rewrite list_to_map_cons, <- insert_union_l, insert_union_r; [done|].
  by apply not_elem_of_list_to_map_1.
Qed.

Lemma by_key_nodup m : NoDup (by_key m).*1.
Proof. unfold by_key. rewrite merge_sort_Permutation. apply NoDup_fst_map_to_list. Qed.

Lemma by_key_map m : list_to_map (by_key m) = m.
Proof.
  rewrite <- (list_to_map_to_list m) at 2. apply list_to_map_proper; [apply by_key_nodup|]. apply merge_sort_Permutation.
Qed.

Lemma by_key_elem m k v : (k, v) ∈ by_key m <-> m !! k = Some v.
Proof. unfold by_key. by rewrite merge_sort_Permutation, elem_of_map_to_list. Qed.

Definition constants_ok (m : Constants) : Prop := forall k v, m !! k = Some v -> key_ok k /\ unspaced v.

Lemma by_key_ok m : constants_ok m -> Forall (fun kv => key_ok kv.1 /\ unspaced kv.2) (by_key m).
Proof. intros Hm. apply Forall_forall. intros [k v] H%by_key_elem. by apply Hm. Qed.

(** The part of a file that has the constants. *)
Definition body (sep : line) (m : Constants) : list line := (fun kv => kv.1 ++ sep ++ kv.2) <$> by_key m.

Lemma body_one_line sep m : Forall (fun c => is_space c = true /\ c <> newline) sep -> constants_ok m -> Forall one_line (body sep m).
Proof.
  intros Hs Hm. apply Forall_fmap. eapply Forall_impl; [by apply by_key_ok|]. intros [k v] [(_ & Hk & _) Hv]. cbn in *.
  repeat (apply Forall_app; split); [by apply unspaced_one_line| |by apply unspaced_one_line]. eapply Forall_impl; [exact Hs|]. by intros c [].
Qed.

Lemma body_reads sep m n : sep <> [] -> Forall (fun c => is_space c = true /\ c <> newline) sep -> constants_ok m ->
  key_values n (body sep m) = by_key m.
Proof.
  intros Hne Hs Hm. apply key_values_lines; [done| |by apply by_key_ok]. eapply Forall_impl; [exact Hs|]. by intros c [].
Qed.

Lemma by_key_reads m : foldl insert_pair ∅ (by_key m) = m.
Proof. rewrite foldl_insert by apply by_key_nodup. by rewrite by_key_map, (right_id_L ∅ (∪)). Qed.

Lemma skip_blank_lines n k : key_values n (replicate k []) = [].
Proof. by induction k. Qed.

Lemma key_values_app n ls1 ls2 : (forall n, key_values n ls2 = []) -> key_values n (ls1 ++ ls2) = key_values n ls1.
Proof.
  intros H2. revert n. induction ls1 as [|l ls1 IH]; intros n; cbn [app key_values]; [apply H2|]. rewrite !IH. done.
Qed.

(** A file with some lines of comment, a line for each constant and [k] empty lines. *)
Lemma constants_file_reads fname hs sep m k : Forall (fun h => one_line h /\ starts_with "#" h = true) hs ->
  sep <> [] -> Forall (fun c => is_space c = true /\ c <> newline) sep -> constants_ok m ->
  let content := concat (ended <$> hs) ++ concat ((fun kv => ended (kv.1 ++ sep ++ kv.2)) <$> by_key m) ++ concat (replicate k (ended [])) in
  GetCalib_map fname (Some content) = Ok (false, m) /\ GetCalib_vector fname (Some content) = Ok (false, (by_key m).*2).
Proof.
  intros Hh Hne Hs Hm content.
  assert (E : content = concat (ended <$> hs ++ body sep m ++ replicate k [])).
  { unfold content, body. by rewrite !fmap_app, !concat_app, <- list_fmap_compose, fmap_replicate. }
  assert (R : key_values 0 (delivered newline [] content) = by_key m).
  { rewrite E, delivered_all.
    - rewrite skip_comments by (eapply Forall_impl; [exact Hh|]; by intros l []).
      rewrite key_values_app by (intros; apply skip_blank_lines). by apply body_reads.
    - apply Forall_app. split; [eapply Forall_impl; [exact Hh|]; by intros l []|]. apply Forall_app. split; [by apply body_one_line|].
      apply Forall_replicate. constructor. }
  unfold GetCalib_map, GetCalib_vector. by rewrite R, by_key_reads.
Qed.

(** What [PutCalib] writes is read back as a map and as a vector. *)
Lemma put_constants_read fname o svals comment : origin_ok o -> comment_ok comment -> constants_ok svals ->
  exists content, PutCalib_map true o svals comment = Ok (true, Some content) /\
    GetCalib_map fname (Some content) = Ok (false, svals) /\ GetCalib_vector fname (Some content) = Ok (false, (by_key svals).*2).
Proof.
  intros Ho Hc Hs. destruct (header_lines o comment Ho Hc) as (hs & E & Hh). unfold PutCalib_map. rewrite E. eexists. split; [done|].
  destruct (constants_file_reads fname hs (chars "  ") svals 0) as [R1 R2]; [|done|by repeat constructor|done|].
  - eapply Forall_impl; [exact Hh|]. intros l (? & rest & -> & _). done.
  - cbn [replicate concat] in R1, R2. rewrite app_nil_r in R1, R2. done.
Qed.

(** What [WriteCalibFileMap] writes is read back. *)
Lemma dumped_map_reads fname svals content : constants_ok svals -> WriteCalibFileMap (Ok (false, svals)) = Ok content ->
  GetCalib_map fname (Some content) = Ok (false, svals).
Proof.
  intros Hs [= <-]. destruct (constants_file_reads fname [] ["009"%char] svals 0) as [R1 _]; [done|done|by repeat constructor|done|].
  cbn [replicate concat] in R1. by rewrite app_nil_r in R1.
Qed.

(** Constants survive a calibration file.  Write a set of named constants with [PutCalib], with any date, author and comment
    that fit on their lines, and read the file: as a map it has exactly the names and values that were written; as a vector it has
    the values in the order of the names.  The same holds for the map that [DumpCalibrationsToFiles] writes.  Names must be
    without blanks and must not begin like a comment; values must be without blanks, and may be empty. *)
Theorem constants_read_back fname o svals comment : origin_ok o -> comment_ok comment -> constants_ok svals ->
  (exists content, PutCalib_map true o svals comment = Ok (true, Some content) /\
     GetCalib_map fname (Some content) = Ok (false, svals) /\ GetCalib_vector fname (Some content) = Ok (false, (by_key svals).*2)) /\
  (exists content, WriteCalibFileMap (Ok (false, svals)) = Ok content /\ GetCalib_map fname (Some content) = Ok (false, svals)).
Proof.
  intros Ho Hc Hs. split.
  - by apply put_constants_read.
  - eexists. split; [done|]. by apply dumped_map_reads.
Qed.

Definition an_origin : Origin := mkOrigin (chars "today") None (chars "me") (chars "BCAL/gains") (chars "default") 1 99.
Definition some_constants : Constants := <[chars "slope" := chars "1.5"]> (<[chars "offset" := []]> ∅).

Lemma some_constants_ok : constants_ok some_constants.
Proof.
  unfold some_constants. intros k v [[<- <-]|[_ [[<- <-]|[_ H]]%lookup_insert_Some]]%lookup_insert_Some; [..|by rewrite lookup_empty in H];
    repeat split; try done; by repeat constructor.
Qed.

Lemma constants_read_back_witness :
  exists content, PutCalib_map true an_origin some_constants (chars "pedestals") = Ok (true, Some content) /\
    GetCalib_map (chars "/calib/gains") (Some content) = Ok (false, some_constants).
Proof.
  destruct (constants_read_back (chars "/calib/gains") an_origin some_constants (chars "pedestals")) as [(content & E & R & _) _].
  - by repeat constructor.
  - vm_compute. by repeat constructor.
  - apply some_constants_ok.
  - by exists content.
Defined.

(** ** Tables *)

Definition cell_ok (v : line) : Prop := key_ok v.

Record table_ok (first : Constants) (rows : list Constants) : Prop := {
  ta_dom : forall r, r ∈ rows -> dom r = dom first;
  ta_columns : first <> ∅;
  ta_names : forall k v, first !! k = Some v -> k <> [] /\ unspaced k;
  ta_cells : forall r k v, r ∈ rows -> r !! k = Some v -> cell_ok v
}.

Lemma tokens_cells vs : Forall (fun v => v <> [] /\ unspaced v) vs -> tokens (concat ((fun v => v ++ chars "  ") <$> vs)) = vs.
Proof.
  induction 1 as [|v vs [Hne Hv] _ IH]; [done|]. rewrite fmap_cons. cbn [concat]. rewrite <- app_assoc.
  change (chars "  " ++ ?l) with (" "%char :: " "%char :: l). rewrite tokens_unspaced, tokens_space by done. by rewrite IH.
Qed.

Lemma tokens_names cs : Forall (fun v => v <> [] /\ unspaced v) cs -> tokens (" "%char :: concat ((fun c => " "%char :: c) <$> cs)) = cs.
Proof.
  rewrite tokens_space by done. induction 1 as [|v vs [Hne Hv] Hvs IH]; [done|]. rewrite fmap_cons. cbn [concat].
  change ((" "%char :: v) ++ ?l) with (" "%char :: v ++ l). rewrite tokens_space by done. destruct vs as [|v' vs].
  - cbn. rewrite app_nil_r, tokens_one by done. by rewrite decide_False.
  - rewrite fmap_cons in *. cbn [concat] in *. change ((" "%char :: v') ++ ?l) with (" "%char :: v' ++ l) in *.
    rewrite tokens_unspaced by done. rewrite tokens_space in IH by done. by rewrite IH.
Qed.

Lemma name_columns_spec cols vals : forall icol m, icol + length vals <= length cols ->
  name_columns cols icol vals m = (cols, foldl insert_pair m (zip (drop icol cols) vals)).
Proof.
  induction vals as [|v vals IH]; intros icol m Hlen; cbn [name_columns]; [by destruct (drop icol cols)|]. cbn in Hlen.
  rewrite (proj2 (Nat.leb_gt _ _)) by lia. destruct (lookup_lt_is_Some_2 cols icol) as [c Hc]; [lia|].
  rewrite IH, Hc, (drop_S cols c icol Hc) by lia. done.
Qed.

Lemma zip_with_self {A B} (f : A -> B) l : zip l (f <$> l) = (fun x => (x, f x)) <$> l.
Proof. induction l as [|x l IH]; [done|]. cbn. by f_equal. Qed.

(** The cells of a row, in the order of the columns. *)
Lemma row_reads cols r : NoDup cols -> (forall k, k ∈ cols <-> k ∈ dom r) ->
  foldl insert_pair ∅ (zip cols ((fun c => default [] (r !! c)) <$> cols)) = r.
Proof.
  intros Hnd Hdom. rewrite zip_with_self. set (kvs := _ <$> cols).
  assert (Hk : kvs.*1 = cols) by (unfold kvs; rewrite <- list_fmap_compose; apply list_fmap_id).
  rewrite foldl_insert, (right_id_L ∅ (∪)) by (by rewrite Hk). apply map_eq. intros k. destruct (r !! k) as [v|] eqn:Hr.
  - apply elem_of_list_to_map_1; [by rewrite Hk|]. apply list_elem_of_fmap. exists k. rewrite Hr. split; [done|].
    apply Hdom. by apply elem_of_dom_2 in Hr.
  - apply not_elem_of_list_to_map_1. rewrite Hk. intros Hx. apply Hdom, elem_of_dom in Hx as [? Hx]. by rewrite Hr in Hx.
Qed.

Lemma columns_of first k : k ∈ (by_key first).*1 <-> k ∈ dom first.
Proof.
  unfold by_key. rewrite merge_sort_Permutation, elem_of_dom, list_elem_of_fmap. split.
  - intros ([k' v] & -> & H%elem_of_map_to_list). by exists v.
  - intros [v Hv]. exists (k, v). by rewrite elem_of_map_to_list.
Qed.

(** The rows that were written, read with the names of the columns. *)
Lemma rows_read cols rows : cols <> [] -> NoDup cols -> (forall r k, r ∈ rows -> k ∈ cols <-> k ∈ dom r) ->
  (forall r k v, r ∈ rows -> r !! k = Some v -> cell_ok v) ->
  let row r := concat ((fun c => default [] (r !! c) ++ chars "  ") <$> cols) in
  Forall one_line (row <$> rows) /\ table_rows cols (row <$> rows) = rows.
Proof.
  intros Hne Hnd. cbn zeta. induction rows as [|r rows IH]; intros Hdom Hcell; [by split; [constructor|]|].
  destruct IH as [IH1 IH2]; [intros; by apply Hdom, list_elem_of_further|intros r' k v Hr; by apply (Hcell r' k), list_elem_of_further|].
  set (vs := (fun c => default [] (r !! c)) <$> cols).
  assert (Hvs : Forall cell_ok vs).
  { apply Forall_fmap, Forall_forall. intros c Hc. apply (Hdom r) in Hc as [v Hv]%elem_of_dom; [|apply list_elem_of_here]. cbn. rewrite Hv.
    eapply Hcell; [apply list_elem_of_here|done]. }
  assert (Hrow : concat ((fun c => default [] (r !! c) ++ chars "  ") <$> cols) = concat ((fun v => v ++ chars "  ") <$> vs))
    by (unfold vs; by rewrite <- list_fmap_compose).
  assert (Hvs' : Forall (fun v => v <> [] /\ unspaced v) vs) by (eapply Forall_impl; [exact Hvs|]; by intros v (? & ? & _)).
  rewrite !fmap_cons, Hrow. split.
  - constructor; [|done]. apply Forall_concat, Forall_fmap. eapply Forall_impl; [exact Hvs'|]. intros v [_ Hv].
    apply Forall_app. split; [by apply unspaced_one_line|by repeat constructor].
  - cbn [table_rows]. destruct vs as [|v0 vs0] eqn:Evs; [by destruct cols|]. rewrite fmap_cons. cbn [concat].
    pose proof (Forall_inv Hvs) as H0. rewrite <- (app_assoc v0). rewrite bool_decide_false by (intros E; apply app_nil in E as [-> _]; by destruct H0).
    unfold is_column_line. rewrite key_starts by done. rewrite bool_decide_false.
    + rewrite (app_assoc v0). change ((v0 ++ chars "  ") ++ concat ((fun v => v ++ chars "  ") <$> vs0)) with (concat ((fun v => v ++ chars "  ") <$> v0 :: vs0)).
      rewrite tokens_cells by done. rewrite name_columns_spec by (rewrite <- Evs; unfold vs; rewrite length_fmap; lia). cbn [drop].
      rewrite <- Evs. unfold vs. rewrite row_reads; [by f_equal|done|]. intros k. apply Hdom, list_elem_of_here.
    + destruct H0 as (Hv0 & _ & Hh). destruct v0 as [|c v0]; [done|]. cbn. intros [= -> _]. done.
Qed.

(** Tables survive a calibration file.  Write a table with [PutCalib], all rows with the same columns as the
    first, of which there is at least one, and read the file: the same rows come back, with the same columns, and the check of their widths
    succeeds.  Names of columns must be without blanks; cells must not be empty, have blanks, or begin like a comment. *)
Theorem table_reads_back fname o first rest comment : origin_ok o -> comment_ok comment -> table_ok first (first :: rest) ->
  exists content, PutCalib_table true o (first :: rest) comment = Ok (true, Some content) /\
    GetCalib_table fname (Some content) = Ok (false, first :: rest).
Proof.
  intros Ho Hc [Hdom Hcol Hnames Hcells]. destruct (header_lines o comment Ho Hc) as (hs & E & Hh).
  unfold PutCalib_table. rewrite E. eexists. split; [done|]. unfold GetCalib_table.
  set (cols := (by_key first).*1). set (rows := first :: rest) in *.
  assert (Hcn : Forall (fun v => v <> [] /\ unspaced v) cols).
  { apply Forall_forall. intros k [v Hv]%columns_of%elem_of_dom. by eapply Hnames. }
  assert (Hne : cols <> []).
  { intros E0. apply Hcol. apply dom_empty_inv_L, elem_of_equiv_empty_L. intros k Hk%columns_of. fold cols in Hk. rewrite E0 in Hk. by apply elem_of_nil in Hk. }
  destruct (rows_read cols rows Hne (by_key_nodup first)) as [H1 H2]; [|done|].
  { intros r k Hr. rewrite (Hdom r Hr). apply columns_of. }
  rewrite delivered_lines by (eapply Forall_impl; [exact Hh|]; by intros l []). rewrite skip_comments_table by done.
  set (names := chars "#% " ++ _). set (row := fun r : Constants => concat _) in *.
  assert (Hn : one_line names).
  { apply Forall_app. split; [by repeat constructor|]. apply Forall_concat, Forall_fmap. eapply Forall_impl; [exact Hcn|].
    intros v [_ Hv]. constructor; [done|by apply unspaced_one_line]. }
  replace (ended names ++ concat (put_row cols <$> rows)) with (concat (ended <$> names :: (row <$> rows)))
    by (rewrite fmap_cons, <- list_fmap_compose; done).
  rewrite delivered_all by (by constructor). change (table_rows [] (names :: ?ls)) with (table_rows (tokens (drop 2 names)) ls).
  change (drop 2 names) with (" "%char :: concat ((fun c => " "%char :: c) <$> cols)). rewrite tokens_names, H2 by done.
  unfold rows, uneven. cbn [mbind outcome_bind]. rewrite (proj2 (forallb_forall _ _)); [done|]. intros r Hr%list_elem_of_In.
  apply Nat.eqb_eq. rewrite <- !size_dom. by rewrite (Hdom r (list_elem_of_further _ _ _ Hr)).
Qed.

Definition good_row : Constants := <[chars "b" := chars "1"]> (<[chars "a" := chars "2"]> ∅).

Lemma good_row_ok : table_ok good_row [good_row; good_row].
Proof.
  split; [| |unfold good_row; intros k v H|intros r k v Hr H].
  - by intros r [->|[->|[]%elem_of_nil]%elem_of_cons]%elem_of_cons.
  - apply insert_non_empty.
  - apply lookup_insert_Some in H as [[<- _]|[_ [[<- _]|[_ H]]%lookup_insert_Some]]; [by repeat constructor..|by rewrite lookup_empty in H].
  - assert (r = good_row) as -> by (by apply elem_of_cons in Hr as [?|[?|[]%elem_of_nil]%elem_of_cons]). unfold good_row in H.
    apply lookup_insert_Some in H as [[_ <-]|[_ [[_ <-]|[_ H]]%lookup_insert_Some]]; [..|by rewrite lookup_empty in H];
      (split; [done|split; [by repeat constructor|done]]).
Qed.

Lemma table_reads_back_witness :
  exists content, PutCalib_table true an_origin [good_row; good_row] [] = Ok (true, Some content) /\
    GetCalib_table (chars "/calib/gains") (Some content) = Ok (false, [good_row; good_row]).
Proof.
  apply (table_reads_back (chars "/calib/gains") an_origin good_row [good_row] []); [by repeat constructor|by constructor|apply good_row_ok].
Defined.

(** ** Where it fails *)

Definition file_of (ls : list string) : option line := Some (concat (ended <$> (chars <$> ls))).

(** A blank or a carriage return after a value makes it a name. *)
Lemma trailing_blank_loses_value : GetCalib_vector [] (file_of ["5.0 "; "6.0"])%string = Ok (false, [[]; chars "6.0"]).
Proof. vm_compute. reflexivity. Qed.

(** A table without rows is undefined. *)
Lemma empty_table_is_undefined : GetCalib_table [] (file_of ["#% a b"]) = Undef.
Proof. vm_compute. reflexivity. Qed.

(** The dump of a table of vectors has its columns in the order of their names, and the dump of a vector
    the values in the order of the names: both read back in another order. *)
Lemma dump_sorts_columns :
  let file := file_of ["#% b a"; "1 2"] in
  GetCalib_vectors [] file = Ok (false, [[chars "1"; chars "2"]]) /\
  (content ← WriteCalibFileVectorVector (GetCalib_table [] file); GetCalib_vectors [] (Some content)) = Ok (false, [[chars "2"; chars "1"]]).
Proof. vm_compute. done. Qed.

Lemma dump_sorts_values :
  let file := file_of ["b 1"; "a 2"] in
  GetCalib_vector [] file = Ok (false, [chars "1"; chars "2"]) /\
  (content ← WriteCalibFileVector (GetCalib_map [] file); GetCalib_vector [] (Some content)) = Ok (false, [chars "2"; chars "1"]).
Proof. vm_compute. done. Qed.

(** A cell that is missing in a later row shifts the others. *)
Lemma missing_cell_shifts : exists content,
  PutCalib_table true an_origin [good_row; <[chars "b" := chars "3"]> ∅] [] = Ok (true, Some content) /\
  GetCalib_table [] (Some content) = Ok (true, [good_row; <[chars "a" := chars "3"]> ∅]).
Proof. eexists. split; [vm_compute; reflexivity|]. vm_compute. reflexivity. Qed.

(** A comment of three lines with an empty one among them. *)
Lemma short_comment_line_is_undefined : CreateItemFile an_origin (concat (ended <$> [chars "first"; []; chars "third"])) = Undef.
Proof. vm_compute. reflexivity. Qed.

(** ** The list of available constants *)

(** The paths of the files of a tree, without those that are ignored. *)
Fixpoint files (prefix : line) (e : Entry) : list line :=
  if bool_decide (entry_name e ∈ ignored_names) then [] else
  match e with
  | File name => [prefix ++ name]
  | Directory name es => concat (files (prefix ++ name ++ chars "/") <$> es)
  end.

Lemma Entry_nested_ind (P : Entry -> Prop) :
  (forall name, P (File name)) -> (forall name es, Forall P es -> P (Directory name es)) -> forall e, P e.
Proof. intros HF HD. fix IH 1. intros [name|name es]; [apply HF|]. apply HD. induction es; constructor; [apply IH|done]. Qed.

Lemma drop_past (base prefix name : line) :
  drop (length base + 1) ((base ++ prefix) ++ "/"%char :: name) = drop 1 (prefix ++ chars "/") ++ name.
Proof.
  rewrite <- drop_drop, <- app_assoc, drop_app_length. change ("/"%char :: name) with (chars "/" ++ name). rewrite app_assoc.
  by destruct prefix.
Qed.

Lemma namepaths_relative base e : forall prefix,
  AddToNamepathList (length base + 1) (base ++ prefix) e = files (drop 1 (prefix ++ chars "/")) e.
Proof.
  induction e as [name|name es IH] using Entry_nested_ind; intros prefix; cbn [AddToNamepathList files]; (case_bool_decide; [done|]).
  - by rewrite drop_past.
  - f_equal. rewrite <- app_assoc. apply list_fmap_ext. intros i e He. rewrite (Forall_lookup_1 _ _ _ _ IH He). f_equal.
    rewrite <- app_assoc. change (("/"%char :: name) ++ chars "/") with (chars "/" ++ name ++ chars "/"). rewrite app_assoc. by destruct prefix.
Qed.

(** [GetListOfNamepaths] lists every file of the tree once, by its path below the base directory, and skips what it is
    to ignore: each name can be handed to [GetCalib]. *)
Lemma namepaths_listed base es : GetListOfNamepaths (base ++ chars "/") es = concat (files [] <$> es).
Proof.
  unfold GetListOfNamepaths. rewrite length_app. cbn [length chars]. change (length (chars "/")) with 1.
  rewrite Nat.add_sub, take_app_length. f_equal. apply list_fmap_ext. intros i e _.
  rewrite <- (app_nil_r base) at 2. by rewrite namepaths_relative.
Qed.

(** ** Directories *)

Lemma delivered_rest d l : forall buf, Forall (fun c => c <> d) l -> buf ++ l <> [] -> delivered d buf l = [buf ++ l].
Proof.
  induction l as [|c l IH]; intros buf Hl Hne; cbn [delivered]; [rewrite app_nil_r in *; by rewrite decide_False|].
  apply Forall_cons in Hl as [Hc Hl]. rewrite (proj2 (Ascii.eqb_neq c d) Hc). rewrite IH, <- app_assoc; [done|done|].
  rewrite <- app_assoc. by destruct buf.
Qed.

Lemma delivered_pieces d ls item : Forall (Forall (fun c => c <> d)) (ls ++ [item]) -> item <> [] ->
  delivered d [] (concat ((fun x => x ++ [d]) <$> ls) ++ item) = ls ++ [item].
Proof.
  intros H Hi. induction ls as [|l ls IH]; cbn [app] in H; apply Forall_cons in H as [Hl H]; [by apply (delivered_rest d item [])|].
  rewrite fmap_cons. cbn [concat]. rewrite <- !app_assoc. cbn [app]. rewrite delivered_piece, IH by done. done.
Qed.

Lemma subdirectories_spec ds item : forall dirname,
  subdirectories dirname (ds ++ [item]) = (fun i => dirname ++ concat ((fun x => "/"%char :: x) <$> take i ds)) <$> seq 1 (length ds).
Proof.
  induction ds as [|d ds IH]; intros dirname; [done|]. cbn [app length seq fmap list_fmap].
  destruct (ds ++ [item]) as [|x rest] eqn:Er; [by destruct ds|].
  change (subdirectories dirname (d :: x :: rest)) with ((dirname ++ "/"%char :: d) :: subdirectories (dirname ++ "/"%char :: d) (x :: rest)).
  f_equal; [by cbn; rewrite app_nil_r|]. rewrite IH, <- (fmap_S_seq 1), <- list_fmap_compose. apply list_fmap_ext. intros j i _.
  cbn. by rewrite <- app_assoc.
Qed.

(** [MakeDirectoryPath] creates the base directory and every directory that leads to the item, outer ones first. *)
Lemma directories_made base ds item : Forall (Forall (fun c => c <> "/"%char)) (ds ++ [item]) -> item <> [] ->
  MakeDirectoryPath base (concat ((fun x => x ++ chars "/") <$> ds) ++ item) =
  base :: ((fun i => base ++ concat ((fun x => "/"%char :: x) <$> take i ds)) <$> seq 1 (length ds)).
Proof.
  intros H Hi. unfold MakeDirectoryPath. change (chars "/") with ["/"%char]. rewrite delivered_pieces by done.
  destruct (ds ++ [item]) as [|x rest] eqn:E; [by destruct ds|]. by rewrite <- E, subdirectories_spec.
Qed.

End CalibrationFile.
