(* ===== verification/JCalibration.v ===== *)
(** * JCalibration and JCalibrationManager: calibration objects and what they keep

    Model of [Calibrations/JCalibration.h], [JCalibration.cc] and [JCalibrationManager.h], apart from the file format, which is in
    JCalibrationFile.  Objects are addresses.  A mutex is a flag: locking one that is locked, which happens here only
    after an exception has left it so, never returns and is [Undef].  What a request to the
    data base delivers ([fetch]) and what a generator makes are arguments. *)

From Stdlib Require Import SpecFloat Ascii.
From S2P Require Import Prelude JParameterManager.
Import Parameters.
Local Open Scope Z_scope.

Module Calibration.

(** ** JCalibration *)

Record JCalibration := mkCalibration {
  accesses : gmap string (list string);
  stored : gmap (string * string) Z;
  stored_mutex : bool;
  retrieved_event_boundaries : bool;
  event_boundaries : list Z;
  next_address : Z
}.

Definition new_calibration : JCalibration := mkCalibration ∅ ∅ false false [] 1.

Definition set_accesses (a : gmap string (list string)) (c : JCalibration) : JCalibration :=
  mkCalibration a (stored c) (stored_mutex c) (retrieved_event_boundaries c) (event_boundaries c) (next_address c).
Definition set_mutex (b : bool) (c : JCalibration) : JCalibration :=
  mkCalibration (accesses c) (stored c) b (retrieved_event_boundaries c) (event_boundaries c) (next_address c).
Definition store (key : string * string) (t : Z) (c : JCalibration) : JCalibration :=
  mkCalibration (accesses c) (<[key := t]> (stored c)) (stored_mutex c) (retrieved_event_boundaries c) (event_boundaries c) (next_address c).

Abbreviation MC := (M JCalibration).

(** [new T]. *)
Definition new_container : MC Z := fun c =>
  (Ok (next_address c), mkCalibration (accesses c) (stored c) (stored_mutex c) (retrieved_event_boundaries c) (event_boundaries c) (next_address c + 1)).

Definition RecordRequest (namepath type_name : string) : MC unit :=
  modify (fun c => set_accesses (<[namepath := default [] (accesses c !! namepath) ++ [type_name]]> (accesses c)) c).

(** [Get] with a container of the caller: [fetch] is what [GetCalib] does, the request is recorded when it has returned. *)
Definition Get (fetch : outcome bool) (namepath type_name : string) : MC bool :=
  res ← lift fetch;
  _ ← RecordRequest namepath type_name;
  mret res.

(** [Get] with a pointer: the container stays with the object. *)
Definition Get_stored (fetch : outcome bool) (namepath type_name : string) : MC (bool * option Z) :=
  c ← get;
  if stored_mutex c then lift Undef else
  _ ← modify (set_mutex true);
  match stored c !! (namepath, type_name) with
  | Some t =>
      _ ← modify (set_mutex false);
      _ ← RecordRequest namepath type_name;
      mret (false, Some t)
  | None =>
      t ← new_container;
      res ← Get fetch namepath type_name;
      _ ← (if res : bool then mret tt else modify (store (namepath, type_name) t));
      _ ← modify (set_mutex false);
      mret (res, if res : bool then None else Some t)
  end.

(** [retrieve] is what the subclass finds. *)
Definition GetEventBoundaries (retrieve : list Z) : MC (list Z) :=
  c ← get;
  _ ← (if retrieved_event_boundaries c then mret tt
       else modify (fun c => mkCalibration (accesses c) (stored c) (stored_mutex c) true retrieve (next_address c)));
  gets event_boundaries.

(** [find] of a text, what is behind it, and what is before the first of a character. *)
Fixpoint behind (pat l : line) : option line :=
  if bool_decide (take (length pat) l = pat) then Some (drop (length pat) l)
  else match l with [] => None | _ :: l => behind pat l end.

Fixpoint before (c : ascii) (l : line) : line :=
  match l with
  | [] => []
  | x :: l => if Ascii.eqb x c then [] else x :: before c l
  end.

Definition GetVariation (context : line) : line :=
  if decide (context = chars "default") then context else
  match behind (chars "variation=") context with
  | Some variation => before " " (before ";" variation)
  | None => chars "default"
  end.

(** ** JCalibrationManager *)

Record Calib := mkCalib { address : Z; c_run : Z; c_url : string; c_context : string }.

Record JCalibrationGenerator := mkGenerator {
  CheckOpenable : string -> Z -> string -> outcome spec_float;
  MakeJCalibration : string -> Z -> string -> outcome (option (Z * string * string))
}.

Record JCalibrationManager := mkManager {
  m_calibrations : list Calib;
  m_resource_managers : list (option Z);
  m_calibration_generators : list JCalibrationGenerator;
  m_calibration_mutex : bool;
  m_url : string;
  m_context : string
}.

Definition set_calibrations (l : list Calib) (m : JCalibrationManager) : JCalibrationManager :=
  mkManager l (m_resource_managers m) (m_calibration_generators m) (m_calibration_mutex m) (m_url m) (m_context m).
Definition set_resources (l : list (option Z)) (m : JCalibrationManager) : JCalibrationManager :=
  mkManager (m_calibrations m) l (m_calibration_generators m) (m_calibration_mutex m) (m_url m) (m_context m).
Definition set_calibration_mutex (b : bool) (m : JCalibrationManager) : JCalibrationManager :=
  mkManager (m_calibrations m) (m_resource_managers m) (m_calibration_generators m) b (m_url m) (m_context m).

Abbreviation MM := (M JCalibrationManager).

Definition AddCalibrationGenerator (g : JCalibrationGenerator) : MM unit :=
  modify (fun m => mkManager (m_calibrations m) (m_resource_managers m) (m_calibration_generators m ++ [g]) (m_calibration_mutex m) (m_url m) (m_context m)).

(** The generator with the highest likelihood above zero. *)
Fixpoint likeliest (url : string) (run : Z) (context : string) (gens : list JCalibrationGenerator) (likelihood : spec_float)
    (gen : option JCalibrationGenerator) : outcome (option JCalibrationGenerator) :=
  match gens with
  | [] => Ok gen
  | g :: gens =>
      mine ← CheckOpenable g url run context;
      if SFltb likelihood mine then likeliest url run context gens mine (Some g) else likeliest url run context gens likelihood gen
  end.

(** The calibration object that is made for a run, without its address. *)
Definition make (url : string) (run : Z) (context : string) (gens : list JCalibrationGenerator) : outcome (option (Z * string * string)) :=
  gen ← likeliest url run context gens (S754_zero false) None;
  match gen with
  | Some g => MakeJCalibration g url run context
  | None => Ok (if String.prefix "file://" url then Some (run, url, context) else None)
  end.

Definition matches (run : Z) (url context : string) (c : Calib) : Prop := c_run c = run /\ c_url c = url /\ c_context c = context.

#[export] Instance matches_dec run url context c : Decision (matches run url context c).
Proof. unfold matches. apply _. Defined.

(** A fresh address for the next object. *)
Definition next_calib (m : JCalibrationManager) : Z := 1 + sizeZ (m_calibrations m).

Definition GetJCalibration (run_number : Z) : MM (option Calib) :=
  m ← get;
  if m_calibration_mutex m then lift Undef else
  _ ← modify (set_calibration_mutex true);
  match list_find (matches (i32 run_number) (m_url m) (m_context m)) (m_calibrations m) with
  | Some (_, c) =>
      _ ← modify (set_calibration_mutex false);
      mret (Some c)
  | None =>
      made ← lift (make (m_url m) (i32 run_number) (m_context m) (m_calibration_generators m));
      let g := (fun '(run, url, context) => mkCalib (next_calib m) run url context) <$> made in
      _ ← (match g with Some c => modify (set_calibrations (m_calibrations m ++ [c])) | None => mret tt end);
      _ ← modify (set_calibration_mutex false);
      mret g
  end.

(** The manager of large files for a run: its index, with the object that backs it. *)
Definition GetLargeCalibration (run_number : Z) : MM nat :=
  if run_number =? 0 then
    m ← get;
    _ ← (match m_resource_managers m with
         | [] => modify (set_resources [address <$> head (m_calibrations m)])
         | _ => mret tt
         end);
    mret 0%nat
  else
    jcalib ← GetJCalibration run_number;
    m ← get;
    match list_find (fun r => r = address <$> jcalib) (m_resource_managers m) with
    | Some (i, _) => mret i
    | None =>
        _ ← modify (set_resources (m_resource_managers m ++ [address <$> jcalib]));
        mret (length (m_resource_managers m))
    end.

(** ** Objects are shared *)

(** Generators answer, and an object that they make is for what was asked. *)
Definition generators_honest (m : JCalibrationManager) : Prop := forall run, exists made,
  make (m_url m) run (m_context m) (m_calibration_generators m) = Ok made /\ (forall x, made = Some x -> x = (run, m_url m, m_context m)).

(** The same manager with more calibrations at the end of its list. *)
Record extends (m m' : JCalibrationManager) : Prop := {
  ex_list : m_calibrations m `prefix_of` m_calibrations m';
  ex_gens : m_calibration_generators m' = m_calibration_generators m;
  ex_mutex : m_calibration_mutex m' = m_calibration_mutex m;
  ex_url : m_url m' = m_url m;
  ex_context : m_context m' = m_context m
}.

Lemma extends_refl m : extends m m.
Proof. by split. Qed.

Lemma extends_trans m1 m2 m3 : extends m1 m2 -> extends m2 m3 -> extends m1 m3.
Proof. intros [L1 G1 U1 R1 C1] [L2 G2 U2 R2 C2]. split; [by etrans|congruence..]. Qed.

Lemma extends_honest m m' : extends m m' -> generators_honest m -> generators_honest m'.
Proof. intros [_ G _ U C] H. unfold generators_honest. by rewrite G, U, C. Qed.

(** The first match of a list stays the first match when the list is extended. *)
Lemma find_prefix {A} (P : A -> Prop) `{forall x, Decision (P x)} (l l' : list A) i x :
  l `prefix_of` l' -> list_find P l = Some (i, x) -> list_find P l' = Some (i, x).
Proof. intros [k ->] E. by apply list_find_app_l. Qed.

Lemma mutex_restored (m : JCalibrationManager) : m_calibration_mutex m = false -> set_calibration_mutex false (set_calibration_mutex true m) = m.
Proof. destruct m. cbn. by intros ->. Qed.

Lemma GetJCalibration_found run m i c : m_calibration_mutex m = false ->
  list_find (matches (i32 run) (m_url m) (m_context m)) (m_calibrations m) = Some (i, c) -> GetJCalibration run m = (Ok (Some c), m).
Proof.
  intros Hm E. unfold GetJCalibration. rewrite M_bind_get, Hm, M_bind_modify, E, M_bind_modify. by rewrite mutex_restored.
Qed.

Lemma GetJCalibration_spec run m : m_calibration_mutex m = false -> generators_honest m ->
  exists r m', GetJCalibration run m = (Ok r, m') /\ extends m m' /\
    forall c, r = Some c -> exists i, list_find (matches (i32 run) (m_url m') (m_context m')) (m_calibrations m') = Some (i, c).
Proof.
  intros Hm Hh. destruct (list_find (matches (i32 run) (m_url m) (m_context m)) (m_calibrations m)) as [[i c]|] eqn:E.
  { exists (Some c), m. rewrite (GetJCalibration_found run m i c Hm E). split; [done|]. split; [apply extends_refl|]. intros c' [= <-]. by exists i. }
  destruct (Hh (i32 run)) as (made & Em & Hmade). unfold GetJCalibration. rewrite M_bind_get, Hm, M_bind_modify, E.
  unfold lift, mbind at 1, M_bind at 1. rewrite Em. destruct made as [x|].
  - rewrite (Hmade x eq_refl). cbn [fmap option_fmap option_map]. rewrite M_bind_modify, M_bind_modify. eexists _, _. split; [done|].
    split; [split; cbn; try done; by apply prefix_app_r|]. intros c [= <-]. cbn. eexists. rewrite list_find_app_r by done. cbn [list_find].
    rewrite decide_True by done. done.
  - cbn [fmap option_fmap option_map]. rewrite M_bind_ret, M_bind_modify. eexists _, _. split; [done|].
    split; [|done]. rewrite mutex_restored by done. apply extends_refl.
Qed.

Definition request (run : Z) : MM unit := _ ← GetJCalibration run; mret tt.

Lemma requests_extend runs : forall m, m_calibration_mutex m = false -> generators_honest m ->
  exists m', for_each runs request m = (Ok tt, m') /\ extends m m'.
Proof.
  induction runs as [|run runs IH]; intros m Hm Hh; [exists m; split; [done|apply extends_refl]|].
  destruct (GetJCalibration_spec run m Hm Hh) as (r & m1 & E & X & _).
  destruct (IH m1) as (m' & E' & X'); [by rewrite (ex_mutex _ _ X)|by eapply extends_honest|].
  exists m'. split; [|by eapply extends_trans]. assert (R : request run m = (Ok tt, m1)) by (unfold request; by mstep E).
  cbn [for_each]. by mstep R.
Qed.

(** One calibration object per run.  With generators that answer, a request for the calibration of a run returns, and the object
    that it returns is for that run, with the current URL and context.  Whatever runs are requested afterwards, a
    further request for the same run returns the same object and creates nothing. *)
Theorem calibration_objects_are_shared m run : m_calibration_mutex m = false -> generators_honest m ->
  exists r m1, GetJCalibration run m = (Ok r, m1) /\
    forall c, r = Some c -> matches (i32 run) (m_url m) (m_context m) c /\
      forall runs, exists m2, for_each runs request m1 = (Ok tt, m2) /\ GetJCalibration run m2 = (Ok (Some c), m2).
Proof.
  intros Hm Hh. destruct (GetJCalibration_spec run m Hm Hh) as (r & m1 & E & X & F). exists r, m1. split; [done|].
  intros c Hc. destruct (F c Hc) as [i Hi]. split.
  { rewrite <- (ex_url _ _ X), <- (ex_context _ _ X). by apply list_find_Some in Hi as (_ & Hi & _). }
  intros runs. assert (Hm1 : m_calibration_mutex m1 = false) by (by rewrite (ex_mutex _ _ X)).
  destruct (requests_extend runs m1 Hm1 (extends_honest _ _ X Hh)) as (m2 & E2 & X2). exists m2. split; [done|].
  apply (GetJCalibration_found run m2 i c); [by rewrite (ex_mutex _ _ X2)|]. rewrite (ex_url _ _ X2), (ex_context _ _ X2).
  eapply find_prefix; [apply (ex_list _ _ X2)|done].
Qed.

(** Without generators: files. *)
Definition file_manager : JCalibrationManager := mkManager [] [] [] false "file:///calib" "default".

Lemma calibration_objects_are_shared_witness : exists m1,
  GetJCalibration 7 file_manager = (Ok (Some (mkCalib 1 7 "file:///calib" "default")), m1) /\
  forall runs, exists m2, for_each runs request m1 = (Ok tt, m2) /\ GetJCalibration 7 m2 = (Ok (Some (mkCalib 1 7 "file:///calib" "default")), m2).
Proof.
  destruct (calibration_objects_are_shared file_manager 7) as (r & m1 & E & F); [done|intros run; eexists; split; [reflexivity|by intros x [= <-]]|].
  assert (Er : (GetJCalibration 7 file_manager).1 = Ok (Some (mkCalib 1 7 "file:///calib" "default"))) by (vm_compute; reflexivity).
  rewrite E in Er. injection Er as ->. exists m1. split; [done|]. by apply F.
Defined.

(** Constants that are stored are fetched once: a later request gets the same pointer and does not ask the data base. *)
Lemma stored_constants_are_shared fetch fetch' namepath type_name c t c' : stored_mutex c = false ->
  Get_stored fetch namepath type_name c = (Ok (false, Some t), c') ->
  exists c'', Get_stored fetch' namepath type_name c' = (Ok (false, Some t), c'') /\ stored c'' = stored c' /\ next_address c'' = next_address c'.
Proof.
  intros Hm. unfold Get_stored at 1. rewrite M_bind_get, Hm, M_bind_modify. intros E.
  assert (K : stored_mutex c' = false /\ stored c' !! (namepath, type_name) = Some t).
  { destruct (stored c !! (namepath, type_name)) as [t'|] eqn:Es.
    - rewrite M_bind_modify in E. unfold RecordRequest in E. rewrite M_bind_modify in E. by injection E as <- <-.
    - destruct fetch as [[]|e|]; [discriminate E| |discriminate E..]. injection E as <- <-. cbn. by rewrite lookup_insert_eq. }
  destruct K as [K1 K2]. unfold Get_stored. rewrite M_bind_get, K1, M_bind_modify, K2, M_bind_modify. unfold RecordRequest. rewrite M_bind_modify.
  eexists. done.
Qed.

(** ** Where it fails *)

(** An exception of the data base, as for a file that does not exist, leaves the mutex locked: the next request, for whatever
    constants, never returns. *)
Lemma exception_blocks_calibration e namepath type_name namepath' type_name' fetch c : stored_mutex c = false ->
  stored c !! (namepath, type_name) = None ->
  exists c', Get_stored (Throw e) namepath type_name c = (Throw e, c') /\ (Get_stored fetch namepath' type_name' c').1 = Undef.
Proof.
  intros Hm Hs. unfold Get_stored at 1. rewrite M_bind_get, Hm, M_bind_modify, Hs. eexists. split; [reflexivity|]. done.
Qed.

(** The same for generators and the mutex of the manager. *)
Lemma exception_blocks_manager e run run' m : m_calibration_mutex m = false -> m_calibrations m = [] ->
  make (m_url m) (i32 run) (m_context m) (m_calibration_generators m) = Throw e ->
  exists m', GetJCalibration run m = (Throw e, m') /\ (GetJCalibration run' m').1 = Undef.
Proof.
  intros Hm Hc E. unfold GetJCalibration at 1. rewrite M_bind_get, Hm, M_bind_modify, Hc. cbn [list_find].
  unfold lift, mbind at 1, M_bind at 1. rewrite E. eexists. done.
Qed.

End Calibration.
