(* ===== verification/JCalibrationValues.v ===== *)
(** * JCalibrationValues: typed calibration constants and the copy of a job's constants

    Model of the templates of [Calibrations/JCalibration.h] that convert constants to and from text, of the kinds of containers, of
    the destructor and of [DumpCalibrationsToFiles] of [Calibrations/JCalibration.cc].  The stream operators of a type are
    [extract], which leaves the value undetermined for a text that has nothing to read, and [print]; the names that
    [typeid] gives to containers are a parameter.  Messages to the log are left out. *)

From Stdlib Require Import Ascii.
From stdpp Require Import sorting pretty.
From S2P Require Import Prelude JParameterManager JCalibrationFile JCalibration.
Import Parameters CalibrationFile.

Module CalibrationValues.
Import Calibration.

(** ** Conversions *)

Section Values.
Context {T : Type} (extract : line -> outcome T) (print : T -> line).

Definition convert_map (svals : Constants) : outcome (gmap line T) :=
  kvs ← mapM (fun kv : line * line => v ← extract kv.2; mret (kv.1, v)) (by_key svals);
  mret (list_to_map kvs).
Definition convert_vector (svals : list line) : outcome (list T) := mapM extract svals.

(** The versions of [Get]: the request is recorded when [GetCalib] has returned, and before the conversion. *)
Definition Get_converted {A B} (convert : A -> outcome B) (fetch : outcome (bool * A)) (namepath type_name : string) : MC (bool * B) :=
  r ← lift fetch;
  _ ← RecordRequest namepath type_name;
  vals ← lift (convert r.2);
  mret (r.1, vals).

Definition Get_map : outcome (bool * Constants) -> string -> string -> MC (bool * gmap line T) := Get_converted convert_map.
Definition Get_vector : outcome (bool * list line) -> string -> string -> MC (bool * list T) := Get_converted convert_vector.
Definition Get_table : outcome (bool * list Constants) -> string -> string -> MC (bool * list (gmap line T)) := Get_converted (mapM convert_map).
Definition Get_vectors : outcome (bool * list (list line)) -> string -> string -> MC (bool * list (list T)) := Get_converted (mapM convert_vector).

(** [Get(namepath, val)]: the first value; without one it returns true, and leaves the variable alone. *)
Definition Get_single (fetch : outcome (bool * list line)) (namepath type_name : string) (val : T) : MC (bool * T) :=
  r ← Get_vector fetch namepath type_name;
  mret (match r.2 with [] => (true, val) | v :: _ => (r.1, v) end).

(** What the versions of [Put] hand to [PutCalib]. *)
Definition Put_map (vals : gmap line T) : Constants := print <$> vals.
Definition Put_table (vals : list (gmap line T)) : list Constants := Put_map <$> vals.

(** The key of a value is the number of its row, not that of its column. *)
Definition Put_vectors (vals : list (list T)) : list Constants :=
  imap (fun i mvals => foldl (fun (svals : Constants) v => <[chars (pretty (Z.of_nat i)) := print v]> svals) ∅ mvals) vals.

(** ** Typed constants survive a file *)

(** The text of a value is read back as the value, and is one word. *)
Definition stream_ok : Prop := (forall v, extract (print v) = Ok v) /\ forall v, unspaced (print v).

Lemma put_map_ok vals : stream_ok -> (forall k, is_Some (vals !! k) -> key_ok k) -> constants_ok (Put_map vals).
Proof.
  intros [_ Hp] Hk k s. unfold Put_map. rewrite lookup_fmap. intros (v & Hv & ->)%fmap_Some. split; [apply Hk; by eexists|apply Hp].
Qed.

(** Converting entries that all come from values. *)
Lemma convert_printed (vals : gmap line T) kvs : stream_ok -> Forall (fun kv => exists v, kv.2 = print v /\ vals !! kv.1 = Some v) kvs ->
  exists tvs, mapM (fun kv : line * line => v ← extract kv.2; mret (kv.1, v)) kvs = Ok tvs /\ tvs.*1 = kvs.*1 /\ Forall (fun tv => vals !! tv.1 = Some tv.2) tvs.
Proof.
  intros [Hr _]. induction 1 as [|[k s] kvs (v & Hs & Hv) _ (tvs & E & Hk & Ht)]; [by exists []|]. cbn in Hs, Hv. subst s.
  exists ((k, v) :: tvs). cbn [mapM]. unfold mbind, outcome_bind, mret, outcome_ret in *. cbn [fst snd]. rewrite Hr, E. cbn. rewrite Hk. split_and!; [done|done|by constructor].
Qed.

Lemma convert_put_map vals : stream_ok -> convert_map (Put_map vals) = Ok vals.
Proof.
  intros Hs. destruct (convert_printed vals (by_key (Put_map vals)) Hs) as (tvs & E & Hk & Ht).
  { apply Forall_forall. intros [k s] Hin%by_key_elem. unfold Put_map in Hin. rewrite lookup_fmap in Hin.
    apply fmap_Some in Hin as (v & Hv & ->). by exists v. }
  unfold convert_map. rewrite E. change (Ok (list_to_map tvs : gmap line T) = Ok vals). f_equal.
  assert (Hnd : NoDup tvs.*1) by (rewrite Hk; apply by_key_nodup).
  apply map_eq. intros k. destruct (vals !! k) as [v|] eqn:Hv.
  - apply elem_of_list_to_map_1; [done|].
    assert (Hin : k ∈ tvs.*1).
    { rewrite Hk. apply columns_of, elem_of_dom. unfold Put_map. rewrite lookup_fmap, Hv. by eexists. }
    apply list_elem_of_fmap in Hin as ([k' v'] & -> & Hin). pose proof (proj1 (Forall_forall _ _) Ht _ Hin) as H. cbn in *. congruence.
  - apply not_elem_of_list_to_map_1. intros Hin. rewrite Hk in Hin. apply columns_of, elem_of_dom in Hin. unfold Put_map in Hin.
    rewrite lookup_fmap, Hv in Hin. by destruct Hin.
Qed.

(** Values of a type that go into a file with [Put] come back with [Get], and the request is recorded. *)
Lemma typed_constants_read_back fname o vals comment namepath type_name c : stream_ok -> origin_ok o -> comment_ok comment ->
  (forall k, is_Some (vals !! k) -> key_ok k) ->
  exists content c', PutCalib_map true o (Put_map vals) comment = Ok (true, Some content)
    /\ Get_map (GetCalib_map fname (Some content)) namepath type_name c = (Ok (false, vals), c')
    /\ accesses c' !! namepath = Some (default [] (accesses c !! namepath) ++ [type_name]).
Proof.
  intros Hs Ho Hc Hk. destruct (put_constants_read fname o (Put_map vals) comment Ho Hc (put_map_ok vals Hs Hk)) as (content & Hput & Hget & _).
  exists content. unfold Get_map, Get_converted. rewrite (M_bind_lift _ _ _ _ Hget). unfold RecordRequest. rewrite M_bind_modify.
  cbn [fst snd]. rewrite (M_bind_lift _ _ _ _ (convert_put_map vals Hs)). eexists. split_and!; [done|done|]. cbn. apply lookup_insert_eq.
Qed.

Lemma same_key_keeps_last (key : line) row v : forall m : Constants, dom m ⊆ {[key]} ->
  foldl (fun (svals : Constants) v => <[key := print v]> svals) m (row ++ [v]) = {[key := print v]}.
Proof.
  induction row as [|x row IH]; intros m Hm; cbn [app foldl].
  - apply map_eq. intros k. destruct (decide (k = key)) as [->|Hne]; [by rewrite lookup_insert_eq, lookup_singleton_eq|].
    rewrite lookup_insert_ne, lookup_singleton_ne by congruence. apply not_elem_of_dom. set_solver.
  - apply IH. rewrite dom_insert. set_solver.
Qed.

(** A row of a table of vectors keeps its last value only. *)
Lemma row_keeps_last vals i row v : vals !! i = Some (row ++ [v]) -> Put_vectors vals !! i = Some {[chars (pretty (Z.of_nat i)) := print v]}.
Proof. intros Hi. unfold Put_vectors. rewrite list_lookup_imap, Hi. cbn. f_equal. apply same_key_keeps_last. by rewrite dom_empty. Qed.

End Values.

(** ** Kinds of containers *)

Inductive containerType_t := kUnknownType | kVector | kMap | kVectorVector | kVectorMap.
#[export] Instance containerType_t_eq_dec : EqDecision containerType_t.
Proof. solve_decision. Defined.

(** The types of elements that the code tries, in its order. *)
Inductive Element := Double | Float | Int | Long | Short | Char | UInt | ULong | UShort | UChar | Text.
#[export] Instance Element_eq_dec : EqDecision Element.
Proof. solve_decision. Defined.
Definition all_elements : list Element := [Double; Float; Int; Long; Short; Char; UInt; ULong; UShort; UChar; Text].

Section Containers.
Context (typeid : containerType_t -> Element -> string).

Definition TrycontainerType (t : Element) (typeid_name : string) : containerType_t :=
  if decide (typeid_name = typeid kVector t) then kVector
  else if decide (typeid_name = typeid kMap t) then kMap
  else if decide (typeid_name = typeid kVectorVector t) then kVectorVector
  else if decide (typeid_name = typeid kVectorMap t) then kVectorMap
  else kUnknownType.

Definition GetContainerType (typeid_name : string) : containerType_t :=
  foldl (fun ctype t => if decide (ctype = kUnknownType) then TrycontainerType t typeid_name else ctype) kUnknownType all_elements.

(** [TryDelete]: the type as which the container is deleted, if it is a container of [t]. *)
Definition TryDelete (type_name : string) (t : Element) : option (containerType_t * Element) :=
  match TrycontainerType t type_name with kUnknownType => None | ctype => Some (ctype, t) end.

Definition key_leb (a b : string * string * Z) : bool :=
  if decide (a.1.1 = b.1.1) then String.leb a.1.2 b.1.2 else String.leb a.1.1 b.1.1.

(** The destructor: the containers that are deleted, and the type as which each is; the others are reported and leak. *)
Definition delete_stored (c : JCalibration) : list (Z * option (containerType_t * Element)) :=
  (fun e : string * string * Z => (e.2, head (omap (TryDelete e.1.2) all_elements))) <$>
    merge_sort key_leb (map_to_list (stored c)).

(** Names that tell all containers apart. *)
Definition typeid_ok : Prop := forall k k' t t', k <> kUnknownType -> k' <> kUnknownType -> typeid k t = typeid k' t' -> k = k' /\ t = t'.

Lemma try_container k t t' : typeid_ok -> k <> kUnknownType -> TrycontainerType t (typeid k t') = if decide (t = t') then k else kUnknownType.
Proof.
  intros H Hk. unfold TrycontainerType.
  assert (Hne : forall k', k' <> kUnknownType -> typeid k t' = typeid k' t -> k = k' /\ t' = t) by (intros; by eapply H).
  repeat case_decide; repeat match goal with E : typeid _ _ = typeid _ _ |- _ => apply Hne in E as [??]; [|done] end; try congruence.
  subst. by destruct k.
Qed.

Lemma first_match l k t : typeid_ok -> k <> kUnknownType -> t ∈ l ->
  foldl (fun ctype t' => if decide (ctype = kUnknownType) then TrycontainerType t' (typeid k t) else ctype) kUnknownType l = k
  /\ head (omap (TryDelete (typeid k t)) l) = Some (k, t).
Proof.
  intros H Hk. induction l as [|x l IH]; intros Hin; [by apply not_elem_of_nil in Hin|]. cbn [foldl omap list_omap]. unfold TryDelete at 1.
  rewrite decide_True by done. rewrite (try_container k x t H Hk). destruct (decide (x = t)) as [->|Hne].
  - split; [|by destruct k]. clear IH Hin. induction l as [|y l IH]; [done|]. cbn [foldl]. by rewrite decide_False.
  - apply elem_of_cons in Hin as [?|Hin]; [congruence|]. apply (IH Hin).
Qed.

(** A container is recognized, whatever its element, and is deleted as what it is. *)
Lemma container_recognized k t : typeid_ok -> k <> kUnknownType ->
  GetContainerType (typeid k t) = k /\ head (omap (TryDelete (typeid k t)) all_elements) = Some (k, t).
Proof. intros H Hk. apply first_match; [done|done|]. apply (bool_decide_unpack _). by destruct t. Qed.

(** ** DumpCalibrationsToFiles *)

(** What has been written: directories made, in order, the files, and the lines of the table that is printed. *)
Record Dump := mkDump { directories : list line; written : gmap line line; table : list (string * string) }.

Definition mkdir (d : line) : M Dump unit := modify (fun s => mkDump (directories s ++ [d]) (written s) (table s)).
Definition write_file (path content : line) : M Dump unit := modify (fun s => mkDump (directories s) (<[path := content]> (written s)) (table s)).
Definition print_row (row : string * string) : M Dump unit := modify (fun s => mkDump (directories s) (written s) (table s ++ [row])).

(** The blanks of the header between its two names. *)
Definition header_blanks (c : JCalibration) : Z :=
  u32 (foldr (fun (e : string * list string) n => Z.max (Z.of_nat (String.length e.1)) n) 0%Z (map_to_list (accesses c)) - 8 + 2).

(** Which files can be opened, and the number of characters for which there is memory. *)
Context (openable : line -> bool) (allocatable : Z -> bool).
Context (fetch : string -> outcome (bool * Constants)) (fetch_table : string -> outcome (bool * list Constants)).

(** The [WriteCalibFile] routines open, and so empty, the file before they ask for the constants. *)
Definition write_calib (fullpath : line) (content : outcome line) : M Dump unit :=
  if openable fullpath then _ ← write_file fullpath []; text ← lift content; write_file fullpath text else mret tt.

Definition path_elements (namepath : line) : list line := filter (fun e => e <> []) (delivered "/" [] namepath).

Fixpoint enter (dir : line) (elements : list line) : M Dump line :=
  match elements with
  | [] => mret dir
  | e :: elements => _ ← mkdir (dir ++ e ++ chars "/"); enter (dir ++ e ++ chars "/") elements
  end.

Definition dump_one (basedir : line) (access : string * list string) : M Dump unit :=
  match access.2, last (path_elements (chars access.1)) with
  | typeid_name :: _, Some fname =>
      dir ← enter basedir (removelast (path_elements (chars access.1)));
      _ ← print_row (access.1, typeid_name);
      match GetContainerType typeid_name with
      | kVector => write_calib (dir ++ fname) (WriteCalibFileVector (fetch access.1))
      | kMap => write_calib (dir ++ fname) (WriteCalibFileMap (fetch access.1))
      | kVectorVector => write_calib (dir ++ fname) (WriteCalibFileVectorVector (fetch_table access.1))
      | kVectorMap => write_calib (dir ++ fname) (WriteCalibFileVectorMap (fetch_table access.1))
      | kUnknownType => mret tt
      end
  | _, _ => mret tt
  end.

Definition run_directory (basedir : line) (run : Z) : line := basedir ++ chars "calib" ++ chars (pretty run) ++ chars "/".

Definition accesses_in_order (c : JCalibration) : list (string * list string) :=
  merge_sort (fun a b => String.leb a.1 b.1) (map_to_list (accesses c)).

Definition info_xml (url context run datetime timestamp : line) : line :=
  concat (ended <$> [chars "<jcalibration>"; "009"%char :: chars "<URL>" ++ url ++ chars "</URL>"; "009"%char :: chars "<Context>" ++ context ++ chars "</Context>";
    "009"%char :: chars "<RunNumber>" ++ run ++ chars "</RunNumber>"; "009"%char :: chars "<datetime>" ++ datetime ++ chars "</datetime>";
    "009"%char :: chars "<timestamp>" ++ timestamp ++ chars "</timestamp>"; chars "</jcalibration>"]).

(** The header of the table, for which there may be too little memory. *)
Definition print_header (c : JCalibration) : M Dump unit :=
  if allocatable (header_blanks c) then mret tt else lift (Throw (EStd "bad_alloc")).

(** [fullpath]: what [getcwd] answers in the directory. The result is the URL that is printed. *)
Definition DumpCalibrationsToFiles (c : JCalibration) (basedir url context datetime timestamp : line) (run : Z) (fullpath : option line) : M Dump line :=
  let basedir := run_directory basedir run in
  _ ← mkdir basedir;
  _ ← print_header c;
  _ ← for_each (accesses_in_order c) (dump_one basedir);
  _ ← (if openable (basedir ++ chars "info.xml")
       then write_file (basedir ++ chars "info.xml") (info_xml url context (chars (pretty run)) datetime timestamp) else mret tt);
  mret (chars "file://" ++ match fullpath with
    | Some path => path
    | None => if (1023 <? sizeZ basedir)%Z then chars "/fatal/error/its/hopeless/" else basedir
    end).

(** ** What is dumped reads back *)

(** A namepath without empty elements: directories and an item. *)
Definition canonical (ds : list line) (item : line) (namepath : string) : Prop :=
  chars namepath = concat ((fun d => d ++ ["/"%char]) <$> ds) ++ item /\
  Forall (fun e => e <> [] /\ Forall (fun ch => ch <> "/"%char) e) (ds ++ [item]).

Lemma path_elements_canonical ds item namepath : canonical ds item namepath -> path_elements (chars namepath) = ds ++ [item].
Proof.
  intros [E H]. unfold path_elements. rewrite E, delivered_pieces.
  - clear E. induction H as [|e l [He _] _ IH]; [done|]. by rewrite filter_cons_True, IH.
  - eapply Forall_impl; [exact H|]. by intros e [].
  - apply (proj1 (Forall_forall _ _) H item). set_solver.
Qed.

Lemma enter_spec ds : forall dir d, exists d', enter dir ds d = (Ok (dir ++ concat ((fun d => d ++ ["/"%char]) <$> ds)), d')
  /\ written d' = written d.
Proof.
  induction ds as [|e ds IH]; intros dir d; cbn [enter]; [rewrite app_nil_r; by eexists|].
  unfold mkdir. rewrite M_bind_modify. destruct (IH (dir ++ e ++ chars "/") (mkDump (directories d ++ [dir ++ e ++ chars "/"]) (written d) (table d))) as (d' & E & W).
  exists d'. rewrite E. split; [|done]. do 2 f_equal. cbn. change (chars "/") with ["/"%char]. by rewrite <- !app_assoc.
Qed.

Lemma write_calib_spec path content text d : openable path = true -> content = Ok text ->
  exists d', write_calib path content d = (Ok tt, d') /\ written d' = <[path := text]> (written d).
Proof.
  intros Ho ->. unfold write_calib, write_file. rewrite Ho, M_bind_modify, (M_bind_lift _ _ _ _ eq_refl). eexists. split; [done|].
  cbn. by rewrite insert_insert_eq.
Qed.

(** Where nothing fails: all files can be opened, all requests return. *)
Definition can_dump : Prop :=
  (forall path, openable path = true) /\ (forall n, exists r, fetch n = Ok r) /\ (forall n, exists r, fetch_table n = Ok r).

Lemma dump_one_spec base ds item namepath types d : can_dump -> canonical ds item namepath ->
  exists d', dump_one base (namepath, types) d = (Ok tt, d')
    /\ (forall path, path <> base ++ chars namepath -> written d' !! path = written d !! path)
    /\ (forall ty rest svals, types = ty :: rest -> GetContainerType ty = kMap -> fetch namepath = Ok (false, svals) ->
        exists content, WriteCalibFileMap (Ok (false, svals)) = Ok content /\ written d' !! (base ++ chars namepath) = Some content).
Proof.
  intros (Ho & Hf & Ht) Hcan. destruct types as [|ty rest]; [exists d; by split_and!|].
  unfold dump_one. cbn [fst snd]. rewrite (path_elements_canonical _ _ _ Hcan), last_snoc, removelast_last.
  destruct (enter_spec ds base d) as (d1 & E1 & W1). rewrite (M_bind_ok _ _ _ _ _ E1). unfold print_row. rewrite M_bind_modify.
  set (d2 := mkDump _ _ _). assert (W2 : written d2 = written d) by done. clearbody d2.
  assert (Hpath : (base ++ concat ((fun d => d ++ ["/"%char]) <$> ds)) ++ item = base ++ chars namepath) by (destruct Hcan as [-> _]; by rewrite app_assoc).
  rewrite Hpath. destruct (Hf namepath) as [[err svals] Ef], (Ht namepath) as [[err' rows] Et].
  assert (Hw : forall content text, content = Ok text -> exists d', write_calib (base ++ chars namepath) content d2 = (Ok tt, d')
    /\ (forall path, path <> base ++ chars namepath -> written d' !! path = written d !! path) /\ written d' !! (base ++ chars namepath) = Some text).
  { intros content text Hc. destruct (write_calib_spec (base ++ chars namepath) content text d2 (Ho _) Hc) as (d' & E & W). exists d'.
    rewrite E, W, W2. split_and!; [done| |apply lookup_insert_eq]. intros path Hne. by rewrite lookup_insert_ne. }
  rewrite Ef, Et. destruct (GetContainerType ty) eqn:Eg.
  - exists d2. split_and!; [done|by rewrite W2|]. intros ty' ? ? [= <- <-]. congruence.
  - destruct (Hw (WriteCalibFileVector (Ok (err, svals))) _ eq_refl) as (d' & E & W & _). exists d'. split_and!; [done|done|]. intros ty' ? ? [= <- <-]. congruence.
  - destruct (Hw (WriteCalibFileMap (Ok (err, svals))) _ eq_refl) as (d' & E & W & Wp). exists d'. split_and!; [done|done|].
    intros ty' ? svals' [= <- <-] _ [= -> ->]. by eexists.
  - destruct (Hw (WriteCalibFileVectorVector (Ok (err', rows))) _ eq_refl) as (d' & E & W & _). exists d'. split_and!; [done|done|]. intros ty' ? ? [= <- <-]. congruence.
  - destruct (Hw (WriteCalibFileVectorMap (Ok (err', rows))) _ eq_refl) as (d' & E & W & _). exists d'. split_and!; [done|done|]. intros ty' ? ? [= <- <-]. congruence.
Qed.

Lemma dump_all_spec base l : can_dump -> NoDup l.*1 -> Forall (fun a => exists ds item, canonical ds item a.1) l ->
  forall d, exists d', for_each l (dump_one base) d = (Ok tt, d')
    /\ (forall path, (forall a, a ∈ l -> path <> base ++ chars a.1) -> written d' !! path = written d !! path)
    /\ (forall namepath ty rest svals, (namepath, ty :: rest) ∈ l -> GetContainerType ty = kMap -> fetch namepath = Ok (false, svals) ->
        exists content, WriteCalibFileMap (Ok (false, svals)) = Ok content /\ written d' !! (base ++ chars namepath) = Some content).
Proof.
  intros Hd. induction l as [|[n types] l IH]; intros Hnd Hl d; [exists d; split_and!; [done|done|]; by intros ? ? ? ? ?%not_elem_of_nil|].
  cbn in Hnd. apply NoDup_cons in Hnd as [Hn Hnd]. apply Forall_cons in Hl as [(ds & item & Hcan) Hl].
  destruct (dump_one_spec base ds item n types d Hd Hcan) as (d1 & E1 & K1 & W1). destruct (IH Hnd Hl d1) as (d' & E & K & W).
  assert (Hkeep : written d' !! (base ++ chars n) = written d1 !! (base ++ chars n)).
  { apply K. intros [n' ty'] Hin Heq%app_inv_head. cbn in Heq. apply Hn, list_elem_of_fmap. exists (n', ty'). split; [|done]. cbn.
    rewrite <- (String.string_of_list_ascii_of_string n), <- (String.string_of_list_ascii_of_string n'). unfold chars in Heq. by rewrite Heq. }
  exists d'. cbn [for_each]. rewrite (M_bind_ok _ _ _ _ _ E1). split_and!; [done| |].
  - intros path Hp. rewrite K, K1; [done| |]; [apply (Hp (n, types)); by left|]. intros a Ha. apply Hp. by right.
  - intros n' ty rest svals [[= -> <-]|Hin]%elem_of_cons Ht Hf; [|by eapply W].
    destruct (W1 ty rest svals eq_refl Ht Hf) as (content & Hc & Hw). exists content. by rewrite Hkeep.
Qed.

Lemma access_in_order c n types : (n, types) ∈ accesses_in_order c <-> accesses c !! n = Some types.
Proof. unfold accesses_in_order. by rewrite merge_sort_Permutation, elem_of_map_to_list. Qed.

(** C37: The copy of a job's constants can be used in their place.  If all files can be opened, the requests return, there is memory
    for the header (whose blanks wrap around for short namepaths), and the namepaths have no empty elements and none is "info.xml",
    [DumpCalibrationsToFiles] completes, and for every namepath whose first request was for a map, and whose constants have keys and values that a
    file can hold, the file under the directory of the run reads back as the map that was delivered to the job. *)
Theorem dumped_constants_read_back c basedir url context datetime timestamp run fullpath d fname : can_dump -> allocatable (header_blanks c) = true ->
  (forall n types, accesses c !! n = Some types -> (exists ds item, canonical ds item n) /\ n <> "info.xml"%string) ->
  exists newurl d', DumpCalibrationsToFiles c basedir url context datetime timestamp run fullpath d = (Ok newurl, d') /\
    forall n ty rest svals, accesses c !! n = Some (ty :: rest) -> GetContainerType ty = kMap -> fetch n = Ok (false, svals) -> constants_ok svals ->
      GetCalib_map fname (written d' !! (run_directory basedir run ++ chars n)) = Ok (false, svals).
Proof.
  intros Hd Hh Hacc. unfold DumpCalibrationsToFiles, mkdir, print_header. rewrite Hh, M_bind_modify, M_bind_ret. set (base := run_directory basedir run). set (d0 := mkDump _ _ _).
  destruct (dump_all_spec base (accesses_in_order c) Hd) with (d := d0) as (d1 & E & _ & W).
  { unfold accesses_in_order. rewrite merge_sort_Permutation. apply NoDup_fst_map_to_list. }
  { apply Forall_forall. intros [n types] Hin%access_in_order. by apply (Hacc n types). }
  rewrite (M_bind_ok _ _ _ _ _ E). destruct Hd as (Ho & _). rewrite Ho. unfold write_file. rewrite M_bind_modify. do 2 eexists. split; [done|].
  intros n ty rest svals Hn Ht Hf Hs. destruct (W n ty rest svals) as (content & Hc & Hw); [by apply access_in_order|done|done|].
  cbn [written]. rewrite lookup_insert_ne.
  - rewrite Hw. by eapply dumped_map_reads.
  - intros Heq%app_inv_head. apply (Hacc n _ Hn). rewrite <- (String.string_of_list_ascii_of_string n). fold (chars n). by rewrite <- Heq.
Qed.

End Containers.

(** A job that has asked for one map of numbers. *)
Definition a_typeid (k : containerType_t) (t : Element) : string :=
  (match k with kUnknownType => "u" | kVector => "v" | kMap => "m" | kVectorVector => "vv" | kVectorMap => "vm" end +:+
   match t with Double => "d" | Float => "f" | Int => "i" | Long => "l" | Short => "s" | Char => "c" | UInt => "j" | ULong => "k" | UShort => "t" | UChar => "h" | Text => "S" end)%string.
Definition a_job : JCalibration := (RecordRequest "BCAL/gains" (a_typeid kMap Double) new_calibration).2.
Definition a_fetch (n : string) : outcome (bool * Constants) := Ok (false, some_constants).
Definition a_table (n : string) : outcome (bool * list Constants) := Ok (true, []).
Definition no_dump : Dump := mkDump [] ∅ [].

Lemma a_typeid_ok : typeid_ok a_typeid.
Proof. intros k k' t t' Hk Hk' E. destruct k, k'; try done; destruct t, t'; try discriminate E; done. Qed.

Lemma dumped_constants_read_back_witness : exists newurl d',
  DumpCalibrationsToFiles a_typeid (fun _ => true) (fun n => (n <? 1000)%Z) a_fetch a_table a_job [] [] [] [] [] 42 None no_dump = (Ok newurl, d') /\
  GetCalib_map [] (written d' !! chars "calib42/BCAL/gains") = Ok (false, some_constants).
Proof.
  destruct (dumped_constants_read_back a_typeid (fun _ => true) (fun n => (n <? 1000)%Z) a_fetch a_table a_job [] [] [] [] [] 42 None no_dump []) as (newurl & d' & E & H).
  - split_and!; [done|by eexists|by eexists].
  - vm_compute. reflexivity.
  - intros n types Hn. cbn in Hn. destruct (decide (n = "BCAL/gains"%string)) as [->|Hne]; [|by rewrite lookup_insert_ne in Hn by done].
    split; [|done]. exists [chars "BCAL"], (chars "gains"). split; [done|]. repeat constructor; done.
  - exists newurl, d'. split; [exact E|]. apply (H "BCAL/gains"%string (a_typeid kMap Double) []); [vm_compute; reflexivity|vm_compute; reflexivity|done|exact some_constants_ok].
Defined.

(** Without a namepath of six characters or more the header asks for some four billion blanks. *)
Example header_blanks_wrap : header_blanks (RecordRequest "a/b" (a_typeid kMap Double) new_calibration).2 = 4294967293%Z.
Proof. vm_compute. reflexivity. Qed.

(** The dump of a job with short namepaths fails where there is no memory for them. *)
Example short_namepaths_fail : exists d', DumpCalibrationsToFiles a_typeid (fun _ => true) (fun n => (n <? 1000000000)%Z) a_fetch a_table
  (RecordRequest "a/b" (a_typeid kMap Double) new_calibration).2 [] [] [] [] [] 42 None no_dump = (Throw (EStd "bad_alloc"), d').
Proof. eexists. vm_compute. reflexivity. Qed.

(** A table of two columns loses the first. *)
Example column_is_lost : Put_vectors (fun v : ascii => [v]) [["1"; "2"]; ["3"; "4"]]%char = [{[chars "0" := ["2"%char]]}; {[chars "1" := ["4"%char]]}].
Proof. vm_compute. reflexivity. Qed.

End CalibrationValues.
