(* ===== verification/JLargeCalibration.v ===== *)
(** * JLargeCalibration: resource files that are kept on the local disk

    Model of [Calibrations/JLargeCalibration.cc] and of [Get] in [JLargeCalibration.h], in the build without the CURL library.
    The disk is a map from names of files to their contents, in which several slashes in a row count as one;
    directories are there when they are needed.  What the calibration data base knows of a resource ([jcalib]) and what the external
    program writes for a URL ([download]; [None] if it writes no file) are arguments.  [None] as a result
    is the end of the program by [exit].  The checksum is that of JMd5, the table of resources is read with JCalibrationFile. *)

From stdpp Require Import sorting.
From Stdlib Require Import Ascii.
From S2P Require Import Prelude JMd5 JParameterManager JCalibrationFile.
Import Parameters CalibrationFile.
Local Open Scope Z_scope.

Module LargeCalibration.

(** ** The disk *)

Fixpoint squeeze (slash : bool) (path : line) : line :=
  match path with
  | [] => []
  | c :: path =>
      if Ascii.eqb c "/" then (if slash then squeeze true path else c :: squeeze true path) else c :: squeeze false path
  end.

Definition place (path : line) : line := squeeze false path.

Record Local := mkLocal { files : gmap line line; resources : Constants }.

Definition read_file (path : line) (s : Local) : option line := files s !! place path.
Definition write_file (path content : line) (s : Local) : Local := mkLocal (<[place path := content]> (files s)) (resources s).
Definition unlink (path : line) (s : Local) : Local := mkLocal (delete (place path) (files s)) (resources s).
Definition set_resources (r : Constants) (s : Local) : Local := mkLocal (files s) r.

Abbreviation ML := (M Local).

(** ** Checksums *)

Definition byte_value (c : ascii) : Z := Z.of_nat (nat_of_ascii c).

(** The blocks that [read] delivers while the stream is [good]: the last one is not full, and may be empty. *)
Fixpoint blocks (fuel : nat) (l : line) : list line :=
  match fuel with
  | O => []
  | S fuel => if sizeZ l <? 10000 then [l] else take (Z.to_nat 10000) l :: blocks fuel (drop (Z.to_nat 10000) l)
  end.

Definition hex_digit (d : Z) : ascii := ascii_of_nat (Z.to_nat (if d <? 10 then 48 + d else 87 + d)).

(** ["%02x"] of each byte. *)
Definition hex_output (digest : list Z) : line := concat ((fun b => [hex_digit (b / 16); hex_digit (b mod 16)]) <$> digest).

(** [Get_MD5]; [pms] is the state before [md5_init]. *)
Definition Get_MD5 (pms : Md5.md5_state) (file : option line) : outcome line :=
  match file with
  | None => Ok []
  | Some content =>
      st ← Md5.append_all ((fun b : line => byte_value <$> b) <$> blocks (S (length content)) content) (Md5.md5_init pms);
      digest ← Md5.md5_finish st;
      Ok (hex_output digest)
  end.

(** ** Checksums are those of the standard *)

Lemma blocks_concat fuel l : (length l < fuel)%nat -> concat (blocks fuel l) = l.
Proof.
  revert l. induction fuel as [|fuel IH]; intros l Hl; [lia|]. cbn [blocks]. destruct (Z.ltb_spec (sizeZ l) 10000) as [Hs|Hs].
  - cbn. by rewrite app_nil_r.
  - cbn [concat]. rewrite IH, take_drop; [done|]. unfold sizeZ in Hs. rewrite length_drop. lia.
Qed.

Lemma blocks_small fuel l : Forall (fun b => sizeZ b <= 10000) (blocks fuel l).
Proof.
  revert l. induction fuel as [|fuel IH]; intros l; cbn [blocks]; [constructor|]. destruct (Z.ltb_spec (sizeZ l) 10000).
  - repeat constructor. lia.
  - constructor; [|apply IH]. unfold sizeZ. rewrite length_take. lia.
Qed.

Lemma Get_MD5_ok pms content : length (Md5.buf pms) = 64%nat ->
  Get_MD5 pms (Some content) = Ok (hex_output (Md5.rfc_md5 (byte_value <$> content))).
Proof.
  intros Hb. unfold Get_MD5. set (cs := _ <$> blocks _ content).
  destruct (Md5.append_all_represents cs [] (Md5.md5_init pms) (Md5.init_represents pms Hb)) as (st & E & R).
  - apply Forall_fmap. eapply Forall_impl; [apply blocks_small|]. intros b Hs. cbn. unfold sizeZ in *. rewrite length_fmap. lia.
  - rewrite E. cbn [mbind outcome_bind]. rewrite (Md5.finish_represents _ _ R). cbn [mbind outcome_bind app].
    assert (Hc : forall ls : list line, concat ((fun b : line => byte_value <$> b) <$> ls) = byte_value <$> concat ls).
    { induction ls as [|b ls IH]; [done|]. rewrite fmap_cons. cbn [concat]. by rewrite IH, fmap_app. }
    unfold cs. by rewrite Hc, blocks_concat by lia.
Qed.

(** ** Resources *)

Section Resources.
Context (resource_dir : line) (jcalib : option (line -> outcome Constants)) (calib_namepaths : list line).
Context (overide_URL_base : bool) (URL_base : line) (check_md5 : bool).
Context (download : line -> option line) (now : line) (pms : Md5.md5_state).

Definition in_dir (path : line) : line := resource_dir ++ "/"%char :: path.

Definition GetLocalPathToResource (namepath : line) : outcome line :=
  match jcalib with
  | Some Get =>
      if decide (namepath ∈ calib_namepaths) then info ← Get namepath; Ok (in_dir (default namepath (info !! chars "path")))
      else Ok (in_dir namepath)
  | None => Ok (in_dir namepath)
  end.

(** The directory of [jcalibfile]. *)
Definition basedir : line :=
  if bool_decide (last resource_dir = Some "/"%char) then resource_dir else resource_dir ++ ["/"%char].

Definition ReadResourceInfoFile : ML unit :=
  _ ← modify (set_resources ∅);
  fname ← lift (GetLocalPathToResource (chars "resources"));
  s ← get;
  match read_file fname s with
  | None => mret tt
  | Some _ =>
      '(_, r) ← lift (GetCalib_map (basedir ++ chars "resources") (read_file (basedir ++ chars "resources") s));
      modify (set_resources r)
  end.

Definition resources_header : list line :=
  [chars "#"; chars "# JANA resources file  Auto-generated DO NOT EDIT"; chars "#"; chars "# " ++ now; chars "#"; chars "#% URL  namepath"].

Definition WriteResourceInfoFile : ML unit :=
  fname ← lift (GetLocalPathToResource (chars "resources"));
  s ← get;
  modify (write_file fname
    (concat (ended <$> resources_header) ++
     concat ((fun kv => ended (kv.1 ++ ["009"%char] ++ kv.2)) <$> by_key (resources s)) ++ concat (replicate 1 (ended [])))).

(** The name goes through an array of 256 characters. *)
Definition GetResourceFromURL (URL fullpath : line) : ML unit :=
  if 256 <=? sizeZ fullpath then lift Undef else
  _ ← modify (write_file (in_dir (chars "info.xml")) []);
  match download URL with
  | Some content => modify (write_file fullpath content)
  | None => mret tt
  end.

Definition with_slash (base : line) : line := if bool_decide (last base = Some "/"%char) then base else base ++ ["/"%char].
Definition without_slash (path : line) : line := if starts_with "/" path then tail path else path.

(** The URL of a resource, and its path below the directory. *)
Definition url_and_path (namepath : line) (info : Constants) : outcome (line * line) :=
  let has_URL_base := overide_URL_base || bool_decide (is_Some (info !! chars "URL_base")) in
  match has_URL_base, info !! chars "path" with
  | false, Some _ => throwJ (quoted "path" +:+ " specified for resource " +:+ quoted (text namepath) +:+ " but not " +:+ quoted "URL_base" +:+ "!")
  | true, None => throwJ (quoted "URL_base" +:+ " specified for resource " +:+ quoted (text namepath) +:+ " but not " +:+ quoted "path" +:+ "!")
  | true, Some p =>
      let my_URL_base := if overide_URL_base then URL_base else default [] (info !! chars "URL_base") in
      let path := without_slash p in
      Ok (with_slash my_URL_base ++ path, path)
  | false, None =>
      match info !! chars "URL" with
      | Some URL => Ok (URL, namepath)
      | None => throwJ ("Neither " +:+ quoted "URL_base" +:+ "," +:+ quoted "path" +:+ " pair nor " +:+ quoted "URL" +:+
                        " exist in DB for resource " +:+ quoted (text namepath) +:+ " !")
      end
  end.

(** Another URL that the file was loaded from. *)
Definition redownload_required (URL path : line) (r : Constants) : bool :=
  existsb (fun kv => bool_decide (kv.2 = path) && negb (bool_decide (kv.1 = URL))) (by_key r).

Definition erase_others (URL path : line) (r : Constants) : Constants := filter (fun kv => kv.2 = path -> kv.1 = URL) r.

(** What is done about the file: whether the table of resources is to be written. *)
Definition ensure (URL path fullpath : line) (file_exists check_for_redownload : bool) : ML bool :=
  s ← get;
  if negb file_exists then
    _ ← GetResourceFromURL URL fullpath;
    _ ← modify (fun s => set_resources (<[URL := path]> (resources s)) s);
    mret true
  else if check_for_redownload && redownload_required URL path (resources s) then
    _ ← modify (unlink fullpath);
    _ ← GetResourceFromURL URL fullpath;
    _ ← modify (fun s => set_resources (erase_others URL path (<[URL := path]> (resources s))) s);
    mret true
  else mret false.

(** The file to use, whether it exists, and whether it may be loaded again. *)
Definition locate (URL fullpath : line) (info : Constants) (s : Local) : line * bool * bool :=
  let fullpath := from_option in_dir fullpath (resources s !! URL) in
  match read_file fullpath s, info !! chars "path" with
  | Some _, _ => (fullpath, true, true)
  | None, Some p => if read_file (in_dir p) s then (in_dir p, true, false) else (fullpath, false, true)
  | None, None => (fullpath, false, true)
  end.

Definition GetResource (namepath : line) : ML (option line) :=
  fullpath ← lift (GetLocalPathToResource namepath);
  match jcalib with
  | None => mret (Some fullpath)
  | Some Get =>
      info ← lift (Get namepath);
      '(URL, path) ← lift (url_and_path namepath info);
      s ← get;
      let '(fullpath, file_exists, check_for_redownload) := locate URL fullpath info s in
      rewrite_info_file ← ensure URL path fullpath file_exists check_for_redownload;
      s ← get;
      wrong ← (match info !! chars "md5" with
               | Some md5 =>
                   if check_md5 then md5sum ← lift (Get_MD5 pms (read_file fullpath s)); mret (negb (bool_decide (md5sum = md5)))
                   else mret false
               | None => mret false
               end);
      if wrong : bool then mret None else
      _ ← (if rewrite_info_file : bool then WriteResourceInfoFile else mret tt);
      mret (Some fullpath)
  end.

(** [Get] for a map of strings. *)
Definition Get_map (namepath : line) : ML (option (bool * Constants)) :=
  r ← GetResource namepath;
  match r with
  | None => mret None
  | Some fullpath =>
      let path := drop (length resource_dir + 1) fullpath in
      s ← get;
      vals ← lift (GetCalib_map (basedir ++ path) (read_file (basedir ++ path) s));
      mret (Some vals)
  end.

(** ** What the checksum guarantees *)

Lemma WriteResourceInfoFile_ok fname s : GetLocalPathToResource (chars "resources") = Ok fname ->
  exists content, WriteResourceInfoFile s = (Ok tt, write_file fname content s) /\
    (constants_ok (resources s) -> one_line now -> forall f, GetCalib_map f (Some content) = Ok (false, resources s)).
Proof.
  intros E. unfold WriteResourceInfoFile. rewrite E. eexists. split; [done|]. intros Hr Hn f.
  refine (proj1 (constants_file_reads f resources_header ["009"%char] (resources s) 1 _ _ _ Hr)); [|done|by repeat constructor].
  by repeat constructor.
Qed.

Lemma read_write_same path path' content s : place path = place path' -> read_file path (write_file path' content s) = Some content.
Proof. unfold read_file, write_file. cbn. intros ->. by rewrite lookup_insert_eq. Qed.

Lemma read_write_other path path' content s : place path <> place path' -> read_file path (write_file path' content s) = read_file path s.
Proof. unfold read_file, write_file. cbn. intros ?. by rewrite lookup_insert_ne. Qed.

(** C28: a resource with a checksum is delivered only if its file has it.  Whenever [GetResource] returns a path for a resource
    that has an [md5] entry, and checking is not turned off, there is a file at this path when it has returned, and the
    digest of RFC 1321 of its content, in hexadecimal, is the entry.  This holds for files that were there and for those that
    were loaded, whatever the program that loads them does.  The path must not be that of the table of resources itself. *)
Theorem resource_is_verified Get namepath info md5 fname s fullpath s' :
  length (Md5.buf pms) = 64%nat -> jcalib = Some Get -> Get namepath = Ok info ->
  info !! chars "md5" = Some md5 -> check_md5 = true -> md5 <> [] ->
  GetLocalPathToResource (chars "resources") = Ok fname -> place fullpath <> place fname ->
  GetResource namepath s = (Ok (Some fullpath), s') ->
  exists content, read_file fullpath s' = Some content /\ hex_output (Md5.rfc_md5 (byte_value <$> content)) = md5.
Proof.
  intros Hb Hj Hi Hm Hc Hne Hf Hp E. unfold GetResource in E.
  apply M_bind_inv in E as (fp & s0 & _ & E). rewrite Hj in E.
  apply M_bind_inv in E as (info' & s1 & E1 & E). injection E1 as E1 _. rewrite Hi in E1. injection E1 as <-.
  apply M_bind_inv in E as ([URL path] & s2 & _ & E). rewrite M_bind_get in E.
  destruct (locate _ _ _ _) as [[f ex] re]. apply M_bind_inv in E as (rw & s3 & _ & E). rewrite M_bind_get, Hm, Hc in E.
  apply M_bind_inv in E as (wrong & s4 & E4 & E). apply M_bind_inv in E4 as (sum & s5 & E5 & E4).
  injection E5 as E5 <-. injection E4 as <- <-. case_bool_decide as Hs; [|done]. subst sum. cbn [negb] in E.
  apply M_bind_inv in E as (u & s6 & E6 & E). injection E as <- <-.
  destruct (read_file f s3) as [content|] eqn:Hr; [|by injection E5 as <-]. rewrite Get_MD5_ok in E5 by done. injection E5 as <-.
  exists content. split; [|done]. destruct rw; [|by injection E6 as _ <-].
  destruct (WriteResourceInfoFile_ok fname s3 Hf) as (table & Ew & _). rewrite Ew in E6. injection E6 as _ <-. by rewrite read_write_other.
Qed.

(** ** The table of resources stays true *)

Definition reserved (path : line) : Prop :=
  place (in_dir path) = place (in_dir (chars "info.xml")) \/ place (in_dir path) = place (in_dir (chars "resources")).

(** Each entry of the table has a file, with what its URL provides. *)
Definition files_true (s : Local) : Prop := forall URL p, resources s !! URL = Some p ->
  (exists content, download URL = Some content /\ read_file (in_dir p) s = Some content) /\ ~ reserved p.

(** Moreover, the table can be written, and is what is on the disk. *)
Record sound (s : Local) : Prop := {
  sound_files : files_true s;
  sound_table : constants_ok (resources s);
  sound_disk : ReadResourceInfoFile s = (Ok tt, s)
}.

(** A request that does not meet any of the difficulties shown below. *)
Record plain (Get : line -> outcome Constants) (namepath URL path content : line) (info : Constants) (s : Local) : Prop := {
  plain_info : Get namepath = Ok info;
  plain_url : url_and_path namepath info = Ok (URL, path);
  plain_listed : namepath ∈ calib_namepaths;
  plain_download : download URL = Some content;
  plain_md5 md5 : info !! chars "md5" = Some md5 -> check_md5 = true -> hex_output (Md5.rfc_md5 (byte_value <$> content)) = md5;
  plain_words : key_ok URL /\ unspaced path;
  plain_length : sizeZ resource_dir + 2 + sizeZ path < 256;
  plain_path : ~ reserved path;
  plain_same p : resources s !! URL = Some p -> p = path;
  plain_names U p : resources s !! U = Some p -> place (in_dir p) = place (in_dir path) -> p = path;
  plain_origin : is_Some (read_file (in_dir path) s) -> exists U, resources s !! U = Some path
}.

Lemma squeeze_twice a b p : squeeze b (a ++ "/"%char :: "/"%char :: p) = squeeze b (a ++ "/"%char :: p).
Proof. revert b. induction a as [|c a IH]; intros b; cbn; [by destruct b|]. destruct (Ascii.eqb c "/"), b; by rewrite ?IH. Qed.

Lemma without_slash_place p : place (in_dir (without_slash p)) = place (in_dir p) /\ sizeZ p <= sizeZ (without_slash p) + 1.
Proof.
  unfold without_slash, sizeZ. destruct p as [|c p]; [split; [done|cbn; lia]|]. cbn. destruct (Ascii.eqb_spec c "/") as [->|]; [|split; [done|cbn; lia]].
  split; [|lia]. unfold in_dir, place. by rewrite squeeze_twice.
Qed.

Lemma basedir_place p : place (basedir ++ p) = place (in_dir p).
Proof.
  unfold basedir, in_dir, place. case_bool_decide as H; [|by rewrite <- app_assoc].
  apply last_Some in H as [d ->]. rewrite <- !app_assoc. cbn [app]. by rewrite squeeze_twice.
Qed.

Lemma read_place path path' s : place path = place path' -> read_file path s = read_file path' s.
Proof. unfold read_file. by intros ->. Qed.

(** The path of a resource is a place in the directory, in the data base with a slash in front of it or not. *)
Lemma path_place namepath info URL path : url_and_path namepath info = Ok (URL, path) ->
  let p := default namepath (info !! chars "path") in
  place (in_dir p) = place (in_dir path) /\ sizeZ p <= sizeZ path + 1 /\ (info !! chars "path" = None \/ info !! chars "path" = Some p).
Proof.
  unfold url_and_path. destruct (overide_URL_base || _), (info !! chars "path") as [p|]; cbv zeta; cbn [default from_option]; [| |done|]; intros E; simplify_eq.
  - destruct (without_slash_place p). repeat split; [done|done|by right].
  - destruct (info !! chars "URL"); simplify_eq.
    split_and!; [done|lia|by left].
Qed.

Lemma locate_ok fp URL path info s : place fp = place (in_dir path) -> sizeZ fp < 256 -> sizeZ (in_dir path) < 256 ->
  (forall p, resources s !! URL = Some p -> p = path) ->
  (info !! chars "path" = None \/ exists p, info !! chars "path" = Some p /\ place (in_dir p) = place (in_dir path)) ->
  exists fp', locate URL fp info s = (fp', bool_decide (is_Some (read_file (in_dir path) s)), true) /\
    place fp' = place (in_dir path) /\ sizeZ fp' < 256.
Proof.
  intros Hp Hl Hl' Hsame Hinfo. unfold locate. set (fp' := from_option in_dir fp (resources s !! URL)).
  assert (H : place fp' = place (in_dir path) /\ sizeZ fp' < 256).
  { unfold fp'. destruct (resources s !! URL) as [p|]; [|done]. by rewrite (Hsame p eq_refl). }
  exists fp'. split; [|done]. rewrite (read_place fp' (in_dir path)) by apply H.
  destruct (read_file (in_dir path) s) as [c|] eqn:Er; [by rewrite bool_decide_true by eauto|]. rewrite bool_decide_false by by intros [].
  destruct Hinfo as [->|(p & -> & Hpl)]; [done|]. by rewrite (read_place (in_dir p) (in_dir path)), Er by done.
Qed.

Lemma download_ok URL fp content s : download URL = Some content -> sizeZ fp < 256 ->
  GetResourceFromURL URL fp s = (Ok tt, write_file fp content (write_file (in_dir (chars "info.xml")) [] s)).
Proof. intros Hd Hl. unfold GetResourceFromURL. rewrite (proj2 (Z.leb_gt 256 _) Hl), M_bind_modify, Hd. done. Qed.

(** After a file has been loaded: the table has its entry, and otherwise only entries that it had, for other files. *)
Lemma loaded_files URL fp path content s s1 : files_true s ->
  download URL = Some content -> place fp = place (in_dir path) -> ~ reserved path ->
  (forall U p, resources s !! U = Some p -> place (in_dir p) = place (in_dir path) -> p = path) ->
  files s1 = files (write_file fp content (write_file (in_dir (chars "info.xml")) [] s)) \/
  files s1 = files (write_file fp content (write_file (in_dir (chars "info.xml")) [] (unlink fp s))) ->
  (forall U p, resources s1 !! U = Some p -> (U = URL /\ p = path) \/ (resources s !! U = Some p /\ p <> path)) ->
  files_true s1.
Proof.
  intros Hs Hd Hp Hr Hn Hf Ht U p Hu. destruct (Ht U p Hu) as [[-> ->]|[Hu' Hne]].
  - split; [|done]. exists content. split; [done|]. unfold read_file, write_file in *. cbn in *.
    destruct Hf as [-> | ->]; rewrite <- Hp; by rewrite lookup_insert_eq.
  - destruct (Hs U p Hu') as [(c & Hc & Hc') Hr']. split; [|done]. exists c. split; [done|].
    assert (H1 : place (in_dir p) <> place fp) by (rewrite Hp; intros E; by apply Hne, (Hn U)).
    assert (H2 : place (in_dir p) <> place (in_dir (chars "info.xml"))) by (intros E; apply Hr'; by left).
    unfold read_file, write_file, unlink in *. cbn in *.
    destruct Hf as [-> | ->]; rewrite !lookup_insert_ne by done; [done|]. by rewrite lookup_delete_ne.
Qed.

Lemma erase_others_lookup URL path r U p :
  erase_others URL path r !! U = Some p <-> r !! U = Some p /\ (p = path -> U = URL).
Proof. unfold erase_others. by rewrite map_lookup_filter_Some. Qed.

Lemma no_redownload URL path r U : redownload_required URL path r = false -> r !! U = Some path -> U = URL.
Proof.
  intros Hf HU. destruct (decide (U = URL)) as [|Hne]; [done|]. exfalso. unfold redownload_required in Hf.
  rewrite <- not_true_iff_false, existsb_exists in Hf. apply Hf. exists (U, path). split; [by apply list_elem_of_In, by_key_elem|].
  cbn. by rewrite bool_decide_true, bool_decide_false.
Qed.

Lemma constants_ok_insert (r : Constants) k v : constants_ok r -> key_ok k /\ unspaced v -> constants_ok (<[k := v]> r).
Proof. intros Hr Hk k' v' [[<- <-]|[_ H]]%lookup_insert_Some; [done|by apply Hr]. Qed.

Lemma ensure_ok Get namepath URL path content info s fp : plain Get namepath URL path content info s ->
  files_true s -> constants_ok (resources s) -> place fp = place (in_dir path) -> sizeZ fp < 256 ->
  exists rw s1, ensure URL path fp (bool_decide (is_Some (read_file (in_dir path) s))) true s = (Ok rw, s1) /\
    files_true s1 /\ constants_ok (resources s1) /\ resources s1 !! URL = Some path /\ (rw = false -> s1 = s).
Proof.
  intros P Hf Hc Hp Hl. unfold ensure. rewrite M_bind_get. pose proof (plain_download _ _ _ _ _ _ _ P) as Hd.
  pose proof (loaded_files URL fp path content s) as L. specialize (fun s1 => L s1 Hf Hd Hp (plain_path _ _ _ _ _ _ _ P) (plain_names _ _ _ _ _ _ _ P)).
  pose proof (constants_ok_insert _ _ _ Hc (plain_words _ _ _ _ _ _ _ P)) as Hc'.
  case_bool_decide as He; cbn [negb andb].
  - destruct (redownload_required URL path (resources s)) eqn:Er.
    + rewrite M_bind_modify. mstep (download_ok URL fp content (unlink fp s) Hd Hl). rewrite M_bind_modify. eexists _, _. split; [done|].
      split_and!; [|..|done].
      * apply L; [by right|]. intros U p [[[<- <-]|[Hne HU]]%lookup_insert_Some Hpath]%erase_others_lookup; [by left|].
        right. split; [done|]. intros ->. by apply Hne, symmetry, Hpath.
      * intros U p [HU _]%erase_others_lookup. by apply Hc'.
      * apply erase_others_lookup. split; [apply lookup_insert_eq|done].
    + eexists _, _. split; [done|]. split_and!; [done|done| |done].
      destruct (plain_origin _ _ _ _ _ _ _ P He) as [U HU]. by rewrite <- (no_redownload _ _ _ _ Er HU).
  - mstep (download_ok URL fp content s Hd Hl). rewrite M_bind_modify. eexists _, _. split; [done|]. split_and!; [|done|apply lookup_insert_eq|done].
    apply L; [by left|]. intros U p. cbn [resources set_resources write_file]. intros [[<- <-]|[Hne HU]]%lookup_insert_Some; [by left|]. right. split; [done|]. intros ->.
    destruct (Hf U path HU) as [(c & _ & Hr) _]. apply He. eauto.
Qed.

Lemma table_path : chars "resources" ∉ calib_namepaths -> GetLocalPathToResource (chars "resources") = Ok (in_dir (chars "resources")).
Proof. intros Hn. unfold GetLocalPathToResource. destruct jcalib; [|done]. by rewrite decide_False. Qed.

Lemma ReadResourceInfoFile_ok s table : chars "resources" ∉ calib_namepaths ->
  read_file (in_dir (chars "resources")) s = Some table -> (forall f, GetCalib_map f (Some table) = Ok (false, resources s)) ->
  ReadResourceInfoFile s = (Ok tt, s).
Proof.
  intros Hn Hr Ht. unfold ReadResourceInfoFile. rewrite M_bind_modify, (M_bind_lift _ _ _ _ (table_path Hn)), M_bind_get.
  change (read_file ?p (set_resources ∅ s)) with (read_file p s). rewrite (read_place (basedir ++ _) (in_dir (chars "resources"))) by apply basedir_place.
  rewrite Hr, (M_bind_lift _ _ _ _ (Ht _)). by destruct s.
Qed.

(** The comparison of checksums, as [GetResource] makes it. *)
Lemma checked Get namepath URL path content info s fp s1 : length (Md5.buf pms) = 64%nat ->
  plain Get namepath URL path content info s -> read_file fp s1 = Some content ->
  (match info !! chars "md5" with
   | Some md5 =>
       if check_md5 then md5sum ← lift (Get_MD5 pms (read_file fp s1)); mret (negb (bool_decide (md5sum = md5)))
       else mret false
   | None => mret false
   end) s1 = (Ok false, s1).
Proof.
  intros Hb P Hrd. destruct (info !! chars "md5") as [md5|] eqn:Em; [|done]. destruct check_md5 eqn:Ec; [|done].
  rewrite Hrd, (M_bind_lift _ _ _ _ (Get_MD5_ok pms content Hb)). by rewrite bool_decide_true by by apply (plain_md5 _ _ _ _ _ _ _ P).
Qed.

(** Resources are loaded when they are needed, and the table of them stays true.  Let each entry of the table have a file with
    what its URL provides, and let the table on the disk be the one in memory.  Then a request returns the path of a file with what the
    URL of the resource provides, which is loaded if there is no file or if the file is that of
    another URL; the table has an entry for it; and the table is still true, in memory and on the disk.  This is for a request
    that is [plain]: the resource is listed in the data base, its URL can be loaded and has the right checksum, the name of the file is not
    too long and no other one's, and neither was the file put there by hand nor is the URL in the table under another path. *)
Theorem resource_is_current Get namepath URL path content info s :
  length (Md5.buf pms) = 64%nat -> jcalib = Some Get -> chars "resources" ∉ calib_namepaths -> one_line now ->
  sound s -> plain Get namepath URL path content info s ->
  exists fullpath s', GetResource namepath s = (Ok (Some fullpath), s') /\
    place fullpath = place (in_dir path) /\ read_file fullpath s' = Some content /\ resources s' !! URL = Some path /\ sound s'.
Proof.
  intros Hb Hj Hres Hnow [Sf St Sd] P. destruct (path_place _ _ _ _ (plain_url _ _ _ _ _ _ _ P)) as (Hpl & Hlen & Hin).
  pose proof (plain_length _ _ _ _ _ _ _ P) as Hs. set (p := default namepath _) in *.
  assert (Hlp : forall q : line, sizeZ (in_dir q) = sizeZ resource_dir + 1 + sizeZ q).
  { intros q. unfold in_dir, sizeZ. rewrite length_app. cbn. lia. }
  assert (Eg : GetLocalPathToResource namepath = Ok (in_dir p)).
  { unfold GetLocalPathToResource. rewrite Hj, decide_True by apply (plain_listed _ _ _ _ _ _ _ P). by rewrite (plain_info _ _ _ _ _ _ _ P). }
  unfold GetResource. rewrite (M_bind_lift _ _ _ _ Eg), Hj, (M_bind_lift _ _ _ _ (plain_info _ _ _ _ _ _ _ P)),
    (M_bind_lift _ _ _ _ (plain_url _ _ _ _ _ _ _ P)), M_bind_get.
  destruct (locate_ok (in_dir p) URL path info s) as (fp & El & Hfp & Hfl); [done|rewrite Hlp; lia|rewrite Hlp; lia|apply (plain_same _ _ _ _ _ _ _ P)| |].
  { destruct Hin as [->|Hin]; [by left|]. right. by exists p. }
  destruct (ensure_ok _ _ _ _ _ _ s fp P Sf St Hfp Hfl) as (rw & s1 & Ee & F1 & C1 & R1 & Hrw).
  rewrite El. mstep Ee. rewrite M_bind_get. destruct (F1 _ _ R1) as [(c & Hc & Hrd) _].
  rewrite (plain_download _ _ _ _ _ _ _ P) in Hc. injection Hc as <-. rewrite <- (read_place fp) in Hrd by done.
  exists fp. mstep (checked Get namepath URL path content info s fp s1 Hb P Hrd).
  destruct rw; [|rewrite (Hrw eq_refl) in *; by eexists].
  destruct (WriteResourceInfoFile_ok _ s1 (table_path Hres)) as (table & Ew & Hread). mstep Ew. eexists. split; [done|].
  split; [done|]. split; [rewrite read_write_other; [done|]; rewrite Hfp; intros E; apply (plain_path _ _ _ _ _ _ _ P); by right|].
  split; [done|]. split; [|done|].
  - intros U q HU. destruct (F1 U q HU) as [(c' & Hd & Hr) Hq]. split; [|done]. exists c'. split; [done|].
    rewrite read_write_other; [done|]. intros E. apply Hq. by right.
  - eapply ReadResourceInfoFile_ok; [done|by apply read_write_same|]. by apply Hread.
Qed.

End Resources.

(** ** The constructor *)

Definition describe (d : string) (p : JParameter) : JParameter :=
  mkParameter (m_name p) (m_value p) (m_default_value p) d (m_has_default p) (m_is_default p) (m_is_deprecated p) (m_is_advanced p) (m_is_used p).

Section Construction.
(** Whether there is a parameter manager, the environment variables and which directories exist. *)
Context (params : bool) (USER JANA_RESOURCE_DIR : option string) (is_directory : string -> bool).

Definition default_path_description : string :=
  "Colon (:) separated list of potential directories to be used as the resource directory. Only used if not specified explicitly via JANA:RESOURCE_DIR configuration parameter or JANA_RESOURCE_DIR environment variable".

Definition RESOURCE_DEFAULT_PATH : M JParameterManager string :=
  if negb params then mret EmptyString else
  exists_ ← gets (Exists "JANA:RESOURCE_DEFAULT_PATH");
  path ← (if exists_ : bool then v ← GetParameter "JANA:RESOURCE_DEFAULT_PATH"; mret (default EmptyString v)
          else _ ← SetParameter "JANA:RESOURCE_DEFAULT_PATH" EmptyString; mret EmptyString);
  _ ← update (ToLower "JANA:RESOURCE_DEFAULT_PATH") (describe default_path_description);
  mret path.

Definition choose_dir (resource_dir : string) : M JParameterManager string :=
  path ← RESOURCE_DEFAULT_PATH;
  let dir := default ("/tmp/" +:+ default "jana"%string USER +:+ "/resources")
               (head (filter (fun d => is_directory d = true) (text <$> delivered ":" [] (chars path)))) in
  let dir := default dir JANA_RESOURCE_DIR in
  dir ← (if params then SetDefaultParameter "JANA:RESOURCE_DIR" dir EmptyString else mret dir);
  mret (if decide (resource_dir = EmptyString) then dir else resource_dir).

Record Settings := mkSettings { overide_URL_base : bool; URL_base : string; curl_args : string; check_md5 : bool }.

(** The parameters after the table has been read. *)
Definition settings : M JParameterManager Settings :=
  if negb params then mret (mkSettings false EmptyString "--insecure" true) else
  exists_ ← gets (Exists "JANA:RESOURCE_URL");
  url ← (if exists_ : bool then SetDefaultParameter "JANA:RESOURCE_URL" EmptyString
           "Base URL to use for retrieving resources. If set, this will override any URL_base values found in the calib DB."
         else mret EmptyString);
  args ← SetDefaultParameter "JANA:CURL_ARGS" "--insecure"%string "additional arguments to be passed to the external curl program";
  check ← SetDefaultParameter "JANA:RESOURCE_CHECK_MD5" true
    "Set this to 0 to disable checking of the md5 checksum for resource files. You generally want this check left on.";
  mret (mkSettings exists_ url args check).

Abbreviation MPL := (M (JParameterManager * Local)).
Definition with_params {A} (m : M JParameterManager A) : MPL A := fun s => let '(r, p) := m s.1 in (r, (p, s.2)).
Definition with_local {A} (m : ML A) : MPL A := fun s => let '(r, l) := m s.2 in (r, (s.1, l)).

(** [jcalib] is asked for its names before anything else: what it knows and the names that it lists. *)
Definition new_large_calibration (jcalib : option ((line -> outcome Constants) * list line)) (resource_dir : string)
    : MPL (string * Settings) :=
  match jcalib with
  | None => lift Undef
  | Some (Get, calib_namepaths) =>
      dir ← with_params (choose_dir resource_dir);
      _ ← with_local (ReadResourceInfoFile (chars dir) (Some Get) calib_namepaths);
      st ← with_params settings;
      mret (dir, st)
  end.

End Construction.

(** ** A data base *)

Definition field_info : Constants :=
  list_to_map [(chars "URL_base", chars "http://x"); (chars "path", chars "/maps/field"); (chars "md5", chars "900150983cd24fb0d6963f7d28e17f72")].

Definition data_base (namepath : line) : outcome Constants :=
  if decide (namepath = chars "field") then Ok field_info
  else if decide (namepath = chars "a") then Ok {[ chars "URL" := chars "u" ]}
  else if decide (namepath = chars "b") then Ok {[ chars "URL" := chars "u" ]}
  else throwJ "not found".

Definition names : list line := [chars "field"; chars "a"; chars "b"].
Definition some_pms : Md5.md5_state := Md5.mkState 0 0 Md5.initial_abcd (replicate 64 0).
Definition web (URL : line) : option line := if decide (URL = chars "gone") then None else Some (chars "abc").
Definition fresh : Local := mkLocal ∅ ∅.

Abbreviation request namepath := (GetResource (chars "/r") (Some data_base) names false [] true web (chars "today") some_pms namepath).

Lemma resource_is_verified_witness :
  exists content, read_file (chars "/r//maps/field") (request (chars "field") fresh).2 = Some content /\
    hex_output (Md5.rfc_md5 (byte_value <$> content)) = chars "900150983cd24fb0d6963f7d28e17f72".
Proof.
  apply (resource_is_verified (chars "/r") (Some data_base) names false [] true web (chars "today") some_pms
    data_base (chars "field") field_info _ (chars "/r/resources") fresh);
    [done|done|vm_compute; reflexivity|vm_compute; reflexivity|done|done|vm_compute; reflexivity|by vm_compute|].
  apply returns_value. vm_compute. reflexivity.
Defined.

Lemma fresh_sound : sound (chars "/r") (Some data_base) names web fresh.
Proof. split; [by intros U p|by intros k v|vm_compute; reflexivity]. Qed.

Lemma field_plain : plain (chars "/r") names false [] true web data_base (chars "field") (chars "http://x/maps/field") (chars "maps/field") (chars "abc")
  field_info fresh.
Proof.
  split; try (vm_compute; reflexivity).
  - by apply list_elem_of_here.
  - intros md5 [= <-] _. vm_compute. reflexivity.
  - split; [split_and!; [done| |done]|]; by repeat constructor.
  - by intros [H|H]; vm_compute in H.
  - by intros p.
  - by intros U p.
  - intros [c Hc]. by vm_compute in Hc.
Qed.

Lemma resource_is_current_witness :
  exists fullpath s', request (chars "field") fresh = (Ok (Some fullpath), s') /\
    place fullpath = place (in_dir (chars "/r") (chars "maps/field")) /\ read_file fullpath s' = Some (chars "abc") /\
    resources s' !! chars "http://x/maps/field" = Some (chars "maps/field") /\ sound (chars "/r") (Some data_base) names web s'.
Proof.
  apply (resource_is_current (chars "/r") (Some data_base) names false [] true web (chars "today") some_pms data_base
    (chars "field") (chars "http://x/maps/field") (chars "maps/field") (chars "abc") field_info fresh);
    [done|done|by apply (bool_decide_unpack _)|by repeat constructor|apply fresh_sound|apply field_plain].
Defined.

(** ** Difficulties *)

(** Without a calibration, which the documentation allows, the constructor uses a null pointer. *)
Lemma without_calibration params USER dir is_directory resource_dir s :
  (new_large_calibration params USER dir is_directory None resource_dir s).1 = Undef.
Proof. done. Qed.

(** A resource that cannot be loaded is reported as a success, and entered in the table. *)
Lemma failed_download_is_recorded :
  let '(r, s) := GetResource (chars "/r") (Some (fun _ => Ok {[ chars "URL" := chars "gone" ]})) names false [] true web (chars "today") some_pms (chars "a") fresh in
  r = Ok (Some (chars "/r/a")) /\ read_file (chars "/r/a") s = None /\ resources s !! chars "gone" = Some (chars "a").
Proof. vm_compute. done. Qed.

(** An empty checksum passes for a file that is not there. *)
Lemma empty_checksum_passes :
  (GetResource (chars "/r") (Some (fun _ => Ok (<[chars "md5" := []]> {[ chars "URL" := chars "gone" ]}))) names false [] true web (chars "today") some_pms
     (chars "a") fresh).1 = Ok (Some (chars "/r/a")).
Proof. vm_compute. done. Qed.

(** Two names with one URL: the file of the first is loaded again, and the table then gives the URL to the file of the second,
    which has something else.  The next request delivers this. *)
Definition two_names : Local :=
  mkLocal (list_to_map [(chars "/r/a", chars "abc"); (chars "/r/b", chars "old")]) (list_to_map [(chars "u", chars "a"); (chars "v", chars "b")]).

Lemma shared_url_gets_wrong_file :
  let '(r1, s1) := request (chars "b") two_names in
  let '(r2, s2) := request (chars "b") s1 in
  r1 = Ok (Some (chars "/r/a")) /\ resources s1 !! chars "u" = Some (chars "b") /\
  r2 = Ok (Some (chars "/r/b")) /\ read_file (chars "/r/b") s2 = Some (chars "old") /\ web (chars "u") = Some (chars "abc").
Proof. vm_compute. done. Qed.

(** A long name does not fit the array that it is copied to. *)
Lemma long_name_overflows dl dir URL fullpath s : 256 <= sizeZ fullpath -> (GetResourceFromURL dir dl URL fullpath s).1 = Undef.
Proof. intros H. unfold GetResourceFromURL. by rewrite (proj2 (Z.leb_le 256 _) H). Qed.

(** ** Where the directory comes from *)

(** Without a parameter manager: the argument, the environment variable, or a directory of the user. *)
Lemma directory_precedence USER dir is_directory resource_dir m :
  (choose_dir false USER dir is_directory resource_dir m).1 =
    Ok (if decide (resource_dir = EmptyString) then default ("/tmp/" +:+ default "jana"%string USER +:+ "/resources") dir else resource_dir).
Proof. done. Qed.

End LargeCalibration.
