(* ===== verification/JXPath.v ===== *)
(** * JXPath: the paths of the geometry

    Model of the text side of [Compatibility/JGeometryXML.cc]: [ParseXPath], the paths that
    [AddNodeToList] writes, and [NodeCompare].  Positions in a string are [nat]; [npos] is [None]. *)

From Stdlib Require Import Ascii.
From S2P Require Import Prelude JParameterManager JCalibrationFile.
Import Parameters CalibrationFile.

Module XPath.

(** ** Positions in a string *)

Fixpoint index_of (c : ascii) (s : line) : option nat :=
  match s with
  | [] => None
  | x :: s => if decide (x = c) then Some 0 else S <$> index_of c s
  end.

(** [s.find_first_of(c, pos)]. *)
Definition find_first_of (c : ascii) (s : line) (pos : nat) : option nat := Nat.add pos <$> index_of c (drop pos s).

(** [s[i]], which is zero at the end of the string. *)
Definition char_at (s : line) (i : nat) : ascii := nth i s zero.

(** [s.substr(from, to - from)]: with [to < from] the length wraps, and the rest is taken. *)
Definition substr_to (s : line) (from to : nat) : line :=
  if from <=? to then take (to - from) (drop from s) else drop from s.

(** ** [ParseXPath] *)

(** The attributes of a node, with [[]] for a value that was not given. *)
Abbreviation node_t := (line * gmap line line)%type.

(** [lastPos = xpath.find_first_not_of("/", 0)]. *)
Fixpoint skip_slashes (s : line) : line :=
  match s with
  | c :: s' => if decide (c = "/"%char) then skip_slashes s' else s
  | [] => []
  end.

(** The loop over the sections; [buf] is the text since [lastPos]. *)
Fixpoint split_sections (buf rest : line) : list line :=
  match rest with
  | [] => [buf]
  | c :: rest => if decide (c = "/"%char) then buf :: split_sections [] rest else split_sections (buf ++ [c]) rest
  end.

(** Without a character other than a slash [lastPos] is [npos], and [substr] throws. *)
Definition sections_of (xpath : line) : outcome (list line) :=
  match skip_slashes xpath with
  | [] => Throw (EStd "out_of_range")
  | rest => Ok (split_sections [] rest)
  end.

Definition node_name (str : line) : line :=
  let pos_node_end := default (length str) (find_first_of "[" str 0) in
  let pos_node_start :=
    match find_first_of ":" str 0 with
    | None => 0
    | Some p => if pos_node_end <? p then 0 else S p
    end in
  let pos_node_start := if decide (char_at str pos_node_start = "@"%char) then pos_node_end else pos_node_start in
  substr_to str pos_node_start pos_node_end.

Definition clip_end (c : ascii) (str : line) (pos_end : nat) : nat :=
  if decide (char_at str (pos_end - 1) = c) then pos_end - 1 else pos_end.

Definition clip_start (c : ascii) (str : line) (pos_start : nat) : nat :=
  if decide (char_at str pos_start = c) then S pos_start else pos_start.

Definition apostrophe : ascii := "'".
Definition quotation_mark : ascii := ascii_of_nat 34.

(** The value behind the [=] at [pos_equals], of the attribute whose name starts at [lastPos]. *)
Definition attribute_value (str : line) (lastPos pos_equals : nat) : line :=
  let pos_end := default (length str) (find_first_of " " str pos_equals) in
  let pos_end :=
    match find_first_of apostrophe str lastPos with
    | None => pos_end
    | Some pos_quote =>
        match find_first_of apostrophe str (pos_quote + 1) with
        | Some pos_quote => if pos_end <? pos_quote then pos_quote else pos_end
        | None => pos_end
        end
    end in
  let pos_end := clip_end quotation_mark str (clip_end apostrophe str (clip_end "]" str pos_end)) in
  let pos_start := clip_start quotation_mark str (clip_start apostrophe str (pos_equals + 1)) in
  substr_to str pos_start pos_end.

(** One turn of the loop over the attributes, behind the at sign; [None] where it breaks out. *)
Definition attribute_at (str : line) (lastPos : nat) : option (line * line) :=
  let next_attr := find_first_of "@" str lastPos in
  match find_first_of "=" str lastPos with
  | Some pos_equals =>
      if match next_attr with Some p => pos_equals <? p | None => true end
      then Some (substr_to str lastPos pos_equals, attribute_value str lastPos pos_equals)
      else None
  | None =>
      let pos_end := default (length str) (find_first_of " " str lastPos) in
      Some (substr_to str lastPos (clip_end "]" str pos_end), [])
  end.

Fixpoint attributes_loop (fuel : nat) (str : line) (lastPos : option nat) (qualifiers : gmap line line) : gmap line line :=
  match fuel, lastPos with
  | S fuel, Some lastPos =>
      let lastPos := S lastPos in
      match attribute_at str lastPos with
      | Some (attr, val) =>
          if decide (attr = []) then qualifiers
          else attributes_loop fuel str (find_first_of "@" str lastPos) (<[attr := val]> qualifiers)
      | None => qualifiers
      end
  | _, _ => qualifiers
  end.

(** Every turn moves on by a character. *)
Definition qualifiers_of (str : line) : gmap line line :=
  attributes_loop (length str) str (find_first_of "@" str 0) ∅.

(** What the parser fills in. *)
Record Parsed := mkParsed { nodes : list node_t; attribute : line; attr_depth : Z }.

Definition no_depth : Z := 0xFFFFFFFF.

(** The [i]-th section.  Without a name it names the attribute wanted, of the node [nodes[i-1]]. *)
Definition add_section (i : nat) (str : line) (p : Parsed) : outcome Parsed :=
  let nodeName := node_name str in
  let qualifiers := qualifiers_of str in
  if bool_decide (nodeName = []) && (0 <? i) then
    match map_to_list qualifiers with
    | [(name, _)] =>
        match nodes p !! (i - 1) with
        | None => Undef
        | Some (n, qs) =>
            Ok (mkParsed (<[i - 1 := (n, <[name := []]> qs)]> (nodes p)) name (u32 (sizeZ (nodes p) - 1)))
        end
    | _ => Ok p
    end
  else Ok (mkParsed (nodes p ++ [(nodeName, qualifiers)]) (attribute p) (attr_depth p)).

Fixpoint add_sections (i : nat) (strs : list line) (p : Parsed) : outcome Parsed :=
  match strs with
  | [] => Ok p
  | str :: strs => p ← add_section i str p; add_sections (S i) strs p
  end.

(** The container of the nodes is empty at every call. *)
Definition ParseXPath (xpath : line) : outcome Parsed :=
  sections ← sections_of xpath;
  add_sections 0 sections (mkParsed [] [] no_depth).

(** ** Paths as text *)

Definition qualifier_text (kv : line * line) : line := chars "@" ++ kv.1 ++ chars "='" ++ kv.2 ++ chars "'".

Fixpoint qualifiers_text (kvs : list (line * line)) : line :=
  match kvs with
  | [] => []
  | [kv] => qualifier_text kv
  | kv :: kvs => qualifier_text kv ++ chars " and " ++ qualifiers_text kvs
  end.

(** The qualifiers in the order of the names of the attributes. *)
Definition attr_qualifiers (attributes : gmap line line) : line :=
  if decide (attributes = ∅) then [] else chars "[" ++ qualifiers_text (by_key attributes) ++ chars "]".

(** ** [NodeCompare] *)

Definition attributes_compare (attr1 attr2 : gmap line line) : bool :=
  forallb (fun kv => match attr2 !! kv.1 with
    | None => false
    | Some v2 => bool_decide (kv.2 = []) || bool_decide (kv.2 = v2)
    end) (by_key attr1).

Fixpoint NodeCompare (nodes1 nodes2 : list node_t) : bool :=
  match nodes1, nodes2 with
  | [], _ => true
  | _ :: _, [] => false
  | (name1, attr1) :: nodes1, (name2, attr2) :: nodes2 =>
      (bool_decide (name1 = chars "*") || bool_decide (name1 = name2)) && attributes_compare attr1 attr2
      && NodeCompare nodes1 nodes2
  end.

(** ** Searching in text *)

Lemma index_of_app (c : ascii) (m r : line) : c ∉ m -> index_of c (m ++ r) = Nat.add (length m) <$> index_of c r.
Proof.
  induction m as [|x m IH]; intros H; cbn [index_of app length].
  - by destruct (index_of c r).
  - apply not_elem_of_cons in H as [Hx Hm]. rewrite decide_False, IH by congruence. by destruct (index_of c r).
Qed.

Lemma index_of_none (c : ascii) (m : line) : c ∉ m -> index_of c m = None.
Proof. intros H. rewrite <- (app_nil_r m), index_of_app by done. done. Qed.

Lemma index_of_here (c : ascii) (m r : line) : c ∉ m -> index_of c (m ++ c :: r) = Some (length m).
Proof. intros H. rewrite index_of_app by done. cbn. rewrite decide_True by done. cbn. f_equal. lia. Qed.

Lemma index_of_lt (c : ascii) (s : line) k : index_of c s = Some k -> k < length s.
Proof.
  revert k. induction s as [|x s IH]; intros k H; cbn in *; [done|]. case_decide; simplify_eq; [lia|].
  destruct (index_of c s) as [j|]; simplify_eq/=. specialize (IH j eq_refl). lia.
Qed.

Lemma find_after (c : ascii) (pre m r : line) (p : nat) : p = length pre -> c ∉ m -> find_first_of c (pre ++ m ++ c :: r) p = Some (p + length m).
Proof. intros -> H. unfold find_first_of. rewrite drop_app_length, index_of_here by done. done. Qed.

Lemma find_skips (c : ascii) (pre m r : line) (p : nat) : p = length pre -> c ∉ m ->
  find_first_of c (pre ++ m ++ r) p = Nat.add (p + length m) <$> index_of c r.
Proof.
  intros -> H. unfold find_first_of. rewrite drop_app_length, index_of_app by done.
  destruct (index_of c r); [|done]. cbn. f_equal. lia.
Qed.

Lemma char_after (pre r : line) (p : nat) c : p = length pre -> char_at (pre ++ c :: r) p = c.
Proof. intros ->. unfold char_at. rewrite app_nth2, Nat.sub_diag by lia. done. Qed.

Lemma substr_middle (pre m r : line) (p q : nat) : p = length pre -> q = length pre + length m -> substr_to (pre ++ m ++ r) p q = m.
Proof.
  intros -> ->. unfold substr_to. rewrite (proj2 (Nat.leb_le _ _)) by lia.
  rewrite drop_app_length. replace (length pre + length m - length pre) with (length m) by lia. by rewrite take_app_length.
Qed.

(** The fuel is enough: one turn per character is as good as any number of turns. *)
Lemma attributes_loop_fuel str : forall fuel fuel' pos qs,
  match pos with Some p => length str - p <= fuel /\ length str - p <= fuel' /\ p < length str | None => True end ->
  attributes_loop fuel str pos qs = attributes_loop fuel' str pos qs.
Proof.
  induction fuel as [|fuel IH]; intros fuel' [p|] qs Hp; [lia|by destruct fuel'| |by destruct fuel'].
  destruct fuel' as [|fuel']; [lia|]. cbn [attributes_loop]. destruct (attribute_at str (S p)) as [[a v]|]; [|done].
  case_decide; [done|]. apply IH. destruct (find_first_of "@" str (S p)) as [q|] eqn:Hq; [|done].
  unfold find_first_of in Hq. destruct (index_of "@" (drop (S p) str)) as [k|] eqn:Hk; simplify_eq/=.
  apply index_of_lt in Hk. rewrite length_drop in Hk. lia.
Qed.

(** ** Names and values that can be written in a path *)

Definition free_of (cs : list ascii) (s : line) : Prop := Forall (fun c => c ∉ cs) s.

Lemma free_not_in cs s c : free_of cs s -> c ∈ cs -> c ∉ s.
Proof. unfold free_of. rewrite Forall_forall. intros H Hc Hs. by apply (H c). Qed.

Definition name_chars : list ascii := ["/"%char; "["%char; ":"%char; "@"%char].
Definition attribute_chars : list ascii := ["/"%char; "@"%char; "="%char; apostrophe].
Definition value_chars : list ascii := ["/"%char; "@"%char; "]"%char; apostrophe; quotation_mark].

Definition name_ok (n : line) : Prop := n <> [] /\ free_of name_chars n.
Definition qualifier_ok (kv : line * line) : Prop := kv.1 <> [] /\ free_of attribute_chars kv.1 /\ free_of value_chars kv.2.

#[export] Instance name_ok_dec n : Decision (name_ok n).
Proof. unfold name_ok, free_of. apply _. Defined.

#[export] Instance qualifier_ok_dec kv : Decision (qualifier_ok kv).
Proof. unfold qualifier_ok, free_of. apply _. Defined.

(** What may follow a qualifier: the end of the list or the next one. *)
Definition follows (post : line) : Prop := post = chars "]" \/ exists r, post = " "%char :: r.

Lemma clip_end_no c str p : char_at str (p - 1) <> c -> clip_end c str p = p.
Proof. intros H. unfold clip_end. by rewrite decide_False. Qed.

Lemma clip_end_yes c str p : char_at str (p - 1) = c -> clip_end c str p = p - 1.
Proof. intros H. unfold clip_end. by rewrite decide_True. Qed.

(** The character before a position in the middle of a text. *)
Lemma char_before (B v r : line) (q : nat) : q = length B + length v -> v <> [] -> exists c, c ∈ v /\ char_at (B ++ v ++ r) (q - 1) = c.
Proof.
  intros -> Hv. destruct (exists_last Hv) as (v' & c & ->). exists c. split; [apply elem_of_app; right; apply list_elem_of_here|].
  rewrite length_app. cbn. replace (length B + (length v' + 1) - 1) with (length (B ++ v')) by (rewrite length_app; lia).
  rewrite <- app_assoc, (app_assoc B). cbn [app]. by apply char_after.
Qed.

(** Where the value ends before it is clipped: at the closing quote, or one or two characters behind it. *)
Lemma clipped_end B v post q : free_of value_chars v ->
  let str := B ++ [apostrophe] ++ v ++ apostrophe :: post in
  let E := length B + 1 + length v in
  q = E + 1 /\ (exists r, post = " "%char :: r) \/ q = E + 2 /\ post = chars "]" \/ q = E /\ v <> [] ->
  clip_end quotation_mark str (clip_end apostrophe str (clip_end "]" str q)) = E.
Proof.
  intros Hv str E Hq.
  assert (HE : char_at str E = apostrophe).
  { unfold str. rewrite app_assoc, app_assoc. apply char_after. rewrite !length_app. cbn. unfold E. lia. }
  assert (HlastE : char_at str (E - 1) <> quotation_mark /\ (v <> [] -> char_at str (E - 1) <> "]"%char /\ char_at str (E - 1) <> apostrophe)).
  { destruct (decide (v = [])) as [->|Hne].
    - split; [|done]. unfold E. cbn [length]. replace (length B + 1 + 0 - 1) with (length B) by lia. unfold str. cbn [app]. by rewrite char_after.
    - destruct (char_before (B ++ [apostrophe]) v (apostrophe :: post) E) as (c & Hc & Hat); [unfold E; rewrite length_app; cbn; lia|done|].
      unfold str. rewrite <- app_assoc in Hat. rewrite Hat.
      split; [|intros _; split]; intros ->; apply (free_not_in _ _ _ Hv) in Hc; try done; vm_compute; set_solver. }
  destruct HlastE as [HnQ Hother].
  assert (Hfinal : clip_end quotation_mark str E = E) by (by apply clip_end_no).
  destruct Hq as [[-> _]|[[-> Hpost]|[-> Hne]]].
  - rewrite (clip_end_no "]"); [|replace (E + 1 - 1) with E by lia; by rewrite HE].
    rewrite (clip_end_yes apostrophe); [|by replace (E + 1 - 1) with E by lia]. replace (E + 1 - 1) with E by lia. done.
  - rewrite (clip_end_yes "]").
    + replace (E + 2 - 1) with (E + 1) by lia. rewrite (clip_end_yes apostrophe); [|by replace (E + 1 - 1) with E by lia].
      by replace (E + 1 - 1) with E by lia.
    + subst post. unfold str. rewrite app_assoc, app_assoc. change (apostrophe :: chars "]") with ([apostrophe] ++ "]"%char :: []).
      rewrite app_assoc. apply char_after. rewrite !length_app. cbn. unfold E. lia.
  - destruct (Hother Hne) as [H1 H2]. rewrite (clip_end_no "]"), (clip_end_no apostrophe) by done. done.
Qed.

(** Where the first blank behind the equals sign sends [pos_end]. *)
Lemma value_end A v post : free_of value_chars v -> follows post ->
  let str := A ++ ["="%char] ++ apostrophe :: v ++ apostrophe :: post in
  let E := length A + 2 + length v in
  let pos_end := default (length str) (find_first_of " " str (length A)) in
  let pos_end := if pos_end <? E then E else pos_end in
  pos_end = E + 1 /\ (exists r, post = " "%char :: r) \/ pos_end = E + 2 /\ post = chars "]" \/ pos_end = E /\ v <> [].
Proof.
  intros Hv Hpost str E. destruct (decide (" "%char ∈ v)) as [Hin|Hout].
  - right. right. split; [|by intros ->; apply not_elem_of_nil in Hin].
    unfold str. rewrite (find_skips " " A ["="%char; apostrophe] (v ++ apostrophe :: post)) by (done || vm_compute; set_solver).
    apply list_elem_of_split_l in Hin as (v1 & v2 & -> & Hv1). rewrite <- app_assoc. cbn [app].
    rewrite index_of_here by done. cbn [fmap option_fmap option_map default from_option id length].
    rewrite (proj2 (Nat.ltb_lt _ _)); [done|]. unfold E. rewrite length_app. cbn. lia.
  - assert (Hf : find_first_of " " str (length A) = Nat.add (length A + (length v + 3)) <$> index_of " " post).
    { unfold str. replace (A ++ ["="%char] ++ apostrophe :: v ++ apostrophe :: post) with (A ++ (["="%char; apostrophe] ++ v ++ [apostrophe]) ++ post)
        by (cbn [app]; by rewrite <- app_assoc).
      rewrite find_skips; [|done|set_solver]. rewrite !length_app. cbn. by replace (S (S (length v + 1))) with (length v + 3) by lia. }
    rewrite Hf. destruct Hpost as [->|[r ->]].
    + right. left. split; [|done]. assert (Hl : length str = E + 2) by (unfold str, E; rewrite !length_app; cbn; rewrite length_app; cbn; lia).
      change (index_of " " (chars "]")) with (@None nat). cbn [fmap option_fmap option_map default from_option]. rewrite Hl.
      destruct (Nat.ltb_spec (E + 2) E); lia.
    + left. split; [|by exists r]. change (index_of " " (" "%char :: r)) with (Some 0). cbn [fmap option_fmap option_map default from_option id].
      destruct (Nat.ltb_spec (length A + (length v + 3) + 0) E); unfold E in *; lia.
Qed.

(** The value of an attribute, between its quotes. *)
Lemma value_here P a v post : free_of attribute_chars a -> free_of value_chars v -> follows post ->
  attribute_value (P ++ a ++ ["="%char] ++ apostrophe :: v ++ apostrophe :: post) (length P) (length P + length a) = v.
Proof.
  intros Ha Hv Hpost. unfold attribute_value. set (str := P ++ a ++ _).
  assert (Hq1 : find_first_of apostrophe str (length P) = Some (length P + (length a + 1))).
  { unfold str. rewrite (app_assoc a). rewrite find_after; [by rewrite length_app|done|].
    apply not_elem_of_app. split; [apply (free_not_in _ _ _ Ha); set_solver|vm_compute; set_solver]. }
  assert (Hq2 : find_first_of apostrophe str (length P + (length a + 1) + 1) = Some (length P + length a + 2 + length v)).
  { unfold str. replace (P ++ a ++ ["="%char] ++ apostrophe :: v ++ apostrophe :: post) with ((P ++ a ++ ["="%char; apostrophe]) ++ v ++ apostrophe :: post)
      by (rewrite <- !app_assoc; done).
    rewrite find_after; [f_equal; lia|rewrite !length_app; cbn; lia|]. apply (free_not_in _ _ _ Hv). set_solver. }
  rewrite Hq1, Hq2.
  assert (Hstr : str = (P ++ a) ++ ["="%char] ++ apostrophe :: v ++ apostrophe :: post) by (unfold str; by rewrite app_assoc).
  pose proof (value_end (P ++ a) v post Hv Hpost) as Hend. cbv zeta in Hend. rewrite <- Hstr, length_app in Hend.
  set (pos_end := if _ <? _ then _ else _) in *. clearbody pos_end.
  assert (Hstr2 : str = (P ++ a ++ ["="%char]) ++ [apostrophe] ++ v ++ apostrophe :: post) by (unfold str; rewrite <- !app_assoc; done).
  pose proof (clipped_end (P ++ a ++ ["="%char]) v post pos_end Hv) as Hclip. cbv zeta in Hclip. rewrite <- Hstr2, !length_app in Hclip. cbn [length] in Hclip.
  replace (length P + (length a + 1) + 1 + length v) with (length P + length a + 2 + length v) in Hclip by lia.
  rewrite (Hclip Hend).
  assert (Hs1 : clip_start apostrophe str (length P + length a + 1) = length P + length a + 2).
  { unfold clip_start. rewrite decide_True; [lia|]. rewrite Hstr2. apply char_after. rewrite !length_app. cbn. lia. }
  assert (Hs2 : clip_start quotation_mark str (length P + length a + 2) = length P + length a + 2).
  { unfold clip_start. rewrite decide_False; [done|]. rewrite Hstr2, app_assoc.
    destruct v as [|c v]; (cbn [app]; rewrite char_after; [|rewrite !length_app; cbn; lia]); [done|].
    intros ->. apply (free_not_in _ _ quotation_mark Hv); set_solver. }
  rewrite Hs1, Hs2, Hstr2, (app_assoc (P ++ _)). apply substr_middle; rewrite !length_app; cbn; lia.
Qed.

Lemma qualifier_here P kv post : qualifier_ok kv -> follows post ->
  attribute_at (P ++ kv.1 ++ ["="%char] ++ apostrophe :: kv.2 ++ apostrophe :: post) (length P) = Some kv.
Proof.
  destruct kv as [a v]. cbn [fst snd]. intros (Hne & Ha & Hv) Hpost. cbn [fst snd] in *. unfold attribute_at.
  assert (Heq : find_first_of "=" (P ++ a ++ ["="%char] ++ apostrophe :: v ++ apostrophe :: post) (length P) = Some (length P + length a))
    by (apply find_after; [done|apply (free_not_in _ _ _ Ha); set_solver]).
  assert (Hat : find_first_of "@" (P ++ a ++ ["="%char] ++ apostrophe :: v ++ apostrophe :: post) (length P)
    = Nat.add (length P + (length a + 2 + length v + 1)) <$> index_of "@" post).
  { replace (P ++ a ++ ["="%char] ++ apostrophe :: v ++ apostrophe :: post) with (P ++ (a ++ ["="%char; apostrophe] ++ v ++ [apostrophe]) ++ post)
      by (repeat (rewrite <- !app_assoc; cbn [app]); done).
    rewrite find_skips; [rewrite !length_app; cbn [length]; do 2 f_equal; lia|done|].
    rewrite !not_elem_of_app. repeat split; [apply (free_not_in _ _ _ Ha)|vm_compute|apply (free_not_in _ _ _ Hv)|vm_compute]; set_solver. }
  rewrite Heq, Hat.
  assert (Hlt : match Nat.add (length P + (length a + 2 + length v + 1)) <$> index_of "@" post with
    Some p => length P + length a <? p | None => true end = true).
  { destruct (index_of "@" post); [|done]. cbn. apply Nat.ltb_lt. lia. }
  rewrite Hlt, value_here by done. do 2 f_equal. apply substr_middle; done.
Qed.

Lemma qualifiers_text_at kvs : kvs <> [] -> exists r, qualifiers_text kvs = "@"%char :: r.
Proof. destruct kvs as [|kv [|kv' kvs]]; [done|intros _; by eexists..]. Qed.

Lemma qualifier_text_free kv : qualifier_ok kv -> "@"%char ∉ drop 1 (qualifier_text kv).
Proof.
  destruct kv as [a v]. intros (_ & Ha & Hv). cbn [fst snd] in *. unfold qualifier_text. cbn [fst snd chars].
  change (drop 1 (chars "@" ++ a ++ chars "='" ++ v ++ chars "'")) with (a ++ chars "='" ++ v ++ chars "'").
  rewrite !not_elem_of_app. repeat split; [apply (free_not_in _ _ _ Ha)|vm_compute|apply (free_not_in _ _ _ Hv)|vm_compute]; set_solver.
Qed.

(** One turn of the loop at a qualifier that was written. *)
Lemma turn_reads pre kv post fuel qs : qualifier_ok kv -> follows post ->
  attributes_loop (S fuel) (pre ++ qualifier_text kv ++ post) (Some (length pre)) qs
  = attributes_loop fuel (pre ++ qualifier_text kv ++ post) (Nat.add (length pre + length (qualifier_text kv)) <$> index_of "@" post) (insert_pair qs kv).
Proof.
  intros Hkv Hpost. pose proof (qualifier_text_free kv Hkv) as Hfree. destruct kv as [a v]. cbn [attributes_loop].
  assert (Hat : attribute_at (pre ++ qualifier_text (a, v) ++ post) (S (length pre)) = Some (a, v)).
  { pose proof (qualifier_here (pre ++ ["@"%char]) (a, v) post Hkv Hpost) as H. cbn [fst snd] in H.
    rewrite length_app, Nat.add_1_r in H. rewrite <- H. f_equal. unfold qualifier_text. cbn [fst snd chars].
    rewrite <- !app_assoc. cbn [app chars String.list_ascii_of_string]. done. }
  rewrite Hat, decide_False by apply Hkv. f_equal.
  change (qualifier_text (a, v)) with (["@"%char] ++ drop 1 (qualifier_text (a, v))). rewrite <- app_assoc, (app_assoc pre).
  rewrite find_skips; [|rewrite length_app; cbn; lia|done]. rewrite length_app. destruct (index_of "@" post); [|done]. cbn. f_equal. lia.
Qed.

Lemma loop_reads kvs : forall pre qs fuel, kvs <> [] -> Forall qualifier_ok kvs -> length kvs <= fuel ->
  attributes_loop fuel (pre ++ qualifiers_text kvs ++ chars "]") (Some (length pre)) qs = foldl insert_pair qs kvs.
Proof.
  induction kvs as [|kv kvs IH]; intros pre qs fuel Hne Hok Hfuel; [done|]. apply Forall_cons in Hok as [Hkv Hok].
  destruct fuel as [|fuel]; [cbn in Hfuel; lia|]. cbn in Hfuel. destruct kvs as [|kv' kvs].
  - cbn [qualifiers_text foldl]. rewrite turn_reads by (done || by left). cbn. by destruct fuel.
  - destruct (qualifiers_text_at (kv' :: kvs)) as [r Hr]; [done|].
    change (qualifiers_text (kv :: kv' :: kvs)) with (qualifier_text kv ++ chars " and " ++ qualifiers_text (kv' :: kvs)).
    rewrite <- !app_assoc. rewrite turn_reads; [|done|right; by eexists].
    rewrite Hr. change (index_of "@" (chars " and " ++ ("@"%char :: r) ++ chars "]")) with (Some 5).
    rewrite <- Hr. cbn [fmap option_fmap option_map].
    change (foldl insert_pair qs (kv :: kv' :: kvs)) with (foldl insert_pair (insert_pair qs kv) (kv' :: kvs)).
    specialize (IH (pre ++ qualifier_text kv ++ chars " and ") (insert_pair qs kv) fuel).
    rewrite <- !app_assoc, !length_app in IH. rewrite <- IH; [|done|done|lia].
    f_equal. f_equal. change (length (chars " and ")) with 5. lia.
Qed.

(** ** A path that was written is read back *)

Definition node_ok (n : node_t) : Prop := name_ok n.1 /\ map_Forall (fun k v => qualifier_ok (k, v)) n.2.

#[export] Instance node_ok_dec n : Decision (node_ok n).
Proof. unfold node_ok. apply _. Defined.

Definition section_text (n : node_t) : line := n.1 ++ attr_qualifiers n.2.

Definition path_text (ns : list node_t) : line := ns ≫= fun n => "/"%char :: section_text n.

Lemma by_key_not_nil (q : gmap line line) : q <> ∅ -> by_key q <> [].
Proof. intros Hq Hn. apply Hq. rewrite <- (by_key_map q), Hn. done. Qed.

Lemma node_qualifiers_ok n : node_ok n -> Forall qualifier_ok (by_key n.2).
Proof. intros [_ H]. apply Forall_forall. intros [k v] Hkv%by_key_elem. by apply (H k v). Qed.

Lemma section_name n : node_ok n -> node_name (section_text n) = n.1.
Proof.
  destruct n as [n q]. intros [[Hne Hn] _]. cbn [fst snd] in *. unfold node_name, section_text. cbn [fst snd].
  assert (Hat : forall r, char_at (n ++ r) 0 <> "@"%char).
  { intros r. destruct n as [|c n]; [done|]. cbn. intros ->. apply (free_not_in _ _ "@"%char Hn); set_solver. }
  assert (Hcolon : "["%char ∉ n /\ ":"%char ∉ n) by (split; apply (free_not_in _ _ _ Hn); set_solver).
  destruct Hcolon as [Hb Hc]. unfold attr_qualifiers. case_decide as Hq.
  - rewrite app_nil_r. unfold find_first_of. rewrite drop_0, !index_of_none by done. cbn [fmap option_fmap option_map default from_option].
    specialize (Hat []). rewrite app_nil_r in Hat. rewrite decide_False by apply Hat. unfold substr_to. cbn. by rewrite Nat.sub_0_r, firstn_all.
  - assert (Hf : find_first_of "[" (n ++ chars "[" ++ qualifiers_text (by_key q) ++ chars "]") 0 = Some (length n))
      by (by apply (find_after "[" [] n (qualifiers_text (by_key q) ++ chars "]") 0)).
    rewrite Hf. cbn [default from_option id Nat.add].
    assert (Hs : match find_first_of ":" (n ++ chars "[" ++ qualifiers_text (by_key q) ++ chars "]") 0 with
      Some p => if length n <? p then 0 else S p | None => 0 end = 0).
    { unfold find_first_of. rewrite drop_0, index_of_app by done. change (chars "[") with ["["%char]. cbn [app index_of]. rewrite decide_False by done.
      destruct (index_of _ _) as [k|]; [|done]. cbn [fmap option_fmap option_map]. rewrite (proj2 (Nat.ltb_lt _ _)); [done|lia]. }
    rewrite Hs, decide_False by apply Hat. apply (substr_middle [] n); done.
Qed.

Lemma section_qualifiers n : node_ok n -> qualifiers_of (section_text n) = n.2.
Proof.
  intros Hok. pose proof (node_qualifiers_ok n Hok) as Hqs. destruct Hok as [[_ Hn] _]. destruct n as [n q]. cbn [fst snd] in *.
  assert (Hat : "@"%char ∉ n) by (apply (free_not_in _ _ _ Hn); set_solver).
  unfold qualifiers_of, section_text, attr_qualifiers. cbn [fst snd]. case_decide as Hq.
  - rewrite app_nil_r. unfold find_first_of. rewrite drop_0, index_of_none by done. subst q. by destruct (length n).
  - destruct (qualifiers_text_at (by_key q)) as [r Hr]; [by apply by_key_not_nil|].
    assert (Hf : find_first_of "@" (n ++ chars "[" ++ qualifiers_text (by_key q) ++ chars "]") 0 = Some (length (n ++ chars "["))).
    { rewrite Hr. change (n ++ chars "[" ++ ("@"%char :: r) ++ chars "]") with ([] ++ n ++ chars "[" ++ "@"%char :: r ++ chars "]").
      rewrite (app_assoc n). apply find_after; [done|]. apply not_elem_of_app. split; [done|vm_compute; set_solver]. }
    rewrite Hf, (app_assoc n). rewrite loop_reads; [|by apply by_key_not_nil|done|].
    + rewrite foldl_insert by apply by_key_nodup. by rewrite by_key_map, (right_id_L ∅ (∪)).
    + rewrite !length_app. enough (forall kvs, length kvs <= length (qualifiers_text kvs)) by (pose proof (H (by_key q)); lia).
      induction kvs as [|kv [|kv' kvs] IH]; [done|cbn; rewrite !length_app; cbn; lia|].
      change (qualifiers_text (kv :: kv' :: kvs)) with (qualifier_text kv ++ chars " and " ++ qualifiers_text (kv' :: kvs)).
      rewrite !length_app. cbn [length] in *. change (length (chars " and ")) with 5. lia.
Qed.

Lemma qualifiers_text_free kvs : Forall qualifier_ok kvs -> "/"%char ∉ qualifiers_text kvs.
Proof.
  assert (H1 : forall kv, qualifier_ok kv -> "/"%char ∉ qualifier_text kv).
  { intros [a v] (_ & Ha & Hv). cbn [fst snd] in *. unfold qualifier_text. cbn [fst snd]. rewrite !not_elem_of_app.
    repeat split; [vm_compute|apply (free_not_in _ _ _ Ha)|vm_compute|apply (free_not_in _ _ _ Hv)|vm_compute]; set_solver. }
  induction kvs as [|kv [|kv' kvs] IH]; intros H; [apply not_elem_of_nil|apply H1; by apply Forall_cons in H as [? _]|].
  apply Forall_cons in H as [Hkv H].
  change (qualifiers_text (kv :: kv' :: kvs)) with (qualifier_text kv ++ chars " and " ++ qualifiers_text (kv' :: kvs)).
  rewrite !not_elem_of_app. repeat split; [by apply H1|vm_compute; set_solver|by apply IH].
Qed.

Lemma section_free n : node_ok n -> "/"%char ∉ section_text n.
Proof.
  intros Hok. pose proof (node_qualifiers_ok n Hok) as Hqs%qualifiers_text_free. destruct Hok as [[_ Hn] _].
  unfold section_text, attr_qualifiers. apply not_elem_of_app. split; [apply (free_not_in _ _ _ Hn); set_solver|].
  case_decide; [apply not_elem_of_nil|]. rewrite !not_elem_of_app. repeat split; [vm_compute; set_solver|done|vm_compute; set_solver].
Qed.

Lemma split_free s : forall buf rest, "/"%char ∉ s -> split_sections buf (s ++ rest) = split_sections (buf ++ s) rest.
Proof.
  induction s as [|c s IH]; intros buf rest Hs; [by rewrite app_nil_r|]. apply not_elem_of_cons in Hs as [Hc Hs].
  cbn [app split_sections]. rewrite decide_False by congruence. rewrite IH by done. by rewrite <- app_assoc.
Qed.

Lemma split_joined secs : forall s, "/"%char ∉ s -> Forall (fun s => "/"%char ∉ s) secs ->
  split_sections [] (s ++ (secs ≫= cons "/"%char)) = s :: secs.
Proof.
  induction secs as [|s' secs IH]; intros s Hs Hsecs; rewrite split_free by done; [done|].
  apply Forall_cons in Hsecs as [Hs' Hsecs].
  change ((s' :: secs) ≫= cons "/"%char) with (("/"%char :: s') ++ (secs ≫= cons "/"%char)). cbn [app split_sections].
  rewrite decide_True by done. f_equal. by apply IH.
Qed.

Lemma sections_joined s secs : s <> [] -> "/"%char ∉ s -> Forall (fun s => "/"%char ∉ s) secs ->
  sections_of ((s :: secs) ≫= cons "/"%char) = Ok (s :: secs).
Proof.
  intros Hne Hs Hsecs. unfold sections_of.
  change ((s :: secs) ≫= cons "/"%char) with ("/"%char :: s ++ (secs ≫= cons "/"%char)). cbn [skip_slashes]. rewrite decide_True by done.
  assert (Hskip : skip_slashes (s ++ (secs ≫= cons "/"%char)) = s ++ (secs ≫= cons "/"%char)).
  { destruct s as [|c s]; [done|]. cbn. apply not_elem_of_cons in Hs as [Hc _]. by rewrite decide_False by congruence. }
  rewrite Hskip. rewrite <- (split_joined secs s Hs Hsecs). by destruct s.
Qed.

Lemma add_nodes ns : forall i p, Forall node_ok ns ->
  add_sections i (section_text <$> ns) p = Ok (mkParsed (nodes p ++ ns) (attribute p) (attr_depth p)).
Proof.
  induction ns as [|n ns IH]; intros i p Hok; cbn [fmap list_fmap add_sections].
  - rewrite app_nil_r. by destruct p.
  - apply Forall_cons in Hok as [Hn Hok]. unfold add_section. rewrite section_name, section_qualifiers by done.
    rewrite bool_decide_eq_false_2 by apply Hn. cbn [andb]. unfold mbind, outcome_bind. rewrite IH by done. cbn.
    rewrite <- app_assoc. by destruct n.
Qed.

Lemma add_sections_app strs strs' : forall i p,
  add_sections i (strs ++ strs') p = (p ← add_sections i strs p; add_sections (i + length strs) strs' p).
Proof.
  induction strs as [|str strs IH]; intros i p; cbn [app add_sections length]; [by rewrite Nat.add_0_r|].
  unfold mbind, outcome_bind. destruct (add_section i str p); [|done..]. rewrite IH. by replace (S i + length strs) with (i + S (length strs)) by lia.
Qed.

(** The target of a query: an attribute of the last node. *)
Definition target_chars : list ascii := ["/"%char; "@"%char; "="%char; " "%char; "]"%char; "["%char; ":"%char].
Definition target_ok (a : line) : Prop := a <> [] /\ free_of target_chars a.

Definition wanting (ns : list node_t) (a : line) : list node_t := alter (fun n => (n.1, <[a := []]> n.2)) (length ns - 1) ns.

Lemma target_section a : target_ok a -> node_name ("@"%char :: a) = [] /\ qualifiers_of ("@"%char :: a) = {[a := []]}.
Proof.
  intros [Hne Ha].
  assert (Hfree : forall c, c ∈ target_chars -> c ∉ a) by (intros c Hc; by apply (free_not_in _ _ _ Ha)).
  assert (Hnone : forall c, c ∈ target_chars -> find_first_of c ("@"%char :: a) 1 = None)
    by (intros c Hc; unfold find_first_of; cbn [drop]; by rewrite drop_0, index_of_none by auto).
  split.
  - unfold node_name, find_first_of. rewrite drop_0.
    rewrite !index_of_none by (apply not_elem_of_cons; split; [done|apply Hfree; set_solver]).
    cbn [fmap option_fmap option_map default from_option]. rewrite decide_True by done. unfold substr_to. by rewrite Nat.leb_refl, Nat.sub_diag.
  - unfold qualifiers_of. change (find_first_of "@" ("@"%char :: a) 0) with (Some 0). cbn [length attributes_loop].
    assert (Hat : attribute_at ("@"%char :: a) 1 = Some (a, [])).
    { unfold attribute_at. rewrite (Hnone "="%char), (Hnone " "%char) by set_solver. cbn [default from_option].
      rewrite clip_end_no. { f_equal. f_equal. pose proof (substr_middle ["@"%char] a [] 1 (1 + length a)) as H. rewrite app_nil_r in H. by apply H. }
      destruct (char_before ["@"%char] a [] (length ("@"%char :: a))) as (c & Hc & Hat); [done|done|].
      rewrite app_nil_r in Hat. cbn [app] in Hat. rewrite Hat. intros ->. apply (Hfree "]"%char); [set_solver|done]. }
    rewrite Hat, decide_False by done. rewrite (Hnone "@"%char) by set_solver. by destruct (length a).
Qed.

Lemma path_text_sections ns : path_text ns = (section_text <$> ns) ≫= cons "/"%char.
Proof. induction ns as [|n ns IH]; [done|]. cbn. by rewrite <- IH. Qed.

Lemma section_not_nil n : node_ok n -> section_text n <> [].
Proof. intros [[Hne _] _] H. unfold section_text in H. apply app_nil in H as [? _]. done. Qed.

(** A path of nodes that was written is read back exactly. *)
Lemma path_reads_back ns : ns <> [] -> Forall node_ok ns -> ParseXPath (path_text ns) = Ok (mkParsed ns [] no_depth).
Proof.
  intros Hne Hok. destruct ns as [|n ns]; [done|]. pose proof Hok as Hall. apply Forall_cons in Hok as [Hn Hok].
  unfold ParseXPath. rewrite path_text_sections. cbn [fmap list_fmap]. rewrite sections_joined.
  - change (section_text n :: (section_text <$> ns)) with (section_text <$> (n :: ns)). unfold mbind, outcome_bind. by rewrite add_nodes.
  - by apply section_not_nil.
  - by apply section_free.
  - apply Forall_fmap. eapply Forall_impl; [exact Hok|]. intros x Hx. by apply section_free.
Qed.

(** The same with an attribute of the last node as the target. *)
Lemma target_reads_back ns a : ns <> [] -> Forall node_ok ns -> target_ok a -> (sizeZ ns < 2 ^ 32)%Z ->
  ParseXPath (path_text ns ++ chars "/@" ++ a) = Ok (mkParsed (wanting ns a) a (sizeZ ns - 1)).
Proof.
  intros Hne Hok Ha Hsize. destruct (target_section a Ha) as [Hname Hquals].
  unfold ParseXPath. replace (path_text ns ++ chars "/@" ++ a) with (((section_text <$> ns) ++ ["@"%char :: a]) ≫= cons "/"%char)
    by (rewrite bind_app, path_text_sections; cbn; by rewrite app_nil_r).
  assert (Hsec : sections_of (((section_text <$> ns) ++ ["@"%char :: a]) ≫= cons "/"%char) = Ok ((section_text <$> ns) ++ ["@"%char :: a])).
  { destruct ns as [|n ns]; [done|]. apply Forall_cons in Hok as [Hn Hok]. cbn [fmap list_fmap app].
    apply sections_joined; [by apply section_not_nil|by apply section_free|]. apply Forall_app. split.
    - apply Forall_fmap. eapply Forall_impl; [exact Hok|]. intros x Hx. by apply section_free.
    - apply Forall_singleton. apply not_elem_of_cons. split; [done|]. destruct Ha as [_ Ha]. apply (free_not_in _ _ _ Ha). set_solver. }
  rewrite Hsec. unfold mbind, outcome_bind. rewrite add_sections_app. unfold mbind, outcome_bind. rewrite add_nodes by done. cbn [nodes attribute attr_depth app add_sections].
  rewrite length_fmap. unfold add_section. rewrite Hname, Hquals, map_to_list_singleton.
  assert (Hlen : (0 < length ns)%nat) by (destruct ns; [done|cbn; lia]).
  rewrite bool_decide_eq_true_2 by done. rewrite (proj2 (Nat.ltb_lt 0 (0 + length ns))) by lia. cbn [andb nodes Nat.add].
  destruct (ns !! (length ns - 1)) as [[m q]|] eqn:Hlast; [|apply lookup_ge_None in Hlast; lia]. unfold mbind, outcome_bind.
  unfold wanting. rewrite u32_small by (unfold sizeZ in *; lia). do 2 f_equal.
  apply list_eq. intros j. destruct (decide (j = length ns - 1)%nat) as [->|Hj].
  - rewrite list_lookup_insert_eq by lia. by rewrite list_lookup_alter_eq, Hlast.
  - by rewrite list_lookup_insert_ne, list_lookup_alter_ne by congruence.
Qed.


(** ** Paths that are not of this form *)

(** The parser returns whenever only the first and the last section may lack a name. *)
Lemma parse_returns xpath secs : sections_of xpath = Ok secs ->
  (forall i s, secs !! i = Some s -> node_name s = [] -> i = 0 \/ S i = length secs) ->
  exists p, ParseXPath xpath = Ok p.
Proof.
  intros Hs Hnamed. unfold ParseXPath. rewrite Hs. unfold mbind, outcome_bind. clear Hs.
  enough (H : forall rest pre p, secs = pre ++ rest -> length (nodes p) = length pre -> exists p', add_sections (length pre) rest p = Ok p')
    by (by apply (H secs []); [|done]).
  induction rest as [|s rest IH]; intros pre p -> Hlen; [by exists p|]. cbn [add_sections]. unfold add_section.
  destruct (bool_decide (node_name s = []) && (0 <? length pre)) eqn:Hcase; cycle 1.
  - unfold mbind, outcome_bind. rewrite <- Nat.add_1_r. change 1 with (length [s]). rewrite <- length_app.
    apply IH; [by rewrite <- app_assoc|]. cbn [nodes]. rewrite !length_app, Hlen. done.
  - apply andb_true_iff in Hcase as [Hn%bool_decide_eq_true Hpos%Nat.ltb_lt].
    destruct (Hnamed (length pre) s) as [Hz|Hlast]; [by rewrite list_lookup_middle|done|lia|].
    rewrite length_app in Hlast. cbn in Hlast. destruct rest as [|]; [|cbn in Hlast; lia].
    destruct (map_to_list (qualifiers_of s)) as [|[name v] [|]]; [by exists p| |by exists p].
    destruct (nodes p !! (length pre - 1)) as [[n qs]|] eqn:Hn'; [by eexists|]. apply lookup_ge_None in Hn'. lia.
Qed.

(** An attribute without a value followed by one with a value: the loop breaks out and neither is kept. *)
Example attribute_before_value_is_dropped :
  ParseXPath (chars "/section[@name and @id=3]") = Ok (mkParsed [(chars "section", ∅)] [] no_depth).
Proof. vm_compute. reflexivity. Qed.

(** A path without a name throws; an unnamed section before the attribute makes the index of its node wrong. *)
Example empty_path_throws : ParseXPath (chars "//") = Throw (EStd "out_of_range").
Proof. vm_compute. reflexivity. Qed.

Example unnamed_section_is_undefined : ParseXPath (chars "//a//b/@x") = Undef.
Proof. vm_compute. reflexivity. Qed.

(** [NodeCompare]: the first list is matched against the start of the second. *)
Lemma attributes_compare_spec attr1 attr2 :
  attributes_compare attr1 attr2 = true <-> forall k v, attr1 !! k = Some v -> exists v2, attr2 !! k = Some v2 /\ (v = [] \/ v = v2).
Proof.
  unfold attributes_compare. rewrite forallb_forall. split.
  - intros H k v Hk%by_key_elem%list_elem_of_In. specialize (H _ Hk). cbn in H. destruct (attr2 !! k) as [v2|]; [|done].
    exists v2. split; [done|]. apply orb_true_iff in H as [H|H]; apply bool_decide_eq_true in H; auto.
  - intros H [k v] Hk%list_elem_of_In%by_key_elem. destruct (H k v Hk) as (v2 & Hv2 & Hor). cbn. rewrite Hv2.
    apply orb_true_iff. rewrite !bool_decide_eq_true. done.
Qed.

End XPath.
