(* ===== verification/JGeometryXML.v ===== *)
(** * JGeometryXML: looking up the geometry

    Model of the document side of [Compatibility/JGeometryXML.cc]: [MapNodeNames], [SearchTree],
    [FindAttributeValues], the [Get] and [GetMultiple] functions with their cache, [AddNodeToList]
    and [GetXPaths].  The document is the tree that the XML parser built, a parameter; a node is
    known by its address.  [std::multimap<DOMNode*, string>] is a list ordered by address, equal
    addresses in the order of insertion. *)

From Stdlib Require Import Ascii.
From stdpp Require Import sorting.
From S2P Require Import Prelude JParameterManager JCalibrationFile JXPath.
Import Parameters CalibrationFile XPath.

Module GeometryXML.

(** ** The document *)

Inductive DOMNode := mkDOMNode (addr : Z) (node_name : line) (pAttributes : list (line * line)) (children : list DOMNode).

Definition addr (t : DOMNode) : Z := let 'mkDOMNode a _ _ _ := t in a.
Definition getNodeName (t : DOMNode) : line := let 'mkDOMNode _ n _ _ := t in n.
Definition getAttributes (t : DOMNode) : list (line * line) := let 'mkDOMNode _ _ at_ _ := t in at_.
Definition getChildren (t : DOMNode) : list DOMNode := let 'mkDOMNode _ _ _ cs := t in cs.

Fixpoint DOMNode_tree_ind (P : DOMNode -> Prop) (step : forall a n at_ cs, Forall P cs -> P (mkDOMNode a n at_ cs)) (t : DOMNode) : P t :=
  let 'mkDOMNode a n at_ cs := t in
  step a n at_ cs ((fix go cs : Forall P cs :=
    match cs with
    | [] => @Forall_nil_2 _ P
    | c :: cs => @Forall_cons_2 _ P c cs (DOMNode_tree_ind P step c) (go cs)
    end) cs).

(** The nodes of a tree in document order. *)
Fixpoint nodes_of (t : DOMNode) : list DOMNode := t :: (let 'mkDOMNode _ _ _ cs := t in cs ≫= nodes_of).

Definition GetAttributes (t : DOMNode) : gmap line line := foldl insert_pair ∅ (getAttributes t).

Definition map_all (map_one : DOMNode -> gmap Z line -> gmap Z line) : list DOMNode -> gmap Z line -> gmap Z line :=
  fix loop cs node_names := match cs with [] => node_names | c :: cs => loop cs (map_one c node_names) end.

Fixpoint MapNodeNames (current_node : DOMNode) (node_names : gmap Z line) : gmap Z line :=
  map_all MapNodeNames (getChildren current_node) (<[addr current_node := getNodeName current_node]> node_names).

(** ** [SearchTree] *)

(** The inputs of a search. *)
Record SearchParameters := mkSearchParameters { sp_nodes : list node_t; attribute_name : line; sp_attr_depth : Z; max_values : Z }.

(** What it carries along: the value of the attribute on this branch, and what was found. *)
Record Found := mkFound { attr_value : line; attributes : list (DOMNode * line) }.

(** [attributes.insert(...)]. *)
Fixpoint insert_multi (e : DOMNode * line) (l : list (DOMNode * line)) : list (DOMNode * line) :=
  match l with
  | [] => [e]
  | e' :: l' => if (addr e'.1 <=? addr e.1)%Z then e' :: insert_multi e l' else e :: l
  end.

(** The inner loop over the attributes of the node, for one qualifier. *)
Fixpoint look_for (wanted attr val : line) (mine : list (line * line)) (r : nat * line) : nat * line :=
  match mine with
  | [] => r
  | (my_attr, my_val) :: mine =>
      let r := if decide (attr = wanted) then (r.1, my_val) else r in
      if decide (attr = my_attr) then
        if bool_decide (val = []) || bool_decide (val = my_val) then (S r.1, r.2) else r
      else look_for wanted attr val mine r
  end.

(** [Npassed] and [my_attr_value]. *)
Definition test_qualifiers (wanted : line) (qualifiers mine : gmap line line) : nat * line :=
  foldl (fun r kv => look_for wanted kv.1 kv.2 (by_key mine) r) (0, []) (by_key qualifiers).

Definition name_matches (wanted nodeName : line) : bool :=
  bool_decide (nodeName = wanted) || bool_decide (wanted = []) || bool_decide (wanted = chars "*").

Definition enough_found (sp : SearchParameters) (f : Found) : bool :=
  ((0 <? max_values sp) && (max_values sp <=? sizeZ (attributes f)))%Z.

(** The loop over the children of a node that is not on the path yet: it stops when enough is found. *)
Definition search_below (sp : SearchParameters) (search : DOMNode -> Found -> outcome Found) : list DOMNode -> Found -> outcome Found :=
  fix loop cs f :=
    match cs with
    | [] => Ok f
    | child :: cs => f ← search child f; if enough_found sp f then Ok f else loop cs f
    end.

(** The loop over the children of a node that matches. *)
Definition search_next (search : DOMNode -> Found -> outcome Found) : list DOMNode -> Found -> outcome Found :=
  fix loop cs f :=
    match cs with
    | [] => Ok f
    | child :: cs => f ← search child f; loop cs f
    end.

Fixpoint SearchTree (sp : SearchParameters) (node_names : gmap Z line) (depth : nat) (current_node : DOMNode) (f : Found) : outcome Found :=
  match sp_nodes sp !! depth with
  | None => Ok f
  | Some (wanted, qualifiers) =>
      match node_names !! addr current_node with
      | None => Throw (EStd "out_of_range")
      | Some nodeName =>
          if negb (name_matches wanted nodeName) then
            if decide (depth = 0) then
              search_below sp (SearchTree sp node_names depth) (getChildren current_node) f
            else Ok f
          else
            let '(Npassed, my_attr_value) := test_qualifiers (attribute_name sp) qualifiers (GetAttributes current_node) in
            if negb (Npassed =? size qualifiers) then Ok f
            else
              let f := if (Z.of_nat depth =? sp_attr_depth sp)%Z then mkFound my_attr_value (attributes f) else f in
              if depth =? length (sp_nodes sp) - 1 then
                Ok (mkFound (attr_value f) (insert_multi (current_node, attr_value f) (attributes f)))
              else
                search_next (SearchTree sp node_names (S depth)) (getChildren current_node) f
      end
  end.

(** ** The geometry object *)

Record JGeometryXML := mkJGeometryXML {
  valid_xmlfile : bool;
  doc : DOMNode;
  document_element : DOMNode;
  node_names : gmap Z line;
  found_xpaths : gmap line line;
  found_xpaths_mutex : bool
}.

(** The object once [Init] has parsed the document. *)
Definition Init (d root : DOMNode) : JGeometryXML := mkJGeometryXML true d root (MapNodeNames d ∅) ∅ false.

Definition set_found (m : gmap line line) (g : JGeometryXML) : JGeometryXML :=
  mkJGeometryXML (valid_xmlfile g) (doc g) (document_element g) (node_names g) m (found_xpaths_mutex g).
Definition set_mutex (b : bool) (g : JGeometryXML) : JGeometryXML :=
  mkJGeometryXML (valid_xmlfile g) (doc g) (document_element g) (node_names g) (found_xpaths g) b.

(** [FindAttributeValues]: the container that is handed in is assigned. *)
Definition FindAttributeValues (g : JGeometryXML) (xpath : line) (max : Z) : outcome (list (DOMNode * line)) :=
  p ← ParseXPath xpath;
  f ← SearchTree (mkSearchParameters (nodes p) (attribute p) (attr_depth p) max) (node_names g) 0 (doc g) (mkFound [] []);
  Ok (attributes f).

(** Locking a mutex of the default kind again from the thread that holds it is undefined. *)
Definition lock : M JGeometryXML unit :=
  locked ← gets found_xpaths_mutex;
  if (locked : bool) then lift Undef else modify (set_mutex true).

(** [Get(xpath, sval)]: the value, or [None] for false.  If the search throws the mutex stays locked. *)
Definition Get (xpath : line) : M JGeometryXML (option line) :=
  valid ← gets valid_xmlfile;
  if negb valid then mret None
  else
    _ ← lock;
    found ← gets found_xpaths;
    match found !! xpath with
    | Some sval => _ ← modify (set_mutex false); mret (Some sval)
    | None =>
        g ← get;
        attributes ← lift (FindAttributeValues g xpath 1);
        match attributes with
        | (_, sval) :: _ =>
            _ ← modify (set_found (<[xpath := sval]> found));
            _ ← modify (set_mutex false);
            mret (Some sval)
        | [] => _ ← modify (set_mutex false); mret None
        end
    end.

(** [Get(xpath, svals)]. *)
Definition Get_map (g : JGeometryXML) (xpath : line) : outcome (bool * gmap line line) :=
  if negb (valid_xmlfile g) then Ok (false, ∅)
  else
    attributes ← FindAttributeValues g xpath 1;
    match attributes with
    | (node, _) :: _ => Ok (true, GetAttributes node)
    | [] => Ok (false, ∅)
    end.

Definition GetMultiple (g : JGeometryXML) (xpath : line) : outcome (bool * list line) :=
  if negb (valid_xmlfile g) then Ok (false, [])
  else
    attributes ← FindAttributeValues g xpath 0;
    let vsval := attributes.*2 in
    Ok (negb (bool_decide (vsval = [])), vsval).

Definition GetMultiple_maps (g : JGeometryXML) (xpath : line) : outcome (bool * list (gmap line line)) :=
  if negb (valid_xmlfile g) then Ok (false, [])
  else
    attributes ← FindAttributeValues g xpath 0;
    let vsvals := GetAttributes <$> attributes.*1 in
    Ok (negb (bool_decide (vsvals = [])), vsvals).

(** ** [GetXPaths] *)

Inductive ATTR_LEVEL_t := attr_level_none | attr_level_last | attr_level_all.

#[export] Instance ATTR_LEVEL_eq_dec : EqDecision ATTR_LEVEL_t.
Proof. solve_decision. Defined.

Definition list_all (list_one : DOMNode -> outcome (list line)) : list DOMNode -> outcome (list line) :=
  fix loop cs :=
    match cs with
    | [] => Ok []
    | child :: cs => l ← list_one child; ls ← loop cs; Ok (l ++ ls)
    end.

(** The paths that [AddNodeToList] appends.  An empty name has the terminating zero as its first character. *)
Fixpoint AddNodeToList (names : gmap Z line) (start : DOMNode) (start_path : line) (level : ATTR_LEVEL_t) : outcome (list line) :=
  match names !! addr start with
  | None => Throw (EStd "out_of_range")
  | Some nodeName =>
      if decide (char_at nodeName 0 = "#"%char) then Ok []
      else
        let quals := if decide (level = attr_level_none) then [] else attr_qualifiers (GetAttributes start) in
        let xpath := start_path ++ chars "/" ++ nodeName in
        rest ← list_all (fun child => AddNodeToList names child (xpath ++ (if decide (level = attr_level_all) then quals else [])) level)
                 (getChildren start);
        Ok ((xpath ++ quals) :: rest)
  end.

(** The loop over the nodes of one path: it is kept once for every position where the filter matches. *)
Fixpoint keep (filter_nodes ns : list node_t) (xpath : line) : list line :=
  match ns with
  | [] => []
  | _ :: ns' => (if NodeCompare filter_nodes ns then [xpath] else []) ++ keep filter_nodes ns' xpath
  end.

Fixpoint filter_paths (filter_nodes : list node_t) (xpaths : list line) : outcome (list line) :=
  match xpaths with
  | [] => Ok []
  | xpath :: xpaths =>
      p ← ParseXPath xpath;
      rest ← filter_paths filter_nodes xpaths;
      Ok (keep filter_nodes (nodes p) xpath ++ rest)
  end.

(** [xpaths] is what the container holds before. *)
Definition GetXPaths (g : JGeometryXML) (level : ATTR_LEVEL_t) (filter : line) (xpaths : list line) : outcome (list line) :=
  if negb (valid_xmlfile g) then Ok []
  else
    l ← AddNodeToList (node_names g) (document_element g) [] level;
    let xpaths := xpaths ++ l in
    if decide (filter = []) then Ok xpaths
    else
      p ← ParseXPath filter;
      if decide (nodes p = []) then Ok xpaths else filter_paths (nodes p) xpaths.

(** ** What a path selects *)

(** A node of the document fits a node of the path. *)
Definition node_test (q : node_t) (t : DOMNode) : bool :=
  name_matches q.1 (getNodeName t) && attributes_compare q.2 (GetAttributes t).

(** The nodes fit the path one below the other. *)
Inductive on_path : list node_t -> list DOMNode -> Prop :=
| on_path_last q t : node_test q t = true -> on_path [q] [t]
| on_path_next q qs t c ts : node_test q t = true -> c ∈ getChildren t -> on_path qs (c :: ts) -> on_path (q :: qs) (t :: c :: ts).

(** The first node of the path may be anywhere in the document, but not below a node of its name. *)
Inductive outermost (name : line) : DOMNode -> DOMNode -> Prop :=
| outermost_here t : name_matches name (getNodeName t) = true -> outermost name t t
| outermost_below t c s : name_matches name (getNodeName t) = false -> c ∈ getChildren t -> outermost name c s -> outermost name t s.

(** What the query wants of the nodes it found: the attribute of the node at its depth. *)
Definition node_value (wanted : line) (q : node_t) (t : DOMNode) : line :=
  if decide (is_Some (q.2 !! wanted)) then default [] (GetAttributes t !! wanted) else [].

Definition path_value (p : Parsed) (ts : list DOMNode) : line :=
  match nodes p !! Z.to_nat (attr_depth p), ts !! Z.to_nat (attr_depth p) with
  | Some q, Some t => node_value (attribute p) q t
  | _, _ => []
  end.

Definition selected (d : DOMNode) (p : Parsed) (n : DOMNode) (v : line) : Prop :=
  exists q qs s ts, nodes p = q :: qs /\ outermost q.1 d s /\ on_path (nodes p) (s :: ts)
    /\ last (s :: ts) = Some n /\ v = path_value p (s :: ts).

(** ** One node *)

Definition passes (mine : gmap line line) (kv : line * line) : bool :=
  match mine !! kv.1 with
  | None => false
  | Some v => bool_decide (kv.2 = []) || bool_decide (kv.2 = v)
  end.

Lemma look_for_list w a v mine : forall r,
  match (list_to_map mine : gmap line line) !! a with
  | Some mv => look_for w a v mine r =
      (if bool_decide (v = []) || bool_decide (v = mv) then S r.1 else r.1, if decide (a = w) then mv else r.2)
  | None => (look_for w a v mine r).1 = r.1
  end.
Proof.
  induction mine as [|[k x] mine IH]; intros r; [done|]. cbn [look_for]. rewrite list_to_map_cons.
  destruct (decide (a = k)) as [->|Hne].
  - rewrite lookup_insert_eq. by destruct r as [n y], (decide (k = w)), (_ || _).
  - rewrite lookup_insert_ne by congruence. specialize (IH (if decide (a = w) then (r.1, x) else r)).
    destruct (_ !! a) as [mv|]; rewrite IH; by destruct (decide (a = w)).
Qed.

Lemma look_for_spec (w : line) (kv : line * line) (mine : gmap line line) (r : nat * line) : let r' := look_for w kv.1 kv.2 (by_key mine) r in
  r'.1 = (if passes mine kv then S r.1 else r.1)
  /\ (passes mine kv = true -> r'.2 = if decide (kv.1 = w) then default [] (mine !! w) else r.2).
Proof.
  pose proof (look_for_list w kv.1 kv.2 (by_key mine) r) as H. rewrite by_key_map in H. unfold passes.
  destruct (mine !! kv.1) as [mv|] eqn:Hm; [|by split].
  cbv zeta. rewrite H. cbn [fst snd]. split; [done|]. intros _. case_decide as Hw; [|done]. by rewrite <- Hw, Hm.
Qed.

Lemma tests_spec (w : line) (mine : gmap line line) (kvs : list (line * line)) : forall r : nat * line,
  let r' := foldl (fun r kv => look_for w kv.1 kv.2 (by_key mine) r) r kvs in
  r'.1 <= r.1 + length kvs /\ (r'.1 = r.1 + length kvs <-> forallb (passes mine) kvs = true)
  /\ (forallb (passes mine) kvs = true -> r'.2 = if decide (w ∈ kvs.*1) then default [] (mine !! w) else r.2).
Proof.
  induction kvs as [|kv kvs IH]; intros r; cbn [foldl length forallb].
  - rewrite Nat.add_0_r. split_and!; [done|done|]. intros _. rewrite decide_False; [done|apply not_elem_of_nil].
  - destruct (look_for_spec w kv mine r) as [H1 H2]. cbv zeta in *. set (r1 := look_for _ _ _ _ _) in *. clearbody r1.
    destruct (IH r1) as (I1 & I2 & I3). rewrite fmap_cons. destruct (passes mine kv); cbn [andb].
    + rewrite H1 in I1, I2. split_and!; [lia| |].
      * rewrite <- I2. lia.
      * intros Hall. rewrite (I3 Hall), (H2 eq_refl). destruct (decide (kv.1 = w)) as [<-|Hne].
        -- rewrite (decide_True (P := kv.1 ∈ kv.1 :: kvs.*1)) by apply list_elem_of_here. by case_decide.
        -- destruct (decide (w ∈ kvs.*1)); [rewrite decide_True by (by apply list_elem_of_further)|rewrite decide_False]; [done|done|].
           rewrite not_elem_of_cons. split; congruence.
    + rewrite H1 in I1, I2. split_and!; [lia| |done]. split; [lia|done].
Qed.

(** [Npassed] reaches the number of qualifiers just if [NodeCompare] would take the node, and then the value is the attribute's. *)
Lemma test_qualifiers_spec (w : line) (qualifiers mine : gmap line line) :
  ((test_qualifiers w qualifiers mine).1 =? size qualifiers) = attributes_compare qualifiers mine
  /\ (attributes_compare qualifiers mine = true ->
      (test_qualifiers w qualifiers mine).2 = if decide (is_Some (qualifiers !! w)) then default [] (mine !! w) else []).
Proof.
  destruct (tests_spec w mine (by_key qualifiers) (0, [])) as (_ & H2 & H3). fold (test_qualifiers w qualifiers mine) in *.
  assert (Hsize : size qualifiers = length (by_key qualifiers)) by (unfold by_key; by rewrite merge_sort_Permutation, length_map_to_list).
  change (attributes_compare qualifiers mine) with (forallb (passes mine) (by_key qualifiers)). split.
  - rewrite Hsize. apply eq_true_iff_eq. rewrite Nat.eqb_eq. exact H2.
  - intros Hall. rewrite (H3 Hall).
    assert (Hin : w ∈ (by_key qualifiers).*1 <-> is_Some (qualifiers !! w)) by (rewrite columns_of; apply elem_of_dom).
    destruct (decide (w ∈ (by_key qualifiers).*1)) as [Hw|Hw].
    + rewrite decide_True; [done|tauto].
    + rewrite decide_False; [done|tauto].
Qed.

(** ** The search against the tree *)

Section Search.
Context (sp : SearchParameters) (names : gmap Z line).

Definition matched_value (depth : nat) (q : node_t) (t : DOMNode) (v : line) : line :=
  if (Z.of_nat depth =? sp_attr_depth sp)%Z then node_value (attribute_name sp) q t else v.

(** What is found below a node that has to fit the first of [qs], in document order; [v] is the value so far. *)
Fixpoint hits (depth : nat) (v : line) (qs : list node_t) (t : DOMNode) : list (DOMNode * line) :=
  match qs with
  | [] => []
  | q :: qs' =>
      if node_test q t then
        match qs' with
        | [] => [(t, matched_value depth q t v)]
        | _ => getChildren t ≫= hits (S depth) (matched_value depth q t v) qs'
        end
      else []
  end.

(** What is found in a whole document. *)
Fixpoint all_hits (t : DOMNode) : list (DOMNode * line) :=
  match sp_nodes sp with
  | [] => []
  | q :: _ => if name_matches q.1 (getNodeName t) then hits 0 [] (sp_nodes sp) t else getChildren t ≫= all_hits
  end.

Definition add_all (es l : list (DOMNode * line)) : list (DOMNode * line) := foldl (fun l e => insert_multi e l) l es.

Lemma add_all_app es es' l : add_all (es ++ es') l = add_all es' (add_all es l).
Proof. apply foldl_app. Qed.

Definition named (t : DOMNode) : Prop := Forall (fun n => names !! addr n = Some (getNodeName n)) (nodes_of t).

Lemma named_inv t : named t -> names !! addr t = Some (getNodeName t) /\ Forall named (getChildren t).
Proof.
  destruct t as [a n at_ cs]. unfold named. cbn [nodes_of]. intros [H1 H2]%Forall_cons. split; [done|]. cbn [getChildren].
  rewrite Forall_bind in H2. exact H2.
Qed.

(** One call, with its loops left folded. *)
Lemma search_step depth q qs t f : drop depth (sp_nodes sp) = q :: qs -> names !! addr t = Some (getNodeName t) ->
  SearchTree sp names depth t f =
    if node_test q t then
      let f := mkFound (matched_value depth q t (attr_value f)) (attributes f) in
      match qs with
      | [] => Ok (mkFound (attr_value f) (insert_multi (t, attr_value f) (attributes f)))
      | _ => search_next (SearchTree sp names (S depth)) (getChildren t) f
      end
    else if name_matches q.1 (getNodeName t) then Ok f
    else if decide (depth = 0) then search_below sp (SearchTree sp names depth) (getChildren t) f else Ok f.
Proof.
  intros Hq Hn. destruct t as [a n at_ cs]. cbn [SearchTree].
  assert (Hlook : sp_nodes sp !! depth = Some q) by (rewrite <- (Nat.add_0_r depth), <- lookup_drop, Hq; done).
  assert (Hlen : length (sp_nodes sp) = depth + S (length qs)).
  { pose proof (length_drop (sp_nodes sp) depth) as Hd. rewrite Hq in Hd. cbn in Hd. apply lookup_lt_Some in Hlook. lia. }
  rewrite Hlook. destruct q as [want quals]. cbn [addr] in *. rewrite Hn. unfold node_test. cbn [fst snd].
  destruct (name_matches want (getNodeName (mkDOMNode a n at_ cs))); cbn [negb andb]; [|done].
  destruct (test_qualifiers_spec (attribute_name sp) quals (GetAttributes (mkDOMNode a n at_ cs))) as [H1 H2].
  destruct (test_qualifiers (attribute_name sp) quals (GetAttributes (mkDOMNode a n at_ cs))) as [np mv]. cbn [fst snd] in *. rewrite H1.
  destruct (attributes_compare quals (GetAttributes (mkDOMNode a n at_ cs))); cbn [negb]; [|done]. rewrite (H2 eq_refl).
  unfold matched_value, node_value. cbn [snd].
  assert (Hf : (if (Z.of_nat depth =? sp_attr_depth sp)%Z
    then mkFound (if decide (is_Some (quals !! attribute_name sp)) then default [] (GetAttributes (mkDOMNode a n at_ cs) !! attribute_name sp) else []) (attributes f)
    else f) = mkFound (if (Z.of_nat depth =? sp_attr_depth sp)%Z
      then if decide (is_Some (quals !! attribute_name sp)) then default [] (GetAttributes (mkDOMNode a n at_ cs) !! attribute_name sp) else []
      else attr_value f) (attributes f)) by (destruct (Z.of_nat depth =? sp_attr_depth sp)%Z; [done|by destruct f]).
  rewrite Hf. rewrite Hlen. destruct qs as [|q' qs].
  - cbn [length]. replace (depth + 1 - 1) with depth by lia. by rewrite Nat.eqb_refl.
  - rewrite (proj2 (Nat.eqb_neq _ _)) by (cbn; lia). done.
Qed.

(** Whether a call at [depth] can change the value that is carried along. *)
Definition settled (depth : nat) : Prop := (sp_attr_depth sp < Z.of_nat depth \/ sizeZ (sp_nodes sp) <= sp_attr_depth sp)%Z.

Lemma hits_indep t : forall depth v v' qs, (Z.of_nat depth <= sp_attr_depth sp < Z.of_nat depth + sizeZ qs)%Z ->
  hits depth v qs t = hits depth v' qs t.
Proof.
  induction t as [a n at_ cs IH] using DOMNode_tree_ind. intros depth v v' [|q qs] Hd; [done|]. cbn [hits].
  destruct (node_test q _); [|done]. rewrite sizeZ_cons in Hd.
  destruct (decide (Z.of_nat depth = sp_attr_depth sp)) as [Heq|Hne].
  { unfold matched_value. by rewrite (proj2 (Z.eqb_eq _ _) Heq). }
  destruct qs as [|q' qs]; [unfold sizeZ in Hd; cbn in Hd; lia|]. cbn [getChildren].
  induction IH as [|c cs Hc _ IHcs]; [done|]. rewrite !bind_cons. f_equal; [|exact IHcs].
  apply Hc. lia.
Qed.

Definition searches (depth : nat) (qs : list node_t) (t : DOMNode) : Prop := forall f,
  exists v', SearchTree sp names depth t f = Ok (mkFound v' (add_all (hits depth (attr_value f) qs t) (attributes f)))
    /\ (settled depth -> v' = attr_value f).

Lemma next_searches depth qs cs : drop depth (sp_nodes sp) = qs -> Forall (searches depth qs) cs -> forall f v, (settled depth -> attr_value f = v) ->
  exists v', search_next (SearchTree sp names depth) cs f = Ok (mkFound v' (add_all (cs ≫= hits depth v qs) (attributes f)))
    /\ (settled depth -> v' = v).
Proof.
  intros Hqs Hcs. induction Hcs as [|c cs Hc _ IH]; intros f v Hf; cbn [search_next].
  - exists (attr_value f). split; [by destruct f|done].
  - destruct (Hc f) as (v1 & H1 & Hs1). rewrite H1. unfold mbind, outcome_bind.
    assert (Heq : hits depth (attr_value f) qs c = hits depth v qs c).
    { destruct (decide (sp_attr_depth sp < Z.of_nat depth \/ sizeZ (sp_nodes sp) <= sp_attr_depth sp)%Z) as [Hset|Hset]; [by rewrite Hf|].
      apply hits_indep. rewrite <- Hqs, sizeZ_drop. lia. }
    destruct (IH (mkFound v1 (add_all (hits depth (attr_value f) qs c) (attributes f))) v) as (v2 & H2 & Hs2).
    { cbn. intros Hset. rewrite Hs1, Hf; done. }
    exists v2. split; [|done]. rewrite H2. cbn [attributes]. rewrite bind_cons, add_all_app, Heq. done.
Qed.

Lemma search_hits t : named t -> forall depth q qs, drop depth (sp_nodes sp) = q :: qs ->
  depth <> 0 \/ name_matches q.1 (getNodeName t) = true -> searches depth (q :: qs) t.
Proof.
  induction t as [a n at_ cs IH] using DOMNode_tree_ind. intros Hnamed depth q qs Hqs Hd f.
  apply named_inv in Hnamed as [Hn Hcs]. rewrite (search_step depth q qs) by done. cbn [hits].
  destruct (node_test q (mkDOMNode a n at_ cs)); cycle 1.
  { exists (attr_value f). split; [|done]. cbn [add_all foldl]. destruct f as [v l].
    destruct (name_matches _ _); [done|]. rewrite decide_False; [done|]. by destruct Hd. }
  assert (Hm : settled depth -> matched_value depth q (mkDOMNode a n at_ cs) (attr_value f) = attr_value f).
  { intros Hs. unfold matched_value. rewrite (proj2 (Z.eqb_neq _ _)); [done|]. destruct Hs as [Hs|Hs]; [lia|].
    pose proof (length_drop (sp_nodes sp) depth) as Hl. rewrite Hqs in Hl. unfold sizeZ in Hs. cbn in Hl. lia. }
  cbv zeta. destruct qs as [|q' qs]; [by eexists|]. cbn [getChildren attr_value attributes] in *.
  assert (Hqs' : drop (S depth) (sp_nodes sp) = q' :: qs) by (rewrite <- Nat.add_1_r, <- drop_drop, Hqs; done).
  destruct (next_searches (S depth) (q' :: qs) cs Hqs') with
    (f := mkFound (matched_value depth q (mkDOMNode a n at_ cs) (attr_value f)) (attributes f)) (v := matched_value depth q (mkDOMNode a n at_ cs) (attr_value f))
    as (v' & Hv & Hs); [|done|].
  - rewrite Forall_forall in *. intros c Hc. apply IH; [done|by apply Hcs|done|by left].
  - exists v'. split; [done|]. intros Hset. rewrite Hs; [by apply Hm|]. destruct Hset; [left; lia|by right].
Qed.


(** From the document down: the search inserts what is there in document order, and stops early only with enough. *)
Definition explores (all : list (DOMNode * line)) (search : outcome Found) (f : Found) : Prop :=
  exists v' es rest, search = Ok (mkFound v' (add_all es (attributes f))) /\ all = es ++ rest /\ (settled 0 -> v' = [])
    /\ (rest = [] \/ enough_found sp (mkFound v' (add_all es (attributes f))) = true).

Lemma search_document t : named t -> forall f, (settled 0 -> attr_value f = []) ->
  explores (all_hits t) (SearchTree sp names 0 t f) f.
Proof.
  induction t as [a n at_ cs IH] using DOMNode_tree_ind. intros Hnamed f Hf. cbn [all_hits].
  destruct (sp_nodes sp) as [|q qs] eqn:Hnodes.
  { exists (attr_value f), [], []. cbn [SearchTree]. rewrite Hnodes. split_and!; [by destruct f|done|done|by left]. }
  assert (Hdrop : drop 0 (sp_nodes sp) = q :: qs) by (by rewrite drop_0).
  destruct (name_matches q.1 (getNodeName (mkDOMNode a n at_ cs))) eqn:Hname.
  - destruct (search_hits _ Hnamed 0 q qs Hdrop (or_intror Hname) f) as (v' & Hv & Hs).
    assert (Heq : hits 0 (attr_value f) (q :: qs) (mkDOMNode a n at_ cs) = hits 0 [] (q :: qs) (mkDOMNode a n at_ cs)).
    { destruct (decide (sp_attr_depth sp < Z.of_nat 0 \/ sizeZ (sp_nodes sp) <= sp_attr_depth sp)%Z) as [Hset|Hset]; [by rewrite Hf|].
      apply hits_indep. rewrite <- Hnodes. lia. }
    exists v', (hits 0 [] (q :: qs) (mkDOMNode a n at_ cs)), []. rewrite Hv, Heq, app_nil_r. split_and!; [done|done| |by left].
    intros Hset. by rewrite Hs, Hf.
  - pose proof (named_inv _ Hnamed) as [Hn Hcs]. rewrite (search_step 0 q qs) by done.
    unfold node_test. rewrite Hname. cbn [andb]. rewrite decide_True by done. cbn [getChildren] in *. clear Hnamed Hn Hname.
    revert f Hf. induction IH as [|c cs Hc _ IHcs]; intros f Hf; cbn [search_below].
    { exists (attr_value f), [], []. split_and!; [by destruct f|done|done|by left]. }
    apply Forall_cons in Hcs as [Hnc Hcs]. destruct (Hc Hnc f Hf) as (v1 & es & rest & H1 & Hall & Hs & Hrest).
    rewrite H1. unfold mbind, outcome_bind. rewrite bind_cons.
    destruct (enough_found sp (mkFound v1 (add_all es (attributes f)))) eqn:Henough.
    + exists v1, es, (rest ++ (cs ≫= all_hits)). rewrite Hall, app_assoc. auto.
    + destruct Hrest as [->|]; [|congruence]. rewrite app_nil_r in Hall.
      destruct (IHcs Hcs (mkFound v1 (add_all es (attributes f))) Hs) as (v2 & es2 & rest2 & H2 & Hall2 & Hs2 & Hrest2).
      exists v2, (es ++ es2), rest2. rewrite H2. cbn [attributes] in *. rewrite add_all_app, Hall, Hall2, app_assoc. auto.
Qed.


(** ** Hits are the nodes that the path selects *)

(** The value carried to the end of a path. *)
Fixpoint along (depth : nat) (v : line) (qs : list node_t) (ts : list DOMNode) : line :=
  match qs, ts with
  | q :: qs, t :: ts => along (S depth) (matched_value depth q t v) qs ts
  | _, _ => v
  end.

Lemma along_settled qs : forall depth v ts, (sp_attr_depth sp < Z.of_nat depth)%Z -> along depth v qs ts = v.
Proof.
  induction qs as [|q qs IH]; intros depth v [|t ts] Hd; try done. cbn [along]. rewrite IH by lia.
  unfold matched_value. by rewrite (proj2 (Z.eqb_neq _ _)) by lia.
Qed.

Lemma along_value qs : forall depth v ts, (Z.of_nat depth <= sp_attr_depth sp)%Z ->
  along depth v qs ts = match qs !! (Z.to_nat (sp_attr_depth sp) - depth), ts !! (Z.to_nat (sp_attr_depth sp) - depth) with
    | Some q, Some t => node_value (attribute_name sp) q t
    | _, _ => v
    end.
Proof.
  induction qs as [|q qs IH]; intros depth v [|t ts] Hd; [done|done|by destruct (_ !! _)|]. cbn [along].
  destruct (decide (Z.of_nat depth = sp_attr_depth sp)) as [Heq|Hne].
  - rewrite along_settled by lia. unfold matched_value. rewrite (proj2 (Z.eqb_eq _ _) Heq).
    replace (Z.to_nat (sp_attr_depth sp) - depth) with 0 by lia. done.
  - rewrite IH by lia. unfold matched_value. rewrite (proj2 (Z.eqb_neq _ _)) by lia.
    replace (Z.to_nat (sp_attr_depth sp) - depth) with (S (Z.to_nat (sp_attr_depth sp) - S depth)) by lia. done.
Qed.

Lemma hits_elem t : forall depth v qs n x, (n, x) ∈ hits depth v qs t <->
  exists ts, on_path qs (t :: ts) /\ last (t :: ts) = Some n /\ x = along depth v qs (t :: ts).
Proof.
  induction t as [a nm at_ cs IH] using DOMNode_tree_ind. intros depth v qs n x. destruct qs as [|q qs]; cbn [hits].
  { split; [by intros ?%not_elem_of_nil|]. intros (ts & H & _). inversion H. }
  destruct (node_test q (mkDOMNode a nm at_ cs)) eqn:Ht; cycle 1.
  { split; [by intros ?%not_elem_of_nil|]. intros (ts & H & _). inversion H; congruence. }
  destruct qs as [|q' qs].
  - rewrite list_elem_of_singleton. split.
    + intros [= -> ->]. exists []. split_and!; [by constructor|done|done].
    + intros (ts & H & Hl & ->). inversion H as [|? ? ? ? ? ? ? Hbad]; subst; [|inversion Hbad]. by injection Hl as ->.
  - cbn [getChildren]. rewrite list_elem_of_bind. rewrite Forall_forall in IH. split.
    + intros (c & Hin & Hc). apply (IH c Hc) in Hin as (ts & Hon & Hl & ->). exists (c :: ts).
      split_and!; [by constructor|by rewrite last_cons_cons|done].
    + intros (ts & H & Hl & ->). inversion H as [|? ? ? c ts' ? Hc Hon]; subst. exists c. split; [|done].
      apply (IH c Hc). exists ts'. rewrite last_cons_cons in Hl. done.
Qed.

Lemma all_hits_elem t n x : (n, x) ∈ all_hits t <->
  exists q qs s, sp_nodes sp = q :: qs /\ outermost q.1 t s /\ (n, x) ∈ hits 0 [] (sp_nodes sp) s.
Proof.
  induction t as [a nm at_ cs IH] using DOMNode_tree_ind. cbn [all_hits]. destruct (sp_nodes sp) as [|q qs] eqn:Hnodes.
  { split; [by intros ?%not_elem_of_nil|]. by intros (? & ? & ? & ? & _). }
  destruct (name_matches q.1 (getNodeName (mkDOMNode a nm at_ cs))) eqn:Hname.
  - split.
    + intros H. exists q, qs, (mkDOMNode a nm at_ cs). split_and!; [done|by constructor|done].
    + intros (? & ? & s & [= <- <-] & Ho & H). inversion Ho; subst; [done|congruence].
  - rewrite list_elem_of_bind. rewrite Forall_forall in IH. cbn [getChildren]. split.
    + intros (c & Hin & Hc). apply (IH c Hc) in Hin as (q' & qs' & s & [= <- <-] & Ho & H).
      exists q, qs, s. split_and!; [done|by apply (outermost_below _ _ c)|done].
    + intros (? & ? & s & [= <- <-] & Ho & H). inversion Ho as [|? c ? ? Hc Ho']; subst; [congruence|]. exists c. split; [|done].
      apply (IH c Hc). eauto 10.
Qed.

(** No node is hit twice: the hits are some of the nodes, in document order. *)
Lemma hits_sublist t : forall depth v qs, (hits depth v qs t).*1 `sublist_of` nodes_of t.
Proof.
  induction t as [a nm at_ cs IH] using DOMNode_tree_ind. intros depth v [|q qs]; cbn [hits]; [apply sublist_nil_l|].
  destruct (node_test q _); [|apply sublist_nil_l]. destruct qs as [|q' qs]; cbn [nodes_of getChildren].
  - cbn. apply sublist_skip, sublist_nil_l.
  - apply sublist_cons. induction IH as [|c cs Hc _ IHcs]; [done|]. rewrite !bind_cons, fmap_app. by apply sublist_app.
Qed.

Lemma all_hits_sublist t : (all_hits t).*1 `sublist_of` nodes_of t.
Proof.
  induction t as [a nm at_ cs IH] using DOMNode_tree_ind. cbn [all_hits]. destruct (sp_nodes sp) as [|q qs]; [apply sublist_nil_l|].
  destruct (name_matches _ _); [apply hits_sublist|]. cbn [nodes_of getChildren]. apply sublist_cons.
  induction IH as [|c cs Hc _ IHcs]; [done|]. rewrite !bind_cons, fmap_app. by apply sublist_app.
Qed.

End Search.

(** ** The multimap *)

Lemma insert_multi_perm e l : insert_multi e l ≡ₚ e :: l.
Proof. induction l as [|e' l IH]; cbn; [done|]. case_match; [|done]. rewrite IH. apply Permutation_swap. Qed.

Lemma add_all_perm es : forall l, add_all es l ≡ₚ es ++ l.
Proof.
  induction es as [|e es IH]; intros l; [done|]. unfold add_all in *. cbn [foldl app]. rewrite IH, insert_multi_perm. by rewrite <- Permutation_middle.
Qed.

Definition by_address (a b : DOMNode * line) : Prop := (addr a.1 <= addr b.1)%Z.

Lemma insert_multi_sorted e l : StronglySorted by_address l -> StronglySorted by_address (insert_multi e l).
Proof.
  induction 1 as [|e' l Hs IH Hle]; cbn; [by repeat constructor|]. destruct (Z.leb_spec (addr e'.1) (addr e.1)).
  - constructor; [done|]. rewrite insert_multi_perm. by constructor.
  - constructor; [by constructor|]. constructor; [unfold by_address; lia|]. eapply Forall_impl; [exact Hle|]. unfold by_address. intros; lia.
Qed.

Lemma add_all_sorted es : forall l, StronglySorted by_address l -> StronglySorted by_address (add_all es l).
Proof. induction es as [|e es IH]; intros l Hl; [done|]. by apply IH, insert_multi_sorted. Qed.


(** ** The names of the nodes *)

Lemma map_names_other t : forall m k, k ∉ addr <$> nodes_of t -> MapNodeNames t m !! k = m !! k.
Proof.
  induction t as [a nm at_ cs IH] using DOMNode_tree_ind. intros m k Hk. cbn [MapNodeNames nodes_of getChildren] in *.
  rewrite fmap_cons, not_elem_of_cons in Hk. destruct Hk as [Ha Hk].
  enough (H : forall m, map_all MapNodeNames cs m !! k = m !! k) by (by rewrite H, lookup_insert_ne by congruence).
  clear Ha m. induction IH as [|c cs Hc _ IHcs]; intros m; [done|]. rewrite bind_cons, fmap_app, not_elem_of_app in Hk.
  cbn [map_all]. destruct Hk as [Hk1 Hk2]. by rewrite IHcs, Hc.
Qed.

Lemma map_all_other cs : forall m k, k ∉ addr <$> (cs ≫= nodes_of) -> map_all MapNodeNames cs m !! k = m !! k.
Proof.
  induction cs as [|c cs IH]; intros m k Hk; [done|]. rewrite bind_cons, fmap_app, not_elem_of_app in Hk.
  cbn [map_all]. destruct Hk. rewrite IH by done. by apply map_names_other.
Qed.

(** Every node of the document is recorded under its own name. *)
Lemma map_names t : forall m, NoDup (addr <$> nodes_of t) -> named (MapNodeNames t m) t.
Proof.
  induction t as [a nm at_ cs IH] using DOMNode_tree_ind. intros m Hnd. unfold named.
  cbn [MapNodeNames nodes_of getChildren] in *. rewrite fmap_cons, NoDup_cons in Hnd. destruct Hnd as [Ha Hnd].
  apply Forall_cons. split; [rewrite map_all_other by done; by rewrite lookup_insert_eq|].
  rewrite Forall_bind. generalize (<[addr (mkDOMNode a nm at_ cs) := getNodeName (mkDOMNode a nm at_ cs)]> m) as m'.
  clear Ha. induction IH as [|c cs Hc _ IHcs]; intros m'; [done|]. rewrite bind_cons, fmap_app, NoDup_app in Hnd.
  destruct Hnd as (Hnd1 & Hdisj & Hnd2). cbn [map_all]. apply Forall_cons. split; [|by apply IHcs].
  specialize (Hc m' Hnd1). unfold named in Hc. rewrite Forall_forall in Hc.
  apply Forall_forall. intros n Hn. rewrite <- (Hc n Hn).
  apply map_all_other, Hdisj, list_elem_of_fmap_2, Hn.
Qed.

Lemma parsed_depth xpath p : ParseXPath xpath = Ok p -> (0 <= attr_depth p)%Z.
Proof.
  unfold ParseXPath. unfold mbind, outcome_bind. destruct (sections_of xpath) as [secs| |]; [|done..].
  enough (H : forall i p0, (0 <= attr_depth p0)%Z -> forall p, add_sections i secs p0 = Ok p -> (0 <= attr_depth p)%Z) by (apply H; done).
  clear. induction secs as [|str secs IH]; intros i p0 H0 p; cbn [add_sections]; [by intros [= <-]|].
  unfold mbind, outcome_bind. destruct (add_section i str p0) as [p1| |] eqn:H1; [|done..]. apply IH. revert H1. unfold add_section.
  case_match; [|by intros [= <-]]. destruct (map_to_list _) as [|[name v] [|]]; [by intros [= <-]| |by intros [= <-]].
  destruct (nodes p0 !! (i - 1)) as [[n q]|]; [|done]. intros [= <-]. cbn. apply u32_range.
Qed.

(** ** The search *)

Definition parameters (p : Parsed) (max : Z) : SearchParameters := mkSearchParameters (nodes p) (attribute p) (attr_depth p) max.

Lemma all_hits_selected d p max n v : (0 <= attr_depth p)%Z -> (n, v) ∈ all_hits (parameters p max) d <-> selected d p n v.
Proof.
  intros Hd. rewrite all_hits_elem. unfold selected. split.
  - intros (q & qs & s & Hq & Ho & (ts & Hon & Hl & ->)%hits_elem). exists q, qs, s, ts. split_and!; [done..|].
    rewrite along_value by done. cbn [parameters sp_attr_depth]. by rewrite Nat.sub_0_r.
  - intros (q & qs & s & ts & Hq & Ho & Hon & Hl & ->). exists q, qs, s. split_and!; [done..|]. apply hits_elem. exists ts. split_and!; [done..|].
    rewrite along_value by done. cbn [parameters sp_attr_depth]. by rewrite Nat.sub_0_r.
Qed.

(** What a search with [max] finds: some of what the path selects, ordered by address; all of it unless it stopped with enough. *)
Lemma search_spec d root xpath p max : NoDup (addr <$> nodes_of d) -> ParseXPath xpath = Ok p ->
  exists found es rest, FindAttributeValues (Init d root) xpath max = Ok found /\ found ≡ₚ es /\ all_hits (parameters p max) d = es ++ rest
    /\ StronglySorted by_address found /\ (rest = [] \/ 0 < max <= sizeZ found)%Z.
Proof.
  intros Hnd Hp. unfold FindAttributeValues. rewrite Hp. unfold mbind, outcome_bind. cbn [Init node_names doc].
  destruct (search_document (parameters p max) (MapNodeNames d ∅) d (map_names d ∅ Hnd) (mkFound [] []) (fun _ => eq_refl))
    as (v' & es & rest & Hs & Hall & _ & Hrest). fold (parameters p max). rewrite Hs. cbn [attributes] in *.
  exists (add_all es []), es, rest. split_and!; [done|by rewrite add_all_perm, app_nil_r|done|apply add_all_sorted; constructor|].
  destruct Hrest as [->|He]; [by left|right]. unfold enough_found in He. apply andb_true_iff in He as [H1%Z.ltb_lt H2%Z.leb_le]. done.
Qed.

Lemma sublist_addr l k : l `sublist_of` k -> (addr <$> l) `sublist_of` (addr <$> k).
Proof. induction 1; cbn; by constructor. Qed.

(** Found nodes are distinct, so that the order by address is strict. *)
Lemma found_strict d found es rest sp : NoDup (addr <$> nodes_of d) -> found ≡ₚ es -> all_hits sp d = es ++ rest ->
  StronglySorted by_address found -> StronglySorted (fun a b => addr a.1 < addr b.1)%Z found.
Proof.
  intros Hnd Hperm Hall Hs.
  assert (Hnodup : NoDup (addr ∘ fst <$> found)).
  { rewrite Hperm. apply (NoDup_app (addr ∘ fst <$> es) (addr ∘ fst <$> rest)). rewrite <- fmap_app, <- Hall, list_fmap_compose.
    eapply sublist_NoDup; [exact Hnd|]. apply sublist_addr, all_hits_sublist. }
  clear Hperm Hall. induction Hs as [|e l Hs IH Hle]; [constructor|]. rewrite fmap_cons, NoDup_cons in Hnodup. destruct Hnodup as [He Hl].
  constructor; [by apply IH|]. rewrite Forall_forall in *. intros e' He'. specialize (Hle e' He'). unfold by_address in Hle.
  destruct (decide (addr e.1 = addr e'.1)) as [Heq|]; [|lia]. destruct He. apply list_elem_of_fmap. by exists e'.
Qed.

Lemma find_all_exact d root xpath p : NoDup (addr <$> nodes_of d) -> ParseXPath xpath = Ok p ->
  exists found, FindAttributeValues (Init d root) xpath 0 = Ok found /\ (forall n v, (n, v) ∈ found <-> selected d p n v)
    /\ StronglySorted (fun a b => addr a.1 < addr b.1)%Z found.
Proof.
  intros Hnd Hp. destruct (search_spec d root xpath p 0 Hnd Hp) as (found & es & rest & Hf & Hperm & Hall & Hs & Hrest).
  assert (rest = []) as -> by (destruct Hrest as [?|[? _]]; [done|lia]).
  exists found. split_and!; [done| |by eapply found_strict].
  intros n v. rewrite Hperm, <- (all_hits_selected d p 0 n v) by (by eapply parsed_depth). by rewrite Hall, app_nil_r.
Qed.

(** C29: A lookup of all matches finds exactly what the path selects.  The nodes found are those at the end of a chain of nodes, one
    below the other, that fit the nodes of the parsed path, starting at the outermost nodes with the first name; each is found once,
    in the order of the addresses, with the value of the attribute that the path asks for. *)
Theorem lookup_finds_exactly d root xpath p : NoDup (addr <$> nodes_of d) -> ParseXPath xpath = Ok p ->
  exists found, (forall n v, (n, v) ∈ found <-> selected d p n v)
    /\ StronglySorted (fun a b => addr a.1 < addr b.1)%Z found
    /\ GetMultiple (Init d root) xpath = Ok (negb (bool_decide (found.*2 = [])), found.*2)
    /\ GetMultiple_maps (Init d root) xpath = Ok (negb (bool_decide (GetAttributes <$> found.*1 = [])), GetAttributes <$> found.*1).
Proof.
  intros Hnd Hp. destruct (find_all_exact d root xpath p Hnd Hp) as (found & Hf & Hsel & Hs). exists found. split_and!; [done|done| |].
  - unfold GetMultiple. change (valid_xmlfile (Init d root)) with true. cbn [negb]. by rewrite Hf.
  - unfold GetMultiple_maps. change (valid_xmlfile (Init d root)) with true. cbn [negb]. by rewrite Hf.
Qed.

(** A small detector: two layers with wires, and a comment. *)
Definition leaf (a : Z) (name : string) (at_ : list (string * string)) (cs : list DOMNode) : DOMNode :=
  mkDOMNode a (chars name) ((fun kv => (chars kv.1, chars kv.2)) <$> at_) cs.

Definition demo_root : DOMNode :=
  leaf 20 "HDDS" [("version", "1")]%string
    [leaf 30 "layer" [("name", "inner one"); ("id", "3")]%string [leaf 90 "wire" [("r", "0.5")]%string []; leaf 31 "#text" [] []];
     leaf 40 "layer" [("name", "outer"); ("id", "4")]%string [leaf 41 "wire" [("r", "0.7")]%string []]].

Definition demo_doc : DOMNode := leaf 10 "#document" [] [leaf 11 "#comment" [] []; demo_root].

Definition demo_query : Parsed :=
  mkParsed [(chars "layer", {[chars "name" := []]}); (chars "wire", {[chars "r" := []]})] (chars "r") 1.

Lemma lookup_finds_exactly_witness :
  exists found, (forall n v, (n, v) ∈ found <-> selected demo_doc demo_query n v) /\ found.*2 = [chars "0.7"; chars "0.5"].
Proof.
  assert (Hnd : NoDup (addr <$> nodes_of demo_doc)) by (apply (bool_decide_unpack _); vm_compute; exact I).
  destruct (lookup_finds_exactly demo_doc demo_root (chars "//layer[@name]/wire/@r") demo_query Hnd ltac:(vm_compute; reflexivity))
    as (found & Hsel & _ & Hget & _).
  exists found. split; [exact Hsel|].
  assert (Hres : GetMultiple (Init demo_doc demo_root) (chars "//layer[@name]/wire/@r") = Ok (true, [chars "0.7"; chars "0.5"])) by (vm_compute; reflexivity).
  rewrite Hget in Hres. injection Hres as _ Hres. exact Hres.
Defined.

(** ** The cache of [Get] *)

(** The answer of a search, without the cache. *)
Definition uncached (g : JGeometryXML) (xpath : line) : option line :=
  match FindAttributeValues g xpath 1 with
  | Ok ((_, sval) :: _) => Some sval
  | _ => None
  end.

Definition answers (d : DOMNode) (xpath : line) (a : option line) : Prop := exists p, ParseXPath xpath = Ok p /\
  match a with
  | Some v => exists n, selected d p n v
  | None => forall n v, ~ selected d p n v
  end.

Lemma uncached_answers d root xpath p : NoDup (addr <$> nodes_of d) -> ParseXPath xpath = Ok p ->
  answers d xpath (uncached (Init d root) xpath) /\ exists found, FindAttributeValues (Init d root) xpath 1 = Ok found.
Proof.
  intros Hnd Hp. destruct (search_spec d root xpath p 1 Hnd Hp) as (found & es & rest & Hf & Hperm & Hall & _ & Hrest).
  pose proof (parsed_depth _ _ Hp) as Hd. split; [|by exists found]. exists p. split; [done|]. unfold uncached. rewrite Hf.
  destruct found as [|[n v] found].
  - intros n v Hsel. apply (all_hits_selected d p 1 n v Hd) in Hsel. rewrite Hall in Hsel. symmetry in Hperm. apply Permutation_nil_r in Hperm as ->.
    destruct Hrest as [->|[_ Hz]]; [by apply not_elem_of_nil in Hsel|unfold sizeZ in Hz; cbn in Hz; lia].
  - exists n. apply (all_hits_selected d p 1 n v Hd). rewrite Hall. apply elem_of_app. left. rewrite <- Hperm. apply list_elem_of_here.
Qed.

(** What the object looks like between calls: the cache holds answers of searches. *)
Record cached_ok (d root : DOMNode) (g : JGeometryXML) : Prop := {
  co_object : g = mkJGeometryXML true d root (MapNodeNames d ∅) (found_xpaths g) false;
  co_cache : forall xpath v, found_xpaths g !! xpath = Some v -> uncached (Init d root) xpath = Some v
}.

Lemma get_cached d root g xpath p : NoDup (addr <$> nodes_of d) -> cached_ok d root g -> ParseXPath xpath = Ok p ->
  exists g', Get xpath g = (Ok (uncached (Init d root) xpath), g') /\ cached_ok d root g'.
Proof.
  intros Hnd [Hg Hcache] Hp. rewrite Hg. set (cache := found_xpaths g) in *. clearbody cache. clear Hg g.
  destruct (uncached_answers d root xpath p Hnd Hp) as [_ [found Hf]].
  unfold Get. rewrite M_bind_gets. cbn [valid_xmlfile negb]. unfold lock. rewrite M_bind_assoc, M_bind_gets. cbn [found_xpaths_mutex].
  rewrite M_bind_modify, M_bind_gets. cbn [set_mutex found_xpaths valid_xmlfile doc document_element node_names found_xpaths_mutex].
  destruct (cache !! xpath) as [v|] eqn:Hhit.
  - rewrite M_bind_modify. eexists. split; [by rewrite (Hcache _ _ Hhit)|]. by constructor.
  - rewrite M_bind_get. rewrite (M_bind_lift _ _ _ found) by exact Hf.
    assert (Hun : uncached (Init d root) xpath = match found with (_, v) :: _ => Some v | [] => None end) by (unfold uncached; by rewrite Hf).
    destruct found as [|[n v] found].
    + rewrite M_bind_modify. eexists. split; [by rewrite Hun|]. by constructor.
    + rewrite !M_bind_modify. eexists. split; [by rewrite Hun|]. constructor; [done|]. cbn. intros x w.
      destruct (decide (x = xpath)) as [->|Hne]; [rewrite lookup_insert_eq|rewrite lookup_insert_ne by congruence; apply Hcache].
      intros [= <-]. by rewrite Hun.
Qed.

Fixpoint get_all (xpaths : list line) : M JGeometryXML (list (option line)) :=
  match xpaths with
  | [] => mret []
  | xpath :: xpaths => a ← Get xpath; l ← get_all xpaths; mret (a :: l)
  end.

Lemma get_all_cached d root xpaths : NoDup (addr <$> nodes_of d) -> Forall (fun x => exists p, ParseXPath x = Ok p) xpaths ->
  forall g, cached_ok d root g -> exists g', get_all xpaths g = (Ok (uncached (Init d root) <$> xpaths), g').
Proof.
  intros Hnd Hp. induction Hp as [|x xpaths [p Hx] _ IH]; intros g Hg; [by exists g|]. cbn [get_all].
  destruct (get_cached d root g x p Hnd Hg Hx) as (g1 & H1 & Hg1). rewrite (M_bind_ok _ _ _ _ _ H1).
  destruct (IH g1 Hg1) as (g2 & H2). rewrite (M_bind_ok _ _ _ _ _ H2). by exists g2.
Qed.

(** C38: The cache is not visible: any sequence of lookups of paths that parse returns what searching the document anew for each would,
    that is, the value at a node that the path selects, or nothing just if it selects none. *)
Theorem cached_lookup_is_search d root xpaths : NoDup (addr <$> nodes_of d) -> Forall (fun x => exists p, ParseXPath x = Ok p) xpaths ->
  exists g', get_all xpaths (Init d root) = (Ok (uncached (Init d root) <$> xpaths), g')
    /\ Forall (fun x => answers d x (uncached (Init d root) x)) xpaths.
Proof.
  intros Hnd Hp. destruct (get_all_cached d root xpaths Hnd Hp (Init d root)) as [g' Hg']; [by constructor|].
  exists g'. split; [done|]. eapply Forall_impl; [exact Hp|]. intros x [p Hx]. by apply (uncached_answers d root x p).
Qed.

Lemma cached_lookup_is_search_witness :
  exists g', get_all [chars "//layer/wire/@r"; chars "/HDDS/@none"; chars "//layer/wire/@r"] (Init demo_doc demo_root)
    = (Ok [Some (chars "0.5"); None; Some (chars "0.5")], g').
Proof.
  assert (Hnd : NoDup (addr <$> nodes_of demo_doc)) by (apply (bool_decide_unpack _); vm_compute; exact I).
  destruct (cached_lookup_is_search demo_doc demo_root [chars "//layer/wire/@r"; chars "/HDDS/@none"; chars "//layer/wire/@r"] Hnd) as (g' & Hg & _).
  { repeat (constructor; [eexists; vm_compute; reflexivity|]). constructor. }
  exists g'. rewrite Hg. vm_compute. reflexivity.
Defined.

(** A path that does not parse leaves the mutex locked: the next lookup is undefined. *)
Example throw_leaves_mutex_locked : let g := (Get (chars "/") (Init demo_doc demo_root)).2 in
  (Get (chars "/") (Init demo_doc demo_root)).1 = Throw (EStd "out_of_range") /\ (Get (chars "/HDDS/@version") g).1 = Undef.
Proof. split; vm_compute; reflexivity. Qed.


(** ** The list of paths *)

Definition last_qualifiers (level : ATTR_LEVEL_t) (t : DOMNode) : gmap line line :=
  if decide (level = attr_level_none) then ∅ else GetAttributes t.
Definition inner_qualifiers (level : ATTR_LEVEL_t) (t : DOMNode) : gmap line line :=
  if decide (level = attr_level_all) then GetAttributes t else ∅.

(** The elements below a node with their paths, as lists of nodes. *)
Fixpoint element_paths (level : ATTR_LEVEL_t) (pre : list node_t) (t : DOMNode) : list (DOMNode * list node_t) :=
  if decide (char_at (getNodeName t) 0 = "#"%char) then []
  else (t, pre ++ [(getNodeName t, last_qualifiers level t)])
       :: (getChildren t ≫= element_paths level (pre ++ [(getNodeName t, inner_qualifiers level t)])).

Lemma path_text_snoc pre n q : path_text (pre ++ [(n, q)]) = path_text pre ++ chars "/" ++ n ++ attr_qualifiers q.
Proof. unfold path_text. rewrite bind_app. cbn. by rewrite app_nil_r. Qed.

Lemma attr_qualifiers_empty : attr_qualifiers ∅ = [].
Proof. reflexivity. Qed.

Lemma list_all_ok {B} (list_one : DOMNode -> outcome (list line)) (elements : DOMNode -> list B) (h : B -> line) cs :
  Forall (fun c => list_one c = Ok (h <$> elements c)) cs -> list_all list_one cs = Ok (h <$> (cs ≫= elements)).
Proof.
  induction 1 as [|c cs Hc _ IH]; [done|]. cbn [list_all]. rewrite Hc, IH, bind_cons, fmap_app. done.
Qed.

Lemma list_paths names level t : named names t -> forall pre,
  AddNodeToList names t (path_text pre) level = Ok (path_text ∘ snd <$> element_paths level pre t).
Proof.
  induction t as [a nm at_ cs IH] using DOMNode_tree_ind. intros Hnamed pre. pose proof (named_inv _ _ Hnamed) as [Hn Hcs].
  cbn [AddNodeToList element_paths]. rewrite Hn. case_decide; [done|]. set (t := mkDOMNode a nm at_ cs) in *. cbn [getChildren] in *.
  assert (Hlast : (if decide (level = attr_level_none) then [] else attr_qualifiers (GetAttributes t)) = attr_qualifiers (last_qualifiers level t))
    by (unfold last_qualifiers; case_decide; [by rewrite attr_qualifiers_empty|done]).
  assert (Hinner : (if decide (level = attr_level_all) then attr_qualifiers (last_qualifiers level t) else []) = attr_qualifiers (inner_qualifiers level t)).
  { unfold inner_qualifiers, last_qualifiers. destruct level; by rewrite ?attr_qualifiers_empty. }
  rewrite Hlast, Hinner, <- !app_assoc.
  replace (path_text pre ++ chars "/" ++ getNodeName t ++ attr_qualifiers (inner_qualifiers level t))
    with (path_text (pre ++ [(getNodeName t, inner_qualifiers level t)])) by apply path_text_snoc.
  erewrite list_all_ok; cycle 1.
  { rewrite Forall_forall in *. intros c Hc. apply (IH c Hc), Hcs, Hc. }
  unfold mbind at 1, outcome_bind at 1. rewrite fmap_cons. cbn [compose snd]. by rewrite path_text_snoc.
Qed.


Fixpoint elements (t : DOMNode) : list DOMNode :=
  if decide (char_at (getNodeName t) 0 = "#"%char) then [] else t :: (getChildren t ≫= elements).

Lemma element_paths_elements level t : forall pre, (element_paths level pre t).*1 = elements t.
Proof.
  induction t as [a nm at_ cs IH] using DOMNode_tree_ind. intros pre. cbn [element_paths elements]. case_decide; [done|].
  rewrite fmap_cons. f_equal. cbn [getChildren]. generalize (pre ++ [(getNodeName (mkDOMNode a nm at_ cs), inner_qualifiers level (mkDOMNode a nm at_ cs))]) as pre'.
  intros pre'. induction IH as [|c cs' Hc _ IHcs]; [done|]. by rewrite !bind_cons, fmap_app, Hc, IHcs.
Qed.

Lemma compare_refl (m : gmap line line) : attributes_compare m m = true.
Proof. apply attributes_compare_spec. intros k v Hk. exists v. auto. Qed.

Lemma compare_empty (m : gmap line line) : attributes_compare ∅ m = true.
Proof. by apply attributes_compare_spec. Qed.

Lemma own_node_test t q : q.1 = getNodeName t -> q.2 = ∅ \/ q.2 = GetAttributes t -> node_test q t = true.
Proof.
  intros Hn Hq. unfold node_test, name_matches. rewrite Hn, bool_decide_eq_true_2 by done. cbn [orb andb].
  destruct Hq as [->| ->]; [apply compare_empty|apply compare_refl].
Qed.

(** The path of an element leads from the start to the element. *)
Lemma element_path_leads level t : forall pre n ns, (n, ns) ∈ element_paths level pre t ->
  exists q qs ts, ns = pre ++ q :: qs /\ q.1 = getNodeName t /\ on_path (q :: qs) (t :: ts) /\ last (t :: ts) = Some n.
Proof.
  induction t as [a nm at_ cs IH] using DOMNode_tree_ind. intros pre n ns. cbn [element_paths]. case_decide; [by intros ?%not_elem_of_nil|].
  set (t := mkDOMNode a nm at_ cs) in *. rewrite elem_of_cons. intros [[= -> ->]|Hin].
  - exists (getNodeName t, last_qualifiers level t), [], []. split_and!; [done|done| |done]. constructor. apply own_node_test; [done|].
    unfold last_qualifiers. cbn [snd]. case_decide; auto.
  - apply list_elem_of_bind in Hin as (c & Hc & Hcs). cbn [getChildren] in Hcs. rewrite Forall_forall in IH.
    apply (IH c Hcs) in Hc as (q & qs & ts & -> & Hq & Hon & Hl).
    exists (getNodeName t, inner_qualifiers level t), (q :: qs), (c :: ts). rewrite <- app_assoc. split_and!; [done|done| |by rewrite last_cons_cons].
    constructor; [|done|done]. apply own_node_test; [done|]. unfold inner_qualifiers. cbn [snd]. case_decide; auto.
Qed.

(** Elements whose names and attributes can be written in a path. *)
Definition element_ok (t : DOMNode) : Prop := char_at (getNodeName t) 0 = "#"%char \/ node_ok (getNodeName t, GetAttributes t).

#[export] Instance element_ok_dec t : Decision (element_ok t).
Proof. unfold element_ok. apply _. Defined.

Lemma element_paths_ok level t : Forall element_ok (nodes_of t) -> forall pre n ns, Forall node_ok pre -> (n, ns) ∈ element_paths level pre t ->
  Forall node_ok ns /\ length ns <= length pre + length (nodes_of t).
Proof.
  induction t as [a nm at_ cs IH] using DOMNode_tree_ind. intros Hok pre n ns Hpre. cbn [element_paths nodes_of] in *. case_decide; [by intros ?%not_elem_of_nil|].
  set (t := mkDOMNode a nm at_ cs) in *. apply Forall_cons in Hok as [[?|[Hn Hq]] Hok]; [done|]. cbn [fst snd] in *.
  assert (Hnode : forall q, q = ∅ \/ q = GetAttributes t -> node_ok (getNodeName t, q))
    by (intros q [->| ->]; split; [done|apply map_Forall_empty|done|done]).
  rewrite elem_of_cons. intros [[= -> ->]|Hin].
  - split; [apply Forall_app; split; [done|apply Forall_singleton, Hnode; unfold last_qualifiers; case_decide; auto]|].
    rewrite length_app. cbn. lia.
  - apply list_elem_of_bind in Hin as (c & Hc & Hcs). cbn [getChildren] in Hcs. rewrite Forall_bind in Hok. rewrite Forall_forall in IH, Hok.
    apply (IH c Hcs (Hok c Hcs)) in Hc as [H1 H2]; cycle 1.
    { apply Forall_app. split; [done|]. apply Forall_singleton, Hnode. unfold inner_qualifiers. case_decide; auto. }
    split; [done|]. rewrite length_app in H2. cbn [length] in *.
    assert (length (nodes_of c) <= length (cs ≫= nodes_of)); [|lia].
    change (getChildren t) with cs in Hcs. apply list_elem_of_split in Hcs as (l1 & l2 & Hcs). rewrite Hcs, bind_app, bind_cons, !length_app. lia.
Qed.

(** Asking for an attribute that the last node has keeps the path. *)
Lemma on_path_wanting qs ts n a : on_path qs ts -> last ts = Some n -> is_Some (GetAttributes n !! a) -> on_path (wanting qs a) ts.
Proof.
  induction 1 as [q t Ht|q qs t c ts Ht Hc Hon IH]; intros Hl Ha.
  - injection Hl as ->. constructor. unfold node_test in *. cbn [fst snd]. apply andb_true_iff in Ht as [-> Ht]. cbn [andb].
    apply attributes_compare_spec. intros k v. destruct (decide (k = a)) as [->|Hne].
    + rewrite lookup_insert_eq. intros [= <-]. destruct Ha as [w Hw]. exists w. auto.
    + rewrite lookup_insert_ne by congruence. by apply attributes_compare_spec.
  - destruct qs as [|q' qs]; [inversion Hon|]. replace (wanting (q :: q' :: qs) a) with (q :: wanting (q' :: qs) a)
      by (unfold wanting; cbn [length]; by replace (S (S (length qs)) - 1) with (S (S (length qs) - 1)) by lia).
    rewrite last_cons_cons in Hl. constructor; [done|done|by apply IH].
Qed.

Lemma on_path_length qs ts : on_path qs ts -> length qs = length ts.
Proof. induction 1; cbn in *; congruence. Qed.



(** A document as the XML parser delivers it, with names and attributes that can be written in a path. *)
Record document_ok (d root : DOMNode) : Prop := {
  do_name : getNodeName d = chars "#document";
  do_root : root ∈ getChildren d;
  do_root_name : getNodeName root <> chars "*" /\ char_at (getNodeName root) 0 <> "#"%char;
  do_addresses : NoDup (addr <$> nodes_of d);
  do_elements : Forall element_ok (nodes_of root);
  do_size : (sizeZ (nodes_of root) < 2 ^ 32)%Z
}.

Lemma root_outermost d root : document_ok d root -> outermost (getNodeName root) d root.
Proof.
  intros H. destruct (do_root_name _ _ H) as [Hstar Hhash]. apply (outermost_below _ _ root); [|apply H|].
  - unfold name_matches. rewrite (do_name _ _ H). apply orb_false_iff. split; [apply orb_false_iff; split|]; apply bool_decide_eq_false.
    + intros Heq. apply Hhash. by rewrite <- Heq.
    + intros Heq. pose proof (do_elements _ _ H) as Hel. destruct root as [a nm at_ cs]. cbn [nodes_of] in Hel.
      apply Forall_cons in Hel as [[?|[[Hne _] _]] _]; done.
    + done.
  - constructor. unfold name_matches. by rewrite bool_decide_eq_true_2.
Qed.

(** The text of a path for a node: the lookup of it finds the node, and with an attribute of the node behind it finds its value. *)
Definition leads_to (g : JGeometryXML) (xpath : line) (n : DOMNode) : Prop :=
  (exists found, FindAttributeValues g xpath 0 = Ok found /\ n ∈ found.*1)
  /\ forall a v, target_ok a -> GetAttributes n !! a = Some v ->
     exists vs, GetMultiple g (xpath ++ chars "/@" ++ a) = Ok (true, vs) /\ v ∈ vs.

Lemma element_path_leads_to d root level n ns : document_ok d root -> (n, ns) ∈ element_paths level [] root ->
  leads_to (Init d root) (path_text ns) n.
Proof.
  intros Hdoc Hin. destruct (element_paths_ok level root (do_elements _ _ Hdoc) [] n ns (Forall_nil_2 _) Hin) as [Hok Hlen].
  destruct (element_path_leads level root [] n ns Hin) as (q & qs & ts & -> & Hq & Hon & Hl). cbn [app] in *.
  pose proof (do_addresses _ _ Hdoc) as Hnd. pose proof (root_outermost _ _ Hdoc) as Hout. rewrite <- Hq in Hout. split.
  - destruct (find_all_exact d root _ _ Hnd (path_reads_back (q :: qs) ltac:(done) Hok)) as (found & Hf & Hsel & _).
    exists found. split; [done|]. apply list_elem_of_fmap. eexists (n, _). split; [done|]. apply Hsel.
    exists q, qs, root, ts. by split_and!.
  - intros a v Ha Hv.
    assert (Hsize : (sizeZ (q :: qs) < 2 ^ 32)%Z) by (pose proof (do_size _ _ Hdoc); unfold sizeZ in *; cbn [length] in *; lia).
    destruct (find_all_exact d root _ _ Hnd (target_reads_back (q :: qs) a ltac:(done) Hok Ha Hsize)) as (found & Hf & Hsel & _).
    assert (Hv' : (n, v) ∈ found).
    { apply Hsel. pose proof (on_path_wanting _ _ n a Hon Hl ltac:(by eexists)) as Hon'.
      destruct (wanting (q :: qs) a) as [|q' qs'] eqn:Hw; [inversion Hon'|]. exists q', qs', root, ts. cbn [nodes].
      assert (Hq' : q'.1 = q.1) by (unfold wanting in Hw; destruct qs; cbn in Hw; by injection Hw as <- _).
      split_and!; [done|by rewrite Hq'|done|done|]. unfold path_value. cbn [nodes attr_depth attribute].
      replace (Z.to_nat (sizeZ (q :: qs) - 1)) with (length (q :: qs) - 1) by (unfold sizeZ; lia). rewrite <- Hw. unfold wanting.
      rewrite list_lookup_alter_eq.
      destruct (lookup_lt_is_Some_2 (q :: qs) (length (q :: qs) - 1)) as [x Hx]; [cbn; lia|]. rewrite Hx, (on_path_length _ _ Hon). cbn [fmap option_fmap option_map].
      rewrite last_lookup in Hl. replace (length (root :: ts) - 1) with (pred (length (root :: ts))) by (cbn; lia). rewrite Hl.
      unfold node_value. cbn [snd]. rewrite lookup_insert_eq, decide_True by (by eexists). by rewrite Hv. }
    exists (found.*2). split.
    + unfold GetMultiple. change (valid_xmlfile (Init d root)) with true. cbn [negb]. rewrite Hf. unfold mbind, outcome_bind.
      rewrite bool_decide_eq_false_2; [done|]. intros Hnil. apply (list_elem_of_fmap_2 snd) in Hv'. rewrite Hnil in Hv'. by apply not_elem_of_nil in Hv'.
    + by apply (list_elem_of_fmap_2 snd) in Hv'.
Qed.

(** C30: The list of paths leads back into the document, if names and values can be written in a path.  Let all nodes be distinct, the names of
    elements and attributes be free of the characters that a path gives a meaning to, values free of those that end them, the root's name be
    none of the names that match everything, and the document have less than 2^32 nodes.  For every level of detail there is one path for every element, in document
    order; looking a path up finds its element, and looking it up with an attribute of the element behind it finds the value. *)
Theorem listed_paths_lead_back d root level : document_ok d root ->
  exists xpaths, GetXPaths (Init d root) level [] [] = Ok xpaths /\ Forall2 (leads_to (Init d root)) xpaths (elements root).
Proof.
  intros Hdoc. assert (Hnamed : named (MapNodeNames d ∅) root).
  { pose proof (map_names d ∅ (do_addresses _ _ Hdoc)) as [_ H]%named_inv. rewrite Forall_forall in H. apply H, Hdoc. }
  exists (path_text ∘ snd <$> element_paths level [] root). split.
  - unfold GetXPaths. change (valid_xmlfile (Init d root)) with true. cbn [negb].
    pose proof (list_paths _ level root Hnamed []) as Hl. cbn [path_text mbind list_bind] in Hl.
    cbn [Init node_names document_element]. rewrite Hl. done.
  - rewrite <- (element_paths_elements level root []), Forall2_fmap. apply Forall_Forall2_diag, Forall_forall. intros [n ns] Hin.
    by apply (element_path_leads_to d root level n ns).
Qed.

Lemma listed_paths_lead_back_witness :
  exists xpaths, GetXPaths (Init demo_doc demo_root) attr_level_all [] [] = Ok xpaths
    /\ Forall2 (leads_to (Init demo_doc demo_root)) xpaths (elements demo_root)
    /\ xpaths !! 2 = Some (chars "/HDDS[@version='1']/layer[@id='3' and @name='inner one']/wire[@r='0.5']").
Proof.
  assert (Hdoc : document_ok demo_doc demo_root).
  { split; [reflexivity|apply list_elem_of_further, list_elem_of_here|split; intros H; vm_compute in H; discriminate| | |reflexivity].
    - apply (bool_decide_unpack _). vm_compute. exact I.
    - apply (bool_decide_unpack _). vm_compute. exact I. }
  destruct (listed_paths_lead_back demo_doc demo_root attr_level_all Hdoc) as (xpaths & Hx & Hall).
  exists xpaths. split; [exact Hx|]. split; [exact Hall|].
  assert (Hv : GetXPaths (Init demo_doc demo_root) attr_level_all [] [] = Ok xpaths) by exact Hx. vm_compute in Hv. injection Hv as <-. vm_compute. reflexivity.
Defined.

(** A path is kept once for every position where the filter matches, not once. *)
Example filter_keeps_path_twice :
  keep [(chars "a", ∅)] [(chars "a", ∅); (chars "a", ∅)] (chars "/a/a") = [chars "/a/a"; chars "/a/a"].
Proof. vm_compute. reflexivity. Qed.

(** An outer node of the first name hides the nodes below it, even if its attributes do not fit. *)
Example outer_name_hides_inner :
  let inner := leaf 3 "volume" [("id", "2")]%string [] in
  let d := leaf 1 "#document" [] [leaf 2 "volume" [("id", "1")]%string [inner]] in
  FindAttributeValues (Init d d) (chars "//volume[@id='2']") 0 = Ok [].
Proof. vm_compute. reflexivity. Qed.


End GeometryXML.
