(* ===== verification/JGeometry.v ===== *)
(** * JGeometry: geometry objects

    Model of [Compatibility/JGeometry.h] (the templates that convert what a geometry returns),
    of the constructor, the entity resolver and the checksum of [Compatibility/JGeometryXML.cc], and of
    [Compatibility/JGeometryManager.cc].

    Not under the repository, and so parameters: which files can be read and what they hold, what
    the calibration database returns, and the XML parser, which delivers a document and the system
    identifiers of the external entities that it asked the resolver for. *)

From Stdlib Require Import Ascii.
From S2P Require Import Prelude JMd5 JParameterManager JCalibrationFile JStatusBits JXPath JGeometryXML.
Import Parameters CalibrationFile.

Module Geometry.
Import GeometryXML.

(** ** Converting values *)

Section Templates.
Context {T : Type} (extract : line -> T).

(** The loop of the vector version on the text from [pos_start] on: [delimiter] is a set of characters, and
    [buf] is the token that was begun. *)
Fixpoint split_by (delimiter : line) (buf rest : line) : list line :=
  match rest with
  | [] => if decide (buf = []) then [] else [buf]
  | c :: rest =>
      if decide (c ∈ delimiter) then (if decide (buf = []) then [] else [buf]) ++ split_by delimiter [] rest
      else split_by delimiter (buf ++ [c]) rest
  end.

Definition convert (delimiter svals : line) : list T := extract <$> split_by delimiter [] svals.

(** [Get(xpath, val)]: [None] for false. *)
Definition Get_value (xpath : line) : M JGeometryXML (option T) :=
  sval ← Get xpath;
  mret (extract <$> sval).

Definition Get_vector (xpath delimiter : line) : M JGeometryXML (bool * list T) :=
  svals ← Get xpath;
  mret (match svals with None => (false, []) | Some svals => (true, convert delimiter svals) end).

Definition Get_values (g : JGeometryXML) (xpath : line) : outcome (bool * gmap line T) :=
  r ← Get_map g xpath;
  let '(res, svals) := r in
  Ok (res, list_to_map ((fun kv => (kv.1, extract kv.2)) <$> by_key svals)).

(** The values are appended to what the container holds. *)
Definition GetMultiple_value (g : JGeometryXML) (xpath : line) (vval : list T) : outcome (bool * list T) :=
  r ← GetMultiple g xpath;
  let '(res, vsval) := (r : bool * list line) in
  if (res : bool) then Ok (res, vval ++ (extract <$> vsval)) else Ok (res, vval).

Definition GetMultiple_vector (g : JGeometryXML) (xpath delimiter : line) : outcome (bool * list (list T)) :=
  r ← GetMultiple g xpath;
  let '(res, vsvals) := (r : bool * list line) in
  if (res : bool) then Ok (res, convert delimiter <$> vsvals) else Ok (res, []).

Definition GetMultiple_values (g : JGeometryXML) (xpath : line) : outcome (bool * list (gmap line T)) :=
  r ← GetMultiple_maps g xpath;
  let '(res, vsvals) := (r : bool * list (gmap line line)) in
  Ok (res, (fun svals => list_to_map ((fun kv => (kv.1, extract kv.2)) <$> by_key svals)) <$> vsvals).

End Templates.

(** ** The entity resolver *)

Record EntityResolver := mkResolver { xml_filenames : list line; path : line }.

(** [fname.substr(0, fname.find_last_of('/')) + "/"], or nothing. *)
Fixpoint directory (fname : line) : line :=
  match fname with
  | [] => []
  | c :: fname => if decide ("/"%char ∈ c :: fname) then c :: directory fname else []
  end.

Definition new_resolver (xmlFile : line) : EntityResolver := mkResolver [xmlFile] (directory xmlFile).

(** One entity; with a database the program exits if it does not have it, which is [None]. *)
Definition resolveEntity (calib : option (line -> list (gmap line line))) (systemId : line) (r : EntityResolver) : option EntityResolver :=
  let fullpath := path r ++ systemId in
  let r := mkResolver (xml_filenames r ++ [fullpath]) (path r) in
  match calib with
  | Some GetCalib => if decide (GetCalib fullpath = []) then None else Some r
  | None => Some r
  end.

Fixpoint resolve_all (calib : option (line -> list (gmap line line))) (systemIds : list line) (r : EntityResolver) : option EntityResolver :=
  match systemIds with
  | [] => Some r
  | systemId :: systemIds => r ← resolveEntity calib systemId r; resolve_all calib systemIds r
  end.

Definition bytes (s : line) : list Z := (fun c => Z.of_nat (nat_of_ascii c)) <$> s.

(** What one name adds to the checksum.  [begin()] of an empty map must not be read; the length of a file is an
    [unsigned int]. *)
Definition add_file (calib : option (line -> list (gmap line line))) (file : line -> option line) (fullpath : line) (pms : Md5.md5_state)
    : outcome Md5.md5_state :=
  match calib with
  | Some GetCalib =>
      match GetCalib fullpath with
      | [] => Ok pms
      | vals :: _ =>
          match by_key vals with
          | [] => Undef
          | (_, xml) :: _ => Md5.md5_append (bytes xml) pms
          end
      end
  | None =>
      match file fullpath with
      | None => Ok pms
      | Some content => Md5.md5_append (bytes (take (Z.to_nat (u32 (sizeZ content))) content)) pms
      end
  end.

Fixpoint add_files (calib : option (line -> list (gmap line line))) (file : line -> option line) (names : list line) (pms : Md5.md5_state)
    : outcome Md5.md5_state :=
  match names with
  | [] => Ok pms
  | fullpath :: names => pms ← add_file calib file fullpath pms; add_files calib file names pms
  end.

(** [snprintf(..., "%02x", digest[di])]. *)
Definition hex_output (digest : list Z) : line := digest ≫= StatusBits.digits 4 2.

(** [pms] is the state on the stack, whatever it holds. *)
Definition GetMD5_checksum (calib : option (line -> list (gmap line line))) (file : line -> option line) (r : EntityResolver) (pms : Md5.md5_state)
    : outcome line :=
  pms ← add_files calib file (xml_filenames r) (Md5.md5_init pms);
  digest ← Md5.md5_finish pms;
  Ok (hex_output digest).

(** What a name contributes. *)
Definition contribution (calib : option (line -> list (gmap line line))) (file : line -> option line) (fullpath : line) : line :=
  match calib with
  | Some GetCalib => match GetCalib fullpath with [] => [] | vals :: _ => default [] (snd <$> head (by_key vals)) end
  | None => default [] (file fullpath)
  end.

(** Pieces that [md5_append] takes: at most 2^28 bytes, and a row of the database is not empty. *)
Definition contribution_ok (calib : option (line -> list (gmap line line))) (file : line -> option line) (fullpath : line) : Prop :=
  (8 * sizeZ (contribution calib file fullpath) < 2 ^ 31)%Z
  /\ match calib with Some GetCalib => head (GetCalib fullpath) <> Some ∅ | None => True end.

Lemma length_bytes s : sizeZ (bytes s) = sizeZ s.
Proof. unfold bytes, sizeZ. by rewrite length_fmap. Qed.

Lemma add_file_represents calib file m name pms : Md5.represents m pms -> contribution_ok calib file name ->
  exists pms', add_file calib file name pms = Ok pms' /\ Md5.represents (m ++ bytes (contribution calib file name)) pms'.
Proof.
  intros Hr [Hsize Hrow]. unfold add_file, contribution in *. destruct calib as [GetCalib|].
  - destruct (GetCalib name) as [|vals rows]; [exists pms; by rewrite app_nil_r|].
    destruct (by_key vals) as [|[k xml] kvs] eqn:Hb.
    + exfalso. apply Hrow. cbn. f_equal. rewrite <- (by_key_map vals), Hb. done.
    + cbn in *. apply Md5.append_represents; [done|]. by rewrite length_bytes.
  - destruct (file name) as [content|]; [|exists pms; by rewrite app_nil_r]. cbn in *.
    rewrite u32_small by (pose proof (sizeZ_nonneg content); lia). replace (Z.to_nat (sizeZ content)) with (length content) by (unfold sizeZ; lia). rewrite firstn_all.
    apply Md5.append_represents; [done|]. by rewrite length_bytes.
Qed.

Lemma add_files_represents calib file names : forall m pms, Md5.represents m pms -> Forall (contribution_ok calib file) names ->
  exists pms', add_files calib file names pms = Ok pms' /\ Md5.represents (m ++ bytes (names ≫= contribution calib file)) pms'.
Proof.
  induction names as [|name names IH]; intros m pms Hr Hok; [exists pms; by rewrite app_nil_r|]. apply Forall_cons in Hok as [Hn Hok].
  cbn [add_files]. destruct (add_file_represents calib file m name pms Hr Hn) as (p1 & H1 & Hr1). rewrite H1.
  destruct (IH _ _ Hr1 Hok) as (p2 & H2 & Hr2). unfold mbind, outcome_bind. exists p2. split; [done|].
  rewrite bind_cons. unfold bytes. by rewrite fmap_app, app_assoc.
Qed.

(** The checksum of a geometry is the MD5 digest of RFC 1321, in hexadecimal, of the contents of its files one after the other:
    the file given first, then the entities in the order in which the parser asked for them, each found in the directory of the first. *)
Theorem checksum_is_digest_of_files calib file xmlfile systemIds r pms :
  resolve_all calib systemIds (new_resolver xmlfile) = Some r -> length (Md5.buf pms) = 64 ->
  Forall (contribution_ok calib file) (xmlfile :: (app (directory xmlfile) <$> systemIds)) ->
  GetMD5_checksum calib file r pms
    = Ok (hex_output (Md5.rfc_md5 (bytes ((xmlfile :: (app (directory xmlfile) <$> systemIds)) ≫= contribution calib file)))).
Proof.
  intros Hres Hbuf Hok.
  assert (Hnames : xml_filenames r = xmlfile :: (app (directory xmlfile) <$> systemIds)).
  { enough (H : forall ids r0, resolve_all calib ids r0 = Some r -> xml_filenames r = xml_filenames r0 ++ (app (path r0) <$> ids)) by (by rewrite (H _ _ Hres)).
    clear. induction ids as [|id ids IH]; intros r0 H; [injection H as ->; by rewrite app_nil_r|]. cbn [resolve_all] in H.
    assert (Hstep : forall r1, resolveEntity calib id r0 = Some r1 -> r1 = mkResolver (xml_filenames r0 ++ [path r0 ++ id]) (path r0)).
    { intros r1. unfold resolveEntity. destruct calib; [case_decide|]; congruence. }
    destruct (resolveEntity calib id r0) as [r1|]; [|done]. rewrite (IH _ H), (Hstep r1 eq_refl). cbn. by rewrite <- app_assoc. }
  unfold GetMD5_checksum. rewrite Hnames.
  destruct (add_files_represents calib file _ [] (Md5.md5_init pms) (Md5.init_represents pms Hbuf) Hok) as (p1 & H1 & Hr1).
  rewrite H1. unfold mbind, outcome_bind. rewrite (Md5.finish_represents _ _ Hr1). done.
Qed.

Lemma checksum_is_digest_of_files_witness :
  let file := fun name => if decide (name = chars "/geo/main.xml") then Some (chars "a")
                          else if decide (name = chars "/geo/cdc.xml") then Some (chars "bc") else None in
  GetMD5_checksum None file (mkResolver [chars "/geo/main.xml"; chars "/geo/cdc.xml"] (chars "/geo/")) (Md5.mkState 0 0 Md5.initial_abcd (replicate 64 0%Z))
    = Ok (chars "900150983cd24fb0d6963f7d28e17f72").
Proof.
  intros file.
  rewrite (checksum_is_digest_of_files None file (chars "/geo/main.xml") [chars "cdc.xml"]); [vm_compute; reflexivity..|].
  repeat (constructor; [split; [vm_compute; reflexivity|exact I]|]). constructor.
Defined.

(** ** Values that are written with delimiters are read back *)

Definition token_of (delimiter t : line) : Prop := t <> [] /\ Forall (fun c => c ∉ delimiter) t.
Definition gap_of (delimiter s : line) : Prop := s <> [] /\ Forall (fun c => c ∈ delimiter) s.

Lemma split_by_token delimiter t : forall buf rest, Forall (fun c => c ∉ delimiter) t ->
  split_by delimiter buf (t ++ rest) = split_by delimiter (buf ++ t) rest.
Proof.
  induction t as [|c t IH]; intros buf rest Ht; [by rewrite app_nil_r|]. apply Forall_cons in Ht as [Hc Ht].
  cbn [app split_by]. rewrite decide_False by done. rewrite IH by done. by rewrite <- app_assoc.
Qed.

Lemma split_by_gap delimiter s rest : Forall (fun c => c ∈ delimiter) s -> split_by delimiter [] (s ++ rest) = split_by delimiter [] rest.
Proof. induction 1 as [|c s Hc _ IH]; [done|]. cbn [app split_by]. rewrite decide_True by done. by rewrite decide_True. Qed.

(** Tokens with a gap of delimiters before each of them, and perhaps one behind the last. *)
Lemma split_by_reads delimiter gts s : Forall (fun gt => gap_of delimiter gt.1 /\ token_of delimiter gt.2) gts -> Forall (fun c => c ∈ delimiter) s ->
  split_by delimiter [] ((gts ≫= fun gt => gt.1 ++ gt.2) ++ s) = gts.*2.
Proof.
  intros Hg Hs. induction Hg as [|[g t] gts [[Hne Hgap] [Htne Ht]] Hall IH].
  - rewrite <- (app_nil_r s). cbn [mbind list_bind app fmap list_fmap]. by rewrite split_by_gap.
  - rewrite bind_cons, <- !app_assoc. cbn [fst snd] in *. rewrite split_by_gap, split_by_token by done. cbn [app fmap list_fmap].
    rewrite <- IH. destruct gts as [|[g' t'] gts].
    + cbn [mbind list_bind app]. destruct Hs as [|c s Hc Hs]; cbn [split_by]; [by rewrite decide_False|].
      rewrite (decide_True (P := c ∈ delimiter)), (decide_False (P := t = [])) by done. by rewrite decide_True.
    + apply Forall_cons in Hall as [[[Hne' Hgap'] _] _]. rewrite bind_cons, <- !app_assoc. cbn [fst snd] in *.
      destruct Hgap' as [|c g' Hc Hgap']; [done|]. cbn [app split_by].
      rewrite (decide_True (P := c ∈ delimiter)), (decide_False (P := t = [])) by done. by rewrite decide_True.
Qed.

(** ** Objects and their manager *)

Record JGeometry := mkJGeometry {
  url : line;
  run_requested : Z;
  context : line;
  run_range : option (Z * Z);
  xml : JGeometryXML;
  md5_checksum : line
}.

(** The object before a document is there: the pointers are null. *)
Definition no_document : JGeometryXML := mkJGeometryXML false (mkDOMNode 0 [] [] []) (mkDOMNode 0 [] [] []) ∅ ∅ false.

Section Manager.
Context (readable : line -> bool) (file : line -> option line) (database : Z -> line -> list (gmap line line)).
Context (parse_xml : line -> line -> DOMNode * DOMNode * list line).

(** The constructor of [JGeometryXML] with [Init]; [None] if the program exits.  Of an address that is neither a file nor in the
    database the range of runs stays uninitialised. *)
Definition JGeometryXML_new (u : line) (run : Z) (ctx : line) : outcome (option JGeometry) :=
  let made (calib : option (line -> list (gmap line line))) (xmlfile text : line) : outcome (option JGeometry) :=
    let '(d, root, systemIds) := parse_xml xmlfile text in
    match resolve_all calib systemIds (new_resolver xmlfile) with
    | None => Ok None
    | Some r =>
        md5 ← GetMD5_checksum calib file r (Md5.mkState 0 0 Md5.initial_abcd (replicate 64 0%Z));
        Ok (Some (mkJGeometry u run ctx (Some (run, run)) (Init d root) md5))
    end in
  let failed := Ok (Some (mkJGeometry u run ctx (Some (-1, -1)%Z) no_document [])) in
  if decide (take 10 u = chars "xmlfile://") then
    let xmlfile := drop 10 u in
    if negb (readable xmlfile) then failed else made None xmlfile []
  else if decide (take 7 u = chars "ccdb://") then
    let xmlfile := drop 7 u in
    match database run xmlfile with
    | [] => failed
    | vals :: _ =>
        match by_key vals with
        | [] => Undef
        | (_, text) :: _ => made (Some (database run)) xmlfile text
        end
    end
  else Ok (Some (mkJGeometry u run ctx None no_document [])).

Inductive Answer := Exited | DontKnowHow | GeometryAt (i : nat).

(** The range of runs of an object, compared with [(int) run_number]. *)
Definition covers (run : Z) (g : JGeometry) : Prop := match run_range g with Some (lo, hi) => (lo <= run <= hi)%Z | None => False end.

#[local] Instance covers_dec run g : Decision (covers run g).
Proof. unfold covers. destruct (run_range g) as [[lo hi]|]; apply _. Defined.

Definition GetJGeometry (env_url env_context : option line) (run_number : Z) : M (list JGeometry) Answer :=
  geometries ← get;
  match list_find (covers (i32 run_number)) geometries with
  | Some (i, _) => mret (GeometryAt i)
  | None =>
      let u := default (chars "file://./") env_url in
      let ctx := default (chars "default") env_context in
      if bool_decide (take 10 u = chars "xmlfile://") || bool_decide (take 7 u = chars "ccdb://") then
        made ← lift (JGeometryXML_new u (i32 run_number) ctx);
        match made with
        | None => mret Exited
        | Some g =>
            _ ← modify (fun l => l ++ [g]);
            mret (GeometryAt (length geometries))
        end
      else mret DontKnowHow
  end.

Fixpoint get_geometries (env_url env_context : option line) (runs : list Z) : M (list JGeometry) (list Answer) :=
  match runs with
  | [] => mret []
  | run :: runs => a ← GetJGeometry env_url env_context run; l ← get_geometries env_url env_context runs; mret (a :: l)
  end.

Lemma list_find_app_Some {A} (P : A -> Prop) `{forall x, Decision (P x)} (l k : list A) i x :
  list_find P l = Some (i, x) -> list_find P (l ++ k) = Some (i, x).
Proof.
  revert i x. induction l as [|y l IH]; intros i x H1; cbn in *; [done|]. case_decide; [done|].
  destruct (list_find P l) as [[j z]|]; simplify_eq/=. by rewrite (IH _ _ eq_refl).
Qed.

(** A call adds at most one object at the end of the list. *)
Lemma GetJGeometry_extends eu ec run l a l' : GetJGeometry eu ec run l = (Ok a, l') -> exists k, l' = l ++ k.
Proof.
  unfold GetJGeometry. rewrite M_bind_get. destruct (list_find _ l) as [[i g]|]; [intros [= _ <-]; exists []; by rewrite app_nil_r|].
  destruct (_ || _); [|intros [= _ <-]; exists []; by rewrite app_nil_r].
  unfold mbind at 1, M_bind at 1, lift. destruct (JGeometryXML_new _ _ _) as [[g|]| |]; [|intros [= _ <-]; exists []; by rewrite app_nil_r|done..].
  rewrite M_bind_modify. intros [= _ <-]. by exists [g].
Qed.

Lemma get_geometries_extends eu ec runs : forall l a l', get_geometries eu ec runs l = (Ok a, l') -> exists k, l' = l ++ k.
Proof.
  induction runs as [|run runs IH]; intros l a l' H; cbn [get_geometries] in H; [injection H as _ <-; exists []; by rewrite app_nil_r|].
  apply M_bind_inv in H as (a1 & l1 & H1 & H). apply M_bind_inv in H as (a2 & l2 & H2 & H). injection H as _ <-.
  apply GetJGeometry_extends in H1 as [k1 ->]. apply IH in H2 as [k2 ->]. exists (k1 ++ k2). by rewrite app_assoc.
Qed.

(** Geometry objects are shared: once a run has an object whose document could be read, every later call for the run returns the
    same object and makes none. *)
Lemma geometry_objects_are_shared eu ec run runs l l1 i g answers l2 :
  GetJGeometry eu ec run l = (Ok (GeometryAt i), l1) -> l1 !! i = Some g -> covers (i32 run) g ->
  get_geometries eu ec runs l1 = (Ok answers, l2) -> GetJGeometry eu ec run l2 = (Ok (GeometryAt i), l2).
Proof.
  intros H1 Hi Hg H2. apply get_geometries_extends in H2 as [k ->].
  assert (Hfind : list_find (covers (i32 run)) l1 = Some (i, g)).
  { revert H1. unfold GetJGeometry. rewrite M_bind_get. destruct (list_find (covers (i32 run)) l) as [[j g']|] eqn:Hf.
    - intros [= -> <-]. rewrite Hf. apply list_find_Some in Hf as (Hj & _ & _). congruence.
    - destruct (_ || _); [|done]. unfold mbind at 1, M_bind at 1, lift. destruct (JGeometryXML_new _ _ _) as [[g'|]| |]; [|done..].
      rewrite M_bind_modify. intros [= <- <-]. apply list_find_Some. split_and!; [done|done|].
      intros j y Hj Hlt. rewrite lookup_app_l in Hj by done. apply list_find_None in Hf. rewrite Forall_forall in Hf. apply Hf. by eapply list_elem_of_lookup_2. }
  unfold GetJGeometry. rewrite M_bind_get. by rewrite (list_find_app_Some _ _ k _ _ Hfind).
Qed.

(** An object whose document could not be read does not cover its run: every call for the run makes another one. *)
Lemma unreadable_geometry_is_made_again u run l : take 10 u = chars "xmlfile://" -> readable (drop 10 u) = false -> (0 <= run < 2 ^ 31)%Z ->
  list_find (covers run) l = None ->
  exists g, GetJGeometry (Some u) None run l = (Ok (GeometryAt (length l)), l ++ [g])
    /\ GetJGeometry (Some u) None run (l ++ [g]) = (Ok (GeometryAt (length (l ++ [g]))), (l ++ [g]) ++ [g]).
Proof.
  intros Hu Hr Hrun Hl. set (g := mkJGeometry u run (chars "default") (Some (-1, -1)%Z) no_document []).
  assert (Hnew : JGeometryXML_new u run (chars "default") = Ok (Some g)) by (unfold JGeometryXML_new; by rewrite decide_True, Hr).
  assert (Hone : forall k, list_find (covers run) k = None -> GetJGeometry (Some u) None run k = (Ok (GeometryAt (length k)), k ++ [g])).
  { intros k Hk. unfold GetJGeometry. rewrite M_bind_get, i32_small by lia. rewrite Hk. cbn [default from_option].
    rewrite bool_decide_eq_true_2 by done. cbn [orb]. by rewrite (M_bind_lift _ _ _ _ Hnew). }
  exists g. split; apply Hone; [done|]. apply list_find_None. apply list_find_None in Hl. apply Forall_app. split; [done|].
  apply Forall_singleton. unfold covers. cbn. lia.
Qed.

End Manager.

End Geometry.
