(* ===== verification/JPluginLoader.v ===== *)
(** * JPluginLoader: finding and attaching plugins

    Model of [Services/JPluginLoader.cc].  The file system and the dynamic linker are arguments: which files exist, and what
    happens when one is opened ([library]).  The [InitPlugin] of a plugin may ask for further plugins and paths, which
    it does in the order given, and may throw.  What is attached is written down.  The loop over plugins that add plugins has
    fuel for the number of its turns. *)

From stdpp Require Import sorting.
From Stdlib Require Import Ascii.
From S2P Require Import Prelude JParameterManager.
Import Parameters.
Local Open Scope Z_scope.

Module PluginLoader.

(** What the dynamic linker makes of a file. *)
Inductive Library :=
| CannotOpen (err : string)
| WithoutInit
| WithInit (requests : list Request) (result : outcome unit)
with Request := RequestPlugin (name : string) | RequestPath (path : string).

Record JPluginLoader := mkLoader {
  m_plugins_to_include : list string;
  m_plugins_to_exclude : list string;
  m_plugin_paths : list string;
  m_plugin_paths_str : string;
  m_verbose : bool;
  m_sohandles : gset string;
  current_plugin : option string;
  attached : list (string * string)
}.

Definition new_loader : JPluginLoader := mkLoader [] [] [] EmptyString false ∅ None [].

Definition set_include (l : list string) (s : JPluginLoader) : JPluginLoader :=
  mkLoader l (m_plugins_to_exclude s) (m_plugin_paths s) (m_plugin_paths_str s) (m_verbose s) (m_sohandles s) (current_plugin s) (attached s).
Definition set_paths (l : list string) (s : JPluginLoader) : JPluginLoader :=
  mkLoader (m_plugins_to_include s) (m_plugins_to_exclude s) l (m_plugin_paths_str s) (m_verbose s) (m_sohandles s) (current_plugin s) (attached s).
Definition set_current (p : string) (s : JPluginLoader) : JPluginLoader :=
  mkLoader (m_plugins_to_include s) (m_plugins_to_exclude s) (m_plugin_paths s) (m_plugin_paths_str s) (m_verbose s) (m_sohandles s) (Some p) (attached s).
Definition add_handle (f : string) (s : JPluginLoader) : JPluginLoader :=
  mkLoader (m_plugins_to_include s) (m_plugins_to_exclude s) (m_plugin_paths s) (m_plugin_paths_str s) (m_verbose s)
    ({[f]} ∪ m_sohandles s) (current_plugin s) (attached s).
Definition add_attached (plugin path : string) (s : JPluginLoader) : JPluginLoader :=
  mkLoader (m_plugins_to_include s) (m_plugins_to_exclude s) (m_plugin_paths s) (m_plugin_paths_str s) (m_verbose s) (m_sohandles s)
    (current_plugin s) (attached s ++ [(plugin, path)]).

Abbreviation MP := (M JPluginLoader).

(** [push_back] unless it is there. *)
Definition add_new (x : string) (l : list string) : list string := if decide (x ∈ l) then l else l ++ [x].

Definition add_plugin (plugin_name : string) : MP unit :=
  modify (fun s => set_include (add_new plugin_name (m_plugins_to_include s)) s).

Definition add_plugin_path (path : string) : MP unit :=
  modify (fun s => set_paths (add_new path (m_plugin_paths s)) s).

(** The pieces that [getline(ss, path, ':')] delivers. *)
Fixpoint pieces (buf : list ascii) (l : list ascii) : list (list ascii) :=
  match l with
  | [] => if decide (buf = []) then [] else [buf]
  | c :: l => if Ascii.eqb c ":" then buf :: pieces [] l else pieces (buf ++ [c]) l
  end.

Definition colon_separated (s : string) : list string := text <$> pieces [] (chars s).

(** [Init]: the parameters. *)
Definition set_options (include exclude : list string) (paths : string) (verbose : bool) (s : JPluginLoader) : JPluginLoader :=
  mkLoader include exclude (m_plugin_paths s) paths verbose (m_sohandles s) (current_plugin s) (attached s).

Definition Init (s : JPluginLoader) : M JParameterManager JPluginLoader :=
  include ← SetDefaultParameter "plugins" (m_plugins_to_include s) "Comma-separated list of plugins to load.";
  exclude ← SetDefaultParameter "plugins_to_ignore" (m_plugins_to_exclude s)
    "Comma-separated list of plugins to NOT load, even if they are specified in 'plugins'.";
  paths ← SetDefaultParameter "jana:plugin_path" (m_plugin_paths_str s) "Colon-separated list of paths to search for plugins";
  verbose ← SetDefaultParameter "jana:debug_plugin_loading" (m_verbose s)
    "Trace the plugin search path and display any loading errors";
  mret (set_options include exclude paths verbose s).

Section Loading.
(** The environment: variables, the installation directory, files and libraries. *)
Context (JANA_PLUGIN_PATH JANA_HOME : option string) (install_dir : string).
Context (exists_file : string -> bool) (library : string -> Library).

Definition resolve_plugin_paths : MP unit :=
  s ← get;
  _ ← add_plugin_path ".";
  _ ← for_each (colon_separated (m_plugin_paths_str s)) add_plugin_path;
  _ ← for_each (from_option colon_separated [] JANA_PLUGIN_PATH) add_plugin_path;
  _ ← (match JANA_HOME with
       | Some home => _ ← add_plugin_path (home +:+ "/plugins/JANA"); add_plugin_path (home +:+ "/plugins")
       | None => mret tt
       end);
  add_plugin_path (install_dir +:+ "/plugins").

Definition serve (r : Request) : MP unit :=
  match r with RequestPlugin name => add_plugin name | RequestPath path => add_plugin_path path end.

(** [attach_plugin] of the file [soname]. *)
Definition attach_plugin (soname : string) : MP unit :=
  match library soname with
  | CannotOpen err => throwM ("Plugin dlopen() failed: " +:+ err)
  | WithInit requests result =>
      _ ← for_each requests serve;
      _ ← lift result;
      modify (add_handle soname)
  | WithoutInit => mret tt
  end.

(** [plugin.substr(plugin.size() - 3)] of a name that is long enough. *)
Definition last_three (s : string) : string := String.substring (String.length s - 3) 3 s.

(** The part of a path after its last slash, and a file name without its last extension. *)
Fixpoint after_slash (acc l : list ascii) : list ascii :=
  match l with
  | [] => acc
  | c :: l => if Ascii.eqb c "/" then after_slash [] l else after_slash (acc ++ [c]) l
  end.

Fixpoint last_dot (i : nat) (l : list ascii) : option nat :=
  match l with
  | [] => None
  | c :: l => match last_dot (S i) l with Some j => Some j | None => if Ascii.eqb c "." then Some i else None end
  end.

Definition stem (l : list ascii) : list ascii :=
  if decide (l = [".";"."]%char) then l else
  match last_dot 0 l with Some (S i) => take (S i) l | _ => l end.

Definition shortname (fullname : string) : string := text (stem (after_slash [] (chars fullname))).

(** The first path from which the plugin can be loaded; exceptions are reported and the search goes on.  The loop runs over
    [m_plugin_paths] itself: if a plugin has added a path and then thrown, its iterators are invalid. *)
Fixpoint try_paths (plugin short full : string) (paths : list string) : MP bool :=
  match paths with
  | [] => mret false
  | path :: paths =>
      let fullpath := (path +:+ "/" +:+ full)%string in
      if exists_file fullpath then
        fun s =>
          match (_ ← modify (set_current short); attach_plugin fullpath) s with
          | (Ok _, s') => (Ok true, add_attached plugin fullpath s')
          | (Throw _, s') =>
              if decide (m_plugin_paths s' = m_plugin_paths s) then try_paths plugin short full paths s' else (Undef, s')
          | (Undef, s') => (Undef, s')
          end
      else try_paths plugin short full paths
  end.

(** One plugin. *)
Definition add_one (exclusions : list string) (plugin : string) : MP unit :=
  if (String.length plugin <? 3)%nat then lift (Throw (EStd "out_of_range"))
  else
    let full := if bool_decide (last_three plugin <> ".so"%string) then (plugin +:+ ".so")%string else plugin in
    let short := shortname full in
    if decide (short ∈ exclusions \/ full ∈ exclusions) then mret tt
    else
      paths ← gets m_plugin_paths;
      found ← try_paths plugin short full paths;
      if found : bool then mret tt else throwM ("Couldn't find plugin '" +:+ plugin +:+ "'").

(** The loop over plugins and over those that they add; [Undef] when the fuel is used up. *)
Fixpoint attach_loop (fuel : nat) (exclusions : list string) (inext : nat) : MP unit :=
  plugins ← gets m_plugins_to_include;
  if (inext <? length plugins)%nat then
    match fuel with
    | O => lift Undef
    | S fuel =>
        _ ← for_each (drop inext plugins) (add_one exclusions);
        attach_loop fuel exclusions (length plugins)
    end
  else mret tt.

Definition attach_plugins (fuel : nat) : MP unit :=
  _ ← resolve_plugin_paths;
  exclusions ← gets m_plugins_to_exclude;
  attach_loop fuel exclusions 0.

(** ** Everything that is asked for is attached *)

(** All plugins that can ever be asked for; an initialization that fails has not added a path. *)
Context (universe : list string).
Hypothesis library_ok : forall f requests r, library f = WithInit requests r ->
  r <> Undef /\ (forall n, RequestPlugin n ∈ requests -> n ∈ universe) /\
  (r <> Ok tt -> forall path, RequestPath path ∉ requests).

(** The list of plugins has grown at its end, by plugins that were not in it; nothing was attached. *)
Record grows (s s' : JPluginLoader) : Prop := {
  gr_include : exists new, m_plugins_to_include s' = m_plugins_to_include s ++ new /\
    Forall (fun n => n ∈ universe /\ n ∉ m_plugins_to_include s) new;
  gr_exclude : m_plugins_to_exclude s' = m_plugins_to_exclude s
}.

#[local] Instance grows_preorder : PreOrder grows.
Proof.
  split.
  - intros s. split; [|done]. exists []. by rewrite app_nil_r.
  - intros s1 s2 s3 [(n1 & E1 & F1) X1] [(n2 & E2 & F2) X2]. split; [|congruence]. exists (n1 ++ n2).
    split; [by rewrite E2, E1, app_assoc|]. apply Forall_app. split; [done|]. eapply Forall_impl; [exact F2|].
    intros n [Hu Hn]. rewrite E1 in Hn. split; [done|]. set_solver.
Qed.

Lemma grows_included s s' n : grows s s' -> n ∈ m_plugins_to_include s -> n ∈ m_plugins_to_include s'.
Proof. intros [(new & -> & _) _] Hn. apply elem_of_app. by left. Qed.

Lemma serve_grows r s : (forall n, r = RequestPlugin n -> n ∈ universe) ->
  exists s', serve r s = (Ok tt, s') /\ grows s s' /\ attached s' = attached s /\
    (forall n, r = RequestPlugin n -> n ∈ m_plugins_to_include s') /\
    ((forall p, r <> RequestPath p) -> m_plugin_paths s' = m_plugin_paths s).
Proof.
  intros Hu. destruct r as [n|p]; eexists; (split; [reflexivity|]).
  - unfold add_new. destruct (decide (n ∈ m_plugins_to_include s)) as [Hn|Hn]; (split; [split; [|done]|]); cbn.
    + exists []. by rewrite app_nil_r.
    + split_and!; [done|naive_solver|done].
    + exists [n]. split; [done|]. apply Forall_singleton. split; [by apply Hu|done].
    + split_and!; [done| |done]. intros n' [= ->]. apply elem_of_app. right. by apply list_elem_of_singleton.
  - split; [split; [|done]|]; cbn; [exists []; by rewrite app_nil_r|]. split_and!; [done|done|naive_solver].
Qed.

Lemma serve_all_grows rs s : (forall n, RequestPlugin n ∈ rs -> n ∈ universe) ->
  exists s', for_each rs serve s = (Ok tt, s') /\ grows s s' /\ attached s' = attached s /\
    (forall n, RequestPlugin n ∈ rs -> n ∈ m_plugins_to_include s') /\
    ((forall p, RequestPath p ∉ rs) -> m_plugin_paths s' = m_plugin_paths s).
Proof.
  revert s. induction rs as [|r rs IH]; intros s Hu; cbn [for_each].
  { exists s. split; [done|]. split; [reflexivity|]. split; [done|]. split; [set_solver|done]. }
  destruct (serve_grows r s) as (s1 & E1 & G1 & A1 & I1 & P1); [intros n ->; apply Hu; set_solver|]. mstep E1.
  destruct (IH s1) as (s2 & E2 & G2 & A2 & I2 & P2); [set_solver|]. exists s2. split; [done|].
  split; [by etrans|]. split; [congruence|]. split.
  - intros n [<-|Hn]%elem_of_cons; [|by apply I2]. eapply grows_included; [done|by apply I1].
  - intros Hp. rewrite P2 by set_solver. apply P1. intros p ->. by apply (Hp p), elem_of_cons; left.
Qed.

(** What an attached file has done. *)
Definition loaded (f : string) (s : JPluginLoader) : Prop :=
  exists_file f = true /\
  (library f = WithoutInit \/ exists requests, library f = WithInit requests (Ok tt) /\
     forall n, RequestPlugin n ∈ requests -> n ∈ m_plugins_to_include s).

(** A file that exists, can be opened and whose initialization, if it has one, succeeds. *)
Definition loads (f : string) : Prop :=
  exists_file f = true /\ (library f = WithoutInit \/ exists requests, library f = WithInit requests (Ok tt)).

Lemma attach_plugin_grows f s : match attach_plugin f s with
  | (Ok _, s') => grows s s' /\ attached s' = attached s /\ (exists_file f = true -> loaded f s')
  | (Throw _, s') => grows s s' /\ attached s' = attached s /\ m_plugin_paths s' = m_plugin_paths s /\ ~ loads f
  | (Undef, _) => False
  end.
Proof.
  unfold attach_plugin. destruct (library f) as [err| |rs r] eqn:L.
  - split; [reflexivity|]. split; [done|]. split; [done|]. intros [_ [H|[rs H]]]; congruence.
  - split; [reflexivity|]. split; [done|]. intros Hf. split; [done|by left].
  - destruct (library_ok f rs r L) as (Hu & Hn & Hp). destruct (serve_all_grows rs s Hn) as (s1 & E1 & G1 & A1 & I1 & P1).
    mstep E1. destruct r as [[]|e|]; [| |done].
    + cbn. split; [etrans; [exact G1|]; split; [|done]; exists []; by rewrite app_nil_r|]. split; [done|]. intros Hf. split; [done|].
      right. by exists rs.
    + split; [done|]. split; [done|]. split; [by apply P1, Hp|]. intros [_ [H|[rs' H]]]; congruence.
Qed.

Lemma loaded_grows f s s' : grows s s' -> loaded f s -> loaded f s'.
Proof.
  intros G [Hf [H|(rs & H & Hn)]]; (split; [done|]); [by left|]. right. exists rs. split; [done|].
  intros n Hr. eapply grows_included; [done|by apply Hn].
Qed.

(** A plugin has been attached, or not. *)
Lemma try_paths_spec plugin short full paths s : match try_paths plugin short full paths s with
  | (Ok true, s') => grows s s' /\ exists f, attached s' = attached s ++ [(plugin, f)] /\ loaded f s'
  | (Ok false, s') => grows s s' /\ attached s' = attached s /\ m_plugin_paths s' = m_plugin_paths s /\
      forall path, path ∈ paths -> ~ loads (path +:+ "/" +:+ full)
  | (Throw _, _) | (Undef, _) => False
  end.
Proof.
  revert s. induction paths as [|path paths IH]; intros s; cbn [try_paths].
  { split; [reflexivity|]. split; [done|]. split; [done|]. by intros path ?%not_elem_of_nil. }
  set (f := (path +:+ "/" +:+ full)%string). destruct (exists_file f) eqn:Hf.
  2: { specialize (IH s). destruct (try_paths plugin short full paths s) as [[[]|e'|] s2]; [done| |done|done].
       destruct IH as (G & A & P & N). split_and!; [done..|]. intros q [->|Hq]%elem_of_cons; [|by apply N]. intros [He _]. fold f in He. congruence. }
  rewrite M_bind_modify.
  assert (G0 : grows s (set_current short s)) by (split; [exists []; by rewrite app_nil_r|done]).
  pose proof (attach_plugin_grows f (set_current short s)) as A. destruct (attach_plugin f (set_current short s)) as [[[]|e|] s1].
  - destruct A as (G & HA & HL). split; [etrans; [exact G0|]; etrans; [exact G|]; split; [exists []; by rewrite app_nil_r|done]|].
    exists f. split; [cbn; by rewrite HA|]. destruct (HL Hf) as [Hf' H]. by split.
  - destruct A as (G & HA & HP & HN). rewrite decide_True by done. specialize (IH s1).
    destruct (try_paths plugin short full paths s1) as [[[]|e'|] s2]; [..|done|done]; cbn in HA, HP; rewrite HA in IH.
    + destruct IH as [G2 IH]. split; [etrans; [exact G0|]; by etrans|done].
    + destruct IH as (G2 & A2 & P2 & N2). split_and!; [etrans; [exact G0|]; by etrans|done|congruence|].
      intros q [->|Hq]%elem_of_cons; [exact HN|by apply N2].
  - done.
Qed.

(** The file name of a plugin, and whether it is to be ignored. *)
Definition file_name (plugin : string) : string :=
  if bool_decide (last_three plugin <> ".so"%string) then (plugin +:+ ".so")%string else plugin.
Definition ignored (exclusions : list string) (plugin : string) : Prop :=
  shortname (file_name plugin) ∈ exclusions \/ file_name plugin ∈ exclusions.

#[export] Instance ignored_dec ex p : Decision (ignored ex p).
Proof. unfold ignored. apply _. Qed.

(** The plugins [ps] have been dealt with, in their order. *)
Record attaches (ex ps : list string) (s s' : JPluginLoader) : Prop := {
  at_grows : grows s s';
  at_list : exists fs, attached s' = attached s ++ fs /\ fs.*1 = filter (fun p => ~ ignored ex p) ps /\
    Forall (fun pf => loaded pf.2 s') fs
}.

Lemma attaches_trans ex ps qs s1 s2 s3 : attaches ex ps s1 s2 -> attaches ex qs s2 s3 -> attaches ex (ps ++ qs) s1 s3.
Proof.
  intros [G1 (f1 & A1 & N1 & L1)] [G2 (f2 & A2 & N2 & L2)]. split; [by etrans|]. exists (f1 ++ f2).
  split; [by rewrite A2, A1, app_assoc|]. split; [by rewrite fmap_app, filter_app, N1, N2|]. apply Forall_app. split; [|done].
  eapply Forall_impl; [exact L1|]. intros pf. by apply loaded_grows.
Qed.

(** Why the plugin [p] makes the search end with the exception [e]: its name is too short, or no path delivers it. *)
Definition undelivered (ex : list string) (p : string) (e : exn) (s : JPluginLoader) : Prop :=
  (String.length p < 3)%nat /\ e = EStd "out_of_range" \/
  ~ ignored ex p /\ e = EJ (mkex ("Couldn't find plugin '" +:+ p +:+ "'")) /\
  forall path, path ∈ m_plugin_paths s -> ~ loads (path +:+ "/" +:+ file_name p).

(** A call that returned has attached what it should; one that throws has attached what comes before the plugin that it throws for. *)
Definition attaches_or_throws (ex ps : list string) (s : JPluginLoader) (r : outcome unit * JPluginLoader) : Prop :=
  match r with
  | (Ok _, s') => attaches ex ps s s'
  | (Throw e, s') => exists before p after, ps = before ++ p :: after /\ attaches ex before s s' /\ undelivered ex p e s'
  | (Undef, _) => False
  end.

Lemma attaches_none ex s s' : grows s s' -> attached s' = attached s -> attaches ex [] s s'.
Proof. intros G A. split; [done|]. exists []. by rewrite A, app_nil_r. Qed.

Lemma add_one_attaches ex p s : attaches_or_throws ex [p] s (add_one ex p s).
Proof.
  unfold add_one. destruct (Nat.ltb_spec (String.length p) 3) as [Hl|Hl].
  { exists [], p, []. split; [done|]. split; [by apply attaches_none|]. by left. }
  fold (file_name p). destruct (decide (_ \/ _)) as [Hi|Hi]; fold (ignored ex p) in Hi.
  { split; [reflexivity|]. exists []. rewrite app_nil_r. split; [done|]. rewrite filter_cons_False by naive_solver. done. }
  rewrite M_bind_gets. unfold mbind, M_bind.
  pose proof (try_paths_spec p (shortname (file_name p)) (file_name p) (m_plugin_paths s) s) as T.
  destruct (try_paths p (shortname (file_name p)) (file_name p) (m_plugin_paths s) s) as [[[]|e|] s1]; [| |done|done].
  - destruct T as (G & f & A & L). split; [done|]. exists [(p, f)]. split; [done|].
    split; [by rewrite filter_cons_True by done|by apply Forall_singleton].
  - destruct T as (G & A & P & N). exists [], p, []. split; [done|]. split; [by apply attaches_none|]. right. by rewrite P.
Qed.

Lemma add_all_attaches ex ps s : attaches_or_throws ex ps s (for_each ps (add_one ex) s).
Proof.
  revert s. induction ps as [|p ps IH]; intros s; cbn [for_each]; [by apply attaches_none|].
  pose proof (add_one_attaches ex p s) as O. unfold mbind, M_bind. destruct (add_one ex p s) as [[[]|e|] s1]; [| |done].
  - specialize (IH s1). destruct (for_each ps (add_one ex) s1) as [[[]|e|] s2]; [| |done].
    + by apply (attaches_trans ex [p] ps s s1 s2).
    + destruct IH as (before & q & after & -> & A & U). exists (p :: before), q, after. split; [done|]. split; [|done].
      by apply (attaches_trans ex [p] before s s1 s2).
  - destruct O as (before & q & after & E & A & U). destruct before as [|? []]; simplify_list_eq. by exists [], q, ps.
Qed.

(** The plugins that have not been asked for yet. *)
Definition missing (s : JPluginLoader) : nat := length (filter (fun n => n ∉ m_plugins_to_include s) universe).

Lemma missing_shrinks s s' : grows s s' -> m_plugins_to_include s' <> m_plugins_to_include s -> (missing s' < missing s)%nat.
Proof.
  intros [(new & E & F) _] Hne. destruct new as [|n new]; [by rewrite app_nil_r in E|].
  apply Forall_cons in F as [[Hu Hn] _]. unfold missing. rewrite E. clear -Hu Hn.
  assert (Hle : forall l, (length (filter (fun x => x ∉ m_plugins_to_include s ++ n :: new) l) <=
      length (filter (fun x => x ∉ m_plugins_to_include s) l))%nat).
  { intros l. induction l as [|x l IH]; [done|]. rewrite !filter_cons. repeat case_decide; cbn; [lia|set_solver|lia|lia]. }
  induction universe as [|x u IH]; [by apply elem_of_nil in Hu|]. rewrite !filter_cons.
  apply elem_of_cons in Hu as [<-|Hu].
  - rewrite decide_False, decide_True by set_solver. cbn. specialize (Hle u). lia.
  - specialize (IH Hu). repeat case_decide; cbn; [lia|set_solver|lia|lia].
Qed.

Lemma attach_loop_attaches fuel ex inext s : (missing s < fuel)%nat ->
  match attach_loop fuel ex inext s with
  | (Ok _, s') => exists rest, m_plugins_to_include s' = m_plugins_to_include s ++ rest /\
      attaches ex (drop inext (m_plugins_to_include s) ++ rest) s s'
  | (Throw e, s') => exists before p after, m_plugins_to_include s' = take inext (m_plugins_to_include s) ++ before ++ p :: after /\
      attaches ex before s s' /\ undelivered ex p e s'
  | (Undef, _) => False
  end.
Proof.
  revert inext s. induction fuel as [|fuel IH]; intros inext s Hf; [lia|]. cbn [attach_loop]. rewrite M_bind_gets.
  destruct (Nat.ltb_spec inext (length (m_plugins_to_include s))) as [Hi|Hi].
  2: { exists []. rewrite drop_ge, app_nil_r by lia. split; [done|]. split; [reflexivity|]. exists []. by rewrite app_nil_r. }
  pose proof (add_all_attaches ex (drop inext (m_plugins_to_include s)) s) as A. unfold mbind, M_bind.
  destruct (for_each _ _ s) as [[[]|e|] s1]; [| |done].
  2: { destruct A as (before & p & after & E & A & U). destruct (gr_include _ _ (at_grows _ _ _ _ A)) as (new & E1 & _).
       exists before, p, (after ++ new). split; [|done]. rewrite E1, <- (take_drop inext (m_plugins_to_include s)) at 1. rewrite E. by rewrite <- !app_assoc. }
  cbn in A. destruct (gr_include _ _ (at_grows _ _ _ _ A)) as (new & E & _).
  destruct (decide (new = [])) as [->|Hnew].
  - rewrite app_nil_r in E.
    assert (R : attach_loop fuel ex (length (m_plugins_to_include s)) s1 = (Ok tt, s1)).
    { destruct fuel; cbn [attach_loop]; rewrite M_bind_gets, E; by rewrite (proj2 (Nat.ltb_ge _ _)) by lia. }
    rewrite R. exists []. rewrite !app_nil_r. by split.
  - assert (Hm : (missing s1 < missing s)%nat).
    { apply missing_shrinks; [apply (at_grows _ _ _ _ A)|]. rewrite E. intros H. apply Hnew. rewrite <- (app_nil_r (m_plugins_to_include s)) in H at 2.
      by apply app_inv_head in H. }
    specialize (IH (length (m_plugins_to_include s)) s1 ltac:(lia)).
    destruct (attach_loop fuel ex (length (m_plugins_to_include s)) s1) as [[[]|e|] s2]; [| |done].
    2: { destruct IH as (before & p & after & E2 & A2 & U). exists (drop inext (m_plugins_to_include s) ++ before), p, after.
         split; [|split; [by eapply attaches_trans|done]]. rewrite E2, E, take_app_length, <- (take_drop inext (m_plugins_to_include s)) at 1. by rewrite <- !app_assoc. }
    destruct IH as (rest & E2 & A2). exists (new ++ rest). split; [by rewrite E2, E, app_assoc|].
    rewrite E, drop_app_length in A2. rewrite app_assoc, <- (app_assoc _ new rest). by eapply attaches_trans.
Qed.

(** Paths are added and nothing else changes. *)
Definition paths_only (s s' : JPluginLoader) : Prop :=
  m_plugins_to_include s' = m_plugins_to_include s /\ m_plugins_to_exclude s' = m_plugins_to_exclude s /\ attached s' = attached s.

#[local] Instance paths_only_preorder : PreOrder paths_only.
Proof. unfold paths_only. split; [by intros s|]. intros s1 s2 s3. naive_solver congruence. Qed.

Lemma add_path_returns p s : add_plugin_path p s = (Ok tt, set_paths (add_new p (m_plugin_paths s)) s).
Proof. done. Qed.

Lemma add_paths_only ps s : exists s', for_each ps add_plugin_path s = (Ok tt, s') /\ paths_only s s'.
Proof.
  revert s. induction ps as [|p ps IH]; intros s; cbn [for_each]; [by exists s|].
  mstep (add_path_returns p s). destruct (IH (set_paths (add_new p (m_plugin_paths s)) s)) as (s' & E & P).
  by exists s'.
Qed.

Lemma resolve_paths_only s : exists s', resolve_plugin_paths s = (Ok tt, s') /\ paths_only s s'.
Proof.
  unfold resolve_plugin_paths. rewrite M_bind_get. mstep (add_path_returns "." s). set (s0 := set_paths _ s).
  destruct (add_paths_only (colon_separated (m_plugin_paths_str s)) s0) as (s1 & E1 & P1). mstep E1.
  destruct (add_paths_only (from_option colon_separated [] JANA_PLUGIN_PATH) s1) as (s2 & E2 & P2). mstep E2.
  assert (P : paths_only s s2) by (transitivity s1; [exact P1|exact P2]).
  destruct JANA_HOME as [home|]; eexists; (split; [reflexivity|]); exact P.
Qed.


End Loading.

(** ** Examples *)

(** A file system with two plugins in the current directory; the first asks for the second. *)
Definition two_files (f : string) : bool := bool_decide (f ∈ ["./first.so"; "./second.so"; "./third.so"]%string).
Definition two_libraries (f : string) : Library :=
  if bool_decide (f = "./first.so"%string) then WithInit [RequestPlugin "second"; RequestPlugin "third"] (Ok tt)
  else if bool_decide (f = "./second.so"%string) then WithInit [RequestPlugin "first"] (Ok tt) else WithoutInit.

Definition asked : JPluginLoader := mkLoader ["first"%string] ["third"%string] [] EmptyString false ∅ None [].

Definition after_asked : JPluginLoader := (attach_plugins None None "/usr" two_files two_libraries 5 asked).2.


(** A name of fewer than three characters ends the loading of plugins with an exception of the string library. *)
Lemma short_name_throws ex_file lib ex : add_one ex_file lib ex "ab" new_loader = (Throw (EStd "out_of_range"), new_loader).
Proof. done. Qed.

(** A plugin that is listed twice, or with and without its suffix, is initialized twice. *)
Lemma listed_twice_attached_twice :
  (attached (attach_plugins None None "/usr" two_files two_libraries 5
     (mkLoader ["third"; "third.so"; "third"]%string [] [] EmptyString false ∅ None [])).2).*2 =
  ["./third.so"; "./third.so"; "./third.so"]%string.
Proof. vm_compute. reflexivity. Qed.

End PluginLoader.
