(* ===== verification/JOmniFactory.v ===== *)
(** * JOmniFactory: factories with declared inputs and outputs

    Model of [Omni/JHasInputs.h], [Omni/JHasRunCallbacks.h] and [Omni/JOmniFactory.h] (without the PODIO variants, whose
    collections belong to another library).  An input or output is its description and the pointers it holds; the names that a
    wiring gives are distributed over them in their order of declaration.  The event is an argument: its level, its parents,
    and what a request for a collection delivers ([fetch]).  The user's [Execute] maps the data of the inputs and what is in
    the outputs to new contents of the outputs, or throws. *)

From S2P Require Import Prelude JEvent JParameterManager.
Import Event Parameters.
Local Open Scope Z_scope.

Module Omni.

Record InputBase := mkInput {
  i_type_name : string;
  names : list string;
  levels : list JEventLevel;
  i_is_variadic : bool;
  is_optional : bool;
  i_data : list Z
}.

Record InputOptions := mkInputOptions { o_name : string; o_level : JEventLevel; o_is_optional : bool }.
Record VariadicInputOptions := mkVariadicOptions { v_names : list string; v_levels : list JEventLevel; v_is_optional : bool }.

Definition Configure (options : InputOptions) (input : InputBase) : InputBase :=
  mkInput (i_type_name input) [o_name options] [o_level options] (i_is_variadic input) (o_is_optional options) (i_data input).

Definition ConfigureVariadic (options : VariadicInputOptions) (input : InputBase) : outcome InputBase :=
  if negb (i_is_variadic input) then throwJ "Setting variadic options on non-variadic input"
  else if (length (v_levels options) =? length (v_names options))%nat then
    Ok (mkInput (i_type_name input) (v_names options) (v_levels options) (i_is_variadic input) (v_is_optional options) (i_data input))
  else if (length (v_levels options) =? 0)%nat then
    Ok (mkInput (i_type_name input) (v_names options) (levels input ++ replicate (length (v_names options)) NoLevel)
          (i_is_variadic input) (v_is_optional options) (i_data input))
  else throwJ "Wrong number of levels provided!".

(** The constructors of [Input<T>]. *)
Definition new_input (type_name : string) : InputBase := mkInput type_name [] [] false false [].
Definition new_input_with (type_name : string) (options : InputOptions) : InputBase := Configure options (new_input type_name).

Record OutputBase := mkOutput {
  o_type_name : string;
  collection_names : list string;
  o_is_variadic : bool;
  o_data : list Z
}.

(** The constructor of [Output<T>]. *)
Definition new_output (type_name default_tag_name : string) : OutputBase := mkOutput type_name [default_tag_name] false [].

(** ** Wiring *)

(** [FindVariadicCollectionCount]; the name of the factory is left out of the messages. *)
Definition FindVariadicCollectionCount (total_input_count variadic_input_count total_collection_count : Z) : outcome Z :=
  let variadic_collection_count := u64 (total_collection_count - u64 (total_input_count - variadic_input_count)) in
  if variadic_input_count =? 0 then
    if negb (total_input_count =? total_collection_count) then throwJ "Wrong number of collection names"
    else Ok variadic_collection_count
  else if total_collection_count <? u64 (total_input_count - variadic_input_count) then throwJ "Not enough collection names"
  else if negb (variadic_collection_count mod variadic_input_count =? 0) then throwJ "Wrong number of collection names"
  else Ok variadic_collection_count.

Definition at_index {A} (l : list A) (i : nat) : outcome A := match l !! i with Some x => Ok x | None => Undef end.

(** One name for an input, and its level; [i] is the index that both use. *)
Definition wire_name (level : JEventLevel) (ns : list string) (ls : list JEventLevel) (st : InputBase * nat) : outcome (InputBase * nat) :=
  let '(input, i) := st in
  name ← at_index ns i;
  let i := S i in
  '(lvl, i) ← (match ls with [] => Ok (level, i) | _ => l ← at_index ls i; Ok (l, S i) end);
  Ok (mkInput (i_type_name input) (names input ++ [name]) (levels input ++ [lvl]) (i_is_variadic input) (is_optional input) (i_data input), i).

Fixpoint wire_names (n : nat) (level : JEventLevel) (ns : list string) (ls : list JEventLevel) (st : InputBase * nat)
    : outcome (InputBase * nat) :=
  match n with
  | O => Ok st
  | S n => st ← wire_name level ns ls st; wire_names n level ns ls st
  end.

Definition clear_names (input : InputBase) : InputBase :=
  mkInput (i_type_name input) [] (levels input) (i_is_variadic input) (is_optional input) (i_data input).

(** The loop over the inputs; a variadic input gets [per] names. *)
Fixpoint wire_inputs (per : nat) (level : JEventLevel) (ns : list string) (ls : list JEventLevel) (inputs : list InputBase) (i : nat)
    : outcome (list InputBase) :=
  match inputs with
  | [] => Ok []
  | input :: inputs =>
      '(input, i) ← wire_names (if i_is_variadic input then per else 1%nat) level ns ls (clear_names input, i);
      rest ← wire_inputs per level ns ls inputs i;
      Ok (input :: rest)
  end.

Fixpoint output_names (n : nat) (ns : list string) (i : nat) : outcome (list string) :=
  match n with
  | O => Ok []
  | S n => name ← at_index ns i; rest ← output_names n ns (S i); Ok (name :: rest)
  end.

(** The loop over the outputs; each also declares its helper factories, here by their names. *)
Fixpoint wire_outputs (per : nat) (ns : list string) (outputs : list OutputBase) (i : nat) : outcome (list OutputBase) :=
  match outputs with
  | [] => Ok []
  | output :: outputs =>
      let n := if o_is_variadic output then per else 1%nat in
      mine ← output_names n ns i;
      rest ← wire_outputs per ns outputs (i + n);
      Ok (mkOutput (o_type_name output) mine (o_is_variadic output) (o_data output) :: rest)
  end.

Record JOmniFactory := mkOmni { m_inputs : list InputBase; m_outputs : list OutputBase; m_level : JEventLevel; o_prefix : string }.

Definition variadic_inputs (inputs : list InputBase) : list InputBase := filter (fun x => i_is_variadic x = true) inputs.
Definition variadic_outputs (outputs : list OutputBase) : list OutputBase := filter (fun x => o_is_variadic x = true) outputs.

(** [count / variadic], which is not computed if nothing is variadic. *)
Definition share (count variadic : Z) : nat := if variadic =? 0 then 0%nat else Z.to_nat (count / variadic).

(** [PreInit]; the logger is left out, as is what the factory is after an exception. *)
Definition PreInit (plugin_name tag : string) (level : JEventLevel) (input_names : list string) (input_levels : list JEventLevel)
    (output_names : list string) (fac : JOmniFactory) : M JParameterManager JOmniFactory :=
  let prefix := (if bool_decide (plugin_name = EmptyString) then tag else plugin_name +:+ ":" +:+ tag)%string in
  input_names ← SetDefaultParameter (prefix +:+ ":InputTags") input_names "Input collection names";
  output_names ← SetDefaultParameter (prefix +:+ ":OutputTags") output_names "Output collection names";
  let vi := sizeZ (variadic_inputs (m_inputs fac)) in
  ci ← lift (FindVariadicCollectionCount (sizeZ (m_inputs fac)) vi (sizeZ input_names));
  inputs ← lift (wire_inputs (share ci vi) level input_names input_levels (m_inputs fac) 0);
  let vo := sizeZ (variadic_outputs (m_outputs fac)) in
  co ← lift (FindVariadicCollectionCount (sizeZ (m_outputs fac)) vo (sizeZ output_names));
  outputs ← lift (wire_outputs (share co vo) output_names (m_outputs fac) 0);
  mret (mkOmni inputs outputs level prefix).

(** ** Processing an event *)

Section Processing.
(** The event: its level, which parents it has, and what its collections are; [None] stands for the event itself. *)
Context (event_level : JEventLevel) (has_parent : JEventLevel -> bool).
Context (fetch : option JEventLevel -> string -> string -> bool -> outcome (list Z)).

Definition set_data (d : list Z) (input : InputBase) : InputBase :=
  mkInput (i_type_name input) (names input) (levels input) (i_is_variadic input) (is_optional input) d.

Definition GetCollection (input : InputBase) : outcome InputBase :=
  level ← at_index (levels input) 0;
  if bool_decide (level = event_level \/ level = NoLevel) then
    name ← at_index (names input) 0;
    d ← fetch None (i_type_name input) name (negb (is_optional input));
    Ok (set_data d input)
  else if is_optional input && negb (has_parent level) then Ok input
  else
    name ← at_index (names input) 0;
    d ← fetch (Some level) (i_type_name input) name (negb (is_optional input));
    Ok (set_data d input).

(** The inputs, up to the first that fails. *)
Fixpoint get_all (inputs : list InputBase) : outcome unit * list InputBase :=
  match inputs with
  | [] => (Ok tt, [])
  | input :: inputs =>
      match GetCollection input with
      | Ok input => let '(r, inputs) := get_all inputs in (r, input :: inputs)
      | Throw e => (Throw e, input :: inputs)
      | Undef => (Undef, input :: inputs)
      end
  end.

(** [Output<T>::Reset] and [SetCollection]: what is published under which type and name. *)
Definition Reset (output : OutputBase) : OutputBase := output.
Definition SetCollection (output : OutputBase) : outcome (string * string * list Z) :=
  name ← at_index (collection_names output) 0; Ok (o_type_name output, name, o_data output).

Fixpoint publish (outputs : list OutputBase) : outcome (list (string * string * list Z)) :=
  match outputs with
  | [] => Ok []
  | output :: outputs => x ← SetCollection output; rest ← publish outputs; Ok (x :: rest)
  end.

(** [catch (std::exception& e) { throw JException(e.what()); }]. *)
Definition rewrap (e : exn) : exn :=
  match e with
  | EJ ex => EJ (mkex (message ex))
  | EStd what => EJ (mkex what)
  | e => e
  end.

(** The user's code: how it ends, and the contents of the outputs then. *)
Context (Execute : list (list Z) -> list (list Z) -> outcome unit * list (list Z)).

Definition set_inputs (inputs : list InputBase) (fac : JOmniFactory) : JOmniFactory :=
  mkOmni inputs (m_outputs fac) (m_level fac) (o_prefix fac).
Definition set_outputs (outputs : list OutputBase) (fac : JOmniFactory) : JOmniFactory :=
  mkOmni (m_inputs fac) outputs (m_level fac) (o_prefix fac).
Definition fill (ds : list (list Z)) (outputs : list OutputBase) : list OutputBase :=
  zip_with (fun o d => mkOutput (o_type_name o) (collection_names o) (o_is_variadic o) d) outputs ds.

(** The body of the [try] block: what is published. *)
Definition process_body : M JOmniFactory (list (string * string * list Z)) :=
  fac ← get;
  let '(r, inputs) := get_all (m_inputs fac) in
  _ ← modify (set_inputs inputs);
  _ ← lift r;
  _ ← modify (fun fac => set_outputs (Reset <$> m_outputs fac) fac);
  fac ← get;
  let '(r, ds) := Execute (i_data <$> m_inputs fac) (o_data <$> m_outputs fac) in
  _ ← modify (fun fac => set_outputs (fill ds (m_outputs fac)) fac);
  _ ← lift r;
  fac ← get;
  lift (publish (m_outputs fac)).

Definition Process : M JOmniFactory (list (string * string * list Z)) := fun fac =>
  match process_body fac with
  | (Throw e, fac') => (Throw (rewrap e), fac')
  | r => r
  end.

End Processing.

(** ** Names are distributed evenly and in order *)

(** The number of names fits the declarations. *)
Definition fits (total variadic n : Z) : Prop :=
  if variadic =? 0 then total = n else total - variadic <= n /\ (n - (total - variadic)) mod variadic = 0.

#[export] Instance fits_dec total variadic n : Decision (fits total variadic n).
Proof. unfold fits. destruct (variadic =? 0); apply _. Defined.

(** What an input has after wiring. *)
Definition wired (per : nat) (level : JEventLevel) (input input' : InputBase) : Prop :=
  length (names input') = (if i_is_variadic input then per else 1%nat) /\
  levels input' = levels input ++ replicate (length (names input')) level /\
  i_type_name input' = i_type_name input /\ i_is_variadic input' = i_is_variadic input /\ is_optional input' = is_optional input.

Lemma wire_names_spec n level ns input i : (i + n <= length ns)%nat ->
  exists input', wire_names n level ns [] (input, i) = Ok (input', (i + n)%nat) /\
    names input' = names input ++ take n (drop i ns) /\ levels input' = levels input ++ replicate n level /\
    i_type_name input' = i_type_name input /\ i_is_variadic input' = i_is_variadic input /\ is_optional input' = is_optional input.
Proof.
  revert input i. induction n as [|n IH]; intros input i Hn; cbn [wire_names].
  { exists input. rewrite Nat.add_0_r, take_0, !app_nil_r. done. }
  destruct (lookup_lt_is_Some_2 ns i) as [name Hname]; [lia|]. unfold wire_name, at_index. rewrite Hname. cbn.
  set (input1 := mkInput _ _ _ _ _ _). destruct (IH input1 (S i)) as (input' & E & Hns & Hls & Ht & Hv & Ho); [lia|].
  exists input'. rewrite E, Hns, Hls. cbn. rewrite <- !app_assoc. split; [f_equal; f_equal; lia|]. 
  rewrite (drop_S ns name i Hname). done.
Qed.

(** How many names a list of inputs takes. *)
Fixpoint need (per : nat) (inputs : list InputBase) : nat :=
  match inputs with [] => 0 | x :: inputs => (if i_is_variadic x then per else 1) + need per inputs end.

Lemma need_count per inputs : Z.of_nat (need per inputs) =
  sizeZ inputs - sizeZ (variadic_inputs inputs) + sizeZ (variadic_inputs inputs) * Z.of_nat per.
Proof.
  induction inputs as [|x inputs IH]; [done|]. unfold variadic_inputs in *. rewrite filter_cons. cbn [need].
  destruct (i_is_variadic x); [rewrite decide_True by done|rewrite decide_False by done]; rewrite ?sizeZ_cons; lia.
Qed.

Lemma wire_inputs_spec per level ns inputs i : (i + need per inputs <= length ns)%nat ->
  exists inputs', wire_inputs per level ns [] inputs i = Ok inputs' /\ Forall2 (wired per level) inputs inputs' /\
    concat (names <$> inputs') = take (need per inputs) (drop i ns).
Proof.
  revert i. induction inputs as [|x inputs IH]; intros i Hn; cbn [wire_inputs].
  { exists []. by rewrite take_0. }
  cbn [need] in Hn |- *.
  set (n := if i_is_variadic x then per else 1%nat) in *.
  destruct (wire_names_spec n level ns (clear_names x) i) as (x' & E & Hns & Hls & Ht & Hv & Ho); [lia|]. rewrite E. cbn.
  destruct (IH (i + n)%nat) as (inputs' & E' & F & C); [lia|]. rewrite E'. cbn. exists (x' :: inputs'). split; [done|].
  cbn in Hns, Hls. assert (Hl : length (names x') = n) by (rewrite Hns, length_take, length_drop; lia). split.
  - constructor; [|done]. unfold wired. rewrite Hl. done.
  - rewrite fmap_cons. cbn [concat]. rewrite C, Hns. cbn [app].
    rewrite <- drop_drop. apply take_take_drop.
Qed.

Lemma variadic_bound inputs : 0 <= sizeZ (variadic_inputs inputs) <= sizeZ inputs.
Proof. unfold sizeZ, variadic_inputs. pose proof (length_filter (fun x => i_is_variadic x = true) inputs). lia. Qed.

(** The check accepts exactly the numbers that fit. *)
Lemma count_check total v n : 0 <= v <= total -> total < 2 ^ 63 -> 0 <= n < 2 ^ 63 ->
  if bool_decide (fits total v n) then exists c, FindVariadicCollectionCount total v n = Ok c /\ (v <> 0 -> c = n - (total - v))
  else exists e, FindVariadicCollectionCount total v n = Throw e.
Proof.
  intros Hv Ht Hn. change (2 ^ 63) with 9223372036854775808 in *. unfold FindVariadicCollectionCount, u64.
  change (2 ^ 64) with 18446744073709551616. rewrite (Z.mod_small (total - v)) by lia. destruct (Z.eqb_spec v 0) as [Ev|Hv0].
  - destruct (Z.eqb_spec total n) as [En|En].
    + rewrite bool_decide_true by (unfold fits; by rewrite Ev). eexists. split; [done|]. lia.
    + rewrite bool_decide_false by (unfold fits; by rewrite Ev). by eexists.
  - assert (Hf : fits total v n <-> total - v <= n /\ (n - (total - v)) mod v = 0) by (unfold fits; by rewrite (proj2 (Z.eqb_neq v 0) Hv0)).
    destruct (Z.ltb_spec n (total - v)); [rewrite bool_decide_false by (rewrite Hf; lia); by eexists|]. rewrite (Z.mod_small (n - (total - v)) 18446744073709551616) by lia.
    destruct (Z.eqb_spec ((n - (total - v)) mod v) 0).
    + rewrite bool_decide_true by (rewrite Hf; lia). by eexists.
    + rewrite bool_decide_false by (rewrite Hf; tauto). by eexists.
Qed.

(** Collection names are distributed over the inputs in order and evenly.  Whatever inputs a factory declares, variadic or not: the check of
    the number of names accepts it exactly if every plain input can get one name and every variadic input equally many
    of the rest, and throws otherwise.  If it accepts and the wiring has no levels of its own, the names of the inputs, one input
    after the other, are exactly the given names; a plain input has one; all variadic inputs have the same number; and each name
    comes with the level of the factory, after the levels that the input had already. *)
Theorem wiring_distributes_names level ns inputs : sizeZ inputs < 2 ^ 63 -> sizeZ ns < 2 ^ 63 ->
  let v := sizeZ (variadic_inputs inputs) in
  if bool_decide (fits (sizeZ inputs) v (sizeZ ns)) then
    exists c inputs' per, FindVariadicCollectionCount (sizeZ inputs) v (sizeZ ns) = Ok c /\
      wire_inputs (share c v) level ns [] inputs 0 = Ok inputs' /\
      concat (names <$> inputs') = ns /\ Forall2 (wired per level) inputs inputs'
  else exists e, FindVariadicCollectionCount (sizeZ inputs) v (sizeZ ns) = Throw e.
Proof.
  intros Hi Hn. cbn zeta. pose proof (variadic_bound inputs) as Hv. pose proof (sizeZ_nonneg ns) as Hns.
  pose proof (count_check (sizeZ inputs) (sizeZ (variadic_inputs inputs)) (sizeZ ns) Hv Hi (conj Hns Hn)) as C.
  case_bool_decide as F; [|exact C]. destruct C as (c & Ec & Hc). set (v := sizeZ (variadic_inputs inputs)) in *.
  assert (Hneed : need (share c v) inputs = length ns).
  { apply Nat2Z.inj. rewrite need_count. fold v. unfold share, fits in *. fold (sizeZ ns). destruct (Z.eqb_spec v 0) as [E|E]; [lia|].
    rewrite (Hc E). destruct F as [Fle Fmod]. apply Z.div_exact in Fmod; [|done]. rewrite Z2Nat.id by (apply Z.div_pos; lia). lia. }
  destruct (wire_inputs_spec (share c v) level ns inputs 0) as (inputs' & E & W & K); [lia|].
  exists c, inputs', (share c v). split; [done|]. split; [done|]. split; [|done]. rewrite K, Hneed, drop_0. apply take_ge. lia.
Qed.

Definition two_inputs : list InputBase := [new_input "Hit"; mkInput "Track" [] [] true false []].

Lemma wiring_distributes_names_witness :
  fits 2 1 3 /\
  exists c inputs' per, FindVariadicCollectionCount 2 1 3 = Ok c /\
    wire_inputs (share c 1) PhysicsEvent ["hits"; "a"; "b"]%string [] two_inputs 0 = Ok inputs' /\
    concat (names <$> inputs') = ["hits"; "a"; "b"]%string /\ Forall2 (wired per PhysicsEvent) two_inputs inputs'.
Proof.
  split; [by vm_compute|]. exact (wiring_distributes_names PhysicsEvent ["hits"; "a"; "b"]%string two_inputs eq_refl eq_refl).
Defined.

(** ** Where it fails *)

(** A wiring with levels uses the same index for names and levels and advances it for both: it takes the second level for the
    first name, and a single input with a single level is out of range. *)
Lemma levels_are_out_of_step level ns l : wire_inputs 0 level (ns :: []) [l] [new_input "Hit"] 0 = Undef.
Proof. done. Qed.

Lemma levels_skip_names level a b c l0 l1 l2 l3 :
  (fmap (M := outcome) (fun inputs => (fun x => (names x, levels x)) <$> inputs)
     (wire_inputs 0 level [a; b; c] [l0; l1; l2; l3] [new_input "Hit"; new_input "Track"] 0)) = Ok [([a], [l1]); ([c], [l3])].
Proof. done. Qed.

(** An input that was declared with options keeps its own level in front: the level of the wiring is not used. *)
Lemma declared_level_wins level name opts : exists input',
  wire_inputs 0 level [name] [] [new_input_with "Hit" opts] 0 = Ok [input'] /\ levels input' !! 0%nat = Some (o_level opts).
Proof. by eexists. Qed.

(** An optional input keeps the data of the previous event when the event has no such parent. *)
Lemma optional_input_is_stale ev has_parent fetch input l : levels input = [l] -> is_optional input = true ->
  l <> ev -> l <> NoLevel -> has_parent l = false -> GetCollection ev has_parent fetch input = Ok input.
Proof.
  intros Hl Ho Hev Hno Hp. unfold GetCollection, at_index. rewrite Hl. cbn.
  rewrite bool_decide_false by naive_solver. by rewrite Ho, Hp.
Qed.

(** [Reset] does not clear an output: what a user's [push_back] adds to it for one event is published for the next one, too. *)
Lemma outputs_accumulate :
  let fac := mkOmni [] [new_output "Hit" "hits"] PhysicsEvent "fac" in
  let push n := Process PhysicsEvent (fun _ => false) (fun _ _ _ _ => Ok []) (fun _ outs => (Ok tt, (fun d => d ++ [n]) <$> outs)) in
  (_ ← push 1; push 2) fac = (Ok [("Hit", "hits", [1; 2])]%string, mkOmni [] [mkOutput "Hit" ["hits"%string] false [1; 2]] PhysicsEvent "fac").
Proof. done. Qed.

(** An exception that names its component loses the name. *)
Lemma blame_is_lost ex : rewrap (EJ ex) = EJ (mkex (message ex)).
Proof. done. Qed.

End Omni.
