(* ===== verification/JProcessorMapping.v ===== *)
(** * JProcessorMapping: which processor and which location a worker gets

    Model of [Utils/JProcessorMapping.{h,cc}].  What the operating system does (the pipe, the
    fork, the text that [lscpu] prints and how it exits) is the argument of [initialize];
    the reading of that text by [fgets] and [sscanf] is modelled. *)

From Stdlib Require Import Ascii Sorted.
From stdpp Require Import pretty.
From S2P Require Import Prelude JParameterManager.
Import Parameters.
Local Open Scope Z_scope.

Module Mapping.

(** The enumerations; a parameter that is cast to one of them may also have another value. *)
Inductive AffinityStrategy := NoAffinity | MemoryBound | ComputeBound | OtherAffinity (n : Z).
Inductive LocalityStrategy := Global | SocketLocal | NumaDomainLocal | CoreLocal | CpuLocal | OtherLocality (n : Z).

#[export] Instance AffinityStrategy_eq_dec : EqDecision AffinityStrategy.
Proof. solve_decision. Defined.
#[export] Instance LocalityStrategy_eq_dec : EqDecision LocalityStrategy.
Proof. solve_decision. Defined.

Record Row := mkRow {
  location_id : Z;
  cpu_id : Z;
  core_id : Z;
  numa_domain_id : Z;
  socket_id : Z
}.

Record JProcessorMapping := mkMapping {
  m_affinity_strategy : AffinityStrategy;
  m_locality_strategy : LocalityStrategy;
  m_mapping : list Row;
  m_loc_count : Z;
  m_initialized : bool;
  m_error_msg : string
}.

Definition make : JProcessorMapping := mkMapping NoAffinity Global [] 1 false "Not initialized yet".

(** ** The C library *)

(** [sscanf] formats made of [%zu] and literal characters. *)
Inductive directive := Zu | Lit (c : ascii).

Definition digit (c : ascii) : option Z :=
  let n := nat_of_ascii c in
  if (48 <=? n)%nat && (n <=? 57)%nat then Some (Z.of_nat n - 48) else None.

Fixpoint skip_space (l : line) : line :=
  match l with c :: l' => if is_space c then skip_space l' else l | [] => [] end.

Fixpoint digits (acc : Z) (l : line) : Z * line :=
  match l with
  | c :: l' => match digit c with Some d => digits (10 * acc + d) l' | None => (acc, l) end
  | [] => (acc, [])
  end.

(** [strtoul] on digits; a sign negates modulo the width. *)
Definition scan_digits (negative : bool) (l : line) : option (Z * line) :=
  match l with
  | c :: _ =>
      match digit c with
      | Some _ =>
          let '(v, rest) := digits 0 l in
          Some (if 2 ^ 64 <=? v then 2 ^ 64 - 1 else if negative then u64 (- v) else v, rest)
      | None => None
      end
  | [] => None
  end.

Definition scan_zu (l : line) : option (Z * line) :=
  match skip_space l with
  | c :: l' =>
      if Ascii.eqb c "-" then scan_digits true l'
      else if Ascii.eqb c "+" then scan_digits false l'
      else scan_digits false (c :: l')
  | [] => None
  end.

(** The values that [sscanf] converts before the first mismatch. *)
Fixpoint sscanf (l : line) (fmt : list directive) : list Z :=
  match fmt with
  | [] => []
  | Zu :: fmt => match scan_zu l with Some (v, l') => v :: sscanf l' fmt | None => [] end
  | Lit c :: fmt =>
      match l with c' :: l' => if Ascii.eqb c c' then sscanf l' fmt else [] | [] => [] end
  end.

(** Repeated [fgets]: at most [room] more characters, up to and with the end of line. *)
Fixpoint fgets_all (size : nat) (buf : line) (room : nat) (l : line) : list line :=
  match l with
  | [] => if decide (buf = []) then [] else [buf]
  | c :: l' =>
      if Ascii.eqb c "010" || (room <=? 1)%nat then (buf ++ [c]) :: fgets_all size [] size l'
      else fgets_all size (buf ++ [c]) (room - 1) l'
  end.

(** ** Initialization *)

Definition location_of (locality : LocalityStrategy) (cpu core numa socket : Z) : Z :=
  match locality with
  | CpuLocal => cpu
  | CoreLocal => core
  | NumaDomainLocal => numa
  | SocketLocal => socket
  | Global | OtherLocality _ => 0
  end.

(** One turn of the loop over the lines: the row it appends, if any. *)
Definition parse_row (locality : LocalityStrategy) (buffer : line) : option Row :=
  match buffer with
  | c :: _ =>
      if Ascii.eqb c "#" then None else
      let buffer := c_str buffer in
      match sscanf buffer [Zu; Lit ","; Zu; Lit ","; Zu; Lit ","; Zu] with
      | [cpu; core; numa; socket] => Some (mkRow (location_of locality cpu core numa socket) cpu core numa socket)
      | _ =>
          match sscanf buffer [Zu; Lit ","; Zu; Lit ","; Lit ","; Zu] with
          | [cpu; core; socket] => Some (mkRow (location_of locality cpu core socket socket) cpu core socket socket)
          | _ => None
          end
      end
  | [] => None
  end.

Definition count_locations (loc_count : Z) (row : Row) : Z :=
  if loc_count <=? location_id row then u64 (location_id row + 1) else loc_count.

(** [std::stable_sort] by a key. *)
Fixpoint insert_row (key : Row -> Z) (x : Row) (l : list Row) : list Row :=
  match l with
  | [] => [x]
  | y :: l' => if key x <=? key y then x :: l else y :: insert_row key x l'
  end.

Definition stable_sort (key : Row -> Z) (l : list Row) : list Row := foldr (insert_row key) [] l.

Definition apply_affinity (affinity : AffinityStrategy) (l : list Row) : list Row :=
  match affinity with
  | ComputeBound => stable_sort cpu_id l
  | MemoryBound => stable_sort numa_domain_id (stable_sort cpu_id l)
  | NoAffinity | OtherAffinity _ => l
  end.

(** What comes of running [lscpu]. *)
Inductive Lscpu :=
| PipeFailed
| ForkFailed
| Ran (output : line) (exited : option Z).

Definition set_error (msg : string) (m : JProcessorMapping) : JProcessorMapping :=
  mkMapping (m_affinity_strategy m) (m_locality_strategy m) (m_mapping m) (m_loc_count m) (m_initialized m) msg.

Definition initialize (affinity : AffinityStrategy) (locality : LocalityStrategy) (lscpu : Lscpu)
    (m : JProcessorMapping) : JProcessorMapping :=
  let m := mkMapping affinity locality (m_mapping m) (m_loc_count m) (m_initialized m) (m_error_msg m) in
  if bool_decide (affinity = NoAffinity) && bool_decide (locality = Global) then set_error EmptyString m else
  match lscpu with
  | PipeFailed => set_error "Unable to open pipe" m
  | ForkFailed => set_error "Unable to fork" m
  | Ran output exited =>
      let rows := omap (parse_row locality) (fgets_all 299 [] 299 output) in
      let m := mkMapping affinity locality rows (foldl count_locations 1 rows) (m_initialized m) (m_error_msg m) in
      match exited with
      | None => set_error "lscpu child process returned abnormally" m
      | Some code =>
          if negb (code =? 0) then
            set_error ("lscpu child process returned with an exit code of " +:+ pretty code) m
          else if bool_decide (rows = []) then set_error "Unable to parse lscpu output" m
          else mkMapping affinity locality (apply_affinity affinity rows) (m_loc_count m) true (m_error_msg m)
      end
  end.

(** [m_mapping[worker_id % m_mapping.size()]]. *)
Definition row_of (worker_id : Z) (m : JProcessorMapping) : outcome Row :=
  match m_mapping m !! Z.to_nat (worker_id mod sizeZ (m_mapping m)) with Some r => Ok r | None => Undef end.

Definition get_loc_count (m : JProcessorMapping) : Z := m_loc_count m.

Definition get_cpu_id (worker_id : Z) (m : JProcessorMapping) : outcome Z :=
  if m_initialized m then r ← row_of worker_id m; Ok (cpu_id r) else Ok worker_id.

Definition get_loc_id (worker_id : Z) (m : JProcessorMapping) : outcome Z :=
  if m_initialized m then r ← row_of worker_id m; Ok (location_id r) else Ok 0.


(** ** What is read *)

Lemma digits_nonneg l : forall acc, 0 <= acc -> 0 <= (digits acc l).1.
Proof.
  induction l as [|c l IH]; intros acc Hacc; [done|]. cbn. unfold digit.
  destruct ((48 <=? nat_of_ascii c)%nat && (nat_of_ascii c <=? 57)%nat) eqn:E; [|done].
  apply andb_true_iff in E as [E%Nat.leb_le _]. apply IH. lia.
Qed.

Lemma scan_digits_nonneg b l v rest : scan_digits b l = Some (v, rest) -> 0 <= v.
Proof.
  destruct l as [|c l]; [done|]. unfold scan_digits. destruct (digit c); [|done].
  pose proof (digits_nonneg (c :: l) 0 ltac:(lia)) as Hnn. destruct (digits 0 (c :: l)) as [w r]. cbn in Hnn.
  intros [= <- _]. destruct (2 ^ 64 <=? w); [lia|]. destruct b; [|done]. unfold u64. apply Z.mod_pos_bound. lia.
Qed.

Lemma scan_zu_nonneg l v rest : scan_zu l = Some (v, rest) -> 0 <= v.
Proof.
  unfold scan_zu. destruct (skip_space l) as [|c l']; [done|].
  destruct (Ascii.eqb c "-"); [apply scan_digits_nonneg|]. destruct (Ascii.eqb c "+"); apply scan_digits_nonneg.
Qed.

Lemma sscanf_nonneg fmt : forall l, Forall (fun v => 0 <= v) (sscanf l fmt).
Proof.
  induction fmt as [|[|c] fmt IH]; intros l; cbn; [constructor| |].
  - destruct (scan_zu l) as [[v l']|] eqn:E; [|constructor]. constructor; [by eapply scan_zu_nonneg|apply IH].
  - destruct l as [|c' l']; [constructor|]. destruct (Ascii.eqb c c'); [apply IH|constructor].
Qed.

Lemma location_of_nonneg loc a b c d : 0 <= a -> 0 <= b -> 0 <= c -> 0 <= d -> 0 <= location_of loc a b c d.
Proof. by destruct loc. Qed.

Lemma parse_row_nonneg loc l r : parse_row loc l = Some r -> 0 <= location_id r.
Proof.
  destruct l as [|c l]; [done|]. unfold parse_row. destruct (Ascii.eqb c "#"); [done|].
  pose proof (sscanf_nonneg [Zu; Lit ","; Zu; Lit ","; Zu; Lit ","; Zu] (c_str (c :: l))) as H4.
  pose proof (sscanf_nonneg [Zu; Lit ","; Zu; Lit ","; Lit ","; Zu] (c_str (c :: l))) as H3.
  repeat case_match; try done; intros [= <-]; rewrite ?Forall_cons in *; destruct_and?; by apply location_of_nonneg.
Qed.

(** ** What comes of it *)

Lemma count_locations_bound rows : forall n,
  0 < n -> Forall (fun r => 0 <= location_id r < 2 ^ 64 - 1) rows ->
  n <= foldl count_locations n rows /\ Forall (fun r => location_id r < foldl count_locations n rows) rows.
Proof.
  induction rows as [|r rows IH]; intros n Hn Hall; [split; [done|constructor]|].
  apply Forall_cons in Hall as [Hr Hall]. cbn [foldl].
  assert (Hc : n <= count_locations n r /\ location_id r < count_locations n r).
  { unfold count_locations. destruct (Z.leb_spec n (location_id r)); [|lia]. unfold u64. rewrite Z.mod_small by lia. lia. }
  destruct (IH (count_locations n r) ltac:(lia) Hall) as [Hle Hlt].
  split; [lia|]. constructor; [lia|done].
Qed.

Lemma insert_row_perm key x l : insert_row key x l ≡ₚ x :: l.
Proof.
  induction l as [|y l IH]; [done|]. cbn. destruct (key x <=? key y); [done|]. rewrite IH. apply Permutation_swap.
Qed.

Lemma stable_sort_perm key l : stable_sort key l ≡ₚ l.
Proof. induction l as [|x l IH]; [done|]. cbn. by rewrite insert_row_perm, IH. Qed.

Lemma apply_affinity_perm affinity l : apply_affinity affinity l ≡ₚ l.
Proof. destruct affinity; cbn; by rewrite ?stable_sort_perm. Qed.

(** Sorting by a key keeps the order of rows with equal keys. *)
Lemma insert_row_sorted key (R : Row -> Row -> Prop) x l :
  Forall (R x) l ->
  StronglySorted (fun r s => key r < key s \/ key r = key s /\ R r s) l ->
  StronglySorted (fun r s => key r < key s \/ key r = key s /\ R r s) (insert_row key x l).
Proof.
  intros Hx Hs. induction Hs as [|y l Hs IH Hy]; [repeat constructor|].
  apply Forall_cons in Hx as [Hxy Hx]. cbn. destruct (Z.leb_spec (key x) (key y)) as [Hle|Hlt].
  - constructor; [by constructor|]. constructor; [destruct (decide (key x = key y)); [by right|left; lia]|].
    rewrite Forall_forall in Hy, Hx |- *. intros z Hz. destruct (decide (key x = key z)) as [E|E]; [right; auto|].
    left. destruct (Hy z Hz) as [?|[? _]]; lia.
  - constructor; [by apply IH|]. rewrite insert_row_perm. constructor; [by left|done].
Qed.

Lemma stable_sort_sorted key (R : Row -> Row -> Prop) l :
  StronglySorted R l -> StronglySorted (fun r s => key r < key s \/ key r = key s /\ R r s) (stable_sort key l).
Proof.
  induction 1 as [|x l Hl IH Hx]; [constructor|].
  change (stable_sort key (x :: l)) with (insert_row key x (stable_sort key l)).
  apply insert_row_sorted; [|done]. by rewrite stable_sort_perm.
Qed.

(** The order in which workers are placed. *)
Definition placed_before (affinity : AffinityStrategy) (r s : Row) : Prop :=
  match affinity with
  | ComputeBound => cpu_id r <= cpu_id s
  | MemoryBound => numa_domain_id r < numa_domain_id s \/ numa_domain_id r = numa_domain_id s /\ cpu_id r <= cpu_id s
  | NoAffinity | OtherAffinity _ => True
  end.

Lemma trivially_sorted (l : list Row) : StronglySorted (fun _ _ => True) l.
Proof. induction l; constructor; [done|]. by apply Forall_true. Qed.

Lemma StronglySorted_weaken {A} (R R' : A -> A -> Prop) l :
  (forall x y, R x y -> R' x y) -> StronglySorted R l -> StronglySorted R' l.
Proof. intros HR. induction 1; constructor; [done|]. eapply Forall_impl; eauto. Qed.

Lemma apply_affinity_sorted affinity l : StronglySorted (placed_before affinity) (apply_affinity affinity l).
Proof.
  assert (Hcpu : StronglySorted (fun r s => cpu_id r <= cpu_id s) (stable_sort cpu_id l)).
  { eapply StronglySorted_weaken; [|apply stable_sort_sorted, trivially_sorted]. cbn. intros r s; lia. }
  destruct affinity; cbn [apply_affinity placed_before]; [apply trivially_sorted| |done|apply trivially_sorted].
  by apply stable_sort_sorted.
Qed.

Lemma row_of_ok w m : m_mapping m <> [] -> 0 <= w -> exists r, row_of w m = Ok r /\ r ∈ m_mapping m.
Proof.
  intros Hne Hw. unfold row_of.
  assert (Hpos : 0 < sizeZ (m_mapping m)) by (unfold sizeZ; destruct (m_mapping m); [done|cbn; lia]).
  pose proof (Z.mod_pos_bound w (sizeZ (m_mapping m)) Hpos) as Hb.
  destruct (lookup_lt_is_Some_2 (m_mapping m) (Z.to_nat (w mod sizeZ (m_mapping m)))) as [r Hr]; [unfold sizeZ in *; lia|].
  rewrite Hr. exists r. split; [done|]. by eapply list_elem_of_lookup_2.
Qed.

Lemma parsed_nonneg loc ls : Forall (fun r => 0 <= location_id r) (omap (parse_row loc) ls).
Proof.
  apply Forall_forall. intros r Hr. apply list_elem_of_omap in Hr as (l & _ & Hl). by eapply parse_row_nonneg.
Qed.

(** What a fresh mapping has after its initialization. *)
Lemma initialize_spec affinity locality lscpu :
  let m := initialize affinity locality lscpu make in
  (m_initialized m = false /\ m_loc_count m = 1) \/
  exists output exited, lscpu = Ran output exited /\
    let rows := omap (parse_row locality) (fgets_all 299 [] 299 output) in
    m_mapping m ≡ₚ rows /\ m_loc_count m = foldl count_locations 1 rows /\
    (m_initialized m = true -> exited = Some 0 /\ rows <> [] /\ m_mapping m = apply_affinity affinity rows).
Proof.
  unfold initialize. cbn zeta. destruct (_ && _); [by left|].
  destruct lscpu as [| |output [code|]]; [by left|by left|right..]; exists output; eexists; (split; [done|]); cbn zeta.
  - destruct (Z.eqb_spec code 0) as [->|]; cbn [negb]; [|done]. case_bool_decide as Hne; [done|].
    cbn [m_mapping m_loc_count m_initialized]. split; [apply apply_affinity_perm|]. eauto.
  - done.
Qed.

Lemma locations_in_range affinity locality lscpu :
  let m := initialize affinity locality lscpu make in
  Forall (fun r => location_id r < 2 ^ 64 - 1) (m_mapping m) ->
  0 < m_loc_count m /\ (m_initialized m = true -> m_mapping m <> [] /\ Forall (fun r => 0 <= location_id r < m_loc_count m) (m_mapping m)).
Proof.
  intros m Hmax. pose proof (initialize_spec affinity locality lscpu) as Hspec. fold m in Hspec. cbn zeta in Hspec.
  destruct Hspec as [[Hi Hc]|(output & exited & _ & Hp & Hc & Hi)]; [rewrite Hc, Hi; done|].
  set (rows := omap _ _) in *. pose proof (parsed_nonneg locality (fgets_all 299 [] 299 output)) as Hnn. fold rows in Hnn.
  rewrite Hp in Hmax. destruct (count_locations_bound rows 1 ltac:(lia)) as [Hpos Hlt]; [by apply Forall_and|].
  rewrite Hc. split; [lia|]. intros Hin. destruct (Hi Hin) as (_ & Hne & _). split.
  - intros E. rewrite E in Hp. apply Hne. by apply Permutation_nil_l in Hp.
  - rewrite Hp. by apply Forall_and.
Qed.

(** Every worker is placed on a processor and at a location that exists.  Whatever [lscpu]
    does and prints (as long as no identifier is the largest [size_t]), after [initialize]
    each worker has a location below the number of locations, which is the number of local queues of
    every mailbox.  If the table could be built then it is a rearrangement of the rows that were
    printed, and the strategy's order: by processor when compute-bound, by memory domain and
    within a domain by processor when memory-bound. *)
Theorem workers_are_placed affinity locality lscpu :
  let m := initialize affinity locality lscpu make in
  Forall (fun r => location_id r < 2 ^ 64 - 1) (m_mapping m) ->
  (forall w, 0 <= w -> exists cpu loc, get_cpu_id w m = Ok cpu /\ get_loc_id w m = Ok loc /\ 0 <= loc < get_loc_count m) /\
  (m_initialized m = true -> exists output, lscpu = Ran output (Some 0) /\
     m_mapping m ≡ₚ omap (parse_row locality) (fgets_all 299 [] 299 output) /\
     StronglySorted (placed_before affinity) (m_mapping m)).
Proof.
  intros m Hmax. destruct (locations_in_range affinity locality lscpu Hmax) as [Hpos Hin]. fold m in Hpos, Hin. split.
  - intros w Hw. unfold get_cpu_id, get_loc_id, get_loc_count. destruct (m_initialized m); [|by exists w, 0].
    destruct (Hin eq_refl) as [Hne Hall]. destruct (row_of_ok w m Hne Hw) as (r & -> & Hr).
    rewrite Forall_forall in Hall. exists (cpu_id r), (location_id r). auto.
  - intros Hi. pose proof (initialize_spec affinity locality lscpu) as Hspec. fold m in Hspec. cbn zeta in Hspec.
    destruct Hspec as [[Hi' _]|(output & exited & -> & Hp & _ & Hi')]; [congruence|].
    destruct (Hi' Hi) as (-> & _ & Hmap). exists output. split; [done|]. split; [done|]. rewrite Hmap. apply apply_affinity_sorted.
Qed.

(** Two sockets, with hyperthreads numbered after the cores, on a machine without memory domains. *)
Definition two_sockets : line :=
  chars "# CPU,Core,Node,Socket" ++ "010"%char :: chars "0,0,,0" ++ "010"%char :: chars "1,1,,1" ++ "010"%char ::
  chars "2,0,,0" ++ "010"%char :: chars "3,1,,1" ++ ["010"%char].

Lemma workers_are_placed_witness :
  let m := initialize MemoryBound SocketLocal (Ran two_sockets (Some 0)) make in
  cpu_id <$> m_mapping m = [0; 2; 1; 3] /\ get_loc_count m = 2 /\
  exists cpu loc, get_cpu_id 6 m = Ok cpu /\ get_loc_id 6 m = Ok loc /\ 0 <= loc < get_loc_count m.
Proof.
  split; [vm_compute; reflexivity|]. split; [vm_compute; reflexivity|].
  refine (proj1 (workers_are_placed MemoryBound SocketLocal (Ran two_sockets (Some 0)) _) 6 _); [|lia].
  refine (bool_decide_unpack _ _). vm_compute. exact I.
Defined.

(** A second initialization that fails leaves the mapping marked as initialized, but without rows. *)
Lemma failed_reinitialization_is_undefined :
  let m := initialize MemoryBound SocketLocal (Ran two_sockets (Some 0)) make in
  get_loc_id 0 (initialize MemoryBound SocketLocal (Ran [] (Some 1)) m) = Undef.
Proof. vm_compute. reflexivity. Qed.

End Mapping.
