(* ===== verification/JComponentManager.v ===== *)
(** * JComponentManager: which components there are, and which source reads which input

    Model of [Services/JComponentManager.{h,cc}].  Components are seen by the members that the manager reads
    and writes.  What user code does (how likely a generator can open an input, making a source,
    initializing a factory) is part of the generators.  A [double] is a (canonical) [spec_float] with the
    comparison of IEEE 754.  The application pointer is whether it has been set; loggers are left
    out.  The factory set that [initialize_components] makes is the argument [new_factory_set]; how a
    [JFactorySet] is filled is the subject of [JFactorySet]. *)

From Stdlib Require Import SpecFloat.
From S2P Require Import Prelude JParameterManager.
Import Parameters.
Local Open Scope Z_scope.

Module ComponentManager.

(** A source, as far as the manager is concerned. *)
Record EventSource := mkEventSource {
  source_resource : string;
  source_plugin : string;
  source_application : bool;
  m_nskip : Z;
  m_nevents : Z
}.

Record SourceGenerator := mkSourceGenerator {
  mPluginName : string;
  mApplication : bool;
  GetType : string;
  CheckOpenable : string -> outcome spec_float;
  MakeJEventSource : string -> outcome EventSource
}.

(** A processor, an unfolder or a factory: a name, the plugin it comes from, and whether it knows the application. *)
Record Component := mkComponent {
  component_name : string;
  component_plugin : string;
  component_application : bool
}.

(** The members that parameters set. *)
Record Options := mkOptions {
  m_user_evt_src_typename : string;
  m_enable_call_graph_recording : bool;
  m_global_nevents : Z;
  m_global_nskip : Z;
  m_autoactivate : string;
  m_default_tags : gmap string string
}.

Section Manager.
(** The state that user code shares; factory generators; what [DoInit] of a factory does. *)
Context {U FactoryGenerator : Type}.
Context (fac_gen_SetPluginName : string -> FactoryGenerator -> FactoryGenerator).
Context (fac_gen_SetApplication : FactoryGenerator -> FactoryGenerator).

Record JComponentManager := mkJComponentManager {
  m_current_plugin_name : string;
  m_src_names : list string;
  m_src_gens : list SourceGenerator;
  m_fac_gens : list FactoryGenerator;
  m_evt_srces : list EventSource;
  m_evt_procs : list Component;
  m_unfolders : list Component;
  m_options : Options;
  m_user_evt_src_gen : option SourceGenerator;
  m_summary : list string
}.

Definition new_manager : JComponentManager :=
  mkJComponentManager EmptyString [] [] [] [] [] [] (mkOptions EmptyString false 0 0 EmptyString ∅) None [].

Definition set_components srcs gens facs procs unfolders (m : JComponentManager) : JComponentManager :=
  mkJComponentManager (m_current_plugin_name m) (m_src_names m) gens facs srcs procs unfolders
    (m_options m) (m_user_evt_src_gen m) (m_summary m).

Definition set_user_gen (g : option SourceGenerator) (m : JComponentManager) : JComponentManager :=
  mkJComponentManager (m_current_plugin_name m) (m_src_names m) (m_src_gens m) (m_fac_gens m) (m_evt_srces m)
    (m_evt_procs m) (m_unfolders m) (m_options m) g (m_summary m).

Definition add_summary (name : string) (m : JComponentManager) : JComponentManager :=
  mkJComponentManager (m_current_plugin_name m) (m_src_names m) (m_src_gens m) (m_fac_gens m) (m_evt_srces m)
    (m_evt_procs m) (m_unfolders m) (m_options m) (m_user_evt_src_gen m) (m_summary m ++ [name]).

Definition set_evt_srces (srcs : list EventSource) (m : JComponentManager) : JComponentManager :=
  set_components srcs (m_src_gens m) (m_fac_gens m) (m_evt_procs m) (m_unfolders m) m.

(** ** While plugins are loaded *)

Definition next_plugin (plugin_name : string) (m : JComponentManager) : JComponentManager :=
  mkJComponentManager plugin_name (m_src_names m) (m_src_gens m) (m_fac_gens m) (m_evt_srces m)
    (m_evt_procs m) (m_unfolders m) (m_options m) (m_user_evt_src_gen m) (m_summary m).

Definition add_name (event_source_name : string) (m : JComponentManager) : JComponentManager :=
  mkJComponentManager (m_current_plugin_name m) (m_src_names m ++ [event_source_name]) (m_src_gens m) (m_fac_gens m)
    (m_evt_srces m) (m_evt_procs m) (m_unfolders m) (m_options m) (m_user_evt_src_gen m) (m_summary m).

Definition gen_SetPluginName (plugin_name : string) (g : SourceGenerator) : SourceGenerator :=
  mkSourceGenerator plugin_name (mApplication g) (GetType g) (CheckOpenable g) (MakeJEventSource g).
Definition source_SetPluginName (plugin_name : string) (s : EventSource) : EventSource :=
  mkEventSource (source_resource s) plugin_name (source_application s) (m_nskip s) (m_nevents s).
Definition component_SetPluginName (plugin_name : string) (c : Component) : Component :=
  mkComponent (component_name c) plugin_name (component_application c).

Definition add_source_generator (g : SourceGenerator) (m : JComponentManager) : JComponentManager :=
  set_components (m_evt_srces m) (m_src_gens m ++ [gen_SetPluginName (m_current_plugin_name m) g]) (m_fac_gens m)
    (m_evt_procs m) (m_unfolders m) m.
Definition add_factory_generator (g : FactoryGenerator) (m : JComponentManager) : JComponentManager :=
  set_components (m_evt_srces m) (m_src_gens m) (m_fac_gens m ++ [fac_gen_SetPluginName (m_current_plugin_name m) g])
    (m_evt_procs m) (m_unfolders m) m.
Definition add_source (s : EventSource) (m : JComponentManager) : JComponentManager :=
  set_evt_srces (m_evt_srces m ++ [source_SetPluginName (m_current_plugin_name m) s]) m.
Definition add_processor (c : Component) (m : JComponentManager) : JComponentManager :=
  set_components (m_evt_srces m) (m_src_gens m) (m_fac_gens m)
    (m_evt_procs m ++ [component_SetPluginName (m_current_plugin_name m) c]) (m_unfolders m) m.
Definition add_unfolder (c : Component) (m : JComponentManager) : JComponentManager :=
  set_components (m_evt_srces m) (m_src_gens m) (m_fac_gens m) (m_evt_procs m)
    (m_unfolders m ++ [component_SetPluginName (m_current_plugin_name m) c]) m.

(** ** Resolving event sources *)

Definition resolve_user_event_source_generator (m : JComponentManager) : outcome (option SourceGenerator) :=
  if decide (m_user_evt_src_typename (m_options m) = EmptyString) then Ok None
  else match List.find (fun g => bool_decide (GetType g = m_user_evt_src_typename (m_options m))) (m_src_gens m) with
       | Some g => Ok (Some g)
       | None => throwJ ("You specified event source type " +:+ m_user_evt_src_typename (m_options m))
       end.

(** The loop over the generators: the best likelihood so far and its generator. *)
Fixpoint best_generator (source_name : string) (gens : list SourceGenerator) (best_likelihood : spec_float)
    (best_gen : option SourceGenerator) : outcome (option SourceGenerator) :=
  match gens with
  | [] => Ok best_gen
  | gen :: gens =>
      likelihood ← CheckOpenable gen source_name;
      if SFltb best_likelihood likelihood then best_generator source_name gens likelihood (Some gen)
      else best_generator source_name gens best_likelihood best_gen
  end.

Definition resolve_event_source (m : JComponentManager) (source_name : string) : outcome SourceGenerator :=
  match m_user_evt_src_gen m with
  | Some g => Ok g
  | None =>
      best ← best_generator source_name (m_src_gens m) (S754_zero false) None;
      match best with
      | Some g => Ok g
      | None => throwJ ("Unable to open event source " +:+ source_name +:+ ": No suitable generator found!")
      end
  end.

(** The state: the manager, the parameters, and what user code sees. *)
Record State := mkState {
  manager : JComponentManager;
  params : JParameterManager;
  user : U
}.

Definition modify_manager (f : JComponentManager -> JComponentManager) : M State unit :=
  modify (fun s => mkState (f (manager s)) (params s) (user s)).

Definition open_source (source_name : string) : M State unit :=
  m ← gets manager;
  generator ← lift (resolve_event_source m source_name);
  source ← lift (MakeJEventSource generator source_name);
  modify_manager (fun m => set_evt_srces (m_evt_srces m ++
    [mkEventSource (source_resource source) (mPluginName generator) true (m_nskip source) (m_nevents source)]) m).

(** [if (GetNSkip() == 0) SetNSkip(m_nskip); if (GetNEvents() == 0) SetNEvents(m_nevents)]. *)
Definition limit_source (nskip nevents : Z) (s : EventSource) : EventSource :=
  mkEventSource (source_resource s) (source_plugin s) (source_application s)
    (if m_nskip s =? 0 then nskip else m_nskip s) (if m_nevents s =? 0 then nevents else m_nevents s).

Definition resolve_event_sources : M State unit :=
  m ← gets manager;
  g ← lift (resolve_user_event_source_generator m);
  _ ← modify_manager (set_user_gen g);
  _ ← for_each (m_src_names m) open_source;
  modify_manager (fun m => set_evt_srces (limit_source (m_global_nskip (m_options m)) (m_global_nevents (m_options m)) <$> m_evt_srces m) m).

(** ** Configuration *)

Definition on_params {A} (c : M JParameterManager A) : M State A := fun s =>
  let '(r, ps) := c (params s) in (r, mkState (manager s) ps (user s)).

Definition preinitialize_components : M State unit :=
  modify_manager (fun m => set_components
    ((fun s => mkEventSource (source_resource s) (source_plugin s) true (m_nskip s) (m_nevents s)) <$> m_evt_srces m)
    ((fun g => mkSourceGenerator (mPluginName g) true (GetType g) (CheckOpenable g) (MakeJEventSource g)) <$> m_src_gens m)
    (fac_gen_SetApplication <$> m_fac_gens m)
    ((fun c => mkComponent (component_name c) (component_plugin c) true) <$> m_evt_procs m)
    ((fun c => mkComponent (component_name c) (component_plugin c) true) <$> m_unfolders m) m).

(** A factory or multifactory: its name and its [DoInit], which may use the parameters. *)
Definition FactoryObj : Type := string * M (JParameterManager * U) unit.
Context (new_factory_set : list FactoryGenerator -> outcome (list FactoryObj * list FactoryObj)).

(** [try { fac->DoInit(); } catch (...) {}]. *)
Definition try_init (c : M (JParameterManager * U) unit) : M State unit := fun s =>
  let '(r, (ps, u)) := c (params s, user s) in
  (match r with Undef => Undef | _ => Ok tt end, mkState (manager s) ps u).

Definition summarize (name : string) : M State unit := modify_manager (add_summary name).

Definition initialize_components : M State unit :=
  m ← gets manager;
  _ ← for_each (m_evt_srces m) (fun src => summarize (source_resource src));
  _ ← for_each (m_evt_procs m) (fun proc => summarize (component_name proc));
  _ ← for_each (m_unfolders m) (fun unfolder => summarize (component_name unfolder));
  facs ← lift (new_factory_set (m_fac_gens m));
  _ ← for_each facs.1 (fun fac => _ ← try_init fac.2; summarize fac.1);
  for_each facs.2 (fun fac => _ ← try_init fac.2; summarize fac.1).

Context (uint64_codec : Codec Z).

Definition set_options (f : Options -> Options) : M State unit :=
  modify_manager (fun m => mkJComponentManager (m_current_plugin_name m) (m_src_names m) (m_src_gens m) (m_fac_gens m)
    (m_evt_srces m) (m_evt_procs m) (m_unfolders m) (f (m_options m)) (m_user_evt_src_gen m) (m_summary m)).

(** The calls of [SetDefaultParameter], each of which writes a member. *)
Definition read_parameters : M State unit :=
  m ← gets (fun s => m_options (manager s));
  typename ← on_params (SetDefaultParameter "event_source_type" (m_user_evt_src_typename m)
    "Manually specifies which JEventSource should open the input file");
  _ ← set_options (fun o => mkOptions typename (m_enable_call_graph_recording o) (m_global_nevents o) (m_global_nskip o)
                              (m_autoactivate o) (m_default_tags o));
  recording ← on_params (SetDefaultParameter "record_call_stack" (m_enable_call_graph_recording m)
    "Records a trace of who called each factory.");
  _ ← set_options (fun o => mkOptions (m_user_evt_src_typename o) recording (m_global_nevents o) (m_global_nskip o)
                              (m_autoactivate o) (m_default_tags o));
  _ ← on_params (update (ToLower "record_call_stack") (SetIsAdvanced true));
  nevents ← on_params (@SetDefaultParameter Z uint64_codec "jana:nevents" (m_global_nevents m)
    "Max number of events that sources can emit");
  _ ← set_options (fun o => mkOptions (m_user_evt_src_typename o) (m_enable_call_graph_recording o) nevents
                              (m_global_nskip o) (m_autoactivate o) (m_default_tags o));
  nskip ← on_params (@SetDefaultParameter Z uint64_codec "jana:nskip" (m_global_nskip m)
    "Number of events that sources should skip before starting emitting");
  _ ← set_options (fun o => mkOptions (m_user_evt_src_typename o) (m_enable_call_graph_recording o) (m_global_nevents o)
                              nskip (m_autoactivate o) (m_default_tags o));
  autoactivate ← on_params (SetDefaultParameter "autoactivate" (m_autoactivate m)
    "List of factories to activate regardless of what the event processors request.");
  _ ← set_options (fun o => mkOptions (m_user_evt_src_typename o) (m_enable_call_graph_recording o) (m_global_nevents o)
                              (m_global_nskip o) autoactivate (m_default_tags o));
  tags ← on_params (FilterParameters "DEFTAG:");
  set_options (fun o => mkOptions (m_user_evt_src_typename o) (m_enable_call_graph_recording o) (m_global_nevents o)
                          (m_global_nskip o) (m_autoactivate o) tags).

Definition configure_components : M State unit :=
  _ ← read_parameters;
  m ← gets manager;
  _ ← (if decide (m_autoactivate (m_options m) = EmptyString) then mret tt
       else modify_manager (add_processor (mkComponent "JAutoActivator" EmptyString false)));
  _ ← preinitialize_components;
  _ ← resolve_event_sources;
  initialize_components.

(** [configure_event]: what the event is given. *)
Definition configure_event (m : JComponentManager) : outcome (list FactoryObj * list FactoryObj * gmap string string * bool) :=
  factory_set ← new_factory_set (m_fac_gens m);
  Ok (factory_set, m_default_tags (m_options m), m_enable_call_graph_recording (m_options m)).

End Manager.
Arguments JComponentManager : clear implicits.
Arguments State : clear implicits.

(** ** The order of likelihoods *)

(** The position of a number on the line; [None] for a NaN. *)
Definition sf_rank (x : spec_float) : option (Z * Z * Z) :=
  match x with
  | S754_nan => None
  | S754_zero _ => Some (0, 0, 0)
  | S754_infinity s => Some (if s then -2 else 2, 0, 0)
  | S754_finite s m e => Some (if s then (-1, - e, Z.neg m) else (1, e, Z.pos m))
  end.

Definition lex_lt (a b : Z * Z * Z) : Prop :=
  a.1.1 < b.1.1 \/ a.1.1 = b.1.1 /\ (a.1.2 < b.1.2 \/ a.1.2 = b.1.2 /\ a.2 < b.2).

Lemma SFltb_rank x y :
  SFltb x y = true <-> match sf_rank x, sf_rank y with Some a, Some b => lex_lt a b | _, _ => False end.
Proof.
  unfold SFltb, lex_lt.
  destruct x as [sx|sx| |sx mx ex], y as [sy|sy| |sy my ey]; simpl; try destruct sx; try destruct sy; simpl;
    try (split; [done|lia]); try (split; [lia|done]);
    destruct (Z.compare_spec ex ey) as [->|H|H]; simpl; try (split; [done|lia]); try (split; [lia|done]);
    fold (Pos.compare mx my); destruct (Pos.compare_spec mx my); simpl; split; intros; try done; lia.
Qed.

(** What is not above [b] is below everything above [b], unless it is not a number. *)
Lemma SFltb_below b l x : SFltb b l = true -> SFltb b x = false -> x = S754_nan \/ SFltb x l = true.
Proof.
  intros H1%SFltb_rank H2. destruct (sf_rank x) as [r|] eqn:Hx; [right|left; by destruct x].
  apply SFltb_rank. rewrite Hx. destruct (sf_rank b) as [rb|] eqn:Hb; [|done]. destruct (sf_rank l) as [rl|]; [|done].
  assert (H3 : ~ lex_lt rb r). { intros H. apply not_true_iff_false in H2. apply H2, SFltb_rank. by rewrite Hb, Hx. }
  unfold lex_lt in *. lia.
Qed.

Lemma SFltb_asym x y : SFltb x y = true -> SFltb y x = false.
Proof.
  intros H1%SFltb_rank. apply not_true_iff_false. intros H2%SFltb_rank.
  destruct (sf_rank x), (sf_rank y); unfold lex_lt in *; lia.
Qed.

Lemma SFltb_irrefl x : SFltb x x = false.
Proof. destruct (SFltb x x) eqn:H; [|done]. by rewrite (SFltb_asym _ _ H) in H. Qed.

(** [l], at position [i], is the first of the greatest numbers of [ls], and positive. *)
Definition first_best (ls : list spec_float) (i : nat) (l : spec_float) : Prop :=
  ls !! i = Some l /\ SFltb (S754_zero false) l = true /\ (forall j x, ls !! j = Some x -> SFltb l x = false) /\
  forall j x, (j < i)%nat -> ls !! j = Some x -> x = S754_nan \/ SFltb x l = true.

Definition best_so_far (done : list spec_float) (gens : list SourceGenerator) (b : spec_float) (g : option SourceGenerator) : Prop :=
  match g with
  | None => b = S754_zero false /\ forall x, x ∈ done -> SFltb b x = false
  | Some g => exists i, gens !! i = Some g /\ first_best done i b
  end.

Lemma best_so_far_not_above done gens b g x : best_so_far done gens b g -> x ∈ done -> SFltb b x = false.
Proof.
  intros H Hx. destruct g; [|by apply H]. destruct H as (i & _ & _ & _ & H & _).
  apply list_elem_of_lookup in Hx as [j Hj]. by eapply H.
Qed.

Lemma best_generator_spec name gens : forall ls pre done b g,
  length pre = length done -> Forall2 (fun gen l => CheckOpenable gen name = Ok l) gens ls ->
  best_so_far done pre b g ->
  exists g' b', best_generator name gens b g = Ok g' /\ best_so_far (done ++ ls) (pre ++ gens) b' g'.
Proof.
  induction gens as [|gen gens IH]; intros ls pre done b g Hlen Hls Hb.
  - apply Forall2_nil_inv_l in Hls as ->. rewrite !app_nil_r. exists g, b. done.
  - apply Forall2_cons_inv_l in Hls as (l & ls' & Hl & Hls & ->). simpl. rewrite Hl. simpl.
    rewrite (cons_middle l), (cons_middle gen), !app_assoc.
    destruct (SFltb b l) eqn:Hlt; apply IH; try done; try (rewrite !length_app; simpl; lia).
    + assert (Hpos : SFltb (S754_zero false) l = true).
      { destruct g as [g|]; [|by destruct Hb as [-> _]]. destruct Hb as (i & _ & _ & Hb0 & _).
        destruct (SFltb_below b l (S754_zero false) Hlt (SFltb_asym _ _ Hb0)); done. }
      assert (Hbelow : forall j x, done !! j = Some x -> x = S754_nan \/ SFltb x l = true).
      { intros j x Hj. apply (SFltb_below b); [done|]. by eapply (best_so_far_not_above _ _ _ _ _ Hb), list_elem_of_lookup_2. }
      exists (length done). rewrite <- Hlen at 1. rewrite lookup_app_r, Nat.sub_diag by lia. split; [done|].
      split; [by rewrite lookup_app_r, Nat.sub_diag by lia|]. split; [done|]. split.
      * intros j x [Hj|[_ Hj]]%lookup_app_Some.
        -- destruct (Hbelow j x Hj) as [->|?]; [|by apply SFltb_asym]. by destruct l.
        -- apply list_lookup_singleton_Some in Hj as [_ <-]. apply SFltb_irrefl.
      * intros j x Hj. rewrite lookup_app_l by done. apply Hbelow.
    + destruct g as [g|]; simpl in Hb |- *.
      * destruct Hb as (i & Hi & Hd & Hz & Hmax & Hfirst). exists i. split; [by apply lookup_app_l_Some|].
        split; [by apply lookup_app_l_Some|]. split; [done|]. split.
        -- intros j x [Hj|[_ Hj]]%lookup_app_Some; [by eapply Hmax|]. by apply list_lookup_singleton_Some in Hj as [_ <-].
        -- intros j x Hj. apply lookup_lt_Some in Hd. rewrite lookup_app_l by lia. by apply Hfirst.
      * destruct Hb as [-> Hb]. split; [done|]. intros x [Hx| ->%list_elem_of_singleton]%elem_of_app; [by apply Hb|done].
Qed.

(** ** Which generator opens an input *)

Section Resolving.
Context {U FactoryGenerator : Type}.
Implicit Types (m : JComponentManager FactoryGenerator) (s : State U FactoryGenerator).

(** An input is opened by the generator that is most likely to understand it.  If the user has not
    named one, [resolve_event_source] asks every generator; it returns the first of those with the greatest
    likelihood if that is positive, and throws a [JException] if no likelihood is (a NaN counts as
    neither). *)
Theorem best_generator_is_chosen m source_name (likelihoods : list spec_float) :
  m_user_evt_src_gen m = None ->
  Forall2 (fun gen l => CheckOpenable gen source_name = Ok l) (m_src_gens m) likelihoods ->
  match resolve_event_source m source_name with
  | Ok gen => exists i l, m_src_gens m !! i = Some gen /\ first_best likelihoods i l
  | Throw e => (exists ex, e = EJ ex) /\ forall l, l ∈ likelihoods -> SFltb (S754_zero false) l = false
  | Undef => False
  end.
Proof.
  intros Hu Hl. unfold resolve_event_source. rewrite Hu.
  destruct (best_generator_spec source_name (m_src_gens m) likelihoods [] [] (S754_zero false) None) as (g & b & -> & Hb);
    [done|done|by split; [|set_solver]|].
  simpl in *. destruct g as [g|]; simpl.
  - destruct Hb as (i & Hi & Hf). eauto.
  - destruct Hb as [-> Hb]. eauto.
Qed.

(** What opening the source [name] adds to the sources. *)
Definition opens m (name : string) (src : EventSource) : Prop :=
  exists gen src0, resolve_event_source m name = Ok gen /\ MakeJEventSource gen name = Ok src0 /\
    src = mkEventSource (source_resource src0) (mPluginName gen) true (m_nskip src0) (m_nevents src0).

Definition with_sources (srcs : list EventSource) s : State U FactoryGenerator :=
  mkState (set_evt_srces srcs (manager s)) (params s) (user s).

Lemma open_sources_ok names : forall s made,
  Forall2 (opens (manager s)) names made ->
  for_each names open_source s = (Ok tt, with_sources (m_evt_srces (manager s) ++ made) s).
Proof.
  induction names as [|n names IH]; intros s made H.
  - apply Forall2_nil_inv_l in H as ->. rewrite app_nil_r. by destruct s as [[] ? ?].
  - apply Forall2_cons_inv_l in H as (src & made' & (gen & src0 & Hr & Hm & Hsrc) & H & ->).
    assert (Hopen : open_source n s = (Ok tt, with_sources (m_evt_srces (manager s) ++ [src]) s)).
    { unfold open_source. autorewrite with monad. unfold lift, mbind, M_bind. rewrite Hr, Hm. by subst src. }
    cbn [for_each]. mstep Hopen. rewrite (IH _ made'); [|exact H].
    unfold with_sources. simpl. by rewrite <- app_assoc.
Qed.

(** Every named input becomes one source.  [resolve_event_sources] keeps the sources that were added
    directly and appends, in the order of the names, one source per name, made by the user's generator
    or else the best one and attributed to that generator's plugin; all of them get the global limits
    where they have none of their own.  If the user's type is unknown, or after some inputs one cannot
    be opened, it throws, with only the sources before that one opened. *)
Theorem named_inputs_become_sources s made rest :
  let m := manager s in
  match resolve_user_event_source_generator m with
  | Ok g =>
      let m1 := set_user_gen g m in
      m_src_names m = take (length made) (m_src_names m) ++ rest ->
      Forall2 (opens m1) (take (length made) (m_src_names m)) made ->
      match rest with
      | [] => resolve_event_sources s = (Ok tt, mkState (set_evt_srces (limit_source (m_global_nskip (m_options m))
                (m_global_nevents (m_options m)) <$> m_evt_srces m ++ made) m1) (params s) (user s))
      | name :: _ => forall e, resolve_event_source m1 name = Throw e ->
          resolve_event_sources s = (Throw e, mkState (set_evt_srces (m_evt_srces m ++ made) m1) (params s) (user s))
      end
  | Throw e => resolve_event_sources s = (Throw e, s) /\ (exists ex, e = EJ ex) /\
      forall g, g ∈ m_src_gens m -> GetType g <> m_user_evt_src_typename (m_options m)
  | Undef => False
  end.
Proof.
  intros m. destruct (resolve_user_event_source_generator m) as [g|e|] eqn:Hg.
  - intros m1 Hnames Hmade. set (s1 := mkState m1 (params s) (user s)).
    pose proof (open_sources_ok (take (length made) (m_src_names m)) s1 made Hmade) as Hopen.
    assert (Hrun : resolve_event_sources s = (_ ← for_each (m_src_names m) open_source; modify_manager (fun m =>
      set_evt_srces (limit_source (m_global_nskip (m_options m)) (m_global_nevents (m_options m)) <$> m_evt_srces m) m)) s1).
    { unfold resolve_event_sources. autorewrite with monad. unfold lift, mbind, M_bind at 1. fold m. by rewrite Hg. }
    rewrite Hrun. destruct rest as [|name rest].
    + rewrite app_nil_r in Hnames. rewrite Hnames. mstep Hopen. done.
    + intros e He. erewrite M_bind_throw; [reflexivity|]. rewrite Hnames, for_each_app. mstep Hopen. cbn [for_each].
      erewrite M_bind_throw; [reflexivity|]. unfold open_source. autorewrite with monad. unfold lift, mbind, M_bind.
      change (resolve_event_source _ name) with (resolve_event_source m1 name). by rewrite He.
  - split.
    + unfold resolve_event_sources. autorewrite with monad. unfold lift, mbind, M_bind. fold m. by rewrite Hg.
    + unfold resolve_user_event_source_generator in Hg. case_decide; [done|]. case_match eqn:Hf; [done|]. injection Hg as <-.
      split; [by eexists|]. intros g Hin Heq. rewrite list_elem_of_In in Hin. pose proof (find_none _ _ Hf g Hin) as Hn.
      by rewrite bool_decide_eq_false in Hn.
  - unfold resolve_user_event_source_generator in Hg. by repeat case_match.
Qed.

Definition summarized (name : string) s : State U FactoryGenerator :=
  mkState (add_summary name (manager s)) (params s) (user s).

Lemma summarize_all {A} (name : A -> string) (l : list A) : forall s,
  exists s', for_each l (fun x => summarize (name x)) s = (Ok tt, s') /\
    m_summary (manager s') = m_summary (manager s) ++ (name <$> l).
Proof.
  induction l as [|x l IH]; intros s; [exists s; by rewrite app_nil_r|].
  destruct (IH (summarized (name x) s)) as (s' & H & Hs'). exists s'. split; [|rewrite Hs'; simpl; by rewrite <- app_assoc].
  cbn [for_each]. mstep (eq_refl : summarize (name x) s = (Ok tt, summarized (name x) s)). exact H.
Qed.

Lemma init_all (l : list FactoryObj) : forall s,
  (forall name init st, (name, init) ∈ l -> (init st).1 <> Undef) ->
  exists s', for_each l (fun fac => _ ← try_init fac.2; summarize fac.1) s = (Ok tt, s') /\
    m_summary (manager s') = m_summary (manager s) ++ l.*1.
Proof.
  induction l as [|[name init] l IH]; intros s Hl; [exists s; by rewrite app_nil_r|].
  assert (Ht : exists ps u, try_init init s = (Ok tt, mkState (manager s) ps u)).
  { pose proof (Hl name init (params s, user s) (list_elem_of_here _ _)) as Hn. unfold try_init.
    destruct (init (params s, user s)) as [r [ps u]]. exists ps, u. by destruct r. }
  destruct Ht as (ps & u & Ht). set (s1 := summarized name (mkState (manager s) ps u)).
  destruct (IH s1) as (s' & H & Hs'); [intros; eapply Hl; by right|].
  exists s'. split; [|rewrite Hs'; simpl; by rewrite <- app_assoc].
  cbn [for_each fst snd]. rewrite M_bind_assoc. mstep Ht. mstep (eq_refl : summarize name _ = (Ok tt, s1)). exact H.
Qed.

(** Factories that throw in [Init] do not stop the configuration: as long as none is undefined,
    [initialize_components] returns, with every component in the summary, in order. *)
Lemma initialization_swallows_exceptions new_factory_set s facs mfacs :
  new_factory_set (m_fac_gens (manager s)) = Ok (facs, mfacs) ->
  (forall name init st, (name, init) ∈ facs ++ mfacs -> (init st).1 <> Undef) ->
  exists s', initialize_components (U := U) new_factory_set s = (Ok tt, s') /\
    m_summary (manager s') = m_summary (manager s) ++ (source_resource <$> m_evt_srces (manager s)) ++
      (component_name <$> m_evt_procs (manager s)) ++ (component_name <$> m_unfolders (manager s)) ++ facs.*1 ++ mfacs.*1.
Proof.
  intros Hf Hok. unfold initialize_components. autorewrite with monad.
  destruct (summarize_all source_resource (m_evt_srces (manager s)) s) as (s1 & H1 & E1). mstep H1.
  destruct (summarize_all component_name (m_evt_procs (manager s)) s1) as (s2 & H2 & E2). mstep H2.
  destruct (summarize_all component_name (m_unfolders (manager s)) s2) as (s3 & H3 & E3). mstep H3.
  assert (H : lift (new_factory_set (m_fac_gens (manager s))) s3 = (Ok (facs, mfacs), s3)) by (unfold lift; by rewrite Hf).
  mstep H. cbn [fst snd].
  destruct (init_all facs s3) as (s4 & H4 & E4); [intros; eapply Hok, elem_of_app; eauto|]. mstep H4.
  destruct (init_all mfacs s4) as (s5 & H5 & E5); [intros; eapply Hok, elem_of_app; eauto|]. exists s5. split; [exact H5|].
  rewrite E5, E4, E3, E2, E1. by rewrite <- !app_assoc.
Qed.

End Resolving.

(** ** Witnesses *)

(** Likelihoods 1/2, NaN and 3/4, with 53-bit mantissas; the third generator is chosen. *)
Definition half : spec_float := S754_finite false 4503599627370496 (-53).
Definition three_quarters : spec_float := S754_finite false 6755399441055744 (-53).

Definition generator (type : string) (l : spec_float) : SourceGenerator :=
  mkSourceGenerator "plugin" true type (fun _ => Ok l) (fun name => Ok (mkEventSource name EmptyString false 0 0)).

Definition some_manager : JComponentManager unit :=
  mkJComponentManager EmptyString ["a.root"%string]
    [generator "A" half; generator "B" S754_nan; generator "C" three_quarters]
    [] [] [] [] (mkOptions EmptyString false 100 5 EmptyString ∅) None [].

Lemma best_generator_is_chosen_witness :
  match resolve_event_source some_manager "a.root" with
  | Ok gen => GetType gen = "C"%string /\ exists i l, m_src_gens some_manager !! i = Some gen /\
      first_best [half; S754_nan; three_quarters] i l
  | _ => False
  end.
Proof.
  pose proof (best_generator_is_chosen some_manager "a.root"
    [half; S754_nan; three_quarters] eq_refl
    ltac:(repeat constructor)) as H.
  split; [reflexivity|exact H].
Defined.

Lemma named_inputs_become_sources_witness :
  exists s', resolve_event_sources (mkState some_manager empty_manager tt) = (Ok tt, s') /\
    m_evt_srces (manager s') = [mkEventSource "a.root" "plugin" true 5 100].
Proof.
  pose proof (named_inputs_become_sources (mkState some_manager empty_manager tt)
    [mkEventSource "a.root" "plugin" true 0 0] []) as H.
  simpl in H. specialize (H eq_refl). eexists. split; [apply H|reflexivity].
  repeat constructor. eexists _, _. split; [reflexivity|]. split; reflexivity.
Defined.

End ComponentManager.
