(* ===== verification/JAutoActivator.v ===== *)
(** * JAutoActivator: factories that run although nobody asks for them

    Model of [Utils/JAutoActivator.{h,cc}]: parsing the list of factories, and running them for an
    event.  Strings are lists of characters where they are taken apart. *)

From Stdlib Require Import Ascii.
From S2P Require Import Prelude JEvent JComponent JFactory JFactorySet JParameterManager.
Import Event Component Factory FactorySet Parameters.
Local Open Scope Z_scope.

Module AutoActivator.

(** [Split]: the characters before the search position, and those from it on. *)
Fixpoint split_from (before rest : line) : line * line :=
  match rest with
  | [] => (before, [])
  | c :: rest1 =>
      if Ascii.eqb c ":" then
        match rest1 with
        | d :: rest2 => if Ascii.eqb d ":" then split_from (before ++ [c; d]) rest2 else (before, rest1)
        | [] => (before, [])
        end
      else split_from (before ++ [c]) rest1
  end.

Definition Split (factory_name : line) : line * line := split_from [] factory_name.

(** The loop that cuts the list at its commas; [buf] is what has been read of the next item. *)
Fixpoint cut_at_commas (buf str : line) : list line :=
  match str with
  | [] => if decide (buf = []) then [] else [buf]
  | c :: str =>
      if Ascii.eqb c "," then (if decide (buf = []) then [] else [buf]) ++ cut_at_commas [] str
      else cut_at_commas (buf ++ [c]) str
  end.

(** [Init]: the factories that the parameter names. *)
Definition Init (m_auto_activated_factories : list (string * string)) : M JParameterManager (list (string * string)) :=
  autoactivate_conf ← GetParameter (T := string) "autoactivate";
  match autoactivate_conf with
  | None => mret m_auto_activated_factories
  | Some str =>
      let myfactories := cut_at_commas [] (chars str) in
      mret (m_auto_activated_factories ++ ((fun f => (text (Split f).1, text (Split f).2)) <$> myfactories))
  end.

Section Processing.
Context (demangle : exn -> string) {U : Type} (event : JEvent) (callbacks : Z -> Callbacks (EventState U)).

(** [Process]: the factories are looked up by name. *)
Definition Process (m_auto_activated_factories : list (string * string)) : M (list Z * EventState U) unit :=
  for_each m_auto_activated_factories (fun pair =>
    es ← get_state;
    factory ← lift (GetFactory_named (es_store es) (es_set es) pair.1 pair.2);
    match factory with
    | Some p => on_factory p (Create demangle (callbacks p) event)
    | None => throwM ("AutoActivator could not find factory with typename=" +:+ pair.1 +:+ ", tag=" +:+ pair.2)
    end).

End Processing.

(** ** The list that is parsed is the list that was written *)

(** A C++ type name: colons come in pairs, and there is no comma. *)
Fixpoint type_name_ok (l : line) : bool :=
  match l with
  | [] => true
  | c :: l1 =>
      if Ascii.eqb c ":" then
        match l1 with d :: l2 => Ascii.eqb d ":" && type_name_ok l2 | [] => false end
      else negb (Ascii.eqb c ",") && type_name_ok l1
  end.

(** A tag: no comma, and it does not begin with a colon. *)
Definition tag_ok (l : line) : bool :=
  forallb (fun c => negb (Ascii.eqb c ",")) l && match l with c :: _ => negb (Ascii.eqb c ":") | [] => true end.

Definition entry (f : string * string) : line := chars f.1 ++ [":"%char] ++ chars f.2.

Fixpoint entries (fs : list (string * string)) : line :=
  match fs with
  | [] => []
  | [f] => entry f
  | f :: fs => entry f ++ [","%char] ++ entries fs
  end.

Lemma split_from_name n : forall (name before tag : line),
  (length name <= n)%nat -> type_name_ok name = true -> tag_ok tag = true ->
  split_from before (name ++ [":"%char] ++ tag) = (before ++ name, tag).
Proof.
  induction n as [|n IH]; intros name before tag Hn Hname Htag.
  - destruct name; [|simpl in Hn; lia]. simpl. rewrite app_nil_r. destruct tag as [|d tag]; [done|].
    unfold tag_ok in Htag. apply andb_prop in Htag as [_ Htag]. apply negb_true_iff in Htag. by rewrite Htag.
  - destruct name as [|c name]; [apply (IH []); simpl; (lia || done)|]. simpl in Hn, Hname. cbn [app split_from].
    destruct (Ascii.eqb c ":").
    + destruct name as [|d name]; [done|]. apply andb_prop in Hname as [Hd Hname]. cbn [app]. rewrite Hd.
      change ((":" :: tag)%char) with ([":"%char] ++ tag). rewrite IH; [|simpl in Hn; lia|done|done].
      by rewrite <- app_assoc.
    + apply andb_prop in Hname as [_ Hname]. change ((":" :: tag)%char) with ([":"%char] ++ tag).
      rewrite IH; [|lia|done|done]. by rewrite <- app_assoc.
Qed.

Definition comma_free (l : line) : Prop := Forall (fun c => Ascii.eqb c "," = false) l.

Lemma type_name_comma_free n : forall l, (length l <= n)%nat -> type_name_ok l = true -> comma_free l.
Proof.
  induction n as [|n IH]; intros [|c l] Hn Hl; simpl in *; try constructor; try lia.
  - destruct (Ascii.eqb_spec c ":") as [->|]; [done|]. apply andb_prop in Hl as [Hc _]. by apply negb_true_iff in Hc.
  - destruct (Ascii.eqb_spec c ":") as [->|].
    + destruct l as [|d l]; [done|]. apply andb_prop in Hl as [Hd Hl]. apply Ascii.eqb_eq in Hd as ->.
      constructor; [done|]. apply IH; [simpl in Hn; lia|done].
    + apply andb_prop in Hl as [_ Hl]. apply IH; [lia|done].
Qed.

Lemma cut_item (l rest : line) : forall buf, comma_free l ->
  cut_at_commas buf (l ++ rest) = cut_at_commas (buf ++ l) rest.
Proof.
  induction l as [|c l IH]; intros buf Hl; [by rewrite app_nil_r|].
  inversion_clear Hl as [|? ? Hc Hl']. simpl. rewrite Hc, IH by done. by rewrite <- app_assoc.
Qed.

Definition factory_ok (f : string * string) : Prop := type_name_ok (chars f.1) = true /\ tag_ok (chars f.2) = true.

Lemma entry_comma_free f : factory_ok f -> comma_free (entry f).
Proof.
  intros [Hn Ht]. unfold entry. apply Forall_app. split; [by eapply type_name_comma_free|]. constructor; [done|].
  apply andb_prop in Ht as [Ht _]. apply Forall_forall. intros c Hc. rewrite forallb_forall in Ht.
  rewrite list_elem_of_In in Hc. by apply negb_true_iff, Ht.
Qed.

Lemma entry_not_nil f : entry f <> [].
Proof. unfold entry. by destruct (chars f.1). Qed.

Lemma cut_entries fs : Forall factory_ok fs -> cut_at_commas [] (entries fs) = entry <$> fs.
Proof.
  induction 1 as [|f fs Hf Hfs IH]; [done|]. pose proof (entry_comma_free f Hf) as Hc.
  destruct fs as [|g fs].
  - simpl. rewrite <- (app_nil_r (entry f)), cut_item by done. simpl. rewrite app_nil_r.
    rewrite decide_False by apply entry_not_nil. done.
  - change (entries (f :: g :: fs)) with (entry f ++ [","%char] ++ entries (g :: fs)). rewrite cut_item by done.
    cbn [app cut_at_commas]. rewrite Ascii.eqb_refl. rewrite decide_False by apply entry_not_nil.
    by rewrite IH.
Qed.

(** The factories that are activated are those that were named.  A list of factories, each written
    as its type name (which may have namespaces), a colon and its tag, separated by commas, is parsed
    back to the same list, as long as the tags contain no comma and do not begin with a colon. *)
Theorem autoactivate_round_trip fs (m : JParameterManager) p :
  Forall factory_ok fs -> FindParameter "autoactivate" m = Some p -> m_value p = text (entries fs) ->
  exists m', Init [] m = (Ok fs, m').
Proof.
  intros Hfs Hp Hv. unfold Init, GetParameter. eexists.
  assert (Hg : GetParameter (T := string) "autoactivate" m =
    (Ok (Some (text (entries fs))), (update (ToLower "autoactivate") (SetIsUsed true) m).2)).
  { unfold GetParameter. autorewrite with monad. rewrite Hp. unfold lift, mbind, M_bind. simpl. by rewrite Hv. }
  mstep Hg. unfold mret, M_ret. do 2 f_equal. simpl.
  assert (Hct : forall l, chars (text l) = l) by apply String.list_ascii_of_string_of_list_ascii.
  assert (Htc : forall s, text (chars s) = s) by apply String.string_of_list_ascii_of_string.
  rewrite Hct, cut_entries by done. clear Hp Hv Hg. induction Hfs as [|[n t] fs [Hn Ht] _ IH]; [done|].
  rewrite !fmap_cons, IH. f_equal.
  assert (Hsplit : Split (entry (n, t)) = (chars n, chars t)) by exact (split_from_name _ (chars n) [] (chars t) (le_n _) Hn Ht).
  rewrite Hsplit. cbn [fst snd]. by rewrite !Htc.
Qed.

Lemma autoactivate_round_trip_witness :
  let fs := [("edm::Hit", "raw"); ("Track", "")]%string in
  exists m m', FindParameter "autoactivate" m <> None /\ Init [] m = (Ok fs, m').
Proof.
  intros fs.
  set (m := mkManager {[ "autoactivate" := make_parameter "autoactivate" "edm::Hit:raw,Track:" EmptyString EmptyString false false ]}%string 1 1).
  destruct (autoactivate_round_trip fs m (make_parameter "autoactivate" "edm::Hit:raw,Track:" EmptyString EmptyString false false)
    ltac:(repeat constructor) ltac:(vm_compute; reflexivity) ltac:(vm_compute; reflexivity)) as [m' H].
  exists m, m'. split; [vm_compute; discriminate|exact H].
Defined.

End AutoActivator.
