(* ===== verification/JEventGroupTracker.v ===== *)
(** * JEventGroupTracker: counting the events of a group that are in flight

    Model of [Services/JEventGroupTracker.h].  The members of a [JEventGroup] are atomic, but its methods
    are not: each access to a member is one step.  The system is one group, an event source that
    emits the events of the group and then closes it, and processors that finish events; an event
    can be finished once [StartEvent] has returned.  Groups are objects, known by their address. *)

From S2P Require Import Prelude.
Local Open Scope Z_scope.

Module EventGroup.

Record JEventGroup := mkJEventGroup {
  m_group_id : Z;
  m_events_in_flight : Z;
  m_group_closed : bool
}.

(** The constructor. *)
Definition make_group (group_id : Z) : JEventGroup := mkJEventGroup group_id 0 true.

Definition set_in_flight (n : Z) (g : JEventGroup) : JEventGroup :=
  mkJEventGroup (m_group_id g) (i32 n) (m_group_closed g).

Definition set_closed (b : bool) (g : JEventGroup) : JEventGroup :=
  mkJEventGroup (m_group_id g) (m_events_in_flight g) b.

Definition GetGroupId (g : JEventGroup) : Z := m_group_id g.

(** [StartEvent]: [m_events_in_flight += 1], then [m_group_closed = false]. *)
Definition start_count (g : JEventGroup) : JEventGroup := set_in_flight (m_events_in_flight g + 1) g.
Definition start_open (g : JEventGroup) : JEventGroup := set_closed false g.
Definition StartEvent (g : JEventGroup) : JEventGroup := start_open (start_count g).

(** [FinishEvent]: the [fetch_sub] and its [assert], then the test. *)
Definition finish_count (g : JEventGroup) : outcome (Z * JEventGroup) :=
  let prev_events_in_flight := m_events_in_flight g in
  _ ← assertb (0 <? prev_events_in_flight);
  Ok (prev_events_in_flight, set_in_flight (prev_events_in_flight - 1) g).
Definition finish_test (prev_events_in_flight : Z) (g : JEventGroup) : bool :=
  (prev_events_in_flight =? 1) && m_group_closed g.
Definition FinishEvent (g : JEventGroup) : outcome (bool * JEventGroup) :=
  r ← finish_count g; Ok (finish_test r.1 r.2, r.2).

Definition CloseGroup (g : JEventGroup) : JEventGroup := set_closed true g.

(** [IsGroupFinished], when nobody interferes between the two reads. *)
Definition IsGroupFinished (g : JEventGroup) : bool := m_group_closed g && (m_events_in_flight g =? 0).

(** [JEventGroupManager]: the groups by number; [fresh] is the address that [new] returns. *)
Definition GetEventGroup (fresh group_id : Z) (m_eventgroups : gmap Z Z) : Z * gmap Z Z :=
  match m_eventgroups !! group_id with
  | None => (fresh, <[group_id := fresh]> m_eventgroups)
  | Some group => (group, m_eventgroups)
  end.

(** ** One source and any number of processors *)

(** Where the source is: [n] more events to start; inside [StartEvent], between its two
    accesses, with [n] more to start afterwards; done. *)
Inductive SourcePoint := Emitting (n : nat) | Starting (n : nat) | Done.

#[export] Instance SourcePoint_eq_dec : EqDecision SourcePoint.
Proof. solve_decision. Defined.

Record System := mkSystem {
  group : JEventGroup;
  source : SourcePoint;
  flying : nat; (* events emitted, and not finished *)
  testing : list Z; (* processors inside FinishEvent, with what fetch_sub returned *)
  told : nat; (* calls of FinishEvent that returned true *)
  late : bool (* an event was finished after the group was closed *)
}.

Inductive group_step : System -> System -> Prop :=
| gs_start_count g n f t k l :
    group_step (mkSystem g (Emitting (S n)) f t k l) (mkSystem (start_count g) (Starting n) f t k l)
| gs_start_open g n f t k l :
    group_step (mkSystem g (Starting n) f t k l) (mkSystem (start_open g) (Emitting n) (S f) t k l)
| gs_close g f t k l :
    group_step (mkSystem g (Emitting 0) f t k l) (mkSystem (CloseGroup g) Done f t k l)
| gs_finish_count g src f t k l prev g' :
    finish_count g = Ok (prev, g') ->
    group_step (mkSystem g src (S f) t k l)
      (mkSystem g' src f (prev :: t) k (l || bool_decide (src = Done)))
| gs_finish_test g src f t t' k l prev :
    t ≡ₚ prev :: t' ->
    group_step (mkSystem g src f t k l)
      (mkSystem g src f t' (if finish_test prev g then S k else k) l).


Definition system0 (group_id : Z) (n : nat) : System := mkSystem (make_group group_id) (Emitting n) 0 [] 0 false.

(** Events that the source is starting, and that it has not started. *)
Definition starting (p : SourcePoint) : nat := match p with Starting _ => 1 | _ => 0 end.
Definition to_start (p : SourcePoint) : nat := match p with Emitting n | Starting n => n | Done => 0 end.

Record group_ok (n : nat) (s : System) : Prop := {
  go_count : m_events_in_flight (group s) = Z.of_nat (flying s + starting (source s));
  go_bound : (flying s + starting (source s) + to_start (source s) <= n)%nat;
  go_closed : source s = Done -> m_group_closed (group s) = true;
  go_late : late s = true -> source s = Done /\ (flying s = 0%nat -> (0 < told s)%nat \/ 1 ∈ testing s)
}.

Lemma group_step_ok n s s' :
  Z.of_nat n < 2 ^ 31 -> group_ok n s -> group_step s s' -> group_ok n s'.
Proof.
  intros Hn [Hc Hb Hcl Hl] Hs.
  destruct Hs as [g m f t k l|g m f t k l|g f t k l|g src f t k l prev g' Hf|g src f t t' k l prev Ht]; simpl in *.
  - split; simpl; [rewrite i32_small; lia|lia|done|naive_solver].
  - split; simpl; [lia|lia|done|naive_solver].
  - split; simpl; [lia|lia|done|naive_solver].
  - unfold finish_count, assertb in Hf. destruct (Z.ltb_spec 0 (m_events_in_flight g)); [|done].
    injection Hf as <- <-. split; simpl; [rewrite i32_small; lia|lia|done|].
    intros Hlate. assert (Hd : src = Done) by (destruct l; simpl in Hlate; [naive_solver|by apply bool_decide_eq_true in Hlate]).
    split; [done|]. intros ->. right. subst src. simpl in Hc. apply elem_of_cons. left. lia.
  - split; simpl; [done|done|done|]. intros Hlate. destruct (Hl Hlate) as [-> Htold]. split; [done|]. intros Hz.
    unfold finish_test. rewrite (Hcl eq_refl), andb_true_r. destruct (Htold Hz) as [?|Hin].
    + left. case_match; lia.
    + rewrite Ht, elem_of_cons in Hin. destruct (Z.eqb_spec prev 1); [left; lia|].
      right. destruct Hin; [congruence|done].
Qed.

Lemma group_run_ok id n s : Z.of_nat n < 2 ^ 31 -> steps group_step (system0 id n) s -> group_ok n s.
Proof.
  intros Hn Hs. eapply (steps_invariant _ (group_ok n)); [intros; by eapply group_step_ok|exact Hs|].
  split; simpl; [done|lia|done|done].
Qed.

(** Somebody learns that the group is finished.  With one source that starts [n] events and closes the
    group, and every event finished once, in any interleaving of the accesses: the counter is the
    number of events in flight, so the assertion in [FinishEvent] never fails; when the source is done
    and all calls have returned, [IsGroupFinished] is true; and if an event was finished after the group
    was closed, at least one call of [FinishEvent] has returned true. *)
Theorem group_finish_is_noticed id n s :
  Z.of_nat n < 2 ^ 31 -> steps group_step (system0 id n) s ->
  m_events_in_flight (group s) = Z.of_nat (flying s + starting (source s)) /\
  ((0 < flying s)%nat -> exists r, finish_count (group s) = Ok r) /\
  (source s = Done -> flying s = 0%nat -> IsGroupFinished (group s) = true /\
     (late s = true -> testing s = [] -> (0 < told s)%nat)).
Proof.
  intros Hn Hs. destruct (group_run_ok id n s Hn Hs) as [Hc Hb Hcl Hl]. split; [done|]. split.
  - intros Hf. unfold finish_count, assertb. rewrite Hc. destruct (Z.ltb_spec 0 (Z.of_nat (flying s + starting (source s)))); [eauto|lia].
  - intros Hd Hf. split.
    + unfold IsGroupFinished. by rewrite (Hcl Hd), Hc, Hf, Hd.
    + intros Hlate Ht. destruct (Hl Hlate) as [_ H]. rewrite Ht in H. destruct (H Hf); [done|set_solver].
Qed.

(** [FinishEvent] may report the end of a group twice, and too early.  Two events: the first is
    finished before the second is started; its processor reads [m_group_closed] only after the
    source has started the second event and closed the group, and is told that the group is finished
    while an event is in flight; then the second event's processor is told so as well. *)
Theorem group_end_reported_twice id :
  exists s s', steps group_step (system0 id 2) s /\ told s = 1%nat /\ flying s = 1%nat /\
    m_events_in_flight (group s) = 1 /\ steps group_step s s' /\ told s' = 2%nat.
Proof.
  eexists (mkSystem (mkJEventGroup id 1 true) Done 1 [] 1 false), (mkSystem (mkJEventGroup id 0 true) Done 0 [] 2 true).
  split.
  - eapply steps_cons; [apply gs_start_count|]. eapply steps_cons; [apply gs_start_open|].
    eapply steps_cons; [apply gs_finish_count; reflexivity|].
    eapply steps_cons; [apply gs_start_count|]. eapply steps_cons; [apply gs_start_open|].
    eapply steps_cons; [apply gs_close|]. eapply steps_cons; [apply gs_finish_test; reflexivity|apply steps_refl].
  - do 3 (split; [done|]). split; [|done].
    eapply steps_cons; [apply gs_finish_count; reflexivity|].
    eapply steps_cons; [apply gs_finish_test; reflexivity|apply steps_refl].
Qed.

(** ** Groups are identified by their numbers *)

(** A sequence of calls of [GetEventGroup]: the number asked for, and what [new] would return. *)
Fixpoint get_groups (calls : list (Z * Z)) (m : gmap Z Z) : list Z * gmap Z Z :=
  match calls with
  | [] => ([], m)
  | (group_id, fresh) :: calls =>
      let '(p, m1) := GetEventGroup fresh group_id m in
      let '(ps, m2) := get_groups calls m1 in (p :: ps, m2)
  end.

Definition injective_map (m : gmap Z Z) : Prop := forall i j p, m !! i = Some p -> m !! j = Some p -> i = j.

Lemma get_groups_spec calls : forall m,
  injective_map m -> NoDup calls.*2 -> (forall i p, m !! i = Some p -> p ∉ calls.*2) ->
  m ⊆ (get_groups calls m).2 /\ injective_map (get_groups calls m).2 /\
  Forall2 (fun c p => (get_groups calls m).2 !! c.1 = Some p) calls (get_groups calls m).1.
Proof.
  induction calls as [|[i fresh] calls IH]; intros m Hinj Hnd Hm; [done|].
  apply NoDup_cons in Hnd as [Hnot Hnd]. simpl. unfold GetEventGroup. destruct (m !! i) as [q|] eqn:Hi.
  - destruct (IH m Hinj Hnd) as (Hsub & Hinj' & Hf); [set_solver|]. destruct (get_groups calls m) as [ps m'].
    simpl in *. split; [done|]. split; [done|]. constructor; [|done]. by eapply lookup_weaken.
  - destruct (IH (<[i := fresh]> m)) as (Hsub & Hinj' & Hf).
    + intros j k p. rewrite !lookup_insert_Some. intros [[<- <-]|[_ Hj]] [[<- Hk]|[_ Hk]]; [done|..].
      * by destruct (Hm _ _ Hk); left.
      * subst. by destruct (Hm _ _ Hj); left.
      * by eapply Hinj.
    + done.
    + intros j p [[_ <-]|[_ Hj]]%lookup_insert_Some; [done|]. specialize (Hm _ _ Hj). set_solver.
    + destruct (get_groups calls _) as [ps m']. simpl in *. split; [|split; [done|]].
      * etransitivity; [by apply insert_subseteq|done].
      * constructor; [|done]. eapply lookup_weaken; [|exact Hsub]. apply lookup_insert_eq.
Qed.

(** Pointer equality is equality of group numbers.  However many groups are asked for, in whatever order,
    two calls of [GetEventGroup] return the same pointer exactly if they ask for the same number. *)
Theorem same_group_same_pointer calls i j ci cj pi pj :
  NoDup calls.*2 -> calls !! i = Some ci -> calls !! j = Some cj ->
  (get_groups calls ∅).1 !! i = Some pi -> (get_groups calls ∅).1 !! j = Some pj ->
  pi = pj <-> ci.1 = cj.1.
Proof.
  intros Hnd Hi Hj Hpi Hpj.
  destruct (get_groups_spec calls ∅) as (_ & Hinj & Hf); [by intros ? ? ?|done|by intros ? ?|].
  pose proof (Forall2_lookup_lr _ _ _ _ _ _ Hf Hi Hpi) as H1. pose proof (Forall2_lookup_lr _ _ _ _ _ _ Hf Hj Hpj) as H2.
  split; intros Heq; [subst; by eapply Hinj|]. cbn beta in H1, H2. rewrite Heq in H1. congruence.
Qed.

(** ** Witnesses *)

Lemma group_finish_is_noticed_witness :
  exists s, steps group_step (system0 3 1) s /\ IsGroupFinished (group s) = true /\ (0 < told s)%nat.
Proof.
  set (s := mkSystem (mkJEventGroup 3 0 true) Done 0 [] 1 true).
  assert (Hs : steps group_step (system0 3 1) s).
  { eapply steps_cons; [apply gs_start_count|]. eapply steps_cons; [apply gs_start_open|].
    eapply steps_cons; [apply gs_close|]. eapply steps_cons; [apply gs_finish_count; reflexivity|].
    eapply steps_cons; [apply gs_finish_test; reflexivity|apply steps_refl]. }
  exists s. split; [exact Hs|].
  destruct (group_finish_is_noticed 3 1 s ltac:(lia) Hs) as (_ & _ & H). destruct (H eq_refl eq_refl) as [H1 H2].
  split; [exact H1|]. by apply H2.
Defined.

Lemma same_group_same_pointer_witness :
  (get_groups [(3, 100); (4, 101); (3, 102)] ∅).1 = [100; 101; 100] /\ (100 = 100 <-> 3 = 3).
Proof.
  split; [reflexivity|].
  apply (same_group_same_pointer [(3, 100); (4, 101); (3, 102)] 0 2 (3, 100) (3, 102) 100 100); try reflexivity.
  refine (bool_decide_unpack _ _). vm_compute. exact I.
Defined.

End EventGroup.
