(* ===== verification/JTablePrinter.v ===== *)
(** * JTablePrinter: text tables

    Model of [Utils/JTablePrinter.{h,cc}].  Text is a list of characters; [Render] returns what is
    written to the stream.  [substr], [setw] and the conversions between [int] and [size_t] are
    those of C++. *)

From Stdlib Require Import Ascii.
From S2P Require Import Prelude.
Local Open Scope Z_scope.

Module TablePrinter.

Abbreviation text := (list ascii).
Definition space : ascii := " ".
Definition newline : ascii := "010".
Definition dash : ascii := "-".

Inductive Justify := Left | Center | Right.
Inductive RuleStyle := Across | Broken | NoRule.

Record Column := mkColumn {
  header : text;
  values : list text;
  justify : Justify;
  desired_width : Z;
  contents_width : Z;
  use_desired_width : bool
}.

Record JTablePrinter := mkJTablePrinter {
  current_column : nat;
  current_row : nat;
  columns : list Column;
  top_rule : RuleStyle;
  header_rule : RuleStyle;
  bottom_rule : RuleStyle;
  indent : Z;
  cell_margin : Z;
  vertical_padding : bool
}.

Definition new_table : JTablePrinter := mkJTablePrinter 0 0 [] Across Broken Across 2 2 false.

Definition AddColumn (h : text) (j : Justify) (width : Z) (t : JTablePrinter) : JTablePrinter :=
  mkJTablePrinter (current_column t) (current_row t)
    (columns t ++ [mkColumn h [] j width (i32 (sizeZ h)) (negb (width =? 0))])
    (top_rule t) (header_rule t) (bottom_rule t) (indent t) (cell_margin t) (vertical_padding t).

(** [t | cell], for a string. *)
Definition add_cell (cell : text) (t : JTablePrinter) : outcome JTablePrinter :=
  let len := sizeZ cell in
  match columns t !! current_column t with
  | None => Undef
  | Some col =>
      let width := if u64 (contents_width col) <? len then i32 len else contents_width col in
      let padding := if (u64 (desired_width col) <? len) && negb (desired_width col =? 0) then true
                     else vertical_padding t in
      let col' := mkColumn (header col) (values col ++ [cell]) (justify col) (desired_width col) width (use_desired_width col) in
      let next := S (current_column t) in
      let wrap := bool_decide (length (columns t) <= next)%nat in
      Ok (mkJTablePrinter (if wrap then O else next) (if wrap then S (current_row t) else current_row t)
            (<[current_column t := col']> (columns t))
            (top_rule t) (header_rule t) (bottom_rule t) (indent t) (cell_margin t) padding)
  end.

(** ** Breaking text into lines *)

(** [contents.substr(from, n)]. *)
Definition substr (contents : text) (from n : nat) : text := firstn n (skipn from contents).

(** The loop of [SplitContentsByNewlines] on what follows [line_end]; [buf] is the text from
    [line_start] to there.  After a newline [line_end] moves on by one more, past a character
    that has not been looked at. *)
Fixpoint by_newlines (buf rest : text) : list text :=
  match rest with
  | [] => [buf]
  | c :: rest =>
      if Ascii.eqb c newline then
        buf :: match rest with
               | [] => [[]]
               | d :: rest => by_newlines [d] rest
               end
      else by_newlines (buf ++ [c]) rest
  end.

Definition SplitContentsByNewlines (contents : text) : list text := by_newlines [] contents.

(** The loop of [SplitContentsBySpaces]: [n] iterations, from [i] on. *)
Fixpoint by_spaces (contents : text) (max_width n i split_start split_end : nat) (split_by_spaces : list text)
    : list text * nat :=
  match n with
  | O => (split_by_spaces, split_start)
  | S n =>
      let split_end := if bool_decide (contents !! i = Some space) then i else split_end in
      if (i - split_start =? max_width)%nat then
        if (split_end =? split_start)%nat then
          by_spaces contents max_width n (S i) i i (split_by_spaces ++ [substr contents split_start (i - split_start)])
        else
          by_spaces contents max_width n (S i) (S split_end) (S split_end)
            (split_by_spaces ++ [substr contents split_start (split_end - split_start)])
      else by_spaces contents max_width n (S i) split_start split_end split_by_spaces
  end.

Definition SplitContentsBySpaces (contents : text) (max_width : nat) : list text :=
  if (length contents <=? max_width)%nat then [contents]
  else
    let '(lines, split_start) := by_spaces contents max_width (length contents) 0 0 0 [] in
    lines ++ [substr contents split_start (length contents - split_start)].

Definition SplitContents (contents : text) (max_width : nat) : list text :=
  let split_by_newlines := SplitContentsByNewlines contents in
  if (max_width =? 0)%nat then split_by_newlines
  else split_by_newlines ≫= fun s => SplitContentsBySpaces s max_width.

(** ** Output *)

(** [for (int i=0; i<n; ++i) os << c]. *)
Definition times (n : Z) (c : ascii) : text := replicate (Z.to_nat n) c.

Definition FormatLine (contents : text) (max_width : Z) (j : Justify) : text :=
  let cs := sizeZ contents in
  match j with
  | Left => contents ++ times (max_width - cs) space
  | Right => times (max_width - cs) space ++ contents
  | Center =>
      let free := u64 (max_width - cs) in
      let lpad := i32 (free / 2) in
      let rpad := i32 (u64 (free - lpad)) in
      times lpad space ++ contents ++ times rpad space
  end.

Definition width (col : Column) : Z := if use_desired_width col then desired_width col else contents_width col.

Definition table_width (t : JTablePrinter) : Z :=
  foldl (fun w col => w + width col) 0 (columns t) + (sizeZ (columns t) - 1) * cell_margin t.

Definition rule (style : RuleStyle) (t : JTablePrinter) : text :=
  match style with
  | Broken => times (indent t) space
      ++ (columns t ≫= fun col => times (width col) dash ++ times (cell_margin t) space) ++ [newline]
  | Across => times (indent t) space ++ times (table_width t) dash ++ [newline]
  | NoRule => []
  end.

(** The cells of a row, each broken into lines. *)
Fixpoint split_cells (cols : list Column) (row : nat) : outcome (list (Column * list text)) :=
  match cols with
  | [] => Ok []
  | col :: cols =>
      match values col !! row with
      | None => Undef
      | Some v => rest ← split_cells cols row; Ok ((col, SplitContents v (Z.to_nat (u64 (desired_width col)))) :: rest)
      end
  end.

(** One line of a row, without its end. *)
Definition row_line (t : JTablePrinter) (cells : list (Column * list text)) (line : nat) : text :=
  times (indent t) space ++
  (cells ≫= fun cell => FormatLine (default [] (cell.2 !! line)) (width cell.1) (justify cell.1) ++ times (cell_margin t) space).

Definition row_lines (t : JTablePrinter) (row : nat) : outcome (list text) :=
  cells ← split_cells (columns t) row;
  let line_count := foldl (fun n cell => if (n <? length (cell : Column * list text).2)%nat then length cell.2 else n) 1%nat cells in
  let line_count := if vertical_padding t then S line_count else line_count in
  Ok (row_line t cells <$> seq 0 line_count).

Fixpoint render_rows (t : JTablePrinter) (n row : nat) : outcome text :=
  match n with
  | O => Ok []
  | S n =>
      lines ← row_lines t row;
      rest ← render_rows t n (S row);
      Ok ((lines ≫= fun l => l ++ [newline]) ++ rest)
  end.

Definition Render (t : JTablePrinter) : outcome text :=
  rows ← render_rows t (current_row t) 0;
  Ok (rule (top_rule t) t
      ++ times (indent t) space
      ++ (columns t ≫= fun col => FormatLine (header col) (width col) Center ++ times (cell_margin t) space) ++ [newline]
      ++ rule (header_rule t) t
      ++ rows
      ++ rule (bottom_rule t) t).

(** ** Wrapping *)

(** [rs] are consecutive pieces of a text, broken between characters or in place of a space. *)
Inductive pieces : text -> list text -> Prop :=
| pieces_last l : pieces l [l]
| pieces_cut a l rs : pieces l rs -> pieces (a ++ l) (a :: rs)
| pieces_space a l rs : pieces l rs -> pieces (a ++ space :: l) (a :: rs).

Lemma substr_drop contents a b : (a <= b)%nat -> skipn a contents = substr contents a (b - a) ++ skipn b contents.
Proof.
  intros H. unfold substr. rewrite <- (firstn_skipn (b - a) (skipn a contents)) at 1. f_equal.
  rewrite skipn_skipn. f_equal. lia.
Qed.

Lemma substr_length contents a n : (length (substr contents a n) <= n)%nat.
Proof. unfold substr. rewrite length_firstn. lia. Qed.

Lemma by_spaces_ok contents w n : forall i start stop acc,
  (0 < w)%nat -> (i + n = length contents)%nat -> (start <= stop <= i)%nat -> (i - start <= w)%nat ->
  ((start < stop)%nat -> contents !! stop = Some space) ->
  Forall (fun l => (length l <= w)%nat) acc ->
  (forall rest, pieces (skipn start contents) rest -> pieces contents (acc ++ rest)) ->
  let r := by_spaces contents w n i start stop acc in
  Forall (fun l => (length l <= w)%nat) r.1 /\ (length contents - r.2 <= w)%nat /\
  forall rest, pieces (skipn r.2 contents) rest -> pieces contents (r.1 ++ rest).
Proof.
  induction n as [|n IH]; intros i start stop acc Hw Hi Hs Hd Hsp Hacc Hp; cbn [by_spaces].
  { cbn [fst snd]. split; [done|]. split; [lia|done]. }
  set (stop' := if bool_decide (contents !! i = Some space) then i else stop).
  assert (Hs' : (start <= stop' <= i)%nat) by (unfold stop'; case_match; lia).
  assert (Hsp' : (start < stop')%nat -> contents !! stop' = Some space).
  { unfold stop'. case_bool_decide; [done|exact Hsp]. }
  destruct (Nat.eqb_spec (i - start) w) as [Hfull|]; [destruct (Nat.eqb_spec stop' start) as [Heq|]|].
  - apply IH; try lia; [apply Forall_app; split; [done|]; constructor; [|constructor]|].
    + etrans; [apply substr_length|lia].
    + intros rest Hrest. rewrite <- app_assoc. apply Hp. rewrite (substr_drop contents start i) by lia. by apply pieces_cut.
  - apply IH; try lia; [apply Forall_app; split; [done|]; constructor; [|constructor]|].
    + etrans; [apply substr_length|lia].
    + intros rest Hrest. rewrite <- app_assoc. apply Hp. rewrite (substr_drop contents start stop') by lia.
      rewrite (drop_S contents space stop') by (apply Hsp'; lia). by apply pieces_space.
  - apply IH; try lia; done.
Qed.

Lemma wrapped_ok (contents : text) (max_width : nat) :
  (0 < max_width)%nat ->
  Forall (fun l => (length l <= max_width)%nat) (SplitContentsBySpaces contents max_width) /\
  pieces contents (SplitContentsBySpaces contents max_width).
Proof.
  intros Hw. unfold SplitContentsBySpaces. destruct (Nat.leb_spec (length contents) max_width); [split; repeat constructor; lia|].
  destruct (by_spaces_ok contents max_width (length contents) 0 0 0 []) as (H1 & H2 & H3); try lia; [constructor|done|].
  destruct (by_spaces _ _ _ _ _ _ _) as [lines start]. cbn [fst snd] in *. split.
  - apply Forall_app. split; [done|]. constructor; [|constructor]. etrans; [apply substr_length|done].
  - apply H3. assert (Heq : substr contents start (length contents - start) = skipn start contents).
    { unfold substr. apply firstn_all2. rewrite length_skipn. lia. }
    rewrite Heq. apply pieces_last.
Qed.

(** Wrapping loses no text and respects the width.  The lines into which a text is broken are no
    longer than the width, and put one after the other they are the text, except that a space at which
    it was broken is dropped. *)
Theorem wrapping_loses_nothing (contents : text) (max_width : nat) :
  (0 < max_width)%nat ->
  Forall (fun l => (length l <= max_width)%nat) (SplitContentsBySpaces contents max_width) /\
  pieces contents (SplitContentsBySpaces contents max_width).
Proof. apply wrapped_ok. Qed.

Lemma wrapping_loses_nothing_witness :
  let s := String.list_ascii_of_string "the quick brown fox" in
  SplitContentsBySpaces s 9 = String.list_ascii_of_string <$> ["the quick"; "brown fox"]%string /\
  pieces s (SplitContentsBySpaces s 9).
Proof.
  intros s. split; [vm_compute; reflexivity|]. apply (wrapping_loses_nothing s 9). lia.
Defined.

(** A blank line is not recognized: the second of two newlines is taken for text. *)
Lemma blank_line_is_missed (a b : text) :
  Forall (fun c => c <> newline) a -> Forall (fun c => c <> newline) b ->
  SplitContentsByNewlines (a ++ [newline; newline] ++ b) = [a; newline :: b].
Proof.
  intros Ha Hb. unfold SplitContentsByNewlines.
  assert (Hrun : forall (l rest buf : text), Forall (fun c => c <> newline) l -> by_newlines buf (l ++ rest) = by_newlines (buf ++ l) rest).
  { intros l rest. induction l as [|c l IH]; intros buf Hl; [by rewrite app_nil_r|].
    inversion_clear Hl as [|? ? Hc Hl']. cbn [app by_newlines]. apply Ascii.eqb_neq in Hc. rewrite Hc, IH by done.
    by rewrite <- app_assoc. }
  rewrite Hrun by done. cbn [app by_newlines]. rewrite Ascii.eqb_refl. f_equal.
  rewrite <- (app_nil_r b) at 1. by rewrite Hrun.
Qed.

(** ** Tables made with the interface are well formed *)

Record column_ok (rows : nat) (col : Column) : Prop := {
  co_rows : length (values col) = rows;
  co_desired : 0 <= desired_width col < 2 ^ 31;
  co_use : use_desired_width col = negb (desired_width col =? 0);
  co_contents : 0 <= contents_width col < 2 ^ 31;
  co_values : Forall (fun v => sizeZ v <= contents_width col) (values col)
}.

(** Every column has a value for each finished row, and the columns left of the current one have one
    more. *)
Record table_ok (t : JTablePrinter) : Prop := {
  to_current : (current_column t < length (columns t))%nat;
  to_columns : forall k col, columns t !! k = Some col ->
    column_ok (if decide (k < current_column t)%nat then S (current_row t) else current_row t) col
}.

Fixpoint add_columns (cs : list (text * Justify * Z)) (t : JTablePrinter) : JTablePrinter :=
  match cs with
  | [] => t
  | c :: cs => add_columns cs (AddColumn c.1.1 c.1.2 c.2 t)
  end.

Fixpoint add_cells (cells : list text) (t : JTablePrinter) : outcome JTablePrinter :=
  match cells with
  | [] => Ok t
  | c :: cells => t' ← add_cell c t; add_cells cells t'
  end.

Definition short (s : text) : Prop := sizeZ s < 2 ^ 31.

Lemma add_columns_ok cs : forall t,
  Forall (fun c => short c.1.1 /\ 0 <= c.2 < 2 ^ 31) cs ->
  Forall (column_ok 0) (columns t) -> Forall (column_ok 0) (columns (add_columns cs t)) /\
    current_row (add_columns cs t) = current_row t /\ current_column (add_columns cs t) = current_column t /\
    length (columns (add_columns cs t)) = (length (columns t) + length cs)%nat.
Proof.
  induction cs as [|[[h j] w] cs IH]; intros t Hcs Ht; [simpl; by rewrite Nat.add_0_r|].
  inversion_clear Hcs as [|? ? [Hh Hw] Hcs']. simpl in *.
  destruct (IH (AddColumn h j w t) Hcs') as (H1 & H2 & H3 & H4).
  { simpl. apply Forall_app. split; [done|]. constructor; [|constructor]. unfold short in Hh.
    split; simpl; try done. rewrite i32_small; size_lia. }
  split; [done|]. split; [done|]. split; [done|]. rewrite H4. simpl. rewrite length_app. simpl. lia.
Qed.

Lemma add_cell_ok c t : short c -> table_ok t -> exists t', add_cell c t = Ok t' /\ table_ok t'.
Proof.
  intros Hc [Hcur Hcols]. unfold add_cell. destruct (lookup_lt_is_Some_2 _ _ Hcur) as [col Hcol]. rewrite Hcol.
  eexists. split; [reflexivity|].
  destruct (Hcols _ _ Hcol) as [Hrows Hd Hu Hcw Hv]. rewrite decide_False in Hrows by lia.
  rewrite (u64_small (contents_width col)) by lia. unfold short in Hc.
  set (w := if contents_width col <? sizeZ c then i32 (sizeZ c) else contents_width col).
  assert (Hw : 0 <= w < 2 ^ 31 /\ contents_width col <= w /\ sizeZ c <= w).
  { unfold w. pose proof (sizeZ_nonneg c). destruct (Z.ltb_spec (contents_width col) (sizeZ c)); [rewrite i32_small by lia|]; lia. }
  assert (Hnew : column_ok (S (current_row t)) (mkColumn (header col) (values col ++ [c]) (justify col) (desired_width col) w (use_desired_width col))).
  { split; simpl; try done; try lia; [rewrite length_app; simpl; lia|]. apply Forall_app.
    split; [eapply Forall_impl; [exact Hv|]; simpl; lia|]. constructor; [lia|constructor]. }
  split; simpl; rewrite ?length_insert; case_bool_decide; try lia.
  - intros k col' [(<- & <- & _)|[Hne Hk]]%list_lookup_insert_Some; [done|].
    rewrite decide_False by lia. specialize (Hcols _ _ Hk). rewrite decide_True in Hcols; [done|].
    apply lookup_lt_Some in Hk. lia.
  - intros k col' [(<- & <- & _)|[Hne Hk]]%list_lookup_insert_Some; [by rewrite decide_True by lia|].
    specialize (Hcols _ _ Hk). destruct (decide (k < S (current_column t))%nat); [rewrite decide_True in Hcols by lia|rewrite decide_False in Hcols by lia]; done.
Qed.

Lemma add_cells_ok cells : forall t, Forall short cells -> table_ok t -> exists t', add_cells cells t = Ok t' /\ table_ok t'.
Proof.
  induction cells as [|c cells IH]; intros t Hc Ht; [by exists t|]. inversion_clear Hc as [|? ? Hc1 Hc2].
  destruct (add_cell_ok c t Hc1 Ht) as (t1 & Hadd & Ht1). simpl. rewrite Hadd. simpl. by apply IH.
Qed.

(** ** Rows are aligned *)

Lemma FormatLine_length s w j : sizeZ s <= w < 2 ^ 31 -> sizeZ (FormatLine s w j) = w.
Proof.
  intros H. pose proof (sizeZ_nonneg s). assert (Ht : forall n c, 0 <= n -> sizeZ (times n c) = n).
  { intros n c Hn. unfold times, sizeZ. rewrite length_replicate. lia. }
  destruct j; unfold FormatLine; rewrite !sizeZ_app.
  - rewrite Ht; lia.
  - rewrite (u64_small (w - sizeZ s)) by lia.
    assert (Hh : 0 <= (w - sizeZ s) / 2 <= w - sizeZ s) by (split; [apply Z.div_pos; lia|apply Z.div_le_upper_bound; lia]).
    rewrite (i32_small ((w - sizeZ s) / 2)) by lia. rewrite u64_small by lia. rewrite i32_small by lia. rewrite !Ht; lia.
  - rewrite Ht; lia.
Qed.

Lemma by_newlines_length m : forall (rest buf : text) (n : nat), (length rest <= m)%nat -> (length buf + length rest <= n)%nat ->
  Forall (fun l => (length l <= n)%nat) (by_newlines buf rest).
Proof.
  induction m as [|m IH]; intros [|c rest] buf n Hm Hn; simpl in *; try lia; try (constructor; [lia|constructor]).
  destruct (Ascii.eqb c newline).
  - constructor; [lia|]. destruct rest as [|d rest]; [constructor; [simpl; lia|constructor]|].
    apply IH; simpl in *; lia.
  - apply IH; rewrite ?length_app; simpl; lia.
Qed.

(** The lines of a cell fit into its column. *)
Lemma cell_fits rows col v :
  column_ok rows col -> v ∈ values col ->
  Forall (fun l => sizeZ l <= width col < 2 ^ 31) (SplitContents v (Z.to_nat (u64 (desired_width col)))).
Proof.
  intros [_ Hd Hu Hcw Hv] Hin. rewrite Forall_forall in Hv. specialize (Hv _ Hin). rewrite u64_small by lia.
  unfold SplitContents, width. rewrite Hu. destruct (Z.eqb_spec (desired_width col) 0) as [Hz|Hz]; simpl.
  - rewrite Hz. simpl. eapply Forall_impl; [apply (by_newlines_length (length v) v [] (length v)); simpl; lia|].
    unfold sizeZ in *. simpl. lia.
  - destruct (Nat.eqb_spec (Z.to_nat (desired_width col)) 0); [lia|]. apply Forall_bind, Forall_true. intros s.
    eapply Forall_impl; [apply (wrapped_ok s (Z.to_nat (desired_width col))); lia|]. unfold sizeZ. simpl. lia.
Qed.

(** The width of a line of a row. *)
Definition line_width (t : JTablePrinter) : Z :=
  Z.max 0 (indent t) + foldr (fun col w => width col + Z.max 0 (cell_margin t) + w) 0 (columns t).

(** A cell of a row, broken into lines that fit. *)
Definition cell_ok (cell : Column * list text) : Prop :=
  Forall (fun l => sizeZ l <= width cell.1 < 2 ^ 31) cell.2 /\ 0 <= width cell.1 < 2 ^ 31.

Lemma split_cells_ok cols row :
  Forall (fun col => exists rows, (row < rows)%nat /\ column_ok rows col) cols ->
  exists cells, split_cells cols row = Ok cells /\ cells.*1 = cols /\ Forall cell_ok cells.
Proof.
  induction 1 as [|col cols (rows & Hr & Hok) _ IH]; [by exists []|]. simpl.
  destruct (lookup_lt_is_Some_2 (values col) row) as [v Hv]; [rewrite (co_rows _ _ Hok); lia|]. rewrite Hv.
  destruct IH as (cells & -> & <- & Hf). eexists. split; [reflexivity|]. split; [done|]. constructor; [|done].
  split; simpl; [eapply cell_fits; [done|by eapply list_elem_of_lookup_2]|].
  unfold width. destruct Hok as [_ ? _ ? _]. by case_match.
Qed.

Lemma times_size n c : sizeZ (times n c) = Z.max 0 n.
Proof. unfold times, sizeZ. rewrite length_replicate. lia. Qed.

Lemma cell_line_size cell j line :
  cell_ok cell -> sizeZ (FormatLine (default [] (cell.2 !! line)) (width cell.1) j) = width cell.1.
Proof.
  intros [Hf Hw]. apply FormatLine_length. destruct (cell.2 !! line) as [l|] eqn:Hl; simpl; [|rewrite sizeZ_nil; lia].
  by apply (Forall_lookup_1 _ _ _ _ Hf Hl).
Qed.

Lemma row_aligned t row : (row < current_row t)%nat -> table_ok t ->
  exists lines, row_lines t row = Ok lines /\ lines <> [] /\ Forall (fun l => sizeZ l = line_width t) lines.
Proof.
  intros Hrow [_ Hcols].
  destruct (split_cells_ok (columns t) row) as (cells & Hcells & Hcs & Hf).
  { apply Forall_lookup. intros k col Hk. eexists. split; [|by apply (Hcols k)]. case_decide; lia. }
  unfold row_lines. rewrite Hcells. simpl. eexists. split; [reflexivity|]. split.
  - assert (Hn : forall n, (1 <= n)%nat -> (1 <= foldl (fun n cell => if (n <? length (cell : Column * list text).2)%nat then length cell.2 else n) n cells)%nat).
    { clear. induction cells as [|c cells IH]; intros n Hn; [done|]. simpl. apply IH. case_match; [|done].
      apply Nat.ltb_lt in H. lia. }
    specialize (Hn 1%nat (le_n _)). case_match; [done|]. by destruct (foldl _ 1%nat cells); [lia|].
  - apply Forall_fmap, Forall_true. intros line. unfold compose, row_line, line_width. rewrite sizeZ_app, times_size, <- Hcs.
    f_equal. clear Hcells Hcs Hcols. induction Hf as [|cell cells Hc _ IH]; [done|].
    rewrite bind_cons, fmap_cons. simpl foldr. rewrite <- IH, !sizeZ_app, times_size, cell_line_size by done. lia.
Qed.

Lemma render_rows_ok t n : forall row, (row + n <= current_row t)%nat -> table_ok t -> exists out, render_rows t n row = Ok out.
Proof.
  induction n as [|n IH]; intros row Hn Ht; simpl; [eauto|].
  destruct (row_aligned t row) as (lines & -> & _); [lia|done|]. destruct (IH (S row)) as (out & Hout); [lia|done|].
  simpl. rewrite Hout. simpl. eauto.
Qed.

(** Tables are well formed and aligned.  However many columns are added, and whatever cells follow,
    each shorter than 2^31 characters: every column holds a value for each finished row, so that
    [Render] never reads outside a vector and returns; and all lines of all rows have the same
    width, the sum of the column widths and margins. *)
Theorem tables_are_aligned (cs : list (text * Justify * Z)) (cells : list text) :
  cs <> [] -> Forall (fun c => short c.1.1 /\ 0 <= c.2 < 2 ^ 31) cs -> Forall short cells ->
  exists t out, add_cells cells (add_columns cs new_table) = Ok t /\ table_ok t /\ Render t = Ok out /\
    forall row, (row < current_row t)%nat ->
      exists lines, row_lines t row = Ok lines /\ lines <> [] /\ Forall (fun l => sizeZ l = line_width t) lines.
Proof.
  intros Hne Hcs Hcells.
  destruct (add_columns_ok cs new_table Hcs) as (Hcols & Hr & Hc & Hlen); [constructor|]. simpl in Hr, Hc, Hlen.
  destruct (add_cells_ok cells (add_columns cs new_table) Hcells) as (t & Hadd & Ht).
  { split; [rewrite Hc, Hlen; destruct cs; [done|simpl; lia]|]. intros k col Hk. rewrite Hc, Hr.
    rewrite decide_False by lia. by eapply (Forall_lookup_1 _ _ _ _ Hcols). }
  destruct (render_rows_ok t (current_row t) 0) as (rows & Hrows); [lia|done|].
  eexists t, _. split; [done|]. split; [done|]. split; [unfold Render; rewrite Hrows; reflexivity|].
  intros row Hrow. by apply row_aligned.
Qed.

Lemma tables_are_aligned_witness :
  let s := String.list_ascii_of_string in
  exists t out, add_cells [s "jana:nevents"; s "a long description of it"]%string
      (add_columns [(s "Name"%string, Left, 0); (s "Description"%string, Left, 10)] new_table) = Ok t /\
    Render t = Ok out /\ current_row t = 1%nat.
Proof.
  intros s.
  destruct (tables_are_aligned [(s "Name"%string, Left, 0); (s "Description"%string, Left, 10)]
    [s "jana:nevents"; s "a long description of it"]%string) as (t & out & H1 & _ & H2 & _);
    [done|repeat constructor; done|repeat constructor|].
  exists t, out. split; [exact H1|]. split; [exact H2|]. vm_compute in H1. by injection H1 as <-.
Defined.

End TablePrinter.
