(* ===== verification/JInspector.v ===== *)
(** * JInspector: the interactive event inspector

    Model of [Utils/JInspector.{h,cc}].  The inspector only looks at its event, so that the event, its factories and its objects
    are data; what changes is the inspector itself: its index, its format and the text that it has written.  Tables are those of
    [TablePrinter], the calls are those that [CallGraph] recorded and the associations are those of [Objects]. *)

From Stdlib Require Import Ascii.
From stdpp Require Import sorting pretty.
From S2P Require Import Prelude JCallGraph JParameterManager JTablePrinter JObject.
Import Parameters.
Local Open Scope Z_scope.

Module Inspector.

(** ** What the inspector looks at *)

Inductive CreationStatus := NotCreatedYet | Created | Inserted | InsertedViaGetObjects | NeverCreated.

#[export] Instance CreationStatus_eq_dec : EqDecision CreationStatus.
Proof. solve_decision. Defined.

(** What the getters of a factory answer.  [GetAs<JObject>()] throws if the objects are not [JObject]s. *)
Record JFactory := mkFactory {
  GetPluginName : line;
  GetFactoryName : line;
  GetObjectName : line;
  GetTag : line;
  GetCreationStatus : CreationStatus;
  GetNumObjects : Z;
  persistent : bool;
  not_object_owner : bool;
  GetAs_JObject : outcome (list Z)
}.

Record JEvent := mkEvent {
  GetRunNumber : Z;
  GetEventNumber : Z;
  source_type_name : line;
  source_resource_name : line;
  GetSequential : bool;
  GetAllFactories : list JFactory;
  callgraph_enabled : bool;
  GetCallGraph : list CallGraph.JCallGraphNode;
  heap : Objects.Heap;
  Summarize : Z -> list Objects.JObjectMember
}.

Inductive Format := Table | Json | Tsv.

#[export] Instance Format_eq_dec : EqDecision Format.
Proof. solve_decision. Defined.

(** [JParameterManager::Stringify] and [Parse] for a format: the [else] belongs to the last test alone. *)
Definition Stringify (value : Format) : string :=
  match value with Table => "table" | Json => "json" | Tsv => "tsv" end.

Definition Parse (value : string) (val : Format) : Format :=
  let lowered := ToLower value in
  let val := if decide (lowered = "table"%string) then Table else val in
  let val := if decide (lowered = "json"%string) then Json else val in
  if decide (lowered = "tsv"%string) then Tsv else Table.

(** An entry of the index: the number of the factory and the factory, by its position among the factories of the event; [None] is a
    null pointer. *)
Record JInspector := mkInspector {
  m_format : Format;
  m_indexes_built : bool;
  m_factory_index : gmap line (Z * option nat);
  m_factories : list nat;
  m_discrepancies : gset line;
  m_out : line;
  ticker_on : bool;
  timeout_on : bool
}.

Abbreviation MI := (M JInspector).

Definition set_format (f : Format) (i : JInspector) : JInspector :=
  mkInspector f (m_indexes_built i) (m_factory_index i) (m_factories i) (m_discrepancies i) (m_out i) (ticker_on i) (timeout_on i).
Definition set_index (m : gmap line (Z * option nat)) (i : JInspector) : JInspector :=
  mkInspector (m_format i) (m_indexes_built i) m (m_factories i) (m_discrepancies i) (m_out i) (ticker_on i) (timeout_on i).
Definition set_switches (ticker timeout : bool) (i : JInspector) : JInspector :=
  mkInspector (m_format i) (m_indexes_built i) (m_factory_index i) (m_factories i) (m_discrepancies i) (m_out i) ticker timeout.

(** [m_out << s]. *)
Definition write (s : line) : MI unit := modify (fun i =>
  mkInspector (m_format i) (m_indexes_built i) (m_factory_index i) (m_factories i) (m_discrepancies i) (m_out i ++ s) (ticker_on i) (timeout_on i)).

Definition Reset : MI unit := modify (fun i =>
  mkInspector (m_format i) false ∅ [] ∅ (m_out i) (ticker_on i) (timeout_on i)).

Definition SetDiscrepancies (keys : gset line) : MI unit := modify (fun i =>
  mkInspector (m_format i) (m_indexes_built i) (m_factory_index i) (m_factories i) keys (m_out i) (ticker_on i) (timeout_on i)).

(** ** Text *)

Definition endl : line := ["010"%char].
Definition num (z : Z) : line := chars (pretty z).
Definition flag (b : bool) : line := if b then chars "1" else chars "0".
Definition quote (s : line) : line := [ascii_of_nat 34] ++ s ++ [ascii_of_nat 34].
Definition or_else (s : line) (otherwise : string) : line := if decide (s = []) then chars otherwise else s.

(** A table with the columns and rows given. *)
Definition table (columns : list (string * TablePrinter.Justify)) (rows : list (list line)) : outcome line :=
  let t := TablePrinter.add_columns ((fun c => (chars c.1, c.2, 0)) <$> columns) TablePrinter.new_table in
  t ← TablePrinter.add_cells (concat rows) t;
  TablePrinter.Render t.

Definition MakeFactoryKey (name tag : line) : line := name ++ (if decide (tag = []) then [] else chars ":" ++ tag).

Definition status_text (s : CreationStatus) : line :=
  chars (match s with
    | NotCreatedYet => "NotCreatedYet" | Created => "Created" | Inserted => "Inserted"
    | InsertedViaGetObjects => "InsertedViaGetObjects" | NeverCreated => "NeverCreated"
    end)%string.

(** [ToText(event)]. *)
Definition event_text (ev : JEvent) (asJson : bool) : line :=
  let className := or_else (source_type_name ev) "(unknown)" in
  if asJson then
    chars "{ " ++ quote (chars "run_number") ++ chars ": " ++ num (GetRunNumber ev)
    ++ chars ", " ++ quote (chars "event_number") ++ chars ": " ++ num (GetEventNumber ev)
    ++ chars ", " ++ quote (chars "source") ++ chars ": " ++ quote (source_resource_name ev)
    ++ chars ", " ++ quote (chars "class_name") ++ chars ": " ++ quote className
    ++ chars ", " ++ quote (chars "is_sequential") ++ chars ": " ++ quote (flag (GetSequential ev)) ++ chars "}" ++ endl
  else
    chars "Run number:   " ++ num (GetRunNumber ev) ++ endl
    ++ chars "Event number: " ++ num (GetEventNumber ev) ++ endl
    ++ chars "Event source: " ++ source_resource_name ev ++ endl
    ++ chars "Class name:   " ++ className ++ endl
    ++ chars "Sequential:   " ++ flag (GetSequential ev) ++ endl.

(** [ToText(fac)]. *)
Definition factory_text (fac : JFactory) (asJson : bool) : line :=
  let pluginName := or_else (GetPluginName fac) "(no plugin)" in
  let tag := or_else (GetTag fac) "(no tag)" in
  let creationStatus := status_text (GetCreationStatus fac) in
  if asJson then
    chars "{" ++ endl
    ++ chars "  " ++ quote (chars "plugin_name") ++ chars ":   " ++ quote pluginName ++ chars "," ++ endl
    ++ chars "  " ++ quote (chars "factory_name") ++ chars ":  " ++ quote (GetFactoryName fac) ++ chars "," ++ endl
    ++ chars "  " ++ quote (chars "object_name") ++ chars ":   " ++ quote (GetObjectName fac) ++ chars "," ++ endl
    ++ chars "  " ++ quote (chars "tag") ++ chars ":           " ++ quote tag ++ chars "," ++ endl
    ++ chars "  " ++ quote (chars "creation") ++ chars ":      " ++ quote creationStatus ++ chars "," ++ endl
    ++ chars "  " ++ quote (chars "object_count") ++ chars ":  " ++ num (GetNumObjects fac) ++ chars "," ++ endl
    ++ chars "  " ++ quote (chars "persistent") ++ chars ":    " ++ flag (persistent fac) ++ chars "," ++ endl
    ++ chars "  " ++ quote (chars "not_obj_owner") ++ chars ": " ++ flag (not_object_owner fac) ++ endl
    ++ chars "}" ++ endl
  else
    chars "Plugin name          " ++ pluginName ++ endl
    ++ chars "Object name          " ++ GetObjectName fac ++ endl
    ++ chars "Tag                  " ++ tag ++ endl
    ++ chars "Creation status      " ++ creationStatus ++ endl
    ++ chars "Object count         " ++ num (GetNumObjects fac) ++ endl
    ++ chars "Persistent flag      " ++ flag (persistent fac) ++ endl
    ++ chars "NotObjectOwner flag  " ++ flag (not_object_owner fac) ++ endl.

(** The three tests that leave a factory out of the table. *)
Definition filtered (filterlevel : Z) (fac : JFactory) : bool :=
  ((0 <? filterlevel) && bool_decide (GetCreationStatus fac = NeverCreated \/ GetCreationStatus fac = NotCreatedYet))
  || ((1 <? filterlevel) && (GetNumObjects fac =? 0))
  || ((2 <? filterlevel) && bool_decide (GetCreationStatus fac = Inserted \/ GetCreationStatus fac = InsertedViaGetObjects)).

Fixpoint factory_rows (discrepancies : gset line) (filterlevel : Z) (idx : Z) (facs : list JFactory) : list (list line) :=
  match facs with
  | [] => []
  | fac :: facs =>
      let idx := u64 (idx + 1) in
      (if filtered filterlevel fac then []
       else
         let key := MakeFactoryKey (GetObjectName fac) (GetTag fac) in
         [[num idx; GetObjectName fac; or_else (GetTag fac) "(no tag)"; status_text (GetCreationStatus fac); num (GetNumObjects fac);
           if decide (key ∈ discrepancies) then chars "x" else chars " "]])
      ++ factory_rows discrepancies filterlevel idx facs
  end.

Fixpoint factory_entries (idx : Z) (facs : list JFactory) : line :=
  match facs with
  | [] => []
  | fac :: facs =>
      let or_null s := if decide (s = []) then chars "null, " else quote s ++ chars ", " in
      chars "  " ++ num idx ++ chars ": { " ++ quote (chars "factory_name") ++ chars ": " ++ or_null (GetFactoryName fac)
      ++ quote (chars "object_name") ++ chars ": " ++ quote (GetObjectName fac) ++ chars ", " ++ quote (chars "tag") ++ chars ": "
      ++ or_null (GetTag fac) ++ quote (chars "object_count") ++ chars ": " ++ num (GetNumObjects fac) ++ chars "}," ++ endl
      ++ factory_entries (u64 (idx + 1)) facs
  end.

(** [ToText(factories)]: [idx] starts at the largest [size_t], and the JSON format does not advance it before the first factory. *)
Definition factories_text (facs : list JFactory) (discrepancies : gset line) (filterlevel : Z) (asJson : bool) : outcome line :=
  let idx := u64 (-1) in
  if asJson then Ok (chars "{" ++ endl ++ factory_entries idx facs ++ chars "}" ++ endl)
  else table [("Index", TablePrinter.Right); ("Object", TablePrinter.Left); ("Tag", TablePrinter.Left); ("Creation status", TablePrinter.Left);
              ("Object count", TablePrinter.Right); ("Discrepancy", TablePrinter.Right)]%string (factory_rows discrepancies filterlevel idx facs).

(** Following the pointers to objects. *)
Definition class_of (ev : JEvent) (p : Z) : outcome line := o ← Objects.at_ (heap ev) p; Ok (chars (Objects.className o)).

Fixpoint classes_of (ev : JEvent) (ps : list Z) : outcome (list line) :=
  match ps with
  | [] => Ok []
  | p :: ps => c ← class_of ev p; cs ← classes_of ev ps; Ok (c :: cs)
  end.

(** [std::set<std::string>]: without repetitions, in the order of the text. *)
Definition in_text_order (l : list line) : list line := merge_sort (fun a b => String.leb (text a) (text b)) (remove_dups l).

(** [fieldnames_in_order]: the names in the order in which they are first seen. *)
Definition first_seen (names : list line) : list line := reverse (remove_dups (reverse names)).

(** The cells of one object: the last value of a field that is repeated, and a mark for one that is missing. *)
Definition object_cells (fieldnames : list line) (fields : list Objects.JObjectMember) : list line :=
  let summary_map : gmap line line := foldl (fun m f => <[Objects.field_name f := Objects.field_value f]> m) ∅ fields in
  (fun name => default (chars "(missing)") (summary_map !! name)) <$> fieldnames.

Definition json_fields (fields : list Objects.JObjectMember) : line :=
  fields ≫= fun f => quote (Objects.field_name f) ++ chars ": " ++ quote (Objects.field_value f) ++ chars ", ".

(** [ToText(objs)]. *)
Definition objects_text (ev : JEvent) (objs : list Z) (as_json : bool) : outcome line :=
  if decide (objs = []) then Ok (chars "(No objects found)" ++ endl)
  else
    names ← classes_of ev objs;
    let objnames := in_text_order names in
    let heading := match objnames with
      | [name] => name ++ endl
      | _ => chars "{ " ++ (objnames ≫= fun name => name ++ chars ",") ++ chars "}" ++ endl
      end in
    if as_json then
      Ok (heading ++ chars "{" ++ endl
          ++ concat (imap (fun i p => chars "  " ++ num (Z.of_nat i) ++ chars ":  {" ++ json_fields (Summarize ev p) ++ chars "}" ++ endl) objs)
          ++ chars "}" ++ endl)
    else
      let fieldnames := first_seen (Objects.field_name <$> (objs ≫= Summarize ev)) in
      let t := TablePrinter.add_columns ((fun h => (h, TablePrinter.Left, 0)) <$> (chars "Index" :: fieldnames)) TablePrinter.new_table in
      t ← TablePrinter.add_cells (concat (imap (fun i p => num (Z.of_nat i) :: object_cells fieldnames (Summarize ev p)) objs)) t;
      rendered ← TablePrinter.Render t;
      Ok (heading ++ rendered).

(** [ToText(obj)]. *)
Definition object_text (ev : JEvent) (obj : Z) (asJson : bool) : outcome line :=
  name ← class_of ev obj;
  if asJson then
    Ok (name ++ endl ++ chars "[" ++ endl
        ++ (Summarize ev obj ≫= fun f => chars "  { " ++ quote (chars "name") ++ chars ": " ++ quote (Objects.field_name f) ++ chars ", "
              ++ quote (chars "value") ++ chars ": " ++ quote (Objects.field_value f) ++ chars ", "
              ++ quote (chars "description") ++ chars ": " ++ quote (Objects.field_description f) ++ chars " }" ++ endl)
        ++ chars "]" ++ endl)
  else
    t ← table [("Field name", TablePrinter.Left); ("Value", TablePrinter.Left); ("Description", TablePrinter.Left)]%string
          ((fun f => [Objects.field_name f; Objects.field_value f; Objects.field_description f]) <$> Summarize ev obj);
    Ok (name ++ endl ++ t).

(** ** The index *)

Section Event.
Context (ev : JEvent).

Definition factory (k : nat) : outcome JFactory := match GetAllFactories ev !! k with Some fac => Ok fac | None => Undef end.

(** Ordered by object name and tag. *)
Definition key_le (a b : line * line) : bool :=
  if decide (a.1 = b.1) then String.leb (text a.2) (text b.2) else String.leb (text a.1) (text b.1).

Definition sorted_factories : list nat :=
  let key k := match GetAllFactories ev !! k with Some fac => (GetObjectName fac, GetTag fac) | None => ([], []) end in
  merge_sort (fun a b => key_le (key a) (key b)) (seq 0 (length (GetAllFactories ev))).

(** [m_factory_index.insert]: an entry that is there already stays. *)
Definition insert_new (key : line) (value : Z * option nat) (m : gmap line (Z * option nat)) : gmap line (Z * option nat) :=
  match m !! key with Some _ => m | None => <[key := value]> m end.

Definition factory_key (k : nat) : line := match GetAllFactories ev !! k with Some fac => MakeFactoryKey (GetObjectName fac) (GetTag fac) | None => [] end.

(** [i] was incremented between the two insertions. *)
Fixpoint index_all (i : Z) (facs : list nat) (m : gmap line (Z * option nat)) : gmap line (Z * option nat) :=
  match facs with
  | [] => m
  | k :: facs => index_all (i + 1) facs (insert_new (num (i + 1)) (i, Some k) (insert_new (factory_key k) (i, Some k) m))
  end.

Definition BuildIndices : MI unit := modify (fun i =>
  if m_indexes_built i then i
  else
    let facs := m_factories i ++ sorted_factories in
    mkInspector (m_format i) true (index_all 0 facs (m_factory_index i)) facs (m_discrepancies i) (m_out i) (ticker_on i) (timeout_on i)).

Definition is_json : MI bool := f ← gets m_format; mret (bool_decide (f = Json)).

(** The factory that a key names; [None] after the message.  The null pointer is followed. *)
Definition find_factory (key : line) : MI (option JFactory) :=
  index ← gets m_factory_index;
  match index !! key with
  | None => _ ← write (chars "(Error: Invalid factory name or index)" ++ endl); mret None
  | Some (_, Some k) => fac ← lift (factory k); mret (Some fac)
  | Some (_, None) => lift Undef
  end.

Definition PrintEvent : MI unit := json ← is_json; write (event_text ev json).

Fixpoint factories_at (ks : list nat) : outcome (list JFactory) :=
  match ks with
  | [] => Ok []
  | k :: ks => fac ← factory k; facs ← factories_at ks; Ok (fac :: facs)
  end.

Definition PrintFactories (filter_level : Z) : MI unit :=
  _ ← BuildIndices;
  i ← get;
  json ← is_json;
  facs ← lift (factories_at (m_factories i));
  t ← lift (factories_text facs (m_discrepancies i) filter_level json);
  write t.

Definition PrintFactoryDetails (fac_key : line) : MI unit :=
  _ ← BuildIndices;
  found ← find_factory fac_key;
  match found with
  | None => mret tt
  | Some fac => json ← is_json; write (factory_text fac json)
  end.

Definition PrintObjects (factory_key : line) : MI unit :=
  _ ← BuildIndices;
  found ← find_factory factory_key;
  match found with
  | None => mret tt
  | Some fac =>
      objs ← lift (GetAs_JObject fac);
      json ← is_json;
      t ← lift (objects_text ev objs json);
      write t
  end.

(** An object of a factory; [None] after a message.  A negative index is a large [size_t]. *)
Definition find_object (fac_key : line) (object_idx : Z) : MI (option Z) :=
  _ ← BuildIndices;
  found ← find_factory fac_key;
  match found with
  | None => mret None
  | Some fac =>
      objs ← lift (GetAs_JObject fac);
      if sizeZ objs <=? u64 object_idx then _ ← write (chars "(Error: Object index out of range)" ++ endl); mret None
      else mret (objs !! Z.to_nat (u64 object_idx))
  end.

Definition PrintObject (fac_key : line) (object_idx : Z) : MI unit :=
  found ← find_object fac_key object_idx;
  match found with
  | None => mret tt
  | Some obj => json ← is_json; t ← lift (object_text ev obj json); write t
  end.

(** ** Parents and ancestors *)

(** The calls that a factory made.  Looking a callee up with [operator[]] puts an empty entry in the index if it is not there. *)
Fixpoint parent_rows (name tag : line) (nodes : list CallGraph.JCallGraphNode) (m : gmap line (Z * option nat))
    : list (Z * line * line) * gmap line (Z * option nat) :=
  match nodes with
  | [] => ([], m)
  | node :: nodes =>
      let caller := CallGraph.caller node in
      let callee := CallGraph.callee node in
      if bool_decide (chars caller.1 = name) && bool_decide (chars caller.2 = tag) then
        let key := MakeFactoryKey (chars callee.1) (chars callee.2) in
        let entry := default (0, None) (m !! key) in
        let '(rows, m') := parent_rows name tag nodes (<[key := entry]> m) in
        ((entry.1, chars callee.1, chars callee.2) :: rows, m')
      else parent_rows name tag nodes m
  end.

Definition PrintFactoryParents (factory_idx : line) : MI unit :=
  _ ← (if callgraph_enabled ev then mret tt else write (chars "(Error: Callgraph recording is currently disabled)" ++ endl));
  _ ← BuildIndices;
  found ← find_factory factory_idx;
  match found with
  | None => mret tt
  | Some fac =>
      let obj_name := GetObjectName fac in
      let fac_tag := GetTag fac in
      _ ← write (MakeFactoryKey obj_name fac_tag ++ endl);
      i ← get;
      let '(rows, m') := parent_rows obj_name fac_tag (GetCallGraph ev) (m_factory_index i) in
      _ ← modify (set_index m');
      if bool_decide (m_format i = Json) then
        _ ← write (chars "[" ++ endl
          ++ (rows ≫= fun '(idx, name, tag) => chars "  { " ++ quote (chars "index") ++ chars ": " ++ num idx ++ chars ", " ++ quote (chars "object_name")
                ++ chars ": " ++ quote name ++ chars ", " ++ quote (chars "tag") ++ chars ": "
                ++ (if decide (tag = []) then chars "null }," else quote tag ++ chars " },") ++ endl)
          ++ chars "]" ++ endl);
        (if decide (rows = []) then write (chars "(No ancestors found)" ++ endl) else mret tt)
      else if decide (rows = []) then write (chars "(No parents found)" ++ endl)
      else
        t ← lift (table [("Index", TablePrinter.Right); ("Object name", TablePrinter.Left); ("Tag", TablePrinter.Left)]%string
                   ((fun '(idx, name, tag) => [num idx; name; or_else tag "(no tag)"]) <$> rows));
        write t
  end.

Definition parents_of (obj : Z) : outcome (list Z) := Objects.GetT (heap ev) obj "JObject".

(** The loop of [FindAllAncestors] with the stack, its top first.  An object is pushed once for every way to it, so that the loop
    does not end if there is a cycle: the model then runs out of [fuel], which is [Undef]. *)
Fixpoint visit_stack (fuel : nat) (to_visit : list Z) : outcome (list Z) :=
  match to_visit with
  | [] => Ok []
  | current_obj :: to_visit =>
      match fuel with
      | O => Undef
      | S fuel =>
          current_ancestors ← parents_of current_obj;
          rest ← visit_stack fuel (reverse current_ancestors ++ to_visit);
          Ok (current_obj :: rest)
      end
  end.

Definition FindAllAncestors (fuel : nat) (root : Z) : outcome (list Z) := visit_stack fuel [root].

Fixpoint position (p : Z) (l : list Z) : option nat :=
  match l with
  | [] => None
  | x :: l => if p =? x then Some 0%nat else S <$> position p l
  end.

(** [LocateObject]: factories are counted in the order of the event, not in that of the index. *)
Fixpoint locate (obj : Z) (objName : line) (fac_idx : Z) (facs : list JFactory) : outcome (option (JFactory * Z * Z)) :=
  match facs with
  | [] => Ok None
  | fac :: facs =>
      if decide (GetObjectName fac = objName) then
        objs ← GetAs_JObject fac;
        match position obj objs with
        | Some k => Ok (Some (fac, fac_idx, Z.of_nat k))
        | None => locate obj objName (fac_idx + 1) facs
        end
      else locate obj objName (fac_idx + 1) facs
  end.

Definition LocateObject (obj : Z) : outcome (option (JFactory * Z * Z)) :=
  objName ← class_of ev obj;
  locate obj objName 0 (GetAllFactories ev).

(** The message names the class of the object that was asked about. *)
Definition unable_to_find (className : line) : line :=
  chars "(Error: Unable to find factory containing object with classname '" ++ className ++ chars "')" ++ endl.

Definition contents (fields : list Objects.JObjectMember) : line :=
  chars "{" ++ (fields ≫= fun f => Objects.field_name f ++ chars ": " ++ Objects.field_value f ++ chars ", ") ++ chars "}".

(** The rows of the table; a message is written at once. *)
Fixpoint object_rows (className : line) (objs : list Z) : MI (list (list line)) :=
  match objs with
  | [] => mret []
  | p :: objs =>
      where_ ← lift (LocateObject p);
      match where_ with
      | None => _ ← write (unable_to_find className); object_rows className objs
      | Some (fac, fac_idx, obj_idx) =>
          rest ← object_rows className objs;
          mret ([GetObjectName fac; or_else (GetTag fac) "(no tag)"; num fac_idx; num obj_idx; contents (Summarize ev p)] :: rest)
      end
  end.

Definition write_table (className : line) (fac_heading obj_heading : string) (objs : list Z) : MI unit :=
  rows ← object_rows className objs;
  t ← lift (table [("Object name", TablePrinter.Left); ("Tag", TablePrinter.Left); (fac_heading, TablePrinter.Right); (obj_heading, TablePrinter.Right);
                   ("Object contents", TablePrinter.Left)]%string rows);
  write t.

Definition write_entry (className : line) (p : Z) : MI unit :=
  where_ ← lift (LocateObject p);
  match where_ with
  | None => write (unable_to_find className)
  | Some (fac, fac_idx, obj_idx) =>
      write (chars "  " ++ chars "{ " ++ endl ++ chars "    " ++ quote (chars "object_name") ++ chars ": " ++ quote (GetObjectName fac) ++ chars ", "
        ++ quote (chars "tag") ++ chars ": " ++ quote (or_else (GetTag fac) "(no tag)") ++ chars ", "
        ++ quote (chars "fac_index") ++ chars ": " ++ num fac_idx ++ chars ", " ++ quote (chars "obj_index") ++ chars ": " ++ num obj_idx ++ chars "," ++ endl
        ++ chars "    " ++ quote (chars "object_contents") ++ chars ": " ++ chars "{" ++ json_fields (Summarize ev p) ++ chars "}" ++ endl
        ++ chars "  }, " ++ endl)
  end.

Definition write_json (className : line) (objs : list Z) : MI unit :=
  _ ← write (chars "[" ++ endl);
  _ ← for_each objs (write_entry className);
  write (chars "]" ++ endl).

(** In the JSON format the ancestors are listed, not the parents. *)
Definition PrintObjectParents (fuel : nat) (factory_key : line) (object_idx : Z) : MI unit :=
  found ← find_object factory_key object_idx;
  match found with
  | None => mret tt
  | Some obj =>
      className ← lift (class_of ev obj);
      _ ← write (className ++ endl);
      parents ← lift (parents_of obj);
      f ← gets m_format;
      if decide (parents = []) then write (chars "(No parents found)" ++ endl)
      else if decide (f = Table) then write_table className "Factory Index" "Object Index" parents
      else objs ← lift (FindAllAncestors fuel obj); write_json className objs
  end.

Definition PrintObjectAncestors (fuel : nat) (factory_idx : line) (object_idx : Z) : MI unit :=
  found ← find_object factory_idx object_idx;
  match found with
  | None => mret tt
  | Some obj =>
      className ← lift (class_of ev obj);
      _ ← write (className ++ endl);
      ancestors ← lift (FindAllAncestors fuel obj);
      f ← gets m_format;
      if decide (ancestors = []) then write (chars "(No ancestors found)" ++ endl)
      else if decide (f = Table) then write_table className "Factory index" "Object index" ancestors
      else write_json className ancestors
  end.

(** ** The loop *)

(** [std::stoi] of a token. *)
Fixpoint leading_digits (l : line) : line :=
  match l with
  | c :: l => let n := nat_of_ascii c in if (48 <=? n)%nat && (n <=? 57)%nat then c :: leading_digits l else []
  | [] => []
  end.

Definition decimal_value (l : line) : Z := foldl (fun v c => 10 * v + (Z.of_nat (nat_of_ascii c) - 48)) 0 l.

Definition stoi (s : line) : outcome Z :=
  let '(sign, rest) := match s with
    | c :: rest => if decide (c = "-"%char) then (-1, rest) else if decide (c = "+"%char) then (1, rest) else (1, s)
    | [] => (1, [])
    end in
  let ds := leading_digits rest in
  if decide (ds = []) then Throw (EStd "invalid_argument")
  else
    let v := sign * decimal_value ds in
    if (- 2 ^ 31 <=? v) && (v <? 2 ^ 31) then Ok v else Throw (EStd "out_of_range").

Definition rule : line := chars "  -----------------------------------------" ++ endl.

Definition help_text : line :=
  rule ++ chars "  Available commands" ++ endl ++ rule
  ++ (([ "  pe   PrintEvent"; "  pf   PrintFactories [filter_level <- {0,1,2,3}]"; "  pfd  PrintFactoryDetails fac_idx";
         "  po   PrintObjects fac_idx"; "  po   PrintObject fac_idx obj_idx"; "  pfp  PrintFactoryParents fac_idx";
         "  pop  PrintObjectParents fac_idx obj_idx"; "  poa  PrintObjectAncestors fac_idx obj_idx"; "  vt   ViewAsTable";
         "  vj   ViewAsJson"; "  x    Exit"; "  h    Help" ]%string) ≫= fun l => chars l ++ endl)
  ++ rule.

Definition PrintHelp : MI unit := write help_text.

(** A command is known by two names. *)
Definition either (token : line) (long short : string) : bool := bool_decide (token = chars long) || bool_decide (token = chars short).

(** The commands that need a number of arguments. *)
Definition with_arguments (fuel : nat) (token : line) (args : list line) : option (MI unit) :=
  match args with
  | [] => if either token "PrintFactories" "pf" then Some (PrintFactories 0) else None
  | [a] =>
      if either token "PrintFactories" "pf" then Some (level ← lift (stoi a); PrintFactories level)
      else if either token "PrintFactoryDetails" "pfd" then Some (PrintFactoryDetails a)
      else if either token "PrintObjects" "po" then Some (PrintObjects a)
      else if either token "PrintFactoryParents" "pfp" then Some (PrintFactoryParents a)
      else None
  | [a; b] =>
      if either token "PrintObject" "po" then Some (k ← lift (stoi b); PrintObject a k)
      else if either token "PrintObjectParents" "pop" then Some (k ← lift (stoi b); PrintObjectParents fuel a k)
      else if either token "PrintObjectAncestors" "poa" then Some (k ← lift (stoi b); PrintObjectAncestors fuel a k)
      else None
  | _ => None
  end.

(** One command: whether to stay in the loop. *)
Definition execute (fuel : nat) (token : line) (args : list line) : MI bool :=
  if either token "PrintEvent" "pe" then _ ← PrintEvent; mret true
  else match with_arguments fuel token args with
  | Some command => _ ← command; mret true
  | None =>
      if either token "ViewAsTable" "vt" then _ ← modify (set_format Table); _ ← write (chars "(Switching to table view mode)" ++ endl); mret true
      else if either token "ViewAsJson" "vj" then _ ← modify (set_format Json); _ ← write (chars "(Switching to JSON view mode)" ++ endl); mret true
      else if either token "Continue" "c" || either token "Exit" "x" then mret false
      else if either token "Help" "h" then _ ← PrintHelp; mret true
      else if decide (token = []) then mret true
      else _ ← write (chars "(Error: Unrecognized command, or wrong argument count)" ++ endl); _ ← PrintHelp; mret true
  end.

(** The handlers around it. *)
Definition catching (m : MI bool) : MI bool := fun i =>
  match m i with
  | (Throw e, i') =>
      (_ ← write (match e with
         | EJ _ => chars "(JException: Maybe you tried to print out objects that are not JObjects)"
         | EStd what => if decide (what = "invalid_argument"%string) then chars "(Parse error: Maybe an argument needs to be an int)" else chars "(Unknown error)"
         | _ => chars "(Unknown error)"
         end ++ endl); mret true) i'
  | r => r
  end.

(** One turn of the loop with a line of input. *)
Definition turn (fuel : nat) (user_input : line) : MI bool :=
  _ ← write (endl ++ chars "JANA: ");
  match tokens user_input with
  | [] => catching (execute fuel [] [])
  | token :: args => catching (execute fuel token args)
  end.

(** The loop on the lines of the input: true if it was left; behind its end it reads empty lines and goes on for ever. *)
Fixpoint turns (fuel : nat) (input : list line) : MI bool :=
  match input with
  | [] => mret false
  | user_input :: input => stay ← turn fuel user_input; if (stay : bool) then turns fuel input else mret true
  end.

Definition Loop (fuel : nat) (input : list line) : MI bool :=
  i ← get;
  let enable_timeout_on_exit := timeout_on i in
  let enable_ticker_on_exit := ticker_on i in
  _ ← modify (set_switches false false);
  let bar := chars "--------------------------------------------------------------------------------------" ++ endl in
  _ ← write (endl ++ bar ++ chars "Welcome to JANA's interactive inspector! Type `Help` or `h` to see available commands." ++ endl ++ bar);
  _ ← PrintEvent;
  left ← turns fuel input;
  if (left : bool) then
    _ ← modify (fun i => set_switches (if enable_ticker_on_exit then true else ticker_on i) (if enable_timeout_on_exit then true else timeout_on i) i);
    mret true
  else mret false.

(** ** The switches of the application *)

(** A command leaves the switches alone, and an exception too. *)
Definition same_switches (i i' : JInspector) : Prop := ticker_on i' = ticker_on i /\ timeout_on i' = timeout_on i.

#[local] Instance same_switches_preorder : PreOrder same_switches.
Proof. split; [by intros i|]. intros i1 i2 i3 [H1 H2] [H3 H4]. split; congruence. Qed.

Abbreviation unswitched := (keeps same_switches).

Lemma keeps_write s : unswitched (write s).
Proof. by intros i. Qed.

Lemma keeps_index m : unswitched (modify (set_index m)).
Proof. by intros i. Qed.

Lemma keeps_format f : unswitched (modify (set_format f)).
Proof. by intros i. Qed.

Lemma keeps_build : unswitched BuildIndices.
Proof. intros i. unfold same_switches. cbn. by destruct (m_indexes_built i). Qed.

Create HintDb switches.
Hint Resolve keeps_write keeps_index keeps_format keeps_build : switches.

(** Go through the body of a command. *)
Ltac keeping := repeat first [solve [auto with switches] | progress case_decide | keeps_step].

Lemma keeps_find_factory key : unswitched (find_factory key).
Proof. unfold find_factory. keeping. Qed.

Lemma keeps_is_json : unswitched is_json.
Proof. unfold is_json. keeping. Qed.

Hint Resolve keeps_find_factory keeps_is_json : switches.

Lemma keeps_find_object key k : unswitched (find_object key k).
Proof. unfold find_object. keeping. Qed.

Hint Resolve keeps_find_object : switches.

Lemma keeps_rows className objs : unswitched (object_rows className objs).
Proof. induction objs as [|p objs IH]; cbn [object_rows]; keeping. Qed.

Lemma keeps_entry className p : unswitched (write_entry className p).
Proof. unfold write_entry. keeping. Qed.

Hint Resolve keeps_rows keeps_entry : switches.

Lemma keeps_arguments fuel token args command : with_arguments fuel token args = Some command -> unswitched command.
Proof.
  unfold with_arguments. destruct args as [|a1 [|b1 [|]]]; repeat case_match; intros Hc; simplify_eq;
    unfold PrintFactories, PrintFactoryDetails, PrintObjects, PrintFactoryParents, PrintObject, PrintObjectParents, PrintObjectAncestors, write_table, write_json;
    keeping.
Qed.

Lemma keeps_execute fuel token args : unswitched (execute fuel token args).
Proof.
  unfold execute, PrintEvent, PrintHelp. case_match; [keeping|]. destruct (with_arguments fuel token args) as [command|] eqn:Hc; [|keeping].
  keeps_step; [by eapply keeps_arguments|]. keeping.
Qed.

Lemma keeps_catching m : unswitched m -> unswitched (catching m).
Proof.
  intros Hm i. specialize (Hm i). unfold catching. destruct (m i) as [[b|e|] i1]; [done| |done].
  pose proof (keeps_bind same_switches _ (fun _ => mret true) (keeps_write (match e with
         | EJ _ => chars "(JException: Maybe you tried to print out objects that are not JObjects)"
         | EStd what => if decide (what = "invalid_argument"%string) then chars "(Parse error: Maybe an argument needs to be an int)" else chars "(Unknown error)"
         | _ => chars "(Unknown error)"
         end ++ endl)) (fun _ => keeps_ret same_switches true) i1) as [H1 H2]. destruct Hm as [H3 H4]. cbn in *. split; congruence.
Qed.

Lemma keeps_turns fuel input : unswitched (turns fuel input).
Proof.
  induction input as [|l input IH]; cbn [turns]; [keeping|]. keeps_step; [|keeping].
  unfold turn. keeps_step; [apply keeps_write|]. destruct (tokens l); apply keeps_catching, keeps_execute.
Qed.

(** No exception of a command leaves the loop. *)
Definition no_throw {A} (m : MI A) : Prop := forall i e, (m i).1 <> Throw e.

Lemma catching_no_throw m : no_throw (catching m).
Proof. intros i e. unfold catching. by destruct (m i) as [[b|e'|] i1]. Qed.

Lemma turns_no_throw fuel input : no_throw (turns fuel input).
Proof.
  induction input as [|l input IH]; intros i e; cbn [turns]; [done|].
  assert (Ht : no_throw (turn fuel l)) by (intros i' e'; unfold turn, mbind, M_bind; cbn; destruct (tokens l); apply catching_no_throw).
  unfold mbind, M_bind. specialize (Ht i). destruct (turn fuel l i) as [[[|]|e1|] i1]; cbn in *; [apply IH|congruence|by destruct (Ht e1)|congruence].
Qed.

(** What the lines do to the loop. *)
Definition leaves (user_input : line) : bool :=
  match tokens user_input with
  | token :: _ => either token "Continue" "c" || either token "Exit" "x"
  | [] => false
  end.

Lemma either_cases token a b : either token a b = true -> token = chars a \/ token = chars b.
Proof. unfold either. rewrite orb_true_iff, !bool_decide_eq_true. done. Qed.

Definition leaving (token : line) : bool := either token "Continue" "c" || either token "Exit" "x".

Lemma arguments_not_leaving fuel token args command : with_arguments fuel token args = Some command -> leaving token = false.
Proof.
  unfold with_arguments. destruct args as [|a1 [|b1 [|]]]; [..|done];
    repeat (match goal with |- context [either token ?a ?b] => let H := fresh in destruct (either token a b) eqn:H; [apply either_cases in H as [->| ->]; intros _; vm_compute; reflexivity|] end);
    done.
Qed.

Lemma execute_stays fuel token args i b i' : execute fuel token args i = (Ok b, i') -> b = negb (leaving token).
Proof.
  unfold execute. destruct (either token "PrintEvent" "pe") eqn:H1.
  { intros (a & i1 & _ & H)%M_bind_inv. injection H as <- _. apply either_cases in H1 as [->| ->]; reflexivity. }
  destruct (with_arguments fuel token args) as [command|] eqn:H2.
  { intros (a & i1 & _ & H)%M_bind_inv. injection H as <- _. by rewrite (arguments_not_leaving _ _ _ _ H2). }
  destruct (either token "ViewAsTable" "vt") eqn:H3; [intros [= <- _]; apply either_cases in H3 as [->| ->]; reflexivity|].
  destruct (either token "ViewAsJson" "vj") eqn:H4; [intros [= <- _]; apply either_cases in H4 as [->| ->]; reflexivity|].
  unfold leaving. destruct (either token "Continue" "c" || either token "Exit" "x"); [by intros [= <- _]|].
  repeat case_match; by intros [= <- _].
Qed.

Lemma leaving_executes fuel token args i : leaving token = true -> execute fuel token args i = (Ok false, i).
Proof.
  intros H. assert (Hargs : with_arguments fuel token args = None).
  { destruct (with_arguments fuel token args) eqn:Hc; [|done]. apply arguments_not_leaving in Hc. congruence. }
  unfold execute. rewrite Hargs. unfold leaving in H. rewrite H.
  apply orb_true_iff in H as [H|H]; apply either_cases in H as [->| ->]; reflexivity.
Qed.

Lemma turns_end fuel input : forall i b i', turns fuel input i = (Ok b, i') -> b = existsb leaves input.
Proof.
  induction input as [|l input IH]; intros i b i' H; cbn [turns] in H; [by injection H as <- _|].
  apply M_bind_inv in H as (stay & i1 & Ht & H). cbn [existsb].
  assert (Hstay : stay = negb (leaves l)).
  { revert Ht. unfold turn, leaves. intros (u & i0 & _ & Ht)%M_bind_inv. destruct (tokens l) as [|token args]; unfold catching in Ht.
    - destruct (execute fuel [] [] i0) as [[b0|e|] i2] eqn:He; [|by injection Ht as <- _|done].
      injection Ht as -> _. by apply execute_stays in He.
    - destruct (execute fuel token args i0) as [[b0|e|] i2] eqn:He; [| |done].
      + injection Ht as -> _. by apply execute_stays in He.
      + injection Ht as <- _. fold (leaving token). destruct (leaving token) eqn:Hl; [|done]. rewrite leaving_executes in He by done. done. }
  rewrite Hstay in H. destruct (leaves l); cbn in *; [by injection H as <- _|by eapply IH].
Qed.

(** The inspector gives the application back as it found it.  No command, wrong or right, throws out of the loop; and when the loop is left,
    which happens just if some line asks for it, the ticker and the timeout, which were off in the meantime, are as they were before. *)
Theorem inspector_restores_switches fuel input i :
  (forall e, (Loop fuel input i).1 <> Throw e)
  /\ (forall b i', Loop fuel input i = (Ok b, i') -> b = existsb leaves input)
  /\ (forall i', Loop fuel input i = (Ok true, i') -> ticker_on i' = ticker_on i /\ timeout_on i' = timeout_on i)
  /\ (forall i', Loop fuel input i = (Ok false, i') -> ticker_on i' = false /\ timeout_on i' = false).
Proof.
  unfold Loop. rewrite M_bind_get, M_bind_modify.
  set (opening := write _). assert (Hopen : forall i0, exists i1, opening i0 = (Ok tt, i1) /\ ticker_on i1 = ticker_on i0 /\ timeout_on i1 = timeout_on i0)
    by (intros i0; by eexists). destruct (Hopen (set_switches false false i)) as (i1 & H1 & Ht1 & Hm1). rewrite (M_bind_ok _ _ _ _ _ H1). clear H1 Hopen opening.
  assert (Hev : exists i2, PrintEvent i1 = (Ok tt, i2) /\ ticker_on i2 = ticker_on i1 /\ timeout_on i2 = timeout_on i1) by (by eexists).
  destruct Hev as (i2 & H2 & Ht2 & Hm2). rewrite (M_bind_ok _ _ _ _ _ H2). clear H2.
  pose proof (keeps_turns fuel input i2) as [Ht3 Hm3]. pose proof (turns_no_throw fuel input i2) as Hno.
  pose proof (turns_end fuel input i2) as Hend.
  unfold mbind at 1 3 5 7, M_bind at 1 3 5 7. destruct (turns fuel input i2) as [[[|]|e|] i3]; cbn in *.
  - split_and!; [done| | |done]; [intros b i' [= <- _]; by eapply Hend|]. intros i' [= <-]. cbn. rewrite Ht3, Ht2, Ht1, Hm3, Hm2, Hm1. cbn. by destruct (ticker_on i), (timeout_on i).
  - split_and!; [done| |done|]; [intros b i' [= <- _]; by eapply Hend|]. intros i' [= <-]. rewrite Ht3, Ht2, Ht1, Hm3, Hm2, Hm1. done.
  - by destruct (Hno e).
  - done.
Qed.

(** ** The numbers of the factories *)

(** The keys of the index: no factory has a number for its name, and no two have the same name and tag. *)
Definition keys_ok (facs : list nat) : Prop :=
  NoDup (factory_key <$> facs) /\ Forall (fun k => forall z : Z, factory_key k <> num z) facs.

Lemma insert_new_ne key key' v m : key <> key' -> insert_new key v m !! key' = m !! key'.
Proof. intros H. unfold insert_new. case_match; [done|]. by rewrite lookup_insert_ne. Qed.

Lemma insert_new_fresh key v m : m !! key = None -> insert_new key v m !! key = Some v.
Proof. intros H. unfold insert_new. rewrite H. apply lookup_insert_eq. Qed.

Lemma num_inj a b : num a = num b -> a = b.
Proof.
  unfold num. intros H. apply (f_equal text) in H. rewrite !text_chars in H. by apply (inj pretty).
Qed.

Lemma index_all_kept facs : forall i m key, (forall k, k ∈ facs -> factory_key k <> key) -> (forall z, i < z -> num z <> key) ->
  index_all i facs m !! key = m !! key.
Proof.
  induction facs as [|k facs IH]; intros i m key Hk Hz; [done|]. cbn [index_all]. rewrite IH.
  - rewrite !insert_new_ne; [done|apply Hk, list_elem_of_here|apply Hz; lia].
  - intros k' Hk'. apply Hk. by apply list_elem_of_further.
  - intros z Hiz. apply Hz. lia.
Qed.

(** The number that selects the factory at position [n] of the list is [n + 1], and the name selects it too. *)
Lemma index_all_entries facs : forall i m n k, keys_ok facs -> (forall k, k ∈ facs -> m !! factory_key k = None) -> (forall z, i < z -> m !! num z = None) ->
  facs !! n = Some k -> let v := Some (i + Z.of_nat n, Some k) in
  index_all i facs m !! num (i + Z.of_nat n + 1) = v /\ index_all i facs m !! factory_key k = v.
Proof.
  induction facs as [|k0 facs IH]; intros i m n k [Hnd Hnum] Hm Hz Hn; [done|]. rewrite fmap_cons, NoDup_cons in Hnd. destruct Hnd as [Hk0 Hnd].
  apply Forall_cons in Hnum as [Hnum0 Hnum]. cbn [index_all].
  assert (Hother : forall k', k' ∈ facs -> factory_key k' <> factory_key k0).
  { intros k' Hk' Heq. apply Hk0. rewrite <- Heq. by apply list_elem_of_fmap_2. }
  destruct n as [|n]; cbn in Hn.
  - injection Hn as <-. rewrite Z.add_0_r. split.
    + rewrite index_all_kept; [|intros k' Hk'; rewrite Forall_forall in Hnum; by apply Hnum|intros z Hlt Heq; apply num_inj in Heq; lia].
      apply insert_new_fresh. rewrite insert_new_ne by apply Hnum0. apply Hz. lia.
    + rewrite index_all_kept; [|done|intros z _; by apply not_eq_sym].
      rewrite insert_new_ne by (apply not_eq_sym, Hnum0). apply insert_new_fresh, Hm, list_elem_of_here.
  - specialize (IH (i + 1) (insert_new (num (i + 1)) (i, Some k0) (insert_new (factory_key k0) (i, Some k0) m)) n k (conj Hnd Hnum)).
    replace (i + Z.of_nat (S n)) with (i + 1 + Z.of_nat n) by lia. apply IH; [| |done].
    + intros k' Hk'. rewrite Forall_forall in Hnum. rewrite !insert_new_ne; [by apply Hm, list_elem_of_further|by apply not_eq_sym, Hother|by apply not_eq_sym, Hnum].
    + intros z Hlt. rewrite !insert_new_ne; [apply Hz; lia|apply Hnum0|intros Heq; apply num_inj in Heq; lia].
Qed.

(** The number that the table shows selects the factory before it, and the first number none. *)
Lemma shown_number_selects_previous n k : keys_ok sorted_factories -> sorted_factories !! n = Some k ->
  index_all 0 sorted_factories ∅ !! num (Z.of_nat (S n)) = Some (Z.of_nat n, Some k) /\ index_all 0 sorted_factories ∅ !! num 0 = None.
Proof.
  intros Hok Hn. split.
  - destruct (index_all_entries sorted_factories 0 ∅ n k Hok) as [H _]; [done|done|done|]. by replace (Z.of_nat (S n)) with (0 + Z.of_nat n + 1) by lia.
  - rewrite index_all_kept; [done| |intros z Hz Heq; apply num_inj in Heq; lia].
    intros k' Hk'. destruct Hok as [_ Hnum]. rewrite Forall_forall in Hnum. by apply Hnum.
Qed.

(** The number in a row of the table of factories. *)
Lemma shown_number discrepancies facs n fac : forall idx, facs !! n = Some fac -> 0 <= idx + 1 -> idx + 1 + sizeZ facs < 2 ^ 64 ->
  exists before after row, factory_rows discrepancies 0 (u64 idx) facs = before ++ row :: after /\ length before = n
    /\ row !! 0%nat = Some (num (idx + 1 + Z.of_nat n)) /\ row !! 1%nat = Some (GetObjectName fac).
Proof.
  revert n. induction facs as [|f facs IH]; intros n idx Hn Hidx Hsize; [done|]. rewrite sizeZ_cons in Hsize.
  assert (Hnext : u64 (u64 idx + 1) = idx + 1).
  { assert (Hc : cong64 (u64 idx + 1) (idx + 1)) by (by rewrite (cong64_u64 idx)). rewrite Hc. apply u64_small.
    pose proof (sizeZ_nonneg facs). lia. }
  cbn [factory_rows]. rewrite Hnext. unfold filtered. rewrite !(proj2 (Z.ltb_ge _ _)) by lia. cbn [andb orb app].
  destruct n as [|n]; cbn in Hn.
  - injection Hn as ->. eexists [], _, _. split_and!; [reflexivity|done| |done]. cbn. by rewrite Z.add_0_r.
  - destruct (IH n (idx + 1) Hn) as (before & after & row & Hrows & Hlen & H0 & H1); [lia|lia|].
    rewrite (u64_small (idx + 1)) in Hrows by (pose proof (sizeZ_nonneg facs); lia). rewrite Hrows.
    eexists (_ :: before), after, row. split_and!; [reflexivity|cbn; by rewrite Hlen| |done]. rewrite H0. do 2 f_equal. lia.
Qed.

(** ** The ancestors *)

(** Every association leads to an object, and every object is a [JObject]. *)
Definition objects_ok : Prop := Objects.closed (heap ev) /\ heap ev !! 0 = None /\ forall p o, heap ev !! p = Some o -> "JObject"%string ∈ Objects.casts_to o.

Lemma parents_spec p : objects_ok -> is_Some (heap ev !! p) ->
  exists ps, parents_of p = Ok ps /\ forall q, q ∈ ps <-> Objects.points_to (heap ev) p q.
Proof.
  intros (Hclosed & Hnull & Hcast) [o Ho].
  assert (Hall : Forall (fun q => is_Some (heap ev !! q)) (Objects.in_order (Objects.associated o))).
  { apply Forall_forall. intros q Hq%Objects.in_order_elem. apply (Hclosed p). by exists o. }
  destruct (Objects.casting_spec (heap ev) "JObject" _ Hall) as (ps & Hps & Hin). exists ps.
  unfold parents_of, Objects.GetT, Objects.at_. rewrite Ho. split; [done|]. intros q. rewrite Hin, Objects.in_order_elem. split.
  - intros (Hq & _). by exists o.
  - intros (o' & Ho' & Hq). assert (o' = o) as -> by congruence. rewrite Forall_forall in Hall.
    destruct (Hall q) as [oq Hoq]; [by apply Objects.in_order_elem|]. split_and!; [done|congruence|]. exists oq. split; [done|by eapply Hcast].
Qed.

(** Without cycles the loop ends, and lists the object itself and everything that it reaches. *)
Definition explored (root : Z) : Prop := forall to_visit l n, (forall fuel, (n <= fuel)%nat -> visit_stack fuel to_visit = Ok l) ->
  exists n' l', (forall fuel, (n' <= fuel)%nat -> visit_stack fuel (root :: to_visit) = Ok (l' ++ l))
    /\ forall y, y ∈ l' <-> y = root \/ Objects.reaches (heap ev) root y.

Lemma explored_list ps : Forall explored ps -> forall to_visit l n, (forall fuel, (n <= fuel)%nat -> visit_stack fuel to_visit = Ok l) ->
  exists n' l', (forall fuel, (n' <= fuel)%nat -> visit_stack fuel (ps ++ to_visit) = Ok (l' ++ l))
    /\ forall y, y ∈ l' <-> exists p, p ∈ ps /\ (y = p \/ Objects.reaches (heap ev) p y).
Proof.
  induction 1 as [|p ps Hp _ IH]; intros to_visit l n Hl.
  { exists n, []. split; [done|]. intros y. set_solver. }
  destruct (IH to_visit l n Hl) as (n1 & l1 & H1 & Hin1). destruct (Hp (ps ++ to_visit) (l1 ++ l) n1 H1) as (n2 & l2 & H2 & Hin2).
  exists n2, (l2 ++ l1). rewrite <- app_assoc. split; [done|]. intros y. rewrite elem_of_app, Hin1, Hin2. split.
  - intros [Hy|(p' & Hp' & Hy)]; [exists p; split; [apply list_elem_of_here|done]|exists p'; split; [by apply list_elem_of_further|done]].
  - intros (p' & [->|Hp']%elem_of_cons & Hy); [by left|right; by exists p'].
Qed.

Lemma acyclic_explored root : objects_ok -> Acc (fun y x => Objects.points_to (heap ev) x y) root -> is_Some (heap ev !! root) -> explored root.
Proof.
  intros Hok Hacc. induction Hacc as [root _ IH]. intros Hroot to_visit l n Hl.
  destruct (parents_spec root Hok Hroot) as (ps & Hps & Hin).
  assert (Hall : Forall explored (reverse ps)).
  { apply Forall_forall. intros p Hp%elem_of_reverse%Hin. apply IH; [done|]. destruct Hok as [Hclosed _]. by apply (Hclosed root). }
  destruct (explored_list _ Hall to_visit l n Hl) as (n1 & l1 & H1 & Hin1). exists (S n1), (root :: l1). split.
  - intros [|fuel] Hf; [lia|]. cbn [visit_stack]. rewrite Hps. unfold mbind, outcome_bind. by rewrite (H1 fuel) by lia.
  - intros y. rewrite elem_of_cons, Hin1. split.
    + intros [?|(p & Hp%elem_of_reverse%Hin & Hy)]; [by left|right]. destruct Hy as [->|Hy]; [by apply tc_once|by eapply tc_l].
    + intros [?|Hy]; [by left|right]. unfold Objects.reaches in Hy. inversion Hy as [x z Hxz|x z w Hxz Hzw]; subst.
      * exists y. rewrite elem_of_reverse, Hin. auto.
      * exists z. rewrite elem_of_reverse, Hin. auto.
Qed.

(** With a cycle it does not end, whatever the number of turns. *)
Lemma cycle_never_ends root fuel : objects_ok -> is_Some (heap ev !! root) -> Objects.reaches (heap ev) root root -> FindAllAncestors fuel root = Undef.
Proof.
  intros Hok Hroot Hcycle. unfold FindAllAncestors.
  enough (H : forall fuel to_visit x, Forall (fun p => is_Some (heap ev !! p)) to_visit -> x ∈ to_visit -> (x = root \/ Objects.reaches (heap ev) x root) ->
    visit_stack fuel to_visit = Undef).
  { apply (H _ _ root); [by apply Forall_singleton|apply list_elem_of_here|by left]. }
  clear fuel. induction fuel as [|fuel IH]; intros [|c to_visit] x Hall Hx Hr; [by apply not_elem_of_nil in Hx|done|by apply not_elem_of_nil in Hx|].
  apply Forall_cons in Hall as [Hc Hall]. cbn [visit_stack]. destruct (parents_spec c Hok Hc) as (ps & Hps & Hin). rewrite Hps. unfold mbind, outcome_bind.
  assert (Hstack : Forall (fun p => is_Some (heap ev !! p)) (reverse ps ++ to_visit)).
  { apply Forall_app. split; [|done]. apply Forall_forall. intros p Hp%elem_of_reverse%Hin. destruct Hok as [Hclosed _]. by apply (Hclosed c). }
  apply elem_of_cons in Hx as [->|Hx]; [|by rewrite (IH _ x); [| |apply elem_of_app; right|]].
  assert (Hc' : Objects.reaches (heap ev) c root) by (destruct Hr as [->|]; done).
  unfold Objects.reaches in Hc'. inversion Hc' as [a b Hab|a b d Hab Hbd]; subst.
  - rewrite (IH _ root); [done|done|apply elem_of_app; left; by rewrite elem_of_reverse, Hin|by left].
  - rewrite (IH _ b); [done|done|apply elem_of_app; left; by rewrite elem_of_reverse, Hin|by right].
Qed.

End Event.

(** The name of a format is not read back: only the last test has an [else]. *)
Example json_is_read_as_table : Parse (Stringify Json) Json = Table /\ Parse (Stringify Tsv) Table = Tsv.
Proof. split; vm_compute; reflexivity. Qed.

(** In the JSON format the first factory has the largest number there is. *)
Example first_json_number fac facs : exists rest, factory_entries (u64 (-1)) (fac :: facs) = chars "  18446744073709551615: { " ++ rest.
Proof. eexists. cbn [factory_entries]. change (num (u64 (-1))) with (chars "18446744073709551615"). rewrite (app_assoc (chars "  ")), (app_assoc (_ ++ _)). reflexivity. Qed.

End Inspector.
