(* ===== verification/JRegressionTest.v ===== *)
(** * JRegressionTest: comparing the data of two runs

    Model of [src/src/plugins/regressiontest/]: the processor writes all objects of all factories of each event to a log, and compares them with
    the log of an earlier run.  A factory is its name, its tag and the summaries of its objects, which [Create] has made.  The files are
    texts; an input stream also has its state, since [getline] leaves the string alone when the stream is not good.  What is
    printed about single discrepancies is left out. *)

From Stdlib Require Import Ascii.
From stdpp Require Import sorting pretty.
From S2P Require Import Prelude JParameterManager JCalibrationFile JTablePrinter JObject JInspector.
Import Parameters CalibrationFile.
Local Open Scope Z_scope.

Module RegressionTest.

Definition tab : ascii := "009".

(** ** Streams *)

Record Stream := mkStream { rest : line; good : bool }.

(** What is before the first delimiter, and what is behind it. *)
Fixpoint upto (d : ascii) (l : line) : line * option line :=
  match l with
  | [] => ([], None)
  | c :: l => if Ascii.eqb c d then ([], Some l) else let '(p, r) := upto d l in (c :: p, r)
  end.

Definition getline (d : ascii) (str : line) : M Stream line := fun s =>
  if good s then
    match upto d (rest s) with
    | (p, Some r) => (Ok p, mkStream r true)
    | (p, None) => (Ok p, mkStream [] false)
    end
  else (Ok str, s).

Fixpoint skip_space (l : line) : line :=
  match l with
  | c :: l' => if is_space c then skip_space l' else l
  | [] => []
  end.

(** [ParseFactorySummary]: the number is read only if the stream is still good. *)
Definition ParseFactorySummary (l : line) : outcome (line * Z) :=
  let unable := throwJ "Unable to parse factory summary" in
  let '(r, iss) := (_ ← getline tab []; getline tab []) (mkStream l true) in
  facname ← r;
  if good iss then match Inspector.stoi (skip_space (rest iss)) with Ok count => Ok (facname, count) | _ => unable end else unable.

(** ** The processor *)

Record Fac := mkFac { GetObjectName : line; GetTag : line; jobs : list (list Objects.JObjectMember) }.

#[export] Instance Fac_eq_dec : EqDecision Fac.
Proof. assert (EqDecision Objects.JObjectMember) by solve_decision. solve_decision. Defined.

Record Regression := mkRegression {
  interactive : bool;
  have_old_log_file : bool; old_log_file : Stream;
  new_log_file : line;
  blacklist : gset line;
  discrepancy_counts : gmap line Z;
  inspected : list (gset line)      (* the discrepancies that the inspector was given, for each event *)
}.

Definition set_old (f : Stream) (s : Regression) : Regression :=
  mkRegression (interactive s) (have_old_log_file s) f (new_log_file s) (blacklist s) (discrepancy_counts s) (inspected s).
Definition write_log (l : line) (s : Regression) : Regression :=
  mkRegression (interactive s) (have_old_log_file s) (old_log_file s) (new_log_file s ++ l) (blacklist s) (discrepancy_counts s) (inspected s).
Definition count_discrepancy (key : line) (s : Regression) : Regression :=
  mkRegression (interactive s) (have_old_log_file s) (old_log_file s) (new_log_file s) (blacklist s)
    (<[key := default 0 (discrepancy_counts s !! key) + 1]> (discrepancy_counts s)) (inspected s).
Definition inspect (d : gset line) (s : Regression) : Regression :=
  mkRegression (interactive s) (have_old_log_file s) (old_log_file s) (new_log_file s) (blacklist s) (discrepancy_counts s) (inspected s ++ [d]).

(** [old] is the text of the old log, if there is one. *)
Definition Init (is_interactive : bool) (old : option line) (blacklist_text : line) : Regression :=
  mkRegression is_interactive (bool_decide (is_Some old)) (match old with Some text => mkStream text true | None => mkStream [] false end) []
    (list_to_set (delivered newline [] blacklist_text)) ∅ [].

Definition fac_key (f : Fac) : line := Inspector.MakeFactoryKey (GetObjectName f) (GetTag f).

Definition count_line (evt_nr : Z) (f : Fac) : line :=
  chars (pretty evt_nr) ++ tab :: fac_key f ++ tab :: chars (pretty (Z.of_nat (length (jobs f)))).

Definition field_text (black : gset line) (key : line) (field : Objects.JObjectMember) : line :=
  if bool_decide (Objects.field_name field = chars "JObject") || bool_decide (Objects.field_name field = chars "id")
     || bool_decide (key ++ tab :: Objects.field_name field ∈ black)
  then [] else Objects.field_name field ++ chars ": " ++ Objects.field_value field ++ chars ", ".

Definition object_line (black : gset line) (evt_nr : Z) (key : line) (fields : list Objects.JObjectMember) : line :=
  chars (pretty evt_nr) ++ tab :: key ++ tab :: chars "{" ++ (fields ≫= field_text black key) ++ chars "}".

Definition new_object_lines (black : gset line) (evt_nr : Z) (f : Fac) : list line :=
  merge_sort (fun a b => String.leb (text a) (text b)) (object_line black evt_nr (fac_key f) <$> jobs f).

(** The lines of a factory in the old log. *)
Fixpoint read_lines (n : nat) (str : line) : M Stream (list line * line) :=
  match n with
  | O => mret ([], str)
  | S n => str ← getline newline str; r ← read_lines n str; mret (str :: r.1, r.2)
  end.

(** The factories of an event in the old log, up to an empty line; [str] is what the string has before. *)
Fixpoint read_event (fuel : nat) (str : line) (log : gmap line (list line)) : M Stream (gmap line (list line)) :=
  match fuel with
  | O => lift Undef
  | S fuel =>
      str ← getline newline str;
      if decide (str = []) then mret log
      else
        summary ← lift (ParseFactorySummary str);
        r ← read_lines (Z.to_nat summary.2) str;
        read_event fuel r.2 (<[summary.1 := r.1]> log)
  end.

Definition read_old_event : M Regression (gmap line (list line)) := fun s =>
  let '(r, f) := read_event (length (rest (old_log_file s)) + 2) (chars "throwaway") ∅ (old_log_file s) in (r, set_old f s).

Definition differs (old_object_lines object_lines : list line) : bool := bool_decide (old_object_lines <> object_lines).

Definition process_factory (evt_nr : Z) (old_event_log : gmap line (list line)) (f : Fac) (event_discrepancies : gset line) : M Regression (gset line) :=
  s ← get;
  let object_lines := new_object_lines (blacklist s) evt_nr f in
  _ ← modify (write_log (ended (count_line evt_nr f) ++ concat (ended <$> object_lines)));
  if have_old_log_file s && differs (default [] (old_event_log !! fac_key f)) object_lines then
    _ ← modify (count_discrepancy (fac_key f));
    mret ({[fac_key f]} ∪ event_discrepancies)
  else mret event_discrepancies.

Fixpoint process_factories (evt_nr : Z) (old_event_log : gmap line (list line)) (facs : list Fac) (event_discrepancies : gset line) : M Regression (gset line) :=
  match facs with
  | [] => mret event_discrepancies
  | f :: facs => d ← process_factory evt_nr old_event_log f event_discrepancies; process_factories evt_nr old_event_log facs d
  end.

(** The factories in the order of their calls, then the others in the order of their names. *)
Definition key_leb (a b : line * line) : bool :=
  if decide (a.1 = b.1) then String.leb (text a.2) (text b.2) else String.leb (text a.1) (text b.1).

Definition by_name (m : gmap (line * line) Fac) (all : list Fac) : gmap (line * line) Fac :=
  foldl (fun m f => <[(GetObjectName f, GetTag f) := f]> m) m all.

Definition GetFactoriesTopologicallyOrdered (all : list Fac) (ordering : list (line * line)) : list Fac :=
  let factories := by_name ∅ all in
  omap (fun key => factories !! key) ordering ++
  omap (fun key => factories !! key) (merge_sort key_leb (filter (fun key => key ∉ ordering) (elements (dom factories)))).

Definition Process (evt_nr : Z) (all : list Fac) (ordering : list (line * line)) : M Regression unit :=
  let facs := GetFactoriesTopologicallyOrdered all ordering in
  have_old ← gets have_old_log_file;
  old_event_log ← (if have_old : bool then read_old_event else mret ∅);
  event_discrepancies ← process_factories evt_nr old_event_log facs ∅;
  _ ← modify (write_log [newline]);
  s ← get;
  if interactive s then modify (inspect event_discrepancies) else mret tt.

(** The table that [Finish] prints. *)
Definition Finish (s : Regression) : list (line * Z) :=
  merge_sort (fun a b => String.leb (text a.1) (text b.1)) (map_to_list (discrepancy_counts s)).

Fixpoint run_events (events : list (Z * list Fac * list (line * line))) : M Regression unit :=
  match events with
  | [] => mret tt
  | e :: events => _ ← Process e.1.1 e.1.2 e.2; run_events events
  end.

(** ** Lines read back *)

Lemma upto_found d l r : Forall (fun c => c <> d) l -> upto d (l ++ d :: r) = (l, Some r).
Proof.
  induction 1 as [|c l Hc _ IH]; cbn; [by rewrite Ascii.eqb_refl|]. rewrite (proj2 (Ascii.eqb_neq c d) Hc). by rewrite IH.
Qed.

Lemma getline_reads str l r : one_line l -> getline newline str (mkStream (ended l ++ r) true) = (Ok l, mkStream r true).
Proof. intros Hl. unfold getline, ended. cbn [good rest]. rewrite <- app_assoc. cbn [app]. by rewrite upto_found. Qed.

Lemma read_lines_reads ls r : Forall one_line ls -> forall str, exists str',
  read_lines (length ls) str (mkStream (concat (ended <$> ls) ++ r) true) = (Ok (ls, str'), mkStream r true).
Proof.
  induction 1 as [|l ls Hl _ IH]; intros str; [by eexists|]. destruct (IH l) as (str' & E). exists str'.
  cbn [length read_lines fmap list_fmap concat]. rewrite <- app_assoc, (M_bind_ok _ _ _ _ _ (getline_reads str l _ Hl)), (M_bind_ok _ _ _ _ _ E). done.
Qed.

(** ** Numbers *)

Definition is_digit (c : ascii) : bool := (48 <=? nat_of_ascii c)%nat && (nat_of_ascii c <=? 57)%nat.

Lemma digit_char n : (n < 10)%N -> is_digit (pretty_N_char n) = true /\ Z.of_nat (nat_of_ascii (pretty_N_char n)) - 48 = Z.of_N n.
Proof.
  intros H. assert (Hn : n ∈ ([0; 1; 2; 3; 4; 5; 6; 7; 8; 9])%N) by (rewrite !elem_of_cons; lia).
  clear H. revert n Hn. apply Forall_forall. repeat constructor.
Qed.

Lemma pretty_go_number x : forall s, exists ds, chars (pretty_N_go x s) = ds ++ chars s /\ Forall (fun c => is_digit c = true) ds /\
  forall v, foldl (fun v c => 10 * v + (Z.of_nat (nat_of_ascii c) - 48)) v ds = v * 10 ^ Z.of_nat (length ds) + Z.of_N x.
Proof.
  induction (N.lt_wf_0 x) as [x _ IH]. intros s. destruct (decide (x = 0)%N) as [->|Hx].
  { exists []. rewrite pretty_N_go_0. split_and!; [done|constructor|]. intros v. cbn. lia. }
  rewrite pretty_N_go_step by lia. destruct (IH (x `div` 10)%N ltac:(apply N.div_lt; lia) (String (pretty_N_char (x mod 10)) s)) as (ds & E & Hd & Hv).
  destruct (digit_char (x mod 10)%N) as [D1 D2]; [by apply N.mod_lt|]. exists (ds ++ [pretty_N_char (x mod 10)]). split_and!.
  - rewrite E, <- app_assoc. done.
  - apply Forall_app. by repeat constructor.
  - intros v. rewrite foldl_app, Hv. cbn [foldl]. rewrite D2, length_app. cbn [length]. rewrite Nat2Z.inj_add, Z.pow_add_r by lia.
    change (10 ^ Z.of_nat 1) with 10. rewrite N2Z.inj_div, N2Z.inj_mod. pose proof (Z.div_mod (Z.of_N x) 10). lia.
Qed.

Lemma pretty_number (n : nat) : exists ds, chars (pretty (Z.of_nat n)) = ds /\ ds <> [] /\ Forall (fun c => is_digit c = true) ds /\ Inspector.decimal_value ds = Z.of_nat n.
Proof.
  destruct n as [|n]; [by eexists; split_and!; [reflexivity|done|repeat constructor|]|].
  change (pretty (Z.of_nat (S n))) with (pretty_N_go (N.pos (Pos.of_succ_nat n)) EmptyString).
  destruct (pretty_go_number (N.pos (Pos.of_succ_nat n)) EmptyString) as (ds & E & Hd & Hv). exists ds. change (chars EmptyString) with (@nil ascii) in E. rewrite app_nil_r in E.
  assert (Hval : Inspector.decimal_value ds = Z.of_nat (S n)) by (unfold Inspector.decimal_value; rewrite Hv; lia).
  split_and!; [done| |done|done]. intros ->. done.
Qed.

Lemma leading_digits_all ds : Forall (fun c => is_digit c = true) ds -> Inspector.leading_digits ds = ds.
Proof. induction 1 as [|c ds Hc _ IH]; [done|]. cbn [Inspector.leading_digits]. unfold is_digit in Hc. by rewrite Hc, IH. Qed.

Lemma digit_plain c : is_digit c = true -> is_space c = false /\ c <> "-"%char /\ c <> "+"%char /\ c <> newline /\ c <> tab.
Proof. destruct c as [[] [] [] [] [] [] [] []]; vm_compute; try discriminate; done. Qed.

Lemma count_reads (n : nat) : (Z.of_nat n < 2 ^ 31) -> Inspector.stoi (skip_space (chars (pretty (Z.of_nat n)))) = Ok (Z.of_nat n).
Proof.
  intros Hn. destruct (pretty_number n) as (ds & -> & Hne & Hd & Hv). destruct ds as [|c ds]; [done|].
  pose proof (proj1 (Forall_cons _ _ _) Hd) as [Hc _]. destruct (digit_plain c Hc) as (H1 & H2 & H3 & _). cbn [skip_space]. rewrite H1.
  unfold Inspector.stoi. rewrite !decide_False by done. rewrite leading_digits_all, decide_False, Hv by done.
  rewrite Z.mul_1_l. destruct (Z.leb_spec (- 2 ^ 31) (Z.of_nat n)); [|lia]. destruct (Z.ltb_spec (Z.of_nat n) (2 ^ 31)); [done|lia].
Qed.

(** ** What is logged reads back *)

Definition plain (l : line) : Prop := Forall (fun c => c <> newline /\ c <> tab) l.

Lemma plain_one_line l : plain l -> one_line l.
Proof. intros H. eapply Forall_impl; [exact H|]. by intros c []. Qed.

Lemma pretty_plain z : 0 <= z -> plain (chars (pretty z)).
Proof.
  intros Hz. rewrite <- (Z2Nat.id z Hz). destruct (pretty_number (Z.to_nat z)) as (ds & -> & _ & Hd & _).
  eapply Forall_impl; [exact Hd|]. intros c Hc. by apply digit_plain in Hc as (_ & _ & _ & ? & ?).
Qed.

(** Names without tabs and line ends, fields without line ends, and a number of objects that is an [int]. *)
Record fac_ok (f : Fac) : Prop := {
  name_plain : plain (GetObjectName f); tag_plain : plain (GetTag f);
  fields_one_line : Forall (Forall (fun m => one_line (Objects.field_name m) /\ one_line (Objects.field_value m))) (jobs f);
  few_jobs : Z.of_nat (length (jobs f)) < 2 ^ 31
}.

Lemma key_plain f : fac_ok f -> plain (fac_key f).
Proof.
  intros H. unfold fac_key, Inspector.MakeFactoryKey. apply Forall_app. split; [apply H|]. case_decide; [constructor|].
  constructor; [done|]. apply H.
Qed.

Lemma count_line_parses nr f : 0 <= nr -> fac_ok f -> ParseFactorySummary (count_line nr f) = Ok (fac_key f, Z.of_nat (length (jobs f))).
Proof.
  intros Hn Hf. unfold ParseFactorySummary, count_line.
  assert (G : forall l r, plain l -> getline tab [] (mkStream (l ++ tab :: r) true) = (Ok l, mkStream r true)).
  { intros l r Hl. unfold getline. cbn [good rest]. rewrite upto_found; [done|]. eapply Forall_impl; [exact Hl|]. by intros c []. }
  rewrite (M_bind_ok _ _ _ _ _ (G _ _ (pretty_plain nr Hn))), (G _ _ (key_plain f Hf)). cbn [good rest mbind outcome_bind].
  by rewrite count_reads by apply Hf.
Qed.

Lemma count_line_one_line nr f : 0 <= nr -> fac_ok f -> one_line (count_line nr f) /\ count_line nr f <> [].
Proof.
  intros Hn Hf. unfold count_line. split; [|by destruct (chars (pretty nr))].
  apply Forall_app. split; [by apply plain_one_line, pretty_plain|]. constructor; [done|]. apply Forall_app. split; [by apply plain_one_line, key_plain|].
  constructor; [done|]. apply plain_one_line, pretty_plain. lia.
Qed.

Lemma object_lines_one_line black nr f : 0 <= nr -> fac_ok f -> Forall one_line (new_object_lines black nr f).
Proof.
  intros Hn Hf. unfold new_object_lines. rewrite merge_sort_Permutation. apply Forall_fmap. eapply Forall_impl; [apply Hf|]. intros fields Hfields.
  unfold compose, object_line. apply Forall_app. split; [by apply plain_one_line, pretty_plain|]. constructor; [done|].
  apply Forall_app. split; [by apply plain_one_line, key_plain|]. constructor; [done|]. constructor; [done|]. apply Forall_app. split; [|by repeat constructor].
  apply Forall_bind. eapply Forall_impl; [exact Hfields|]. intros m [H1 H2]. unfold compose, field_text. destruct (_ || _); [constructor|].
  apply Forall_app. split; [done|]. apply Forall_app. split; [by repeat constructor|]. apply Forall_app. split; [done|by repeat constructor].
Qed.

Lemma object_lines_length black nr f : length (new_object_lines black nr f) = length (jobs f).
Proof. unfold new_object_lines. by rewrite merge_sort_Permutation, length_fmap. Qed.

(** ** The order of the factories *)

Lemma factories_found all : forall m key f, by_name m all !! key = Some f ->
  m !! key = Some f \/ (f ∈ all /\ key = (GetObjectName f, GetTag f)).
Proof.
  induction all as [|x all IH]; intros m key f Hf; [by left|]. unfold by_name in Hf; cbn [foldl] in Hf; fold (by_name (<[(GetObjectName x, GetTag x):=x]> m) all) in Hf. destruct (IH _ _ _ Hf) as [H|[Hin Hk]]; [|by right; split; [right|]].
  destruct (decide (key = (GetObjectName x, GetTag x))) as [->|Hne]; [rewrite lookup_insert_eq in H; simplify_eq; right; split; [left|]; done|].
  rewrite lookup_insert_ne in H by done. by left.
Qed.

Lemma factories_cover all f : f ∈ all -> forall m, is_Some (by_name m all !! (GetObjectName f, GetTag f)).
Proof.
  assert (Hkeep : forall l m key, is_Some (m !! key) -> is_Some (by_name m l !! key)).
  { induction l as [|x l IH]; intros m key Hm; [done|]. unfold by_name; cbn [foldl]. apply IH. apply lookup_insert_is_Some'. by right. }
  induction 1 as [f all|f x all _ IH]; intros m; unfold by_name; cbn [foldl]; [|apply IH]. apply Hkeep. rewrite lookup_insert_eq. by eexists.
Qed.

(** All factories are listed, whatever the order of calls, and nothing else. *)
Lemma ordered_factories all ordering :
  (forall f, f ∈ GetFactoriesTopologicallyOrdered all ordering -> f ∈ all) /\
  (forall f, f ∈ all -> exists g, g ∈ GetFactoriesTopologicallyOrdered all ordering /\ (GetObjectName g, GetTag g) = (GetObjectName f, GetTag f)).
Proof.
  unfold GetFactoriesTopologicallyOrdered. set (m := by_name ∅ all).
  assert (Hm : forall key f, m !! key = Some f -> f ∈ all /\ key = (GetObjectName f, GetTag f)).
  { intros key f Hf. destruct (factories_found all ∅ key f Hf) as [H|H]; [by rewrite lookup_empty in H|done]. }
  split; intros f.
  - intros [(key & _ & Hf)%list_elem_of_omap|(key & _ & Hf)%list_elem_of_omap]%elem_of_app; by destruct (Hm _ _ Hf).
  - intros Hin. destruct (factories_cover all f Hin ∅) as [g Hg]. fold m in Hg. destruct (Hm _ _ Hg) as [_ Hk]. exists g. split; [|done].
    apply elem_of_app. destruct (decide ((GetObjectName f, GetTag f) ∈ ordering)) as [Ho|Ho]; [left|right]; apply list_elem_of_omap; exists (GetObjectName f, GetTag f);
      (split; [|exact Hg]); [done|]. rewrite merge_sort_Permutation. apply list_elem_of_filter. split; [done|]. apply elem_of_elements, elem_of_dom. by eexists.
Qed.

Section Logs.
Context (black : gset line).

Abbreviation event := (Z * list Fac * list (line * line))%type.
Definition facs_of (e : event) : list Fac := GetFactoriesTopologicallyOrdered e.1.2 e.2.
Definition event_ok (e : event) : Prop := 0 <= e.1.1 /\ Forall fac_ok e.1.2.

Definition fac_text (nr : Z) (f : Fac) : line := ended (count_line nr f) ++ concat (ended <$> new_object_lines black nr f).
Definition event_text (e : event) : line := (facs_of e ≫= fac_text e.1.1) ++ [newline].
Definition log_text (es : list event) : line := es ≫= event_text.

(** What the old log says of an event; a later factory with the same key prevails. *)
Definition log_facs (nr : Z) (m : gmap line (list line)) (facs : list Fac) : gmap line (list line) :=
  foldl (fun m f => <[fac_key f := new_object_lines black nr f]> m) m facs.

Lemma read_event_reads nr facs r : 0 <= nr -> Forall fac_ok facs -> forall fuel str m, (length facs < fuel)%nat ->
  read_event fuel str m (mkStream ((facs ≫= fac_text nr) ++ newline :: r) true) = (Ok (log_facs nr m facs), mkStream r true).
Proof.
  intros Hn. induction 1 as [|f facs Hf _ IH]; intros [|fuel] str m Hfuel; try (cbn in Hfuel; lia).
  - cbn [read_event mbind list_bind app]. rewrite (M_bind_ok _ _ _ _ _ (getline_reads str [] r ltac:(constructor))). done.
  - cbn [read_event]. rewrite bind_cons. unfold fac_text at 1. rewrite <- !app_assoc. destruct (count_line_one_line nr f Hn Hf) as [H1 H2].
    rewrite (M_bind_ok _ _ _ _ _ (getline_reads str _ _ H1)), decide_False by done.
    rewrite (M_bind_lift _ _ _ _ (count_line_parses nr f Hn Hf)). cbn [fst snd]. rewrite Nat2Z.id, <- (object_lines_length black nr f).
    destruct (read_lines_reads (new_object_lines black nr f) ((facs ≫= fac_text nr) ++ newline :: r) (object_lines_one_line black nr f Hn Hf) (count_line nr f)) as (str' & E).
    rewrite (M_bind_ok _ _ _ _ _ E). cbn [fst snd]. apply IH. cbn in Hfuel. lia.
Qed.

Lemma text_longer nr facs : (length facs <= length (facs ≫= fac_text nr))%nat.
Proof.
  induction facs as [|f facs IH]; [done|]. rewrite bind_cons. cbn [length]. rewrite length_app. unfold fac_text at 1, ended at 1. rewrite !length_app. cbn. lia.
Qed.

(** The keys of the factories whose lines are not those of the old log. *)
Definition changed (nr : Z) (old : gmap line (list line)) (facs : list Fac) : gset line :=
  list_to_set (fac_key <$> filter (fun f => default [] (old !! fac_key f) <> new_object_lines black nr f) facs).

Lemma process_factories_spec nr old facs : forall d s, blacklist s = black -> exists counts,
  process_factories nr old facs d s = (Ok (if have_old_log_file s then d ∪ changed nr old facs else d),
    mkRegression (interactive s) (have_old_log_file s) (old_log_file s) (new_log_file s ++ (facs ≫= fac_text nr)) black counts (inspected s)) /\
  (have_old_log_file s = false \/ changed nr old facs = ∅ -> counts = discrepancy_counts s).
Proof.
  induction facs as [|f facs IH]; intros d s Hb.
  - exists (discrepancy_counts s). split; [|done]. cbn [process_factories mbind list_bind]. rewrite app_nil_r. unfold changed. cbn. rewrite (right_id_L ∅ (∪)).
    subst black. by destruct s as [? [] ? ? ? ? ?].
  - cbn [process_factories]. unfold process_factory. rewrite M_bind_assoc, M_bind_get, M_bind_assoc, M_bind_modify, Hb.
    set (s1 := write_log _ s). assert (Hs1 : new_log_file s1 = new_log_file s ++ fac_text nr f) by done.
    unfold differs. destruct (have_old_log_file s) eqn:Hold; cbn [andb].
    + destruct (decide (default [] (old !! fac_key f) <> new_object_lines black nr f)) as [Hd|Hd].
      * rewrite bool_decide_true by done. rewrite M_bind_assoc, M_bind_modify, M_bind_ret.
        destruct (IH ({[fac_key f]} ∪ d) (count_discrepancy (fac_key f) s1) Hb) as (counts & E & _). exists counts. rewrite E. cbn [have_old_log_file count_discrepancy s1 write_log].
        rewrite Hold. split; [|intros [?|He]; [done|]].
        -- unfold changed at 2. rewrite filter_cons_True by done. rewrite bind_cons. cbn. do 2 f_equal; [set_solver|]. unfold fac_text. by rewrite ?Hold, <- !app_assoc.
        -- exfalso. unfold changed in He. rewrite filter_cons_True in He by done. cbn in He. set_solver.
      * rewrite bool_decide_false by done. rewrite M_bind_ret. destruct (IH d s1 Hb) as (counts & E & Hc). exists counts. rewrite E.
        cbn [have_old_log_file s1 write_log discrepancy_counts] in *. unfold changed in *. rewrite filter_cons_False by done. rewrite Hold in *. split; [|exact Hc].
        rewrite bind_cons. cbn. unfold fac_text. by rewrite ?Hold, <- !app_assoc.
    + rewrite M_bind_ret. destruct (IH d s1 Hb) as (counts & E & Hc). exists counts. rewrite E. cbn [have_old_log_file s1 write_log discrepancy_counts] in *. rewrite Hold in *.
      split; [|intros _; apply Hc; by left]. rewrite bind_cons. cbn. unfold fac_text. by rewrite ?Hold, <- !app_assoc.
Qed.

(** What is reported for an event [e] if the old log has [e0] in its place. *)
Definition differences (e0 e : event) : gset line := changed e.1.1 (log_facs e0.1.1 ∅ (facs_of e0)) (facs_of e).

Lemma process_first e s : blacklist s = black -> have_old_log_file s = false ->
  Process e.1.1 e.1.2 e.2 s = (Ok tt, mkRegression (interactive s) false (old_log_file s) (new_log_file s ++ event_text e) black (discrepancy_counts s)
    (inspected s ++ if interactive s then [∅] else [])).
Proof.
  intros Hb Hold. unfold Process. rewrite M_bind_gets, Hold, M_bind_ret.
  destruct (process_factories_spec e.1.1 ∅ (facs_of e) ∅ s Hb) as (counts & E & Hc). unfold facs_of in E. rewrite (M_bind_ok _ _ _ _ _ E), M_bind_modify, M_bind_get.
  rewrite Hc by (by left). cbn [interactive write_log]. unfold event_text, facs_of. rewrite Hold, app_assoc. destruct (interactive s); [done|]. by rewrite app_nil_r.
Qed.

Lemma ordered_ok e : event_ok e -> Forall fac_ok (facs_of e).
Proof.
  intros [_ H]. apply Forall_forall. intros f Hf. apply (proj1 (Forall_forall _ _) H). by eapply ordered_factories.
Qed.

Lemma process_again e0 e s r : event_ok e0 -> blacklist s = black -> have_old_log_file s = true -> old_log_file s = mkStream (event_text e0 ++ r) true ->
  exists counts, Process e.1.1 e.1.2 e.2 s = (Ok tt, mkRegression (interactive s) true (mkStream r true) (new_log_file s ++ event_text e) black counts
    (inspected s ++ if interactive s then [differences e0 e] else [])) /\ (differences e0 e = ∅ -> counts = discrepancy_counts s).
Proof.
  intros He Hb Hold Hf. unfold Process. rewrite M_bind_gets, Hold.
  assert (E0 : read_old_event s = (Ok (log_facs e0.1.1 ∅ (facs_of e0)), set_old (mkStream r true) s)).
  { unfold read_old_event. rewrite Hf. cbn [rest]. unfold event_text. rewrite <- app_assoc. cbn [app].
    rewrite (read_event_reads e0.1.1 (facs_of e0) r (proj1 He) (ordered_ok e0 He)); [done|]. pose proof (text_longer e0.1.1 (facs_of e0)). rewrite length_app. lia. }
  rewrite (M_bind_ok _ _ _ _ _ E0).
  destruct (process_factories_spec e.1.1 (log_facs e0.1.1 ∅ (facs_of e0)) (facs_of e) ∅ (set_old (mkStream r true) s) Hb) as (counts & E & Hc).
  cbn [have_old_log_file set_old interactive old_log_file new_log_file inspected discrepancy_counts] in E, Hc. rewrite Hold, (left_id_L ∅ (∪)) in E. exists counts.
  unfold facs_of at 2 in E. rewrite (M_bind_ok _ _ _ _ _ E), M_bind_modify, M_bind_get. cbn [interactive write_log]. split; [|intros Hd; apply Hc; by right].
  unfold event_text, facs_of. rewrite app_assoc. destruct (interactive s); [done|]. by rewrite app_nil_r.
Qed.

Lemma run_first es : forall s, blacklist s = black -> have_old_log_file s = false -> exists s1, run_events es s = (Ok tt, s1) /\
  new_log_file s1 = new_log_file s ++ log_text es /\ blacklist s1 = black.
Proof.
  induction es as [|e es IH]; intros s Hb Hold; [exists s; split_and!; [done| |done]; unfold log_text; cbn; by rewrite app_nil_r|]. cbn [run_events].
  rewrite (M_bind_ok _ _ _ _ _ (process_first e s Hb Hold)). set (s' := mkRegression _ _ _ _ _ _ _).
  destruct (IH s' eq_refl eq_refl) as (s1 & E & Hl & Hb1). exists s1. split_and!; [done| |done]. rewrite Hl. subst s'. cbn [new_log_file]. unfold log_text. by rewrite bind_cons, <- app_assoc.
Qed.

Lemma run_again es : forall es0 s r, Forall event_ok es0 -> length es0 = length es -> blacklist s = black -> have_old_log_file s = true -> interactive s = true ->
  old_log_file s = mkStream (log_text es0 ++ r) true -> exists s2, run_events es s = (Ok tt, s2) /\ new_log_file s2 = new_log_file s ++ log_text es /\
    inspected s2 = inspected s ++ zip_with differences es0 es /\ (Forall (fun d => d = ∅) (zip_with differences es0 es) -> discrepancy_counts s2 = discrepancy_counts s).
Proof.
  induction es as [|e es IH]; intros [|e0 es0] s r Hok Hlen Hb Hold Hi Hf; try done.
  - exists s. unfold log_text. cbn. by rewrite !app_nil_r.
  - apply Forall_cons in Hok as [He Hok]. unfold log_text in Hf. rewrite bind_cons, <- app_assoc in Hf. cbn [run_events].
    destruct (process_again e0 e s ((es0 ≫= event_text) ++ r) He Hb Hold Hf) as (counts & E & Hc). rewrite (M_bind_ok _ _ _ _ _ E), Hi.
    set (s' := mkRegression _ _ _ _ _ _ _). destruct (IH es0 s' r Hok ltac:(cbn in Hlen; lia) eq_refl eq_refl eq_refl eq_refl) as (s2 & E2 & Hl & Hin & Hd).
    exists s2. split_and!; [done| | |].
    + rewrite Hl. subst s'. cbn [new_log_file]. unfold log_text. by rewrite bind_cons, <- app_assoc.
    + rewrite Hin. subst s'. cbn [inspected zip_with]. by rewrite <- app_assoc.
    + cbn [zip_with]. intros [H1 H2]%Forall_cons. rewrite Hd by done. by apply Hc.
Qed.

(** Keys that tell the factories of an event apart. *)
Definition keys_unique (e : event) : Prop := forall f g, f ∈ e.1.2 -> g ∈ e.1.2 -> fac_key f = fac_key g -> f = g.

(** What the old log has for a key is what a factory with it had. *)
Lemma log_facs_lookup nr facs : (forall f g, f ∈ facs -> g ∈ facs -> fac_key f = fac_key g -> f = g) ->
  forall m, (forall f, f ∈ facs -> log_facs nr m facs !! fac_key f = Some (new_object_lines black nr f)) /\
    forall key, (forall f, f ∈ facs -> fac_key f <> key) -> log_facs nr m facs !! key = m !! key.
Proof.
  induction facs as [|x facs IH] using rev_ind; intros Hu m; [split; [by intros f ?%not_elem_of_nil|done]|]. unfold log_facs in *. rewrite foldl_app. cbn [foldl].
  destruct (IH ltac:(intros; apply Hu; set_solver) m) as [H1 H2]. split.
  - intros f Hf. destruct (decide (fac_key f = fac_key x)) as [Ek|Ek].
    + rewrite (Hu f x) by set_solver. apply lookup_insert_eq.
    + rewrite lookup_insert_ne by done. apply H1. set_solver.
  - intros key Hk. rewrite lookup_insert_ne by (apply Hk; set_solver). apply H2. set_solver.
Qed.

Lemma ordered_elem e f : keys_unique e -> f ∈ facs_of e <-> f ∈ e.1.2.
Proof.
  intros Hu. destruct (ordered_factories e.1.2 e.2) as [H1 H2]. split; [apply H1|]. intros Hf. destruct (H2 f Hf) as (g & Hg & [= Hn Ht]).
  rewrite (Hu f g); [done|done|by apply H1|]. unfold fac_key. by rewrite Hn, Ht.
Qed.

Lemma differences_spec e0 e f : keys_unique e0 -> keys_unique e -> f ∈ e.1.2 ->
  fac_key f ∉ differences e0 e <->
  (exists g, g ∈ e0.1.2 /\ fac_key g = fac_key f /\ new_object_lines black e0.1.1 g = new_object_lines black e.1.1 f) \/
  (jobs f = [] /\ forall g, g ∈ e0.1.2 -> fac_key g <> fac_key f).
Proof.
  intros Hu0 Hu Hf. destruct (log_facs_lookup e0.1.1 (facs_of e0)) with (m := (∅ : gmap line (list line))) as [L1 L2].
  { intros g g' Hg Hg'. by apply Hu0; apply ordered_elem. }
  assert (Hd : fac_key f ∈ differences e0 e <-> default [] (log_facs e0.1.1 ∅ (facs_of e0) !! fac_key f) <> new_object_lines black e.1.1 f).
  { unfold differences, changed. rewrite elem_of_list_to_set, list_elem_of_fmap. split.
    - intros (f' & Hk & [Hne Hin]%list_elem_of_filter). rewrite (Hu f f'); [done|done| |done]. by apply ordered_elem.
    - intros Hne. exists f. split; [done|]. apply list_elem_of_filter. split; [done|by apply ordered_elem]. }
  rewrite Hd. destruct (decide (List.Exists (fun g => fac_key g = fac_key f) e0.1.2)) as [Hex|Hno].
  - apply Exists_exists in Hex as (g & Hg & Hk). rewrite <- Hk, (L1 g) by (by apply ordered_elem). cbn [default from_option id]. split.
    + intros Hne. apply dec_stable in Hne. left. exists g. by rewrite Hk.
    + intros [(g' & Hg' & Hk' & Heq)|[_ Habs]]; [|by destruct (Habs g Hg)]. rewrite (Hu0 g g') by (done || congruence). by intros [].
  - assert (Hno' : forall g, g ∈ e0.1.2 -> fac_key g <> fac_key f) by (intros g Hg Hk; apply Hno, Exists_exists; by exists g).
    rewrite L2, lookup_empty by (intros g Hg; apply Hno'; by apply ordered_elem). cbn [default from_option]. split.
    + intros Hne. apply dec_stable in Hne. right. split; [|done]. apply (f_equal length) in Hne. rewrite object_lines_length in Hne. by destruct (jobs f).
    + intros [(g & Hg & Hk & _)|[Hj _]]; [by destruct (Hno' g Hg)|]. intros Hne. apply Hne. symmetry. apply nil_length_inv. by rewrite object_lines_length, Hj.
Qed.

End Logs.


Definition a_field (name value : string) : Objects.JObjectMember := Objects.mkMember (chars name) [] (chars value) [].
Definition hits : Fac := mkFac (chars "Hit") [] [[a_field "E" "2.5"; a_field "id" "7"]; [a_field "E" "1.5"; a_field "id" "8"]].
Definition other_hits : Fac := mkFac (chars "Hit") [] [[a_field "E" "2.5"; a_field "id" "9"]; [a_field "E" "1.6"; a_field "id" "8"]].
Definition tracks : Fac := mkFac (chars "Track") (chars "fit") [[a_field "p" "0.3"]].


(** The text of a log is what one expects; a changed value is reported. *)
Example changed_hit_is_reported : exists s1 s2,
  run_events [(1, [hits; tracks], [])] (Init false None []) = (Ok tt, s1) /\ run_events [(1, [other_hits; tracks], [])] (Init true (Some (new_log_file s1)) []) = (Ok tt, s2) /\
  Finish s2 = [(chars "Hit", 1)].
Proof. do 2 eexists. split_and!; [vm_compute; reflexivity|vm_compute; reflexivity|vm_compute; reflexivity]. Qed.

(** The event behind the last one of the old log is compared with nothing, and the one behind that throws. *)
Example short_log_throws : exists s1 s2 e,
  run_events [(1, [hits], [])] (Init false None []) = (Ok tt, s1) /\
  run_events [(1, [hits], []); (2, [hits], []); (3, [hits], [])] (Init false (Some (new_log_file s1)) []) = (Throw e, s2).
Proof. do 3 eexists. split; [vm_compute; reflexivity|vm_compute; reflexivity]. Qed.

(** A log that ends with a line for a factory without objects, and no end of line, is read without end. *)
Example truncated_log_never_ends fuel : forall m, (read_event fuel (chars "throwaway") m (mkStream (chars "1" ++ tab :: chars "Hit" ++ tab :: chars "0") true)).1 = Undef.
Proof.
  set (l := chars "1" ++ tab :: chars "Hit" ++ tab :: chars "0"). assert (P : ParseFactorySummary l = Ok (chars "Hit", 0)) by (vm_compute; reflexivity).
  assert (Hend : forall fuel m, (read_event fuel l m (mkStream [] false)).1 = Undef).
  { induction fuel0 as [|n IH]; intros m; [done|]. cbn [read_event].
    assert (E : getline newline l (mkStream [] false) = (Ok l, mkStream [] false)) by done.
    rewrite (M_bind_ok _ _ _ _ _ E), decide_False, (M_bind_lift _ _ _ _ P) by done. exact (IH _). }
  intros m. destruct fuel as [|n]; [done|]. cbn [read_event].
  assert (E : getline newline (chars "throwaway") (mkStream l true) = (Ok l, mkStream [] false)) by (vm_compute; reflexivity).
  rewrite (M_bind_ok _ _ _ _ _ E), decide_False, (M_bind_lift _ _ _ _ P) by done. exact (Hend _ _).
Qed.

End RegressionTest.
