(* ===== verification/JTopologyBuilder.v ===== *)
(** * JTopologyBuilder: which arrows, queues and pools there are, and how they are connected

    Model of [Topology/JTopologyBuilder.{h,cc}] and of the constructors and [attach] functions of the
    arrows it creates.  Arrows are objects in a heap, known by their position in it, because the builder
    changes an arrow after it has handed its pointer to others and before it appears in the
    list of arrows; a queue or a pool is known by its position in the builder's list.  Of a pool
    only the arguments of its constructor are kept: what it does is the subject of [JPool]. *)

From S2P Require Import Prelude JMetrics JMailbox JArrow JScheduler JSchedulerStop JEvent JParameterManager JProcessorMapping.
Import Parameters Arrow Event.
Local Open Scope Z_scope.

Module TopologyBuilder.

(** ** Components, as far as the builder looks at them *)

Record EventSource := mkSource { s_ptr : Z; s_level : JEventLevel }.
Record EventProcessor := mkProcessor { p_ptr : Z; p_level : JEventLevel }.
Record EventUnfolder := mkUnfolder { u_ptr : Z; u_level : JEventLevel; u_child_level : JEventLevel }.

Record Components := mkComponents {
  evt_srces : list EventSource;
  evt_procs : list EventProcessor;
  unfolders : list EventUnfolder
}.

(** ** Arrows *)

Inductive ArrowKind :=
| SourceArrow (sources : list Z)
| MapArrow (sources unfolders : list Z)
| ProcessorArrow (processors : list Z)
| UnfoldArrow (unfolder : Z)
| FoldArrow (parent_level child_level : JEventLevel).

Record ArrowObj := mkArrow {
  m_name : string;
  m_kind : ArrowKind;
  m_is_parallel : bool;
  m_is_source : bool;
  m_is_sink : bool;
  m_chunksize : Z;
  m_listeners : list nat;
  m_places : list PlaceRef
}.

(** [JArrow(name, is_parallel, is_source, is_sink)], with the places of the derived class. *)
Definition make_arrow (name : string) (kind : ArrowKind) (is_parallel is_source is_sink : bool)
    (places : list PlaceRef) : ArrowObj :=
  mkArrow name kind is_parallel is_source is_sink 16 [] places.

Definition queue_place (q : nat) (input : bool) : PlaceRef := mkPlaceRef (Some q) true input 1 1.
Definition pool_place (p : nat) (input : bool) : PlaceRef := mkPlaceRef (Some p) false input 1 1.

(** [JPipelineArrow]: a null queue stands for the pool. *)
Definition pipeline_place (q pool : option nat) (input : bool) : outcome PlaceRef :=
  match q, pool with
  | Some q, _ => Ok (queue_place q input)
  | None, Some p => Ok (pool_place p input)
  | None, None => Undef
  end.

Definition pipeline_places (input_queue output_queue pool : option nat) : outcome (list PlaceRef) :=
  i ← pipeline_place input_queue pool true;
  o ← pipeline_place output_queue pool false;
  Ok [i; o].

Definition make_source_arrow (name : string) (sources : list Z) (output_queue pool : nat) : outcome ArrowObj :=
  ps ← pipeline_places None (Some output_queue) (Some pool);
  Ok (make_arrow name (SourceArrow sources) false true false ps).

Definition make_map_arrow (name : string) (input_queue output_queue : nat) : outcome ArrowObj :=
  ps ← pipeline_places (Some input_queue) (Some output_queue) None;
  Ok (make_arrow name (MapArrow [] []) true false false ps).

Definition make_processor_arrow (name : string) (input_queue output_queue pool : option nat) : outcome ArrowObj :=
  ps ← pipeline_places input_queue output_queue pool;
  Ok (make_arrow name (ProcessorArrow []) true false true ps).

(** [m_parent_in], [m_child_in], [m_child_out]. *)
Definition make_unfold_arrow (name : string) (unfolder : Z) (parent_in child_in child_out : nat) : ArrowObj :=
  make_arrow name (UnfoldArrow unfolder) false false false
    [queue_place parent_in true; pool_place child_in true; queue_place child_out false].

(** [m_child_in], [m_child_out], [m_parent_out]. *)
Definition make_fold_arrow (name : string) (parent_level child_level : JEventLevel)
    (child_in child_out parent_out : nat) : ArrowObj :=
  make_arrow name (FoldArrow parent_level child_level) false false false
    [queue_place child_in true; pool_place child_out false; pool_place parent_out false].

Definition set_chunksize (n : Z) (a : ArrowObj) : ArrowObj :=
  mkArrow (m_name a) (m_kind a) (m_is_parallel a) (m_is_source a) (m_is_sink a) n (m_listeners a) (m_places a).
Definition set_is_sink (b : bool) (a : ArrowObj) : ArrowObj :=
  mkArrow (m_name a) (m_kind a) (m_is_parallel a) (m_is_source a) b (m_chunksize a) (m_listeners a) (m_places a).
Definition attach (downstream : nat) (a : ArrowObj) : ArrowObj :=
  mkArrow (m_name a) (m_kind a) (m_is_parallel a) (m_is_source a) (m_is_sink a) (m_chunksize a)
    (m_listeners a ++ [downstream]) (m_places a).
(** [add_processor] for each of [procs]. *)
Definition add_processors (procs : list Z) (a : ArrowObj) : ArrowObj :=
  mkArrow (m_name a)
    (match m_kind a with ProcessorArrow ps => ProcessorArrow (ps ++ procs) | k => k end)
    (m_is_parallel a) (m_is_source a) (m_is_sink a) (m_chunksize a) (m_listeners a) (m_places a).
Definition set_place (i : nat) (r : nat) (is_queue : bool) (a : ArrowObj) : ArrowObj :=
  mkArrow (m_name a) (m_kind a) (m_is_parallel a) (m_is_source a) (m_is_sink a) (m_chunksize a) (m_listeners a)
    (alter (fun p => mkPlaceRef (Some r) is_queue (is_input p) (min_item_count p) (max_item_count p)) i (m_places a)).

(** The [attach_] functions of [JUnfoldArrow] and [JFoldArrow]; which member they set is its position. *)
Definition unfold_attach_child_in (pool : nat) : ArrowObj -> ArrowObj := set_place 1 pool false.
Definition unfold_attach_child_out (q : nat) : ArrowObj -> ArrowObj := set_place 2 q true.
Definition fold_attach_child_in (q : nat) : ArrowObj -> ArrowObj := set_place 0 q true.
Definition fold_attach_child_out (pool : nat) : ArrowObj -> ArrowObj := set_place 1 pool false.
Definition fold_attach_parent_out (q : nat) : ArrowObj -> ArrowObj := set_place 2 q true.

(** ** The builder *)

Record PoolArgs := mkPoolArgs {
  pool_size : Z;
  location_count : Z;
  limit_total_events_in_flight : bool;
  level : JEventLevel
}.

Record Config := mkConfig {
  m_event_pool_size : Z;
  m_event_queue_threshold : Z;
  m_event_source_chunksize : Z;
  m_event_processor_chunksize : Z;
  m_location_count : Z;
  m_enable_stealing : bool;
  m_limit_total_events_in_flight : bool;
  m_affinity : Z;
  m_locality : Z
}.

Definition default_config : Config := mkConfig 4 80 40 1 1 false true 0 0.

Record JTopologyBuilder := mkBuilder {
  heap : list ArrowObj;
  arrows : list nat;
  queues : list (Mailbox.JMailbox Z);
  queue_ids : list Z;
  pools : list PoolArgs;
  event_pool : option PoolArgs;
  mapping : Mapping.JProcessorMapping
}.

Definition empty_builder : JTopologyBuilder := mkBuilder [] [] [] [] [] None Mapping.make.

Definition set_heap (h : list ArrowObj) (b : JTopologyBuilder) : JTopologyBuilder :=
  mkBuilder h (arrows b) (queues b) (queue_ids b) (pools b) (event_pool b) (mapping b).

Abbreviation MB := (M JTopologyBuilder).

Definition alter_arrow (p : nat) (f : ArrowObj -> ArrowObj) : MB unit :=
  modify (fun b => set_heap (alter f p (heap b)) b).

Definition new_arrow (a : ArrowObj) : MB nat :=
  b ← get;
  _ ← modify (fun b => set_heap (heap b ++ [a]) b);
  mret (length (heap b)).

(** [arrows.push_back(p)]. *)
Definition push_arrow (p : nat) : MB unit :=
  modify (fun b => mkBuilder (heap b) (arrows b ++ [p]) (queues b) (queue_ids b) (pools b) (event_pool b) (mapping b)).

Section Building.
Context (components : Components) (config : Config).

(** [new EventQueue(...)] and [queues.push_back]; a queue has no number yet. *)
Definition new_queue : MB nat :=
  b ← get;
  _ ← modify (fun b => mkBuilder (heap b) (arrows b)
        (queues b ++ [Mailbox.make (m_event_queue_threshold config) (Mapping.get_loc_count (mapping b)) (m_enable_stealing config)])
        (queue_ids b ++ [0]) (pools b) (event_pool b) (mapping b));
  mret (length (queues b)).

Definition pool_args (level : JEventLevel) : PoolArgs :=
  mkPoolArgs (m_event_pool_size config) (m_location_count config) (m_limit_total_events_in_flight config) level.

Definition new_pool (level : JEventLevel) : MB nat :=
  b ← get;
  _ ← modify (fun b => mkBuilder (heap b) (arrows b) (queues b) (queue_ids b) (pools b ++ [pool_args level]) (event_pool b) (mapping b));
  mret (length (pools b)).

Definition sources_at (l : JEventLevel) : list EventSource := filter (fun s => s_level s = l) (evt_srces components).
Definition procs_at (l : JEventLevel) : list EventProcessor := filter (fun p => p_level p = l) (evt_procs components).
Definition unfolders_at (l : JEventLevel) : list EventUnfolder := filter (fun u => u_level u = l) (unfolders components).

Definition attach_lower_level (current_level : JEventLevel) (parent_unfolder parent_folder : nat) (found_sink : bool) : MB unit :=
  pool ← new_pool current_level;
  if bool_decide (sources_at current_level <> []) then throwM "Support for lower-level event sources coming soon!" else
  if bool_decide (unfolders_at current_level <> []) then throwM "Support for lower-level event unfolders coming soon!" else
  if bool_decide (procs_at current_level = []) then throwM "For now we require you to provide at least one JEventProcessor" else
  q1 ← new_queue;
  q2 ← new_queue;
  a ← lift (make_processor_arrow (toString current_level +:+ "Tap") (Some q1) (Some q2) None);
  proc_arrow ← new_arrow a;
  _ ← push_arrow proc_arrow;
  _ ← alter_arrow proc_arrow (set_chunksize (m_event_processor_chunksize config));
  _ ← (if found_sink then alter_arrow proc_arrow (set_is_sink false) else mret tt);
  _ ← alter_arrow proc_arrow (add_processors (p_ptr <$> procs_at current_level));
  _ ← alter_arrow parent_unfolder (unfold_attach_child_in pool);
  _ ← alter_arrow parent_unfolder (unfold_attach_child_out q1);
  _ ← alter_arrow parent_folder (fold_attach_child_in q2);
  _ ← alter_arrow parent_folder (fold_attach_child_out pool);
  _ ← alter_arrow parent_unfolder (attach proc_arrow);
  alter_arrow proc_arrow (attach parent_folder).

(** The branch of [attach_top_level] without unfolders. *)
Definition attach_single_level (current_level : JEventLevel) (pool_at_level : nat) : MB unit :=
  queue ← new_queue;
  a ← lift (make_source_arrow (toString current_level +:+ "Source") (s_ptr <$> sources_at current_level) queue pool_at_level);
  src_arrow ← new_arrow a;
  _ ← push_arrow src_arrow;
  _ ← alter_arrow src_arrow (set_chunksize (m_event_source_chunksize config));
  a ← lift (make_processor_arrow (toString current_level +:+ "Tap") (Some queue) None (Some pool_at_level));
  proc_arrow ← new_arrow a;
  _ ← push_arrow proc_arrow;
  _ ← alter_arrow proc_arrow (set_chunksize (m_event_processor_chunksize config));
  _ ← alter_arrow proc_arrow (add_processors (p_ptr <$> procs_at current_level));
  alter_arrow src_arrow (attach proc_arrow).

(** The branch with one unfolder. *)
Definition attach_two_levels (current_level : JEventLevel) (pool_at_level : nat) (unfolder : EventUnfolder) : MB unit :=
  q1 ← new_queue;
  q2 ← new_queue;
  a ← lift (make_source_arrow (toString current_level +:+ "Source") (s_ptr <$> sources_at current_level) q1 pool_at_level);
  src_arrow ← new_arrow a;
  _ ← push_arrow src_arrow;
  _ ← alter_arrow src_arrow (set_chunksize (m_event_source_chunksize config));
  a ← lift (make_map_arrow (toString current_level +:+ "Map") q1 q2);
  map_arrow ← new_arrow a;
  _ ← push_arrow map_arrow;
  _ ← alter_arrow map_arrow (set_chunksize (m_event_source_chunksize config));
  _ ← alter_arrow src_arrow (attach map_arrow);
  unfold_arrow ← new_arrow (make_unfold_arrow (toString current_level +:+ "Unfold") (u_ptr unfolder) q2 pool_at_level q2);
  _ ← push_arrow unfold_arrow;
  _ ← alter_arrow unfold_arrow (set_chunksize (m_event_source_chunksize config));
  _ ← alter_arrow map_arrow (attach unfold_arrow);
  fold_arrow ← new_arrow (make_fold_arrow (toString current_level +:+ "Fold") current_level (u_child_level unfolder) q2 pool_at_level pool_at_level);
  _ ← alter_arrow fold_arrow (set_chunksize (m_event_source_chunksize config));
  let found_sink := bool_decide (procs_at current_level <> []) in
  _ ← attach_lower_level (u_child_level unfolder) unfold_arrow fold_arrow found_sink;
  _ ← push_arrow fold_arrow;
  if bool_decide (procs_at current_level <> []) then
    q3 ← new_queue;
    a ← lift (make_processor_arrow (toString current_level +:+ "Tap") (Some q3) None (Some pool_at_level));
    proc_arrow ← new_arrow a;
    _ ← push_arrow proc_arrow;
    _ ← alter_arrow proc_arrow (set_chunksize (m_event_processor_chunksize config));
    _ ← alter_arrow proc_arrow (add_processors (p_ptr <$> procs_at current_level));
    _ ← alter_arrow fold_arrow (fold_attach_parent_out q3);
    alter_arrow fold_arrow (attach proc_arrow)
  else mret tt.

(** [attach_top_level]; there are eight levels before [None]. *)
Fixpoint attach_top_level (fuel : nat) (current_level : JEventLevel) : MB unit :=
  match fuel with
  | O => lift Undef
  | S fuel' =>
      if bool_decide (sources_at current_level = []) then
        let next := next_level current_level in
        if bool_decide (next = NoLevel) then mret tt else attach_top_level fuel' next
      else
        pool_at_level ← new_pool current_level;
        match unfolders_at current_level with
        | [] => attach_single_level current_level pool_at_level
        | [unfolder] => attach_two_levels current_level pool_at_level unfolder
        | _ => throwM "At most one unfolder must be provided for each level in the event hierarchy!"
        end
  end.

(** The casts of [m_affinity] and [m_locality]. *)
Definition affinity_of (n : Z) : Mapping.AffinityStrategy :=
  if n =? 0 then Mapping.NoAffinity else if n =? 1 then Mapping.MemoryBound
  else if n =? 2 then Mapping.ComputeBound else Mapping.OtherAffinity n.
Definition locality_of (n : Z) : Mapping.LocalityStrategy :=
  if n =? 0 then Mapping.Global else if n =? 1 then Mapping.SocketLocal
  else if n =? 2 then Mapping.NumaDomainLocal else if n =? 3 then Mapping.CoreLocal
  else if n =? 4 then Mapping.CpuLocal else Mapping.OtherLocality n.

(** [create_topology]: [configure] is the user's function, if there is one, [lscpu] what the operating system answers. *)
Definition create_topology (lscpu : Mapping.Lscpu) (configure : option (MB unit)) : MB unit :=
  _ ← modify (fun b => mkBuilder (heap b) (arrows b) (queues b) (queue_ids b) (pools b)
        (Some (pool_args PhysicsEvent))
        (Mapping.initialize (affinity_of (m_affinity config)) (locality_of (m_locality config)) lscpu (mapping b)));
  _ ← match configure with Some f => f | None => attach_top_level 8 Run end;
  modify (fun b => mkBuilder (heap b) (arrows b) (queues b) (Z.of_nat <$> seq 0 (length (queues b)))
            (pools b) (event_pool b) (mapping b)).

(** The rows of [print_topology]: name and parallelism in the first row of an arrow only. *)
Record TopologyRow := mkTopologyRow {
  row_arrow : option (string * bool);
  row_is_input : bool;
  row_is_queue : bool;
  row_id : Z
}.

(** [lookup[place->place_ref]]. *)
Definition place_id (b : JTopologyBuilder) (p : PlaceRef) : Z :=
  match place_ref p with
  | None => 0
  | Some i => if is_queue p then Z.of_nat i else Z.of_nat (length (queues b) + i)
  end.

Definition print_arrow (b : JTopologyBuilder) (a : ArrowObj) : list TopologyRow :=
  imap (fun i p => mkTopologyRow (if (i =? 0)%nat then Some (m_name a, m_is_parallel a) else None)
                     (is_input p) (is_queue p) (place_id b p)) (m_places a).

Definition print_topology (b : JTopologyBuilder) : list TopologyRow :=
  omap (fun p => heap b !! p) (arrows b) ≫= print_arrow b.

End Building.

(** ** Configuration *)

Section Services.
Context (int_codec size_codec : Parameters.Codec Z).

(** [SetDefaultParameter(name, val, ...)->SetIsAdvanced(true)]. *)
Definition advanced {T} `{Parameters.Codec T} (name : string) (val : T) (description : string)
    : M Parameters.JParameterManager T :=
  v ← Parameters.SetDefaultParameter name val description;
  _ ← Parameters.update (Parameters.ToLower name) (Parameters.SetIsAdvanced true);
  mret v.

(** The size of the event pool before it is a parameter: the number of threads, if that is given. *)
Definition initial_pool_size (num_cpus : Z) : M Parameters.JParameterManager Z :=
  m ← get;
  if Parameters.Exists "nthreads" m then
    n ← Parameters.GetParameterValue (T := string) "nthreads";
    if bool_decide (n = "Ncores"%string) then mret num_cpus
    else
      k ← @Parameters.GetParameterValue Z int_codec "nthreads";
      mret (u64 k)
  else mret (m_event_pool_size default_config).

Definition acquire_services (num_cpus : Z) : M Parameters.JParameterManager Config :=
  n ← initial_pool_size num_cpus;
  pool_size ← @advanced Z size_codec "jana:event_pool_size" n "Sets the initial size of the event pool";
  limit ← advanced "jana:limit_total_events_in_flight" (m_limit_total_events_in_flight default_config)
            "Controls whether the event pool is allowed to grow";
  threshold ← @advanced Z size_codec "jana:event_queue_threshold" (m_event_queue_threshold default_config)
                "Max number of events allowed on the main event queue";
  source_chunk ← @advanced Z size_codec "jana:event_source_chunksize" (m_event_source_chunksize default_config)
                   "Max number of events that a JEventSource may enqueue at once";
  proc_chunk ← @advanced Z size_codec "jana:event_processor_chunksize" (m_event_processor_chunksize default_config)
                 "Max number of events that the JEventProcessors may dequeue at once";
  stealing ← advanced "jana:enable_stealing" (m_enable_stealing default_config) "Enable work stealing";
  affinity ← @advanced Z int_codec "jana:affinity" (m_affinity default_config) "Constrain worker thread CPU affinity";
  locality ← @advanced Z int_codec "jana:locality" (m_locality default_config) "Constrain memory locality";
  mret (mkConfig pool_size threshold source_chunk proc_chunk (m_location_count default_config) stealing limit affinity locality).

End Services.

(** ** The topologies that are built *)

(** The arrows as the scheduler sees them, in the order of the list. *)
Definition scheduler_arrow (p : nat) (a : ArrowObj) : Scheduler.JArrow :=
  Scheduler.mkJArrow (Z.of_nat p) (m_is_parallel a) (m_is_source a) (Z.of_nat <$> m_listeners a).

Definition scheduler_arrows (b : JTopologyBuilder) : list Scheduler.JArrow :=
  omap (fun p => scheduler_arrow p <$> heap b !! p) (arrows b).

(** The arrows that have a place of the given kind for a queue or pool; once per place. *)
Definition users (b : JTopologyBuilder) (queue input : bool) (i : nat) : list nat :=
  arrows b ≫= fun p =>
    match heap b !! p with
    | None => []
    | Some a =>
        const p <$> filter (fun r => place_ref r = Some i /\ is_queue r = queue /\ is_input r = input) (m_places a)
    end.

(** Every queue has one arrow that fills it and one that empties it, which listens to the former;
    every pool gives events to one arrow and gets them back from one; and one arrow counts the events. *)
Record well_wired (b : JTopologyBuilder) : Prop := {
  ww_arrows : NoDup (arrows b) /\ forall p, p ∈ arrows b -> is_Some (heap b !! p);
  ww_queues : forall q, (q < length (queues b))%nat -> exists w r a,
    users b true false q = [w] /\ users b true true q = [r] /\ heap b !! w = Some a /\ m_listeners a = [r];
  ww_pools : forall p, (p < length (pools b))%nat -> exists w r,
    users b false true p = [r] /\ users b false false p = [w];
  ww_places : forall p a r, p ∈ arrows b -> heap b !! p = Some a -> r ∈ m_places a -> exists i,
    place_ref r = Some i /\ (i < if is_queue r then length (queues b) else length (pools b))%nat;
  ww_sink : length (filter (fun p => m_is_sink <$> heap b !! p = Some true) (arrows b)) = 1%nat
}.

(** The first level, from the top, that has event sources. *)
Fixpoint top_level (components : Components) (fuel : nat) (l : JEventLevel) : option JEventLevel :=
  match fuel with
  | O => None
  | S fuel' =>
      if bool_decide (sources_at components l = []) then
        if bool_decide (next_level l = NoLevel) then None else top_level components fuel' (next_level l)
      else Some l
  end.


Section Built.
Context (components : Components) (config : Config) (mp : Mapping.JProcessorMapping) (pool0 : option PoolArgs).

Definition fresh_queue : Mailbox.JMailbox Z :=
  Mailbox.make (m_event_queue_threshold config) (Mapping.get_loc_count mp) (m_enable_stealing config).

Definition start_builder : JTopologyBuilder := mkBuilder [] [] [] [] [] pool0 mp.

(** Source and tap. *)
Definition single_level (l : JEventLevel) : JTopologyBuilder :=
  mkBuilder
    [mkArrow (toString l +:+ "Source") (SourceArrow (s_ptr <$> sources_at components l)) false true false
       (m_event_source_chunksize config) [1%nat] [pool_place 0 true; queue_place 0 false];
     mkArrow (toString l +:+ "Tap") (ProcessorArrow (p_ptr <$> procs_at components l)) true false true
       (m_event_processor_chunksize config) [] [queue_place 0 true; pool_place 0 false]]
    [0; 1]%nat [fresh_queue] [0] [pool_args config l] pool0 mp.

(** Source, map, unfold, tap of the children, fold and, if somebody processes the parents, their tap. *)
Definition two_levels (l : JEventLevel) (u : EventUnfolder) : JTopologyBuilder :=
  let c := u_child_level u in
  let upper := bool_decide (procs_at components l <> []) in
  let chunk := m_event_source_chunksize config in
  mkBuilder
    ([mkArrow (toString l +:+ "Source") (SourceArrow (s_ptr <$> sources_at components l)) false true false
        chunk [1%nat] [pool_place 0 true; queue_place 0 false];
      mkArrow (toString l +:+ "Map") (MapArrow [] []) true false false chunk [2%nat] [queue_place 0 true; queue_place 1 false];
      mkArrow (toString l +:+ "Unfold") (UnfoldArrow (u_ptr u)) false false false chunk [4%nat]
        [queue_place 1 true; pool_place 1 true; queue_place 2 false];
      mkArrow (toString l +:+ "Fold") (FoldArrow l c) false false false chunk (if upper then [5%nat] else [])
        [queue_place 3 true; pool_place 1 false; if upper then queue_place 4 false else pool_place 0 false];
      mkArrow (toString c +:+ "Tap") (ProcessorArrow (p_ptr <$> procs_at components c)) true false (negb upper)
        (m_event_processor_chunksize config) [3%nat] [queue_place 2 true; queue_place 3 false]] ++
     if upper then
       [mkArrow (toString l +:+ "Tap") (ProcessorArrow (p_ptr <$> procs_at components l)) true false true
          (m_event_processor_chunksize config) [] [queue_place 4 true; pool_place 0 false]]
     else [])
    ([0; 1; 2; 4; 3]%nat ++ if upper then [5%nat] else [])
    (replicate (if upper then 5 else 4) fresh_queue) (replicate (if upper then 5 else 4) 0)
    [pool_args config l; pool_args config c] pool0 mp.

Lemma single_level_built l :
  (p ← new_pool config l; attach_single_level components config l p) start_builder = (Ok tt, single_level l).
Proof. reflexivity. Qed.

(** What the builder accepts at the level below the unfolder. *)
Definition lower_level_ok (c : JEventLevel) : Prop :=
  sources_at components c = [] /\ unfolders_at components c = [] /\ procs_at components c <> [].

#[local] Instance lower_level_ok_dec c : Decision (lower_level_ok c).
Proof. unfold lower_level_ok. apply _. Defined.

Lemma two_levels_built l u :
  lower_level_ok (u_child_level u) ->
  (p ← new_pool config l; attach_two_levels components config l p u) start_builder = (Ok tt, two_levels l u).
Proof.
  intros (Hs & Hu & Hp). unfold attach_two_levels, attach_lower_level, two_levels.
  rewrite (bool_decide_false (sources_at components (u_child_level u) <> [])) by (by intros ?).
  rewrite (bool_decide_false (unfolders_at components (u_child_level u) <> [])) by (by intros ?).
  rewrite (bool_decide_false (procs_at components (u_child_level u) = [])) by done.
  by case_bool_decide.
Qed.

Lemma two_levels_rejected l u :
  ~ lower_level_ok (u_child_level u) ->
  match ((p ← new_pool config l; attach_two_levels components config l p u) start_builder).1 with
  | Throw _ => True
  | _ => False
  end.
Proof.
  intros Hbad. unfold attach_two_levels, attach_lower_level. set (c := u_child_level u) in *.
  destruct (decide (sources_at components c = [])) as [Hs|Hs].
  2:{ rewrite (bool_decide_true (sources_at components c <> [])) by done. exact I. }
  rewrite (bool_decide_false (sources_at components c <> [])) by (by intros ?).
  destruct (decide (unfolders_at components c = [])) as [Hu|Hu].
  2:{ rewrite (bool_decide_true (unfolders_at components c <> [])) by done. exact I. }
  rewrite (bool_decide_false (unfolders_at components c <> [])) by (by intros ?).
  destruct (decide (procs_at components c = [])) as [Hp|Hp]; [|by destruct Hbad].
  rewrite (bool_decide_true (procs_at components c = [])) by done. exact I.
Qed.

(** The level is accepted: alone, or with one unfolder into an acceptable lower level. *)
Definition accepted (l : JEventLevel) : Prop :=
  match unfolders_at components l with
  | [] => True
  | [u] => lower_level_ok (u_child_level u)
  | _ => False
  end.

Definition attach_at (l : JEventLevel) : MB unit :=
  p ← new_pool config l;
  match unfolders_at components l with
  | [] => attach_single_level components config l p
  | [u] => attach_two_levels components config l p u
  | _ => throwM "At most one unfolder must be provided for each level in the event hierarchy!"
  end.

Lemma attach_top_level_at b :
  attach_top_level components config 8 Run b
    = match top_level components 8 Run with Some l => attach_at l b | None => (Ok tt, b) end.
Proof.
  cbn [attach_top_level top_level next_level].
  repeat (rewrite (bool_decide_false (_ = NoLevel)) by done; case_bool_decide; [|done]).
  case_bool_decide; [|done]. by rewrite bool_decide_true.
Qed.

(** Case analysis over the positions of a short list. *)
Ltac positions i := first [lia | destruct i as [|i]; [|positions i]].

Lemma single_level_wired l : well_wired (single_level l).
Proof.
  split.
  - split; [by refine (bool_decide_unpack _ _)|]. intros p Hp. set_unfold in Hp. destruct Hp as [->|[->|[]]]; by eexists.
  - intros q Hq. cbn in Hq. positions q. do 3 eexists. repeat split; reflexivity.
  - intros p Hp. cbn in Hp. positions p. do 2 eexists. repeat split; reflexivity.
  - intros p a r Hp Ha Hr. set_unfold in Hp. destruct Hp as [->|[->|[]]]; cbn in Ha; simplify_eq; set_unfold in Hr;
      destruct_or! Hr; subst; try done; eexists; (split; [reflexivity|cbn; lia]).
  - reflexivity.
Qed.

Lemma two_levels_wired l u : well_wired (two_levels l u).
Proof.
  unfold two_levels. generalize (bool_decide (procs_at components l <> [])) as upper. intros upper. split.
  - split; [by destruct upper; refine (bool_decide_unpack _ _)|].
    intros p Hp. destruct upper; set_unfold in Hp; destruct_or! Hp; subst; try done; by eexists.
  - intros q Hq. destruct upper; cbn in Hq; positions q; do 3 eexists; repeat split; reflexivity.
  - intros p Hp. destruct upper; cbn in Hp; positions p; do 2 eexists; repeat split; reflexivity.
  - intros p a r Hp Ha Hr. destruct upper; set_unfold in Hp; destruct_or! Hp; subst; try done; cbn in Ha; simplify_eq;
      set_unfold in Hr; destruct_or! Hr; subst; try done; eexists; (split; [reflexivity|cbn; lia]).
  - by destruct upper.
Qed.
(** The scheduler's view of these topologies: one chain from the source. *)
Lemma single_level_chain l m :
  Stop.forest (Scheduler.make (scheduler_arrows (single_level l)) m) [seq 0 2].
Proof. split; [vm_compute; reflexivity|]. by refine (bool_decide_unpack _ _). Qed.

Lemma two_levels_chain l u m :
  Stop.forest (Scheduler.make (scheduler_arrows (two_levels l u)) m) [seq 0 (length (arrows (two_levels l u)))].
Proof.
  unfold two_levels. generalize (bool_decide (procs_at components l <> [])) as upper. intros upper.
  split; [destruct upper; vm_compute; reflexivity|]. by destruct upper; refine (bool_decide_unpack _ _).
Qed.

(** No arrow of a topology has been told of anything to preprocess. *)
Lemma nothing_is_preprocessed b a ss us :
  attach_top_level components config 8 Run start_builder = (Ok tt, b) ->
  a ∈ heap b -> m_kind a = MapArrow ss us -> ss = [] /\ us = [].
Proof.
  rewrite attach_top_level_at. destruct (top_level components 8 Run) as [l|]; [|intros [= <-]; set_solver].
  unfold attach_at. destruct (unfolders_at components l) as [|u [|u' us']].
  - rewrite single_level_built. intros [= <-] Ha. set_unfold in Ha. by destruct_or! Ha; subst.
  - destruct (decide (lower_level_ok (u_child_level u))) as [Hok|Hbad].
    + rewrite two_levels_built by done. intros [= <-] Ha Hk. unfold two_levels in Ha.
      destruct (bool_decide _); set_unfold in Ha; destruct_or! Ha; subst; try done; by injection Hk.
    + pose proof (two_levels_rejected l u Hbad) as Hr. intros Hb. by rewrite Hb in Hr.
  - done.
Qed.

(** C20: every topology that the builder makes is wired correctly.  For any set of components, [attach_top_level]
    looks for the first level that has event sources, and makes nothing if there is none.  It
    throws exactly if this level has several unfolders, or one whose child level has
    sources or unfolders of its own or no processors.  In every other case each queue has
    exactly one arrow that fills it and exactly one that empties it, the latter being the listener of
    the former, each pool gives its events to one arrow and gets them back from one arrow,
    all places refer to queues and pools that exist, and exactly one arrow is a sink, so that
    no event is counted twice. *)
Theorem built_topology_is_wired :
  match attach_top_level components config 8 Run start_builder with
  | (Ok _, b) =>
      match top_level components 8 Run with
      | Some l => accepted l /\ well_wired b /\ arrows b <> []
      | None => b = start_builder
      end
  | (Throw _, _) => exists l, top_level components 8 Run = Some l /\ ~ accepted l
  | (Undef, _) => False
  end.
Proof.
  rewrite attach_top_level_at. destruct (top_level components 8 Run) as [l|]; [|done].
  unfold attach_at, accepted. destruct (unfolders_at components l) as [|u [|u' us]] eqn:Hu.
  - rewrite single_level_built. split; [done|]. split; [apply single_level_wired|done].
  - destruct (decide (lower_level_ok (u_child_level u))) as [Hok|Hbad].
    + rewrite two_levels_built by done. split; [done|]. split; [apply two_levels_wired|done].
    + pose proof (two_levels_rejected l u Hbad) as Hr. destruct ((new_pool config l ≫= _) start_builder) as [[]]; try done.
      exists l. by rewrite Hu.
  - exists l. rewrite Hu. split; [done|]. by intros [].
Qed.

(** C13: the scheduler counts exactly on every topology that the builder makes.  Hand the arrows
    of such a topology to a new scheduler: [run_topology] returns, every arrow becomes active, the count of
    active arrows is the number of arrows, and each arrow's count of active
    upstream arrows is the number of arrows that it listens to. *)
Theorem built_topology_runs b now nthreads m :
  attach_top_level components config 8 Run start_builder = (Ok tt, b) -> arrows b <> [] ->
  exists s, Scheduler.run_topology now nthreads (Scheduler.make (scheduler_arrows b) m) = (Ok tt, s) /\
    Stop.counts_ok s /\ Scheduler.current_topology_status s = Scheduler.TRunning /\
    Scheduler.active_or_draining_arrow_count s = sizeZ (arrows b) /\
    length (Scheduler.arrow_states s) = length (arrows b) /\
    forall a, a ∈ Scheduler.arrow_states s -> Stop.live a = true.
Proof.
  intros Hb Hne.
  assert (Hchain : Stop.forest (Scheduler.make (scheduler_arrows b) m) [seq 0 (length (arrows b))]
    /\ length (scheduler_arrows b) = length (arrows b)).
  { rewrite attach_top_level_at in Hb. destruct (top_level components 8 Run) as [l|]; [|by simplify_eq].
    unfold attach_at in Hb. destruct (unfolders_at components l) as [|u [|u' us]].
    - rewrite single_level_built in Hb. simplify_eq. split; [apply single_level_chain|done].
    - destruct (decide (lower_level_ok (u_child_level u))) as [Hok|Hbad].
      + rewrite two_levels_built in Hb by done. simplify_eq. split; [apply two_levels_chain|].
        unfold two_levels. by destruct (bool_decide _).
      + pose proof (two_levels_rejected l u Hbad) as Hr. by rewrite Hb in Hr.
    - done. }
  destruct Hchain as [Hf Hlen].
  destruct (Stop.run_topology_exact now nthreads _ _ (Stop.make_idle _ m) Hf) as (s & Hrun & Hst & Hc & Hg & Hn & Hl); [done..|].
  exists s. rewrite Hrun. cbn [concat] in Hn, Hl. rewrite app_nil_r in Hn, Hl.
  assert (Hls : length (Scheduler.arrow_states s) = length (arrows b)).
  { apply (f_equal length) in Hg. unfold Stop.graph in Hg. rewrite !length_fmap in Hg. rewrite Hg. cbn. by rewrite length_fmap. }
  repeat (split; [done|]). split; [rewrite Hn; unfold sizeZ; by rewrite length_seq|]. split; [done|].
  intros a Ha. apply list_elem_of_lookup in Ha as [k Hk]. apply (Hl k a Hk), elem_of_seq.
  apply lookup_lt_Some in Hk. lia.
Qed.

End Built.

(** Timeslices that are unfolded into events; both are processed. *)
Definition timeslices : Components :=
  mkComponents [mkSource 11 Timeslice] [mkProcessor 21 PhysicsEvent; mkProcessor 22 Timeslice]
    [mkUnfolder 31 Timeslice PhysicsEvent].

Lemma built_topology_runs_witness :
  exists b s, attach_top_level timeslices default_config 8 Run empty_builder = (Ok tt, b) /\
    length (arrows b) = 6%nat /\
    Scheduler.run_topology 0 2 (Scheduler.make (scheduler_arrows b) Stop.stopwatch) = (Ok tt, s) /\ Stop.counts_ok s.
Proof.
  eexists. destruct (built_topology_runs timeslices default_config Mapping.make None
    (snd (attach_top_level timeslices default_config 8 Run empty_builder)) 0 2 Stop.stopwatch) as (s & Hrun & Hc & _).
  - vm_compute. reflexivity.
  - vm_compute. discriminate.
  - exists s. split; [vm_compute; reflexivity|]. split; [reflexivity|]. split; [exact Hrun|exact Hc].
Defined.

End TopologyBuilder.
