(* ===== verification/JEventFlow.v ===== *)
(** * JEventFlow: events travel through a topology, each once

    The arrows of [JPipelineArrow] put together to the graph that [JTopologyBuilder] makes for events of one level: a source that takes events from
    a pool, arrows between queues, and a last arrow that gives events back to the pool.  Any number of workers execute
    arrows at the same time.  [JPipelineArrow::execute] is taken apart at its calls of queues and pools, which lock
    a mutex each, so that workers interleave between any two of them. *)

From S2P Require Import Prelude JMailbox JPool JMetrics JArrow Ledger JPipelineArrow JProcessorMapping JEvent JTopologyBuilder.
Import Mailbox Pool Arrow Ledger PipelineArrow.
Local Open Scope Z_scope.

Module EventFlow.

Section Flow.
Context {T P : Type} {IT : Item T} {IL : ItemLaws T}.

(** An arrow: its places, and what its component does with an event. *)
Record PipelineArrow := mkPipelineArrow { input : PlaceRef; output : PlaceRef; process : Z -> M P (bool * ArrowMetrics.Status) }.

(** The component's state, and which arrow has processed which event, in order. *)
Abbreviation Log := (list (nat * Z)).

Definition logged (a : nat) (p : Z -> M P (bool * ArrowMetrics.Status)) (x : Z) : M (P * Log) (bool * ArrowMetrics.Status) := fun s =>
  match p x s.1 with
  | (Ok (b, status), c) => (Ok (b, status), (c, if b then s.2 ++ [(a, x)] else s.2))
  | (r, c) => (r, (c, s.2))
  end.

(** Where a worker is in [execute]. *)
Inductive Stage := PulledInput | PulledBoth | Reverting | RevertingOutput | Processed | PushingOutput | Excepted.

Record Activity := mkActivity { arrow : nat; din : Data; dout : Data; stage : Stage }.

Definition nothing (d : Data) : Data := mkData (items d) 0 0 (location_id d).

(** The first call of [execute]. *)
Definition begin (a : nat) (A : PipelineArrow) (location : nat) (fresh : list Z) : M (World T * (P * Log)) Activity :=
  r ← on_world (pull (input A) (make_data location) fresh);
  mret (mkActivity a r.2 (make_data location) (if (r.1 : bool) then PulledInput else Reverting)).

(** The call of the component; an exception ends the worker, with what it holds. *)
Definition run_component (A : PipelineArrow) (a : nat) (d1 d2 : Data) (event : Z) : M (World T * (P * Log)) (option Activity) := fun s =>
  match on_component (logged a (process A) event) s with
  | (Ok ps, s') => (Ok (Some (mkActivity a (processed ps.1 event d1 d2).1 (processed ps.1 event d1 d2).2 Processed)), s')
  | (Throw _, s') => (Ok (Some (mkActivity a d1 d2 Excepted)), s')
  | (Undef, s') => (Undef, s')
  end.

(** The next call; [None] when [execute] returns. *)
Definition advance (A : PipelineArrow) (act : Activity) (fresh : list Z) : M (World T * (P * Log)) (option Activity) :=
  let '(mkActivity a d1 d2 st) := act in
  match st with
  | PulledInput =>
      r ← on_world (pull (output A) (make_data (location_id d1)) fresh);
      mret (Some (mkActivity a d1 r.2 (if (r.1 : bool) then PulledBoth else Reverting)))
  | PulledBoth =>
      _ ← lift (assertb (item_count d1 =? 1));
      event ← item0 d1;
      run_component A a d1 d2 event
  | Reverting => _ ← on_world (revert (input A) d1); mret (Some (mkActivity a (nothing d1) d2 RevertingOutput))
  | RevertingOutput => _ ← on_world (revert (output A) d2); mret None
  | Processed => _ ← on_world (push (input A) d1); mret (Some (mkActivity a (nothing d1) d2 PushingOutput))
  | PushingOutput => _ ← on_world (push (output A) d2); mret None
  | Excepted => mret (Some act)
  end.

(** The world, the components and the workers that are executing an arrow. *)
Record System := mkSystem { shared : World T * (P * Log); busy : list Activity }.

Context (arrows : list PipelineArrow) (locations : nat).

Inductive flow_step : System -> System -> Prop :=
  | fs_begin s l a A location fresh act s' : arrows !! a = Some A -> (location < locations)%nat -> can_allocate s.1 (input A) fresh ->
      begin a A location fresh s = (Ok act, s') -> flow_step (mkSystem s l) (mkSystem s' (act :: l))
  | fs_advance s l1 act l2 A fresh r s' : arrows !! arrow act = Some A ->
      advance A act fresh s = (Ok r, s') -> flow_step (mkSystem s (l1 ++ act :: l2)) (mkSystem s' (l1 ++ option_list r ++ l2)).

(** ** Executions are runs of these steps *)

Lemma pull_location pl d fresh (w : World T) b d' w' : pull pl d fresh w = (Ok (b, d'), w') -> location_id d' = location_id d.
Proof.
  unfold pull. intros (i & w1 & _ & He)%M_bind_inv. destruct (is_input pl), (is_queue pl).
  1,2,3: apply M_bind_inv in He as (r & w2 & _ & [= _ <- _]); done. by injection He as _ <- _.
Qed.

Lemma advance_step a A d1 d2 st fresh s l r s' : arrows !! a = Some A -> advance A (mkActivity a d1 d2 st) fresh s = (Ok r, s') ->
  flow_step (mkSystem s (mkActivity a d1 d2 st :: l)) (mkSystem s' (option_list r ++ l)).
Proof. intros HA E. by apply (fs_advance s [] _ l A fresh r s'). Qed.

(** The rest of an execution that gives back what it has pulled. *)
Lemma revert_steps a A d1 d2 (fresh : list Z) (s : World T * (P * Log)) l s' : arrows !! a = Some A ->
  (_ ← on_world (revert (input A) d1); _ ← on_world (revert (output A) d2); mret tt) s = (Ok tt, s') ->
  steps flow_step (mkSystem s (mkActivity a d1 d2 Reverting :: l)) (mkSystem s' l).
Proof.
  intros HA (r1 & s1 & E1 & (r2 & s2 & E2 & [= <-])%M_bind_inv)%M_bind_inv.
  eapply steps_cons; [apply (advance_step a A _ _ _ fresh _ _ (Some (mkActivity a (nothing d1) d2 RevertingOutput)) s1 HA)|].
  { cbn [advance]. by rewrite (M_bind_ok _ _ _ _ _ E1). }
  eapply steps_cons; [apply (advance_step a A _ _ _ fresh _ _ None s2 HA)|apply steps_refl]. cbn [advance]. by rewrite (M_bind_ok _ _ _ _ _ E2).
Qed.

(** What [execute] does alone is a run of the system, in which no other worker takes part. *)
Lemma execute_is_steps a A location fresh s l r s' : arrows !! a = Some A -> (location < locations)%nat -> can_allocate s.1 (input A) fresh ->
  pipeline_execute (input A) (output A) (logged a (process A)) location fresh s = (Ok r, s') ->
  steps flow_step (mkSystem s l) (mkSystem s' l).
Proof.
  intros HA Hloc Hf He. unfold pipeline_execute in He. apply M_bind_inv in He as ([b1 d1] & s1 & E1 & He).
  assert (H1 : flow_step (mkSystem s l) (mkSystem s1 (mkActivity a d1 (make_data location) (if b1 then PulledInput else Reverting) :: l))).
  { eapply fs_begin; [done..|]. unfold begin. by rewrite (M_bind_ok _ _ _ _ _ E1). }
  eapply steps_cons; [exact H1|]. cbn [fst snd] in He. destruct b1; apply M_bind_inv in He as ([b2 d2] & s2 & E2 & He); cbn [fst snd andb negb] in He.
  - assert (Hd1 : location_id d1 = location).
    { unfold on_world in E1. destruct (pull _ _ _ _) as [[[b d]| |] w] eqn:Hp; simplify_eq/=. by eapply pull_location in Hp. }
    eapply steps_cons; [apply (advance_step a A _ _ _ fresh _ _ (Some (mkActivity a d1 d2 (if b2 then PulledBoth else Reverting))) s2 HA)|].
    { cbn [advance]. rewrite Hd1. by rewrite (M_bind_ok _ _ _ _ _ E2). }
    destruct b2; cbn [negb] in He.
    + apply M_bind_inv in He as ([] & s3 & E3 & (event & s4 & E4 & (ps & s5 & E5 & He)%M_bind_inv)%M_bind_inv).
      eapply steps_cons; [apply (advance_step a A _ _ _ fresh _ _ (Some (mkActivity a (processed ps.1 event d1 d2).1 (processed ps.1 event d1 d2).2 Processed)) s5 HA)|].
      { cbn [advance]. rewrite (M_bind_ok _ _ _ _ _ E3), (M_bind_ok _ _ _ _ _ E4). unfold run_component. by rewrite E5. }
      change (if ps.1 then (set_item_count 0 d1, set_item0 event (set_item_count 1 d2)) else (d1, d2)) with (processed ps.1 event d1 d2) in He. destruct (processed ps.1 event d1 d2) as [i o].
      apply M_bind_inv in He as (r6 & s6 & E6 & (r7 & s7 & E7 & [= <- <-])%M_bind_inv). cbn [fst snd].
      eapply steps_cons; [apply (advance_step a A _ _ _ fresh _ _ (Some (mkActivity a (nothing i) o PushingOutput)) s6 HA)|].
      { cbn [advance]. by rewrite (M_bind_ok _ _ _ _ _ E6). }
      eapply steps_cons; [apply (advance_step a A _ _ _ fresh _ _ None s7 HA)|apply steps_refl]. cbn [advance]. by rewrite (M_bind_ok _ _ _ _ _ E7).
    + apply M_bind_inv in He as (r3 & s3 & E3 & (r4 & s4 & E4 & [= <- <-])%M_bind_inv). apply (revert_steps a A d1 d2 fresh s2 l); [done|].
      by rewrite (M_bind_ok _ _ _ _ _ E3), (M_bind_ok _ _ _ _ _ E4).
  - injection E2 as <- <- <-. apply M_bind_inv in He as (r3 & s3 & E3 & (r4 & s4 & E4 & [= <- <-])%M_bind_inv).
    apply (revert_steps a A d1 (make_data location) fresh s1 l); [done|]. by rewrite (M_bind_ok _ _ _ _ _ E3), (M_bind_ok _ _ _ _ _ E4).
Qed.

(** ** What one call does to the queues *)

Definition queued (w : World T) (k : nat) : list Z := from_option mailbox_items [] (queues w !! k).

(** Whether a place is queue [k]. *)
Definition at_queue (pl : PlaceRef) (k : nat) : bool := is_queue pl && bool_decide (place_ref pl = Some k).

Lemma on_queue_inv {A} i (op : JMailbox Z -> outcome (A * JMailbox Z)) (w : World T) a w' : on_queue i op w = (Ok a, w') ->
  exists mb mb', queues w !! i = Some mb /\ op mb = Ok (a, mb') /\ w' = mkWorld (<[i := mb']> (queues w)) (pools w).
Proof.
  unfold on_queue. destruct (queues w !! i) as [mb|]; [|done]. destruct (op mb) as [[a' mb']| |] eqn:E; [|done..]. intros [= -> <-]. by exists mb, mb'.
Qed.

Lemma on_pool_queues {A} i (op : JPool T -> outcome (A * JPool T)) (w : World T) a w' : on_pool i op w = (Ok a, w') -> queues w' = queues w.
Proof. unfold on_pool. destruct (pools w !! i) as [p|]; [|done]. destruct (op p) as [[a' p']| |]; [|done..]. by intros [= _ <-]. Qed.

Lemma queued_step w i mb loc ins outs mb' k : queues w !! i = Some mb -> op_step 0 mb loc ins outs mb' ->
  queued w k ++ (if bool_decide (Some i = Some k) then ins else []) ≡ₚ
  (if bool_decide (Some i = Some k) then outs else []) ++ queued (mkWorld (<[i := mb']> (queues w)) (pools w)) k.
Proof.
  intros Hi Hs. unfold queued. cbn [queues]. destruct (decide (i = k)) as [->|Hne].
  - rewrite bool_decide_true, Hi, list_lookup_insert_eq by (done || by eapply lookup_lt_Some). cbn. by eapply op_step_items.
  - rewrite bool_decide_false, list_lookup_insert_ne by congruence. by rewrite app_nil_r.
Qed.

Lemma pull_queued pl d fresh (w : World T) b d' w' k : pull pl d fresh w = (Ok (b, d'), w') ->
  queued w k ≡ₚ (if is_input pl && at_queue pl k then in_hand d' else []) ++ queued w' k.
Proof.
  unfold pull, at_queue, deref. intros (i & w1 & Hi & He)%M_bind_inv. destruct (place_ref pl) as [i'|]; [|done]. injection Hi as <- <-.
  destruct (is_input pl), (is_queue pl); cbn [andb].
  - apply M_bind_inv in He as (r & w2 & (mb & mb' & Hmb & Hop & ->)%on_queue_inv & [= _ <- <-]).
    rewrite <- (queued_step w i' mb _ [] _ mb' k Hmb (os_pop_and_reserve 0 _ _ _ _ _ _ _ Hop)). unfold in_hand. cbn. destruct (bool_decide _); by rewrite app_nil_r.
  - apply M_bind_inv in He as (r & w2 & Hp & [= _ <- <-]). unfold queued. by rewrite (on_pool_queues _ _ _ _ _ Hp).
  - apply M_bind_inv in He as (r & w2 & (mb & mb' & Hmb & Hop & ->)%on_queue_inv & [= _ <- <-]).
    pose proof (queued_step w i' mb _ [] [] mb' k Hmb (os_reserve_range 0 _ _ _ _ _ _ Hop)) as H. destruct (bool_decide _); by rewrite app_nil_r in H.
  - by injection He as _ _ <-.
Qed.

Lemma give_queued i d (w : World T) r w' k : give_to_queue i d w = (Ok r, w') ->
  queued w' k ≡ₚ (if bool_decide (Some i = Some k) then in_hand d else []) ++ queued w k.
Proof.
  intros (mb & mb' & Hmb & Hop & ->)%on_queue_inv.
  pose proof (queued_step w i mb _ _ [] mb' k Hmb (os_push_and_unreserve 0 _ _ _ _ _ _ _ Hop)) as H.
  destruct (bool_decide _); cbn [app] in H; rewrite <- H; [by rewrite Permutation_app_comm|by rewrite app_nil_r].
Qed.

Lemma push_queued pl d (w : World T) r w' k : push pl d w = (Ok r, w') -> queued w' k ≡ₚ (if at_queue pl k then in_hand d else []) ++ queued w k.
Proof.
  unfold push, at_queue, deref. intros (i & w1 & Hi & He)%M_bind_inv. destruct (place_ref pl) as [i'|]; [|done]. injection Hi as <- <-.
  destruct (is_queue pl); cbn [andb].
  - apply M_bind_inv in He as (its & w2 & Hg & [= _ <-]). by eapply give_queued.
  - apply M_bind_inv in He as (its & w2 & Hg & [= _ <-]). unfold queued. by rewrite (on_pool_queues _ _ _ _ _ Hg).
Qed.

Lemma revert_queued pl d (w : World T) r w' k : revert pl d w = (Ok r, w') -> queued w' k ≡ₚ (if at_queue pl k then in_hand d else []) ++ queued w k.
Proof.
  unfold revert, at_queue, deref. intros (i & w1 & Hi & He)%M_bind_inv. destruct (place_ref pl) as [i'|]; [|done]. injection Hi as <- <-.
  destruct (is_queue pl); cbn [andb].
  - apply M_bind_inv in He as (its & w2 & Hg & [= _ <-]). by eapply give_queued.
  - destruct (is_input pl); [|by injection He as _ <-].
    apply M_bind_inv in He as (its & w2 & Hg & [= _ <-]). unfold queued. by rewrite (on_pool_queues _ _ _ _ _ Hg).
Qed.

(** ** Taking turns *)

(** The arrows that have processed event [x], in order. *)
Definition visits (x : Z) (l : Log) : list nat := fst <$> filter (fun e => e.2 = x) l.

Definition times (a : nat) (v : list nat) : nat := length (filter (fun b => b = a) v).

(** After [q] rounds of arrows 0 to [n], and [r] arrows of the next one. *)
Record round (n : nat) (v : list nat) (q r : nat) : Prop := {
  rd_next : (r <= n)%nat;
  rd_length : length v = (q * S n + r)%nat;
  rd_turn : forall i a, v !! i = Some a -> a = (i mod S n)%nat;
  rd_times : forall j, (j <= n)%nat -> times j v = if decide (j < r)%nat then S q else q
}.

Lemma times_snoc j v a : times j (v ++ [a]) = (times j v + if decide (a = j) then 1 else 0)%nat.
Proof. unfold times. rewrite filter_app, length_app. f_equal. rewrite filter_cons. by case_decide. Qed.

Lemma round_nil n : round n [] 0 0.
Proof. split; [lia|done|done|]. intros j _. by case_decide; [lia|]. Qed.

(** When no arrow is ahead of the one before it, and the first at most one ahead of the last, it is arrow [r]'s turn. *)
Lemma round_next n v q r a : round n v q r -> (a <= n)%nat -> (forall k, (k < n)%nat -> (times (S k) (v ++ [a]) <= times k (v ++ [a]))%nat) ->
  (times 0 (v ++ [a]) <= S (times n (v ++ [a])))%nat -> exists q' r', round n (v ++ [a]) q' r'.
Proof.
  intros [Hr Hl Ht Hc] Ha Hdec Hring. assert (a = r) as ->.
  { setoid_rewrite times_snoc in Hdec. rewrite !times_snoc, !Hc in Hring by lia. destruct (decide (a = 0%nat)) as [->|Ha0].
    - destruct (decide (r = 0%nat)); [done|]. rewrite decide_True in Hring by lia. repeat case_decide; lia.
    - specialize (Hdec (a - 1)%nat ltac:(lia)). replace (S (a - 1)) with a in Hdec by lia. rewrite !Hc in Hdec by lia. repeat case_decide; lia. }
  assert (Ht' : forall i b, (v ++ [r]) !! i = Some b -> b = (i mod S n)%nat).
  { intros i b [Hi|[-> <-]]%lookup_snoc_Some; [apply Ht, Hi|]. rewrite Hl, Nat.Div0.add_mod, Nat.Div0.mod_mul, Nat.add_0_l, Nat.Div0.mod_mod. symmetry. apply Nat.mod_small. lia. }
  destruct (decide (r = n)) as [->|Hne].
  - exists (S q), 0%nat. split; [lia|rewrite length_app, Hl; cbn; lia|done|]. intros j Hj. rewrite times_snoc, Hc by done. repeat case_decide; lia.
  - exists q, (S r). split; [lia|rewrite length_app, Hl; cbn; lia|done|]. intros j Hj. rewrite times_snoc, Hc by done. repeat case_decide; lia.
Qed.

(** ** The books of the workers *)

(** The arrows form a chain: from the pool, through [n] queues, back to the pool. *)
Record chain (n : nat) : Prop := {
  ch_length : length arrows = S n;
  ch_input : forall a A, arrows !! a = Some A -> input A = if decide (a = 0%nat) then TopologyBuilder.pool_place 0 true else TopologyBuilder.queue_place (a - 1) true;
  ch_output : forall a A, arrows !! a = Some A -> output A = if decide (a = n) then TopologyBuilder.pool_place 0 false else TopologyBuilder.queue_place a false
}.

Definition chain_shape (n : nat) : list nat * nat := (replicate n locations, 1%nat).

Definition act_hand (act : Activity) : list Z := in_hand (din act) ++ in_hand (dout act).

Definition act_tickets (act : Activity) : list (nat * nat * Z) :=
  match arrows !! arrow act with
  | Some A =>
      match stage act with
      | PulledInput => ticket_of (input A) (din act)
      | RevertingOutput | PushingOutput => ticket_of (output A) (dout act)
      | _ => ticket_of (input A) (din act) ++ ticket_of (output A) (dout act)
      end
  | None => []
  end.

(** What a worker holds fits the places that it will give it to. *)
Definition stage_ok (w : World T) (A : PipelineArrow) (d1 d2 : Data) (st : Stage) : Prop :=
  match st with
  | PulledInput => fits w (input A) d1 /\ item_count d1 = 1 /\ d2 = make_data (location_id d1)
  | PulledBoth => fits w (input A) d1 /\ fits w (output A) d2 /\ item_count d1 = 1 /\ item_count d2 = 0 /\ length (items d2) = JANA2_ARROWDATA_MAX_SIZE /\
      (is_queue (output A) = true -> 1 <= reserve_count d2)
  | Reverting => fits w (input A) d1 /\ fits w (output A) d2 /\ item_count d2 = 0
  | RevertingOutput => item_count d1 = 0 /\ fits w (output A) d2 /\ item_count d2 = 0
  | Processed => fits w (input A) d1 /\ fits w (output A) d2
  | PushingOutput => item_count d1 = 0 /\ fits w (output A) d2
  | Excepted => True
  end.

Definition act_ok (w : World T) (act : Activity) : Prop :=
  exists A, arrows !! arrow act = Some A /\ (location_id (din act) < locations)%nat /\ location_id (dout act) = location_id (din act) /\
    stage_ok w A (din act) (dout act) (stage act).

(** The events that arrow [a] has processed. *)
Definition sent (a : nat) (l : Log) : list Z := snd <$> filter (fun e => e.1 = a) l.

(** The events between arrows [k] and [k + 1] that a worker holds. *)
Definition pend (k : nat) (act : Activity) : list Z :=
  (if decide (arrow act = S k) then in_hand (din act) else []) ++ (if decide (arrow act = k) then in_hand (dout act) else []).

(** What a call of [act]'s worker does; [H] and [R] are the events and slots of the others. *)
Record advanced (n : nat) (w : World T) (c : P * Log) (before : list Activity) (H : list Z) (R : list (nat * nat * Z)) (after : list Activity) (s' : World T * (P * Log)) : Prop := {
  ad_shape : shape s'.1 = shape w;
  ad_ledger : ledger s'.1 ((after ≫= act_hand) ++ H) ((after ≫= act_tickets) ++ R);
  ad_owned : forall k x, x ∈ H -> owned w k x -> owned s'.1 k x;
  ad_ok : Forall (act_ok s'.1) after;
  ad_flow : forall k, (k < n)%nat -> exists new, sent k s'.2.2 = sent k c.2 ++ new /\
    sent (S k) s'.2.2 ++ queued s'.1 k ++ (after ≫= pend k) ≡ₚ sent (S k) c.2 ++ queued w k ++ (before ≫= pend k) ++ new
}.

Lemma quiet_flow n (w w' : World T) (l : Log) before after : (forall k, (k < n)%nat -> queued w' k ++ (after ≫= pend k) ≡ₚ queued w k ++ (before ≫= pend k)) ->
  forall k, (k < n)%nat -> exists new, sent k l = sent k l ++ new /\
    sent (S k) l ++ queued w' k ++ (after ≫= pend k) ≡ₚ sent (S k) l ++ queued w k ++ (before ≫= pend k) ++ new.
Proof. intros Hq k Hk. exists []. rewrite !app_nil_r. split; [done|]. by rewrite Hq. Qed.

Section Chain.
Context (n : nat) (Hchain : chain n).

Lemma input_queue a A k : arrows !! a = Some A -> at_queue (input A) k = bool_decide (a = S k) /\ is_input (input A) = true
  /\ min_item_count (input A) = 1 /\ max_item_count (input A) = 1.
Proof.
  intros HA. rewrite (ch_input n Hchain a A HA). case_decide as Ha; [subst|]; (split; [|done]).
  - by rewrite bool_decide_false.
  - unfold at_queue. cbn. apply bool_decide_ext. split; [intros [= <-]; lia|intros ->; f_equal; lia].
Qed.

Lemma output_queue a A k : arrows !! a = Some A -> (k < n)%nat -> at_queue (output A) k = bool_decide (a = k).
Proof.
  intros HA Hk. rewrite (ch_output n Hchain a A HA). case_decide as Ha; [subst; rewrite bool_decide_false by lia; done|].
  unfold at_queue. cbn. apply bool_decide_ext. split; [by intros [= <-]|by intros ->].
Qed.

Lemma output_counts a A : arrows !! a = Some A -> is_input (output A) = false /\ min_item_count (output A) = 1 /\ max_item_count (output A) = 1.
Proof. intros HA. rewrite (ch_output n Hchain a A HA). by case_decide. Qed.

Lemma places_valid a A loc : arrows !! a = Some A -> (loc < locations)%nat -> valid (chain_shape n) (input A) loc /\ valid (chain_shape n) (output A) loc.
Proof.
  intros HA Hl. pose proof (lookup_lt_Some _ _ _ HA) as Hlt. rewrite (ch_length n Hchain) in Hlt.
  rewrite (ch_input n Hchain a A HA), (ch_output n Hchain a A HA). split; case_decide; (eexists; split; [done|]); cbn; try lia;
    exists locations; (split; [apply lookup_replicate; split; [done|lia]|done]).
Qed.

(** Giving the input back, by [revert] or by [push]. *)
Lemma give_input {B} (op : M (World T) B) a A d1 d2 st st' (w : World T) c H R : arrows !! a = Some A -> shape w = chain_shape n ->
  (location_id d1 < locations)%nat -> location_id d2 = location_id d1 -> handover op (input A) d1 ->
  (forall r w' k, op w = (Ok r, w') -> queued w' k ≡ₚ (if at_queue (input A) k then in_hand d1 else []) ++ queued w k) ->
  fits w (input A) d1 -> fits w (output A) d2 ->
  act_tickets (mkActivity a d1 d2 st) = ticket_of (input A) d1 ++ ticket_of (output A) d2 ->
  act_tickets (mkActivity a (nothing d1) d2 st') = ticket_of (output A) d2 ->
  (forall w', fits w' (output A) d2 -> stage_ok w' A (nothing d1) d2 st') ->
  ledger w (act_hand (mkActivity a d1 d2 st) ++ H) (act_tickets (mkActivity a d1 d2 st) ++ R) ->
  exists r w', op w = (Ok r, w') /\ advanced n w c [mkActivity a d1 d2 st] H R [mkActivity a (nothing d1) d2 st'] (w', c).
Proof.
  intros HA Hs Hl Hl2 Hop Hq F1 F2 Ht Ht' Hst Hled. rewrite Ht in Hled. unfold act_hand in Hled. cbn [din dout] in Hled. rewrite <- !app_assoc in Hled.
  destruct (Hop w (in_hand d2 ++ H) (ticket_of (output A) d2 ++ R) Hled) as (r & w' & E & Hs' & Hled' & Ho); [rewrite Hs; by apply (places_valid a)|done|].
  exists r, w'. split; [done|]. split; cbn [fst snd]; [done| | | |].
  - rewrite !bind_singleton, Ht'. done.
  - intros k x Hx. apply Ho. set_solver.
  - apply Forall_singleton. exists A. cbn [arrow din dout stage nothing location_id]. split_and!; [done|done|done|]. apply Hst.
    eapply fits_mono; [|exact F2]. intros k x Hx. apply Ho. set_solver.
  - apply quiet_flow. intros k Hk. rewrite !bind_singleton, (Hq r w' k E). unfold pend. cbn [arrow din dout].
    rewrite (proj1 (input_queue a A k HA)). change (in_hand (nothing d1)) with (@nil Z). case_bool_decide; case_decide; try lia; cbn [app]; case_decide; rewrite ?app_nil_r; try lia; solve_Permutation.
Qed.

(** Giving the output back, or on. *)
Lemma give_output {B} (op : M (World T) B) a A d1 d2 st (w : World T) c H R : arrows !! a = Some A -> shape w = chain_shape n ->
  (location_id d2 < locations)%nat -> handover op (output A) d2 ->
  (forall r w' k, op w = (Ok r, w') -> queued w' k ≡ₚ (if at_queue (output A) k then in_hand d2 else []) ++ queued w k) ->
  fits w (output A) d2 -> item_count d1 = 0 -> act_tickets (mkActivity a d1 d2 st) = ticket_of (output A) d2 ->
  ledger w (act_hand (mkActivity a d1 d2 st) ++ H) (act_tickets (mkActivity a d1 d2 st) ++ R) ->
  exists r w', op w = (Ok r, w') /\ advanced n w c [mkActivity a d1 d2 st] H R [] (w', c).
Proof.
  intros HA Hs Hl Hop Hq F2 H0 Ht Hled. rewrite Ht in Hled. unfold act_hand in Hled. cbn [din dout] in Hled. rewrite (in_hand_zero d1 H0) in Hled.
  destruct (Hop w H R Hled) as (r & w' & E & Hs' & Hled' & Ho); [rewrite Hs; by apply (places_valid a)|done|].
  exists r, w'. split; [done|]. split; cbn [fst snd]; [done|done|done|constructor|].
  apply quiet_flow. intros k Hk. rewrite bind_singleton. cbn [mbind list_bind]. rewrite app_nil_r, (Hq r w' k E). unfold pend. cbn [arrow din dout].
  rewrite (output_queue a A k HA Hk), (in_hand_zero d1 H0). case_bool_decide; case_decide; cbn [app]; case_decide; try lia; rewrite ?app_nil_r; solve_Permutation.
Qed.

(** A [Data] that was not pulled fits any place. *)
Lemma empty_fits (w : World T) pl loc : fits w pl (make_data loc).
Proof. split; cbn; [unfold sizeZ; cbn; lia|]. intros i _. destruct (is_queue pl); [lia|constructor]. Qed.

Lemma begin_ok a A location fresh (w : World T) c H R : arrows !! a = Some A -> shape w = chain_shape n -> (location < locations)%nat ->
  can_allocate w (input A) fresh -> ledger w H R ->
  exists act s', begin a A location fresh (w, c) = (Ok act, s') /\ advanced n w c [] H R [act] s'.
Proof.
  intros HA Hs Hl Hf Hled. destruct (input_queue a A 0 HA) as (_ & Hin & Hmin & Hmax). destruct (places_valid a A location HA Hl) as [V1 V2].
  destruct (pull_ledger w H R (input A) (make_data location) fresh) as (b & d & w' & E & Hp); [done|by rewrite Hs|lia|rewrite make_data_size; lia|done|].
  exists (mkActivity a d (make_data location) (if b then PulledInput else Reverting)), (w', c). unfold begin. rewrite (M_bind_ok _ _ _ _ _ (on_world_ok _ _ c _ _ E)). split; [done|].
  pose proof (pd_location Hp) as Hloc. cbn in Hloc. split; cbn [fst snd].
  - apply Hp.
  - rewrite !bind_singleton. unfold act_hand, act_tickets. cbn [din dout arrow stage]. rewrite HA. change (in_hand (make_data location)) with (@nil Z). rewrite app_nil_r.
    destruct b; [apply Hp|]. rewrite <- app_assoc. assert (Hz := zero_ticket _ _ _ (output A) location (pd_ledger Hp)).
    rewrite (pd_shape Hp), Hs in Hz. specialize (Hz V2). eapply ledger_perm; [done| |exact Hz]. solve_Permutation.
  - intros k x _. apply Hp.
  - apply Forall_singleton. exists A. cbn [arrow din dout stage]. rewrite Hloc. split_and!; [done|done|done|]. destruct b; cbn [stage_ok].
    + rewrite Hloc. split_and!; [apply Hp| |done]. pose proof (pd_max Hp). pose proof (pd_input Hp eq_refl Hin). lia.
    + split_and!; [apply Hp|apply empty_fits|done].
  - apply quiet_flow. intros k Hk. rewrite bind_singleton. cbn [mbind list_bind]. rewrite app_nil_r, (pull_queued _ _ _ _ _ _ _ k E). unfold pend. cbn [arrow din dout].
    rewrite (proj1 (input_queue a A k HA)), Hin. change (in_hand (make_data location)) with (@nil Z). case_bool_decide; case_decide; try lia; cbn [andb app]; case_decide; rewrite ?app_nil_r; solve_Permutation.
Qed.

Lemma pull_output_ok a A d1 (w : World T) c fresh H R : arrows !! a = Some A -> shape w = chain_shape n -> (location_id d1 < locations)%nat ->
  let act := mkActivity a d1 (make_data (location_id d1)) PulledInput in stage_ok w A d1 (make_data (location_id d1)) PulledInput ->
  ledger w (act_hand act ++ H) (act_tickets act ++ R) -> exists r s', advance A act fresh (w, c) = (Ok r, s') /\ advanced n w c [act] H R (option_list r) s'.
Proof.
  intros HA Hs Hl act (F1 & C1 & _) Hled. unfold act_hand, act_tickets in Hled. cbn [din dout arrow stage act] in Hled. rewrite HA in Hled.
  change (in_hand (make_data (location_id d1))) with (@nil Z) in Hled. rewrite app_nil_r in Hled.
  destruct (output_counts a A HA) as (Hin & Hmin & Hmax). destruct (places_valid a A (location_id d1) HA Hl) as [V1 V2].
  destruct (pull_ledger w (in_hand d1 ++ H) (ticket_of (input A) d1 ++ R) (output A) (make_data (location_id d1)) fresh) as (b & d2 & w' & E & Hp);
    [done|by rewrite Hs|lia|rewrite make_data_size; lia|intros _ Hi; congruence|].
  eexists (Some (mkActivity a d1 d2 (if b then PulledBoth else Reverting))), (w', c). subst act. cbn [advance]. rewrite (M_bind_ok _ _ _ _ _ (on_world_ok _ _ c _ _ E)). split; [done|].
  pose proof (pd_output Hp Hin) as C2. pose proof (pd_location Hp) as Hloc. cbn in Hloc.
  assert (F1' : fits w' (input A) d1) by (eapply fits_mono; [|exact F1]; intros k x _; apply Hp).
  split; cbn [fst snd option_list option_rect].
  - apply Hp.
  - rewrite !bind_singleton. unfold act_hand, act_tickets. cbn [din dout arrow stage]. rewrite HA. eapply ledger_perm; [| |exact (pd_ledger Hp)]; [solve_Permutation|].
    destruct b; solve_Permutation.
  - intros k x _. apply Hp.
  - apply Forall_singleton. exists A. cbn [arrow din dout stage]. split_and!; [done|done|done|]. destruct b; cbn [stage_ok]; [|split_and!; [done|apply Hp|done]].
    split_and!; [done|apply Hp|done|done| |].
    + by rewrite (pd_length Hp).
    + intros Hq. pose proof (pd_reserved Hp eq_refl Hq). lia.
  - apply quiet_flow. intros k Hk. rewrite !bind_singleton, (pull_queued _ _ _ _ _ _ _ k E), Hin. unfold pend. cbn [arrow din dout andb app]. by rewrite (in_hand_zero d2 C2).
Qed.

(** With one pool, every event belongs to it. *)
Lemma owner_is_zero (w : World T) H R x : shape w = chain_shape n -> ledger w H R -> x ∈ H -> owned w 0 x.
Proof.
  intros Hs Hled Hx. destruct (ledger_owned w H R x Hled Hx) as (k & p & Hk & Hp). assert (k = 0%nat) as ->; [|by exists p].
  apply lookup_lt_Some in Hk. assert (length (pools w) = 1%nat) by (by injection Hs). lia.
Qed.

Lemma sent_app a (l1 l2 : Log) : sent a (l1 ++ l2) = sent a l1 ++ sent a l2.
Proof. unfold sent. by rewrite filter_app, fmap_app. Qed.

Lemma sent_one a b x : sent a [(b, x)] = if decide (b = a) then [x] else [].
Proof. unfold sent. rewrite filter_cons. cbn. by case_decide. Qed.

(** Both places still fit when the event has moved, or has stayed. *)
Lemma processed_ok a A (w : World T) d1 d2 x H R b : arrows !! a = Some A -> shape w = chain_shape n -> stage_ok w A d1 d2 PulledBoth -> in_hand d1 = [x] ->
  ledger w (x :: H) R -> let '(i, o) := processed b x d1 d2 in
  fits w (input A) i /\ fits w (output A) o /\ in_hand i ++ in_hand o = [x] /\ in_hand o = (if b then [x] else []) /\
  ticket_of (input A) i = ticket_of (input A) d1 /\ ticket_of (output A) o = ticket_of (output A) d2 /\ location_id i = location_id d1 /\ location_id o = location_id d2.
Proof.
  intros HA Hs (F1 & F2 & C1 & C2 & Hlen & Hres) Hx Hled. destruct b; cbn [processed].
  2:{ by rewrite (in_hand_zero d2 C2), Hx. }
  assert (Ho : in_hand (set_item0 x (set_item_count 1 d2)) = [x]) by (unfold in_hand; cbn; destruct (items d2) as [|y [|z its]]; done).
  rewrite Ho. split_and!; try done.
  - destruct F1 as [G1 G2]. split; [pose proof (sizeZ_nonneg (items d1)); cbn; lia|]. intros i Hi. specialize (G2 i Hi). cbn. destruct (is_queue (input A)); [lia|constructor].
  - split; [cbn; unfold sizeZ; rewrite length_insert, Hlen; unfold JANA2_ARROWDATA_MAX_SIZE; lia|]. intros i Hi. destruct (is_queue (output A)) eqn:Hq; [by apply Hres|].
    rewrite Ho. apply Forall_singleton. assert (i = 0%nat) as ->.
    { rewrite (ch_output n Hchain a A HA) in Hi, Hq. by case_decide; simplify_eq/=. }
    eapply owner_is_zero; [done|exact Hled|by left].
Qed.

(** The component's step; it returns or throws. *)
Lemma component_ok a A d1 d2 (w : World T) c fresh H R : arrows !! a = Some A -> shape w = chain_shape n -> (location_id d1 < locations)%nat -> location_id d2 = location_id d1 ->
  (forall x c, (process A x c).1 <> Undef) ->
  let act := mkActivity a d1 d2 PulledBoth in stage_ok w A d1 d2 PulledBoth -> ledger w (act_hand act ++ H) (act_tickets act ++ R) ->
  exists r s', advance A act fresh (w, c) = (Ok r, s') /\ advanced n w c [act] H R (option_list r) s'.
Proof.
  intros HA Hs Hl Hl2 Hdef act Hst Hled. pose proof Hst as (F1 & F2 & C1 & C2 & Hlen & Hres).
  destruct (in_hand_one d1 C1) as (x & Hx0 & Hx); [destruct F1; lia|].
  assert (Hled1 : ledger w (x :: H) (act_tickets act ++ R)).
  { unfold act_hand in Hled. cbn [din dout act] in Hled. by rewrite Hx, (in_hand_zero d2 C2) in Hled. }
  subst act. cbn [advance]. rewrite C1. change (lift (assertb (1 =? 1))) with (mret tt : M (World T * (P * Log)) unit). rewrite M_bind_ret. unfold item0. rewrite Hx0, M_bind_ret.
  unfold run_component, on_component, logged. cbn [fst snd]. destruct c as [c l]. cbn [fst snd].
  destruct (process A x c) as [[[b st]|e|] c'] eqn:Ep; [| |by destruct (Hdef x c); rewrite Ep].
  - pose proof (processed_ok a A w d1 d2 x H _ b HA Hs Hst Hx Hled1) as Hpr. destruct (processed b x d1 d2) as [i o] eqn:Epr. destruct Hpr as (G1 & G2 & Hh & Hho & T1 & T2 & L1 & L2).
    cbn [fst snd]. rewrite Epr. eexists _, _. split; [done|]. split; cbn [fst snd option_list option_rect]; [done| |done| |].
    + rewrite !bind_singleton. unfold act_hand, act_tickets in *. cbn [din dout arrow stage] in *. rewrite HA in *. by rewrite Hh, T1, T2.
    + apply Forall_singleton. exists A. cbn [arrow din dout stage]. rewrite L1, L2. by split_and!.
    + intros k Hk. rewrite !bind_singleton. unfold pend. cbn [arrow din dout]. rewrite Hx, (in_hand_zero d2 C2), Hho.
      assert (Hhi : in_hand i = if b then [] else [x]). { destruct b; rewrite Hho in Hh; [by destruct (in_hand i) as [|? [|]]|by rewrite app_nil_r in Hh]. }
      rewrite Hhi. destruct b.
      * rewrite !sent_app, !sent_one. exists (if decide (a = k) then [x] else []). split; [done|]. repeat case_decide; try lia; rewrite ?app_nil_r; cbn [app]; solve_Permutation.
      * exists []. rewrite !app_nil_r. split; [done|]. repeat case_decide; try lia; rewrite ?app_nil_r; done.
  - eexists _, _. split; [done|]. split; cbn [fst snd option_list option_rect]; [done| |done| |].
    + rewrite !bind_singleton. unfold act_hand, act_tickets in *. cbn [din dout arrow stage] in *. by rewrite HA in *.
    + apply Forall_singleton. exists A. by cbn [arrow din dout stage].
    + apply quiet_flow. intros k Hk. done.
Qed.

(** The next call of a worker returns, whatever the others hold, and keeps the books. *)
Lemma advance_ok A act fresh (w : World T) c H R : arrows !! arrow act = Some A -> shape w = chain_shape n -> act_ok w act ->
  (forall x c, (process A x c).1 <> Undef) -> ledger w (act_hand act ++ H) (act_tickets act ++ R) ->
  exists r s', advance A act fresh (w, c) = (Ok r, s') /\ advanced n w c [act] H R (option_list r) s'.
Proof.
  intros HA Hs (A' & HA' & Hl & Hl2 & Hst) Hdef Hled. assert (A' = A) as -> by congruence. destruct act as [a d1 d2 st]. cbn [arrow din dout stage] in *.
  assert (Htick : forall st', act_tickets (mkActivity a d1 d2 st') = match st' with PulledInput => ticket_of (input A) d1 | RevertingOutput | PushingOutput => ticket_of (output A) d2
    | _ => ticket_of (input A) d1 ++ ticket_of (output A) d2 end) by (intros st'; unfold act_tickets; cbn [arrow stage din dout]; by rewrite HA).
  assert (Hrest : forall st', st' = RevertingOutput \/ st' = PushingOutput -> act_tickets (mkActivity a (nothing d1) d2 st') = ticket_of (output A) d2).
  { intros st' Hst'. unfold act_tickets. cbn [arrow stage din dout]. rewrite HA. by destruct Hst' as [->| ->]. }
  destruct (input_queue a A 0 HA) as (_ & Hin & _).
  destruct st.
  - pose proof Hst as (_ & _ & ->). by apply pull_output_ok.
  - by apply component_ok.
  - destruct Hst as (F1 & F2 & C2).
    destruct (give_input (revert (input A) d1) a A d1 d2 Reverting RevertingOutput w c H R HA Hs Hl Hl2) as (r & w' & E & Had);
      [apply revert_handover; congruence|intros r w' k; apply revert_queued|done|done|apply Htick|apply Hrest; by left|done|done|].
    exists (Some (mkActivity a (nothing d1) d2 RevertingOutput)), (w', c). cbn [advance]. by rewrite (M_bind_ok _ _ _ _ _ (on_world_ok _ _ c _ _ E)).
  - destruct Hst as (C1 & F2 & C2).
    destruct (give_output (revert (output A) d2) a A d1 d2 RevertingOutput w c H R HA Hs) as (r & w' & E & Had);
      [by rewrite Hl2|by apply revert_handover|intros r w' k; apply revert_queued|done|done|apply Htick|done|].
    exists None, (w', c). cbn [advance]. by rewrite (M_bind_ok _ _ _ _ _ (on_world_ok _ _ c _ _ E)).
  - destruct Hst as (F1 & F2).
    destruct (give_input (push (input A) d1) a A d1 d2 Processed PushingOutput w c H R HA Hs Hl Hl2) as (r & w' & E & Had);
      [apply push_handover|intros r w' k; apply push_queued|done|done|apply Htick|apply Hrest; by right|done|done|].
    exists (Some (mkActivity a (nothing d1) d2 PushingOutput)), (w', c). cbn [advance]. by rewrite (M_bind_ok _ _ _ _ _ (on_world_ok _ _ c _ _ E)).
  - destruct Hst as (C1 & F2).
    destruct (give_output (push (output A) d2) a A d1 d2 PushingOutput w c H R HA Hs) as (r & w' & E & Had);
      [by rewrite Hl2|apply push_handover|intros r w' k; apply push_queued|done|done|apply Htick|done|].
    exists None, (w', c). cbn [advance]. by rewrite (M_bind_ok _ _ _ _ _ (on_world_ok _ _ c _ _ E)).
  - exists (Some (mkActivity a d1 d2 Excepted)), (w, c). split; [done|]. split; cbn [fst snd option_list option_rect]; [done|by rewrite !bind_singleton|done| |].
    + apply Forall_singleton. exists A. by cbn [arrow din dout stage].
    + apply quiet_flow. done.
Qed.

(** ** The invariant of the system *)

Record flow_inv (s : System) : Prop := {
  fi_shape : shape (shared s).1 = chain_shape n;
  fi_ledger : ledger (shared s).1 (busy s ≫= act_hand) (busy s ≫= act_tickets);
  fi_busy : Forall (act_ok (shared s).1) (busy s);
  fi_flow : forall k, (k < n)%nat -> sent k (shared s).2.2 ≡ₚ sent (S k) (shared s).2.2 ++ queued (shared s).1 k ++ (busy s ≫= pend k)
}.

(** Others are not disturbed by what one worker does. *)
Lemma act_ok_mono (w w' : World T) act : (forall k x, x ∈ act_hand act -> owned w k x -> owned w' k x) -> act_ok w act -> act_ok w' act.
Proof.
  intros Ho (A & HA & Hl & Hl2 & Hst). exists A. split_and!; try done. unfold act_hand in Ho.
  assert (F1 : fits w (input A) (din act) -> fits w' (input A) (din act)) by (apply fits_mono; intros; apply Ho; [set_solver|done]).
  assert (F2 : fits w (output A) (dout act) -> fits w' (output A) (dout act)) by (apply fits_mono; intros; apply Ho; [set_solver|done]).
  destruct (stage act); cbn [stage_ok] in *; naive_solver.
Qed.

Lemma bind_perm {B C} (f : B -> list C) (l1 l2 l3 : list B) : (l1 ++ l2 ++ l3) ≫= f ≡ₚ (l2 ≫= f) ++ ((l1 ++ l3) ≫= f).
Proof. rewrite !bind_app. solve_Permutation. Qed.

Lemma advanced_inv s l1 before l2 after s' : flow_inv (mkSystem s (l1 ++ before ++ l2)) ->
  advanced n s.1 s.2 before ((l1 ++ l2) ≫= act_hand) ((l1 ++ l2) ≫= act_tickets) after s' -> flow_inv (mkSystem s' (l1 ++ after ++ l2)).
Proof.
  intros [Hs Hled Hok Hflow] [As Al Ao Aok Af]. cbn [shared busy] in *. split; cbn [shared busy].
  - congruence.
  - by rewrite !bind_perm.
  - apply Forall_app in Hok as [H1 Hok]. apply Forall_app in Hok as [_ H2].
    assert (Hm : forall act, act ∈ l1 ++ l2 -> act_ok s.1 act -> act_ok s'.1 act).
    { intros act Hin. apply act_ok_mono. intros k x Hx. apply Ao. apply list_elem_of_bind. by exists act. }
    rewrite !Forall_app. split_and!; [|done|]; apply Forall_forall; intros act Hin; (apply Hm; [set_solver|]); [by apply (proj1 (Forall_forall _ _) H1)|by apply (proj1 (Forall_forall _ _) H2)].
  - intros k Hk. destruct (Af k Hk) as (new & E1 & E2). specialize (Hflow k Hk). rewrite E1. rewrite bind_perm in Hflow |- *. rewrite Hflow.
    transitivity ((sent (S k) s'.2.2 ++ queued s'.1 k ++ (after ≫= pend k)) ++ ((l1 ++ l2) ≫= pend k)); [rewrite E2|]; solve_Permutation.
Qed.

Lemma flow_step_inv s s' : (forall a A x c, arrows !! a = Some A -> (process A x c).1 <> Undef) -> flow_inv s -> flow_step s s' -> flow_inv s'.
Proof.
  intros Hdef Hinv Hstep. destruct Hstep as [s l a A location fresh act s' HA Hl Hf E|s l1 act l2 A fresh r s' HA E].
  - destruct (begin_ok a A location fresh s.1 s.2 (l ≫= act_hand) (l ≫= act_tickets) HA) as (act' & s1 & E' & Had); [apply Hinv|done|done|apply Hinv|].
    rewrite <- surjective_pairing in E'. rewrite E in E'. injection E' as <- <-. by apply (advanced_inv s [] [] l [act] s').
  - pose proof (fi_ledger _ Hinv) as Hled. cbn [shared busy] in Hled. change (act :: l2) with ([act] ++ l2) in Hled. rewrite !bind_perm, !bind_singleton in Hled.
    pose proof (fi_busy _ Hinv) as Hok. cbn [shared busy] in Hok. apply Forall_app in Hok as [_ [Hok _]%Forall_cons].
    destruct (advance_ok A act fresh s.1 s.2 _ _ HA (fi_shape _ Hinv) Hok ltac:(intros; by eapply Hdef) Hled) as (r' & s1 & E' & Had).
    rewrite <- surjective_pairing in E'. rewrite E in E'. injection E' as <- <-. by apply (advanced_inv s l1 [act] l2 (option_list r) s').
Qed.

(** ** In flight *)

Definition in_flight (s : System) : list Z := concat ((fun k => queued (shared s).1 k ++ (busy s ≫= pend k)) <$> seq 0 n).

Lemma flow_telescope s m : flow_inv s -> (m <= n)%nat ->
  sent 0 (shared s).2.2 ≡ₚ sent m (shared s).2.2 ++ concat ((fun k => queued (shared s).1 k ++ (busy s ≫= pend k)) <$> seq 0 m).
Proof.
  intros Hinv. induction m as [|m IH]; intros Hm; [by rewrite app_nil_r|].
  rewrite IH by lia. rewrite (fi_flow s Hinv m ltac:(lia)), seq_S, fmap_app, concat_app. cbn [fmap list_fmap concat]. rewrite app_nil_r. solve_Permutation.
Qed.

Lemma concat_fmap_app {B C} (f g : B -> list C) l : concat ((fun k => f k ++ g k) <$> l) ≡ₚ concat (f <$> l) ++ concat (g <$> l).
Proof. induction l as [|k l IH]; [done|]. cbn [fmap list_fmap concat] in *. rewrite IH. solve_Permutation. Qed.

Lemma concat_bind_swap {B C D} (f : B -> C -> list D) l ks : concat ((fun k => l ≫= f k) <$> ks) ≡ₚ l ≫= (fun a => concat ((fun k => f k a) <$> ks)).
Proof.
  induction l as [|a l IH]; cbn [mbind list_bind]; [by induction ks|]. rewrite concat_fmap_app. by rewrite IH.
Qed.

Lemma once_below {C} (a m : nat) (l : list C) : concat ((fun k => if decide (a = k) then l else []) <$> seq 0 m) = if decide (a < m)%nat then l else [].
Proof.
  induction m as [|m IH]; [by case_decide; [lia|]|]. rewrite seq_S, fmap_app, concat_app, IH. cbn. rewrite app_nil_r.
  repeat case_decide; try lia; by rewrite ?app_nil_r.
Qed.

Lemma once_behind {C} (a m : nat) (l : list C) : concat ((fun k => if decide (a = S k) then l else []) <$> seq 0 m) = if decide (0 < a <= m)%nat then l else [].
Proof.
  induction m as [|m IH]; [by case_decide; [lia|]|]. rewrite seq_S, fmap_app, concat_app, IH. cbn. rewrite app_nil_r.
  repeat case_decide; try lia; by rewrite ?app_nil_r.
Qed.

(** What a worker holds of the events on their way: not what the source has not emitted yet, nor what the last arrow has finished. *)
Definition held (act : Activity) : list Z :=
  (if decide (arrow act = 0%nat) then [] else in_hand (din act)) ++ (if decide (arrow act = n) then [] else in_hand (dout act)).

Lemma bind_submseteq {B C} (f g : B -> list C) l : (forall a, f a ⊆+ g a) -> l ≫= f ⊆+ l ≫= g.
Proof. intros Hfg. induction l as [|a l IH]; [done|]. cbn [mbind list_bind]. by apply submseteq_app. Qed.

Lemma held_in_hand act : held act ⊆+ act_hand act.
Proof. unfold held, act_hand. apply submseteq_app; case_decide; (done || apply submseteq_nil_l). Qed.

(** The events on their way are those in the queues, and those that workers hold. *)
Lemma in_flight_held s : flow_inv s -> in_flight s ≡ₚ queue_items (shared s).1 ++ (busy s ≫= held).
Proof.
  intros Hinv. unfold in_flight. rewrite concat_fmap_app. apply Permutation_app.
  - assert (Hlen : length (queues (shared s).1) = n).
    { pose proof (fi_shape s Hinv) as Hs. injection Hs as Hs _. apply (f_equal length) in Hs. by rewrite length_fmap, length_replicate in Hs. }
    rewrite <- Hlen. unfold queue_items, queued. clear. induction (queues (shared s).1) as [|mb l IH] using rev_ind; [done|].
    rewrite length_app, Nat.add_1_r, seq_S, !fmap_app, !concat_app. cbn [fmap list_fmap concat Nat.add]. rewrite lookup_app_r, Nat.sub_diag by done. cbn. apply Permutation_app; [|done].
    erewrite list_fmap_ext; [exact IH|]. intros i k [-> Hi]%lookup_seq. cbn. by rewrite lookup_app_l.
  - rewrite concat_bind_swap. pose proof (fi_busy s Hinv) as Hok. induction Hok as [|act l (A & HA & _) _ IH]; [done|]. cbn [mbind list_bind]. rewrite IH. apply Permutation_app; [|done].
    apply lookup_lt_Some in HA. rewrite (ch_length n Hchain) in HA. unfold pend, held. rewrite concat_fmap_app, once_below, once_behind. repeat case_decide; done || lia.
Qed.

(** No event is in two places. *)
Lemma in_flight_distinct s : flow_inv s -> NoDup (in_flight s).
Proof.
  intros Hinv. rewrite in_flight_held by done. pose proof (ledger_nodup _ _ _ (fi_ledger s Hinv)) as Hnd.
  destruct (submseteq_Permutation (queue_items (shared s).1 ++ (busy s ≫= held)) (queue_items (shared s).1 ++ (busy s ≫= act_hand))) as [rest Hr].
  { apply submseteq_app; [done|]. apply bind_submseteq, held_in_hand. }
  rewrite Hr in Hnd. by apply NoDup_app in Hnd as [? _].
Qed.

(** ** The log *)

Lemma on_world_log {B} (op : M (World T) B) (s : World T * (P * Log)) r s' : on_world op s = (r, s') -> s'.2 = s.2.
Proof. unfold on_world. destruct (op s.1). by intros [= _ <-]. Qed.

Lemma advance_log A act fresh s r s' : advance A act fresh s = (Ok r, s') -> exists new, s'.2.2 = s.2.2 ++ new /\ (new = [] \/ exists x, new = [(arrow act, x)]).
Proof.
  destruct act as [a d1 d2 st]. cbn [advance arrow]. destruct st.
  2:{ intros ([] & s1 & [= _ <-] & (x & s2 & E2 & E)%M_bind_inv)%M_bind_inv. assert (s2 = s) as -> by (unfold item0 in E2; destruct (items d1 !! 0%nat); by injection E2).
    unfold run_component, on_component, logged in E. destruct (process A x s.2.1) as [[[b status]|e|] c]; [destruct b| |done]; injection E as _ <-; cbn [fst snd].
    - exists [(a, x)]. split; [done|]. right. by exists x.
    - exists []. rewrite app_nil_r. by split; [|left].
    - exists []. rewrite app_nil_r. by split; [|left]. }
  6:{ intros [= _ <-]. exists []. rewrite app_nil_r. by split; [|left]. }
  all: intros (r1 & s1 & E1%on_world_log & [= _ <-])%M_bind_inv; exists []; rewrite app_nil_r, E1; by split; [|left].
Qed.

Lemma flow_step_log s s' : flow_step s s' -> (shared s').2.2 = (shared s).2.2 \/ exists a x, (a <= n)%nat /\ (shared s').2.2 = (shared s).2.2 ++ [(a, x)].
Proof.
  intros Hstep. destruct Hstep as [s l a A location fresh act s' _ _ _ E|s l1 act l2 A fresh r s' HA E]; cbn [shared].
  - left. unfold begin in E. apply M_bind_inv in E as (r1 & s1 & E1%on_world_log & [= _ <-]). by rewrite E1.
  - destruct (advance_log _ _ _ _ _ _ E) as (new & Hn & [->|[x ->]]); [left; by rewrite app_nil_r in Hn|right].
    exists (arrow act), x. split; [|done]. apply lookup_lt_Some in HA. rewrite (ch_length n Hchain) in HA. lia.
Qed.

Lemma visits_times x a (l : Log) : times a (visits x l) = length (filter (fun y => y = x) (sent a l)).
Proof.
  unfold times, visits, sent. induction l as [|[b y] l IH]; [done|]. rewrite !filter_cons. cbn [fst snd].
  repeat (case_decide; rewrite ?fmap_cons, ?filter_cons; cbn [fst snd] in *; subst); cbn [length]; try done; try (f_equal; done); try lia.
Qed.

Lemma filter_once {B} `{EqDecision B} (x : B) l : NoDup l -> (length (filter (fun y => y = x) l) <= 1)%nat.
Proof.
  induction 1 as [|y l Hy _ IH]; [cbn; lia|]. rewrite filter_cons. case_decide; [subst|done].
  assert (Hnil : filter (fun y => y = x) l = []); [|rewrite Hnil; cbn; lia].
  apply elem_of_nil_inv. intros z [-> Hz]%list_elem_of_filter. done.
Qed.

(** Each event has passed the arrows in turn. *)
Definition in_turn (s : System) : Prop := forall x, exists q r, round n (visits x (shared s).2.2) q r.

Lemma flow_times s x : flow_inv s -> let v := visits x (shared s).2.2 in
  (forall k, (k < n)%nat -> (times (S k) v <= times k v)%nat) /\ (times 0 v <= S (times n v))%nat.
Proof.
  intros Hinv v. unfold v. setoid_rewrite visits_times. split.
  - intros k Hk. rewrite (fi_flow s Hinv k Hk), filter_app, length_app. lia.
  - rewrite (flow_telescope s n Hinv ltac:(lia)), filter_app, length_app. pose proof (filter_once x (in_flight s) (in_flight_distinct s Hinv)). unfold in_flight in H. lia.
Qed.

Lemma in_turn_step s s' : flow_inv s' -> in_turn s -> flow_step s s' -> in_turn s'.
Proof.
  intros Hinv Hturn Hstep x. destruct (Hturn x) as (q & r & Hr). destruct (flow_times s' x Hinv) as [Hdec Hring].
  destruct (flow_step_log _ _ Hstep) as [E|(a & y & Ha & E)]; rewrite E in Hdec, Hring |- *; [by exists q, r|].
  unfold visits in *. rewrite filter_app, filter_cons in Hdec, Hring |- *. cbn [snd] in *. rewrite filter_nil in Hdec, Hring |- *.
  case_decide; [|rewrite app_nil_r; by exists q, r]. rewrite fmap_app in Hdec, Hring |- *. by apply (round_next n _ q r).
Qed.

(** What the builder leaves before the first event: empty queues and a pool that has its items. *)
Record starts (w : World T) : Prop := {
  st_length : length (queues w) = n;
  st_queues : forall i mb, queues w !! i = Some mb -> exists cap stealing, 0 <= cap < 2 ^ 64 /\ mb = Mailbox.make cap (Z.of_nat locations) stealing;
  st_pool : exists p, pools w = [p] /\ pool_ok p []
}.

Lemma starts_inv (w : World T) c : starts w -> flow_inv (mkSystem (w, (c, [])) []) /\ in_turn (mkSystem (w, (c, [])) []).
Proof.
  intros [Hlen Hq (p & Hp & Hok)]. split; [|intros x; exists 0%nat, 0%nat; apply round_nil]. split; cbn [shared busy fst snd mbind list_bind].
  - unfold shape, chain_shape. rewrite Hp. f_equal. apply list_eq_same_length with (n := n); [by rewrite length_replicate|by rewrite length_fmap|].
    intros i x y Hi Hx Hy. apply lookup_replicate in Hy as [-> _]. apply list_lookup_fmap_Some in Hx as (mb & -> & Hmb).
    destruct (Hq i mb Hmb) as (cap & st & _ & ->). cbn. by rewrite length_replicate, Nat2Z.id.
  - apply ledger_init.
    + intros i mb (cap & st & Hc & ->)%Hq. by exists cap, (Z.of_nat locations), st.
    + rewrite Hp. by apply Forall_singleton.
    + intros i j x (p1 & Hi & _) (p2 & Hj & _). rewrite Hp in Hi, Hj. by destruct i, j; simplify_eq/=.
  - constructor.
  - intros k Hk. unfold sent. rewrite !app_nil_r. cbn. unfold queued. destruct (queues w !! k) as [mb|] eqn:E; [|done].
    destruct (Hq k mb E) as (cap & st & _ & ->). cbn. unfold mailbox_items. cbn. clear. by induction (Z.to_nat _).
Qed.

(** C2: any number of workers execute the arrows of a chain at the same time, and interleave between any two calls on queues and
    pools.  In every run from the topology's first state, every worker's next call returns, whatever the others hold, and an idle
    worker can begin with any arrow; each event has passed the arrows in turn, the first to the last and round again, none of
    them twice and none left out; what the source arrow has emitted is what the last arrow has finished, together with what is in the queues
    and what workers hold between two arrows; and no event is in two queues, in the hands of two workers, or in a queue
    and in the hands of a worker: none is lost, and none is duplicated.  The code of the components returns or throws; a worker whose component throws keeps its event. *)
Theorem events_take_turns (w : World T) c s : starts w -> (forall a A x c, arrows !! a = Some A -> (process A x c).1 <> Undef) ->
  steps flow_step (mkSystem (w, (c, [])) []) s ->
  (forall act, act ∈ busy s -> exists A, arrows !! arrow act = Some A /\ forall fresh, exists r s', advance A act fresh (shared s) = (Ok r, s')) /\
  (forall a A location fresh, arrows !! a = Some A -> (location < locations)%nat -> can_allocate (shared s).1 (input A) fresh ->
     exists act s', begin a A location fresh (shared s) = (Ok act, s')) /\
  (forall x i a, visits x (shared s).2.2 !! i = Some a -> a = (i mod S n)%nat) /\
  sent 0 (shared s).2.2 ≡ₚ sent n (shared s).2.2 ++ queue_items (shared s).1 ++ (busy s ≫= held) /\
  NoDup (queue_items (shared s).1 ++ (busy s ≫= act_hand)).
Proof.
  intros Hw Hdef Hrun. assert (flow_inv s /\ in_turn s) as [Hinv Hturn].
  { pose proof (starts_inv w c Hw) as H0. revert Hrun H0. apply (steps_invariant flow_step (fun s => flow_inv s /\ in_turn s)). intros s1 s2 [Hi Ht] Hs. pose proof (flow_step_inv _ _ Hdef Hi Hs). split; [done|]. by eapply in_turn_step. }
  split_and!.
  - intros act (l1 & l2 & Hb)%list_elem_of_split. pose proof (fi_busy s Hinv) as Hok. rewrite Hb in Hok. apply Forall_app in Hok as [_ [Hok _]%Forall_cons].
    pose proof Hok as (A & HA & _). exists A. split; [done|]. intros fresh. pose proof (fi_ledger s Hinv) as Hled. rewrite Hb in Hled. change (act :: l2) with ([act] ++ l2) in Hled.
    rewrite !bind_perm, !bind_singleton in Hled.
    destruct (advance_ok A act fresh _ (shared s).2 _ _ HA (fi_shape s Hinv) Hok ltac:(intros; by eapply Hdef) Hled) as (r & s' & E & _). exists r, s'. by rewrite <- surjective_pairing in E.
  - intros a A location fresh HA Hl Hf. destruct (begin_ok a A location fresh _ (shared s).2 _ _ HA (fi_shape s Hinv) Hl Hf (fi_ledger s Hinv)) as (act & s' & E & _).
    exists act, s'. by rewrite <- surjective_pairing in E.
  - intros x i a Hi. destruct (Hturn x) as (q & r & Hr). by eapply Hr.
  - rewrite <- in_flight_held by done. by apply flow_telescope.
  - exact (ledger_nodup _ _ _ (fi_ledger s Hinv)).
Qed.

End Chain.

(** ** Runs that can be evaluated *)

(** The next call of worker [i], or the first call of an arrow that takes from a queue. *)
Definition turn (t : nat + nat * nat) (s : System) : option System :=
  match t with
  | inl i =>
      act ← busy s !! i; A ← arrows !! arrow act;
      match advance A act [] (shared s) with
      | (Ok r, s') => Some (mkSystem s' (take i (busy s) ++ option_list r ++ drop (S i) (busy s)))
      | _ => None
      end
  | inr (a, location) =>
      A ← arrows !! a;
      if is_queue (input A) && (location <? locations)%nat then
        match begin a A location [] (shared s) with
        | (Ok act, s') => Some (mkSystem s' (act :: busy s))
        | _ => None
        end
      else None
  end.

Lemma turn_step t s s' : turn t s = Some s' -> flow_step s s'.
Proof.
  destruct s as [s l]. destruct t as [i|[a location]]; cbn [turn shared busy]; intros He.
  - apply bind_Some in He as (act & Hact & (A & HA & He)%bind_Some). destruct (advance A act [] s) as [[r| |] s1] eqn:E; simplify_eq.
    rewrite <- (take_drop_middle _ _ _ Hact) at 1. by eapply fs_advance.
  - apply bind_Some in He as (A & HA & He). destruct (is_queue (input A)) eqn:Hq; [|done]. destruct (Nat.ltb_spec location locations); [|done].
    destruct (begin a A location [] s) as [[act| |] s1] eqn:E; simplify_eq/=. eapply fs_begin; [done|done| |done]. intros Hq'. congruence.
Qed.

Lemma turns_steps ts s s' : foldl (fun o t => o ≫= turn t) (Some s) ts = Some s' -> steps flow_step s s'.
Proof.
  revert s. induction ts as [|t ts IH]; intros s; cbn [foldl].
  - intros [= <-]. apply steps_refl.
  - cbn [mbind option_bind]. destruct (turn t s) as [s1|] eqn:E; intros He; [eapply steps_cons; [by apply (turn_step t)|by apply IH]|].
    exfalso. revert He. clear. induction ts; [done|]. done.
Qed.

End Flow.

Arguments PipelineArrow : clear implicits.

(** ** The builder's topology *)

Section Builder.
Context {T P : Type} {IT : Item T} {IL : ItemLaws T}.

(** An arrow of the builder with two places is a [JPipelineArrow]; its component is a parameter. *)
Definition pipeline_of (obj : TopologyBuilder.ArrowObj) (process : Z -> M P (bool * ArrowMetrics.Status)) : option (PipelineArrow P) :=
  match TopologyBuilder.m_places obj with
  | [i; o] => Some (mkPipelineArrow i o process)
  | _ => None
  end.

Definition pipelines (b : TopologyBuilder.JTopologyBuilder) (processes : list (Z -> M P (bool * ArrowMetrics.Status))) : list (PipelineArrow P) :=
  omap (fun op => pipeline_of op.1 op.2) (zip (TopologyBuilder.heap b) processes).

(** Source and tap of a single level are a chain, and start with an empty queue. *)
Lemma single_level_flows components config mp (args : option TopologyBuilder.PoolArgs) l source tap (p : JPool T) :
  let b := TopologyBuilder.single_level components config mp args l in
  0 <= TopologyBuilder.m_event_queue_threshold config < 2 ^ 64 -> 0 <= Mapping.get_loc_count mp -> pool_ok p [] ->
  chain (pipelines b [source; tap]) 1 /\ starts (Z.to_nat (Mapping.get_loc_count mp)) 1 (mkWorld (TopologyBuilder.queues b) [p]).
Proof.
  intros b Hcap Hloc Hp. split; split.
  - done.
  - intros [|[|a]] A HA; [injection HA as <-..|]; done.
  - intros [|[|a]] A HA; [injection HA as <-..|]; done.
  - done.
  - intros [|i] mb Hi; [|done]. injection Hi as <-. exists (TopologyBuilder.m_event_queue_threshold config), (TopologyBuilder.m_enable_stealing config).
    by rewrite Z2Nat.id.
  - by exists p.
Qed.

End Builder.

(** One event goes through, while a second worker of the tap finds the queue empty. *)
Definition two_locations : Mapping.JProcessorMapping := Mapping.mkMapping Mapping.NoAffinity Mapping.Global [] 2 true "two locations".

Definition one_source : TopologyBuilder.Components :=
  TopologyBuilder.mkComponents [TopologyBuilder.mkSource 11 Event.PhysicsEvent] [TopologyBuilder.mkProcessor 21 Event.PhysicsEvent] [].

Definition built : TopologyBuilder.JTopologyBuilder := TopologyBuilder.single_level one_source TopologyBuilder.default_config two_locations None Event.PhysicsEvent.

Definition counting (x : Z) : M nat (bool * ArrowMetrics.Status) := fun c => (Ok (true, ArrowMetrics.KeepGoing), S c).

Definition first_world : World bool := mkWorld (TopologyBuilder.queues built) [pool0].

Definition schedule : list (nat + nat * nat) := inl 0%nat :: inr (1%nat, 1%nat) :: (inl <$> [1; 0; 1; 0; 0]%nat) ++ inr (1%nat, 0%nat) :: (inl <$> [0; 0; 0; 0]%nat).

Definition source_arrow : PipelineArrow nat := mkPipelineArrow (TopologyBuilder.pool_place 0 true) (TopologyBuilder.queue_place 0 false) counting.

Definition played : option (@System bool nat) :=
  match begin (T := bool) (IT := flag_item) 0 source_arrow 0 [5000] (first_world, (0%nat, [])) with
  | (Ok act, s) => foldl (fun o t => o ≫= turn (IT := flag_item) (pipelines built [counting; counting]) 2 t) (Some (mkSystem s [act])) schedule
  | _ => None
  end.

Example played_log : (fun s => ((shared s).2, busy s)) <$> played = Some ((2%nat, [(0%nat, 1016); (1%nat, 1016)]), []).
Proof. vm_compute. reflexivity. Qed.

Lemma played_run : exists s, played = Some s /\
  steps (flow_step (IT := flag_item) (pipelines built [counting; counting]) 2) (mkSystem (first_world, (0%nat, [])) []) s.
Proof.
  destruct played as [s|] eqn:E; [|by vm_compute in E]. exists s. split; [done|]. unfold played in E.
  destruct (begin _ _ _ _ _) as [[act| |] s1] eqn:Eb; [|done|done]. apply turns_steps in E. eapply steps_cons; [|exact E].
  eapply (fs_begin _ _ _ _ 0%nat source_arrow 0%nat); [reflexivity|lia| |exact Eb]. intros _ _. split; [|reflexivity]. apply (world0_fresh 5000). lia.
Qed.

Lemma events_take_turns_witness : exists s, played = Some s /\ visits 1016 (shared s).2.2 = [0; 1]%nat /\
  forall x i a, visits x (shared s).2.2 !! i = Some a -> a = (i mod 2)%nat.
Proof.
  destruct played_run as (s & E & Hrun). exists s. split; [exact E|].
  assert (Hp : @pool_ok bool flag_item flag_laws pool0 []) by (destruct pool0_inv as [ps Hps]; by exists ps, []).
  destruct (single_level_flows (IL := flag_laws) one_source TopologyBuilder.default_config two_locations None Event.PhysicsEvent counting counting pool0) as [Hc Hs]; [cbn; lia|cbn; lia|exact Hp|].
  destruct (events_take_turns (IL := flag_laws) _ 2 1 Hc first_world 0%nat s Hs) as (_ & _ & Ht & _); [|exact Hrun|].
  - intros [|[|a]] A x c HA; [injection HA as <-..|]; done.
  - split; [|exact Ht]. pose proof played_log as Hl. rewrite E in Hl. injection Hl as Hl _. rewrite Hl. vm_compute. reflexivity.
Defined.

End EventFlow.
