(* ===== verification/JWorker.v ===== *)
(** * JWorker: the threads that run arrows

    Model of [Engine/JWorker.{h,cc}].  The encapsulated thread is a program counter in
    [JWorker::loop]; one step of it is what the thread does between two points at which others can
    observe or change what it depends on.  What a step reads from outside (clocks, the number of
    pending events, what the user's code inside [JArrow::execute] does) is its [Turn].  The
    system is the scheduler, the metrics of the arrows and the workers; the controlling thread acts on it
    through the public methods of [JWorker] and [JScheduler]. *)

From S2P Require Import Prelude JMetrics JScheduler JSchedulerStop.
Import ArrowMetrics Scheduler.
Local Open Scope Z_scope.

Module Worker.

Inductive RunState := Running | Stopping | Stopped | TimedOut | Excepted.
Inductive BackoffStrategy := Constant | Linear | Exponential.

#[export] Instance RunState_eq_dec : EqDecision RunState.
Proof. solve_decision. Defined.

(** What stays as it is while a worker works. *)
Record Settings := mkSettings {
  m_worker_id : Z;
  m_cpu_id : Z;
  m_location_id : Z;
  m_pin_to_cpu : bool;
  m_backoff_strategy : BackoffStrategy;
  m_initial_backoff_time : Z;
  m_checkin_time : Z;
  m_backoff_tries : Z
}.

(** The constructor's arguments; the other members have initial values, in microseconds. *)
Definition make_settings (worker_id cpu_id location_id : Z) (pin_to_cpu : bool) : Settings :=
  mkSettings worker_id cpu_id location_id pin_to_cpu Exponential 1 500000 4.

(** The local variables of one turn of the outer loop. *)
Record Attempt := mkAttempt {
  current_tries : Z;
  backoff_duration : Z;
  start_time : Z;
  scheduler_duration : Z;
  useful_duration : Z;
  retry_duration : Z
}.

(** Where the thread is: at the test of the outer loop, before [next_assignment], at the test of the
    inner loop, before [last_assignment], in a [catch] block before [request_pause], out of [loop], or
    gone with the program. *)
Inductive Point := AtTop | AtAsk | AtTry (t : Attempt) | AtLast | AtCatch | Exited | Aborted.

Record JWorker := mkWorker {
  settings : Settings;
  m_run_state : RunState;
  m_assignment : option JArrow;
  m_thread : bool;
  point : option Point;
  last_result : Status;
  m_worker_metrics : WorkerMetrics.JWorkerMetrics;
  m_arrow_metrics : JArrowMetrics;
  m_exception : option JException
}.

Definition make_worker (now : Z) (s : Settings) : JWorker :=
  mkWorker s Stopped None false None NotRunYet (WorkerMetrics.clear now) clear None.

Definition set_run_state (r : RunState) (w : JWorker) : JWorker :=
  mkWorker (settings w) r (m_assignment w) (m_thread w) (point w) (last_result w)
    (m_worker_metrics w) (m_arrow_metrics w) (m_exception w).
Definition set_assignment (a : option JArrow) (w : JWorker) : JWorker :=
  mkWorker (settings w) (m_run_state w) a (m_thread w) (point w) (last_result w)
    (m_worker_metrics w) (m_arrow_metrics w) (m_exception w).
Definition set_thread (b : bool) (w : JWorker) : JWorker :=
  mkWorker (settings w) (m_run_state w) (m_assignment w) b (point w) (last_result w)
    (m_worker_metrics w) (m_arrow_metrics w) (m_exception w).
Definition set_point (p : option Point) (w : JWorker) : JWorker :=
  mkWorker (settings w) (m_run_state w) (m_assignment w) (m_thread w) p (last_result w)
    (m_worker_metrics w) (m_arrow_metrics w) (m_exception w).
Definition set_result (r : Status) (w : JWorker) : JWorker :=
  mkWorker (settings w) (m_run_state w) (m_assignment w) (m_thread w) (point w) r
    (m_worker_metrics w) (m_arrow_metrics w) (m_exception w).
Definition set_worker_metrics (m : WorkerMetrics.JWorkerMetrics) (w : JWorker) : JWorker :=
  mkWorker (settings w) (m_run_state w) (m_assignment w) (m_thread w) (point w) (last_result w)
    m (m_arrow_metrics w) (m_exception w).
Definition set_arrow_metrics (m : JArrowMetrics) (w : JWorker) : JWorker :=
  mkWorker (settings w) (m_run_state w) (m_assignment w) (m_thread w) (point w) (last_result w)
    (m_worker_metrics w) m (m_exception w).
Definition set_exception (e : JException) (w : JWorker) : JWorker :=
  mkWorker (settings w) (m_run_state w) (m_assignment w) (m_thread w) (point w) (last_result w)
    (m_worker_metrics w) (m_arrow_metrics w) (Some e).

(** What [execute] reports through [JArrowMetrics::update]. *)
Record Report := mkReport {
  r_status : Status;
  r_messages : Z;
  r_visits : Z;
  r_latency : Z;
  r_queue_latency : Z
}.

Record Turn := mkTurn {
  clock1 : Z;
  clock2 : Z;
  clock3 : Z;
  pending : Z;
  report : outcome Report;
  is_runtime_error : bool
}.

(** The metrics that arrows have accumulated, by the arrows' pointers. *)
Abbreviation Metrics := (gmap Z JArrowMetrics).

Section Loop.
Context (finalize : Z -> outcome unit).

(** The handlers at the end of [loop]; anything else terminates the program. *)
Definition catch (e : exn) (runtime_error : bool) (w : JWorker) : JWorker :=
  match e with
  | EJ e => set_point (Some AtCatch) (set_exception e (set_run_state Excepted w))
  | EStd what =>
      if runtime_error then set_point (Some AtCatch) (set_exception (mkex what) (set_run_state Excepted w))
      else set_point (Some Aborted) w
  | _ => set_point (Some Aborted) w
  end.

(** The test of the inner loop. *)
Definition keep_trying (w : JWorker) (t : Attempt) (now : Z) : bool :=
  (current_tries t <=? m_backoff_tries (settings w)) &&
  bool_decide (last_result w = KeepGoing \/ last_result w = ComeBackLater \/ last_result w = NotRunYet) &&
  bool_decide (m_run_state w = Running) &&
  (now - start_time t <? m_checkin_time (settings w)).

Definition next_backoff (s : Settings) (backoff : Z) : Z :=
  match m_backoff_strategy s with
  | Constant => backoff
  | Linear => backoff + m_initial_backoff_time s
  | Exponential => backoff * 2
  end.

(** The body of the inner loop after [execute] has returned. *)
Definition after_execute (s : Settings) (t : Attempt) (r : Status) (elapsed : Z) : Attempt :=
  if bool_decide (r = KeepGoing) then
    mkAttempt 0 (m_initial_backoff_time s) (start_time t) (scheduler_duration t) (useful_duration t + elapsed) (retry_duration t)
  else if 0 <? m_backoff_tries s then
    let backoff := next_backoff s (backoff_duration t) in
    mkAttempt (u32 (current_tries t + 1)) backoff (start_time t) (scheduler_duration t)
      (useful_duration t + elapsed) (retry_duration t + backoff)
  else
    mkAttempt (u32 (current_tries t + 1)) (backoff_duration t) (start_time t) (scheduler_duration t)
      (useful_duration t + elapsed) (retry_duration t).

(** Move the worker's arrow metrics to its arrow. *)
Definition publish_metrics (w : JWorker) (am : Metrics) : JWorker * Metrics :=
  match m_assignment w with
  | None => (w, am)
  | Some a =>
      let r := publish (default clear (am !! ptr a)) (m_arrow_metrics w) in
      (set_arrow_metrics r.2 w, <[ptr a := r.1]> am)
  end.

(** The end of a turn of the outer loop. *)
Definition end_turn (t : Attempt) (w : JWorker) (am : Metrics) : JWorker * Metrics :=
  let w := set_worker_metrics (WorkerMetrics.update (start_time t) 1 (useful_duration t) (retry_duration t)
             (scheduler_duration t) 0 (m_worker_metrics w)) w in
  let '(w, am) := publish_metrics w am in
  (set_point (Some AtTop) w, am).

(** One step of the thread. *)
Definition loop_step (u : Turn) (w : JWorker) (s : TopologyState) (am : Metrics) : JWorker * TopologyState * Metrics :=
  match point w with
  | Some AtTop =>
      (set_point (Some (if bool_decide (m_run_state w = Running) then AtAsk else AtLast)) w, s, am)
  | Some AtAsk =>
      match next_assignment finalize (clock2 u) (m_assignment w) (last_result w) (pending u) s with
      | (Ok None, s') =>
          (set_point (Some Exited) (set_run_state Stopped (set_result NotRunYet (set_assignment None w))), s', am)
      | (Ok (Some a), s') =>
          (set_point (Some (AtTry (mkAttempt 0 (m_initial_backoff_time (settings w)) (clock1 u) (clock2 u - clock1 u) 0 0)))
             (set_result NotRunYet (set_assignment (Some a) w)), s', am)
      | (Throw e, s') => (catch e (is_runtime_error u) w, s', am)
      | (Undef, s') => (set_point (Some Aborted) w, s', am)
      end
  | Some (AtTry t) =>
      if keep_trying w t (clock1 u) then
        match report u with
        | Ok r =>
            let am' := update (r_status r) (r_messages r) (r_visits r) (r_latency r) (r_queue_latency r) (m_arrow_metrics w) in
            (set_point (Some (AtTry (after_execute (settings w) t (r_status r) (clock3 u - clock2 u))))
               (set_result (get_last_status am') (set_arrow_metrics am' w)), s, am)
        | Throw e => (catch e (is_runtime_error u) w, s, am)
        | Undef => (set_point (Some Aborted) w, s, am)
        end
      else let '(w', am') := end_turn t w am in (w', s, am')
  | Some AtLast =>
      match last_assignment finalize (clock1 u) (m_assignment w) (last_result w) (pending u) s with
      | (Ok _, s') => (set_point (Some Exited) (set_assignment None w), s', am)
      | (Throw e, s') => (catch e (is_runtime_error u) w, s', am)
      | (Undef, s') => (set_point (Some Aborted) w, s', am)
      end
  | Some AtCatch =>
      match request_topology_pause s with
      | (Ok _, s') => (set_point (Some Exited) w, s', am)
      | (_, s') => (set_point (Some Aborted) w, s', am)
      end
  | Some Exited | Some Aborted | None => (w, s, am)
  end.

(** ** Methods that other threads call *)

Definition start (w : JWorker) : JWorker :=
  if bool_decide (m_run_state w = Stopped) then
    set_point (Some AtTop) (set_result NotRunYet (set_thread true (set_run_state Running w)))
  else w.

Definition request_stop (w : JWorker) : JWorker :=
  if bool_decide (m_run_state w = Running) then set_run_state Stopping w else w.

Definition declare_timeout (w : JWorker) : JWorker := set_run_state TimedOut w.

(** [wait_for_stop], if it returns: it blocks until the thread has left [loop], unless that timed out. *)
Definition wait_for_stop (w : JWorker) : option JWorker :=
  if negb (m_thread w) then Some w
  else if bool_decide (m_run_state w = TimedOut) then Some (set_thread false w)
  else match point w with
       | Some Exited =>
           let w := set_point None (set_thread false w) in
           Some (if bool_decide (m_run_state w = Stopping) then set_run_state Stopped w else w)
       | _ => None
       end.

(** The effect of [measure_perf]: the arrow metrics are taken, and published if there is an arrow. *)
Definition measure_perf (w : JWorker) (am : Metrics) : JWorker * Metrics :=
  match m_assignment w with
  | None => (set_arrow_metrics (take clear (m_arrow_metrics w)).2 w, am)
  | Some _ => publish_metrics w am
  end.

End Loop.

(** ** The system *)

Record System := mkSystem {
  sched : TopologyState;
  arrow_metrics : Metrics;
  workers : list JWorker;
  borrowed : option JArrow
}.

(** What the controlling thread does; [borrowed] is the arrow that [execute_arrow] has checked out. *)
Inductive Action :=
| ANewWorker (now : Z) (st : Settings)
| AStart (i : nat)
| ARequestStop (i : nat)
| AWaitForStop (i : nat)
| ADeclareTimeout (i : nat)
| AMeasurePerf (i : nat)
| AControl (c : control)
| ACheckout (i : nat)
| ACheckin (now : Z) (r : Status) (pending : Z).

Definition set_worker (i : nat) (w : JWorker) (sys : System) : System :=
  mkSystem (sched sys) (arrow_metrics sys) (<[i := w]> (workers sys)) (borrowed sys).

Section Steps.
Context (initialize finalize : Z -> outcome unit).

(** The state after an action, if it returns or throws. *)
Definition act (a : Action) (sys : System) : option System :=
  match a with
  | ANewWorker now st =>
      Some (mkSystem (sched sys) (arrow_metrics sys) (workers sys ++ [make_worker now st]) (borrowed sys))
  | AStart i => w ← workers sys !! i; Some (set_worker i (start w) sys)
  | ARequestStop i => w ← workers sys !! i; Some (set_worker i (request_stop w) sys)
  | AWaitForStop i => w ← workers sys !! i; w' ← wait_for_stop w; Some (set_worker i w' sys)
  | ADeclareTimeout i => w ← workers sys !! i; Some (set_worker i (declare_timeout w) sys)
  | AMeasurePerf i =>
      w ← workers sys !! i;
      let r := measure_perf w (arrow_metrics sys) in
      Some (mkSystem (sched sys) r.2 (<[i := r.1]> (workers sys)) (borrowed sys))
  | AControl c =>
      Some (mkSystem (do_control initialize finalize c (sched sys)).2 (arrow_metrics sys) (workers sys) (borrowed sys))
  | ACheckout i =>
      match borrowed sys, checkout i (sched sys) with
      | None, (Ok b, s') => Some (mkSystem s' (arrow_metrics sys) (workers sys) b)
      | _, _ => None
      end
  | ACheckin now r pending =>
      match borrowed sys with
      | None => None
      | Some a =>
          match last_assignment finalize now (Some a) r pending (sched sys) with
          | (Undef, _) => None
          | (_, s') => Some (mkSystem s' (arrow_metrics sys) (workers sys) None)
          end
      end
  end.

(** Threads and the controlling thread take turns; a program that has aborted takes no steps.
    [allowed] says what the controlling thread may do. *)
Inductive sys_step (allowed : Action -> Prop) : System -> System -> Prop :=
| sy_thread sys i w u w' s' am' :
    workers sys !! i = Some w ->
    loop_step finalize u w (sched sys) (arrow_metrics sys) = (w', s', am') ->
    point w' <> Some Aborted ->
    sys_step allowed sys (mkSystem s' am' (<[i := w']> (workers sys)) (borrowed sys))
| sy_act a sys sys' : allowed a -> act a sys = Some sys' -> sys_step allowed sys sys'.

(** The arrow that a thread works for: none once it is out of the loop, even if the pointer is still set. *)
Definition held_by (w : JWorker) : list Z :=
  match point w with
  | Some AtTop | Some AtAsk | Some (AtTry _) | Some AtLast => option_ptr (m_assignment w)
  | _ => []
  end.

Definition held (sys : System) : list Z := option_ptr (borrowed sys) ++ (workers sys ≫= held_by).

Definition ended (w : JWorker) : Prop :=
  m_run_state w = Excepted \/ m_run_state w = TimedOut \/ m_assignment w = None.

(** A thread that tries has an arrow; one that has left the loop without one failed or timed out;
    and a stopped worker has no thread in the loop. *)
Definition wf_worker (w : JWorker) : Prop :=
  match point w with
  | Some (AtTry _) => m_assignment w <> None
  | Some AtCatch | Some Exited | None => ended w
  | _ => True
  end /\
  (m_run_state w = Stopped -> m_assignment w = None /\ held_by w = [] /\ (point w = None \/ point w = Some Exited)).

(** Arrows whose thread has failed inside them stay checked out; they are [lost]. *)
Definition sys_inv (sys : System) : Prop :=
  Forall wf_worker (workers sys) /\ exists lost, threads_inv (sched sys) (held sys ++ lost).

#[export] Instance holders_perm p : Proper ((≡ₚ) ==> (=)) (holders p).
Proof. intros l l' H. unfold holders. by rewrite H. Qed.

#[export] Instance threads_inv_perm s : Proper ((≡ₚ) ==> iff) (threads_inv s).
Proof.
  intros l l' H. split; intros [Hd Hc]; (split; [done|]); intros a n Ha; destruct (Hc a n Ha) as [Hn Hp];
    (split; [|done]); [by rewrite <- H|by rewrite H].
Qed.

(** What an exchange of assignments does, wherever in the list the worker's arrow is. *)
Lemma next_assignment_held now a r pending s o s' h :
  next_assignment finalize now a r pending s = (o, s') -> o <> Undef ->
  threads_inv s (option_ptr a ++ h) ->
  threads_inv s' (match o with Ok b => option_ptr b | _ => [] end ++ h).
Proof.
  intros H Ho Hinv. destruct a as [a|]; destruct o as [b|e|]; try done; cbn in Hinv |- *.
  - eapply (sched_step_inv initialize finalize (s, [] ++ ptr a :: h) (s', option_ptr b ++ [] ++ h)); [done|].
    by eapply ss_next_checkin.
  - eapply (sched_step_inv initialize finalize (s, [] ++ ptr a :: h) (s', [] ++ h)); [done|]. by eapply ss_next_throw.
  - eapply (sched_step_inv initialize finalize (s, h) (s', option_ptr b ++ h)); [done|]. by eapply ss_next.
  - unfold next_assignment in H. rewrite M_bind_ret in H. unfold checkout_unprotected in H. rewrite M_bind_get in H.
    by apply checkout_loop_no_throw in H.
Qed.

Lemma last_assignment_held now a r pending s o s' h :
  last_assignment finalize now a r pending s = (o, s') -> o <> Undef ->
  threads_inv s (option_ptr a ++ h) -> threads_inv s' h.
Proof.
  intros H Ho Hinv. destruct a as [a|]; cbn in H, Hinv; [|by injection H as _ <-].
  by eapply (checkin_inv finalize _ _ _ _ _ _ _ [] h).
Qed.

Lemma control_held c s h : threads_inv s h -> threads_inv (do_control initialize finalize c s).2 h.
Proof. apply threads_inv_same, control_threads. Qed.

(** Replacing one worker replaces what it holds. *)
Lemma held_replace sys i w :
  workers sys !! i = Some w -> exists rest, held sys ≡ₚ held_by w ++ rest /\
    forall s am w', held (mkSystem s am (<[i := w']> (workers sys)) (borrowed sys)) ≡ₚ held_by w' ++ rest.
Proof.
  intros Hi. exists (option_ptr (borrowed sys) ++ ((firstn i (workers sys) ++ skipn (S i) (workers sys)) ≫= held_by)).
  split.
  - unfold held. rewrite <- (take_drop_middle _ _ _ Hi) at 1. rewrite !bind_app, bind_cons. solve_Permutation.
  - intros s am w'. unfold held. cbn. rewrite insert_take_drop by (by eapply lookup_lt_Some).
    rewrite !bind_app, bind_cons. solve_Permutation.
Qed.

(** A thread that is in the loop is not stopped. *)
Lemma wf_in_loop w p :
  wf_worker w -> point w = Some p -> p <> Exited -> m_run_state w <> Stopped.
Proof. intros [_ Hs] Hp Hne H. destruct (Hs H) as (_ & _ & [E|E]); congruence. Qed.

Lemma catch_wf e b w :
  m_run_state w <> Stopped -> point (catch e b w) <> Some Aborted ->
  wf_worker (catch e b w) /\ held_by (catch e b w) = [].
Proof.
  intros Hs. unfold catch. destruct e; try done; [|destruct b; [|done]]; intros _; (split; [split; [by left|done]|done]).
Qed.

Lemma publish_metrics_fields w am :
  let w' := (publish_metrics w am).1 in
  m_run_state w' = m_run_state w /\ m_assignment w' = m_assignment w /\ point w' = point w.
Proof. unfold publish_metrics. destruct (m_assignment w) eqn:E; cbn; by rewrite ?E. Qed.

(** One step of a thread: what it holds, what is lost, and the thread counts change together. *)
Lemma loop_step_held u w s am w' s' am' rest :
  wf_worker w -> loop_step finalize u w s am = (w', s', am') -> point w' <> Some Aborted ->
  threads_inv s (held_by w ++ rest) ->
  wf_worker w' /\ exists lost, threads_inv s' (held_by w' ++ lost ++ rest).
Proof.
  intros Hwf Hstep Hab Hinv. unfold loop_step in Hstep. unfold held_by in Hinv.
  destruct (point w) as [[| |t| | | |]|] eqn:Hp; try (by simplify_eq; (split; [done|]); exists []; unfold held_by; rewrite Hp).
  - pose proof (wf_in_loop w _ Hwf Hp ltac:(done)) as Hns. simplify_eq. split.
    + by destruct (bool_decide _).
    + exists []. unfold held_by. by destruct (bool_decide _).
  - pose proof (wf_in_loop w _ Hwf Hp ltac:(done)) as Hns.
    destruct (next_assignment _ _ _ _ _ s) as [o s1] eqn:Hn.
    assert (Ho : o <> Undef) by (intros ->; by simplify_eq).
    pose proof (next_assignment_held _ _ _ _ _ _ _ rest Hn Ho Hinv) as Hinv'.
    destruct o as [[a|]|e|]; [| | |done]; injection Hstep as <- <- <-.
    + split; [done|]. exists []. exact Hinv'.
    + split; [split; [by right; right|auto]|]. exists []. exact Hinv'.
    + destruct (catch_wf e _ w Hns Hab) as [Hc ->]. split; [done|]. by exists [].
  - pose proof (wf_in_loop w _ Hwf Hp ltac:(done)) as Hns. destruct Hwf as [Hasg _]. rewrite Hp in Hasg.
    destruct (keep_trying w t (clock1 u)).
    + destruct (report u) as [r|e|]; [| |by simplify_eq]; injection Hstep as <- <- <-.
      * split; [done|]. by exists [].
      * destruct (catch_wf e _ w Hns Hab) as [Hc ->]. split; [done|]. by exists (option_ptr (m_assignment w)).
    + unfold end_turn in Hstep.
      pose proof (publish_metrics_fields (set_worker_metrics (WorkerMetrics.update (start_time t) 1 (useful_duration t)
        (retry_duration t) (scheduler_duration t) 0 (m_worker_metrics w)) w) am) as Hf.
      destruct (publish_metrics _ _) as [w1 am1]. cbn in Hf. destruct Hf as (Hr & Ha & _). injection Hstep as <- <- <-.
      split; [split; [done|cbn; congruence]|]. exists []. cbn. by rewrite Ha.
  - pose proof (wf_in_loop w _ Hwf Hp ltac:(done)) as Hns.
    destruct (last_assignment _ _ _ _ _ s) as [o s1] eqn:Hl.
    assert (Ho : o <> Undef) by (intros ->; by simplify_eq).
    pose proof (last_assignment_held _ _ _ _ _ _ _ rest Hl Ho Hinv) as Hinv'.
    destruct o as [[]|e|]; [| |done]; injection Hstep as <- <- <-.
    + split; [split; [by right; right|cbn; congruence]|]. by exists [].
    + destruct (catch_wf e _ w Hns Hab) as [Hc ->]. split; [done|]. by exists [].
  - pose proof (wf_in_loop w _ Hwf Hp ltac:(done)) as Hns. destruct Hwf as [He _]. rewrite Hp in He.
    pose proof (control_held CPause s rest Hinv) as Hinv'. cbn in Hinv'.
    destruct (request_topology_pause s) as [[[]|e|] s1]; injection Hstep as <- <- <-; try done.
    split; [split; [done|cbn; congruence]|]. by exists [].
Qed.

Lemma sys_inv_worker sys i w w' am :
  sys_inv sys -> workers sys !! i = Some w -> (wf_worker w -> wf_worker w' /\ held_by w' = held_by w) ->
  sys_inv (mkSystem (sched sys) am (<[i := w']> (workers sys)) (borrowed sys)).
Proof.
  intros [Hall [lost Hinv]] Hi Hw. destruct (Hw (Forall_lookup_1 _ _ _ _ Hall Hi)) as [Hwf Hheld].
  split; [by apply Forall_insert|]. exists lost. destruct (held_replace sys i w Hi) as (rest & Hr & Hr').
  cbn [sched]. rewrite Hr', Hheld. by rewrite Hr in Hinv.
Qed.

Lemma start_held w : wf_worker w -> wf_worker (start w) /\ held_by (start w) = held_by w.
Proof.
  unfold start. intros Hwf. case_bool_decide as Hs; [|done]. destruct Hwf as [_ Hwf].
  destruct (Hwf Hs) as (Ha & Hh & _). rewrite Hh. split; [done|]. cbn. by rewrite Ha.
Qed.

Lemma request_stop_held w : wf_worker w -> wf_worker (request_stop w) /\ held_by (request_stop w) = held_by w.
Proof.
  unfold request_stop. intros Hwf. case_bool_decide as Hs; [|done]. split; [|done]. split; [|done].
  destruct Hwf as [Hp _]. unfold ended in *. cbn in *. rewrite Hs in Hp. destruct (point w) as [[]|]; naive_solver.
Qed.

Lemma declare_timeout_held w : wf_worker w -> wf_worker (declare_timeout w) /\ held_by (declare_timeout w) = held_by w.
Proof.
  intros [Hp _]. split; [|done]. split; [|done]. unfold ended in *. cbn in *. destruct (point w) as [[]|]; naive_solver.
Qed.

Lemma wait_for_stop_held w w' :
  wait_for_stop w = Some w' -> wf_worker w -> wf_worker w' /\ held_by w' = held_by w.
Proof.
  unfold wait_for_stop. intros Hw Hwf. destruct (negb (m_thread w)); [by simplify_eq|].
  case_bool_decide as Ht; [simplify_eq; by destruct Hwf|].
  destruct (point w) as [[]|] eqn:Hp; try done. cbn in Hw. unfold held_by at 2. rewrite Hp.
  destruct Hwf as [He Hs]. rewrite Hp in He. unfold ended in He.
  case_bool_decide as Hst; simplify_eq; (split; [|done]); unfold wf_worker, ended; cbn.
  - destruct He as [|[|He]]; [congruence..|]. auto.
  - split; [done|]. intros Hstop. destruct (Hs Hstop) as (? & _). auto.
Qed.

Lemma measure_perf_held w am : wf_worker w -> wf_worker (measure_perf w am).1 /\ held_by (measure_perf w am).1 = held_by w.
Proof.
  intros Hwf. unfold measure_perf. destruct (m_assignment w) as [a|] eqn:Ha; [|done].
  destruct (publish_metrics_fields w am) as (Hr & Hm & Hp). unfold wf_worker, ended, held_by in *. by rewrite Hr, Hm, Hp.
Qed.

Lemma act_inv a sys sys' : sys_inv sys -> act a sys = Some sys' -> sys_inv sys'.
Proof.
  intros Hsys Hact. destruct a; cbn in Hact.
  - injection Hact as <-. destruct Hsys as [Hall [lost Hinv]]. split.
    + apply Forall_app. split; [done|]. constructor; [|constructor]. split; [by right; right|auto].
    + exists lost. unfold held in *. cbn [workers borrowed]. rewrite bind_app. cbn. by rewrite app_nil_r.
  - destruct (workers sys !! i) as [w|] eqn:Hi; [|done]. injection Hact as <-. eapply sys_inv_worker; [done..|]. apply start_held.
  - destruct (workers sys !! i) as [w|] eqn:Hi; [|done]. injection Hact as <-. eapply sys_inv_worker; [done..|]. apply request_stop_held.
  - destruct (workers sys !! i) as [w|] eqn:Hi; [|done]. cbn in Hact. destruct (wait_for_stop w) as [w'|] eqn:Hw; [|done].
    injection Hact as <-. eapply sys_inv_worker; [done..|]. by apply wait_for_stop_held.
  - destruct (workers sys !! i) as [w|] eqn:Hi; [|done]. injection Hact as <-. eapply sys_inv_worker; [done..|]. apply declare_timeout_held.
  - destruct (workers sys !! i) as [w|] eqn:Hi; [|done]. injection Hact as <-. eapply sys_inv_worker; [done..|]. apply measure_perf_held.
  - injection Hact as <-. destruct Hsys as [Hall [lost Hinv]]. split; [done|]. exists lost. by apply control_held.
  - destruct (borrowed sys) eqn:Hb; [done|]. destruct (checkout i (sched sys)) as [[b|e|] s'] eqn:Hc; try done.
    injection Hact as <-. destruct Hsys as [Hall [lost Hinv]]. split; [done|]. exists lost. unfold held in *.
    rewrite Hb in Hinv. cbn in Hinv |- *. rewrite <- app_assoc.
    eapply (sched_step_inv initialize finalize (sched sys, _) (s', _)); [exact Hinv|]. by eapply ss_checkout.
  - destruct (borrowed sys) as [a|] eqn:Hb; [|done]. destruct (checkin_unprotected _ _ _ _ _ (sched sys)) as [o s'] eqn:Hl.
    destruct Hsys as [Hall [lost Hinv]]. unfold held in Hinv. rewrite Hb, <- app_assoc in Hinv.
    destruct o; try done; injection Hact as <-; (split; [done|]); exists lost;
      by eapply (last_assignment_held _ (Some a)).
Qed.

Lemma sys_step_inv allowed sys sys' : sys_inv sys -> sys_step allowed sys sys' -> sys_inv sys'.
Proof.
  intros Hsys Hstep. destruct Hstep as [sys i w u w' s' am' Hi Hstep Hab|a sys sys' _ Hact]; [|by eapply act_inv].
  destruct Hsys as [Hall [lost Hinv]]. destruct (held_replace sys i w Hi) as (rest & Hr & Hr').
  rewrite Hr, <- app_assoc in Hinv.
  destruct (loop_step_held u w (sched sys) (arrow_metrics sys) w' s' am' (rest ++ lost)
    (Forall_lookup_1 _ _ _ _ Hall Hi) Hstep Hab Hinv) as [Hwf [l Hinv']].
  split; [by apply Forall_insert|]. exists (l ++ lost). cbn [sched]. rewrite Hr'.
  assert (Hp : (held_by w' ++ rest) ++ l ++ lost ≡ₚ held_by w' ++ l ++ rest ++ lost) by solve_Permutation.
  by rewrite Hp.
Qed.

Definition fresh_system (arrows : list JArrow) (m : PerfMetrics.JPerfMetrics) : System :=
  mkSystem (make arrows m) ∅ [] None.

Definition any_action (a : Action) : Prop := True.

(** C3: threads never run a sequential arrow at the same time.  Workers are created, started, stopped,
    declared to have timed out and waited for in any order, their threads interleave with each other
    and with everything the controlling thread does, and the user's code inside arrows or their
    finalization may throw.  At every moment the threads that work for an arrow are at most as many
    as the scheduler has counted, and at most one if the arrow is not parallel. *)
Theorem threads_exclude_each_other arrows m sys a n :
  NoDup (ptr <$> arrows) -> steps (sys_step any_action) (fresh_system arrows m) sys ->
  (a, n) ∈ threads (sched sys) ->
  holders (ptr a) (held sys) <= n /\ (is_parallel a = false -> holders (ptr a) (held sys) <= 1).
Proof.
  intros Hd Hrun Ha.
  assert (Hinv : sys_inv sys).
  { apply (steps_invariant (sys_step any_action) sys_inv (sys_step_inv any_action) _ _ Hrun).
    split; [constructor|]. exists []. by apply threads_inv_make. }
  destruct Hinv as [_ [lost Hinv]]. destruct (ti_counts _ _ Hinv a n Ha) as [Hn Hp]. rewrite holders_app in Hn.
  assert (0 <= holders (ptr a) lost) by (unfold holders; lia). split; [lia|]. intros Hseq. specialize (Hp Hseq). lia.
Qed.

End Steps.

(** ** Retries *)

Section Retries.
Context (finalize : Z -> outcome unit).

(** The backoff time after [k] attempts without success, and how long has then been waited in all. *)
Definition backoff_after (st : Settings) (k : Z) : Z :=
  let b := m_initial_backoff_time st in
  if 0 <? m_backoff_tries st then
    match m_backoff_strategy st with Constant => b | Linear => (k + 1) * b | Exponential => 2 ^ k * b end
  else b.

Definition waited (st : Settings) (k : Z) : Z :=
  let b := m_initial_backoff_time st in
  if 0 <? m_backoff_tries st then
    match m_backoff_strategy st with
    | Constant => k * b
    | Linear => k * (k + 3) / 2 * b
    | Exponential => (2 ^ (k + 1) - 2) * b
    end
  else 0.

Fixpoint run_turns (us : list Turn) (w : JWorker) (s : TopologyState) (am : Metrics) : JWorker * TopologyState * Metrics :=
  match us with
  | [] => (w, s, am)
  | u :: us => let '(w', s', am') := loop_step finalize u w s am in run_turns us w' s' am'
  end.

Lemma waited_step st k :
  0 <= k -> waited st (k + 1) = waited st k + (if 0 <? m_backoff_tries st then backoff_after st (k + 1) else 0).
Proof.
  intros Hk. unfold waited, backoff_after. destruct (0 <? m_backoff_tries st); [|lia].
  destruct (m_backoff_strategy st); [lia| |].
  - replace ((k + 1) * (k + 1 + 3)) with (k * (k + 3) + (k + 2) * 2) by lia. rewrite Z.div_add by lia. lia.
  - rewrite (Z.pow_add_r 2 (k + 1) 1) by lia. lia.
Qed.

Lemma backoff_step st k :
  0 <= k -> 0 < m_backoff_tries st -> next_backoff st (backoff_after st k) = backoff_after st (k + 1).
Proof.
  intros Hk Ht. unfold next_backoff, backoff_after. rewrite (proj2 (Z.ltb_lt _ _) Ht).
  destruct (m_backoff_strategy st); [done|lia|]. rewrite Z.pow_add_r by lia. lia.
Qed.

Lemma backoff_nonneg st k : 0 <= k -> 0 <= m_initial_backoff_time st -> 0 <= backoff_after st k.
Proof.
  intros Hk Hb. unfold backoff_after. destruct (0 <? m_backoff_tries st); [|done].
  destruct (m_backoff_strategy st); [done|nia|]. pose proof (Z.pow_nonneg 2 k). nia.
Qed.

Lemma waited_mono st k n : 0 <= m_initial_backoff_time st -> 0 <= k -> k <= n -> waited st k <= waited st n.
Proof.
  intros Hb Hk Hn. replace n with (k + Z.of_nat (Z.to_nat (n - k))) by lia. induction (Z.to_nat (n - k)) as [|j IH]; [by rewrite Z.add_0_r|].
  rewrite Nat2Z.inj_succ. replace (k + Z.succ (Z.of_nat j)) with (k + Z.of_nat j + 1) by lia. rewrite waited_step by lia.
  pose proof (backoff_nonneg st (k + Z.of_nat j + 1) ltac:(lia) Hb). destruct (0 <? m_backoff_tries st); lia.
Qed.

(** An attempt that has failed [k] times, after [r0] had been waited before. *)
Definition failed_attempt (st : Settings) (r0 k : Z) (t : Attempt) : Prop :=
  current_tries t = k /\ backoff_duration t = backoff_after st k /\ retry_duration t = r0 + waited st k.

Lemma failed_again st r0 k t r elapsed :
  failed_attempt st r0 k t -> r <> KeepGoing -> 0 <= k < 2 ^ 32 - 1 ->
  failed_attempt st r0 (k + 1) (after_execute st t r elapsed).
Proof.
  intros (Ht & Hb & Hr) Hne Hk. unfold after_execute. rewrite bool_decide_false by done.
  unfold failed_attempt. rewrite waited_step by lia. destruct (Z.ltb_spec 0 (m_backoff_tries st)) as [Hpos|Hzero]; cbn.
  - rewrite Ht, Hb, Hr, u32_small, backoff_step by lia. repeat split; lia.
  - rewrite Ht, Hb, Hr, u32_small by lia. unfold backoff_after. rewrite (proj2 (Z.ltb_ge _ _)) by lia. repeat split; lia.
Qed.

Lemma end_turn_top t w am :
  let w' := (end_turn t w am).1 in
  point w' = Some AtTop /\ m_assignment w' = m_assignment w /\
  WorkerMetrics.m_last_retry_time (m_worker_metrics w') = retry_duration t.
Proof. unfold end_turn, publish_metrics. cbn. destruct (m_assignment w) eqn:E; cbn; by rewrite E. Qed.

Lemma retries_end us : forall w s am t k r0,
  point w = Some (AtTry t) -> failed_attempt (settings w) r0 k t ->
  0 <= m_initial_backoff_time (settings w) -> 0 <= m_backoff_tries (settings w) < 2 ^ 32 - 1 ->
  0 <= k <= m_backoff_tries (settings w) + 1 ->
  Forall (fun u => exists r, report u = Ok r /\ r_status r <> KeepGoing) us ->
  m_backoff_tries (settings w) + 2 - k <= sizeZ us ->
  exists n w' s' am', run_turns (firstn n us) w s am = (w', s', am') /\
    Z.of_nat n <= m_backoff_tries (settings w) + 2 - k /\ point w' = Some AtTop /\ m_assignment w' = m_assignment w /\
    WorkerMetrics.m_last_retry_time (m_worker_metrics w') <= r0 + waited (settings w) (m_backoff_tries (settings w) + 1).
Proof.
  induction us as [|u us IH]; intros w s am t k r0 Hp Hf Hb Ht Hk Hus Hlen; [rewrite sizeZ_nil in Hlen; lia|].
  apply Forall_cons in Hus as [(r & Hr & Hne) Hus]. rewrite sizeZ_cons in Hlen.
  destruct (keep_trying w t (clock1 u)) eqn:Hkeep.
  - assert (Hlt : k <= m_backoff_tries (settings w)).
    { destruct Hf as (Htr & _). unfold keep_trying in Hkeep. rewrite Htr in Hkeep. rewrite !andb_true_iff, Z.leb_le in Hkeep. lia. }
    destruct (loop_step finalize u w s am) as [[w1 s1] am1] eqn:Hstep. pose proof Hstep as Hs1.
    unfold loop_step in Hs1. rewrite Hp, Hkeep, Hr in Hs1. injection Hs1 as Hw1 _ _.
    assert (Hset : settings w1 = settings w) by (by rewrite <- Hw1).
    destruct (IH w1 s1 am1 (after_execute (settings w) t (r_status r) (clock3 u - clock2 u)) (k + 1) r0)
      as (n & w' & s' & am' & Hrun & Hn & Htop & Has & Hret); rewrite ?Hset; try done; try lia.
    { by rewrite <- Hw1. } { apply failed_again; [done..|lia]. }
    exists (S n), w', s', am'. cbn [firstn run_turns]. rewrite Hstep. split; [done|]. rewrite Hset in Hn, Hret. split; [lia|].
    split; [done|]. split; [by rewrite Has, <- Hw1|done].
  - exists 1%nat. pose proof (end_turn_top t w am) as (Htop & Has & Hret). destruct (end_turn t w am) as [w' am'] eqn:He.
    exists w', s, am'. cbn [firstn run_turns]. unfold loop_step. rewrite Hp, Hkeep, He. split; [done|]. split; [lia|].
    split; [done|]. split; [done|]. cbn in Hret. rewrite Hret. destruct Hf as (_ & _ & ->).
    pose proof (waited_mono (settings w) k (m_backoff_tries (settings w) + 1) Hb ltac:(lia) ltac:(lia)). lia.
Qed.

(** C21: a worker that gets nowhere returns to the scheduler.  From a new attempt on its arrow, whatever
    the clocks say and unless an attempt succeeds or throws, after at most [m_backoff_tries + 2] tests of its inner
    loop the worker is back at the outer loop, still with its arrow, and its metrics
    record a waiting time of at most the sum of the constant, linear or exponential backoff. *)
Theorem retries_are_bounded w s am t us :
  point w = Some (AtTry t) -> current_tries t = 0 -> backoff_duration t = m_initial_backoff_time (settings w) ->
  0 <= m_initial_backoff_time (settings w) -> 0 <= m_backoff_tries (settings w) < 2 ^ 32 - 1 ->
  Forall (fun u => exists r, report u = Ok r /\ r_status r <> KeepGoing) us ->
  m_backoff_tries (settings w) + 2 <= sizeZ us ->
  exists n w' s' am', run_turns (firstn n us) w s am = (w', s', am') /\
    Z.of_nat n <= m_backoff_tries (settings w) + 2 /\ point w' = Some AtTop /\ m_assignment w' = m_assignment w /\
    WorkerMetrics.m_last_retry_time (m_worker_metrics w')
      <= retry_duration t + waited (settings w) (m_backoff_tries (settings w) + 1).
Proof.
  intros Hp Ht Hbk Hb Htr Hus Hlen.
  destruct (retries_end us w s am t 0 (retry_duration t)) as (n & w' & s' & am' & Hrun & Hn & Hrest); try done; try lia.
  - split; [done|]. split; [rewrite Hbk; unfold backoff_after; by repeat case_match; rewrite ?Z.mul_1_l|].
    unfold waited. change (0 * (0 + 3) / 2) with 0. change (2 ^ (0 + 1) - 2) with 0. repeat case_match; lia.
  - exists n, w', s', am'. split; [done|]. split; [lia|done].
Qed.

End Retries.

(** ** An exception stops everybody *)

Section Exceptions.
Context (initialize finalize : Z -> outcome unit).

Definition no_active (s : TopologyState) : Prop := forall a, a ∈ arrow_states s -> status a <> AActive.

(** No arrow has become active, and the topology has not been set running. *)
Definition calmer (s s' : TopologyState) : Prop :=
  length (arrow_states s') = length (arrow_states s) /\
  (forall i a a', arrow_states s !! i = Some a -> arrow_states s' !! i = Some a' -> status a <> AActive -> status a' <> AActive) /\
  (current_topology_status s' = TRunning -> current_topology_status s = TRunning).

#[local] Instance calmer_preorder : PreOrder calmer.
Proof.
  split.
  - intros s. split; [done|]. split; [congruence|done].
  - intros s1 s2 s3 (Hl12 & H12 & Hr12) (Hl23 & H23 & Hr23). split; [congruence|]. split; [|auto]. intros i a a' Ha Ha' Hne.
    destruct (lookup_lt_is_Some_2 (arrow_states s2) i) as [b Hb]; [rewrite Hl12; by eapply lookup_lt_Some|]. eauto.
Qed.

Lemma calmer_modify_arrow index f :
  (forall a, status a <> AActive -> status (f a) <> AActive) -> keeps calmer (modify_arrow index f).
Proof.
  intros Hf s. unfold modify_arrow. destruct (arrow_states s !! index) as [b|] eqn:Hb; [|done]. cbn.
  split; [apply length_insert|]. cbn. split; [|done]. intros i a a' Ha Ha' Hne. destruct (decide (i = index)) as [->|Hi].
  - rewrite list_lookup_insert_eq in Ha' by (by eapply lookup_lt_Some). simplify_eq. auto.
  - rewrite list_lookup_insert_ne in Ha' by done. congruence.
Qed.

Lemma calmer_modify f : (forall s, arrow_states (f s) = arrow_states s /\ (current_topology_status (f s) = TRunning -> current_topology_status s = TRunning)) ->
  keeps calmer (modify f).
Proof. intros Hf s. destruct (Hf s) as [Ha Hr]. split; cbn; rewrite Ha; [done|]. split; [congruence|done]. Qed.

Lemma calmer_arrow_at index : keeps calmer (arrow_at index).
Proof. intros s. unfold arrow_at. by case_match. Qed.

Ltac keeps_calm :=
  repeat first [ apply calmer_modify_arrow; by intros []
               | apply calmer_modify; by intros []
               | apply calmer_arrow_at
               | keeps_step ].

Lemma checkin_calm now a r pending : keeps calmer (checkin_unprotected finalize now a r pending).
Proof. unfold checkin_unprotected, call_finalize, achieve_topology_pause_unprotected. keeps_calm. Qed.

Lemma checkout_loop_calm fuel : forall cur, keeps calmer (checkout_loop fuel cur).
Proof. induction fuel as [|fuel IH]; intros cur; cbn [checkout_loop]; keeps_calm; apply IH. Qed.

Lemma next_assignment_calm now a r pending : keeps calmer (next_assignment finalize now a r pending).
Proof.
  unfold next_assignment, checkout_unprotected. destruct a; keeps_calm; apply checkin_calm || apply checkout_loop_calm.
Qed.

Lemma last_assignment_calm now a r pending : keeps calmer (last_assignment finalize now a r pending).
Proof. destruct a; cbn; [apply checkin_calm|keeps_calm]. Qed.

Lemma checkout_calm i : keeps calmer (checkout i).
Proof. unfold checkout. keeps_calm. Qed.

Definition is_run (c : control) : bool := match c with CRun _ _ => true | _ => false end.

Lemma control_calm c : is_run c = false -> keeps calmer (do_control initialize finalize c).
Proof.
  intros Hc. destruct c; try done; cbn [do_control]; unfold initialize_topology, drain_topology,
    request_topology_pause, achieve_topology_pause_unprotected, finish_topology, for_sources,
    pause_arrow_unprotected, call_initialize, call_finalize; keeps_calm.
Qed.

Lemma calmer_no_active s s' : calmer s s' -> no_active s -> no_active s'.
Proof.
  intros (Hl & Hc & _) Hs a [i Hi]%list_elem_of_lookup.
  destruct (lookup_lt_is_Some_2 (arrow_states s) i) as [b Hb]; [rewrite <- Hl; by eapply lookup_lt_Some|].
  eapply Hc; [exact Hb|exact Hi|]. apply Hs. by eapply list_elem_of_lookup_2.
Qed.

Lemma pause_arrow_calm i : keeps calmer (pause_arrow_unprotected i).
Proof. unfold pause_arrow_unprotected. keeps_calm. Qed.

Lemma pause_arrow_inactive i s s' a :
  pause_arrow_unprotected i s = (Ok tt, s') -> arrow_states s' !! i = Some a -> status a <> AActive.
Proof.
  unfold pause_arrow_unprotected. intros (b & s1 & Hb & H)%M_bind_inv Ha. unfold arrow_at in Hb.
  destruct (arrow_states s !! i) as [b'|] eqn:Hi; simplify_eq.
  destruct (is_Active (status b)) eqn:Hact; cbn [negb] in H.
  - apply M_bind_inv in H as ([] & s2 & _ & H). apply M_bind_inv in H as ([] & s3 & _ & H).
    unfold modify_arrow in H. destruct (arrow_states s3 !! i) as [c|] eqn:Hc; [|done]. injection H as <-. cbn in Ha.
    rewrite list_lookup_insert_eq in Ha by (by eapply lookup_lt_Some). by simplify_eq.
  - unfold mret, M_ret in H. simplify_eq. unfold is_Active in Hact. by apply bool_decide_eq_false in Hact.
Qed.

Lemma pause_all_inactive n : forall k s s',
  for_each (seq k n) pause_arrow_unprotected s = (Ok tt, s') ->
  forall i a, (k <= i < k + n)%nat -> arrow_states s' !! i = Some a -> status a <> AActive.
Proof.
  induction n as [|n IH]; intros k s s' H i a Hi Ha; [lia|]. cbn in H.
  apply M_bind_inv in H as ([] & s1 & Hk & H). destruct (decide (i = k)) as [->|Hne]; [|eapply IH; [exact H| |exact Ha]; lia].
  assert (Hcalm : calmer s1 s').
  { assert (Hkeep : keeps calmer (for_each (seq (S k) n) pause_arrow_unprotected)) by (keeps_calm; apply pause_arrow_calm).
    specialize (Hkeep s1). by rewrite H in Hkeep. }
  destruct Hcalm as (Hl & Hc & _). destruct (lookup_lt_is_Some_2 (arrow_states s1) k) as [b Hb]; [rewrite <- Hl; by eapply lookup_lt_Some|].
  eapply Hc; [exact Hb|exact Ha|]. by eapply pause_arrow_inactive.
Qed.

Lemma request_pause_no_active s s' :
  current_topology_status s = TRunning -> request_topology_pause s = (Ok tt, s') -> no_active s'.
Proof.
  intros Hst. unfold request_topology_pause. rewrite M_bind_get, Hst.
  intros ([] & s1 & Hp & H)%M_bind_inv. injection H as <-. intros a [i Hi]%list_elem_of_lookup. cbn in Hi.
  assert (Hl : length (arrow_states s1) = length (arrow_states s)).
  { assert (Hkeep : keeps calmer (for_each (seq 0 (length (arrow_states s))) pause_arrow_unprotected)) by (keeps_calm; apply pause_arrow_calm).
    destruct (Hkeep s) as [Hl _]. by rewrite Hp in Hl. }
  eapply pause_all_inactive; [exact Hp| |exact Hi]. apply lookup_lt_Some in Hi. lia.
Qed.

(** Nothing is handed out while no arrow is active. *)
Lemma no_active_no_assignment now a r pending s b s' :
  no_active s -> next_assignment finalize now a r pending s = (Ok b, s') -> b = None.
Proof.
  intros Hs. unfold next_assignment. intros ([] & s1 & Hin & H)%M_bind_inv.
  assert (Hs1 : no_active s1).
  { eapply calmer_no_active; [|exact Hs]. pose proof (last_assignment_calm now a r pending s) as Hk.
    unfold last_assignment in Hk. by rewrite Hin in Hk. }
  unfold checkout_unprotected in H. rewrite M_bind_get in H. apply checkout_loop_threads in H.
  destruct b as [c|]; [|done]. destruct H as (i & d & Hd & He & _). unfold eligible in He.
  apply andb_true_iff in He as [He _]. apply bool_decide_eq_true in He. exfalso. eapply Hs1; [|exact He].
  by eapply list_elem_of_lookup_2.
Qed.

Definition not_run (a : Action) : Prop := match a with AControl c => is_run c = false | _ => True end.

Lemma calm_step sys sys' : sys_step initialize finalize not_run sys sys' -> calmer (sched sys) (sched sys').
Proof.
  intros Hstep. destruct Hstep as [sys i w u w' s' am' Hi Hstep _|a sys sys' Ha Hact]; cbn [sched].
  - unfold loop_step in Hstep. destruct (point w) as [[| |t| | | |]|]; try (by simplify_eq).
    + pose proof (next_assignment_calm (clock2 u) (m_assignment w) (last_result w) (pending u) (sched sys)) as Hk.
      destruct (next_assignment _ _ _ _ _ _) as [[[]| |] s1]; by simplify_eq.
    + destruct (keep_trying w t (clock1 u)); [destruct (report u); by simplify_eq|].
      destruct (end_turn t w (arrow_metrics sys)). by simplify_eq.
    + pose proof (last_assignment_calm (clock1 u) (m_assignment w) (last_result w) (pending u) (sched sys)) as Hk.
      destruct (last_assignment _ _ _ _ _ _) as [[| |] s1]; by simplify_eq.
    + pose proof (control_calm CPause eq_refl (sched sys)) as Hk. cbn in Hk.
      destruct (request_topology_pause (sched sys)) as [[| |] s1]; by simplify_eq.
  - destruct a; cbn in Hact; try (destruct (workers sys !! i); [|done]; cbn in Hact); try (by simplify_eq).
    + by destruct (wait_for_stop _); simplify_eq/=.
    + injection Hact as <-. by apply control_calm.
    + destruct (borrowed sys); [done|]. pose proof (checkout_calm i (sched sys)) as Hk.
      destruct (checkout i (sched sys)) as [[| |] s1]; by simplify_eq.
    + destruct (borrowed sys) as [b|]; [|done]. pose proof (checkin_calm now b r pending0 (sched sys)) as Hk.
      destruct (checkin_unprotected _ _ _ _ _ _) as [[| |] s1]; by simplify_eq.
Qed.

Lemma quiet_step sys sys' :
  no_active (sched sys) -> sys_step initialize finalize not_run sys sys' -> no_active (sched sys').
Proof. intros Hq Hstep. eapply calmer_no_active; [by apply calm_step|exact Hq]. Qed.

(** What the handlers make of an exception. *)
Definition recorded (e : exn) (runtime_error : bool) : option JException :=
  match e with
  | EJ e => Some e
  | EStd what => if runtime_error then Some (mkex what) else None
  | _ => None
  end.

(** C7: an exception in one worker stops all of them.  When the arrow that worker [i] executes throws a
    [JException] or a [std::runtime_error], the worker records it and is [Excepted].  When it then reaches
    [request_pause] while the topology is running then, whatever happens afterwards short of running the
    topology again, no worker is given another arrow: the next time it asks it leaves the loop. *)
Theorem exception_stops_everyone sys i w t u e x wc u1 sys1 wc' s1 am1 :
  workers sys !! i = Some w -> point w = Some (AtTry t) -> keep_trying w t (clock1 u) = true ->
  report u = Throw e -> recorded e (is_runtime_error u) = Some x ->
  workers sys1 !! i = Some wc -> point wc = Some AtCatch -> current_topology_status (sched sys1) = TRunning ->
  loop_step finalize u1 wc (sched sys1) (arrow_metrics sys1) = (wc', s1, am1) -> point wc' <> Some Aborted ->
  (exists w', loop_step finalize u w (sched sys) (arrow_metrics sys) = (w', sched sys, arrow_metrics sys) /\
     m_run_state w' = Excepted /\ m_exception w' = Some x /\ point w' = Some AtCatch) /\
  forall sys2 j v u2 v' s' am',
    steps (sys_step initialize finalize not_run) (mkSystem s1 am1 (<[i := wc']> (workers sys1)) (borrowed sys1)) sys2 ->
    workers sys2 !! j = Some v -> point v = Some AtAsk ->
    loop_step finalize u2 v (sched sys2) (arrow_metrics sys2) = (v', s', am') ->
    point v' = Some Exited \/ point v' = Some AtCatch \/ point v' = Some Aborted.
Proof.
  intros Hw Hp Hkeep Hr Hx Hwc Hpc Hst Hcatch Hab. split.
  - unfold loop_step. rewrite Hp, Hkeep, Hr. eexists. split; [reflexivity|].
    destruct e; cbn in Hx |- *; simplify_eq; [done|]. by destruct (is_runtime_error u); simplify_eq.
  - intros sys2 j v u2 v' s' am' Hrun Hv Hpv Hstep.
    assert (Hq : no_active (sched sys2)).
    { apply (steps_invariant _ (fun sy => no_active (sched sy)) quiet_step _ _ Hrun). cbn [sched].
      unfold loop_step in Hcatch. rewrite Hpc in Hcatch.
      destruct (request_topology_pause (sched sys1)) as [[[]| |] s0] eqn:Hpause; simplify_eq; [|done..].
      by eapply request_pause_no_active. }
    unfold loop_step in Hstep. rewrite Hpv in Hstep.
    destruct (next_assignment _ _ _ _ _ (sched sys2)) as [[b|e'|] s0] eqn:Hn.
    + apply no_active_no_assignment in Hn as ->; [|done]. simplify_eq. by left.
    + injection Hstep as <- _ _. unfold catch. destruct e'; cbn; auto. destruct (is_runtime_error u2); cbn; auto.
    + simplify_eq. by right; right.
Qed.

End Exceptions.

(** ** Witnesses *)

(** Two workers on a source and a stage: one has the source, the other the stage. *)
Definition quiet_turn : Turn := mkTurn 0 0 0 0 (Ok (mkReport ComeBackLater 0 1 0 0)) false.
Definition throwing_turn : Turn := mkTurn 0 0 0 0 (Throw (EJ (mkex "failed"))) false.
Definition no_callback (a : Z) : outcome unit := Ok tt.

Definition two_workers : list Action :=
  [AControl (CRun 0 2); ANewWorker 0 (make_settings 0 0 0 false); ANewWorker 0 (make_settings 1 1 0 false); AStart 0; AStart 1].

(** The controlling thread alone, and thread [i] alone. *)
Definition do_actions (l : list Action) (sys : System) : option System :=
  foldl (fun o a => sys ← o; act no_callback no_callback a sys) (Some sys) l.

Definition do_thread (i : nat) (u : Turn) (sys : System) : System :=
  match workers sys !! i with
  | None => sys
  | Some w =>
      let '(w', s', am') := loop_step no_callback u w (sched sys) (arrow_metrics sys) in
      mkSystem s' am' (<[i := w']> (workers sys)) (borrowed sys)
  end.

Lemma do_actions_steps l : forall sys sys',
  do_actions l sys = Some sys' -> steps (sys_step no_callback no_callback any_action) sys sys'.
Proof.
  unfold do_actions. induction l as [|a l IH]; intros sys sys' H; cbn in H; [simplify_eq; apply steps_refl|].
  destruct (act no_callback no_callback a sys) as [sys1|] eqn:Ha.
  - eapply steps_cons; [by eapply sy_act|]. by apply IH.
  - exfalso. clear IH Ha. induction l as [|b l IH]; [done|]. apply IH, H.
Qed.

Definition fresh : System := fresh_system [arrow_a; arrow_b] watch.
Definition launched : System := default fresh (do_actions two_workers fresh).
(** Both threads have got an arrow. *)
Definition both_busy : System :=
  do_thread 1 quiet_turn (do_thread 1 quiet_turn (do_thread 0 quiet_turn (do_thread 0 quiet_turn launched))).

Lemma thread_step i u sys :
  (forall w, workers (do_thread i u sys) !! i = Some w -> point w <> Some Aborted) -> is_Some (workers sys !! i) ->
  sys_step no_callback no_callback any_action sys (do_thread i u sys).
Proof.
  intros Hab [w Hw]. unfold do_thread in *. rewrite Hw in *.
  destruct (loop_step no_callback u w (sched sys) (arrow_metrics sys)) as [[w' s'] am'] eqn:Hs.
  eapply sy_thread; [exact Hw|exact Hs|]. apply Hab. cbn. rewrite list_lookup_insert_eq by (by eapply lookup_lt_Some). done.
Qed.

Lemma both_busy_reached : steps (sys_step no_callback no_callback any_action) fresh both_busy.
Proof.
  eapply steps_trans; [apply (do_actions_steps two_workers fresh launched); vm_compute; reflexivity|].
  unfold both_busy.
  do 2 (eapply steps_cons; [apply (thread_step 0 quiet_turn); [intros w Hw; vm_compute in Hw; by simplify_eq|vm_compute; by eexists]|]).
  do 2 (eapply steps_cons; [apply (thread_step 1 quiet_turn); [intros w Hw; vm_compute in Hw; by simplify_eq|vm_compute; by eexists]|]).
  apply steps_refl.
Qed.

Lemma threads_exclude_each_other_witness :
  held both_busy = [10; 20] /\ holders 10 (held both_busy) <= 1.
Proof.
  split; [vm_compute; reflexivity|].
  refine (proj1 (threads_exclude_each_other no_callback no_callback [arrow_a; arrow_b] watch both_busy arrow_a 1 _ both_busy_reached _)).
  - refine (bool_decide_unpack _ _). vm_compute. exact I.
  - vm_compute. apply list_elem_of_here.
Defined.

(** Six attempts that do not succeed. *)
Definition busy_worker : JWorker :=
  default (make_worker 0 (make_settings 0 0 0 false)) (workers both_busy !! 0%nat).

Lemma retries_are_bounded_witness :
  exists n w' s' am', run_turns no_callback (firstn n (replicate 6 quiet_turn)) busy_worker (sched both_busy) ∅ = (w', s', am') /\
    point w' = Some AtTop /\ WorkerMetrics.m_last_retry_time (m_worker_metrics w') <= 62.
Proof.
  destruct (retries_are_bounded no_callback busy_worker (sched both_busy) ∅ (mkAttempt 0 1 0 0 0 0) (replicate 6 quiet_turn)
    ltac:(vm_compute; reflexivity) eq_refl ltac:(vm_compute; reflexivity) ltac:(vm_compute; discriminate)
    ltac:(vm_compute; split; [discriminate|reflexivity]) ltac:(apply Forall_replicate; eexists; split; [reflexivity|discriminate])
    ltac:(vm_compute; discriminate)) as (n & w' & s' & am' & Hrun & _ & Htop & _ & Hret).
  exists n, w', s', am'. split; [exact Hrun|]. split; [exact Htop|exact Hret].
Defined.

(** The source throws, and its worker reaches the handler. *)
Definition failing : System := do_thread 0 throwing_turn both_busy.
Definition caught : JWorker := default busy_worker (workers failing !! 0%nat).
Definition caught_step : JWorker * TopologyState * Metrics :=
  loop_step no_callback quiet_turn caught (sched failing) (arrow_metrics failing).

Lemma exception_stops_everyone_witness :
  exists w', loop_step no_callback throwing_turn busy_worker (sched both_busy) (arrow_metrics both_busy)
      = (w', sched both_busy, arrow_metrics both_busy) /\ m_run_state w' = Excepted /\ m_exception w' = Some (mkex "failed").
Proof.
  destruct (exception_stops_everyone no_callback no_callback both_busy 0 busy_worker (mkAttempt 0 1 0 0 0 0) throwing_turn
    (EJ (mkex "failed")) (mkex "failed") caught quiet_turn failing caught_step.1.1 caught_step.1.2 caught_step.2
    ltac:(vm_compute; reflexivity) ltac:(vm_compute; reflexivity) ltac:(vm_compute; reflexivity) eq_refl eq_refl
    ltac:(vm_compute; reflexivity) ltac:(vm_compute; reflexivity) ltac:(vm_compute; reflexivity)
    ltac:(vm_compute; reflexivity) ltac:(vm_compute; discriminate)) as [(w' & Hstep & Hst & Hex & _) _].
  exists w'. auto.
Defined.

End Worker.
