(* ===== verification/JArrowProcessingController.v ===== *)
(** * JArrowProcessingController: launching, scaling and stopping the workers

    Model of [Engine/JArrowProcessingController.{h,cc}].  A method that controls workers and the scheduler is
    the list of actions that the calling thread takes on the system of [JWorker]; the threads of
    the workers take their steps in between.  Times are in microseconds. *)

From S2P Require Import Prelude JMetrics JScheduler JSchedulerStop JParameterManager JProcessorMapping JWorker.
Import Mapping ArrowMetrics Scheduler Worker.
Local Open Scope Z_scope.

Module Controller.

Record JArrowProcessingController := mkController {
  m_timeout_s : Z;
  m_warmup_timeout_s : Z;
  m_event_pool_size : Z;
  m_limit_total_events_in_flight : bool;
  mapping : Mapping.JProcessorMapping;
  sinks : list Z
}.

(** [new JWorker(this, m_scheduler, id, cpu, location, pin)]. *)
Definition new_worker (mp : Mapping.JProcessorMapping) (now next_worker_id : Z) : outcome Action :=
  next_cpu_id ← Mapping.get_cpu_id next_worker_id mp;
  next_loc_id ← Mapping.get_loc_id next_worker_id mp;
  let pin_to_cpu := negb (bool_decide (Mapping.m_affinity_strategy mp = Mapping.NoAffinity)) in
  Ok (ANewWorker now (make_settings next_worker_id next_cpu_id next_loc_id pin_to_cpu)).

(** [while (next_worker_id < nthreads)]. *)
Fixpoint new_workers (mp : Mapping.JProcessorMapping) (now : Z) (next_worker_id count : nat) : outcome (list Action) :=
  match count with
  | O => Ok []
  | S count =>
      a ← new_worker mp now (Z.of_nat next_worker_id);
      rest ← new_workers mp now (S next_worker_id) count;
      Ok (a :: rest)
  end.

Definition start_workers (nthreads : nat) : list Action := AStart <$> seq 0 nthreads.
Definition wait_for_workers (sys : System) : list Action := AWaitForStop <$> seq 0 (length (workers sys)).

Section Methods.
Context (japc : JArrowProcessingController).

Definition run (now : Z) (nthreads : nat) : outcome (list Action) :=
  ws ← new_workers (mapping japc) now 0 nthreads;
  Ok (AControl (CRun now (Z.of_nat nthreads)) :: ws ++ start_workers nthreads).

Definition scale (now : Z) (nthreads : nat) (sys : System) : outcome (list Action) :=
  let first := length (workers sys) in
  ws ← new_workers (mapping japc) now first (nthreads - first);
  Ok (AControl CPause :: wait_for_workers sys ++ AControl (CAchieve now) :: ws
      ++ AControl (CRun now (Z.of_nat nthreads)) :: start_workers nthreads).

Definition request_pause : list Action := [AControl CPause].
Definition wait_until_paused (now : Z) (sys : System) : list Action := wait_for_workers sys ++ [AControl (CAchieve now)].
Definition request_stop : list Action := [AControl CDrain].
Definition wait_until_stopped (now : Z) (sys : System) : list Action :=
  wait_for_workers sys ++ [AControl (CAchieve now); AControl CFinish].

(** The destructor, before it frees the workers. *)
Definition destroy (sys : System) : list Action :=
  (ARequestStop <$> seq 0 (length (workers sys))) ++ wait_for_workers sys.

Definition is_stopped (sys : System) : bool := bool_decide (current_topology_status (sched sys) = TPaused).
Definition is_finished (sys : System) : bool := bool_decide (current_topology_status (sched sys) = TFinalized).
Definition is_excepted (sys : System) : bool := existsb (fun w => bool_decide (m_run_state w = Excepted)) (workers sys).

Definition get_exceptions (sys : System) : list (option JException) :=
  m_exception <$> filter (fun w => m_run_state w = Excepted) (workers sys).

(** At any moment, [is_excepted] says whether [get_exceptions] has an element. *)
Lemma excepted_has_exception sys : is_excepted sys = true <-> get_exceptions sys <> [].
Proof.
  unfold is_excepted, get_exceptions. induction (workers sys) as [|w ws IH]; [done|]. cbn [existsb].
  rewrite filter_cons. case_decide as Hw; case_bool_decide; done.
Qed.

(** The effect of [measure_performance]: all workers publish, and the events at the sinks are counted. *)
Fixpoint measure_workers (ws : list JWorker) (am : Metrics) : list JWorker * Metrics :=
  match ws with
  | [] => ([], am)
  | w :: ws =>
      let '(w', am') := measure_perf w am in
      let '(ws', am'') := measure_workers ws am' in
      (w' :: ws', am'')
  end.

Definition event_count (am : Metrics) : Z :=
  foldl (fun n p => u64 (n + get_total_message_count (default clear (am !! p)))) 0 (sinks japc).

Definition measure_performance (now : Z) (sys : System) : System :=
  let '(ws, am) := measure_workers (workers sys) (arrow_metrics sys) in
  mkSystem (set_metrics (PerfMetrics.split now (event_count am) (metrics (sched sys))) (sched sys)) am ws (borrowed sys).

(** The time after which [is_timed_out] gives up on a worker. *)
Definition allowed_time (sys : System) : outcome Z :=
  let m := metrics (sched sys) in
  let uptime := PerfMetrics.last_time_ m - PerfMetrics.start_time_ m in
  let thread_count := PerfMetrics.thread_count_ m in
  if thread_count =? 0 then Undef else
  let warmup := u64 (m_warmup_timeout_s japc * m_event_pool_size japc) / thread_count in
  Ok (if uptime <? warmup * 10 ^ 6 then m_warmup_timeout_s japc
      else if negb (m_limit_total_events_in_flight japc) then m_warmup_timeout_s japc
      else m_timeout_s japc).

Definition overdue (now timeout_s : Z) (w : JWorker) : bool :=
  timeout_s * 10 ^ 6 <? now - WorkerMetrics.m_last_heartbeat (m_worker_metrics w).

Definition is_timed_out (now : Z) (sys : System) : outcome (bool * System) :=
  if m_timeout_s japc =? 0 then Ok (false, sys) else
  let sys := measure_performance now sys in
  timeout_s ← allowed_time sys;
  Ok (existsb (overdue now timeout_s) (workers sys),
      mkSystem (sched sys) (arrow_metrics sys)
        ((fun w => if overdue now timeout_s w then declare_timeout w else w) <$> workers sys) (borrowed sys)).

(** [execute_arrow]: [run_it] is what [execute] reports. *)
Definition execute_arrow (initialize finalize : Z -> outcome unit) (now pending : Z) (run_it : Report)
    (arrow_index : nat) (sys : System) : option (Status * System) :=
  sys1 ← act initialize finalize (ACheckout arrow_index) sys;
  match borrowed sys1 with
  | None => Some (Error, sys1)
  | Some _ =>
      let st := get_last_status (update (r_status run_it) (r_messages run_it) (r_visits run_it) (r_latency run_it)
                  (r_queue_latency run_it) clear) in
      sys2 ← act initialize finalize (ACheckin now st pending) sys1;
      Some (st, sys2)
  end.

End Methods.

(** ** Pausing ends *)

Section Pausing.
Context (initialize finalize : Z -> outcome unit).

(** A pause has been requested. *)
Definition resting (s : TopologyState) : Prop := no_active s /\ current_topology_status s <> TRunning.

Lemma request_pause_rests s s' : current_topology_status s = TRunning -> request_topology_pause s = (Ok tt, s') -> resting s'.
Proof.
  intros Hst Hp. split; [by eapply request_pause_no_active|]. unfold request_topology_pause in Hp.
  rewrite M_bind_get, Hst in Hp. apply M_bind_inv in Hp as (? & ? & _ & [= <-]). done.
Qed.

Lemma resting_step sys sys' : resting (sched sys) -> sys_step initialize finalize not_run sys sys' -> resting (sched sys').
Proof.
  intros [Hq Hr] Hstep. split; [by eapply quiet_step|]. pose proof (calm_step _ _ _ _ Hstep) as (_ & _ & Hc). auto.
Qed.

Lemma time_is_up u w t s am :
  point w = Some (AtTry t) -> start_time t + m_checkin_time (settings w) <= clock1 u ->
  let w' := (loop_step finalize u w s am).1.1 in
  point w' = Some AtTop /\ m_run_state w' = m_run_state w /\ m_thread w' = m_thread w.
Proof.
  intros Hp Hc. unfold loop_step. rewrite Hp.
  assert (Hk : keep_trying w t (clock1 u) = false).
  { unfold keep_trying. rewrite (proj2 (Z.ltb_ge _ _)) by lia. by rewrite !andb_false_r. }
  rewrite Hk. unfold end_turn, publish_metrics. destruct (m_assignment _) as [a|]; done.
Qed.

Lemma top_step u w s am :
  point w = Some AtTop -> m_run_state w = Running ->
  let w' := (loop_step finalize u w s am).1.1 in
  point w' = Some AtAsk /\ m_run_state w' = Running /\ m_thread w' = m_thread w.
Proof. intros Hp Hr. unfold loop_step. rewrite Hp, bool_decide_true by done. done. Qed.

(** The worker asks when nothing is active: it is told to stop, or its own checkin fails. *)
Lemma ask_step u w s am :
  point w = Some AtAsk -> no_active s ->
  let w' := (loop_step finalize u w s am).1.1 in
  m_thread w' = m_thread w /\
  match (next_assignment finalize (clock2 u) (m_assignment w) (last_result w) (pending u) s).1 with
  | Ok b => b = None /\ point w' = Some Exited /\ m_run_state w' = Stopped
  | Throw e =>
      match recorded e (is_runtime_error u) with
      | Some x => point w' = Some AtCatch /\ m_run_state w' = Excepted /\ m_exception w' = Some x
      | None => point w' = Some Aborted
      end
  | Undef => point w' = Some Aborted
  end.
Proof.
  intros Hp Hq. unfold loop_step. rewrite Hp.
  destruct (next_assignment _ _ _ _ _ s) as [[b|e|] s1] eqn:Hn; cbn [fst].
  - apply no_active_no_assignment in Hn as ->; [|done]. done.
  - unfold catch, recorded. destruct e; [|destruct (is_runtime_error u)|..]; done.
  - done.
Qed.

(** In the handler the pause is requested once more, in vain. *)
Lemma handler_step u w s am :
  point w = Some AtCatch -> current_topology_status s <> TRunning ->
  let w' := (loop_step finalize u w s am).1.1 in
  point w' = Some Exited /\ m_run_state w' = m_run_state w /\ m_exception w' = m_exception w /\ m_thread w' = m_thread w.
Proof.
  intros Hp Hs. unfold loop_step, request_topology_pause. rewrite Hp, M_bind_get. by destruct (current_topology_status s).
Qed.

Lemma wait_joins w : m_thread w = true -> point w = Some Exited -> m_run_state w = Stopped \/ m_run_state w = Excepted ->
  exists w', wait_for_stop w = Some w' /\ point w' = None /\ m_thread w' = false /\ m_run_state w' = m_run_state w /\ m_exception w' = m_exception w.
Proof.
  intros Ht Hp Hr. unfold wait_for_stop. rewrite Ht, Hp. cbn. destruct Hr as [Hr|Hr]; rewrite Hr; cbn; eexists; done.
Qed.


End Pausing.

(** ** Timeouts *)

Lemma measure_workers_states ws : forall am,
  length (measure_workers ws am).1 = length ws /\
  forall i w w', ws !! i = Some w -> (measure_workers ws am).1 !! i = Some w' ->
    m_run_state w' = m_run_state w /\ m_worker_metrics w' = m_worker_metrics w.
Proof.
  induction ws as [|w ws IH]; intros am; [split; [done|]; intros [|i] x y; done|]. cbn.
  assert (Hm : m_run_state (measure_perf w am).1 = m_run_state w /\ m_worker_metrics (measure_perf w am).1 = m_worker_metrics w).
  { unfold measure_perf, publish_metrics. by destruct (m_assignment w). }
  destruct (measure_perf w am) as [w1 am1]. destruct (IH am1) as [Hl Hs]. destruct (measure_workers ws am1) as [ws' am2].
  cbn in *. split; [by rewrite Hl|]. intros [|i] x y Hx Hy; cbn in *; [by simplify_eq|]. by eapply Hs.
Qed.

(** [is_timed_out] marks exactly the workers that have been silent for too long.  With a timeout of
    zero it does nothing.  Otherwise, on a topology that runs on at least one thread, it returns, and a
    worker is [TimedOut] afterwards if it was before or if its last heartbeat is older than the timeout
    (the one for warming up, while not every event of the pool has had time to be processed once, or if the
    pool may grow); it returns true if there is such a silent worker.  All other workers keep their state. *)
Theorem timeout_marks_silent_workers japc now sys :
  PerfMetrics.thread_count_ (metrics (sched sys)) <> 0 -> m_timeout_s japc <> 0 ->
  exists sys' timeout_s, is_timed_out japc now sys = Ok (existsb (overdue now timeout_s) (workers sys), sys') /\
    (timeout_s = m_timeout_s japc \/ timeout_s = m_warmup_timeout_s japc) /\
    (m_limit_total_events_in_flight japc = false -> timeout_s = m_warmup_timeout_s japc) /\
    length (workers sys') = length (workers sys) /\
    forall i w w', workers sys !! i = Some w -> workers sys' !! i = Some w' ->
      m_run_state w' = if overdue now timeout_s w then TimedOut else m_run_state w.
Proof.
  intros Hth Hto. unfold is_timed_out. rewrite (proj2 (Z.eqb_neq _ _)) by done.
  destruct (measure_workers_states (workers sys) (arrow_metrics sys)) as [Hlen Hst].
  unfold measure_performance. destruct (measure_workers _ _) as [ws am]. cbn [fst snd] in Hlen, Hst.
  unfold allowed_time. cbn [sched metrics set_metrics workers].
  assert (Hs : PerfMetrics.thread_count_ (PerfMetrics.split now (event_count japc am) (metrics (sched sys)))
    = PerfMetrics.thread_count_ (metrics (sched sys))) by (unfold PerfMetrics.split; by destruct (PerfMetrics.mode_ _)).
  rewrite Hs, (proj2 (Z.eqb_neq _ _)) by done. set (ts := if _ <? _ then _ else _).
  assert (Hover : forall i w w', workers sys !! i = Some w -> ws !! i = Some w' -> overdue now ts w' = overdue now ts w).
  { intros i w w' Hw Hw'. unfold overdue. by rewrite (proj2 (Hst i w w' Hw Hw')). }
  eexists _, ts. split.
  { cbn. do 2 f_equal. apply eq_true_iff_eq. rewrite !existsb_exists.
    split; intros (w & Hin%list_elem_of_In & Ho); apply list_elem_of_lookup in Hin as [i Hi].
    - destruct (lookup_lt_is_Some_2 (workers sys) i) as [v Hv]; [rewrite <- Hlen; by eapply lookup_lt_Some|].
      exists v. rewrite <- (Hover i v w Hv Hi). split; [|done]. apply list_elem_of_In. by eapply list_elem_of_lookup_2.
    - destruct (lookup_lt_is_Some_2 ws i) as [v Hv]; [rewrite Hlen; by eapply lookup_lt_Some|].
      exists v. rewrite (Hover i w v Hi Hv). split; [|done]. apply list_elem_of_In. by eapply list_elem_of_lookup_2. }
  split; [subst ts; repeat case_match; auto|]. split; [intros Hl; subst ts; rewrite Hl; by case_match|].
  cbn [workers]. split; [by rewrite length_fmap|]. intros i w w' Hw Hw'. rewrite list_lookup_fmap in Hw'.
  destruct (ws !! i) as [v|] eqn:Hv; [|done]. cbn in Hw'. injection Hw' as <-.
  rewrite (Hover i w v Hw Hv). destruct (Hst i w v Hw Hv) as [Hr _]. by destruct (overdue now ts w).
Qed.

(** ** Witnesses *)

(** A pause is requested while both workers are busy; a second later the first one looks at the clock. *)
Definition pausing : System :=
  mkSystem (request_topology_pause (sched both_busy)).2 (arrow_metrics both_busy) (workers both_busy) (borrowed both_busy).
Definition late_turn : Turn := mkTurn 1000000 0 0 0 (Ok (mkReport KeepGoing 1 1 0 0)) false.


Definition default_controller : JArrowProcessingController := mkController 8 30 4 true Mapping.make [20].

(** After two minutes without a heartbeat both workers have timed out. *)
Lemma timeout_marks_silent_workers_witness :
  exists sys', is_timed_out default_controller 120000000 both_busy = Ok (true, sys') /\
    forall i w, workers sys' !! i = Some w -> m_run_state w = TimedOut.
Proof.
  destruct (timeout_marks_silent_workers default_controller 120000000 both_busy
    ltac:(vm_compute; discriminate) ltac:(vm_compute; discriminate)) as (sys' & ts & Hrun & Hts & _ & Hlen & Hall).
  assert (Hov : Forall (fun w => overdue 120000000 ts w = true) (workers both_busy)).
  { destruct Hts as [-> | ->]; refine (bool_decide_unpack _ _); vm_compute; exact I. }
  exists sys'. rewrite Hrun. split.
  - f_equal. f_equal. apply existsb_exists. exists busy_worker. split; [by left|]. exact (Forall_inv Hov).
  - intros i w Hw. destruct (lookup_lt_is_Some_2 (workers both_busy) i) as [v Hv]; [rewrite <- Hlen; by eapply lookup_lt_Some|].
    rewrite (Hall i v w Hv Hw). by rewrite (Forall_lookup_1 _ _ _ _ Hov Hv).
Defined.

End Controller.
