(* ===== verification/JApplication.v ===== *)
(** * JApplication: initialization, the supervising loop, the inspector, and shutting down

    Model of [JApplication.cc] and of the session of [InspectApplication].  The application drives the
    services; it is seen by its own members and by the calls that it makes, which are written down in
    order ([trace]).  How a call ends may depend on everything that was called before: it is an argument
    ([responds]), and so is whether user code calls [Stop] meanwhile ([stops]).  What the
    controller and the sources report while [Run] waits is one [Tick] per turn of its loop.  A null
    [m_processing_controller] is [m_controller = false]; [m_measured] says that [m_perf_summary] is not
    null.  The parameters are those of the parameter manager.  [japp] is this application.  Other threads
    change [m_quitting], [m_skip_join] and [m_inspecting] only. *)

From Stdlib Require Import DecimalString.
From S2P Require Import Prelude JParameterManager.
Import Parameters.
Local Open Scope Z_scope.

Module Application.

Inductive ExitCode := Success | UnhandledException | Timeout | Segfault.

Definition code (e : ExitCode) : Z :=
  match e with Success => 0 | UnhandledException => 1 | Timeout => 2 | Segfault => 139 end.

(** The calls that an application makes. *)
Inductive Call :=
| GetLoggingService | GetComponentManager | GetPluginLoader | GetTopologyBuilder
| AttachPlugins | ConfigureComponents | CreateTopology
| ProvideController | GetController | InitializeController
| RunController (nthreads : Z) | ScaleController (nthreads : Z)
| RequestPause | WaitUntilPaused | RequestStop | WaitUntilStopped
| PrintReport | MeasurePerformance | PrintFinalReport | ExecuteArrow (arrow_id : Z)
| Exit (exit_code : Z).

Record JApplication := mkJApplication {
  m_controller : bool;
  m_inspecting : bool;
  m_quitting : bool;
  m_draining_queues : bool;
  m_skip_join : bool;
  m_initialized : bool;
  m_services_available : bool;
  m_ticker_on : bool;
  m_timeout_on : bool;
  m_extended_report : bool;
  m_exit_code : Z;
  m_desired_nthreads : Z;
  m_sigint_count : Z;
  m_ticker_interval_ms : Z;
  m_measured : bool;
  m_params : JParameterManager;
  trace : list Call
}.

Definition set_controller (v : bool) (a : JApplication) : JApplication :=
  mkJApplication v (m_inspecting a) (m_quitting a) (m_draining_queues a) (m_skip_join a)
    (m_initialized a) (m_services_available a) (m_ticker_on a) (m_timeout_on a) (m_extended_report a)
    (m_exit_code a) (m_desired_nthreads a) (m_sigint_count a) (m_ticker_interval_ms a) (m_measured a)
    (m_params a) (trace a).
Definition set_inspecting (v : bool) (a : JApplication) : JApplication :=
  mkJApplication (m_controller a) v (m_quitting a) (m_draining_queues a) (m_skip_join a)
    (m_initialized a) (m_services_available a) (m_ticker_on a) (m_timeout_on a) (m_extended_report a)
    (m_exit_code a) (m_desired_nthreads a) (m_sigint_count a) (m_ticker_interval_ms a) (m_measured a)
    (m_params a) (trace a).
Definition set_quitting (v : bool) (a : JApplication) : JApplication :=
  mkJApplication (m_controller a) (m_inspecting a) v (m_draining_queues a) (m_skip_join a)
    (m_initialized a) (m_services_available a) (m_ticker_on a) (m_timeout_on a) (m_extended_report a)
    (m_exit_code a) (m_desired_nthreads a) (m_sigint_count a) (m_ticker_interval_ms a) (m_measured a)
    (m_params a) (trace a).
Definition set_draining_queues (v : bool) (a : JApplication) : JApplication :=
  mkJApplication (m_controller a) (m_inspecting a) (m_quitting a) v (m_skip_join a)
    (m_initialized a) (m_services_available a) (m_ticker_on a) (m_timeout_on a) (m_extended_report a)
    (m_exit_code a) (m_desired_nthreads a) (m_sigint_count a) (m_ticker_interval_ms a) (m_measured a)
    (m_params a) (trace a).
Definition set_skip_join (v : bool) (a : JApplication) : JApplication :=
  mkJApplication (m_controller a) (m_inspecting a) (m_quitting a) (m_draining_queues a) v
    (m_initialized a) (m_services_available a) (m_ticker_on a) (m_timeout_on a) (m_extended_report a)
    (m_exit_code a) (m_desired_nthreads a) (m_sigint_count a) (m_ticker_interval_ms a) (m_measured a)
    (m_params a) (trace a).
Definition set_initialized (v : bool) (a : JApplication) : JApplication :=
  mkJApplication (m_controller a) (m_inspecting a) (m_quitting a) (m_draining_queues a) (m_skip_join a)
    v (m_services_available a) (m_ticker_on a) (m_timeout_on a) (m_extended_report a)
    (m_exit_code a) (m_desired_nthreads a) (m_sigint_count a) (m_ticker_interval_ms a) (m_measured a)
    (m_params a) (trace a).
Definition set_services_available (v : bool) (a : JApplication) : JApplication :=
  mkJApplication (m_controller a) (m_inspecting a) (m_quitting a) (m_draining_queues a) (m_skip_join a)
    (m_initialized a) v (m_ticker_on a) (m_timeout_on a) (m_extended_report a)
    (m_exit_code a) (m_desired_nthreads a) (m_sigint_count a) (m_ticker_interval_ms a) (m_measured a)
    (m_params a) (trace a).
Definition SetTicker (v : bool) (a : JApplication) : JApplication :=
  mkJApplication (m_controller a) (m_inspecting a) (m_quitting a) (m_draining_queues a) (m_skip_join a)
    (m_initialized a) (m_services_available a) v (m_timeout_on a) (m_extended_report a)
    (m_exit_code a) (m_desired_nthreads a) (m_sigint_count a) (m_ticker_interval_ms a) (m_measured a)
    (m_params a) (trace a).
Definition SetTimeoutEnabled (v : bool) (a : JApplication) : JApplication :=
  mkJApplication (m_controller a) (m_inspecting a) (m_quitting a) (m_draining_queues a) (m_skip_join a)
    (m_initialized a) (m_services_available a) (m_ticker_on a) v (m_extended_report a)
    (m_exit_code a) (m_desired_nthreads a) (m_sigint_count a) (m_ticker_interval_ms a) (m_measured a)
    (m_params a) (trace a).
Definition set_extended_report (v : bool) (a : JApplication) : JApplication :=
  mkJApplication (m_controller a) (m_inspecting a) (m_quitting a) (m_draining_queues a) (m_skip_join a)
    (m_initialized a) (m_services_available a) (m_ticker_on a) (m_timeout_on a) v
    (m_exit_code a) (m_desired_nthreads a) (m_sigint_count a) (m_ticker_interval_ms a) (m_measured a)
    (m_params a) (trace a).
Definition SetExitCode (v : Z) (a : JApplication) : JApplication :=
  mkJApplication (m_controller a) (m_inspecting a) (m_quitting a) (m_draining_queues a) (m_skip_join a)
    (m_initialized a) (m_services_available a) (m_ticker_on a) (m_timeout_on a) (m_extended_report a)
    v (m_desired_nthreads a) (m_sigint_count a) (m_ticker_interval_ms a) (m_measured a)
    (m_params a) (trace a).
Definition set_desired_nthreads (v : Z) (a : JApplication) : JApplication :=
  mkJApplication (m_controller a) (m_inspecting a) (m_quitting a) (m_draining_queues a) (m_skip_join a)
    (m_initialized a) (m_services_available a) (m_ticker_on a) (m_timeout_on a) (m_extended_report a)
    (m_exit_code a) v (m_sigint_count a) (m_ticker_interval_ms a) (m_measured a)
    (m_params a) (trace a).
Definition set_sigint_count (v : Z) (a : JApplication) : JApplication :=
  mkJApplication (m_controller a) (m_inspecting a) (m_quitting a) (m_draining_queues a) (m_skip_join a)
    (m_initialized a) (m_services_available a) (m_ticker_on a) (m_timeout_on a) (m_extended_report a)
    (m_exit_code a) (m_desired_nthreads a) v (m_ticker_interval_ms a) (m_measured a)
    (m_params a) (trace a).
Definition set_ticker_interval_ms (v : Z) (a : JApplication) : JApplication :=
  mkJApplication (m_controller a) (m_inspecting a) (m_quitting a) (m_draining_queues a) (m_skip_join a)
    (m_initialized a) (m_services_available a) (m_ticker_on a) (m_timeout_on a) (m_extended_report a)
    (m_exit_code a) (m_desired_nthreads a) (m_sigint_count a) v (m_measured a)
    (m_params a) (trace a).
Definition set_measured (v : bool) (a : JApplication) : JApplication :=
  mkJApplication (m_controller a) (m_inspecting a) (m_quitting a) (m_draining_queues a) (m_skip_join a)
    (m_initialized a) (m_services_available a) (m_ticker_on a) (m_timeout_on a) (m_extended_report a)
    (m_exit_code a) (m_desired_nthreads a) (m_sigint_count a) (m_ticker_interval_ms a) v
    (m_params a) (trace a).
Definition set_params (v : JParameterManager) (a : JApplication) : JApplication :=
  mkJApplication (m_controller a) (m_inspecting a) (m_quitting a) (m_draining_queues a) (m_skip_join a)
    (m_initialized a) (m_services_available a) (m_ticker_on a) (m_timeout_on a) (m_extended_report a)
    (m_exit_code a) (m_desired_nthreads a) (m_sigint_count a) (m_ticker_interval_ms a) (m_measured a)
    v (trace a).
Definition set_trace (v : list Call) (a : JApplication) : JApplication :=
  mkJApplication (m_controller a) (m_inspecting a) (m_quitting a) (m_draining_queues a) (m_skip_join a)
    (m_initialized a) (m_services_available a) (m_ticker_on a) (m_timeout_on a) (m_extended_report a)
    (m_exit_code a) (m_desired_nthreads a) (m_sigint_count a) (m_ticker_interval_ms a) (m_measured a)
    (m_params a) v.

Definition new_application (params : JParameterManager) : JApplication :=
  mkJApplication false false false false false false false true
    true false (code Success) 0 0 1000 false params [].

Abbreviation MA := (M JApplication).

Definition log (c : Call) : MA unit := modify (fun a => set_trace (trace a ++ [c]) a).

Definition on_params {A} (m : M JParameterManager A) : MA A := fun a =>
  let '(r, ps) := m (m_params a) in (r, set_params ps a).

(** What the called code does: how a call ends, and whether it calls [Stop]. *)
Record Environment := mkEnvironment {
  responds : list Call -> Call -> outcome unit;
  stops : list Call -> Call -> bool
}.

Section Running.
Context (int_codec : Codec Z) (num_cpus : Z) (env : Environment).

Definition call (c : Call) : MA unit :=
  past ← gets trace;
  _ ← log c;
  lift (responds env past c).

(** A call through [m_processing_controller]. *)
Definition controller (c : Call) : MA unit :=
  present ← gets m_controller;
  if present : bool then call c else lift Undef.

(** ** Stopping *)

Definition Stop (wait_until_idle : bool) : MA unit :=
  initialized ← gets m_initialized;
  if negb initialized then modify (set_quitting true)
  else
    _ ← controller RequestStop;
    if wait_until_idle then controller WaitUntilStopped else mret tt.

(** [Quit]: the process has exited when it returns. *)
Definition Quit (skip_join : bool) : MA unit :=
  initialized ← gets m_initialized;
  _ ← (if initialized : bool then
         _ ← modify (set_skip_join skip_join);
         _ ← modify (set_quitting true);
         present ← gets m_controller;
         if negb skip_join && present then Stop true else mret tt
       else mret tt);
  exit_code ← gets m_exit_code;
  log (Exit exit_code).

Definition Scale (nthreads : Z) : MA unit := controller (ScaleController (u64 nthreads)).

(** ** Initialization *)

(** A call that runs the code of services, plugins and components. *)
Definition user_call (c : Call) : MA unit :=
  past ← gets trace;
  _ ← log c;
  _ ← (if stops env past c then Stop false else mret tt);
  lift (responds env past c).

Definition Initialize : MA unit :=
  initialized ← gets m_initialized;
  if initialized : bool then mret tt
  else
    _ ← modify (set_services_available true);
    _ ← user_call GetLoggingService;
    _ ← user_call GetComponentManager;
    _ ← user_call GetPluginLoader;
    _ ← user_call GetTopologyBuilder;
    _ ← user_call AttachPlugins;
    _ ← user_call ConfigureComponents;
    _ ← modify (set_desired_nthreads 1);
    n ← on_params (@SetDefaultParameter Z int_codec "nthreads" 1
          "Desired number of worker threads, or 'Ncores' to use all available cores.");
    _ ← modify (set_desired_nthreads n);
    named ← on_params (GetParameterValue (T := string) "nthreads");
    _ ← (if bool_decide (named = "Ncores"%string) then modify (set_desired_nthreads num_cpus) else mret tt);
    interval ← gets m_ticker_interval_ms;
    interval ← on_params (@SetDefaultParameter Z int_codec "jana:ticker_interval" interval
          "Controls the ticker interval (in ms)");
    _ ← modify (set_ticker_interval_ms interval);
    extended ← gets m_extended_report;
    extended ← on_params (SetDefaultParameter "jana:extended_report" extended
          "Controls whether the ticker shows simple vs detailed performance metrics");
    _ ← modify (set_extended_report extended);
    _ ← user_call CreateTopology;
    _ ← user_call ProvideController;
    _ ← user_call GetController;
    _ ← modify (set_controller true);
    _ ← controller InitializeController;
    modify (set_initialized true).

(** The beginning of [Run]: false if the application is quitting. *)
Definition launch : MA bool :=
  _ ← Initialize;
  quitting ← gets m_quitting;
  if quitting : bool then mret false
  else
    _ ← on_params (@PrintParameters_default int_codec);
    nthreads ← gets m_desired_nthreads;
    _ ← controller (RunController (u64 nthreads));
    mret true.

(** ** The inspector *)

(** What the user types; [Look] is every command that only prints, and every line that is not a command. *)
Inductive Command := Look | Fire (arrow_id : Z) | Resume | ScaleTo (nthreads : Z) | QuitNow.

(** How the session, one turn of the loop, or [Run] ends. *)
Inductive LoopEnd := Continue | Break | Exited | Waiting.

(** [catch (...)]: the session goes on; [k] is what follows if there is no exception. *)
Definition or_next {A B} (m : MA A) (next : MA B) (k : A -> MA B) : MA B := fun a =>
  match m a with
  | (Ok x, a') => k x a'
  | (Throw _, a') => next a'
  | (Undef, a') => (Undef, a')
  end.

(** The prompt; it waits when the user has typed nothing more. *)
Fixpoint session (commands : list Command) : MA LoopEnd :=
  match commands with
  | [] => mret Waiting
  | Look :: rest => session rest
  | Fire id :: rest => or_next (controller (ExecuteArrow id)) (session rest) (fun _ => session rest)
  | Resume :: rest => or_next launch (session rest) (fun _ => mret Continue)
  | ScaleTo n :: rest => or_next (Scale n) (session rest) (fun _ => mret Continue)
  | QuitNow :: rest => or_next (Quit true) (session rest) (fun _ => mret Exited)
  end.

Definition InspectApplication (commands : list Command) : MA LoopEnd :=
  _ ← controller RequestPause;
  _ ← controller WaitUntilPaused;
  _ ← modify (SetTimeoutEnabled false);
  session commands.

Definition Inspect (commands : list Command) : MA LoopEnd :=
  e ← InspectApplication commands;
  match e with
  | Continue =>
      _ ← modify (set_sigint_count 0);
      _ ← modify (set_inspecting false);
      mret Continue
  | e => mret e
  end.

(** [HandleSigint]: whether the process has exited. *)
Definition HandleSigint : MA bool :=
  _ ← modify (fun a => set_sigint_count (m_sigint_count a + 1) a);
  n ← gets m_sigint_count;
  if n =? 1 then
    _ ← modify (set_inspecting true);
    _ ← controller RequestPause;
    mret false
  else
    _ ← (if n =? 2 then Quit false else if n =? 3 then Quit true else log (Exit (-2)));
    mret true.

(** ** Status *)

Definition update_status (elapsed : bool) : MA unit :=
  measured ← gets m_measured;
  if elapsed || negb measured then
    _ ← controller MeasurePerformance;
    modify (set_measured true)
  else mret tt.

Definition PrintStatus (elapsed : bool) : MA unit :=
  extended ← gets m_extended_report;
  if extended : bool then controller PrintReport else update_status elapsed.

(** ** The supervising loop *)

(** What happens in one turn: another thread has called [Quit] with this [skip_join], or has asked for
    the inspector; whether the sources are [Finalized]; the answers of the controller; whether a new
    measurement is due; the lines typed into the inspector.  [is_excepted] is true exactly if [get_exceptions]
    is not empty. *)
Record Tick := mkTick {
  quit_called : option bool;
  inspect_called : bool;
  sources_finalized : list bool;
  is_stopped : bool;
  is_finished : bool;
  elapsed : bool;
  is_timed_out : bool;
  exceptions : list JException;
  typed : list Command
}.

Definition other_threads (t : Tick) : MA unit :=
  _ ← (match quit_called t with
       | Some skip => _ ← modify (set_skip_join skip); modify (set_quitting true)
       | None => mret tt
       end);
  if inspect_called t then modify (set_inspecting true) else mret tt.

(** [throw m_processing_controller->get_exceptions()[0]], if a worker has failed. *)
Definition rethrow (stop : bool) (exs : list JException) : MA unit :=
  match exs with
  | [] => mret tt
  | ex :: _ =>
      _ ← modify (SetExitCode (code UnhandledException));
      _ ← (if stop then controller RequestStop else mret tt);
      lift (Throw (EJ ex))
  end.

(** One turn of the loop in [Run]. *)
Definition supervise (t : Tick) : MA LoopEnd :=
  _ ← other_threads t;
  quitting ← gets m_quitting;
  if quitting : bool then mret Break
  else
    draining ← gets m_draining_queues;
    _ ← (if draining : bool then mret tt
         else modify (set_draining_queues (forallb id (sources_finalized t))));
    if is_stopped t then mret Break
    else if is_finished t then mret Break
    else
      ticker_on ← gets m_ticker_on;
      _ ← (if ticker_on : bool then PrintStatus (elapsed t) else mret tt);
      timeout_on ← gets m_timeout_on;
      if timeout_on && is_timed_out t then
        _ ← modify (SetExitCode (code Timeout));
        _ ← controller RequestStop;
        mret Break
      else
        _ ← rethrow true (exceptions t);
        inspecting ← gets m_inspecting;
        if inspecting : bool then Inspect (typed t) else mret Continue.

(** The loop; it is still [Waiting] after the given turns if nothing has ended it. *)
Fixpoint monitor (ticks : list Tick) : MA LoopEnd :=
  match ticks with
  | [] => mret Waiting
  | t :: ticks =>
      e ← supervise t;
      match e with Continue => monitor ticks | e => mret e end
  end.

(** The end of [Run]; [last] are the exceptions that the controller reports then. *)
Definition finish_run (last : list JException) : MA unit :=
  skip_join ← gets m_skip_join;
  _ ← (if skip_join : bool then mret tt else controller WaitUntilStopped);
  _ ← controller PrintFinalReport;
  rethrow false last.

(** [Run]: [Break] if it has returned. *)
Definition Run (wait_until_finished : bool) (ticks : list Tick) (last : list JException) : MA LoopEnd :=
  launched ← launch;
  if negb (launched && wait_until_finished) then mret Break
  else
    e ← monitor ticks;
    match e with
    | Break => _ ← finish_run last; mret Break
    | e => mret e
    end.

(** ** Access to parameters and services *)

Section Guards.
Context {T : Type} `{Codec T}.

Definition SetParameterValue (name : string) (val : T) : MA unit :=
  initialized ← gets m_initialized;
  if initialized : bool
  then throwM "SetParameterValue() must be called before Initialize(), as otherwise the parameter value won't be used!"
  else on_params (SetParameter name val).

End Guards.

End Running.

(** ** Initialization makes its calls in order *)

Definition is_ok {A} (r : outcome A) : bool := match r with Ok _ => true | _ => false end.

Definition init_calls : list Call :=
  [GetLoggingService; GetComponentManager; GetPluginLoader; GetTopologyBuilder; AttachPlugins; ConfigureComponents;
   CreateTopology; ProvideController; GetController; InitializeController].

(** [m] starts on an application that is not initialized and makes the calls [cs], or, if it does not return, the
    first of them; the application is initialized afterwards only if [b], and only if [m] returned. *)
Definition logs {A} (b : bool) (cs : list Call) (m : MA A) : Prop := forall a, m_initialized a = false ->
  let '(r, a') := m a in
  m_initialized a' = b && is_ok r /\
  exists made missing, cs = made ++ missing /\ trace a' = trace a ++ made /\ (is_ok r = true -> missing = []).

Lemma logs_bind {A B} b cs1 cs2 (m : MA A) (k : A -> MA B) :
  logs false cs1 m -> (forall x, logs b cs2 (k x)) -> logs b (cs1 ++ cs2) (x ← m; k x).
Proof.
  intros Hm Hk a Ha. specialize (Hm a Ha). unfold mbind, M_bind. destruct (m a) as [[x|e|] a1].
  - destruct Hm as (Hi & made & missing & -> & Ht & Hd). rewrite (Hd eq_refl), app_nil_r in *.
    specialize (Hk x a1 Hi). destruct (k x a1) as [r a2]. destruct Hk as (Hi2 & made2 & missing2 & -> & Ht2 & Hd2).
    split; [done|]. exists (made ++ made2), missing2. by rewrite Ht2, Ht, !app_assoc.
  - destruct Hm as (Hi & made & missing & -> & Ht & _). split; [cbn in *; by rewrite andb_false_r|].
    exists made, (missing ++ cs2). by rewrite app_assoc.
  - destruct Hm as (Hi & made & missing & -> & Ht & _). split; [cbn in *; by rewrite andb_false_r|].
    exists made, (missing ++ cs2). by rewrite app_assoc.
Qed.

(** A step that makes no call. *)
Lemma logs_silent {A} (m : MA A) :
  (forall a, m_initialized (m a).2 = m_initialized a /\ trace (m a).2 = trace a) -> logs false [] m.
Proof.
  intros H a Ha. specialize (H a). destruct (m a) as [r a']. cbn in H. destruct H as [Hi Ht].
  split; [by rewrite Hi|]. exists [], []. rewrite Ht. split_and!; [done|by rewrite app_nil_r|done].
Qed.

Lemma logs_on_params {A} (m : M JParameterManager A) : logs false [] (on_params m).
Proof. apply logs_silent. intros a. unfold on_params. by destruct (m (m_params a)). Qed.

Lemma logs_user env c : logs false [c] (user_call env c).
Proof.
  intros a Ha. unfold user_call. autorewrite with monad. unfold log. autorewrite with monad.
  unfold mbind, M_bind. destruct (stops env (trace a) c).
  - unfold Stop. rewrite M_bind_gets. cbn. rewrite Ha. cbn. split; [done|]. by exists [c], [].
  - cbn. split; [done|]. by exists [c], [].
Qed.

Lemma logs_controller env c : logs false [c] (_ ← modify (set_controller true); controller env c).
Proof.
  intros a Ha. autorewrite with monad. unfold controller. rewrite M_bind_gets. cbn -[call].
  unfold call. autorewrite with monad. unfold log. autorewrite with monad. cbn. split; [done|]. by exists [c], [].
Qed.

Lemma logs_initialized : logs true [] (modify (set_initialized true)).
Proof. intros a Ha. cbn. split; [done|]. exists [], []. split_and!; [done|by rewrite app_nil_r|done]. Qed.

Lemma logs_modify {A} b cs (f : JApplication -> JApplication) (k : unit -> MA A) :
  (forall a, m_initialized (f a) = m_initialized a /\ trace (f a) = trace a) ->
  logs b cs (k tt) -> logs b cs (x ← modify f; k x).
Proof. intros Hf Hk. apply (logs_bind b [] cs); [by apply logs_silent|by intros []]. Qed.

(** One step of [Initialize]. *)
Ltac logs_step :=
  lazymatch goal with
  | |- logs _ _ (mbind _ (user_call _ _)) => eapply (logs_bind _ [_]); [apply logs_user|intros _]
  | |- logs _ _ (mbind _ (on_params _)) => eapply (logs_bind _ []); [apply logs_on_params|intros ?]
  | |- logs _ _ (mbind _ (modify _)) => apply logs_modify; [done|]
  | |- logs _ _ (mbind _ _) => eapply (logs_bind _ []); [apply logs_silent; intros ?; repeat case_match; done|intros ?]
  end; cbn beta.

Lemma Initialize_logs int_codec num_cpus env a : m_initialized a = false ->
  let '(r, a') := Initialize int_codec num_cpus env a in
  m_initialized a' = is_ok r /\
  exists made missing, init_calls = made ++ missing /\ trace a' = trace a ++ made /\ (is_ok r = true -> missing = []).
Proof.
  intros Ha. unfold Initialize. rewrite M_bind_gets, Ha. revert a Ha.
  match goal with |- forall a, _ -> let '(_, _) := ?m a in _ => change (logs true init_calls m) end.
  unfold init_calls. do 21 logs_step. intros a Ha. rewrite <- M_bind_assoc. revert a Ha.
  apply (logs_bind true [_] []); [apply logs_controller|intros _; apply logs_initialized].
Qed.

(** Initialization happens once and in a fixed order.  On an application that is already initialized
    [Initialize] does nothing.  Otherwise the calls that it makes are the services in the order of the code, then the
    plugins, the components, the topology and the controller: all of them if it returns, and
    the first few of them if a call throws or a parameter does not parse.  The application
    counts as initialized exactly if [Initialize] has returned. *)
Theorem initialization_in_order int_codec num_cpus env a :
  let '(r, a') := Initialize int_codec num_cpus env a in
  if m_initialized a then r = Ok tt /\ a' = a
  else m_initialized a' = is_ok r /\
    exists made missing, init_calls = made ++ missing /\ trace a' = trace a ++ made /\ (is_ok r = true -> missing = []).
Proof.
  destruct (m_initialized a) eqn:Ha.
  - unfold Initialize. by rewrite M_bind_gets, Ha.
  - by apply Initialize_logs.
Qed.

(** ** How [Run] ends *)

(** The members that decide how [Run] ends. *)
Definition same_course (a a' : JApplication) : Prop :=
  m_controller a' = m_controller a /\ m_quitting a' = m_quitting a /\ m_inspecting a' = m_inspecting a /\
  m_skip_join a' = m_skip_join a /\ m_exit_code a' = m_exit_code a /\ m_timeout_on a' = m_timeout_on a.

(** The application supervises running workers. *)
Definition supervising (a : JApplication) : Prop :=
  m_controller a = true /\ m_quitting a = false /\ m_inspecting a = false /\ m_skip_join a = false.

(** No other thread interferes in this turn. *)
Definition undisturbed (t : Tick) : Prop := quit_called t = None /\ inspect_called t = false.

(** The controller reports that the workers have ended by themselves, or the turn times out. *)
Definition has_ended (t : Tick) : bool := is_stopped t || is_finished t.
Definition times_out (a : JApplication) (t : Tick) : bool := negb (has_ended t) && m_timeout_on a && is_timed_out t.

Definition uneventful (a : JApplication) (t : Tick) : Prop :=
  undisturbed t /\ has_ended t = false /\ times_out a t = false /\ exceptions t = [].

Section Ending.
Context (int_codec : Codec Z) (num_cpus : Z) (env : Environment).
Hypothesis all_return : forall past c, responds env past c = Ok tt.

Lemma controller_returns c a : m_controller a = true -> controller env c a = (Ok tt, set_trace (trace a ++ [c]) a).
Proof.
  intros Hc. unfold controller. rewrite M_bind_gets, Hc. unfold call, log. autorewrite with monad.
  unfold lift. by rewrite all_return.
Qed.

Lemma PrintStatus_returns e a : m_controller a = true ->
  exists a', PrintStatus env e a = (Ok tt, a') /\ same_course a a'.
Proof.
  intros Hc. unfold PrintStatus, update_status. rewrite M_bind_gets. destruct (m_extended_report a).
  - rewrite controller_returns by done. by eexists.
  - rewrite M_bind_gets. destruct (e || negb (m_measured a)); [|by eexists].
    mstep (controller_returns MeasurePerformance a Hc). by eexists.
Qed.

Lemma same_course_trans a b c : same_course a b -> same_course b c -> same_course a c.
Proof. unfold same_course. intuition congruence. Qed.

Lemma draining_returns t a : exists a',
  (if m_draining_queues a then mret tt else modify (set_draining_queues (forallb id (sources_finalized t)))) a = (Ok tt, a')
  /\ same_course a a'.
Proof. destruct (m_draining_queues a); by eexists. Qed.

Lemma ticker_returns t a : m_controller a = true -> exists a',
  (if m_ticker_on a then PrintStatus env (elapsed t) else mret tt) a = (Ok tt, a') /\ same_course a a'.
Proof. intros Hc. destruct (m_ticker_on a); [by apply PrintStatus_returns|by eexists]. Qed.

(** A turn in which no other thread interferes. *)
Lemma supervise_undisturbed t a : supervising a -> undisturbed t -> exists a',
  same_course a a' /\ supervise int_codec num_cpus env t a =
    (if has_ended t then (Ok Break, a')
     else if m_timeout_on a && is_timed_out t then (Ok Break, set_trace (trace a' ++ [RequestStop]) (SetExitCode (code Timeout) a'))
     else match exceptions t with
          | ex :: _ => (Throw (EJ ex), set_trace (trace a' ++ [RequestStop]) (SetExitCode (code UnhandledException) a'))
          | [] => (Ok Continue, a')
          end).
Proof.
  intros (Hc & Hq & Hi & Hs) [Hquit Hinsp]. unfold supervise, other_threads. rewrite Hquit, Hinsp.
  change (_ ← mret tt; mret tt) with (mret tt : MA unit). rewrite M_bind_ret, M_bind_gets, Hq, M_bind_gets.
  destruct (draining_returns t a) as (a1 & E1 & C1). mstep E1. unfold has_ended.
  destruct (is_stopped t); [by exists a1|]. destruct (is_finished t); [by exists a1|]. rewrite M_bind_gets. cbn [orb].
  destruct (ticker_returns t a1) as (a2 & E2 & C2); [by rewrite (proj1 C1)|]. mstep E2. rewrite M_bind_gets.
  exists a2. pose proof (same_course_trans _ _ _ C1 C2) as C. split; [done|].
  destruct C as (Cc & _ & Ci & _ & _ & Ct). rewrite Ct. rewrite Hc in Cc. rewrite Hi in Ci.
  destruct (m_timeout_on a && is_timed_out t).
  - rewrite M_bind_modify. by mstep (controller_returns RequestStop (SetExitCode (code Timeout) a2) Cc).
  - unfold rethrow. destruct (exceptions t) as [|ex exs].
    + by rewrite M_bind_ret, M_bind_gets, Ci.
    + apply M_bind_throw. rewrite M_bind_modify.
      by mstep (controller_returns RequestStop (SetExitCode (code UnhandledException) a2) Cc).
Qed.

Lemma monitor_waits pre ticks a : supervising a -> Forall (uneventful a) pre ->
  exists a', same_course a a' /\ monitor int_codec num_cpus env (pre ++ ticks) a = monitor int_codec num_cpus env ticks a'.
Proof.
  revert a. induction pre as [|t pre IH]; intros a Ha Hpre; [by exists a|].
  apply Forall_cons in Hpre as [(Hu & He & Hto & Hex) Hpre]. unfold times_out in Hto. rewrite He in Hto. cbn in Hto.
  destruct (supervise_undisturbed t a Ha Hu) as (a1 & C1 & E1). rewrite He, Hto, Hex in E1.
  destruct (IH a1) as (a2 & C2 & E2).
  - unfold supervising. by destruct C1 as (-> & -> & -> & -> & _).
  - eapply Forall_impl; [exact Hpre|]. intros u. unfold uneventful, times_out. by destruct C1 as (_ & _ & _ & _ & _ & ->).
  - exists a2. split; [by eapply same_course_trans|]. cbn [app monitor]. by mstep E1.
Qed.

Lemma finish_run_ends last a : m_controller a = true -> m_skip_join a = false ->
  finish_run env last a =
    let a' := set_trace (trace a ++ [WaitUntilStopped; PrintFinalReport]) a in
    match last with
    | ex :: _ => (Throw (EJ ex), SetExitCode (code UnhandledException) a')
    | [] => (Ok tt, a')
    end.
Proof.
  intros Hc Hs. unfold finish_run. rewrite M_bind_gets, Hs. mstep (controller_returns WaitUntilStopped a Hc).
  mstep (controller_returns PrintFinalReport (set_trace (trace a ++ [WaitUntilStopped]) a) Hc).
  rewrite snoc_two. by destruct last.
Qed.

End Ending.

(** The first turn in which something happens decides how [Run] ends. *)
Lemma run_ends int_codec num_cpus env a a1 pre t post last :
  (forall past c, responds env past c = Ok tt) ->
  launch int_codec num_cpus env a = (Ok true, a1) -> supervising a1 ->
  Forall (uneventful a1) pre -> undisturbed t -> has_ended t || times_out a1 t || negb (bool_decide (exceptions t = [])) = true ->
  let joined := has_ended t || times_out a1 t in
  let '(r, a') := Run int_codec num_cpus env true (pre ++ t :: post) last a in
  match (if joined then last else exceptions t) with
  | ex :: _ => r = Throw (EJ ex) /\ m_exit_code a' = code UnhandledException
  | [] => r = Ok Break /\ m_exit_code a' = if times_out a1 t then code Timeout else m_exit_code a1
  end /\
  exists calls, trace a' = calls ++ if joined then [WaitUntilStopped; PrintFinalReport] else [RequestStop].
Proof.
  intros Henv HL Ha Hpre Hu Hev. cbn zeta. unfold Run. mstep HL. cbn [andb negb].
  destruct (monitor_waits int_codec num_cpus env Henv pre (t :: post) a1 Ha Hpre) as (a2 & C2 & E2).
  assert (Ha2 : supervising a2) by (unfold supervising; by destruct C2 as (-> & -> & -> & -> & _)).
  destruct (supervise_undisturbed int_codec num_cpus env Henv t a2 Ha2 Hu) as (a3 & C3 & E3).
  pose proof (same_course_trans _ _ _ C2 C3) as (Cc & _ & _ & Cs & Ce & _). destruct Ha as (Hc & _ & _ & Hs).
  rewrite Hc in Cc. rewrite Hs in Cs. rewrite (proj2 (proj2 (proj2 (proj2 (proj2 C2))))) in E3.
  unfold times_out in *. unfold mbind at 1, M_bind at 1. rewrite E2. cbn [monitor]. unfold mbind at 1, M_bind at 1. rewrite E3.
  destruct (has_ended t); cbn [orb negb andb] in *; [|destruct (m_timeout_on a1 && is_timed_out t); cbn [orb] in *].
  - cbn -[finish_run]. unfold mbind, M_bind. rewrite finish_run_ends by done. cbn zeta.
    destruct last; cbn; eauto.
  - cbn -[finish_run]. unfold mbind, M_bind. rewrite finish_run_ends by done. cbn zeta.
    destruct last; cbn; eauto.
  - destruct (exceptions t) as [|ex exs]; [done|]. cbn. eauto.
Qed.

(** C9: what [Run] tells its caller.  Suppose that the application has launched its workers, that no other thread
    interferes (nobody quits, inspects or sets the exit code), that skipping the join has not been asked for, and that the calls to the controller return.  Take the first turn in which something happens:
    the workers have ended, a worker times out, or a worker has failed.  If a failure is reported, in that
    turn or (if the workers ended or timed out) after they were joined, [Run] throws the first
    exception and the exit code is [UnhandledException].  Otherwise it returns, and the exit code is
    [Timeout] if there was a timeout, and else what it was.  The workers are joined and the final report is
    printed, except when [Run] throws from inside the loop: then the last call is [RequestStop]. *)
Theorem run_reports_how_it_ended int_codec num_cpus env a a1 pre t post last :
  (forall past c, responds env past c = Ok tt) ->
  launch int_codec num_cpus env a = (Ok true, a1) -> supervising a1 ->
  Forall (uneventful a1) pre -> undisturbed t -> has_ended t || times_out a1 t || negb (bool_decide (exceptions t = [])) = true ->
  let joined := has_ended t || times_out a1 t in
  let '(r, a') := Run int_codec num_cpus env true (pre ++ t :: post) last a in
  match (if joined then last else exceptions t) with
  | ex :: _ => r = Throw (EJ ex) /\ m_exit_code a' = code UnhandledException
  | [] => r = Ok Break /\ m_exit_code a' = if times_out a1 t then code Timeout else m_exit_code a1
  end /\
  exists calls, trace a' = calls ++ if joined then [WaitUntilStopped; PrintFinalReport] else [RequestStop].
Proof. exact (run_ends int_codec num_cpus env a a1 pre t post last). Qed.

(** Decimal numbers, for examples. *)
Definition decimal : Codec Z := {|
  stream_out n := NilZero.string_of_int (Z.to_int n);
  Stringify n := NilZero.string_of_int (Z.to_int n);
  Parse s := Ok (from_option Z.of_int 0 (NilZero.int_of_string s));
  Equals := Z.eqb
|}.

Definition calm : Environment := mkEnvironment (fun _ _ => Ok tt) (fun _ _ => false).
Definition launched : JApplication := (launch decimal 4 calm (new_application empty_manager)).2.
Definition working : Tick := mkTick None false [false] false false true false [] [].
Definition failing : Tick := mkTick None false [false] false false true false [mkex "bad event"] [].

Definition run_example : outcome LoopEnd * JApplication :=
  Run decimal 4 calm true [working; failing] [] (new_application empty_manager).

Lemma launched_is_supervising : supervising launched.
Proof. vm_compute. done. Qed.

Lemma launched_launches : launch decimal 4 calm (new_application empty_manager) = (Ok true, launched).
Proof. unfold launched. apply returns_value. vm_compute. reflexivity. Qed.

#[local] Opaque launched.

Lemma run_reports_how_it_ended_witness :
  (run_example.1 = Throw (EJ (mkex "bad event")) /\ m_exit_code run_example.2 = 1) /\
  exists calls, trace run_example.2 = calls ++ [RequestStop].
Proof.
  assert (Hw : Forall (uneventful launched) [working]).
  { apply Forall_singleton. split_and!; [done|done| |done]. unfold times_out. cbn. by rewrite andb_false_r. }
  assert (Hf : times_out launched failing = false) by (unfold times_out; cbn; by rewrite andb_false_r).
  pose proof (run_reports_how_it_ended decimal 4 calm (new_application empty_manager) launched [working] failing [] []
    (fun _ _ => eq_refl) launched_launches launched_is_supervising Hw (conj eq_refl eq_refl)) as H.
  rewrite Hf in H. specialize (H eq_refl). cbn [app] in H. revert H. unfold run_example.
  generalize (Run decimal 4 calm true [working; failing] [] (new_application empty_manager)). intros [r a'] H. exact H.
Defined.

(** ** Interrupts *)

Lemma Quit_calls env skip a : (forall past c, responds env past c = Ok tt) -> m_controller a = true -> m_initialized a = true ->
  exists a', Quit env skip a = (Ok tt, a') /\ m_sigint_count a' = m_sigint_count a /\
    trace a' = trace a ++ (if skip then [] else [RequestStop; WaitUntilStopped]) ++ [Exit (m_exit_code a)].
Proof.
  intros Henv Hc Hi. unfold Quit, Stop, log. rewrite M_bind_gets, Hi, M_bind_assoc, M_bind_modify, M_bind_assoc, M_bind_modify.
  rewrite M_bind_assoc, M_bind_gets. cbn [m_controller set_quitting set_skip_join]. rewrite Hc. destruct skip; cbn [negb andb].
  - rewrite M_bind_ret, M_bind_gets. by eexists.
  - rewrite M_bind_assoc, M_bind_gets. cbn [m_initialized set_quitting set_skip_join]. rewrite Hi. cbn [negb].
    rewrite M_bind_assoc. set (a1 := set_quitting true (set_skip_join false a)).
    mstep (controller_returns env Henv RequestStop a1 Hc).
    mstep (controller_returns env Henv WaitUntilStopped (set_trace (trace a1 ++ [RequestStop]) a1) Hc).
    rewrite M_bind_gets. eexists. split; [reflexivity|]. split; [done|]. cbn. by rewrite <- !app_assoc.
Qed.

(** The first interrupt pauses the workers and asks for the inspector; the second drains the workers, joins them
    and exits; the third, while that is still going on, exits at once, and so does any later one, with code -2. *)
Lemma interrupts_escalate env a : (forall past c, responds env past c = Ok tt) ->
  m_controller a = true -> m_initialized a = true -> 0 <= m_sigint_count a ->
  exists a', HandleSigint env a = (Ok (negb (m_sigint_count a =? 0)), a') /\ m_sigint_count a' = m_sigint_count a + 1 /\
    trace a' = trace a ++
      if m_sigint_count a =? 0 then [RequestPause]
      else if m_sigint_count a =? 1 then [RequestStop; WaitUntilStopped; Exit (m_exit_code a)]
      else if m_sigint_count a =? 2 then [Exit (m_exit_code a)]
      else [Exit (-2)].
Proof.
  intros Henv Hc Hi Hn. unfold HandleSigint. rewrite M_bind_modify, M_bind_gets. cbn [m_sigint_count set_sigint_count].
  set (n := m_sigint_count a) in *. set (a1 := set_sigint_count (n + 1) a).
  assert (Hc1 : m_controller a1 = true) by done. assert (Hi1 : m_initialized a1 = true) by done.
  destruct (Z.eqb_spec n 0) as [E|E0]; [|destruct (Z.eqb_spec n 1) as [E|E1]; [|destruct (Z.eqb_spec n 2) as [E|E2]]].
  - replace (n + 1 =? 1) with true by lia. rewrite M_bind_modify.
    mstep (controller_returns env Henv RequestPause (set_inspecting true a1) Hc1). by eexists.
  - replace (n + 1 =? 1) with false by lia. replace (n + 1 =? 2) with true by lia.
    destruct (Quit_calls env false a1 Henv Hc1 Hi1) as (a' & E' & Hn' & Ht'). mstep E'. by exists a'.
  - replace (n + 1 =? 1) with false by lia. replace (n + 1 =? 2) with false by lia. replace (n + 1 =? 3) with true by lia.
    destruct (Quit_calls env true a1 Henv Hc1 Hi1) as (a' & E' & Hn' & Ht'). mstep E'. by exists a'.
  - replace (n + 1 =? 1) with false by lia. replace (n + 1 =? 2) with false by lia. replace (n + 1 =? 3) with false by lia.
    by eexists.
Qed.

(** Before the controller exists, the first interrupt uses a null pointer. *)
Lemma early_interrupt_is_undefined env params : (HandleSigint env (new_application params)).1 = Undef.
Proof. done. Qed.

(** ** The inspector *)

(** No command that the user can type turns the timeout on again. *)
Definition timeout_off {A} (m : MA A) : Prop := forall a, m_timeout_on a = false -> m_timeout_on (m a).2 = false.

Lemma off_bind {A B} (m : MA A) (k : A -> MA B) : timeout_off m -> (forall x, timeout_off (k x)) -> timeout_off (x ← m; k x).
Proof.
  intros Hm Hk a Ha. specialize (Hm a Ha). unfold mbind, M_bind. destruct (m a) as [[x| |] a1]; [by apply Hk|done..].
Qed.

Lemma off_or_next {A B} (m : MA A) (next : MA B) k :
  timeout_off m -> timeout_off next -> (forall x, timeout_off (k x)) -> timeout_off (or_next m next k).
Proof.
  intros Hm Hn Hk a Ha. specialize (Hm a Ha). unfold or_next. destruct (m a) as [[x|e|] a1]; [by apply Hk|by apply Hn|done].
Qed.

Lemma off_on_params {A} (m : M JParameterManager A) : timeout_off (on_params m).
Proof. intros a Ha. unfold on_params. by destruct (m (m_params a)). Qed.

Create HintDb inspector.
#[local] Hint Resolve off_on_params : inspector.
#[local] Hint Extern 1 (timeout_off (mbind _ _)) => apply off_bind; [|intros ?] : inspector.
#[local] Hint Extern 1 (timeout_off (or_next _ _ _)) => apply off_or_next; [| |intros ?] : inspector.
#[local] Hint Extern 1 (timeout_off (if ?b then _ else _)) => destruct b : inspector.
#[local] Hint Extern 2 (timeout_off _) => (intros a Ha; exact Ha) : inspector.

Lemma off_controller env c : timeout_off (controller env c).
Proof. unfold controller, call, log. auto 10 with inspector. Qed.
#[local] Hint Resolve off_controller : inspector.

Lemma off_Stop env w : timeout_off (Stop env w).
Proof. unfold Stop. auto 10 with inspector. Qed.
#[local] Hint Resolve off_Stop : inspector.

Lemma off_user_call env c : timeout_off (user_call env c).
Proof. unfold user_call, log. auto 10 with inspector. Qed.
#[local] Hint Resolve off_user_call : inspector.

Lemma off_Quit env skip : timeout_off (Quit env skip).
Proof. unfold Quit, log. auto 15 with inspector. Qed.
#[local] Hint Resolve off_Quit : inspector.

Lemma off_launch int_codec num_cpus env : timeout_off (launch int_codec num_cpus env).
Proof. unfold launch, Initialize. auto 60 with inspector. Qed.
#[local] Hint Resolve off_launch : inspector.

(** Whatever is typed, the timeout is off after a session of the inspector, although processing goes on. *)
Lemma inspector_disables_timeout int_codec num_cpus env commands a e a' :
  Inspect int_codec num_cpus env commands a = (Ok e, a') -> m_timeout_on a' = false.
Proof.
  intros (e1 & a1 & HA & HE)%M_bind_inv. unfold InspectApplication in HA.
  apply M_bind_inv in HA as ([] & a2 & _ & HA). apply M_bind_inv in HA as ([] & a3 & _ & HA). rewrite M_bind_modify in HA.
  assert (Hs : timeout_off (session int_codec num_cpus env commands)).
  { clear. induction commands as [|[]]; cbn [session]; unfold Scale; auto 10 with inspector. }
  specialize (Hs (SetTimeoutEnabled false a3) eq_refl). rewrite HA in Hs. cbn in Hs.
  destruct e1; by injection HE as <- <-.
Qed.

End Application.
