(* ===== verification/JMain.v ===== *)
(** * JMain: the command line

    Model of [CLI/JMain.cc].  [argv] is the list of arguments after the name of the program.  The map of
    flags is the list of those that are set.  [PrintUsage] and the tables that are printed are left
    out.  The contents of a configuration file, what the processing controller reports and what the user types
    are arguments, as in the models of the parameter manager and of the application. *)

From stdpp Require Import sorting.
From Stdlib Require Import Ascii.
From S2P Require Import Prelude JParameterManager JApplication.
Import Parameters Application.
Local Open Scope Z_scope.

Module CommandLine.

Inductive Flag :=
| Unknown | ShowUsage | ShowVersion | ShowConfigs | LoadConfigs | DumpConfigs | Benchmark
| InspectCollection | InspectComponent | Interactive.

#[export] Instance Flag_eq_dec : EqDecision Flag.
Proof. solve_decision. Defined.

Record UserOptions := mkOptions {
  flags : list Flag;
  params : gmap string string;
  eventSources : list string;
  load_config_file : string;
  dump_config_file : string;
  collection_query : string;
  component_query : string
}.

Definition no_options : UserOptions := mkOptions [] ∅ [] EmptyString EmptyString EmptyString EmptyString.

Definition has_flag (f : Flag) (o : UserOptions) : bool := bool_decide (f ∈ flags o).

(** [options.flags[f] = true]. *)
Definition set_flag (f : Flag) (o : UserOptions) : UserOptions :=
  mkOptions (f :: flags o) (params o) (eventSources o) (load_config_file o) (dump_config_file o) (collection_query o) (component_query o).
Definition set_load (s : string) (o : UserOptions) : UserOptions :=
  mkOptions (flags o) (params o) (eventSources o) s (dump_config_file o) (collection_query o) (component_query o).
Definition set_dump (s : string) (o : UserOptions) : UserOptions :=
  mkOptions (flags o) (params o) (eventSources o) (load_config_file o) s (collection_query o) (component_query o).
Definition set_collection (s : string) (o : UserOptions) : UserOptions :=
  mkOptions (flags o) (params o) (eventSources o) (load_config_file o) (dump_config_file o) s (component_query o).
Definition set_component (s : string) (o : UserOptions) : UserOptions :=
  mkOptions (flags o) (params o) (eventSources o) (load_config_file o) (dump_config_file o) (collection_query o) s.
Definition add_source (s : string) (o : UserOptions) : UserOptions :=
  mkOptions (flags o) (params o) (eventSources o ++ [s]) (load_config_file o) (dump_config_file o) (collection_query o) (component_query o).
(** [params.insert({key, val})]: a key that is present keeps its value. *)
Definition insert_param (k v : string) (o : UserOptions) : UserOptions :=
  mkOptions (flags o) (if decide (is_Some (params o !! k)) then params o else <[k := v]> (params o))
    (eventSources o) (load_config_file o) (dump_config_file o) (collection_query o) (component_query o).

Definition tokenizer : list (string * Flag) :=
  [("-h", ShowUsage); ("--help", ShowUsage); ("-v", ShowVersion); ("--version", ShowVersion);
   ("-c", ShowConfigs); ("--configs", ShowConfigs); ("-l", LoadConfigs); ("--loadconfigs", LoadConfigs);
   ("-d", DumpConfigs); ("--dumpconfigs", DumpConfigs); ("-b", Benchmark); ("--benchmark", Benchmark);
   ("-i", Interactive); ("--interactive", Interactive);
   ("--inspect-collection", InspectCollection); ("--inspect-component", InspectComponent)]%string.

Fixpoint token (table : list (string * Flag)) (arg : string) : Flag :=
  match table with
  | [] => Unknown
  | (s, f) :: table => if bool_decide (s = arg) then f else token table arg
  end.

(** [argv[i][0] == '-']. *)
Definition dashed (arg : string) : bool :=
  match arg with String c _ => Ascii.eqb c "-" | EmptyString => false end.

(** The text before and after the first [=]. *)
Fixpoint split_eq (s : string) : option (string * string) :=
  match s with
  | EmptyString => None
  | String c s =>
      if Ascii.eqb c "=" then Some (EmptyString, s)
      else '(k, v) ← split_eq s; Some (String c k, v)
  end.

(** An argument that is not in the table. *)
Definition unknown (expect_extra : bool) (arg : string) (o : UserOptions) : UserOptions :=
  match arg with
  | String _ (String "P" kv) =>
      match split_eq kv with
      | Some (String c k, v) => insert_param (String c k) v o
      | _ => set_flag ShowConfigs o
      end
  | _ => if expect_extra then o else set_flag ShowUsage o
  end.

(** The loop over the arguments. *)
Fixpoint parse_args (expect_extra : bool) (args : list string) (o : UserOptions) : UserOptions :=
  match args with
  | [] => o
  | arg :: rest =>
      if negb (dashed arg) then parse_args expect_extra rest (add_source arg o)
      else
        match token tokenizer arg with
        | Unknown => parse_args expect_extra rest (unknown expect_extra arg o)
        | LoadConfigs =>
            match rest with
            | next :: rest' =>
                if negb (dashed next) then parse_args expect_extra rest' (set_load next (set_flag LoadConfigs o))
                else parse_args expect_extra rest (set_load "jana.config" (set_flag LoadConfigs o))
            | [] => set_load "jana.config" (set_flag LoadConfigs o)
            end
        | DumpConfigs =>
            match rest with
            | next :: rest' =>
                if negb (dashed next) then parse_args expect_extra rest' (set_dump next (set_flag DumpConfigs o))
                else parse_args expect_extra rest (set_dump "jana.config" (set_flag DumpConfigs o))
            | [] => set_dump "jana.config" (set_flag DumpConfigs o)
            end
        | InspectCollection =>
            match rest with
            | next :: rest' =>
                if negb (dashed next) then parse_args expect_extra rest' (set_collection next (set_flag InspectCollection o))
                else parse_args expect_extra rest (set_flag InspectCollection o)
            | [] => set_flag InspectCollection o
            end
        | InspectComponent =>
            match rest with
            | next :: rest' =>
                if negb (dashed next) then parse_args expect_extra rest' (set_component next (set_flag InspectComponent o))
                else parse_args expect_extra rest (set_flag InspectComponent o)
            | [] => set_flag InspectComponent o
            end
        | f => parse_args expect_extra rest (set_flag f o)
        end
  end.

Definition ParseCommandLineOptions (expect_extra : bool) (args : list string) : UserOptions :=
  parse_args expect_extra args (if bool_decide (args = []) then set_flag ShowUsage no_options else no_options).

(** ** Creating and executing the application *)

(** The parameters in the order of the map. *)
Definition sorted_options (o : UserOptions) : list (string * string) :=
  merge_sort (fun a b => String.leb a.1 b.1) (map_to_list (params o)).

(** [CreateJApplication]: the parameters and sources of the application; [None] if the process has
    exited because the configuration file, whose content is [file], could not be loaded. *)
Definition CreateJApplication (file : option line) (o : UserOptions) : outcome (option (JParameterManager * list string)) :=
  let '(r, ps) := for_each (sorted_options o) (fun kv => SetParameter (T := string) kv.1 kv.2) empty_manager in
  _ ← r;
  if has_flag LoadConfigs o then
    match ReadConfigFile file ps with
    | (Ok _, ps) => Ok (Some (ps, eventSources o))
    | (Throw (EJ _), _) => Ok None
    | (Throw e, _) => Throw e
    | (Undef, _) => Undef
    end
  else Ok (Some (ps, eventSources o)).

Section Execution.
Context (int_codec : Codec Z) (num_cpus : Z) (env : Environment).
(** What the benchmark does, whether a file can be opened for writing and the date. *)
Context (benchmark_params benchmark : MA unit) (is_open : bool) (created : line).

(** [catch]: the exit code says that there was an exception. *)
Definition or_exit_code (m : MA LoopEnd) : MA LoopEnd := fun a =>
  match m a with
  | (Throw _, a') => (Ok Break, SetExitCode (code UnhandledException) a')
  | r => r
  end.

(** The parameter that [JSignalHandler::register_handlers] declares. *)
Definition register_handlers : MA unit :=
  _ ← on_params (SetDefaultParameter "jana:status_fname" "/tmp/jana_status"%string
        "Filename of named pipe for retrieving instantaneous status info");
  mret tt.

(** [Execute]: the exit code; [None] if the process exits or goes on waiting. *)
Definition Execute (o : UserOptions) (ticks : list Tick) (last : list JException) (typed : list Command) : MA (option Z) :=
  _ ← register_handlers;
  e ← (if has_flag ShowConfigs o then
         _ ← Initialize int_codec num_cpus env;
         _ ← (if has_flag Benchmark o then benchmark_params else mret tt);
         _ ← on_params (PrintParameters 2 1);
         mret Break
       else if has_flag DumpConfigs o then
         _ ← Initialize int_codec num_cpus env;
         _ ← on_params (WriteConfigFile is_open created);
         mret Break
       else if has_flag InspectCollection o then _ ← Initialize int_codec num_cpus env; mret Break
       else if has_flag InspectComponent o then _ ← Initialize int_codec num_cpus env; mret Break
       else if has_flag Interactive o then
         _ ← Initialize int_codec num_cpus env;
         e ← Inspect int_codec num_cpus env typed;
         mret (match e with Continue => Break | e => e end)
       else if has_flag Benchmark o then _ ← benchmark_params; _ ← benchmark; mret Break
       else or_exit_code (Run int_codec num_cpus env true ticks last));
  match e with
  | Break => exit_code ← gets m_exit_code; mret (Some exit_code)
  | _ => mret None
  end.

(** [main] of the program [jana]. *)
Definition main (args : list string) (file : option line) (ticks : list Tick) (last : list JException)
    (typed : list Command) : outcome (option Z) :=
  let o := ParseCommandLineOptions false args in
  if has_flag ShowUsage o then Ok (Some (-1))
  else if has_flag ShowVersion o then Ok (Some (-1))
  else
    created ← CreateJApplication file o;
    match created with
    | None => Ok (Some (-1))
    | Some (ps, sources) => (Execute o ticks last typed (new_application ps)).1
    end.

End Execution.

(** ** Options that are written out are read back *)

Definition render_flag (o : UserOptions) (f : Flag) (args : list string) : list string :=
  if has_flag f o then args else [].

(** An argument that may be missing. *)
Definition optional (s : string) : list string := match s with EmptyString => [] | _ => [s] end.

Definition render_params (kvs : list (string * string)) : list string :=
  (fun kv => "-P" +:+ kv.1 +:+ "=" +:+ kv.2)%string <$> kvs.

(** A command line for given options: sources first, because a flag with an optional argument would take the
    source that follows it. *)
Definition render_flags (o : UserOptions) : list string :=
  render_flag o ShowUsage ["-h"%string] ++ render_flag o ShowVersion ["-v"%string] ++
  render_flag o ShowConfigs ["-c"%string] ++ render_flag o LoadConfigs ["-l"%string; load_config_file o] ++
  render_flag o DumpConfigs ["-d"%string; dump_config_file o] ++ render_flag o Benchmark ["-b"%string] ++
  render_flag o InspectCollection ("--inspect-collection"%string :: optional (collection_query o)) ++
  render_flag o InspectComponent ("--inspect-component"%string :: optional (component_query o)) ++
  render_flag o Interactive ["-i"%string].

Definition render (o : UserOptions) : list string :=
  eventSources o ++ render_params (map_to_list (params o)) ++ render_flags o.

Fixpoint has_eq (s : string) : bool :=
  match s with EmptyString => false | String c s => Ascii.eqb c "=" || has_eq s end.

(** Options that a command line can express. *)
Record expressible (o : UserOptions) : Prop := {
  ex_known : has_flag Unknown o = false;
  ex_some : render o <> [];
  ex_sources : Forall (fun s => dashed s = false) (eventSources o);
  ex_params : forall k v, params o !! k = Some v -> k <> EmptyString /\ has_eq k = false;
  ex_load : if has_flag LoadConfigs o then dashed (load_config_file o) = false else load_config_file o = EmptyString;
  ex_dump : if has_flag DumpConfigs o then dashed (dump_config_file o) = false else dump_config_file o = EmptyString;
  ex_collection : if has_flag InspectCollection o then dashed (collection_query o) = false else collection_query o = EmptyString;
  ex_component : if has_flag InspectComponent o then dashed (component_query o) = false else component_query o = EmptyString
}.

(** Equal up to the order in which flags were set. *)
Record same_options (o o' : UserOptions) : Prop := {
  sm_flags : forall f, has_flag f o = has_flag f o';
  sm_params : params o = params o';
  sm_sources : eventSources o = eventSources o';
  sm_load : load_config_file o = load_config_file o';
  sm_dump : dump_config_file o = dump_config_file o';
  sm_collection : collection_query o = collection_query o';
  sm_component : component_query o = component_query o'
}.

Lemma split_eq_render k v : has_eq k = false -> split_eq (k +:+ "=" +:+ v)%string = Some (k, v).
Proof.
  induction k as [|c k IH]; intros Hk; [done|]. cbn [has_eq] in Hk. change (String c k +:+ "=" +:+ v)%string with (String c (k +:+ "=" +:+ v)).
  cbn [split_eq]. apply orb_false_elim in Hk as [-> Hk]. by rewrite (IH Hk).
Qed.

Lemma parse_sources b ss rest o : Forall (fun s => dashed s = false) ss ->
  parse_args b (ss ++ rest) o = parse_args b rest (foldl (fun o s => add_source s o) o ss).
Proof.
  revert o. induction ss as [|s ss IH]; intros o Hs; [done|]. apply Forall_cons in Hs as [Hs Hss].
  cbn [app parse_args foldl]. rewrite Hs. by apply IH.
Qed.

Lemma foldl_sources o ss : foldl (fun o s => add_source s o) o ss =
  mkOptions (flags o) (params o) (eventSources o ++ ss) (load_config_file o) (dump_config_file o) (collection_query o) (component_query o).
Proof.
  revert o. induction ss as [|s ss IH]; intros o; cbn [foldl]; [destruct o; cbn; by rewrite app_nil_r|].
  rewrite IH. cbn. by rewrite <- app_assoc.
Qed.

Lemma token_param s : token tokenizer (String "-" (String "P" s)) = Unknown.
Proof. unfold tokenizer. cbn [token]. repeat (rewrite bool_decide_false by (intros [=])). done. Qed.

Lemma parse_param b k v rest o : k <> EmptyString -> has_eq k = false ->
  parse_args b (("-P" +:+ k +:+ "=" +:+ v)%string :: rest) o = parse_args b rest (insert_param k v o).
Proof.
  intros Hk He. change ("-P" +:+ k +:+ "=" +:+ v)%string with (String "-" (String "P" (k +:+ "=" +:+ v))). cbn [parse_args].
  change (dashed (String "-" _)) with true. cbn [negb].
  rewrite token_param. cbn [unknown].
  rewrite (split_eq_render k v He). by destruct k.
Qed.

Lemma parse_params b kvs rest o : Forall (fun kv => kv.1 <> EmptyString /\ has_eq kv.1 = false) kvs ->
  parse_args b (render_params kvs ++ rest) o = parse_args b rest (foldl (fun o kv => insert_param kv.1 kv.2 o) o kvs).
Proof.
  revert o. induction kvs as [|[k v] kvs IH]; intros o Hs; [done|]. apply Forall_cons in Hs as [[Hk He] Hs].
  change (render_params ((k, v) :: kvs)) with (("-P" +:+ k +:+ "=" +:+ v)%string :: render_params kvs).
  cbn [app]. rewrite parse_param by done. by apply IH.
Qed.

Lemma foldl_params o kvs : NoDup kvs.*1 -> (forall k, k ∈ kvs.*1 -> params o !! k = None) ->
  foldl (fun o kv => insert_param kv.1 kv.2 o) o kvs =
  mkOptions (flags o) (list_to_map kvs ∪ params o) (eventSources o) (load_config_file o) (dump_config_file o)
    (collection_query o) (component_query o).
Proof.
  revert o. induction kvs as [|[k v] kvs IH]; intros o Hd Hn; cbn [foldl fst snd].
  { destruct o. cbn. by rewrite (left_id_L ∅ (∪)). }
  cbn in Hd. apply NoDup_cons in Hd as [Hk Hd].
  assert (Ho : params o !! k = None) by (apply Hn; cbn; apply elem_of_cons; by left).
  assert (Hi : params (insert_param k v o) = <[k := v]> (params o)).
  { unfold insert_param. cbn [params]. rewrite decide_False; [done|]. rewrite Ho. by intros [? ?]. }
  rewrite IH; [|done|].
  - rewrite Hi. cbn [list_to_map foldr]. f_equal. change (<[k := v]> (list_to_map kvs) ∪ params o) with
      (<[k := v]> (list_to_map kvs : gmap string string) ∪ params o).
    rewrite <- insert_union_l, insert_union_r; [done|]. by apply not_elem_of_list_to_map_1.
  - intros k' Hk'. rewrite Hi, lookup_insert_ne by congruence. apply Hn. cbn. apply elem_of_cons. by right.
Qed.

(** What reading the arguments of flag [f] does. *)
Definition mark (o : UserOptions) (f : Flag) (effect : UserOptions -> UserOptions) (o1 : UserOptions) : UserOptions :=
  if has_flag f o then effect (set_flag f o1) else o1.

(** The next argument, if any, has a dash. *)
Definition no_bare (rest : list string) : Prop := match rest with [] => True | a :: _ => dashed a = true end.

Lemma no_bare_flag o f a args rest : dashed a = true -> no_bare rest -> no_bare (render_flag o f (a :: args) ++ rest).
Proof. intros Ha Hr. unfold render_flag. by destruct (has_flag f o). Qed.

Lemma parse_simple b o f a rest o1 : dashed a = true -> token tokenizer a = f ->
  f ∈ [ShowUsage; ShowVersion; ShowConfigs; Benchmark; Interactive] ->
  parse_args b (render_flag o f [a] ++ rest) o1 = parse_args b rest (mark o f id o1).
Proof.
  intros Ha Hf Hin. unfold render_flag, mark. destruct (has_flag f o); [|done]. cbn [app parse_args]. rewrite Ha, Hf. cbn [negb].
  repeat (apply elem_of_cons in Hin as [->|Hin]; [done|]). by apply elem_of_nil in Hin.
Qed.

Lemma parse_load b o rest o1 : (has_flag LoadConfigs o = true -> dashed (load_config_file o) = false) ->
  parse_args b (render_flag o LoadConfigs ["-l"%string; load_config_file o] ++ rest) o1 =
  parse_args b rest (mark o LoadConfigs (set_load (load_config_file o)) o1).
Proof.
  intros H. unfold render_flag, mark. destruct (has_flag LoadConfigs o); [|done]. cbn [app].
  change (parse_args b ("-l"%string :: load_config_file o :: rest) o1) with
    (if negb (dashed (load_config_file o)) then parse_args b rest (set_load (load_config_file o) (set_flag LoadConfigs o1))
     else parse_args b (load_config_file o :: rest) (set_load "jana.config" (set_flag LoadConfigs o1))). by rewrite H.
Qed.

Lemma parse_dump b o rest o1 : (has_flag DumpConfigs o = true -> dashed (dump_config_file o) = false) ->
  parse_args b (render_flag o DumpConfigs ["-d"%string; dump_config_file o] ++ rest) o1 =
  parse_args b rest (mark o DumpConfigs (set_dump (dump_config_file o)) o1).
Proof.
  intros H. unfold render_flag, mark. destruct (has_flag DumpConfigs o); [|done]. cbn [app].
  change (parse_args b ("-d"%string :: dump_config_file o :: rest) o1) with
    (if negb (dashed (dump_config_file o)) then parse_args b rest (set_dump (dump_config_file o) (set_flag DumpConfigs o1))
     else parse_args b (dump_config_file o :: rest) (set_dump "jana.config" (set_flag DumpConfigs o1))). by rewrite H.
Qed.

(** A query that is missing leaves the field as it is. *)
Definition set_unless_empty (setter : string -> UserOptions -> UserOptions) (s : string) (o : UserOptions) : UserOptions :=
  match s with EmptyString => o | _ => setter s o end.

Lemma parse_query b (set_query : string -> UserOptions -> UserOptions) f a q rest o1 : dashed a = true ->
  (forall next rest' o, parse_args b (a :: next :: rest') o =
     if negb (dashed next) then parse_args b rest' (set_query next (set_flag f o)) else parse_args b (next :: rest') (set_flag f o)) ->
  (forall o, parse_args b [a] o = set_flag f o) -> dashed q = false -> no_bare rest ->
  parse_args b ((a :: optional q) ++ rest) o1 = parse_args b rest (set_unless_empty set_query q (set_flag f o1)).
Proof.
  intros Ha Hmore Hend Hq Hr. destruct q as [|c q]; cbn [optional app set_unless_empty].
  - destruct rest as [|r rest]; [apply Hend|]. rewrite Hmore. by rewrite Hr.
  - by rewrite Hmore, Hq.
Qed.

Lemma parse_collection b o rest o1 : (has_flag InspectCollection o = true -> dashed (collection_query o) = false) -> no_bare rest ->
  parse_args b (render_flag o InspectCollection ("--inspect-collection"%string :: optional (collection_query o)) ++ rest) o1 =
  parse_args b rest (mark o InspectCollection (set_unless_empty set_collection (collection_query o)) o1).
Proof.
  intros H Hr. unfold render_flag, mark. destruct (has_flag InspectCollection o); [|done]. by apply parse_query; [..|apply H|].
Qed.

Lemma parse_component b o rest o1 : (has_flag InspectComponent o = true -> dashed (component_query o) = false) -> no_bare rest ->
  parse_args b (render_flag o InspectComponent ("--inspect-component"%string :: optional (component_query o)) ++ rest) o1 =
  parse_args b rest (mark o InspectComponent (set_unless_empty set_component (component_query o)) o1).
Proof.
  intros H Hr. unfold render_flag, mark. destruct (has_flag InspectComponent o); [|done]. by apply parse_query; [..|apply H|].
Qed.

(** A field that the effect of a flag does not touch. *)
Lemma mark_other {A} (field : UserOptions -> A) o f effect o1 :
  (forall x, field (effect x) = field x) -> (forall x, field (set_flag f x) = field x) -> field (mark o f effect o1) = field o1.
Proof. intros He Hs. unfold mark. destruct (has_flag f o); [by rewrite He, Hs|done]. Qed.

Lemma mark_flag o f effect o1 g : (forall x, flags (effect x) = flags x) ->
  has_flag g (mark o f effect o1) = has_flag f o && bool_decide (g = f) || has_flag g o1.
Proof.
  intros He. unfold mark. destruct (has_flag f o); [|done]. unfold has_flag. rewrite He. cbn [set_flag flags andb].
  rewrite <- bool_decide_or. apply bool_decide_ext, elem_of_cons.
Qed.

Lemma unless_empty_other {A} (field : UserOptions -> A) setter q :
  (forall s x, field (setter s x) = field x) -> forall x, field (set_unless_empty setter q x) = field x.
Proof. intros H x. destruct q; [done|apply H]. Qed.

(** The flags, as they are read one after the other. *)
Definition marks (o o1 : UserOptions) : UserOptions :=
  mark o Interactive id (mark o InspectComponent (set_unless_empty set_component (component_query o))
  (mark o InspectCollection (set_unless_empty set_collection (collection_query o)) (mark o Benchmark id
  (mark o DumpConfigs (set_dump (dump_config_file o)) (mark o LoadConfigs (set_load (load_config_file o))
  (mark o ShowConfigs id (mark o ShowVersion id (mark o ShowUsage id o1)))))))).

Lemma parse_flags b o o1 : expressible o -> parse_args b (render_flags o) o1 = marks o o1.
Proof.
  intros E. unfold render_flags, marks. destruct E as [_ _ _ _ Hl Hd Hc Hq].
  do 3 (rewrite parse_simple; [|done|done|set_solver]).
  rewrite parse_load by (intros Hf; by rewrite Hf in Hl). rewrite parse_dump by (intros Hf; by rewrite Hf in Hd).
  rewrite parse_simple; [|done|done|set_solver].
  rewrite parse_collection; [|intros Hf; by rewrite Hf in Hc|].
  2: { apply no_bare_flag; [done|]. rewrite <- (app_nil_r (render_flag _ _ _)). by apply no_bare_flag. }
  rewrite parse_component; [|intros Hf; by rewrite Hf in Hq|].
  2: { rewrite <- (app_nil_r (render_flag _ _ _)). by apply no_bare_flag. }
  rewrite <- (app_nil_r (render_flag _ _ _)). rewrite parse_simple; [done|done|done|set_solver].
Qed.

Lemma marks_flag o o1 g : has_flag Unknown o = false -> flags o1 = [] -> has_flag g (marks o o1) = has_flag g o.
Proof.
  intros Hu H1. unfold marks.
  rewrite !mark_flag by (done || (intros x; by apply (unless_empty_other flags))).
  assert (H0 : has_flag g o1 = false) by (unfold has_flag; by rewrite H1). rewrite H0.
  destruct g; cbn; by rewrite ?andb_false_r, ?andb_true_r, ?orb_false_r, ?Hu.
Qed.

Ltac skip_marks field :=
  repeat (rewrite (mark_other field); [|done || (intros ?; by apply (unless_empty_other field))|done]).

Lemma marks_fields o o1 : expressible o ->
  params (marks o o1) = params o1 /\ eventSources (marks o o1) = eventSources o1.
Proof. intros E. unfold marks. split; [skip_marks params|skip_marks eventSources]; done. Qed.

Lemma mark_set o f effect o1 (field : UserOptions -> string) s : field o1 = EmptyString ->
  (if has_flag f o then dashed s = false else s = EmptyString) ->
  (forall x, field x = EmptyString -> field (effect (set_flag f x)) = s) -> field (mark o f effect o1) = s.
Proof. intros H1 Hs He. unfold mark. destruct (has_flag f o); [by apply He|congruence]. Qed.

Lemma marks_texts o o1 : expressible o ->
  load_config_file o1 = EmptyString -> dump_config_file o1 = EmptyString ->
  collection_query o1 = EmptyString -> component_query o1 = EmptyString ->
  load_config_file (marks o o1) = load_config_file o /\ dump_config_file (marks o o1) = dump_config_file o /\
  collection_query (marks o o1) = collection_query o /\ component_query (marks o o1) = component_query o.
Proof.
  intros E Hl Hd Hc Hq. unfold marks. split_and!.
  - skip_marks load_config_file. apply mark_set; [|apply (ex_load _ E)|done]. by skip_marks load_config_file.
  - skip_marks dump_config_file. apply mark_set; [|apply (ex_dump _ E)|done]. by skip_marks dump_config_file.
  - skip_marks collection_query. apply mark_set; [|apply (ex_collection _ E)|].
    + by skip_marks collection_query.
    + intros x Hx. by destruct (collection_query o).
  - skip_marks component_query. apply mark_set; [|apply (ex_component _ E)|].
    + by skip_marks component_query.
    + intros x Hx. by destruct (component_query o).
Qed.

(** What is written on the command line is what the program runs with.  Options are expressible if sources, file
    names and queries do not begin with a dash and the names of parameters are not empty and contain no equals
    sign.  Writing such options out, sources first, and parsing the result gives back the same
    flags, parameters, sources, files and queries. *)
Theorem command_line_round_trip b o : expressible o -> same_options (ParseCommandLineOptions b (render o)) o.
Proof.
  intros E. unfold ParseCommandLineOptions. rewrite bool_decide_false by apply (ex_some _ E). unfold render.
  rewrite parse_sources, foldl_sources by apply (ex_sources _ E). rewrite parse_params.
  2: { apply Forall_forall. intros [k v] Hkv. apply (ex_params _ E k v). by apply elem_of_map_to_list. }
  rewrite foldl_params; [|apply NoDup_fst_map_to_list|intros; apply lookup_empty].
  rewrite parse_flags by done. cbn [flags params eventSources load_config_file dump_config_file collection_query component_query no_options].
  rewrite list_to_map_to_list, (right_id_L ∅ (∪)). cbn [app].
  set (o1 := mkOptions _ _ _ _ _ _ _). destruct (marks_fields o o1 E) as [Hp Hs].
  destruct (marks_texts o o1 E) as (Hl & Hd & Hc & Hq); [done..|].
  split; [|done..]. intros f. apply marks_flag; [apply (ex_known _ E)|done].
Qed.

Definition some_options : UserOptions :=
  mkOptions [Benchmark; LoadConfigs; InspectCollection] (<["nthreads"%string := "4"%string]> ∅) ["a.evio"; "b.evio"]%string
    "my.config" EmptyString EmptyString EmptyString.

Lemma command_line_round_trip_witness :
  render some_options = ["a.evio"; "b.evio"; "-Pnthreads=4"; "-l"; "my.config"; "-b"; "--inspect-collection"]%string /\
  same_options (ParseCommandLineOptions false (render some_options)) some_options.
Proof.
  split; [vm_compute; reflexivity|]. apply command_line_round_trip. split; try (vm_compute; done).
  - repeat constructor.
  - intros k v. unfold some_options. cbn [params]. intros [[<- <-]|[_ Hk]]%lookup_insert_Some; [done|by rewrite lookup_empty in Hk].
Defined.

(** Of two values for the same parameter the first one counts. *)
Lemma first_value_counts b v v' : params (ParseCommandLineOptions b ["-Pk=" +:+ v; "-Pk=" +:+ v']%string) = {["k"%string := v]}.
Proof. done. Qed.

(** ** The exit code of the process *)

(** The program is asked to process events, and nothing else. *)
Definition normal_mode (o : UserOptions) : Prop :=
  Forall (fun f => has_flag f o = false) [ShowConfigs; DumpConfigs; InspectCollection; InspectComponent; Interactive; Benchmark].

(** C34: the exit code says how the run ended.  Suppose that the program runs in its normal mode, that the workers have been launched, that no other
    thread interferes (nobody quits, inspects or sets the exit code), that skipping the join has not been asked for, and that the calls to the controller return.  Take the first turn in which the
    workers have ended, a worker has timed out or a worker has failed.  The program then exits, even if [Run] throws: with
    code 1 if an exception of a worker is reported, in that turn or after the workers have been joined; otherwise
    with 2 after a timeout, and with the code that user code has set if all went well. *)
Theorem exit_code_tells_how_it_ended int_codec num_cpus env bp bm is_open created o typed a a0 a1 pre t post last :
  normal_mode o -> (forall past c, responds env past c = Ok tt) ->
  register_handlers a = (Ok tt, a0) -> launch int_codec num_cpus env a0 = (Ok true, a1) -> supervising a1 ->
  Forall (uneventful a1) pre -> undisturbed t -> has_ended t || times_out a1 t || negb (bool_decide (exceptions t = [])) = true ->
  exists a', Execute int_codec num_cpus env bp bm is_open created o (pre ++ t :: post) last typed a =
    (Ok (Some (match (if has_ended t || times_out a1 t then last else exceptions t) with
               | _ :: _ => code UnhandledException
               | [] => if times_out a1 t then code Timeout else m_exit_code a1
               end)), a').
Proof.
  intros Ho Henv HR HL Ha Hpre Hu Hev. unfold Execute. mstep HR.
  unfold normal_mode in Ho. rewrite !Forall_cons in Ho. destruct Ho as (-> & -> & -> & -> & -> & -> & _).
  pose proof (run_ends int_codec num_cpus env a0 a1 pre t post last Henv HL Ha Hpre Hu Hev) as E. cbn zeta in E.
  unfold mbind at 1, M_bind at 1, or_exit_code. destruct (Run _ _ _ _ _ _ _) as [r a'].
  destruct (if has_ended t || times_out a1 t then last else exceptions t) as [|ex exs]; destruct E as [[-> Hc] _].
  - exists a'. rewrite <- Hc. done.
  - by eexists.
Qed.

Definition registered : JApplication := (register_handlers (new_application empty_manager)).2.
Definition up : JApplication := (launch decimal 4 calm registered).2.

Lemma registered_registers : register_handlers (new_application empty_manager) = (Ok tt, registered).
Proof. unfold registered. apply returns_value. vm_compute. reflexivity. Qed.

Lemma up_launches : launch decimal 4 calm registered = (Ok true, up).
Proof. unfold up. apply returns_value. vm_compute. reflexivity. Qed.

Lemma up_is_supervising : supervising up.
Proof. vm_compute. done. Qed.

Lemma up_exit_code : m_exit_code up = 0.
Proof. vm_compute. done. Qed.

#[local] Opaque registered up.

Definition ended : Tick := mkTick None false [true] true false true false [] [].

(** All goes well; and an exception is found only after the workers have been joined. *)
Lemma exit_code_tells_how_it_ended_witness :
  (exists a', Execute decimal 4 calm (mret tt) (mret tt) true [] no_options [working; ended] [] [] (new_application empty_manager)
     = (Ok (Some 0), a')) /\
  (exists a', Execute decimal 4 calm (mret tt) (mret tt) true [] no_options [working; ended] [mkex "late"] [] (new_application empty_manager)
     = (Ok (Some 1), a')).
Proof.
  assert (Hw : Forall (uneventful up) [working]).
  { apply Forall_singleton. split_and!; [done|done| |done]. unfold times_out. cbn. by rewrite andb_false_r. }
  assert (Ho : normal_mode no_options) by by repeat constructor.
  pose proof (fun last => exit_code_tells_how_it_ended decimal 4 calm (mret tt) (mret tt) true [] no_options [] (new_application empty_manager) registered
    up [working] ended [] last Ho (fun _ _ => eq_refl) registered_registers up_launches up_is_supervising Hw (conj eq_refl eq_refl) eq_refl) as H.
  split; [destruct (H []) as [a' E]|destruct (H [mkex "late"]) as [a' E]]; exists a'; cbn [app] in E; rewrite E; cbn; [by rewrite up_exit_code|done].
Defined.

End CommandLine.
